(* ===== verification/_CoqProject ===== *)
-Q . S2P
Prelude.v
Order.v
Effect.v
Text.v
Types.v
Addr.v
RefCodec.v
Spec.v
Base64.v
Files.v
Invite.v
IpnetRef.v
Ipam.v
Liveness.v
Store.v
Mesh.v
Peer.v
Probe.v
Deploy.v
Gateway.v
Dns.v
Sync.v
Heal.v
Ebpf.v
Dataplane.v
Container.v
Services.v
Wireguard.v
Bridge.v
Relay.v
Api.v
Daemon.v
Startup.v
Operations.v
Machines.v
Ssh.v
Settings.v
Install.v
Workload.v
Agent.v
Client.v
Sql.v
Corrosion.v
StoreRuntime.v
Membership.v
Profile.v
CorrosionStore.v
Live.v
Reports.v
Cli.v
