(* ===== verification/Prelude.v ===== *)
(** * A verification of ployz

    ployz runs services on a set of machines that form an encrypted mesh.  Each
    machine runs a daemon ([ployzd]); machines exchange their state through a
    replicated store (Corrosion); a deploy, coordinated by one machine, starts
    instances everywhere under locks and then commits the new releases; a gateway
    and a DNS server on each machine project the store's routing tables into the
    routes and names they serve; classifiers in the kernel send the containers'
    packets into the mesh.  This library models these parts in Rocq and proves
    what makes them correct.

    ** The parts and the files

    Each file models the code named here (paths under [src/crates] unless they
    start with [src/]); the definitions keep the names of the functions and types
    they translate, with a prefix where two of them share a name.

    Shared library.
    - [Prelude]: [Result] with its [?] operator ([x <-? e ;; k]), early-exit
      folds, maps collected from lists, tactics.  [Order]: total comparisons and
      [sort_by].  [Effect]: a monad of state, call log and errors
      ([x <-! e ;; k]) with weakest preconditions ([wp]) and the rules for what a
      computation adds to the log ([dspec], [emits], [preserves]).  [Text]: [str]
      operations on byte strings, decimal and hexadecimal printing.
    - [Addr]: IP and socket addresses as text.  [RefCodec]: the interface of JSON texts of
      records, with an implementation.  [Base64]: URL-safe base64.  [Files]:
      [std::fs] with failures at any operation.  [IpnetRef]: an implementation of
      the [ipnet] interface of [Types].

    Data and specifications.
    - [Types]: [ployz-types/src/model.rs], [spec.rs], [error.rs], the records and
      enumerations; the [ipnet] crate as the interface [Ipnet] with [IpnetLaws].
    - [Spec]: [ployz-types/src/spec.rs], validation, durations, content hash.
    - [Invite]: [ployzd/src/mesh_state], invite tokens, network configuration and
      bootstrap peers on disk; identities of [ployz-runtime-api].

    The mesh.
    - [Ipam]: [ployz-orchestrator/src/ipam.rs].  [Liveness]:
      [machine_liveness.rs] and the tasks that write the local machine record.
      [Mesh]: [mesh/phase.rs], [mesh/orchestrator.rs].  [Peer]: [mesh/peer.rs],
      [peer_state.rs], [tasks/peer_sync.rs].  [Probe]: [mesh/probe.rs], both ends
      of the reachability probe.  [Heal]: duplicate subnet claims
      ([handlers/machine/heal.rs], [tasks/subnet_claim_monitor.rs]).
    - [Ebpf]: [mesh/tasks/ebpf_sync.rs].  [Dataplane]: the kernel programs
      ([src/ebpf/src/main.rs], [ebpf-common]), the tool [ployz-bpfctl] and
      [runtime-backends/src/mesh/dataplane.rs].
    - [Wireguard]: [runtime-backends/src/mesh/wireguard], the configuration texts
      and the three backends that program peers ([config.rs], [docker.rs],
      [sidecar.rs], [host.rs]), and the choice among them in [driver.rs].
      [Bridge]: [network/docker_bridge.rs], the Docker network of a machine's
      subnet, and [mesh/endpoints.rs], the endpoints a machine announces.
      [Relay]: the event loop of [wireguard/bridge.rs], which carries TCP
      connections of the host into the overlay.

    The store.
    - [Store]: [ployz-store-api], the in-memory store and its subscriber channels;
      the class [ReleaseStore] states what deploys rely on.
    - [Sql]: the SQL the sources use, as an interpreter of statement texts over
      tables.  [Corrosion]: the schema and the statements of
      [ployz-corrosion/src/store/tables].  [CorrosionStore]: its reads, writes and
      commits.  [Live]: the subscriptions that keep routing tables and machines
      current.  [Client]: [ployz-corrosion/src/client.rs], the line codec, the
      requests and the subscription stream with its reconnects.
    - [StoreRuntime]: the Corrosion agent, as a process and as a container
      ([runtime-backends/src/runtime/corrosion.rs]), and its configuration
      ([ployz-config/src/corrosion.rs]).  [Membership]: the agent's database read
      at a start ([ployz-corrosion/src/bootstrap.rs]), its admin socket
      ([admin.rs]), and connecting to it ([store/mod.rs]).

    Deploys and what serves them.
    - [Deploy]: [ployz-orchestrator/src/deploy/mod.rs].  [Agent]:
      [ployzd/src/daemon/deploy_control], locks, the session protocol and the
      agent that carries a session out.  [Workload]:
      [runtime-backends/src/deploy/local.rs] and the readiness probes.
      [Container]: [runtime-backends/src/runtime], the container specification,
      its comparison with what runs, and the engine.
    - [Gateway]: [ployz-gateway].  [Dns]: [ployz-dns].  [Sync]: their sync loops,
      interleaved with writes to the store, over the class [RoutingView].

    The daemon.
    - [Services]: [ployzd/src/services], the supervised gateway and DNS server.
      [Api]: the requests and responses of [ployz-api] and the daemon's answers.
      [Daemon]: [daemon/mod.rs], [daemon/setup.rs], [handlers/mesh.rs],
      [handlers/invite.rs], [handlers/mod.rs].  [Startup]: what is running after
      each of them.  [Operations]: [handlers/machine/operations.rs], the record of
      machine operations on disk.  [Machines]: [handlers/machine/join.rs],
      [list.rs], [render.rs], the SSH arguments and the client of [ployz-sdk].
      [Ssh]: [daemon/ssh.rs], the key file of an operation and its commands.
      [Reports]: [handlers/doctor.rs], [status.rs], [debug.rs], [deploy.rs].
      [Cli]: the commands of [ployzd/src/cli.rs], the readers of [cli_io.rs] and
      the requests [request_builder.rs] makes of them.
    - [Profile]: [runtime_profile.rs], the components of a network for each
      backend (with [mesh/driver.rs]), and the workloads around a heal.
      [Settings]: [ployz-config/src/lib.rs], [platform.rs],
      [built_in_images.rs].  [Install]: [install.rs], the manifest, the services
      and the binaries of an installation.

    ** How code is modelled

    Pure functions are functions.  Fallible code returns [result].  Mutable
    objects are records passed along.  Asynchronous code that calls drivers, the
    store, files, processes or other machines runs in the monad of [Effect]: every
    outside call is appended to a log and answered by an environment that is
    universally quantified and may answer each call by the whole log so far, so
    failures at any point and any change of the outside world are covered.  Tasks
    that react to messages are step functions or step relations, and theorems
    quantify over sequences of inputs.  [u8], [u16], [u32] and [u64] are [N] with
    the wrap-around, saturation, checked operation or overflow panic of the source
    written out where it can occur; words read from packets are little-endian
    bytes; addresses are 32-bit numbers or 16 octets; strings are byte strings;
    [HashMap] and [BTreeMap] are [gmap], and the iteration order of a [HashMap] is
    the order of [map_to_list], which no theorem relies on.  Third-party code
    (JSON, [ipnet], base64, Ed25519, Docker, the load balancer, the kernel) is an
    argument with its documented behaviour as named laws, and each set of laws has
    an instance.

    ** Fuel

    Loops that are not structural take fuel, and a theorem shows that it is
    enough: [Ipam.allocate_loop] (the steps that fit in the cluster plus two,
    [ipam_allocate_first_free]); [Client.decode_loop] and [drain] (the buffer's
    length plus two, [lines_any_chunks]); [Client.sub_next] (eleven, the
    reconnects allowed plus one); [Workload.probe_wait_ready]
    ([wait_ready_exact] gives the number of rounds from the probe's timing);
    [Machines.ready_loop] ([ready_wait_terminates]: the rounds that fit in the
    time limit); [Relay.drain_held] (the packets the tunnel holds plus one,
    [drain_held_spec]); [Membership.membership_loop] (the bytes of the reply plus one,
    [membership_loop_total]).  The SQL parser's fuel is the number of tokens.

    ** What is proved

    - Deploys.  A commit refers to running instances only, started or kept before
      it, and nothing a committed release refers to is drained or removed
      ([Deploy.apply_publishes_running]); participants are locked in a fixed order
      and released whatever happens ([apply_lock_order]); placement
      ([desired_slots_placement]); a second deploy of the same manifest has
      nothing to do ([deploy_converges]).  Exporting a namespace after a deploy
      gives the manifest deployed ([Reports.export_after_deploy]); deploying one
      service from the command line replaces that service and no other
      ([Cli.service_deploy_replaces_one]).
    - Sessions.  A session over TCP does what one in the same process does
      ([Agent.tcp_session_equiv]); the lock is held exactly as long as the session
      lives ([session_lock_scope]); a candidate is recorded ready only after its
      probe succeeded ([start_candidate_outcome]); waiting for readiness ends with
      the first decisive answer ([Workload.wait_ready_exact]).
    - Containers.  Ensuring a container twice changes nothing
      ([Container.ensure_idempotent]).
    - The Corrosion store.  Running the statements' texts refines the in-memory
      store, operation by operation and over any sequence
      ([CorrosionStore.corrosion_refines_memory]), and the reads return exactly
      the stored rows ([corrosion_reads_exact]); live tables follow the database
      ([Live.live_routing_current], [machine_subscription_replay]); a reconnecting
      subscription delivers every change once ([Client.subscription_exactly_once])
      and lines do not depend on the chunks they arrive in ([lines_any_chunks]).
    - The Corrosion agent.  At most one runs, the one recorded, after any starts,
      stops and checks ([StoreRuntime.host_corrosion_owned]); a started container
      is the one asked for ([docker_corrosion_service]); the sync status follows
      from the newest report of each member and the agent's gaps
      ([Membership.sync_status_exact]); the machines read at a start are those of
      the table ([bootstrap_reads_machines]), which the schema does not allow
      ([restart_finds_no_columns]).
    - The in-memory store.  Subscribers see every change or are dropped
      ([Store.subscription_complete]).
    - The gateway and DNS.  Backends are exactly the ready instances of the
      release ([Gateway.gateway_backends_exact]); a request gets the most specific
      route ([match_http_route_best]) and a backend of it
      ([request_served_by_route]); coalescing and dropping signals loses no change
      ([Sync.sync_never_stale]).
    - The mesh.  The outcome of [up] on every failure ([Mesh.up_outcome]); ready
      means operational in every reachable state ([ready_means_operational]); the
      peers programmed into the device refine the machines known
      ([Peer.peer_sync_plan]).
    - WireGuard.  The configuration text is read back as the peers it was written
      from ([Wireguard.sync_config_roundtrip]); loading it leaves the device with
      exactly those peers, whatever it had ([docker_set_peers_exact], and
      [host_set_peers_exact] for the kernel backend); handshake times are read
      back ([handshakes_read_back]); at most one bridge runs, the one the backend
      has recorded ([bridge_owned]).  The container network after a change of
      subnet ([Bridge.subnet_change_network]); the endpoints a machine announces
      are read back by its peers and never lead through the overlay
      ([endpoints_usable]).  The relay keeps connections apart and in order, gives
      every packet to the tunnel and takes datagrams of the peer only
      ([Relay.relay_streams_exact]); it loses what the other side does not take at
      once ([relay_drops_bytes]).
    - Reports.  The doctor says healthy exactly when every other fresh machine
      answers its probe, which participation does not require
      ([Reports.doctor_verdict]); a debug tick runs its task as often as asked
      ([debug_tick_rounds]).
    - Addresses.  Allocation is sound and within bounds
      ([Ipam.ipam_allocate_sound], [sub_allocate_spec]); clashing claims are
      resolved in fewer rounds than there are machines ([Heal.heal_converges]), and
      a machine moves only when and where it may ([heal_guard]).
    - The dataplane.  The classifier is longest-prefix matching over the lengths
      it tries ([Dataplane.classify_longest_prefix]); the native dataplane and the
      one through the tool edit the tables alike, completely or not at all
      ([dataplane_calls_atomic]); from an attach over any run of the sync task, a
      packet is redirected exactly when a remote machine's subnet contains its
      destination ([overlay_egress_exact]), with the interface that is missing in
      each build ([overlay_family_lost]).
    - The daemon.  Starting a mesh either publishes everything it started or shuts
      it down again ([Startup.start_mesh_transaction]); the running components are
      those the daemon's state owns, after any sequence of requests
      ([daemon_owns_components]); a joining machine gets the subnet of its invite
      ([invite_join_subnet]); the components built for a network fit together: the
      store's client reaches the address that the agent is told to listen on
      ([Profile.components_agree]); a heal starts again what it stopped
      ([heal_restores_workloads]), unless an attempt before it failed
      ([heal_retry_forgets]).
    - Installations.  Binaries are replaced whole or not at all, whatever fails
      ([Install.promote_atomic]); a successful installation ran exactly the
      commands of its service manager and left a manifest that reads back as the
      one returned ([install_recorded]), which the shell reads alike
      ([manifest_roundtrip]).  Which layer a setting comes from
      ([Settings.settings_precedence]).
    - Invites.  Tokens are read back as issued ([Invite.invite_token_roundtrip]);
      the bootstrap peers file stays well-formed ([bootstrap_peers_wf]).
    - Adding machines.  A machine is added, or what was done to it is undone
      ([Machines.machine_add_outcome]); subnets handed out are new and distinct
      ([machine_subnets_fresh]); the installer gets exactly its arguments through
      the remote shell ([install_command_words]); no operation is left running
      after a restart ([reconcile_settles]); waiting for the machine ends
      ([ready_wait_terminates]).  The private key of an operation is never
      readable by others and goes with the operation ([Ssh.identity_private]).
    - Probes.  Only a machine that serves the probe counts as reachable
      ([Probe.probe_served], [probe_answered]), and each address has the result of
      its own probe ([probe_results_exact]).

    Theorems that show a defect ([Deploy.apply_never_records_failure],
    [Gateway.route_id_collision], [Mesh.late_start_failure],
    [Dns.dns_uppercase_unreachable], [Sync.sync_startup_race],
    [Ebpf.ebpf_stale_route], [Live.invalidator_stuck_after_gap],
    [Startup.heal_restart_stops_services], [Machines.add_member_destroys_it],
    [Membership.restart_finds_no_columns], [StoreRuntime.stop_after_exit] and the
    like) stand next to the definitions they are about.

    ** What is not modelled

    Clap's parsing of the command line and the rendering of responses, the
    entry points, the DNS wire format and HTTP transport, the texts of serde,
    figment and toml, and the end-to-end tests. Time is an argument or an
    answer of the environment; a bounded wait ([poll_until], [timeout]) is one
    answer. The additions of several machines, which the daemon runs
    concurrently, run one after another in the model. What the kernel does
    with the classifiers when the tool's process ends is outside the model. *)

From stdpp Require Export base tactics decidable option list sets gmap strings.
From Stdlib Require Export NArith.

(** ** Results of fallible code *)

(** Rust's [Result<A, E>]. *)
Inductive result (E A : Type) : Type :=
| Ok (a : A)
| Err (e : E).
Arguments Ok {E A} a.
Arguments Err {E A} e.

#[global] Instance result_eq_dec `{EqDecision E, EqDecision A} : EqDecision (result E A).
Proof. solve_decision. Defined.

(** The [?] operator. *)
Definition rbind {E A B : Type} (m : result E A) (k : A -> result E B) : result E B :=
  match m with Ok a => k a | Err e => Err e end.

Definition map_err {E F A : Type} (f : E -> F) (m : result E A) : result F A :=
  match m with Ok a => Ok a | Err e => Err (f e) end.

Definition is_ok {E A : Type} (m : result E A) : bool :=
  match m with Ok _ => true | Err _ => false end.

(** [Result::ok]. *)
Definition ok {E A : Type} (m : result E A) : option A :=
  match m with Ok a => Some a | Err _ => None end.

(** [Option::ok_or]. *)
Definition ok_or {E A : Type} (o : option A) (e : E) : result E A :=
  match o with Some a => Ok a | None => Err e end.

Declare Scope ployz_scope.
Delimit Scope ployz_scope with ployz.
Notation "x <-? e ;; k" := (rbind e (fun x => k))
  (at level 100, e at next level, right associativity) : ployz_scope.
Open Scope ployz_scope.

Lemma rbind_Ok {E A B} (m : result E A) (k : A -> result E B) b :
  rbind m k = Ok b <-> exists a, m = Ok a /\ k a = Ok b.
Proof. destruct m; simpl; naive_solver. Qed.

(** A loop that runs a fallible body over a list, stopping at the first error
    ([for x in l { body?; }]). *)
Fixpoint try_fold {E A S : Type} (body : S -> A -> result E S) (s : S) (l : list A) : result E S :=
  match l with
  | [] => Ok s
  | x :: l => s' <-? body s x ;; try_fold body s' l
  end.

Lemma try_fold_app {E A S} (body : S -> A -> result E S) l1 l2 s :
  try_fold body s (l1 ++ l2) = (s' <-? try_fold body s l1 ;; try_fold body s' l2).
Proof. revert s; induction l1 as [|x l1 IH]; intros s; simpl; [done|]. by destruct (body s x); simpl. Qed.

(** An invariant of a fallible loop, indexed by the prefix already processed. *)
Lemma try_fold_ind {E A S} (P : list A -> S -> Prop) (body : S -> A -> result E S) s0 :
  P [] s0 ->
  (forall done x s s', P done s -> body s x = Ok s' -> P (done ++ [x]) s') ->
  forall l s', try_fold body s0 l = Ok s' -> P l s'.
Proof.
  intros H0 Hstep l. induction l as [|x l IH] using rev_ind; intros s'.
  - simpl; intros [= <-]; done.
  - rewrite try_fold_app, rbind_Ok. intros (s1 & H1 & H2). simpl in H2.
    apply rbind_Ok in H2 as (s2 & H2 & [= <-]). eauto.
Qed.

(** A loop that appends what a fallible function gives for each element. *)
Definition ok_list {E A : Type} (m : result E (list A)) : list A :=
  match m with Ok l => l | Err _ => [] end.

Lemma try_fold_collect {E A B} (f : A -> result E (list B)) l acc out :
  try_fold (fun acc x => new <-? f x ;; Ok (acc ++ new)) acc l = Ok out <->
  (forall x, x ∈ l -> is_ok (f x) = true) /\ out = acc ++ (l ≫= fun x => ok_list (f x)).
Proof.
  revert acc. induction l as [|x l IH]; intros acc; csimpl.
  - rewrite app_nil_r. split; [intros [= ->]; split; [set_solver|done]|by intros [_ ->]].
  - destruct (f x) as [new|e] eqn:Hx; simpl.
    + rewrite IH, <- app_assoc. setoid_rewrite elem_of_cons. split; intros [H ->]; split; try done; [|by auto].
      intros y [->|Hy]; [by rewrite Hx|auto].
    + split; [done|]. intros [H _]. specialize (H x ltac:(left)). by rewrite Hx in H.
Qed.

(** [l.iter().map(f).collect::<Result<Vec<_>, _>>()]. *)
Fixpoint try_map {E A B : Type} (f : A -> result E B) (l : list A) : result E (list B) :=
  match l with [] => Ok [] | x :: l => y <-? f x ;; ys <-? try_map f l ;; Ok (y :: ys) end.
Lemma try_map_ok {E A B} (f : A -> result E B) (g : A -> B) l :
  (forall x, x ∈ l -> f x = Ok (g x)) -> try_map f l = Ok (g <$> l).
Proof.
  induction l as [|x l IH]; intros Hf; simpl; [done|]. rewrite Hf by left. simpl.
  by rewrite IH by (intros; apply Hf; by right).
Qed.

(** ** Lists *)

(** Elements with distinct keys are determined by their key. *)
Lemma NoDup_fmap_elem {A K} (f : A -> K) (l : list A) x y :
  NoDup (f <$> l) -> x ∈ l -> y ∈ l -> f x = f y -> x = y.
Proof.
  intros Hnd [i Hi]%list_elem_of_lookup [j Hj]%list_elem_of_lookup Hf.
  assert (i = j) as ->; [|congruence].
  eapply NoDup_lookup; [exact Hnd|by rewrite list_lookup_fmap, Hi|by rewrite list_lookup_fmap, Hj, Hf].
Qed.

Lemma list_find_elem {A} (P : A -> Prop) `{!forall x, Decision (P x)} (l : list A) x :
  snd <$> list_find P l = Some x -> x ∈ l /\ P x.
Proof.
  destruct (list_find P l) as [[i y]|] eqn:E; [|done]. intros [= ->].
  apply list_find_Some in E as (? & ? & _). split; [by eapply list_elem_of_lookup_2|done].
Qed.

Section filter.
Context {A : Type} (P : A -> Prop) `{!forall x, Decision (P x)}.
Lemma filter_none l : (forall x, x ∈ l -> ~ P x) -> filter P l = [].
Proof.
  induction l as [|x l IH]; intros Hn; [done|]. rewrite filter_cons_False by (apply Hn; left). apply IH. set_solver.
Qed.
Lemma filter_one l x : NoDup l -> x ∈ l -> P x -> (forall y, y ∈ l -> P y -> y = x) -> filter P l = [x].
Proof.
  intros Hnd Hx Hp Hu. apply list_elem_of_split in Hx as (l1 & l2 & ->). apply NoDup_app in Hnd as (_ & Hd & Hnd2).
  apply NoDup_cons in Hnd2 as [Hx2 _]. rewrite filter_app, filter_cons_True, !filter_none; [done| | |done].
  - intros y Hy Hpy. apply Hx2. rewrite <- (Hu y); [done|set_solver|done].
  - intros y Hy Hpy. apply (Hd y Hy). rewrite (Hu y); [set_solver|set_solver|done].
Qed.
End filter.

(** ** Maps *)

Section index_by.
Context {K A : Type} `{Countable K} (f : A -> K).

(** [l.into_iter().map(|x| (f(x), x)).collect::<HashMap<_, _>>()] on top of
    [m]: a later element replaces an earlier one with the same key. *)
Definition insert_all (m : gmap K A) (l : list A) : gmap K A := foldl (fun m x => <[f x := x]> m) m l.
Definition index_by (l : list A) : gmap K A := insert_all ∅ l.

Lemma insert_all_lookup m l k :
  insert_all m l !! k =
  match last (filter (fun x => f x = k) l) with Some x => Some x | None => m !! k end.
Proof.
  unfold insert_all. induction l as [|x l IH] using rev_ind; [done|].
  rewrite foldl_app, filter_app. simpl. rewrite filter_cons, filter_nil.
  case_decide as Hk; [by subst; rewrite lookup_insert_eq, last_snoc|].
  by rewrite lookup_insert_ne, IH, app_nil_r.
Qed.

Lemma index_by_Some l k x : index_by l !! k = Some x -> x ∈ l /\ f x = k.
Proof.
  unfold index_by. rewrite insert_all_lookup. destruct (last _) as [y|] eqn:E; [|by rewrite lookup_empty].
  intros [= <-]. apply last_Some_elem_of in E. by apply list_elem_of_filter in E as [? ?].
Qed.

Lemma index_by_None l k : index_by l !! k = None <-> k ∉ f <$> l.
Proof.
  unfold index_by. rewrite insert_all_lookup. split.
  - destruct (last _) as [y|] eqn:E; [done|]. intros _ (x & -> & Hx)%list_elem_of_fmap.
    apply last_None in E. assert (x ∈ filter (fun y => f y = f x) l) as Hin by (by apply list_elem_of_filter).
    rewrite E in Hin. by apply elem_of_nil in Hin.
  - intros Hk. destruct (last _) as [y|] eqn:E; [|by apply lookup_empty]. exfalso. apply Hk.
    apply last_Some_elem_of in E. apply list_elem_of_filter in E as [<- Hy]. by apply list_elem_of_fmap_2.
Qed.

(** With distinct keys the index finds exactly the elements. *)
Lemma index_by_NoDup l k x : NoDup (f <$> l) -> index_by l !! k = Some x <-> x ∈ l /\ f x = k.
Proof.
  intros Hnd. split; [apply index_by_Some|]. intros [Hx Hk].
  destruct (index_by l !! k) as [y|] eqn:E.
  - apply index_by_Some in E as [Hy Hfy]. f_equal. apply (NoDup_fmap_elem f l); congruence.
  - apply index_by_None in E. exfalso. apply E. subst. by apply list_elem_of_fmap_2.
Qed.

Lemma index_by_perm l1 l2 : NoDup (f <$> l1) -> l1 ≡ₚ l2 -> index_by l1 = index_by l2.
Proof.
  intros Hnd Hp. apply map_eq. intros k. apply option_eq. intros x.
  rewrite !index_by_NoDup by (done || by rewrite <- Hp). by rewrite Hp.
Qed.

Lemma map_values_elem (m : gmap K A) (x : A) : x ∈ (map_to_list m).*2 <-> exists k, m !! k = Some x.
Proof.
  rewrite list_elem_of_fmap. split.
  - intros ([k y] & -> & Hk%elem_of_map_to_list). eauto.
  - intros (k & Hk). exists (k, x). by rewrite elem_of_map_to_list.
Qed.

(** Values stored under a key they determine are listed once, and indexing
    them again gives the map back. *)
Lemma map_values_NoDup (m : gmap K A) :
  map_Forall (fun k x => f x = k) m -> NoDup (f <$> (map_to_list m).*2).
Proof.
  intros Hm. rewrite <- list_fmap_compose.
  rewrite (list_fmap_ext (f ∘ snd) fst); [apply NoDup_fst_map_to_list|].
  intros i [k x] Hi%list_elem_of_lookup_2. apply elem_of_map_to_list in Hi. by apply Hm in Hi.
Qed.

Lemma index_by_values (m : gmap K A) :
  map_Forall (fun k x => f x = k) m -> index_by (map_to_list m).*2 = m.
Proof.
  intros Hm. apply map_eq. intros k. apply option_eq. intros x.
  rewrite index_by_NoDup by (by apply map_values_NoDup). rewrite map_values_elem. split.
  - intros [[k' Hk'] Hk]. pose proof (Hm _ _ Hk'). simpl in *. congruence.
  - intros Hk. split; [eauto|]. by apply Hm in Hk.
Qed.
End index_by.

(** ** Machine integers *)

Definition i64_max : Z := 9223372036854775807.
Definition i64_min : Z := -9223372036854775808.
(** [n as i64] of a [u64], and the wrapped product of two [i64]. *)
Definition wrap_i64 (z : Z) : Z :=
  let m := (z mod 18446744073709551616)%Z in
  if (m <=? i64_max)%Z then m else (m - 18446744073709551616)%Z.
Definition as_i64 (n : N) : Z := wrap_i64 (Z.of_N n).

Lemma as_i64_small n : (Z.of_N n <= i64_max)%Z -> as_i64 n = Z.of_N n.
Proof.
  intros Hn. unfold as_i64, wrap_i64. rewrite Z.mod_small by (unfold i64_max in Hn; lia).
  by rewrite (proj2 (Z.leb_le _ _)).
Qed.

(** ** Tactics of the development *)

(** Destruct the scrutinee of a [match] or [if] of the goal or a hypothesis. *)
Ltac break_match :=
  match goal with
  | |- context [match ?x with _ => _ end] => destruct x eqn:?
  | H : context [match ?x with _ => _ end] |- _ => destruct x eqn:?
  end.

(** Turn boolean tests into propositions. *)
Ltac to_prop :=
  repeat match goal with
  | H : bool_decide _ = true |- _ => apply bool_decide_eq_true in H
  | H : bool_decide _ = false |- _ => apply bool_decide_eq_false in H
  | H : (_ && _)%bool = true |- _ => apply andb_true_iff in H; destruct H
  | H : (_ || _)%bool = false |- _ => apply orb_false_iff in H; destruct H
  | H : negb _ = true |- _ => apply negb_true_iff in H
  | H : negb _ = false |- _ => apply negb_false_iff in H
  | H : N.leb _ _ = true |- _ => apply N.leb_le in H
  | H : N.leb _ _ = false |- _ => apply N.leb_gt in H
  | H : N.ltb _ _ = true |- _ => apply N.ltb_lt in H
  | H : N.ltb _ _ = false |- _ => apply N.ltb_ge in H
  | H : N.eqb _ _ = true |- _ => apply N.eqb_eq in H
  | H : N.eqb _ _ = false |- _ => apply N.eqb_neq in H
  end.

(** Split all matches, clean equations and close the arithmetic. *)
Ltac crush := repeat (simplify_eq/=; try break_match); to_prop; simplify_eq/=; try done; try lia.
