(* ===== verification/Order.v ===== *)
(** * Orderings and sorting

    Rust's [Ordering]-valued comparators, the laws [sort_by] needs from them,
    [Ordering::then_with], and stable sorting.  [sort_by] is Rust's
    [slice::sort_by]: for a comparator that is a total preorder the sorted,
    stable permutation of a slice is unique, so insertion sort computes it. *)

From Stdlib Require Export Sorting.Sorted.
From S2P Require Import Prelude.

(** A comparator that is a total preorder. *)
Class TotalCmp {A : Type} (cmp : A -> A -> comparison) : Prop := {
  cmp_opp : forall x y, cmp y x = CompOpp (cmp x y);
  cmp_le_trans : forall x y z, cmp x y <> Gt -> cmp y z <> Gt -> cmp x z <> Gt
}.
Arguments cmp_opp {A} cmp {_} x y.
Arguments cmp_le_trans {A} cmp {_} x y z.

Definition cmp_le {A} (cmp : A -> A -> comparison) (x y : A) : Prop := cmp x y <> Gt.

Section total_cmp.
Context {A : Type} (cmp : A -> A -> comparison) `{!TotalCmp cmp}.

Lemma cmp_refl x : cmp x x = Eq.
Proof. pose proof (cmp_opp cmp x x) as H. by destruct (cmp x x). Qed.

Lemma cmp_le_total x y : cmp_le cmp x y \/ cmp_le cmp y x.
Proof. unfold cmp_le. rewrite (cmp_opp cmp x y). destruct (cmp x y); simpl; auto. Qed.

Lemma cmp_gt_le x y : cmp x y = Gt -> cmp_le cmp y x.
Proof. unfold cmp_le. rewrite (cmp_opp cmp x y). by intros ->. Qed.

Lemma cmp_lt_gt x y : cmp x y = Lt <-> cmp y x = Gt.
Proof. rewrite (cmp_opp cmp x y). destruct (cmp x y); naive_solver. Qed.

Lemma cmp_eq_sym x y : cmp x y = Eq <-> cmp y x = Eq.
Proof. rewrite (cmp_opp cmp x y). destruct (cmp x y); naive_solver. Qed.

Lemma cmp_eq_le x y : cmp x y = Eq <-> cmp_le cmp x y /\ cmp_le cmp y x.
Proof. unfold cmp_le. rewrite (cmp_opp cmp x y). destruct (cmp x y); naive_solver. Qed.

Lemma cmp_le_lt_trans x y z : cmp x y <> Gt -> cmp y z = Lt -> cmp x z = Lt.
Proof.
  intros Hxy Hyz. assert (cmp x z <> Gt) as Hxz by (eapply (cmp_le_trans cmp); [done|by rewrite Hyz]).
  destruct (cmp x z) eqn:E; [|done|done]. exfalso.
  assert (cmp z y <> Gt) as Hzy.
  { eapply (cmp_le_trans cmp); [|exact Hxy]. by rewrite (cmp_opp cmp x z), E. }
  apply Hzy. by apply cmp_lt_gt.
Qed.

Lemma cmp_lt_le_trans x y z : cmp x y = Lt -> cmp y z <> Gt -> cmp x z = Lt.
Proof.
  intros Hxy Hyz. assert (cmp x z <> Gt) as Hxz by (eapply (cmp_le_trans cmp); [by rewrite Hxy|done]).
  destruct (cmp x z) eqn:E; [|done|done]. exfalso.
  assert (cmp y x <> Gt) as Hyx.
  { eapply (cmp_le_trans cmp); [exact Hyz|]. by rewrite (cmp_opp cmp x z), E. }
  apply Hyx. by apply cmp_lt_gt.
Qed.
End total_cmp.

(** ** Comparators of the standard library *)

(** [Ordering::then_with]. *)
Definition then_with (c : comparison) (d : comparison) : comparison :=
  match c with Eq => d | _ => c end.

#[global] Instance then_with_total {A} (c1 c2 : A -> A -> comparison) :
  TotalCmp c1 -> TotalCmp c2 -> TotalCmp (fun x y => then_with (c1 x y) (c2 x y)).
Proof.
  intros H1 H2. split.
  - intros x y. rewrite (cmp_opp c1 x y), (cmp_opp c2 x y). by destruct (c1 x y).
  - intros x y z Hxy Hyz. unfold then_with in *.
    destruct (c1 x y) eqn:E1; destruct (c1 y z) eqn:E2; try done.
    + assert (c1 x z = Eq) as ->.
      { apply cmp_eq_le; [done|].
        pose proof (proj1 (cmp_eq_sym c1 x y) E1). pose proof (proj1 (cmp_eq_sym c1 y z) E2).
        split; eapply (cmp_le_trans c1) with y; congruence. }
      by eapply (cmp_le_trans c2).
    + by rewrite (cmp_le_lt_trans c1 x y z) by congruence.
    + by rewrite (cmp_lt_le_trans c1 x y z) by congruence.
    + by rewrite (cmp_lt_le_trans c1 x y z) by congruence.
Qed.

(** Comparing through a projection, and the reversed comparator. *)
#[global] Instance cmp_on_total {A B} (f : A -> B) (c : B -> B -> comparison) :
  TotalCmp c -> TotalCmp (fun x y => c (f x) (f y)).
Proof. intros H. split; intros; [apply (cmp_opp c) | by eapply (cmp_le_trans c)]. Qed.

Lemma cmp_flip_total {A} (c : A -> A -> comparison) :
  TotalCmp c -> TotalCmp (fun x y => c y x).
Proof. intros H. split; intros; [apply (cmp_opp c) | by eapply (cmp_le_trans c)]. Qed.

#[global] Instance N_compare_total : TotalCmp N.compare.
Proof.
  split; [intros; apply N.compare_antisym|].
  intros x y z. rewrite !N.compare_le_iff. lia.
Qed.

#[global] Instance nat_compare_total : TotalCmp Nat.compare.
Proof.
  split; [intros; apply Nat.compare_antisym|].
  intros x y z. rewrite !Nat.compare_le_iff. lia.
Qed.

(** [bool::cmp], [false < true]. *)
Definition bool_cmp (a b : bool) : comparison :=
  match a, b with false, true => Lt | true, false => Gt | _, _ => Eq end.

#[global] Instance bool_cmp_total : TotalCmp bool_cmp.
Proof. split; [by intros [] [] | by intros [] [] []]. Qed.

(** [str::cmp]: lexicographic on bytes. *)
Definition str_cmp (a b : string) : comparison := String.compare a b.

Lemma str_cmp_eq a b : str_cmp a b = Eq <-> a = b.
Proof.
  split; [apply String.compare_eq_iff|]. intros ->. unfold str_cmp.
  pose proof (String.compare_antisym b b) as H. by destruct (String.compare b b).
Qed.

Lemma str_cmp_le a b : str_cmp a b <> Gt <-> String.le a b.
Proof.
  unfold str_cmp, String.le, String.leb. destruct (String.compare a b); simpl; naive_solver.
Qed.

#[global] Instance str_cmp_total : TotalCmp str_cmp.
Proof.
  split.
  - intros x y. apply String.compare_antisym.
  - intros x y z. rewrite !str_cmp_le. intros; by etrans.
Qed.

(** ** Stable sorting *)

Section sort_by.
Context {A : Type} (cmp : A -> A -> comparison).

Fixpoint insert_by (x : A) (l : list A) : list A :=
  match l with
  | [] => [x]
  | y :: l' => match cmp x y with Gt => y :: insert_by x l' | _ => x :: l end
  end.

Definition sort_by (l : list A) : list A := foldr insert_by [] l.

Lemma insert_by_perm x l : insert_by x l ≡ₚ x :: l.
Proof.
  induction l as [|y l IH]; simpl; [done|].
  destruct (cmp x y); [done..|]. rewrite IH. apply Permutation_swap.
Qed.

Lemma sort_by_perm l : sort_by l ≡ₚ l.
Proof. induction l as [|x l IH]; simpl; [done|]. by rewrite insert_by_perm, IH. Qed.

Lemma elem_of_sort_by x l : x ∈ sort_by l <-> x ∈ l.
Proof. by rewrite sort_by_perm. Qed.

Lemma length_sort_by l : length (sort_by l) = length l.
Proof. by rewrite sort_by_perm. Qed.

Lemma sort_by_nil_iff l : sort_by l = [] <-> l = [].
Proof. rewrite <- !length_zero_iff_nil. by rewrite length_sort_by. Qed.

Context `{!TotalCmp cmp}.

Lemma insert_by_sorted x l :
  StronglySorted (cmp_le cmp) l -> StronglySorted (cmp_le cmp) (insert_by x l).
Proof.
  induction 1 as [|y l Hs IH Hy]; simpl.
  - repeat constructor.
  - destruct (cmp x y) eqn:E.
    1,2: constructor; [by constructor|]; constructor; [by unfold cmp_le; rewrite E|];
      eapply Forall_impl; [exact Hy|]; intros z Hz; unfold cmp_le in *;
      eapply (cmp_le_trans cmp); [|exact Hz]; by rewrite E.
    constructor; [done|]. rewrite insert_by_perm. constructor; [by apply cmp_gt_le|done].
Qed.

Lemma sort_by_sorted l : StronglySorted (cmp_le cmp) (sort_by l).
Proof. induction l; simpl; [constructor|by apply insert_by_sorted]. Qed.

(** Sorting a sorted list changes nothing. *)
Lemma sort_by_id l : StronglySorted (cmp_le cmp) l -> sort_by l = l.
Proof.
  induction 1 as [|x l Hs IH Hx]; simpl; [done|]. rewrite IH.
  destruct l as [|y l]; simpl; [done|]. apply Forall_cons in Hx as [Hxy _].
  unfold cmp_le in Hxy. by destruct (cmp x y).
Qed.

(** The head of a sorted list is a least element. *)
Lemma sort_by_head l x rest :
  sort_by l = x :: rest -> x ∈ l /\ forall y, y ∈ l -> cmp_le cmp x y.
Proof.
  intros Hs. pose proof (sort_by_sorted l) as Hsort. rewrite Hs in Hsort.
  inversion Hsort as [|? ? _ Hall]; subst. split.
  - apply elem_of_sort_by. rewrite Hs. by left.
  - intros y Hy. apply elem_of_sort_by in Hy. rewrite Hs in Hy.
    apply elem_of_cons in Hy as [->|Hy]; [unfold cmp_le; by rewrite cmp_refl|].
    by eapply Forall_forall in Hall.
Qed.

(** The result does not depend on the order of the input when the comparator
    only identifies equal elements of the list. *)
Lemma sort_by_unique l1 l2 :
  (forall x y, x ∈ l1 -> y ∈ l1 -> cmp x y = Eq -> x = y) ->
  l1 ≡ₚ l2 -> sort_by l1 = sort_by l2.
Proof.
  intros Hanti Hp.
  assert (sort_by l1 ≡ₚ sort_by l2) as Hperm by (by rewrite !sort_by_perm).
  assert (forall x y, x ∈ sort_by l1 -> y ∈ sort_by l1 -> cmp x y = Eq -> x = y) as Ha.
  { intros x y. rewrite !elem_of_sort_by. auto. }
  pose proof (sort_by_sorted l1) as H1. pose proof (sort_by_sorted l2) as H2.
  clear Hanti Hp. revert Hperm H2 Ha. generalize (sort_by l2) as k. revert H1.
  generalize (sort_by l1) as l. clear l1 l2.
  induction l as [|x l IH]; intros H1 [|y k] Hperm H2 Ha.
  - done.
  - by apply Permutation_nil_cons in Hperm.
  - by symmetry in Hperm; apply Permutation_nil_cons in Hperm.
  - inversion H1 as [|? ? H1s H1f]; inversion H2 as [|? ? H2s H2f]; subst.
    assert (x = y) as <-.
    { assert (y ∈ x :: l) as Hy by (rewrite Hperm; by left).
      apply Ha; [by left|done|]. apply cmp_eq_le; [done|]. split.
      - apply elem_of_cons in Hy as [->|Hy]; [unfold cmp_le; by rewrite cmp_refl|].
        by eapply Forall_forall in H1f.
      - assert (x ∈ y :: k) as Hx by (rewrite <- Hperm; by left).
        apply elem_of_cons in Hx as [->|Hx]; [unfold cmp_le; by rewrite cmp_refl|].
        by eapply Forall_forall in H2f. }
    f_equal. apply IH; [done| by eapply Permutation.Permutation_cons_inv |done|].
    intros u v Hu Hv. apply Ha; by right.
Qed.
End sort_by.

(** [Vec<String>::sort]. *)
Definition sort_strings : list string -> list string := sort_by str_cmp.

Lemma sort_strings_unique l1 l2 : l1 ≡ₚ l2 -> sort_strings l1 = sort_strings l2.
Proof. apply sort_by_unique; [apply _|]. intros x y _ _. by rewrite str_cmp_eq. Qed.

#[export] Instance sort_strings_proper : Proper ((≡ₚ) ==> eq) sort_strings.
Proof. intros l1 l2. apply sort_strings_unique. Qed.
