(* ===== verification/Effect.v ===== *)
(** * Effectful computations

    Asynchronous Rust code that keeps local state, calls its environment and
    may fail.  A call is appended to a log and answered by an arbitrary function
    of the log so far, so that a theorem about all answer functions covers every
    behaviour of the environment; the answers of one call may depend on all the
    calls before it.  [wp] and its rules reason about a computation step by
    step; [emits] bounds the calls it makes. *)

From S2P Require Import Prelude.

Section eff.
Context {St Call E : Type}.

(** State and call log in, result, state and call log out. *)
Definition eff (A : Type) : Type := St * list Call -> result E A * (St * list Call).

Definition mret {A} (a : A) : eff A := fun st => (Ok a, st).
Definition mfail {A} (e : E) : eff A := fun st => (Err e, st).
Definition mbind {A B} (c : eff A) (k : A -> eff B) : eff B :=
  fun st => match c st with
            | (Ok a, st) => k a st
            | (Err e, st) => (Err e, st)
            end.
(** Run [c] and return its result as a value, as [match c.await] does. *)
Definition mtry {A} (c : eff A) : eff (result E A) :=
  fun st => let '(r, st) := c st in (Ok r, st).
Definition mget {A} (f : St -> A) : eff A := fun st => (Ok (f st.1), st).
Definition mput (f : St -> St) : eff unit := fun '(m, log) => (Ok tt, (f m, log)).
Definition mcall {A} (answer : list Call -> result E A) (c : Call) : eff A :=
  fun '(m, log) => (answer log, (m, log ++ [c])).
(** A call whose answer is logged with it. *)
Definition mask {A} (answer : list Call -> result E A) (event : result E A -> Call) : eff A :=
  fun '(m, log) => let r := answer log in (r, (m, log ++ [event r])).
(** A pure fallible step. *)
Definition mlift {A} (r : result E A) : eff A := fun st => (r, st).

(** [for x in l { body(x)?; }]. *)
Fixpoint mfor {A} (l : list A) (body : A -> eff unit) : eff unit :=
  match l with
  | [] => mret tt
  | x :: l => mbind (body x) (fun _ => mfor l body)
  end.

(** A loop that pushes one value per element. *)
Fixpoint mmap {A B} (body : A -> eff B) (l : list A) : eff (list B) :=
  match l with
  | [] => mret []
  | x :: l => mbind (body x) (fun y => mbind (mmap body l) (fun ys => mret (y :: ys)))
  end.

(** [wp c Q m log]: running [c] from [(m, log)] ends in [Q]. *)
Definition wp {A} (c : eff A) (Q : result E A -> St -> list Call -> Prop)
    (m : St) (log : list Call) : Prop :=
  let '(r, (m', log')) := c (m, log) in Q r m' log'.

Lemma wp_mono {A} (c : eff A) (Q Q' : result E A -> St -> list Call -> Prop) m log :
  wp c Q m log -> (forall r m' log', Q r m' log' -> Q' r m' log') -> wp c Q' m log.
Proof. unfold wp. destruct (c (m, log)) as [r [m' log']]. auto. Qed.

Lemma wp_and {A} (c : eff A) (Q Q' : result E A -> St -> list Call -> Prop) m log :
  wp c Q m log -> wp c Q' m log -> wp c (fun r m' log' => Q r m' log' /\ Q' r m' log') m log.
Proof. unfold wp. destruct (c (m, log)) as [r [m' log']]. auto. Qed.

Lemma wp_bind {A B} (c : eff A) (k : A -> eff B) Q m log :
  wp c (fun r m' log' => match r with Ok a => wp (k a) Q m' log' | Err e => Q (Err e) m' log' end) m log ->
  wp (mbind c k) Q m log.
Proof. unfold wp, mbind. by destruct (c (m, log)) as [[a|e] [m' log']]. Qed.

Lemma wp_try {A} (c : eff A) Q m log :
  wp c (fun r m' log' => Q (Ok r) m' log') m log -> wp (mtry c) Q m log.
Proof. unfold wp, mtry. by destruct (c (m, log)) as [r [m' log']]. Qed.

Lemma wp_ret {A} (a : A) (Q : result E A -> St -> list Call -> Prop) m log :
  Q (Ok a) m log -> wp (mret a) Q m log.
Proof. done. Qed.

Lemma wp_fail {A} e (Q : result E A -> St -> list Call -> Prop) m log :
  Q (Err e) m log -> wp (mfail e) Q m log.
Proof. done. Qed.

Lemma wp_lift {A} r (Q : result E A -> St -> list Call -> Prop) m log :
  Q r m log -> wp (mlift r) Q m log.
Proof. done. Qed.

Lemma wp_get {A} (f : St -> A) (Q : result E A -> St -> list Call -> Prop) m log :
  Q (Ok (f m)) m log -> wp (mget f) Q m log.
Proof. done. Qed.

Lemma wp_put f (Q : result E unit -> St -> list Call -> Prop) m log :
  Q (Ok tt) (f m) log -> wp (mput f) Q m log.
Proof. done. Qed.

Lemma wp_call {A} (answer : list Call -> result E A) c
    (Q : result E A -> St -> list Call -> Prop) m log :
  Q (answer log) m (log ++ [c]) -> wp (mcall answer c) Q m log.
Proof. done. Qed.

(** A call that the environment answers arbitrarily. *)
Lemma wp_call_any {A} (answer : list Call -> result E A) c
    (Q : result E A -> St -> list Call -> Prop) m log :
  (forall r, Q r m (log ++ [c])) -> wp (mcall answer c) Q m log.
Proof. intros H. apply H. Qed.

Lemma wp_call_ok {A} (f : list Call -> A) c
    (Q : result E A -> St -> list Call -> Prop) m log :
  (forall a, Q (Ok a) m (log ++ [c])) -> wp (mcall (fun log => Ok (f log)) c) Q m log.
Proof. intros H. apply H. Qed.

Lemma wp_ask {A} (answer : list Call -> result E A) (event : result E A -> Call)
    (Q : result E A -> St -> list Call -> Prop) m log :
  (forall r, Q r m (log ++ [event r])) -> wp (mask answer event) Q m log.
Proof. intros H. apply H. Qed.

Lemma wp_run {A} (c : eff A) Q m log : wp c Q m log -> exists r log', Q r (c (m, log)).2.1 log'.
Proof. unfold wp. destruct (c (m, log)) as [r [m' log']]. eauto. Qed.

(** An invariant of a loop that may stop early. *)
Lemma wp_for {A} (I : list A -> St -> list Call -> Prop) (l : list A) (body : A -> eff unit)
    (Q : result E unit -> St -> list Call -> Prop) m log :
  I [] m log ->
  (forall done x rest m log, l = done ++ x :: rest -> I done m log ->
     wp (body x) (fun r m' log' => match r with
                                   | Ok _ => I (done ++ [x]) m' log'
                                   | Err e => Q (Err e) m' log'
                                   end) m log) ->
  (forall m log, I l m log -> Q (Ok tt) m log) ->
  wp (mfor l body) Q m log.
Proof.
  intros H0 Hstep Hend.
  assert (forall todo done m log, l = done ++ todo -> I done m log -> wp (mfor todo body) Q m log) as H.
  { induction todo as [|x todo IH]; intros dn m1 log1 Hl HI; simpl.
    - apply wp_ret. rewrite app_nil_r in Hl. subst. auto.
    - apply wp_bind. eapply wp_mono; [by eapply Hstep|]. intros [u|e] m2 log2 H2; [|done].
      eapply IH; [|exact H2]. by rewrite <- app_assoc. }
  by apply (H l []).
Qed.

Lemma wp_map {A B} (I : list A -> list B -> St -> list Call -> Prop) (l : list A) (body : A -> eff B)
    (Q : result E (list B) -> St -> list Call -> Prop) m log :
  I [] [] m log ->
  (forall done x rest ys m log, l = done ++ x :: rest -> I done ys m log ->
     wp (body x) (fun r m' log' => match r with
                                   | Ok y => I (done ++ [x]) (ys ++ [y]) m' log'
                                   | Err e => Q (Err e) m' log'
                                   end) m log) ->
  (forall ys m log, I l ys m log -> Q (Ok ys) m log) ->
  wp (mmap body l) Q m log.
Proof.
  intros H0 Hstep Hend.
  assert (forall todo done ys m log, l = done ++ todo -> I done ys m log ->
    wp (mmap body todo) (fun r m' log' => match r with
      | Ok zs => I l (ys ++ zs) m' log' | Err e => Q (Err e) m' log' end) m log) as H.
  { induction todo as [|x todo IH]; intros dn ys m1 log1 Hl HI; simpl.
    - apply wp_ret. rewrite app_nil_r in Hl. subst. by rewrite app_nil_r.
    - apply wp_bind. eapply wp_mono; [by eapply Hstep|]. intros [y|e] m2 log2 H2; [|done].
      apply wp_bind. eapply wp_mono; [eapply IH; [|exact H2]; by rewrite <- app_assoc|].
      intros [zs|e] m3 log3 H3; [|done]. apply wp_ret. by rewrite <- app_assoc in H3. }
  eapply wp_mono; [by apply (H l [] [])|]. intros [zs|e] m1 log1 H1; [by apply Hend|done].
Qed.

(** Computations that only make calls satisfying [P]. *)
Definition emits {A} (P : Call -> Prop) (c : eff A) : Prop :=
  forall m log, wp c (fun _ _ log' => exists new, log' = log ++ new /\ Forall P new) m log.

Lemma emits_bind {A B} P (c : eff A) (k : A -> eff B) :
  emits P c -> (forall a, emits P (k a)) -> emits P (mbind c k).
Proof.
  intros Hc Hk m log. apply wp_bind. eapply wp_mono; [apply Hc|].
  intros [a|e] m1 log1 (new & -> & Hn); [|eauto].
  eapply wp_mono; [apply Hk|]. intros r m2 log2 (new2 & -> & Hn2).
  exists (new ++ new2). rewrite app_assoc, Forall_app. done.
Qed.

Lemma emits_try {A} P (c : eff A) : emits P c -> emits P (mtry c).
Proof. intros Hc m log. apply wp_try. apply Hc. Qed.

Lemma emits_pure {A} P (c : eff A) : (forall m log, (c (m, log)).2.2 = log) -> emits P c.
Proof.
  intros Hc m log. unfold wp. specialize (Hc m log). destruct (c (m, log)) as [r [m' log']].
  simpl in Hc; subst. exists []. by rewrite app_nil_r.
Qed.

Lemma emits_call {A} (P : Call -> Prop) (answer : list Call -> result E A) c :
  P c -> emits P (mcall answer c).
Proof. intros Hc m log. exists [c]. eauto. Qed.

Lemma emits_for {A} P (l : list A) (body : A -> eff unit) :
  (forall x, emits P (body x)) -> emits P (mfor l body).
Proof.
  intros Hb. induction l as [|x l IH]; simpl; [by apply emits_pure|]. by apply emits_bind.
Qed.

Lemma emits_map {A B} P (l : list A) (body : A -> eff B) :
  (forall x, emits P (body x)) -> emits P (mmap body l).
Proof.
  intros Hb. induction l as [|x l IH]; simpl; [by apply emits_pure|].
  apply emits_bind; [done|]. intros y. apply emits_bind; [done|]. intros ys. by apply emits_pure.
Qed.

Lemma emits_impl {A} (P Q : Call -> Prop) (c : eff A) :
  (forall x, P x -> Q x) -> emits P c -> emits Q c.
Proof.
  intros HPQ Hc m log. eapply wp_mono; [apply Hc|]. intros r m' log' (new & -> & Hn).
  exists new. split; [done|]. by eapply Forall_impl.
Qed.
(** Computations that leave a part of the state alone. *)
Definition preserves {A B} (f : St -> B) (c : eff A) : Prop :=
  forall m log, wp c (fun _ m' _ => f m' = f m) m log.

Lemma preserves_bind {A B C} (f : St -> C) (c : eff A) (k : A -> eff B) :
  preserves f c -> (forall a, preserves f (k a)) -> preserves f (mbind c k).
Proof.
  intros Hc Hk m log. apply wp_bind. eapply wp_mono; [apply Hc|].
  intros [a|e] m1 log1 H1; [|done]. eapply wp_mono; [apply Hk|]. simpl. congruence.
Qed.

Lemma preserves_try {A B} (f : St -> B) (c : eff A) : preserves f c -> preserves f (mtry c).
Proof. intros Hc m log. apply wp_try. apply Hc. Qed.

Lemma preserves_pure {A B} (f : St -> B) (c : eff A) :
  (forall m log, f (c (m, log)).2.1 = f m) -> preserves f c.
Proof. intros Hc m log. unfold wp. specialize (Hc m log). by destruct (c (m, log)) as [r [m' log']]. Qed.

Lemma preserves_for {A B} (f : St -> B) (l : list A) (body : A -> eff unit) :
  (forall x, preserves f (body x)) -> preserves f (mfor l body).
Proof.
  intros Hb. induction l as [|x l IH]; simpl; [by apply preserves_pure|]. by apply preserves_bind.
Qed.

Lemma preserves_map {A B C} (f : St -> C) (l : list A) (body : A -> eff B) :
  (forall x, preserves f (body x)) -> preserves f (mmap body l).
Proof.
  intros Hb. induction l as [|x l IH]; simpl; [by apply preserves_pure|].
  apply preserves_bind; [done|]. intros y. apply preserves_bind; [done|]. intros ys. by apply preserves_pure.
Qed.
End eff.
Arguments eff : clear implicits.

(** [.map_err(f)]. *)
Definition mmap_err {St Call E F A} (f : E -> F) (c : eff St Call E A) : eff St Call F A :=
  fun st => let '(r, st) := c st in (map_err f r, st).
Lemma wp_map_err {St Call E F A} (f : E -> F) (c : eff St Call E A) (Q : result F A -> St -> list Call -> Prop) m log :
  wp c (fun r m' log' => Q (map_err f r) m' log') m log -> wp (mmap_err f c) Q m log.
Proof. unfold wp, mmap_err. by destruct (c (m, log)) as [r [m' log']]. Qed.

Declare Scope eff_scope.
Delimit Scope eff_scope with eff.
Notation "x <-! e ;; k" := (mbind e (fun x => k))
  (at level 100, e at next level, right associativity) : eff_scope.
Notation "' p <-! e ;; k" := (mbind e (fun x => match x with p => k end))
  (at level 100, p pattern, e at next level, right associativity) : eff_scope.

(** One step of a straight-line computation; the environment's answers become
    universally quantified. *)
Ltac wp_step :=
  match goal with
  | |- wp (mbind _ _) _ _ _ => apply wp_bind
  | |- wp (mtry _) _ _ _ => apply wp_try
  | |- wp (mget _) _ _ _ => apply wp_get
  | |- wp (mput _) _ _ _ => apply wp_put
  | |- wp (mret _) _ _ _ => apply wp_ret
  | |- wp (mfail _) _ _ _ => apply wp_fail
  | |- wp (mlift _) _ _ _ => apply wp_lift
  | |- wp (mcall (fun log => Ok _) _) _ _ _ => apply wp_call_ok; intros ?
  | |- wp (mcall _ _) _ _ _ => apply wp_call_any; intros [?|?]
  | |- wp (mask _ _) _ _ _ => apply wp_ask; intros [?|?]
  | |- wp (mmap_err _ _) _ _ _ => apply wp_map_err; cbn [map_err]
  | |- wp (if ?b then _ else _) _ _ _ => destruct b eqn:?
  | |- wp (match ?x with _ => _ end) _ _ _ => destruct x eqn:?
  | |- match ?x with Ok _ => _ | Err _ => _ end => destruct x eqn:?
  end; cbv beta iota.
Ltac wp_steps := repeat wp_step.

Ltac emits_step :=
  match goal with
  | |- emits _ (mbind _ _) => apply emits_bind; [|intros ?]
  | |- emits _ (mtry _) => apply emits_try
  | |- emits _ (mcall _ _) => apply emits_call; done
  | |- emits _ (mfor _ _) => apply emits_for; intros ?
  | |- emits _ (mmap _ _) => apply emits_map; intros ?
  | |- emits _ (if ?b then _ else _) => destruct b
  | |- emits _ (match ?x with _ => _ end) => destruct x
  | |- emits _ (mret _) => apply emits_pure; done
  | |- emits _ (mget _) => apply emits_pure; done
  | |- emits _ (mput _) => apply emits_pure; done
  | |- emits _ (mfail _) => apply emits_pure; done
  | |- emits _ (mlift _) => apply emits_pure; done
  end.

Ltac preserves_step :=
  match goal with
  | |- preserves _ (mbind _ _) => apply preserves_bind; [|intros ?]
  | |- preserves _ (mtry _) => apply preserves_try
  | |- preserves _ (mfor _ _) => apply preserves_for; intros ?
  | |- preserves _ (mmap _ _) => apply preserves_map; intros ?
  | |- preserves _ (if ?b then _ else _) => destruct b
  | |- preserves _ (match ?x with _ => _ end) => destruct x
  | |- preserves _ _ => apply preserves_pure; done
  end.

(** ** What a computation adds to the log

    [dspec c s P]: from state [s] the computation appends [new] events to the
    log and ends with [P result state new]. *)


Section dspec.
Context {St Call : Type}.

(** Run and only warn about a failure. *)
Definition ignore {E E' A} (c : eff St Call E A) : eff St Call E' unit := fun st => (Ok tt, (c st).2).

Definition dspec {E A} (c : eff St Call E A) (s : St)
    (P : result E A -> St -> list Call -> Prop) : Prop :=
  forall log, wp c (fun r s' log' => exists new, log' = (log ++ new) /\ P r s' new) s log.

Lemma dspec_mono {E A} (c : eff St Call E A) s (P Q : result E A -> St -> list Call -> Prop) :
  dspec c s P -> (forall r s' new, P r s' new -> Q r s' new) -> dspec c s Q.
Proof. intros Hc HPQ log. eapply wp_mono; [apply Hc|]. simpl. intros r s' log' (new & -> & HP). eauto. Qed.
Lemma dspec_pure {E A} (c : eff St Call E A) s (P : result E A -> St -> list Call -> Prop) :
  (forall log, wp c (fun r s' log' => log' = log /\ P r s' []) s log) -> dspec c s P.
Proof.
  intros Hc log. eapply wp_mono; [apply Hc|]. simpl. intros r s' log' [-> HP]. exists []. by rewrite app_nil_r.
Qed.
Lemma dspec_ret {E A} (a : A) s (P : result E A -> St -> list Call -> Prop) :
  P (Ok a) s [] -> dspec (mret a) s P.
Proof. intros HP. apply dspec_pure. intros log. by apply wp_ret. Qed.
Lemma dspec_fail {E A} (e : E) s (P : result E A -> St -> list Call -> Prop) :
  P (Err e) s [] -> dspec (mfail e) s P.
Proof. intros HP. apply dspec_pure. intros log. by apply wp_fail. Qed.
Lemma dspec_lift {E A} (r : result E A) s (P : result E A -> St -> list Call -> Prop) :
  P r s [] -> dspec (mlift r) s P.
Proof. intros HP. apply dspec_pure. intros log. by apply wp_lift. Qed.
Lemma dspec_get {E A} (f : St -> A) s (P : result E A -> St -> list Call -> Prop) :
  P (Ok (f s)) s [] -> dspec (mget f) s P.
Proof. intros HP. apply dspec_pure. intros log. by apply wp_get. Qed.
Lemma dspec_put {E} f s (P : result E unit -> St -> list Call -> Prop) :
  P (Ok tt) (f s) [] -> dspec (mput f) s P.
Proof. intros HP. apply dspec_pure. intros log. by apply wp_put. Qed.
Lemma dspec_bind {E A B} (c : eff St Call E A) (k : A -> eff St Call E B) s Q :
  dspec c s (fun r s' new => match r with
    | Ok a => dspec (k a) s' (fun r s' later => Q r s' (new ++ later)) | Err e => Q (Err e) s' new end) ->
  dspec (mbind c k) s Q.
Proof.
  intros Hc log. apply wp_bind. eapply wp_mono; [apply Hc|]. simpl. intros [a|e] s1 log1 (new & -> & HP); [|eauto].
  eapply wp_mono; [apply HP|]. simpl. intros r s2 log2 (later & -> & HQ). exists (new ++ later). by rewrite app_assoc.
Qed.
Lemma dspec_try {E A} (c : eff St Call E A) s P :
  dspec c s (fun r => P (Ok r)) -> dspec (mtry c) s P.
Proof. intros Hc log. apply wp_try. apply Hc. Qed.
Lemma dspec_map_err {E F A} (f : E -> F) (c : eff St Call E A) s P :
  dspec c s (fun r => P (map_err f r)) -> dspec (mmap_err f c) s P.
Proof. intros Hc log. apply wp_map_err. apply Hc. Qed.
Lemma dspec_ignore {E E' A} (c : eff St Call E A) s P :
  dspec c s (fun _ => P (Ok tt)) -> dspec (ignore c : eff _ _ E' unit) s P.
Proof. intros Hc log. specialize (Hc log). unfold wp, ignore in *. destruct (c (s, log)) as [r [s' log']]. exact Hc. Qed.
Lemma wp_ignore {E E' A} (c : eff St Call E A) (Q : result E' unit -> St -> list Call -> Prop) m log :
  wp c (fun _ => Q (Ok tt)) m log -> wp (ignore c : eff _ _ E' unit) Q m log.
Proof. unfold wp, ignore. by destruct (c (m, log)) as [r [m' log']]. Qed.
Lemma dspec_ask {E A} (answer : list Call -> result E A) event s (P : result E A -> St -> list Call -> Prop) :
  (forall r, P r s [event r]) -> dspec (mask answer event) s P.
Proof. intros HP log. apply wp_ask. intros r. by exists [event r]. Qed.
Lemma dspec_call {E A} (f : list Call -> A) event s (P : result E A -> St -> list Call -> Prop) :
  (forall a, P (Ok a) s [event]) -> dspec (mcall (fun log => Ok (f log)) event) s P.
Proof. intros HP log. apply wp_call_ok. intros a. by exists [event]. Qed.
(** A call that always returns, logged with its answer. *)
Definition mobserve {E A} (answer : list Call -> A) (event : A -> Call) : eff St Call E A :=
  fun '(m, log) => let a := answer log in (Ok a, (m, log ++ [event a])).
Lemma wp_observe {E A} (answer : list Call -> A) event (Q : result E A -> St -> list Call -> Prop) m log :
  (forall a, Q (Ok a) m (log ++ [event a])) -> wp (mobserve answer event) Q m log.
Proof. intros HQ. apply HQ. Qed.
Lemma dspec_observe {E A} (answer : list Call -> A) event s (P : result E A -> St -> list Call -> Prop) :
  (forall a, P (Ok a) s [event a]) -> dspec (mobserve answer event) s P.
Proof. intros HP log. unfold wp, mobserve. by exists [event (answer log)]. Qed.
End dspec.
