(* ===== verification/Text.v ===== *)
(** * Text

    The operations of Rust's [str] the sources use, on UTF-8 byte strings:
    a [string] is the sequence of bytes of a [str].  Ordering and equality are
    bytewise in Rust, searching for an ASCII character is searching for its
    byte, and [trim] removes the characters with the Unicode [White_Space]
    property, recognised here by their UTF-8 encodings. *)

From Stdlib Require Export Ascii.
From Stdlib Require Import DecimalString DecimalN HexadecimalString HexadecimalN.
From S2P Require Import Prelude Order.
Local Open Scope string_scope.
#[local] Arguments String.append !_ _ : simpl nomatch.

(** ** Lists of bytes *)

Abbreviation bytes_of := String.list_ascii_of_string.
Abbreviation of_bytes := String.string_of_list_ascii.

Definition code (c : ascii) : N := N_of_ascii c.
Definition len (s : string) : nat := String.length s.
Definition is_empty (s : string) : bool := match s with EmptyString => true | _ => false end.
Definition rev_str (s : string) : string := of_bytes (reverse (bytes_of s)).

Lemma bytes_of_app a b : bytes_of (a +:+ b) = (bytes_of a ++ bytes_of b)%list.
Proof. induction a as [|c a IH]; simpl; [done|]. by f_equal. Qed.

Lemma of_bytes_app a b : of_bytes (a ++ b)%list = of_bytes a +:+ of_bytes b.
Proof. induction a as [|c a IH]; simpl; [done|]. by f_equal. Qed.

Lemma of_bytes_of s : of_bytes (bytes_of s) = s.
Proof. apply String.string_of_list_ascii_of_string. Qed.

Lemma bytes_of_bytes l : bytes_of (of_bytes l) = l.
Proof. apply String.list_ascii_of_string_of_list_ascii. Qed.

Lemma rev_str_involutive s : rev_str (rev_str s) = s.
Proof. unfold rev_str. by rewrite bytes_of_bytes, reverse_involutive, of_bytes_of. Qed.

Lemma rev_str_app a b : rev_str (a +:+ b) = rev_str b +:+ rev_str a.
Proof. unfold rev_str. by rewrite bytes_of_app, reverse_app, of_bytes_app. Qed.

Lemma is_empty_true s : is_empty s = true <-> s = "".
Proof. by destruct s. Qed.

Lemma append_empty_r s : s +:+ "" = s.
Proof. induction s as [|c s IH]; simpl; [done|]. by f_equal. Qed.

Lemma append_assoc a b c : (a +:+ b) +:+ c = a +:+ (b +:+ c).
Proof. induction a as [|x a IH]; simpl; [done|]. by f_equal. Qed.

(** ** [str::trim] *)

(** One-, two- and three-byte encodings of white space characters: U+0009..D
    and U+0020; U+0085 and U+00A0; U+1680, U+2000..A, U+2028, U+2029, U+202F,
    U+205F and U+3000. *)
Definition ws1 (c : ascii) : bool :=
  let n := code c in ((9 <=? n) && (n <=? 13))%N || (n =? 32)%N.
Definition ws2 (c d : ascii) : bool :=
  (code c =? 194)%N && ((code d =? 133)%N || (code d =? 160)%N).
Definition ws3 (c d e : ascii) : bool :=
  let a := code c in let b := code d in let n := code e in
  ((a =? 225) && (b =? 154) && (n =? 128))%N
  || ((a =? 226) && (b =? 128) && (((128 <=? n) && (n <=? 138)) || (n =? 168) || (n =? 169) || (n =? 175)))%N
  || ((a =? 226) && (b =? 129) && (n =? 159))%N
  || ((a =? 227) && (b =? 128) && (n =? 128))%N.

(** Drop leading white space; [w2] and [w3] take the bytes in the order they
    are met. *)
Fixpoint drop_ws (w2 : ascii -> ascii -> bool) (w3 : ascii -> ascii -> ascii -> bool)
    (s : string) : string :=
  match s with
  | EmptyString => ""
  | String c s1 =>
      if ws1 c then drop_ws w2 w3 s1
      else match s1 with
           | EmptyString => s
           | String d s2 =>
               if w2 c d then drop_ws w2 w3 s2
               else match s2 with
                    | EmptyString => s
                    | String e s3 => if w3 c d e then drop_ws w2 w3 s3 else s
                    end
           end
  end.

Definition trim_start (s : string) : string := drop_ws ws2 ws3 s.
Definition trim_end (s : string) : string :=
  rev_str (drop_ws (fun c d => ws2 d c) (fun c d e => ws3 e d c) (rev_str s)).
Definition trim (s : string) : string := trim_end (trim_start s).

(** ** Searching and splitting *)

Fixpoint strip_prefix (p s : string) : option string :=
  match p, s with
  | EmptyString, _ => Some s
  | String c p, String d s => if ascii_dec c d then strip_prefix p s else None
  | _, EmptyString => None
  end.

Definition starts_with (s p : string) : bool :=
  match strip_prefix p s with Some _ => true | None => false end.

Definition strip_suffix (p s : string) : option string :=
  rev_str <$> strip_prefix (rev_str p) (rev_str s).

Lemma strip_prefix_Some p s r : strip_prefix p s = Some r <-> s = p +:+ r.
Proof.
  revert s; induction p as [|c p IH]; intros s; simpl; [naive_solver|].
  destruct s as [|d s]; [naive_solver|]. destruct (ascii_dec c d) as [->|Hne].
  - rewrite IH. naive_solver.
  - naive_solver.
Qed.

Lemma strip_suffix_Some p s r : strip_suffix p s = Some r <-> s = r +:+ p.
Proof.
  unfold strip_suffix. rewrite fmap_Some. split.
  - intros (t & Ht & ->). apply strip_prefix_Some in Ht.
    by rewrite <- (rev_str_involutive s), Ht, rev_str_app, rev_str_involutive.
  - intros ->. exists (rev_str r). split; [|by rewrite rev_str_involutive].
    apply strip_prefix_Some. apply rev_str_app.
Qed.

Lemma starts_with_spec s p : starts_with s p = true <-> exists r, s = p +:+ r.
Proof.
  unfold starts_with. destruct (strip_prefix p s) as [r|] eqn:E.
  - apply strip_prefix_Some in E. naive_solver.
  - split; [done|]. intros [r H]. apply strip_prefix_Some in H. congruence.
Qed.

Fixpoint contains_char (c : ascii) (s : string) : bool :=
  match s with
  | EmptyString => false
  | String d s => if ascii_dec c d then true else contains_char c s
  end.

(** [str::contains] of a text. *)
Fixpoint contains_str (p s : string) : bool :=
  starts_with s p || match s with EmptyString => false | String _ s => contains_str p s end.

(** [trim_end_matches(c)] for a character [c]. *)
Fixpoint drop_char (c : ascii) (s : string) : string :=
  match s with
  | String d s' => if ascii_dec c d then drop_char c s' else s
  | EmptyString => ""
  end.
Definition trim_end_matches (c : ascii) (s : string) : string :=
  rev_str (drop_char c (rev_str s)).

(** [split_once(c)] and [rsplit_once(c)]. *)
Fixpoint split_once (c : ascii) (s : string) : option (string * string) :=
  match s with
  | EmptyString => None
  | String d s =>
      if ascii_dec c d then Some ("", s)
      else match split_once c s with
           | Some (a, b) => Some (String d a, b)
           | None => None
           end
  end.

Definition rsplit_once (c : ascii) (s : string) : option (string * string) :=
  match split_once c (rev_str s) with
  | Some (a, b) => Some (rev_str b, rev_str a)
  | None => None
  end.

(** [split(c)]: always at least one piece. *)
Fixpoint split (c : ascii) (s : string) : list string :=
  match s with
  | EmptyString => [""]
  | String d s =>
      if ascii_dec c d then "" :: split c s
      else match split c s with
           | p :: ps => String d p :: ps
           | [] => [String d ""]
           end
  end.

Fixpoint join (c : ascii) (l : list string) : string :=
  match l with
  | [] => ""
  | [p] => p
  | p :: l => p +:+ String c (join c l)
  end.

Lemma split_not_nil c s : split c s <> [].
Proof. destruct s as [|d s]; simpl; [done|]. destruct (ascii_dec c d); [done|]. by destruct (split c s). Qed.

Lemma join_split c s : join c (split c s) = s.
Proof.
  induction s as [|d s IH]; simpl; [done|].
  destruct (ascii_dec c d) as [->|Hne].
  - destruct (split d s) eqn:E; [by apply split_not_nil in E|]. simpl. simpl in IH. by rewrite IH.
  - destruct (split c s) as [|p ps] eqn:E; [by apply split_not_nil in E|].
    rewrite <- IH. by destruct ps.
Qed.

Lemma split_piece c p : contains_char c p = false -> split c p = [p].
Proof.
  induction p as [|d p IH]; simpl; [done|].
  destruct (ascii_dec c d); [done|]. intros H. by rewrite (IH H).
Qed.

Lemma split_app c p s :
  contains_char c p = false -> split c (p +:+ String c s) = p :: split c s.
Proof.
  induction p as [|d p IH]; simpl.
  - intros _. by destruct (ascii_dec c c).
  - destruct (ascii_dec c d); [done|]. intros H. by rewrite (IH H).
Qed.

Lemma split_no_sep c s p : p ∈ split c s -> contains_char c p = false.
Proof.
  revert p; induction s as [|d s IH]; simpl.
  - intros p ->%list_elem_of_singleton. done.
  - intros p. destruct (ascii_dec c d) as [->|Hne].
    + intros [->|H]%elem_of_cons; [done|auto].
    + destruct (split c s) as [|q qs] eqn:E; [by apply split_not_nil in E|].
      intros [->|H]%elem_of_cons.
      * simpl. destruct (ascii_dec c d); [done|]. apply IH. by left.
      * apply IH. by right.
Qed.

(** ** [to_ascii_lowercase] and character classes *)

Definition is_ascii_digit (c : ascii) : bool := ((48 <=? code c) && (code c <=? 57))%N.
Definition lower_char (c : ascii) : ascii :=
  if ((65 <=? code c) && (code c <=? 90))%N then ascii_of_N (code c + 32) else c.

Fixpoint map_str (f : ascii -> ascii) (s : string) : string :=
  match s with EmptyString => "" | String c s => String (f c) (map_str f s) end.
Definition to_ascii_lowercase (s : string) : string := map_str lower_char s.

Fixpoint all_chars (f : ascii -> bool) (s : string) : bool :=
  match s with EmptyString => true | String c s => f c && all_chars f s end.

Lemma lower_char_idem c : lower_char (lower_char c) = lower_char c.
Proof. destruct c as [[] [] [] [] [] [] [] []]; reflexivity. Qed.

Lemma to_ascii_lowercase_idem s : to_ascii_lowercase (to_ascii_lowercase s) = to_ascii_lowercase s.
Proof.
  unfold to_ascii_lowercase. induction s as [|c s IH]; simpl; [done|].
  by rewrite lower_char_idem, IH.
Qed.

Lemma to_ascii_lowercase_app a b :
  to_ascii_lowercase (a +:+ b) = to_ascii_lowercase a +:+ to_ascii_lowercase b.
Proof. unfold to_ascii_lowercase. induction a as [|c a IH]; simpl; [done|]. by rewrite IH. Qed.

(** ** Integers as text *)

(** [Display] of an unsigned integer, and [{:0w}]. *)
Definition dec (n : N) : string := DecimalString.NilEmpty.string_of_uint (N.to_uint n).
Definition dec_pad (w : nat) (n : N) : string :=
  let d := N.to_uint n in
  DecimalString.NilEmpty.string_of_uint (Nat.iter (w - Decimal.nb_digits d) Decimal.D0 d).

(** [{:0wx}]. *)
Definition hex_pad (w : nat) (n : N) : string :=
  let d := N.to_hex_uint n in
  HexadecimalString.NilEmpty.string_of_uint (Nat.iter (w - Hexadecimal.nb_digits d) Hexadecimal.D0 d).

Definition u64_max : N := 18446744073709551615.

(** [str::parse::<u64>]: an optional [+], at least one decimal digit, no overflow. *)
Definition parse_u64 (s : string) : option N :=
  let digits := match s with String "+" r => r | _ => s end in
  if is_empty digits then None
  else match DecimalString.NilEmpty.uint_of_string digits with
       | Some d => let n := N.of_uint d in if (n <=? u64_max)%N then Some n else None
       | None => None
       end.

Lemma of_uint_pad k d : N.of_uint (Nat.iter k Decimal.D0 d) = N.of_uint d.
Proof. induction k as [|k IH]; simpl; [done|]. by rewrite <- IH. Qed.

Lemma dec_pad_value w n :
  N.of_uint <$> DecimalString.NilEmpty.uint_of_string (dec_pad w n) = Some n.
Proof.
  unfold dec_pad. rewrite DecimalString.NilEmpty.usu. simpl.
  by rewrite of_uint_pad, DecimalN.Unsigned.of_to.
Qed.

#[global] Instance dec_pad_inj w : Inj eq eq (dec_pad w).
Proof. intros n m H. pose proof (dec_pad_value w n) as Hn. rewrite H, dec_pad_value in Hn. by simplify_eq. Qed.

#[global] Instance dec_inj : Inj eq eq dec.
Proof.
  intros n m H. unfold dec in H. apply (f_equal DecimalString.NilEmpty.uint_of_string) in H.
  rewrite !DecimalString.NilEmpty.usu in H. apply (inj Some) in H.
  by rewrite <- (DecimalN.Unsigned.of_to n), H, DecimalN.Unsigned.of_to.
Qed.

Lemma dec_nonempty n : dec n <> "".
Proof.
  unfold dec. intros H. assert (N.to_uint n = Decimal.Nil) as Hn.
  { destruct (N.to_uint n); naive_solver. }
  pose proof (DecimalN.Unsigned.of_to n) as Hv. rewrite Hn in Hv. simpl in Hv. subst n. discriminate.
Qed.

Lemma dec_head_digit n : exists c s, dec n = String c s /\ is_ascii_digit c = true.
Proof.
  unfold dec. destruct (N.to_uint n) eqn:E; simpl;
    [|by eauto..].
  exfalso. apply (dec_nonempty n). unfold dec. by rewrite E.
Qed.

(** Printing and reading back. *)
Lemma parse_u64_dec n : (n <= u64_max)%N -> parse_u64 (dec n) = Some n.
Proof.
  intros Hn. unfold parse_u64.
  assert (match dec n with String "+" r => r | _ => dec n end = dec n) as ->.
  { destruct (dec_head_digit n) as (c & s & -> & Hc).
    by destruct c as [[] [] [] [] [] [] [] []]. }
  destruct (is_empty (dec n)) eqn:E; [by apply is_empty_true, dec_nonempty in E|].
  unfold dec. rewrite DecimalString.NilEmpty.usu, DecimalN.Unsigned.of_to.
  by apply N.leb_le in Hn as ->.
Qed.

Lemma parse_u64_bound s n : parse_u64 s = Some n -> (n <= u64_max)%N.
Proof.
  unfold parse_u64. generalize (match s with String "+" r => r | _ => s end) as t. intros t.
  destruct (is_empty t); [done|].
  destruct (DecimalString.NilEmpty.uint_of_string t) as [d|]; [|done].
  destruct (N.leb_spec (N.of_uint d) u64_max); naive_solver.
Qed.

#[export] Hint Rewrite of_bytes_of bytes_of_bytes rev_str_involutive append_empty_r append_assoc : text.

(** ** Text of numbers survives trimming *)

Lemma dec_digits n : all_chars is_ascii_digit (dec n) = true.
Proof. unfold dec. generalize (N.to_uint n) as d. induction d; simpl; rewrite ?IHd; done. Qed.

Lemma all_chars_app f a b : all_chars f (a +:+ b) = all_chars f a && all_chars f b.
Proof. induction a as [|c a IH]; simpl; [done|]. by rewrite IH, andb_assoc. Qed.

Lemma all_chars_rev f s : all_chars f (rev_str s) = all_chars f s.
Proof.
  induction s as [|c s IH]; [done|].
  change (String c s) with (String c "" +:+ s). rewrite rev_str_app, all_chars_app, IH. simpl.
  rewrite andb_true_r. apply andb_comm.
Qed.

Lemma all_chars_head f s : s <> "" -> all_chars f s = true -> exists c r, s = String c r /\ f c = true.
Proof. destruct s as [|c r]; [done|]. simpl. intros _ [? ?]%andb_true_iff. eauto. Qed.

Lemma rev_str_nonempty s : s <> "" -> rev_str s <> "".
Proof. intros Hs H. apply Hs. by rewrite <- (rev_str_involutive s), H. Qed.

(** A byte that starts no white space encoding, in either direction. *)
Definition plain (c : ascii) : bool := negb (ws1 c) && (code c <? 128)%N.

Lemma drop_ws_plain c s :
  plain c = true ->
  drop_ws ws2 ws3 (String c s) = String c s /\
  drop_ws (fun a b => ws2 b a) (fun a b d => ws3 d b a) (String c s) = String c s.
Proof.
  unfold plain. intros [Hw Hc]%andb_true_iff. apply negb_true_iff in Hw. apply N.ltb_lt in Hc.
  assert (forall d, ws2 c d = false /\ ws2 d c = false) as H2.
  { intros d. unfold ws2. destruct (N.eqb_spec (code c) 194), (N.eqb_spec (code c) 133),
      (N.eqb_spec (code c) 160); try lia; by rewrite andb_false_r. }
  assert (forall d e, ws3 c d e = false /\ ws3 e d c = false) as H3.
  { intros d e. unfold ws3. destruct (N.eqb_spec (code c) 225), (N.eqb_spec (code c) 226),
      (N.eqb_spec (code c) 227), (N.eqb_spec (code c) 128), (N.leb_spec 128 (code c)),
      (N.eqb_spec (code c) 168), (N.eqb_spec (code c) 169), (N.eqb_spec (code c) 175),
      (N.eqb_spec (code c) 159); try lia;
      (split; [done|by rewrite ?andb_false_r]). }
  simpl. rewrite Hw. destruct s as [|d [|e s]]; simpl; rewrite ?(proj1 (H2 _)), ?(proj2 (H2 _)),
    ?(proj1 (H3 _ _)), ?(proj2 (H3 _ _)); done.
Qed.

(** Text whose first and last bytes are plain is not changed by [trim]. *)
Lemma trim_plain c s d s' :
  plain c = true -> plain d = true -> rev_str (String c s) = String d s' ->
  trim (String c s) = String c s.
Proof.
  intros Hc Hd Hr. unfold trim, trim_start, trim_end.
  rewrite (proj1 (drop_ws_plain c s Hc)), Hr, (proj2 (drop_ws_plain d s' Hd)), <- Hr.
  apply rev_str_involutive.
Qed.

Lemma digit_plain c : is_ascii_digit c = true -> plain c = true.
Proof. destruct c as [[] [] [] [] [] [] [] []]; (reflexivity || (vm_compute; discriminate)). Qed.

Lemma rev_dec_head n : exists c r, rev_str (dec n) = String c r /\ is_ascii_digit c = true.
Proof.
  apply all_chars_head; [apply rev_str_nonempty, dec_nonempty|]. by rewrite all_chars_rev, dec_digits.
Qed.

Lemma trim_dec n : trim (dec n) = dec n.
Proof.
  destruct (dec_head_digit n) as (c & s & Hd & Hc). destruct (rev_dec_head n) as (d & r & Hr & Hdg).
  rewrite Hd in *. by eapply trim_plain; eauto using digit_plain.
Qed.

(** Trimming a number followed by a suffix that ends in a plain byte. *)
Lemma trim_dec_suffix n u d r :
  rev_str u = String d r -> plain d = true -> trim (dec n +:+ u) = dec n +:+ u.
Proof.
  intros Hu Hd. destruct (dec_head_digit n) as (c & s & Hs & Hc).
  rewrite Hs. change (String c s +:+ u) with (String c (s +:+ u)).
  eapply trim_plain; [by apply digit_plain|exact Hd|].
  change (String c (s +:+ u)) with (String c s +:+ u). by rewrite rev_str_app, Hu.
Qed.

Lemma of_hex_uint_pad k d : N.of_hex_uint (Nat.iter k Hexadecimal.D0 d) = N.of_hex_uint d.
Proof. induction k as [|k IH]; simpl; [done|]. by rewrite <- IH. Qed.

#[global] Instance hex_pad_inj w : Inj eq eq (hex_pad w).
Proof.
  intros n m H.
  assert (forall n, N.of_hex_uint <$> HexadecimalString.NilEmpty.uint_of_string (hex_pad w n) = Some n) as Hv.
  { intros k. unfold hex_pad. rewrite HexadecimalString.NilEmpty.usu. simpl.
    by rewrite of_hex_uint_pad, HexadecimalN.Unsigned.of_to. }
  pose proof (Hv n) as Hn. rewrite H, Hv in Hn. by simplify_eq.
Qed.

(** ** Searching and case *)

Lemma drop_char_head c s : match s with String d _ => c <> d | "" => True end -> drop_char c s = s.
Proof. destruct s as [|d s]; simpl; [done|]. intros Hd. by destruct (ascii_dec c d). Qed.

Lemma split_once_none c s : contains_char c s = false -> split_once c s = None.
Proof.
  induction s as [|d s IH]; simpl; [done|]. destruct (ascii_dec c d); [done|]. intros Hs. by rewrite IH.
Qed.

Lemma split_once_app c a b : contains_char c a = false -> split_once c (a +:+ String c b) = Some (a, b).
Proof.
  induction a as [|d a IH]; simpl.
  - intros _. change ("" +:+ String c b) with (String c b). simpl. by destruct (ascii_dec c c).
  - change (String d a +:+ String c b) with (String d (a +:+ String c b)). simpl.
    destruct (ascii_dec c d); [done|]. intros Ha. by rewrite IH.
Qed.

Lemma contains_char_app c a b : contains_char c (a +:+ b) = contains_char c a || contains_char c b.
Proof.
  induction a as [|d a IH]; [done|]. change (String d a +:+ b) with (String d (a +:+ b)). simpl.
  by destruct (ascii_dec c d).
Qed.

Lemma contains_char_all c s : contains_char c s = negb (all_chars (fun d => if ascii_dec c d then false else true) s).
Proof. induction s as [|d s IH]; simpl; [done|]. by destruct (ascii_dec c d). Qed.

Lemma contains_char_rev c s : contains_char c (rev_str s) = contains_char c s.
Proof. by rewrite !contains_char_all, all_chars_rev. Qed.

Lemma trim_plain_all s : s <> "" -> all_chars plain s = true -> trim s = s.
Proof.
  intros Hs Ha. destruct (all_chars_head plain s Hs Ha) as (c & r & -> & Hc).
  destruct (all_chars_head plain (rev_str (String c r))) as (d & r' & Hr & Hd).
  { by apply rev_str_nonempty. }
  { by rewrite all_chars_rev. }
  by eapply trim_plain.
Qed.

Lemma all_chars_impl (f g : ascii -> bool) s :
  (forall c, f c = true -> g c = true) -> all_chars f s = true -> all_chars g s = true.
Proof.
  intros Hfg. induction s as [|c s IH]; simpl; [done|]. rewrite !andb_true_iff. intros [Hc Hs]. auto.
Qed.

Lemma digits_no_colon s : all_chars is_ascii_digit s = true -> contains_char ":" s = false.
Proof.
  intros Hs. rewrite contains_char_all, negb_false_iff. eapply all_chars_impl; [|exact Hs].
  intros c Hc. by destruct (ascii_dec ":" c) as [<-|].
Qed.

Lemma to_ascii_lowercase_rev s : to_ascii_lowercase (rev_str s) = rev_str (to_ascii_lowercase s).
Proof.
  unfold to_ascii_lowercase. induction s as [|c s IH]; simpl; [done|].
  change (String c s) with (String c "" +:+ s). change (String (lower_char c) (map_str lower_char s)) with
    (String (lower_char c) "" +:+ map_str lower_char s). rewrite !rev_str_app, <- IH.
  fold (to_ascii_lowercase (rev_str s +:+ rev_str (String c ""))).
  by rewrite to_ascii_lowercase_app.
Qed.

Lemma lower_char_dot c : lower_char c = "."%char <-> c = "."%char.
Proof. destruct c as [[] [] [] [] [] [] [] []]; vm_compute; split; congruence. Qed.

Lemma drop_dot_lowercase s : to_ascii_lowercase (drop_char "." s) = drop_char "." (to_ascii_lowercase s).
Proof.
  unfold to_ascii_lowercase. induction s as [|c s IH]; [done|]. cbn [drop_char map_str].
  destruct (ascii_dec "." c) as [Hc|Hc], (ascii_dec "." (lower_char c)) as [Hl|Hl]; try done.
  - by subst c.
  - symmetry in Hl. pose proof (proj1 (lower_char_dot c) Hl). by subst c.
Qed.

Lemma trim_dots_lowercase s :
  to_ascii_lowercase (trim_end_matches "." s) = trim_end_matches "." (to_ascii_lowercase s).
Proof. unfold trim_end_matches. by rewrite to_ascii_lowercase_rev, drop_dot_lowercase, to_ascii_lowercase_rev. Qed.

Lemma trim_dots_app s : trim_end_matches "." (s +:+ ".") = trim_end_matches "." s.
Proof. unfold trim_end_matches. by rewrite rev_str_app. Qed.

Lemma trim_dots_id s : match rev_str s with String d _ => "."%char <> d | "" => True end -> trim_end_matches "." s = s.
Proof. intros Hs. unfold trim_end_matches. by rewrite drop_char_head, rev_str_involutive. Qed.
