(* ===== verification/Types.v ===== *)
(** * Data model

    The records and enumerations of [ployz-types] ([model.rs], [spec.rs],
    [error.rs]), with the constructors and fields of the source.  Newtypes over
    [String] are strings; [u16]/[u32]/[u64] fields are [N]; [BTreeMap] and
    [HashMap] are [gmap]; an [Ipv4Addr] is its 32-bit value; an [Ipv6Addr] its
    16 octets.  The [ipnet] crate is an interface ([Ipnet], [IpnetLaws]). *)

From S2P Require Import Prelude Order Text.
Local Open Scope string_scope.

(** ** Addresses *)

Abbreviation Ipv4Addr := N (only parsing).
Abbreviation Ipv6Addr := (list N) (only parsing).
Definition u32_max : N := 4294967295.

(** [ipnet::Ipv4Net]: an address with a prefix length. *)
Record Ipv4Net := mkNet { net_addr : Ipv4Addr; net_prefix_len : N }.
#[global] Instance Ipv4Net_eq_dec : EqDecision Ipv4Net.
Proof. solve_decision. Defined.
#[global] Program Instance Ipv4Net_countable : Countable Ipv4Net :=
  inj_countable' (fun n => (net_addr n, net_prefix_len n)) (fun '(a, p) => mkNet a p) _.
Next Obligation. by intros []. Qed.

(** The operations of [ipnet] the sources call. *)
Class Ipnet := {
  ipnet_new : Ipv4Addr -> N -> option Ipv4Net;   (* [Ipv4Net::new] *)
  ipnet_network : Ipv4Net -> Ipv4Addr;           (* [network()] *)
  ipnet_broadcast : Ipv4Net -> Ipv4Addr;         (* [broadcast()] *)
  ipnet_to_string : Ipv4Net -> string;           (* [Display] *)
  ipnet_parse : string -> option Ipv4Net;        (* [FromStr] *)
  ipnet_cmp : Ipv4Net -> Ipv4Net -> comparison   (* [Ord] *)
}.

Definition net_size (p : N) : N := 2 ^ (32 - p).
Definition net_wf (n : Ipv4Net) : Prop := (net_addr n <= u32_max /\ net_prefix_len n <= 32)%N.

(** Documented behaviour of [ipnet]. *)
Class IpnetLaws (I : Ipnet) : Prop := {
  ipnet_new_ok : forall a p, (a <= u32_max)%N -> (p <= 32)%N -> ipnet_new a p = Some (mkNet a p);
  ipnet_new_err : forall a p, (32 < p)%N -> ipnet_new a p = None;
  ipnet_network_spec : forall n, net_wf n ->
    ipnet_network n = (net_addr n / net_size (net_prefix_len n) * net_size (net_prefix_len n))%N;
  ipnet_broadcast_spec : forall n, net_wf n ->
    ipnet_broadcast n = (ipnet_network n + net_size (net_prefix_len n) - 1)%N;
  ipnet_parse_to_string : forall n, net_wf n -> ipnet_parse (ipnet_to_string n) = Some n;
  ipnet_parse_wf : forall s n, ipnet_parse s = Some n -> net_wf n;
  ipnet_cmp_total :: TotalCmp ipnet_cmp;
  ipnet_cmp_eq : forall a b, ipnet_cmp a b = Eq <-> a = b
}.

(** ** Identifiers and keys *)

Abbreviation MachineId := string (only parsing).
Abbreviation InstanceId := string (only parsing).
Abbreviation DeployId := string (only parsing).
Abbreviation SlotId := string (only parsing).
Abbreviation Namespace := string (only parsing).
Abbreviation NetworkId := string (only parsing).
Abbreviation NetworkName := string (only parsing).
Abbreviation PublicKey := (list N) (only parsing).
Abbreviation OverlayIp := Ipv6Addr (only parsing).

(** [management_ip_from_key]: [fd] followed by the first 15 key bytes. *)
Definition management_ip_from_key (key : PublicKey) : OverlayIp := 253%N :: take 15 key.

(** ** Errors ([error.rs]) *)

Record Error := Operation { err_operation : string; err_message : string }.
#[global] Instance Error_eq_dec : EqDecision Error.
Proof. solve_decision. Defined.
Abbreviation Res := (result Error) (only parsing).
Definition error_to_string (e : Error) : string := err_operation e +:+ ": " +:+ err_message e.

(** ** Machines *)

Inductive MachineStatus := MsUnknown | MsUp | MsDown.
Inductive Participation := Disabled | Enabled | Draining.
#[global] Instance MachineStatus_eq_dec : EqDecision MachineStatus.
Proof. solve_decision. Defined.
#[global] Instance Participation_eq_dec : EqDecision Participation.
Proof. solve_decision. Defined.

(** [Display] and [FromStr] of the two enumerations. *)
Definition status_to_string (s : MachineStatus) : string :=
  match s with MsUnknown => "unknown" | MsUp => "up" | MsDown => "down" end.
Definition status_from_str (s : string) : option MachineStatus :=
  if decide (s = "unknown" \/ s = "") then Some MsUnknown
  else if decide (s = "up") then Some MsUp
  else if decide (s = "down") then Some MsDown else None.
Definition participation_to_string (p : Participation) : string :=
  match p with Disabled => "disabled" | Enabled => "enabled" | Draining => "draining" end.
Definition participation_from_str (s : string) : option Participation :=
  if decide (s = "disabled") then Some Disabled
  else if decide (s = "enabled") then Some Enabled
  else if decide (s = "draining") then Some Draining else None.

Record MachineRecord := {
  mr_id : MachineId;
  mr_public_key : PublicKey;
  mr_overlay_ip : OverlayIp;
  mr_subnet : option Ipv4Net;
  mr_bridge_ip : option OverlayIp;
  mr_endpoints : list string;
  mr_status : MachineStatus;
  mr_participation : Participation;
  mr_last_heartbeat : N;
  mr_created_at : N;
  mr_updated_at : N;
  mr_labels : gmap string string
}.
#[global] Instance MachineRecord_eq_dec : EqDecision MachineRecord.
Proof. solve_decision. Defined.

(** [MachineRecord::seed]. *)
Definition machine_seed (id : MachineId) (public_key : PublicKey) (overlay_ip : OverlayIp)
    (subnet : option Ipv4Net) (endpoints : list string) : MachineRecord := {|
  mr_id := id; mr_public_key := public_key; mr_overlay_ip := overlay_ip; mr_subnet := subnet;
  mr_bridge_ip := None; mr_endpoints := endpoints; mr_status := MsUnknown;
  mr_participation := Disabled; mr_last_heartbeat := 0; mr_created_at := 0; mr_updated_at := 0;
  mr_labels := ∅ |}.

Inductive MachineEvent :=
| MeAdded (r : MachineRecord)
| MeUpdated (r : MachineRecord)
| MeRemoved (r : MachineRecord).

Record InviteRecord := { inv_id : string; inv_expires_at : N }.

(** ** Services, releases, instances *)

Record ServiceRevisionRecord := {
  srv_namespace : Namespace; srv_service : string; srv_revision_hash : string;
  srv_spec_json : string; srv_created_by : MachineId; srv_created_at : N
}.
#[global] Instance ServiceRevisionRecord_eq_dec : EqDecision ServiceRevisionRecord.
Proof. solve_decision. Defined.

Record ServiceTrafficAllocation := {
  sta_revision_hash : string; sta_percent : N; sta_label : option string
}.
#[global] Instance ServiceTrafficAllocation_eq_dec : EqDecision ServiceTrafficAllocation.
Proof. solve_decision. Defined.

Inductive ServiceRoutingPolicy :=
| Direct (revision_hash : string)
| Split (allocations : list ServiceTrafficAllocation).
#[global] Instance ServiceRoutingPolicy_eq_dec : EqDecision ServiceRoutingPolicy.
Proof. solve_decision. Defined.

Record ServiceReleaseSlot := {
  sl_slot_id : SlotId; sl_machine_id : MachineId; sl_active_instance_id : InstanceId;
  sl_revision_hash : string
}.
#[global] Instance ServiceReleaseSlot_eq_dec : EqDecision ServiceReleaseSlot.
Proof. solve_decision. Defined.

Record ServiceRelease := {
  sr_primary_revision_hash : string;
  sr_referenced_revision_hashes : list string;
  sr_routing : ServiceRoutingPolicy;
  sr_slots : list ServiceReleaseSlot;
  sr_updated_by_deploy_id : DeployId;
  sr_updated_at : N
}.
#[global] Instance ServiceRelease_eq_dec : EqDecision ServiceRelease.
Proof. solve_decision. Defined.

Record ServiceReleaseRecord := {
  rel_namespace : Namespace; rel_service : string; rel_release : ServiceRelease
}.
#[global] Instance ServiceReleaseRecord_eq_dec : EqDecision ServiceReleaseRecord.
Proof. solve_decision. Defined.

Inductive InstancePhase := IpPending | IpStarting | IpReady | IpFailed | IpDraining | IpRemoved.
Inductive DrainState := DsNone | DsRequested | DsComplete.
#[global] Instance InstancePhase_eq_dec : EqDecision InstancePhase.
Proof. solve_decision. Defined.
#[global] Instance DrainState_eq_dec : EqDecision DrainState.
Proof. solve_decision. Defined.

Record InstanceStatusRecord := {
  is_instance_id : InstanceId;
  is_namespace : Namespace;
  is_service : string;
  is_slot_id : SlotId;
  is_machine_id : MachineId;
  is_revision_hash : string;
  is_deploy_id : DeployId;
  is_docker_container_id : string;
  is_overlay_ip : option Ipv4Addr;
  is_backend_ports : gmap string N;
  is_phase : InstancePhase;
  is_ready : bool;
  is_drain_state : DrainState;
  is_error : option string;
  is_started_at : N;
  is_updated_at : N
}.

Record RoutingState := {
  rs_revisions : list ServiceRevisionRecord;
  rs_releases : list ServiceReleaseRecord;
  rs_instances : list InstanceStatusRecord
}.

(** ** Deploys *)

Inductive DeployState := DpPlanning | DpApplying | DpCommitted | DpCleanupPending | DpFailed.
#[global] Instance DeployState_eq_dec : EqDecision DeployState.
Proof. solve_decision. Defined.

Record DeployRecord := {
  dr_deploy_id : DeployId;
  dr_namespace : Namespace;
  dr_coordinator_machine_id : MachineId;
  dr_manifest_hash : string;
  dr_state : DeployState;
  dr_started_at : N;
  dr_committed_at : option N;
  dr_finished_at : option N;
  dr_summary_json : string
}.

Inductive DeployChangeKind := Create | Replace | Remove | Unchanged.
#[global] Instance DeployChangeKind_eq_dec : EqDecision DeployChangeKind.
Proof. solve_decision. Defined.

Record SlotPlan := {
  sp_slot_id : SlotId;
  sp_machine_id : MachineId;
  sp_current_instance_id : option InstanceId;
  sp_next_instance_id : option InstanceId;
  sp_current_revision_hash : option string;
  sp_next_revision_hash : option string;
  sp_action : DeployChangeKind
}.
#[global] Instance SlotPlan_eq_dec : EqDecision SlotPlan.
Proof. solve_decision. Defined.

Record ServicePlan := {
  pl_service : string;
  pl_current_revision_hash : option string;
  pl_next_revision_hash : option string;
  pl_slots : list SlotPlan;
  pl_action : DeployChangeKind
}.

Record DeployPreview := {
  dp_namespace : Namespace;
  dp_manifest_hash : string;
  dp_participants : list MachineId;
  dp_services : list ServicePlan;
  dp_warnings : list string
}.

Record DeployEvent := { ev_step : string; ev_message : string }.

Record DeployApplyResult := {
  da_deploy_id : DeployId;
  da_preview : DeployPreview;
  da_state : DeployState;
  da_events : list DeployEvent
}.

(** ** Service specifications ([spec.rs]) *)

Inductive Placement := Global | Replicated (count : N).
Inductive NetworkMode := NmOverlay | NmService (name : string) | NmHost | NmNone.
Inductive PortProtocol := Tcp | Udp.
Inductive PullPolicy := IfNotPresent | Always | Never.
Inductive RolloutStrategy := Recreate | BlueGreen.
Inductive RestartPolicy := UnlessStopped | RestartAlways | OnFailure | RestartNo.

Record ManagedVolumeSpec := {
  mv_name : string; mv_driver : option string; mv_options : gmap string string
}.
Inductive VolumeSource := Bind (path : string) | Managed (v : ManagedVolumeSpec) | Tmpfs.
Record VolumeMount := { vm_source : VolumeSource; vm_target : string; vm_readonly : bool }.

Record Resources := { res_cpu_millicores : option N; res_memory_bytes : option N }.

Record ContainerSpec := {
  cs_image : string;
  cs_command : option (list string);
  cs_entrypoint : option (list string);
  cs_env : gmap string string;
  cs_volumes : list VolumeMount;
  cs_cap_add : list string;
  cs_cap_drop : list string;
  cs_privileged : bool;
  cs_user : option string;
  cs_pull_policy : PullPolicy;
  cs_resources : Resources;
  cs_sysctls : gmap string string
}.

Record ServicePort := { port_name : string; port_container_port : N; port_protocol : PortProtocol }.
Record PublishedPort := { pub_service_port : string; pub_host_port : N; pub_host_ip : option string }.
Record HttpRoute := { hr_service_port : string; hr_hostnames : list string; hr_path_prefix : string }.
Record TcpRoute := { tr_service_port : string; tr_listen_port : N }.
Inductive RouteSpec := RouteHttp (r : HttpRoute) | RouteTcp (r : TcpRoute).

Inductive ReadinessCheck :=
| CheckHttp (service_port path : string)
| CheckTcp (service_port : string)
| CheckExec (command : list string).

Record ReadinessProbe := {
  rp_check : ReadinessCheck;
  rp_interval : option string;
  rp_timeout : option string;
  rp_retries : option N;
  rp_start_period : option string
}.

Record ServiceSpec := {
  ss_name : string;
  ss_placement : Placement;
  ss_template : ContainerSpec;
  ss_network : NetworkMode;
  ss_service_ports : list ServicePort;
  ss_publish : list PublishedPort;
  ss_routes : list RouteSpec;
  ss_readiness : option ReadinessProbe;
  ss_rollout : RolloutStrategy;
  ss_labels : gmap string string;
  ss_stop_grace_period : option string;
  ss_restart : RestartPolicy
}.

Record DeployManifest := { mf_namespace : Namespace; mf_services : list ServiceSpec }.

(** ** Time *)

(** [Duration] and monotonic [Instant] in nanoseconds. *)
Abbreviation Duration := N (only parsing).
Abbreviation Instant := N (only parsing).
Definition from_millis (ms : N) : Duration := (ms * 1000000)%N.
Definition from_secs (s : N) : Duration := (s * 1000000000)%N.

(** [Instant::duration_since] saturates at zero; [checked_duration_since] does not. *)
Definition duration_since (now earlier : Instant) : Duration := (now - earlier)%N.
Definition checked_duration_since (now earlier : Instant) : option Duration :=
  if (earlier <=? now)%N then Some (now - earlier)%N else None.
