(* ===== verification/Addr.v ===== *)
(** * IP addresses as text

    The textual form of [std::net] addresses, which invites, container
    inspection and DNS settings pass around: [Display] of [Ipv4Addr] and
    [Ipv6Addr], and the parser behind [FromStr] with its groups, zero
    compression and embedded IPv4 tail.  Printing an address and reading it back
    gives the address. *)

From S2P Require Import Prelude Order Text Types.
Local Open Scope string_scope.
#[local] Arguments String.append !_ _ : simpl nomatch.

Inductive IpAddr := V4 (a : Ipv4Addr) | V6 (a : Ipv6Addr).
#[global] Instance IpAddr_eq_dec : EqDecision IpAddr.
Proof. solve_decision. Defined.

(** ** The parser *)

(** [char::to_digit]. *)
Definition to_digit (radix : N) (c : ascii) : option N :=
  let n := code c in
  d ← (if (48 <=? n) && (n <=? 57) then Some (n - 48)
       else if (97 <=? n) && (n <=? 122) then Some (n - 87)
       else if (65 <=? n) && (n <=? 90) then Some (n - 55) else None)%N;
  if (d <? radix)%N then Some d else None.

(** The longest run of digits: its value, its length and the rest. *)
Fixpoint read_digits (radix acc : N) (count : nat) (s : string) : N * nat * string :=
  match s with
  | String c r => match to_digit radix c with
                  | Some d => read_digits radix (acc * radix + d) (S count) r
                  | None => (acc, count, s)
                  end
  | EmptyString => (acc, count, s)
  end.

(** [Parser::read_number] for a type with largest value [bound]. *)
Definition read_number (radix : N) (max_digits : nat) (allow_zero_prefix : bool) (bound : N) (s : string)
    : option (N * string) :=
  let has_leading_zero := match s with String c _ => bool_decide (c = "0"%char) | EmptyString => false end in
  let '(v, count, r) := read_digits radix 0 0 s in
  if (Nat.ltb max_digits count || Nat.eqb count 0 ||
      (negb allow_zero_prefix && has_leading_zero && Nat.ltb 1 count))%bool then None
  else if (v <=? bound)%N then Some (v, r) else None.

(** [Parser::read_separator]: from the second item on, the separator first. *)
Definition read_separator {A} (sep : ascii) (first : bool) (inner : string -> option (A * string)) (s : string)
    : option (A * string) :=
  if first then inner s
  else match s with
       | String c r => if ascii_dec c sep then inner r else None
       | EmptyString => None
       end.

Definition read_octet : string -> option (N * string) := read_number 10 3 false 255.
Definition read_ipv4_addr (s : string) : option (Ipv4Addr * string) :=
  '(a, s) ← read_separator "." true read_octet s;
  '(b, s) ← read_separator "." false read_octet s;
  '(c, s) ← read_separator "." false read_octet s;
  '(d, s) ← read_separator "." false read_octet s;
  Some ((a * 16777216 + b * 65536 + c * 256 + d)%N, s).

(** [read_groups] into [k] slots: the groups read, whether the last two came
    from an embedded IPv4 address, and the rest. *)
Fixpoint read_groups (k : nat) (first : bool) (s : string) : list N * bool * string :=
  match k with
  | O => ([], false, s)
  | S k' =>
      match (match k' with O => None | S _ => read_separator ":" first read_ipv4_addr s end) with
      | Some (a, r) => ([a / 65536; a mod 65536]%N, true, r)
      | None =>
          match read_separator ":" first (read_number 16 4 true 65535) s with
          | None => ([], false, s)
          | Some (g, r) => let '(gs, v4, r) := read_groups k' false r in (g :: gs, v4, r)
          end
      end
  end.

Definition groups_octets (gs : list N) : Ipv6Addr := gs ≫= fun g => [g / 256; g mod 256]%N.

Definition read_ipv6_groups (s : string) : option (list N * string) :=
  let '(head, head_ipv4, s) := read_groups 8 true s in
  if Nat.eqb (length head) 8 then Some (head, s)
  else if head_ipv4 then None
  else match s with
       | String ":" (String ":" s) =>
           let '(tail, _, s) := read_groups (8 - (length head + 1)) true s in
           Some (head ++ replicate (8 - length head - length tail) 0%N ++ tail, s)%list
       | _ => None
       end.

Definition parse_with {A} (inner : string -> option (A * string)) (s : string) : option A :=
  '(a, r) ← inner s; if is_empty r then Some a else None.

(** [Ipv6Addr::from_str] and [IpAddr::from_str]. *)
Definition parse_ipv6 (s : string) : option Ipv6Addr := groups_octets <$> parse_with read_ipv6_groups s.
Definition parse_ip (s : string) : option IpAddr :=
  parse_with (fun s => match read_ipv4_addr s with
                       | Some (a, r) => Some (V4 a, r)
                       | None => '(gs, r) ← read_ipv6_groups s; Some (V6 (groups_octets gs), r)
                       end) s.

(** [SocketAddr], and [SocketAddr::from_str] with the scope of an IPv6 address. *)
Record SocketAddr := { sa_ip : IpAddr; sa_port : N }.
Definition read_given_char (c : ascii) (s : string) : option string :=
  match s with String d r => if ascii_dec c d then Some r else None | EmptyString => None end.
Definition read_port (s : string) : option (N * string) :=
  s ← read_given_char ":" s; read_number 10 (String.length s) true 65535 s.
Definition read_scope_id (s : string) : option (N * string) :=
  s ← read_given_char "%" s; read_number 10 (String.length s) true 4294967295 s.
Definition read_socket_addr_v4 (s : string) : option (SocketAddr * N * string) :=
  '(ip, s) ← read_ipv4_addr s;
  '(port, s) ← read_port s;
  Some ({| sa_ip := V4 ip; sa_port := port |}, 0%N, s).
Definition read_socket_addr_v6 (s : string) : option (SocketAddr * N * string) :=
  s ← read_given_char "[" s;
  '(gs, s) ← read_ipv6_groups s;
  let '(scope_id, s) := match read_scope_id s with Some r => r | None => (0%N, s) end in
  s ← read_given_char "]" s;
  '(port, s) ← read_port s;
  Some ({| sa_ip := V6 (groups_octets gs); sa_port := port |}, scope_id, s).
Definition parse_socket_addr (s : string) : option (SocketAddr * N) :=
  parse_with (fun s => match read_socket_addr_v4 s with Some r => Some r | None => read_socket_addr_v6 s end) s.

(** ** Printing *)

Definition ipv4_to_string (a : Ipv4Addr) : string :=
  dec (a / 16777216) +:+ String "." (dec (a / 65536 mod 256) +:+ String "." (
    dec (a / 256 mod 256) +:+ String "." (dec (a mod 256)))).

Definition hex_char (d : N) : ascii :=
  ascii_of_N (if (d <? 10)%N then 48 + d else 87 + d)%N.
(** [{:x}] of a [u16]. *)
Definition hex_u16 (g : N) : string :=
  let d3 := hex_char (g / 4096) in let d2 := hex_char (g / 256 mod 16) in
  let d1 := hex_char (g / 16 mod 16) in let d0 := hex_char (g mod 16) in
  if (g <? 16)%N then String d0 "" else
  if (g <? 256)%N then String d1 (String d0 "") else
  if (g <? 4096)%N then String d2 (String d1 (String d0 "")) else
  String d3 (String d2 (String d1 (String d0 ""))).

(** [fmt_subslice]. *)
Definition fmt_groups (gs : list N) : string := join ":" (hex_u16 <$> gs).

(** The first longest run of zero groups, as start and length. *)
Definition zero_step (st : nat * (nat * nat) * (nat * nat)) (g : N) : nat * (nat * nat) * (nat * nat) :=
  let '(i, longest, current) := st in
  if (g =? 0)%N then
    let current := ((if Nat.eqb current.2 0 then i else current.1), S current.2) in
    (S i, (if Nat.ltb longest.2 current.2 then current else longest), current)
  else (S i, longest, (0, 0)).
Definition longest_zeroes (gs : list N) : nat * nat := (foldl zero_step (0, (0, 0), (0, 0)) gs).1.2.

Fixpoint octets_groups (o : list N) : list N :=
  match o with
  | a :: b :: o => (a * 256 + b)%N :: octets_groups o
  | _ => []
  end.

(** [Ipv6Addr::to_ipv4_mapped]. *)
Definition to_ipv4_mapped (gs : list N) : option Ipv4Addr :=
  match gs with
  | [a; b; c; d; e; f; g; h] =>
      if bool_decide ([a; b; c; d; e; f] = [0; 0; 0; 0; 0; 65535]%N) then Some (g * 65536 + h)%N else None
  | _ => None
  end.

Definition ipv6_to_string (a : Ipv6Addr) : string :=
  let gs := octets_groups a in
  match to_ipv4_mapped gs with
  | Some v4 => "::ffff:" +:+ ipv4_to_string v4
  | None =>
      let '(start, l) := longest_zeroes gs in
      if Nat.ltb 1 l then fmt_groups (take start gs) +:+ "::" +:+ fmt_groups (drop (start + l) gs)
      else fmt_groups gs
  end.

Example ipv6_examples :
  ipv6_to_string [253;0;0;0;0;0;0;0;0;0;0;0;0;0;0;1]%N = "fd00::1" /\
  parse_ipv6 "fd00::1" = Some [253;0;0;0;0;0;0;0;0;0;0;0;0;0;0;1]%N /\
  parse_ip "10.210.0.2" = Some (V4 181534722) /\ parse_ip "10.210.0.02" = None /\
  parse_ip "::ffff:1.2.3.4" = Some (V6 [0;0;0;0;0;0;0;0;0;0;255;255;1;2;3;4]%N) /\
  parse_ipv6 "1:2:3:4:5:6:7:8:9" = None.
Proof. vm_compute. done. Qed.

(** ** Reading back what was printed *)

(** Enumerate a number below a literal. *)
Ltac small_cases d :=
  destruct d; repeat match goal with p : positive |- _ => destruct p; try (exfalso; lia) end.

Definition stops (s : string) : Prop :=
  match s with String c _ => to_digit 16 c = None /\ c <> "."%char | EmptyString => True end.
Definition is_hex (c : ascii) : bool := match to_digit 16 c with Some _ => true | None => false end.

Lemma to_digit_hex_char d : (d < 16)%N -> to_digit 16 (hex_char d) = Some d.
Proof. intros Hd. small_cases d; reflexivity. Qed.

Lemma hex_char_is_hex d : (d < 16)%N -> is_hex (hex_char d) = true.
Proof. intros Hd. unfold is_hex. by rewrite to_digit_hex_char. Qed.

Lemma to_digit_10_16 c : to_digit 16 c = None -> to_digit 10 c = None.
Proof.
  unfold to_digit. generalize (if ((48 <=? code c) && (code c <=? 57))%N then Some (code c - 48)%N
    else if ((97 <=? code c) && (code c <=? 122))%N then Some (code c - 87)%N
    else if ((65 <=? code c) && (code c <=? 90))%N then Some (code c - 55)%N else None) as o.
  intros [d|]; simpl; [|done].
  destruct (N.ltb_spec d 16); [done|]. destruct (N.ltb_spec d 10); [lia|done].
Qed.

Lemma read_digits_stop radix acc count s :
  match s with String c _ => to_digit radix c = None | EmptyString => True end ->
  read_digits radix acc count s = (acc, count, s).
Proof. destruct s as [|c s]; simpl; [done|]. by intros ->. Qed.

Lemma stops_digit radix s : (radix = 10 \/ radix = 16)%N -> stops s ->
  match s with String c _ => to_digit radix c = None | EmptyString => True end.
Proof. destruct s as [|c s]; [done|]. intros [->| ->] [H _]; [by apply to_digit_10_16|done]. Qed.

(** *** Groups *)

Lemma hex_digit_bounds g : (g < 65536)%N ->
  (g / 4096 < 16 /\ g / 256 mod 16 < 16 /\ g / 16 mod 16 < 16 /\ g mod 16 < 16)%N /\
  (g = (g / 4096) * 4096 + (g / 256 mod 16) * 256 + (g / 16 mod 16) * 16 + g mod 16)%N.
Proof.
  intros Hg. pose proof (N.Div0.div_mod g 16) as H1. pose proof (N.Div0.div_mod (g / 16) 16) as H2.
  pose proof (N.Div0.div_mod (g / 256) 16) as H3.
  assert (g / 16 / 16 = g / 256)%N as E1 by (by rewrite N.Div0.div_div).
  assert (g / 256 / 16 = g / 4096)%N as E2 by (by rewrite N.Div0.div_div).
  rewrite E1 in H2. rewrite E2 in H3.
  split; [|lia]. repeat split; try (apply N.mod_lt; lia). apply N.Div0.div_lt_upper_bound. lia.
Qed.

Lemma read_digits_hex g rest : (g < 65536)%N -> stops rest ->
  exists n, 1 <= n <= 4 /\ read_digits 16 0 0 (hex_u16 g +:+ rest) = (g, n, rest).
Proof.
  intros Hg Hr. destruct (hex_digit_bounds g Hg) as ((H3 & H2 & H1 & H0) & Hv).
  apply (stops_digit 16) in Hr; [|by right]. unfold hex_u16.
  assert (forall k, (0 < k)%N -> (g < k)%N -> (g / k = 0)%N) as Hdiv by (intros; by apply N.div_small).
  destruct (N.ltb_spec g 16); [|destruct (N.ltb_spec g 256); [|destruct (N.ltb_spec g 4096)]];
    simpl; rewrite ?to_digit_hex_char by done; rewrite (read_digits_stop 16 _ _ _ Hr);
    eexists; (split; [|f_equal; f_equal]); try lia.
  - rewrite N.mod_small by lia. lia.
  - rewrite (Hdiv 4096%N), (Hdiv 256%N) in Hv by lia. rewrite N.Div0.mod_0_l in Hv. lia.
  - rewrite (Hdiv 4096%N) in Hv by lia. lia.
Qed.

Lemma read_group_hex g rest : (g < 65536)%N -> stops rest ->
  read_number 16 4 true 65535 (hex_u16 g +:+ rest) = Some (g, rest).
Proof.
  intros Hg Hr. unfold read_number. destruct (read_digits_hex g rest Hg Hr) as (n & Hn & ->).
  destruct (Nat.ltb_spec 4 n), (Nat.eqb_spec n 0); try lia. simpl.
  by destruct (N.leb_spec g 65535); [|lia].
Qed.

Lemma hex_u16_hex g : (g < 65536)%N -> all_chars is_hex (hex_u16 g) = true.
Proof.
  intros Hg. destruct (hex_digit_bounds g Hg) as ((? & ? & ? & ?) & _).
  unfold hex_u16. repeat case_match; simpl; by rewrite ?hex_char_is_hex.
Qed.

(** A group is never the start of a dotted address. *)
Lemma read_digits_hex_suffix radix acc n h rest :
  (radix = 10 \/ radix = 16)%N -> all_chars is_hex h = true -> stops rest ->
  exists v m h', read_digits radix acc n (h +:+ rest) = (v, m, h' +:+ rest) /\ all_chars is_hex h' = true.
Proof.
  intros Hx Hh Hr. revert acc n Hh. induction h as [|c h IH]; intros acc n Hh; simpl in *.
  - rewrite read_digits_stop by by apply (stops_digit _ _ Hx). by exists acc, n, "".
  - apply andb_true_iff in Hh as [Hc Hh]. destruct (to_digit radix c); [by apply IH|].
    exists acc, n, (String c h). simpl. by rewrite Hc.
Qed.

Lemma read_octet_hex h rest v r :
  all_chars is_hex h = true -> stops rest -> read_octet (h +:+ rest) = Some (v, r) ->
  exists h', r = h' +:+ rest /\ all_chars is_hex h' = true.
Proof.
  intros Hh Hr. unfold read_octet, read_number.
  destruct (read_digits_hex_suffix 10 0 0 h rest ltac:(by left) Hh Hr) as (w & m & h' & -> & Hh').
  intros Ho. repeat case_match; simplify_eq; eauto.
Qed.

Lemma read_ipv4_hex h rest : all_chars is_hex h = true -> stops rest -> read_ipv4_addr (h +:+ rest) = None.
Proof.
  intros Hh Hr. unfold read_ipv4_addr. simpl.
  destruct (read_octet (h +:+ rest)) as [[v r]|] eqn:E; [|done]. simpl.
  apply read_octet_hex in E as (h' & -> & Hh'); [|done..].
  destruct h' as [|c h']; simpl in *.
  - destruct rest as [|c rest]; [done|]. destruct Hr as [_ Hc]. by destruct (ascii_dec c "."%char).
  - apply andb_true_iff in Hh' as [Hc _]. by destruct (ascii_dec c "."%char) as [->|].
Qed.

(** The end of an address: the end of the text, or a bracket. *)
Definition closes (s : string) : Prop := s = "" \/ exists r, s = String "]" r.
(** The end of a run of groups: that of the address, or the zero compression. *)
Definition ends (s : string) : Prop := closes s \/ exists r, s = "::" +:+ r.

Lemma ends_stops s : ends s -> stops s.
Proof. by intros [[->|[r ->]]|[r ->]]. Qed.

Lemma read_ends k first s : ends s -> read_groups k first s = ([], false, s).
Proof. intros [[->|[r ->]]|[r ->]]; destruct k as [|[|k]], first; done. Qed.

Fixpoint fmt_tail (gs : list N) : string :=
  match gs with [] => "" | g :: gs => String ":" (hex_u16 g +:+ fmt_tail gs) end.

Lemma fmt_groups_cons g gs : fmt_groups (g :: gs) = hex_u16 g +:+ fmt_tail gs.
Proof.
  unfold fmt_groups. revert g. induction gs as [|g' gs IH]; intros g; csimpl; [by rewrite append_empty_r|].
  f_equal. f_equal. apply IH.
Qed.

Lemma fmt_tail_stops gs rest : ends rest -> stops (fmt_tail gs +:+ rest).
Proof. destruct gs; simpl; [apply ends_stops|done]. Qed.

Lemma read_one_group k (first : bool) g s :
  (g < 65536)%N -> stops s ->
  read_groups (S k) first ((if first then "" else ":") +:+ hex_u16 g +:+ s) =
  (let '(gs, v4, r) := read_groups k false s in (g :: gs, v4, r)).
Proof.
  intros Hg Hs. simpl.
  assert (read_separator ":" first read_ipv4_addr ((if first then "" else ":") +:+ hex_u16 g +:+ s) = None) as E1.
  { destruct first; simpl; apply read_ipv4_hex; (done || by apply hex_u16_hex). }
  assert (read_separator ":" first (read_number 16 4 true 65535) ((if first then "" else ":") +:+ hex_u16 g +:+ s)
          = Some (g, s)) as E2 by (destruct first; simpl; by apply read_group_hex).
  rewrite E2. destruct k; [done|]. by rewrite E1.
Qed.

Lemma read_groups_tail k gs rest :
  length gs <= k -> Forall (fun g => g < 65536)%N gs -> ends rest ->
  read_groups k false (fmt_tail gs +:+ rest) = (gs, false, rest).
Proof.
  revert k. induction gs as [|g gs IH]; intros k Hk Hgs Hr; [by apply read_ends|].
  destruct k as [|k]; simpl in Hk; [lia|]. apply Forall_cons in Hgs as [Hg Hgs].
  change (fmt_tail (g :: gs) +:+ rest) with (":" +:+ ((hex_u16 g +:+ fmt_tail gs) +:+ rest)).
  rewrite append_assoc, (read_one_group k false) by (done || by apply fmt_tail_stops).
  by rewrite IH by (done || lia).
Qed.

Lemma read_groups_fmt k gs rest :
  length gs <= k -> Forall (fun g => g < 65536)%N gs -> ends rest ->
  read_groups k true (fmt_groups gs +:+ rest) = (gs, false, rest).
Proof.
  intros Hk Hgs Hr. destruct gs as [|g gs]; [by apply read_ends|].
  destruct k as [|k]; simpl in Hk; [lia|]. apply Forall_cons in Hgs as [Hg Hgs].
  rewrite fmt_groups_cons, append_assoc. change (hex_u16 g +:+ ?x) with ("" +:+ hex_u16 g +:+ x).
  rewrite (read_one_group k true) by (done || by apply fmt_tail_stops).
  by rewrite read_groups_tail by (done || lia).
Qed.

(** *** The zero run *)

Definition zeros_at (gs : list N) (run : nat * nat) : Prop :=
  run.1 + run.2 <= length gs /\ forall j, run.1 <= j < run.1 + run.2 -> gs !! j = Some 0%N.

Lemma zeros_at_snoc gs g run : zeros_at gs run -> zeros_at (gs ++ [g])%list run.
Proof.
  intros [Hl Hz]. split; [rewrite length_app; lia|]. intros j Hj. rewrite lookup_app_l by lia. auto.
Qed.

Lemma zero_fold_inv gs :
  let '(i, longest, current) := foldl zero_step (0, (0, 0), (0, 0)) gs in
  i = length gs /\ zeros_at gs longest /\ zeros_at gs current /\ (current.2 <> 0 -> current.1 + current.2 = i).
Proof.
  induction gs as [|g gs IH] using rev_ind.
  { simpl. repeat split; simpl; try done; lia. }
  rewrite foldl_app. destruct (foldl _ _ gs) as [[i longest] current].
  destruct IH as (-> & Hl & Hc & Hend). simpl. rewrite length_app. simpl.
  destruct (N.eqb_spec g 0) as [->|Hg].
  - set (current' := (_, S current.2)). assert (zeros_at (gs ++ [0%N])%list current') as Hc'.
    { split; unfold current'; simpl.
      - rewrite length_app. simpl. destruct (Nat.eqb_spec current.2 0) as [->|]; [lia|]. specialize (Hend n). lia.
      - intros j Hj. destruct (decide (j = length gs)) as [->|Hne].
        + rewrite lookup_app_r by done. by rewrite Nat.sub_diag.
        + destruct (Nat.eqb_spec current.2 0) as [E|E]; [lia|]. specialize (Hend E).
          rewrite lookup_app_l by lia. apply Hc. lia. }
    repeat split; try lia.
    + case_match; [apply Hc'|by apply zeros_at_snoc].
    + case_match; [apply Hc'|by apply zeros_at_snoc].
    + apply Hc'.
    + apply Hc'.
    + intros _. unfold current'. simpl. destruct (Nat.eqb_spec current.2 0) as [->|E]; [lia|]. specialize (Hend E). lia.
  - split_and!; [lia|by apply zeros_at_snoc| |done]. split; simpl; [lia|intros; lia].
Qed.

Lemma longest_zeroes_spec gs start l :
  longest_zeroes gs = (start, l) ->
  start + l <= length gs /\ gs = (take start gs ++ replicate l 0%N ++ drop (start + l) gs)%list.
Proof.
  unfold longest_zeroes. pose proof (zero_fold_inv gs) as Hinv.
  destruct (foldl _ _ gs) as [[i longest] current]. simpl. intros ->. destruct Hinv as (_ & [Hl Hz] & _).
  simpl in *. split; [done|].
  rewrite <- (take_drop start gs) at 1. f_equal. rewrite <- (take_drop l (drop start gs)), drop_drop. f_equal.
  apply list_eq. intros j. destruct (decide (j < l)) as [Hj|Hj].
  - rewrite lookup_take_lt, lookup_drop, Hz by lia. symmetry. by apply lookup_replicate_2.
  - rewrite !lookup_ge_None_2; [done| |]; rewrite ?length_take, ?length_drop, ?length_replicate; lia.
Qed.

(** *** Octets and groups *)

Definition octets_wf (a : Ipv6Addr) : Prop := length a = 16 /\ Forall (fun b => b < 256)%N a.

Lemma groups_octets_groups a : octets_wf a -> groups_octets (octets_groups a) = a.
Proof.
  intros [Hl Hb]. do 16 (destruct a as [|? a]; [done|]). destruct a; [|done].
  repeat (apply Forall_cons in Hb as [? Hb]). unfold groups_octets. simpl.
  assert (forall x y, y < 256 -> (x * 256 + y) / 256 = x)%N as Hd
    by (intros x y Hy; rewrite N.div_add_l, (N.div_small y); lia).
  assert (forall x y, y < 256 -> (x * 256 + y) mod 256 = y)%N as Hm
    by (intros x y Hy; by rewrite N.add_comm, N.Div0.mod_add, N.mod_small).
  by rewrite !Hd, !Hm by done.
Qed.

Lemma octets_groups_wf a : octets_wf a ->
  length (octets_groups a) = 8 /\ Forall (fun g => g < 65536)%N (octets_groups a).
Proof.
  intros [Hl Hb]. do 16 (destruct a as [|? a]; [done|]). destruct a; [|done].
  repeat (apply Forall_cons in Hb as [? Hb]). split; [done|]. simpl. repeat constructor; lia.
Qed.

(** *** Dotted addresses *)

Definition no_digit (s : string) : Prop :=
  match s with String c _ => to_digit 10 c = None | EmptyString => True end.

Lemma read_octet_dec n rest : (n < 256)%N -> no_digit rest -> read_octet (dec n +:+ rest) = Some (n, rest).
Proof.
  intros Hn Hr. unfold no_digit in Hr. unfold read_octet, read_number.
  small_cases n;
    match goal with |- context [dec ?n] => let d := eval vm_compute in (dec n) in change (dec n) with d end;
    cbn [String.append read_digits];
    repeat match goal with
    | |- context [to_digit 10 ?c] => let d := eval vm_compute in (to_digit 10 c) in
                                     change (to_digit 10 c) with d; cbn [read_digits]
    end;
    rewrite (read_digits_stop 10 _ _ rest Hr); reflexivity.
Qed.

Lemma ipv4_octets_value a : (a <= u32_max)%N ->
  (a / 16777216 < 256 /\ a / 65536 mod 256 < 256 /\ a / 256 mod 256 < 256 /\ a mod 256 < 256)%N /\
  (a / 16777216 * 16777216 + (a / 65536 mod 256) * 65536 + (a / 256 mod 256) * 256 + a mod 256 = a)%N.
Proof.
  intros Ha. pose proof (N.Div0.div_mod a 256) as H1. pose proof (N.Div0.div_mod (a / 256) 256) as H2.
  pose proof (N.Div0.div_mod (a / 65536) 256) as H3.
  assert (a / 256 / 256 = a / 65536)%N as E1 by (by rewrite N.Div0.div_div).
  assert (a / 65536 / 256 = a / 16777216)%N as E2 by (by rewrite N.Div0.div_div).
  rewrite E1 in H2. rewrite E2 in H3. split; [|lia].
  repeat split; try (apply N.mod_lt; lia). apply N.Div0.div_lt_upper_bound. unfold u32_max in Ha. lia.
Qed.

Lemma read_ipv4_dotted a rest : (a <= u32_max)%N -> no_digit rest ->
  read_ipv4_addr (ipv4_to_string a +:+ rest) = Some (a, rest).
Proof.
  intros Ha Hr. destruct (ipv4_octets_value a Ha) as ((? & ? & ? & ?) & Hv).
  unfold read_ipv4_addr, ipv4_to_string. simpl read_separator.
  repeat (rewrite append_assoc; simpl String.append).
  rewrite (read_octet_dec (a / 16777216)) by done. simpl.
  repeat (rewrite append_assoc; simpl String.append).
  rewrite (read_octet_dec (a / 65536 mod 256)) by done. simpl.
  rewrite (read_octet_dec (a / 256 mod 256)) by done. simpl.
  rewrite (read_octet_dec (a mod 256)) by done. simpl. by rewrite Hv.
Qed.

Lemma parse_ipv4_print a : (a <= u32_max)%N -> parse_ip (ipv4_to_string a) = Some (V4 a).
Proof.
  intros Ha. unfold parse_ip, parse_with. rewrite <- (append_empty_r (ipv4_to_string a)).
  by rewrite read_ipv4_dotted.
Qed.

(** *** IPv6 addresses *)

Lemma read_ipv6_full gs rest :
  length gs = 8 -> Forall (fun g => g < 65536)%N gs -> closes rest -> read_ipv6_groups (fmt_groups gs +:+ rest) = Some (gs, rest).
Proof.
  intros Hl Hg Hr. unfold read_ipv6_groups. rewrite read_groups_fmt by (done || lia || by left). by rewrite Hl.
Qed.

Lemma read_ipv6_compressed head tail rest :
  length head + length tail <= 6 ->
  Forall (fun g => g < 65536)%N head -> Forall (fun g => g < 65536)%N tail -> closes rest ->
  read_ipv6_groups (fmt_groups head +:+ "::" +:+ fmt_groups tail +:+ rest) =
  Some (head ++ replicate (8 - length head - length tail) 0%N ++ tail, rest)%list.
Proof.
  intros Hl Hh Ht Hr. unfold read_ipv6_groups. rewrite read_groups_fmt by (done || lia || right; by eexists).
  destruct (Nat.eqb_spec (length head) 8); [lia|]. simpl.
  by rewrite read_groups_fmt by (done || lia || by left).
Qed.

Lemma read_ipv6_mapped a rest : (a <= u32_max)%N -> closes rest ->
  read_ipv6_groups ("::ffff:" +:+ ipv4_to_string a +:+ rest) =
  Some ([0; 0; 0; 0; 0; 65535; a / 65536; a mod 65536]%N, rest).
Proof.
  intros Ha Hr. assert (no_digit rest) as Hn by (by destruct Hr as [->|[r ->]]).
  assert (read_ipv4_addr (ipv4_to_string a +:+ rest) = Some (a, rest)) as E by by apply read_ipv4_dotted.
  set (text := ipv4_to_string a +:+ rest) in *. clearbody text.
  change ("::ffff:" +:+ text) with ("::" +:+ ("ffff" +:+ (":" +:+ text))).
  unfold read_ipv6_groups. rewrite read_ends by (right; by eexists). simpl length. simpl Nat.eqb. cbv iota.
  change ("ffff" +:+ (":" +:+ text)) with ("" +:+ hex_u16 65535 +:+ (":" +:+ text)).
  simpl Nat.sub. change ("::" +:+ ?x) with (String ":" (String ":" x)). cbv iota.
  rewrite (read_one_group 6 true) by done.
  change (read_groups 6 false (":" +:+ text)) with
    (match read_ipv4_addr text with
     | Some (a, r) => ([a / 65536; a mod 65536]%N, true, r)
     | None => match read_separator ":" false (read_number 16 4 true 65535) (":" +:+ text) with
               | None => ([], false, ":" +:+ text)
               | Some (g, r) => let '(gs, v4, r) := read_groups 5 false r in (g :: gs, v4, r)
               end
     end).
  by rewrite E.
Qed.

Lemma read_ipv6_print a rest : octets_wf a -> closes rest ->
  read_ipv6_groups (ipv6_to_string a +:+ rest) = Some (octets_groups a, rest).
Proof.
  intros Hwf Hr. destruct (octets_groups_wf a Hwf) as [Hl Hg].
  unfold ipv6_to_string. destruct (to_ipv4_mapped _) as [v4|] eqn:Hm.
  - unfold to_ipv4_mapped in Hm. repeat (case_match; try done). simplify_eq.
    match goal with E : bool_decide _ = true |- _ => apply bool_decide_eq_true in E; simplify_eq end.
    do 6 (apply Forall_cons in Hg as [_ Hg]).
    apply Forall_cons in Hg as [Hg1 Hg]. apply Forall_cons in Hg as [Hg2 _].
    rewrite append_assoc, read_ipv6_mapped by (done || unfold u32_max; lia).
    rewrite N.div_add_l, (N.div_small _ 65536), N.add_0_r by lia.
    by rewrite (N.add_comm (_ * _)), N.Div0.mod_add, N.mod_small.
  - destruct (longest_zeroes _) as [start l] eqn:Hz. apply longest_zeroes_spec in Hz as [Hb Hz].
    destruct (Nat.ltb_spec 1 l); [|by apply read_ipv6_full].
    rewrite !append_assoc, read_ipv6_compressed; [| |by apply Forall_take|by apply Forall_drop|done];
      rewrite length_take, length_drop; [|lia].
    f_equal. f_equal. rewrite Hz at 5. do 3 f_equal. lia.
Qed.

Lemma parse_ipv6_print a : octets_wf a -> parse_ipv6 (ipv6_to_string a) = Some a.
Proof.
  intros Hwf. unfold parse_ipv6, parse_with. rewrite <- (append_empty_r (ipv6_to_string a)).
  rewrite read_ipv6_print by (done || by left). simpl. by rewrite groups_octets_groups.
Qed.

(** *** Socket addresses *)

Lemma read_digits_uint_acc d p count :
  read_digits 10 (Npos p) count (DecimalString.NilEmpty.string_of_uint d) = (Npos (Pos.of_uint_acc d p), count + Decimal.nb_digits d, "").
Proof.
  revert p count. induction d as [|d IH|d IH|d IH|d IH|d IH|d IH|d IH|d IH|d IH|d IH]; intros p count; cbn -[Pos.mul Pos.add N.mul N.add];
    [by rewrite Nat.add_0_r|..]; rewrite Nat.add_succ_r, <- Nat.add_succ_l, <- IH; f_equal; unfold code; cbn [N_of_ascii N_of_digits]; lia.
Qed.
Lemma read_digits_uint d count :
  read_digits 10 0 count (DecimalString.NilEmpty.string_of_uint d) = (Pos.of_uint d, count + Decimal.nb_digits d, "").
Proof.
  revert count. induction d as [|d IH|d|d|d|d|d|d|d|d|d]; intros count; cbn -[Pos.mul Pos.add N.mul N.add];
    [by rewrite Nat.add_0_r|rewrite Nat.add_succ_r, <- Nat.add_succ_l; apply IH|..];
    rewrite Nat.add_succ_r, <- Nat.add_succ_l; apply (read_digits_uint_acc d _ (S count)).
Qed.
Lemma length_string_of_uint d : String.length (DecimalString.NilEmpty.string_of_uint d) = Decimal.nb_digits d.
Proof. induction d; simpl; by rewrite ?IHd. Qed.
Lemma read_number_dec n bound : (n <= bound)%N -> read_number 10 (String.length (dec n)) true bound (dec n) = Some (n, "").
Proof.
  intros Hn. unfold read_number. pose proof (dec_nonempty n) as Hne. unfold dec in *. rewrite read_digits_uint, length_string_of_uint.
  cbn [negb andb]. rewrite Nat.add_0_l, Nat.ltb_irrefl, orb_false_r. cbn [orb].
  assert (Pos.of_uint (N.to_uint n) = n) as -> by apply (DecimalN.Unsigned.of_to n).
  destruct (Nat.eqb_spec (Decimal.nb_digits (N.to_uint n)) 0) as [E|_].
  - by destruct (N.to_uint n).
  - by apply N.leb_le in Hn as ->.
Qed.

(** [Display] of an address and a port. *)
Definition socket_addr_to_string (a : SocketAddr) : string :=
  match sa_ip a with
  | V4 ip => ipv4_to_string ip +:+ String ":" (dec (sa_port a))
  | V6 ip => String "[" (ipv6_to_string ip +:+ String "]" (String ":" (dec (sa_port a))))
  end.
Definition ip_wf (a : IpAddr) : Prop := match a with V4 a => (a <= u32_max)%N | V6 a => octets_wf a end.
Lemma parse_socket_addr_print a :
  ip_wf (sa_ip a) -> (sa_port a <= 65535)%N -> parse_socket_addr (socket_addr_to_string a) = Some (a, 0%N).
Proof.
  destruct a as [[ip|ip] port]; cbn [sa_ip sa_port socket_addr_to_string ip_wf]; intros Hip Hp;
    unfold parse_socket_addr, parse_with, read_socket_addr_v4, read_socket_addr_v6.
  - rewrite read_ipv4_dotted by done. cbn -[dec read_number String.length]. by rewrite read_number_dec.
  - cbn -[dec read_number String.length ipv6_to_string read_ipv6_groups groups_octets String.append].
    rewrite read_ipv6_print by (done || right; by eexists).
    cbn -[dec read_number String.length groups_octets]. rewrite read_number_dec by done. simpl. by rewrite groups_octets_groups.
Qed.
