(* ===== verification/RefCodec.v ===== *)
(** * Texts of records

    JSON is an interface of the components that read and write it: the class
    [RecordCodec], with the law [JsonRoundTrip] that what was written is read
    back.  A simple implementation shows that the law can hold: a value of a
    countable type is numbered and its number printed in decimal.  The records of
    the data model are countable. *)

From Stdlib Require Import DecimalString DecimalN.
From S2P Require Import Prelude Order Text Types.

(** [serde_json] on a record type. *)
Class RecordCodec (T : Type) := { to_json : T -> result string string; from_json : string -> result string T }.
Class JsonRoundTrip (T : Type) `{RecordCodec T} : Prop :=
  json_round_trip : forall r : T, exists p, to_json r = Ok p /\ from_json p = Ok r.

Definition ref_text {T} `{Countable T} (x : T) : string := dec (Npos (encode x)).
Definition ref_read {T} `{Countable T} (s : string) : result string T :=
  ok_or (d ← DecimalString.NilEmpty.uint_of_string s;
         match N.of_uint d with Npos p => decode p | N0 => None end) "not a record"%string.

Lemma ref_read_text {T} `{Countable T} (x : T) : ref_read (ref_text x) = Ok x.
Proof.
  unfold ref_read, ref_text, dec, base.mbind, option_bind.
  rewrite DecimalString.NilEmpty.usu, DecimalN.Unsigned.of_to. by rewrite decode_encode.
Qed.
Lemma ref_text_nonempty {T} `{Countable T} (x : T) : ref_text x <> ""%string.
Proof. apply dec_nonempty. Qed.

Definition ref_record_codec (T : Type) `{Countable T} : RecordCodec T := {|
  to_json x := Ok (ref_text x); from_json := ref_read |}.
Lemma ref_json_round_trip (T : Type) `{Countable T} : @JsonRoundTrip T (ref_record_codec T).
Proof. intros r. exists (ref_text r). split; [done|apply ref_read_text]. Qed.

#[export] Instance InstancePhase_countable : Countable InstancePhase.
Proof.
  refine (inj_countable' (fun p => match p with IpPending => 0 | IpStarting => 1 | IpReady => 2 | IpFailed => 3
                                              | IpDraining => 4 | IpRemoved => 5 end)
    (fun n => match n with 0 => IpPending | 1 => IpStarting | 2 => IpReady | 3 => IpFailed | 4 => IpDraining
                         | _ => IpRemoved end) _). by intros [].
Defined.
#[export] Instance DrainState_countable : Countable DrainState.
Proof.
  refine (inj_countable' (fun p => match p with DsNone => 0 | DsRequested => 1 | DsComplete => 2 end)
    (fun n => match n with 0 => DsNone | 1 => DsRequested | _ => DsComplete end) _). by intros [].
Defined.
#[export] Instance InstanceStatusRecord_eq_dec : EqDecision InstanceStatusRecord.
Proof. solve_decision. Defined.
#[export] Instance InstanceStatusRecord_countable : Countable InstanceStatusRecord.
Proof.
  refine (inj_countable'
    (fun r => (is_instance_id r, is_namespace r, is_service r, is_slot_id r, is_machine_id r, is_revision_hash r,
               (is_deploy_id r, is_docker_container_id r, is_overlay_ip r, is_backend_ports r),
               (is_phase r, is_ready r, is_drain_state r, is_error r, is_started_at r, is_updated_at r)))
    (fun '(a, b, c, d, e, f, (g, h, i, j), (k, l, m, n, o, p)) => Build_InstanceStatusRecord a b c d e f g h i j k l m n o p) _).
  by intros [].
Defined.
#[export] Instance MachineStatus_countable : Countable MachineStatus.
Proof.
  refine (inj_countable' (fun p => match p with MsUnknown => 0 | MsUp => 1 | MsDown => 2 end)
    (fun n => match n with 0 => MsUnknown | 1 => MsUp | _ => MsDown end) _). by intros [].
Defined.
#[export] Instance Participation_countable : Countable Participation.
Proof.
  refine (inj_countable' (fun p => match p with Disabled => 0 | Enabled => 1 | Draining => 2 end)
    (fun n => match n with 0 => Disabled | 1 => Enabled | _ => Draining end) _). by intros [].
Defined.
#[export] Instance MachineRecord_countable : Countable MachineRecord.
Proof.
  refine (inj_countable'
    (fun r => (mr_id r, mr_public_key r, mr_overlay_ip r, mr_subnet r, mr_bridge_ip r, mr_endpoints r,
               (mr_status r, mr_participation r, mr_last_heartbeat r, mr_created_at r, mr_updated_at r, mr_labels r)))
    (fun '(a, b, c, d, e, f, (g, h, i, j, k, l)) => Build_MachineRecord a b c d e f g h i j k l) _).
  by intros [].
Defined.
#[export] Instance InviteRecord_eq_dec : EqDecision InviteRecord.
Proof. solve_decision. Defined.
#[export] Instance InviteRecord_countable : Countable InviteRecord.
Proof. refine (inj_countable' (fun r => (inv_id r, inv_expires_at r)) (fun '(a, b) => Build_InviteRecord a b) _). by intros []. Defined.
#[export] Instance ServiceRevisionRecord_countable : Countable ServiceRevisionRecord.
Proof.
  refine (inj_countable'
    (fun r => (srv_namespace r, srv_service r, srv_revision_hash r, srv_spec_json r, srv_created_by r, srv_created_at r))
    (fun '(a, b, c, d, e, f) => Build_ServiceRevisionRecord a b c d e f) _). by intros [].
Defined.
#[export] Instance ServiceTrafficAllocation_countable : Countable ServiceTrafficAllocation.
Proof.
  refine (inj_countable' (fun r => (sta_revision_hash r, sta_percent r, sta_label r))
    (fun '(a, b, c) => Build_ServiceTrafficAllocation a b c) _). by intros [].
Defined.
#[export] Instance ServiceRoutingPolicy_countable : Countable ServiceRoutingPolicy.
Proof.
  refine (inj_countable' (fun p => match p with Direct h => inl h | Split l => inr l end)
    (fun s => match s with inl h => Direct h | inr l => Split l end) _). by intros [].
Defined.
#[export] Instance ServiceReleaseSlot_countable : Countable ServiceReleaseSlot.
Proof.
  refine (inj_countable' (fun r => (sl_slot_id r, sl_machine_id r, sl_active_instance_id r, sl_revision_hash r))
    (fun '(a, b, c, d) => Build_ServiceReleaseSlot a b c d) _). by intros [].
Defined.
#[export] Instance ServiceRelease_countable : Countable ServiceRelease.
Proof.
  refine (inj_countable'
    (fun r => (sr_primary_revision_hash r, sr_referenced_revision_hashes r, sr_routing r, sr_slots r,
               sr_updated_by_deploy_id r, sr_updated_at r))
    (fun '(a, b, c, d, e, f) => Build_ServiceRelease a b c d e f) _). by intros [].
Defined.
#[export] Instance ServiceReleaseRecord_countable : Countable ServiceReleaseRecord.
Proof.
  refine (inj_countable' (fun r => (rel_namespace r, rel_service r, rel_release r))
    (fun '(a, b, c) => Build_ServiceReleaseRecord a b c) _). by intros [].
Defined.
#[export] Instance DeployState_countable : Countable DeployState.
Proof.
  refine (inj_countable' (fun p => match p with DpPlanning => 0 | DpApplying => 1 | DpCommitted => 2
                                              | DpCleanupPending => 3 | DpFailed => 4 end)
    (fun n => match n with 0 => DpPlanning | 1 => DpApplying | 2 => DpCommitted | 3 => DpCleanupPending
                         | _ => DpFailed end) _). by intros [].
Defined.
#[export] Instance DeployRecord_eq_dec : EqDecision DeployRecord.
Proof. solve_decision. Defined.
#[export] Instance DeployRecord_countable : Countable DeployRecord.
Proof.
  refine (inj_countable'
    (fun r => (dr_deploy_id r, dr_namespace r, dr_coordinator_machine_id r, dr_manifest_hash r, dr_state r,
               (dr_started_at r, dr_committed_at r, dr_finished_at r, dr_summary_json r)))
    (fun '(a, b, c, d, e, (f, g, h, i)) => Build_DeployRecord a b c d e f g h i) _). by intros [].
Defined.
