(* ===== verification/Spec.v ===== *)
(** * Service specifications

    [spec.rs] of [ployz-types]: manifest and service validation, readiness
    probe timing, duration parsing, and the content hash of revisions. *)

From S2P Require Import Prelude Order Text Types.
Local Open Scope string_scope.

(** ** Durations *)

Definition duration_units : list (string * N) :=
  [("ms", 1%N); ("s", 1000%N); ("m", 60000%N); ("h", 3600000%N)].

Definition parse_duration_amount (value raw_value : string) (multiplier_ms : N) : result string Duration :=
  amount <-? ok_or (parse_u64 (trim raw_value))
    ("must be an integer duration like '30s' or '5m', got '" +:+ value +:+ "'") ;;
  if (amount * multiplier_ms <=? u64_max)%N then Ok (from_millis (amount * multiplier_ms))
  else Err ("is too large to represent as a duration: '" +:+ value +:+ "'").

Fixpoint parse_duration_units (value trimmed : string) (units : list (string * N))
    : result string Duration :=
  match units with
  | [] => Err ("must use one of the supported suffixes: ms, s, m, h; got '" +:+ value +:+ "'")
  | (suffix, multiplier_ms) :: units =>
      match strip_suffix suffix trimmed with
      | None => parse_duration_units value trimmed units
      | Some raw_value => parse_duration_amount value raw_value multiplier_ms
      end
  end.

Definition parse_duration (value : string) : result string Duration :=
  let trimmed := trim value in
  if is_empty trimmed then Err "cannot be empty"
  else parse_duration_units value trimmed duration_units.

(** ** Readiness probes *)

Definition duration_or (o : option string) (dflt : Duration) : result string Duration :=
  match o with
  | Some v => parse_duration v
  | None => Ok dflt
  end.

Definition interval_duration (p : ReadinessProbe) := duration_or (rp_interval p) (from_secs 30).
Definition timeout_duration (p : ReadinessProbe) := duration_or (rp_timeout p) (from_secs 30).
Definition start_period_duration (p : ReadinessProbe) := duration_or (rp_start_period p) 0%N.
Definition retries (p : ReadinessProbe) : N := default 3%N (rp_retries p).

Definition probe_validate (p : ReadinessProbe) (service_name : string) : result string unit :=
  let ctx := "service '" +:+ service_name +:+ "' readiness " in
  interval <-? map_err (fun e => ctx +:+ "interval " +:+ e) (interval_duration p) ;;
  if (interval =? 0)%N then Err (ctx +:+ "interval must be greater than zero") else
  timeout <-? map_err (fun e => ctx +:+ "timeout " +:+ e) (timeout_duration p) ;;
  if (timeout =? 0)%N then Err (ctx +:+ "timeout must be greater than zero") else
  _ <-? map_err (fun e => ctx +:+ "start_period " +:+ e) (start_period_duration p) ;;
  if (retries p =? 0)%N then Err (ctx +:+ "retries must be greater than zero") else
  Ok tt.

(** ** Services *)

Section service.
Context (self : ServiceSpec).
Let name := ss_name self.

Definition validate_placement : result string unit :=
  match ss_placement self with
  | Global => Ok tt
  | Replicated count =>
      if (count =? 0)%N then Err ("service '" +:+ name +:+ "' must request at least one replica")
      else Ok tt
  end.

Definition validate_port (seen : gset string) (port : ServicePort) : result string (gset string) :=
  if is_empty (trim (port_name port))
  then Err ("service '" +:+ name +:+ "' has a service port with an empty name")
  else if decide (port_name port ∈ seen)
  then Err ("service '" +:+ name +:+ "' defines duplicate service port '" +:+ port_name port +:+ "'")
  else Ok ({[port_name port]} ∪ seen).

Definition validate_publish (seen_ports : gset string) (_ : unit) (p : PublishedPort) : result string unit :=
  if decide (pub_service_port p ∈ seen_ports) then Ok tt
  else Err ("service '" +:+ name +:+ "' publishes unknown service port '" +:+ pub_service_port p +:+ "'").

Definition route_port (r : RouteSpec) : string * string :=
  match r with
  | RouteHttp r => ("HTTP", hr_service_port r)
  | RouteTcp r => ("TCP", tr_service_port r)
  end.

Definition validate_route (seen_ports : gset string) (_ : unit) (r : RouteSpec) : result string unit :=
  let '(kind, service_port) := route_port r in
  if decide (service_port ∈ seen_ports) then Ok tt
  else Err ("service '" +:+ name +:+ "' " +:+ kind +:+ " route references unknown service port '"
            +:+ service_port +:+ "'").

Definition validate_readiness (seen_ports : gset string) : result string unit :=
  match ss_readiness self with
  | None => Ok tt
  | Some readiness =>
      _ <-? match rp_check readiness with
            | CheckHttp service_port _ | CheckTcp service_port =>
                if decide (service_port ∈ seen_ports) then Ok tt
                else Err ("service '" +:+ name +:+ "' readiness probe references unknown service port '"
                          +:+ service_port +:+ "'")
            | CheckExec command =>
                match command with
                | [] => Err ("service '" +:+ name +:+
                             "' exec readiness probe must define at least one argument")
                | _ => Ok tt
                end
            end ;;
      probe_validate readiness name
  end.

Definition is_bind (m : VolumeMount) : bool :=
  match vm_source m with Bind _ => true | _ => false end.
Definition is_host (m : NetworkMode) : bool := match m with NmHost => true | _ => false end.

Definition validate_rollout : result string unit :=
  match ss_rollout self with
  | Recreate => Ok tt
  | BlueGreen =>
      if decide (ss_readiness self = None)
      then Err ("service '" +:+ name +:+ "' uses blue_green rollout but does not define readiness")
      else if negb (match ss_publish self with [] => true | _ => false end)
      then Err ("service '" +:+ name +:+ "' cannot use blue_green rollout with published host ports")
      else if is_host (ss_network self)
      then Err ("service '" +:+ name +:+ "' cannot use blue_green rollout with host networking")
      else if existsb is_bind (cs_volumes (ss_template self))
      then Err ("service '" +:+ name +:+ "' cannot use blue_green rollout with bind mounts")
      else Ok tt
  end.

Definition service_validate : result string unit :=
  if is_empty (trim name) then Err "service name cannot be empty" else
  _ <-? validate_placement ;;
  seen_ports <-? try_fold validate_port ∅ (ss_service_ports self) ;;
  _ <-? try_fold (validate_publish seen_ports) tt (ss_publish self) ;;
  _ <-? try_fold (validate_route seen_ports) tt (ss_routes self) ;;
  _ <-? validate_readiness seen_ports ;;
  validate_rollout.
End service.

(** ** Manifests *)

Definition validate_service (seen : gset string) (service : ServiceSpec) : result string (gset string) :=
  if decide (ss_name service ∈ seen)
  then Err ("manifest contains duplicate service '" +:+ ss_name service +:+ "'")
  else _ <-? service_validate service ;; Ok ({[ss_name service]} ∪ seen).

Definition manifest_validate (self : DeployManifest) : result string unit :=
  if is_empty (trim (mf_namespace self)) then Err "manifest namespace cannot be empty"
  else match mf_services self with
       | [] => Err "manifest must contain at least one service"
       | services => _ <-? try_fold validate_service ∅ services ;; Ok tt
       end.

(** ** Content hashing *)

Definition fnv_offset : N := 14695981039346656037.
Definition fnv_prime : N := 1099511628211.
Definition u64_modulus : N := 18446744073709551616.

Definition fnv_step (hash byte : N) : N := (N.lxor hash byte * fnv_prime) mod u64_modulus.
Definition stable_hash (bytes : list N) : N := foldl fnv_step fnv_offset bytes.
Definition stable_hash_hex (bytes : list N) : string := hex_pad 16 (stable_hash bytes).
Definition str_bytes (s : string) : list N := code <$> bytes_of s.

(** ** What validation guarantees *)

Definition blank (s : string) : Prop := trim s = "".

Definition port_names (s : ServiceSpec) : list string := port_name <$> ss_service_ports s.

Definition probe_wf (p : ReadinessProbe) : Prop :=
  (exists d, interval_duration p = Ok d /\ d <> 0%N) /\
  (exists d, timeout_duration p = Ok d /\ d <> 0%N) /\
  (exists d, start_period_duration p = Ok d) /\
  retries p <> 0%N.

Definition check_wf (ports : list string) (c : ReadinessCheck) : Prop :=
  match c with
  | CheckHttp service_port _ | CheckTcp service_port => service_port ∈ ports
  | CheckExec command => command <> []
  end.

(** A deployable service: its references resolve inside the specification and
    a blue-green rollout can run two instances side by side. *)
Record service_wf (s : ServiceSpec) : Prop := {
  swf_name : ~ blank (ss_name s);
  swf_replicas : ss_placement s <> Replicated 0;
  swf_port_names : Forall (fun p => ~ blank (port_name p)) (ss_service_ports s);
  swf_ports_distinct : NoDup (port_names s);
  swf_publish : Forall (fun p => pub_service_port p ∈ port_names s) (ss_publish s);
  swf_routes : Forall (fun r => (route_port r).2 ∈ port_names s) (ss_routes s);
  swf_readiness : forall p, ss_readiness s = Some p -> check_wf (port_names s) (rp_check p) /\ probe_wf p;
  swf_blue_green : ss_rollout s = BlueGreen ->
    is_Some (ss_readiness s) /\ ss_publish s = [] /\ ss_network s <> NmHost /\
    Forall (fun m => forall path, vm_source m <> Bind path) (cs_volumes (ss_template s))
}.

Record manifest_wf (m : DeployManifest) : Prop := {
  mwf_namespace : ~ blank (mf_namespace m);
  mwf_services : mf_services m <> [];
  mwf_distinct : NoDup (ss_name <$> mf_services m);
  mwf_service : Forall service_wf (mf_services m)
}.

Lemma is_empty_blank s : is_empty (trim s) = true <-> blank s.
Proof. apply is_empty_true. Qed.

Lemma is_empty_not_blank s : is_empty (trim s) = false <-> ~ blank s.
Proof. rewrite <- is_empty_blank. by destruct (is_empty (trim s)). Qed.

Lemma probe_validate_ok p name : probe_validate p name = Ok tt <-> probe_wf p.
Proof.
  unfold probe_validate, probe_wf.
  destruct (interval_duration p) as [i|]; simpl; [|naive_solver].
  destruct (N.eqb_spec i 0); [naive_solver|].
  destruct (timeout_duration p) as [t|]; simpl; [|naive_solver].
  destruct (N.eqb_spec t 0); [naive_solver|].
  destruct (start_period_duration p) as [d|]; simpl; [|naive_solver].
  destruct (N.eqb_spec (retries p) 0); naive_solver.
Qed.

Lemma validate_placement_ok s : validate_placement s = Ok tt <-> ss_placement s <> Replicated 0.
Proof.
  unfold validate_placement. destruct (ss_placement s) as [|n]; [naive_solver|].
  destruct (N.eqb_spec n 0); naive_solver.
Qed.

(** Folding a check that only tests each element. *)
Lemma try_fold_check {E A} (body : unit -> A -> result E unit) (P : A -> Prop) l :
  (forall x, body tt x = Ok tt <-> P x) -> try_fold body tt l = Ok tt <-> Forall P l.
Proof.
  intros HP. induction l as [|x l IH]; simpl; [naive_solver|].
  rewrite Forall_cons, <- IH, <- HP. destruct (body tt x) as [[]|]; simpl; naive_solver.
Qed.

(** A loop that refuses a key it has seen: it succeeds exactly when every element
    passes its own check and the keys are distinct. *)
Lemma try_fold_distinct {E A} (key : A -> string) (P : A -> Prop)
    (body : gset string -> A -> result E (gset string)) :
  (forall seen x seen', body seen x = Ok seen' <->
    key x ∉ seen /\ P x /\ seen' = {[key x]} ∪ seen) ->
  forall l seen seen', try_fold body seen l = Ok seen' <->
    Forall P l /\ NoDup (key <$> l) /\ Forall (fun k => k ∉ seen) (key <$> l) /\
    seen' = list_to_set (key <$> l) ∪ seen.
Proof.
  intros Hb. induction l as [|x l IH]; intros seen seen'; simpl.
  { rewrite !Forall_nil, NoDup_nil. split.
    - intros [= <-]. split_and!; set_solver.
    - intros (_ & _ & _ & ->). f_equal. set_solver. }
  rewrite rbind_Ok, !Forall_cons, NoDup_cons. split.
  - intros (s1 & (Hx & HP & ->)%Hb & (H1 & H2 & H3 & ->)%IH).
    rewrite !Forall_forall in *. split_and!; set_solver.
  - intros ([HP H1] & [H2 H3] & [H4 H5] & ->). exists ({[key x]} ∪ seen).
    rewrite Hb, IH, !Forall_forall in *. split_and!; set_solver.
Qed.

Lemma validate_ports_ok s l seen seen' :
  try_fold (validate_port s) seen l = Ok seen' <->
  Forall (fun p => ~ blank (port_name p)) l /\ NoDup (port_name <$> l) /\
  Forall (fun p => p ∉ seen) (port_name <$> l) /\ seen' = list_to_set (port_name <$> l) ∪ seen.
Proof.
  apply try_fold_distinct. clear. intros seen p seen'. unfold validate_port.
  destruct (is_empty (trim (port_name p))) eqn:Hb.
  - apply is_empty_blank in Hb. naive_solver.
  - apply is_empty_not_blank in Hb. case_decide; naive_solver.
Qed.

Lemma validate_readiness_ok s (ports : gset string) :
  validate_readiness s ports = Ok tt <->
  forall p, ss_readiness s = Some p -> check_wf (elements ports) (rp_check p) /\ probe_wf p.
Proof.
  unfold validate_readiness. destruct (ss_readiness s) as [p|]; [|naive_solver].
  transitivity (check_wf (elements ports) (rp_check p) /\ probe_wf p).
  2: { split; [intros H q [= <-]; exact H | intros H; exact (H p eq_refl)]. }
  rewrite <- (probe_validate_ok p (ss_name s)). unfold check_wf.
  destruct (rp_check p) as [q path|q|[|c cmd]]; try rewrite elem_of_elements; try case_decide;
    simpl; (split; [intros ?; try done; split; done | intros [? ?]; done]).
Qed.

Lemma no_bind_spec l :
  existsb is_bind l = false <-> Forall (fun m => forall path, vm_source m <> Bind path) l.
Proof.
  induction l as [|m l IH]; simpl; [naive_solver|].
  rewrite orb_false_iff, Forall_cons, IH. unfold is_bind. destruct (vm_source m); naive_solver.
Qed.

Lemma validate_rollout_ok s :
  validate_rollout s = Ok tt <->
  (ss_rollout s = BlueGreen ->
    is_Some (ss_readiness s) /\ ss_publish s = [] /\ ss_network s <> NmHost /\
    Forall (fun m => forall path, vm_source m <> Bind path) (cs_volumes (ss_template s))).
Proof.
  unfold validate_rollout. rewrite <- no_bind_spec. destruct (ss_rollout s); [naive_solver|].
  case_decide as Hr; [rewrite Hr; split; [done|]; intros H; destruct (H eq_refl) as [[? ?] _]; done|].
  apply not_eq_None_Some in Hr. destruct (ss_publish s); simpl; [|naive_solver].
  destruct (ss_network s); simpl; destruct (existsb is_bind _); naive_solver.
Qed.

Lemma service_validate_iff s : service_validate s = Ok tt <-> service_wf s.
Proof.
  unfold service_validate.
  destruct (is_empty (trim (ss_name s))) eqn:Hn.
  { apply is_empty_blank in Hn. split; [done|]. intros []. done. }
  apply is_empty_not_blank in Hn.
  assert (forall ports : gset string, ports = list_to_set (port_name <$> ss_service_ports s) ∪ ∅ ->
    forall x, x ∈ ports <-> x ∈ port_names s) as Hports by (intros ? ->; set_solver).
  assert (forall ports : gset string, (forall x, x ∈ ports <-> x ∈ port_names s) ->
    (try_fold (validate_publish s ports) tt (ss_publish s) = Ok tt <->
      Forall (fun p => pub_service_port p ∈ port_names s) (ss_publish s)) /\
    (try_fold (validate_route s ports) tt (ss_routes s) = Ok tt <->
      Forall (fun r => (route_port r).2 ∈ port_names s) (ss_routes s))) as Hchk.
  { intros ports Hp. split; apply try_fold_check; intros x.
    - unfold validate_publish. rewrite <- Hp. case_decide; naive_solver.
    - unfold validate_route. rewrite <- Hp. destruct (route_port x). simpl. case_decide; naive_solver. }
  split.
  - intros H. apply rbind_Ok in H as ([] & Hpl & H). apply rbind_Ok in H as (ports & Hps & H).
    apply validate_ports_ok in Hps as (Hpn & Hnd & _ & Heq).
    apply rbind_Ok in H as ([] & Hpub & H). apply rbind_Ok in H as ([] & Hrt & H).
    apply rbind_Ok in H as ([] & Hrd & Hro). pose proof (proj1 (validate_readiness_ok s ports) Hrd) as Hrd'.
    pose proof (Hports ports Heq) as Hp. destruct (Hchk ports Hp) as [Hc1 Hc2].
    split; [done|by apply validate_placement_ok|done|done|by apply Hc1|by apply Hc2| |by apply validate_rollout_ok].
    intros p Hs. destruct (Hrd' p Hs) as [Hc ?]. split; [|done].
    revert Hc. unfold check_wf. destruct (rp_check p); try done; by rewrite elem_of_elements, Hp.
  - intros [_ Hpl Hpn Hnd Hpub Hrt Hrd Hro].
    pose proof (Hports _ eq_refl) as Hp. destruct (Hchk _ Hp) as [Hc1 Hc2].
    rewrite (proj2 (validate_placement_ok s) Hpl). simpl.
    rewrite (proj2 (validate_ports_ok s (ss_service_ports s) ∅ _))
      by (split_and!; try done; apply Forall_forall; set_solver).
    cbn [rbind]. rewrite (proj2 Hc1 Hpub). cbn [rbind]. rewrite (proj2 Hc2 Hrt). cbn [rbind].
    rewrite (proj2 (validate_readiness_ok s _)); [by apply validate_rollout_ok|].
    intros p Hs. destruct (Hrd p Hs) as [Hc ?]. split; [|done].
    revert Hc. unfold check_wf. destruct (rp_check p); try done; by rewrite elem_of_elements, Hp.
Qed.

Lemma validate_services_ok l seen seen' :
  try_fold validate_service seen l = Ok seen' <->
  Forall service_wf l /\ NoDup (ss_name <$> l) /\
  Forall (fun n => n ∉ seen) (ss_name <$> l) /\ seen' = list_to_set (ss_name <$> l) ∪ seen.
Proof.
  apply try_fold_distinct. clear. intros seen s seen'. unfold validate_service.
  rewrite <- service_validate_iff. case_decide; [naive_solver|].
  destruct (service_validate s) as [[]|e]; naive_solver.
Qed.

(** A manifest passes validation exactly when it is well formed: non-blank
    namespace, at least one service, distinct service names, and every service
    well formed (ports distinct and non-blank, all port references resolved,
    usable probe timing, blue-green only where two instances can coexist). *)
Theorem manifest_validate_ok_iff (m : DeployManifest) :
  manifest_validate m = Ok tt <-> manifest_wf m.
Proof.
  unfold manifest_validate. destruct (is_empty (trim (mf_namespace m))) eqn:Hn.
  { apply is_empty_blank in Hn. split; [done|]. by intros []. }
  apply is_empty_not_blank in Hn.
  destruct (mf_services m) as [|s l] eqn:Hl.
  { split; [done|]. intros []. congruence. }
  rewrite rbind_Ok. split.
  - intros (seen & H & _). apply validate_services_ok in H as (H1 & H2 & _). split; rewrite ?Hl; done.
  - intros [_ _ H1 H2]. rewrite Hl in *. eexists. split; [|done].
    apply validate_services_ok. split_and!; try done. apply Forall_forall. set_solver.
Qed.

(** ** Durations *)

(** A unit suffix is the only one of [units] a number with that suffix ends in. *)
Lemma parse_duration_units_dec value n u mult units1 units2 :
  Forall (fun '(v, _) => forall c r, is_ascii_digit c = true ->
     strip_prefix (rev_str v) (rev_str u +:+ String c r) = None) units1 ->
  parse_duration_units value (dec n +:+ u) (units1 ++ (u, mult) :: units2) =
  parse_duration_amount value (dec n) mult.
Proof.
  induction 1 as [|[v m] l Hv Hl IH]; cbn [parse_duration_units app].
  - by rewrite (proj2 (strip_suffix_Some u (dec n +:+ u) (dec n)) eq_refl).
  - destruct (rev_dec_head n) as (c & r & Hr & Hc). unfold strip_suffix.
    by rewrite rev_str_app, Hr, (Hv c r Hc).
Qed.

Lemma parse_duration_dec n u mult :
  (u, mult) ∈ duration_units ->
  parse_duration (dec n +:+ u) = parse_duration_amount (dec n +:+ u) (dec n) mult.
Proof.
  intros Hu.
  assert (exists d r, rev_str u = String d r /\ plain d = true) as (d & r & Hr & Hd).
  { repeat (apply elem_of_cons in Hu as [[= -> ->]|Hu]; [eexists _, _; split; reflexivity|]).
    by apply not_elem_of_nil in Hu. }
  unfold parse_duration. rewrite (trim_dec_suffix n u d r Hr Hd).
  destruct (dec_head_digit n) as (c & s & Hs & _). rewrite Hs at 1. cbn [is_empty].
  change (is_empty (String c s +:+ u)) with false. cbn iota.
  repeat (apply elem_of_cons in Hu as [[= -> ->]|Hu]).
  1: apply (parse_duration_units_dec _ n "ms" 1 []).
  2: apply (parse_duration_units_dec _ n "s" 1000 [("ms", 1%N)]).
  3: apply (parse_duration_units_dec _ n "m" 60000 [("ms", 1%N); ("s", 1000%N)]).
  4: apply (parse_duration_units_dec _ n "h" 3600000 [("ms", 1%N); ("s", 1000%N); ("m", 60000%N)]).
  5: by apply not_elem_of_nil in Hu.
  all: repeat constructor; intros e q He;
    destruct e as [[] [] [] [] [] [] [] []]; (discriminate He || reflexivity).
Qed.

(** Reading back a printed duration: a decimal amount followed by one of the
    units [ms], [s], [m], [h] denotes that many milliseconds when the product
    fits in a [u64], and is reported as too large when it does not. *)
Theorem parse_duration_print (n mult : N) (u : string) :
  (u, mult) ∈ duration_units -> (n <= u64_max)%N ->
  parse_duration (dec n +:+ u) =
    if (n * mult <=? u64_max)%N then Ok (from_millis (n * mult))
    else Err ("is too large to represent as a duration: '" +:+ (dec n +:+ u) +:+ "'").
Proof.
  intros Hu Hn. rewrite (parse_duration_dec n u mult Hu). unfold parse_duration_amount.
  by rewrite trim_dec, parse_u64_dec.
Qed.

Lemma parse_duration_print_witness :
  parse_duration (dec 90 +:+ "s") = Ok (from_millis 90000).
Proof.
  rewrite (parse_duration_print 90 1000 "s"); [reflexivity| |vm_compute; discriminate].
  unfold duration_units. right. left.
Defined.

(** ** The content hash *)

Definition fnv_prime_inv : N := 14886173955864302971.

Lemma fnv_step_inj h1 b1 h2 b2 :
  (h1 < u64_modulus)%N -> (h2 < u64_modulus)%N -> (b1 < 256)%N -> (b2 < 256)%N ->
  fnv_step h1 b1 = fnv_step h2 b2 -> N.lxor h1 b1 = N.lxor h2 b2.
Proof.
  intros Hh1 Hh2 Hb1 Hb2 H. unfold fnv_step in H.
  assert (forall h b, (h < u64_modulus)%N -> (b < 256)%N -> (N.lxor h b < u64_modulus)%N) as Hlt.
  { intros h b Hh Hb. change u64_modulus with (2 ^ 64)%N in *.
    destruct (N.eq_dec (N.lxor h b) 0) as [->|Hne]; [done|].
    apply N.log2_lt_pow2; [lia|].
    eapply N.le_lt_trans; [apply N.log2_lxor|]. apply N.max_lub_lt.
    - destruct (N.eq_dec h 0) as [->|]; [done|]. apply N.log2_lt_pow2; lia.
    - destruct (N.eq_dec b 0) as [->|]; [done|]. apply N.log2_lt_pow2; [lia|].
      eapply N.lt_le_trans; [exact Hb|]. done. }
  assert (forall x, (x < u64_modulus)%N ->
    (((x * fnv_prime) mod u64_modulus) * fnv_prime_inv) mod u64_modulus = x)%N as Hinv.
  { intros x Hx. rewrite N.Div0.mul_mod_idemp_l.
    replace (x * fnv_prime * fnv_prime_inv)%N with (x * (fnv_prime * fnv_prime_inv))%N by lia.
    rewrite <- N.Div0.mul_mod_idemp_r.
    replace ((fnv_prime * fnv_prime_inv) mod u64_modulus)%N with 1%N by reflexivity.
    rewrite N.mul_1_r. by apply N.mod_small. }
  rewrite <- (Hinv (N.lxor h1 b1)), H, Hinv; auto.
Qed.

Lemma fnv_step_bound h b : (fnv_step h b < u64_modulus)%N.
Proof. unfold fnv_step. by apply N.mod_lt. Qed.

Lemma stable_hash_fold_bound l h : (h < u64_modulus)%N -> (foldl fnv_step h l < u64_modulus)%N.
Proof. revert h; induction l as [|b l IH]; intros h Hh; simpl; [done|]. apply IH, fnv_step_bound. Qed.

(** Different states stay different under the same suffix of bytes. *)
Lemma stable_hash_suffix_inj l h1 h2 :
  Forall (fun b => b < 256)%N l -> (h1 < u64_modulus)%N -> (h2 < u64_modulus)%N ->
  foldl fnv_step h1 l = foldl fnv_step h2 l -> h1 = h2.
Proof.
  intros Hl. revert h1 h2. induction Hl as [|b l Hb Hl IH]; intros h1 h2 Hh1 Hh2; simpl; [done|].
  intros H. apply IH in H; [|apply fnv_step_bound..].
  apply fnv_step_inj in H; [|done..].
  rewrite <- (N.lxor_0_r h1), <- (N.lxor_0_r h2), <- (N.lxor_nilpotent b), <- !N.lxor_assoc. by f_equal.
Qed.

Lemma code_bound c : (code c < 256)%N.
Proof. destruct c as [[] [] [] [] [] [] [] []]; vm_compute; reflexivity. Qed.

Lemma str_bytes_bound s : Forall (fun b => b < 256)%N (str_bytes s).
Proof. unfold str_bytes. rewrite Forall_fmap. apply Forall_true. intros c. apply code_bound. Qed.

(** The content hash separates texts that differ in one byte: replacing a
    single byte anywhere in the hashed text always changes the 64-bit FNV-1a
    value and its 16-digit hexadecimal form. *)
Theorem stable_hash_one_byte (a b : string) (x y : ascii) :
  x <> y ->
  stable_hash_hex (str_bytes (a +:+ String x b)) <> stable_hash_hex (str_bytes (a +:+ String y b)).
Proof.
  intros Hne H. apply hex_pad_inj in H. revert H. unfold stable_hash, str_bytes.
  rewrite !bytes_of_app, !fmap_app, !foldl_app. simpl. intros H.
  assert (foldl fnv_step fnv_offset (code <$> bytes_of a) < u64_modulus)%N as Hp
    by by apply stable_hash_fold_bound.
  apply stable_hash_suffix_inj in H; [|apply str_bytes_bound|apply fnv_step_bound..].
  apply fnv_step_inj in H; [|done|done|apply code_bound..]. apply Hne.
  apply (f_equal (N.lxor (foldl fnv_step fnv_offset (code <$> bytes_of a)))) in H.
  rewrite <- !N.lxor_assoc, N.lxor_nilpotent, !N.lxor_0_l in H.
  rewrite <- (ascii_N_embedding x), <- (ascii_N_embedding y). by f_equal.
Qed.

Lemma stable_hash_one_byte_witness :
  stable_hash_hex (str_bytes "image:v1") <> stable_hash_hex (str_bytes "image:v2").
Proof. apply (stable_hash_one_byte "image:v" "" "1"%char "2"%char). discriminate. Defined.

(** ** Revisions *)

(** [serde_json] on service specifications. *)
Class SpecCodec := {
  spec_to_json : ServiceSpec -> result string string;     (* [serde_json::to_string] *)
  spec_from_json : string -> result string ServiceSpec    (* [serde_json::from_str] *)
}.

Section revision.
Context `{SpecCodec}.

Definition canonical_revision_json (self : ServiceSpec) : result string string :=
  map_err (fun e => "serialize revision: " +:+ e) (spec_to_json self).

Definition revision_hash (self : ServiceSpec) : result string string :=
  json <-? canonical_revision_json self ;; Ok (stable_hash_hex (str_bytes json)).
End revision.
