(* ===== verification/Base64.v ===== *)
(** * Base64

    Invite tokens and join responses carry bytes as URL-safe base64 without
    padding.  The [base64] crate is the interface [Base64] with its documented
    behaviour [Base64Laws]; [ref_base64] implements RFC 4648, section 5, which
    shows that the laws can hold. *)

From S2P Require Import Prelude Order Text Spec.
Local Open Scope string_scope.

(** The bytes of a text and the text of bytes ([as_bytes], [from_slice]). *)
Definition bytes_str (l : list N) : string := of_bytes (ascii_of_N <$> l).
Definition is_bytes (l : list N) : Prop := Forall (fun b => b < 256)%N l.

Lemma bytes_str_bytes s : bytes_str (str_bytes s) = s.
Proof.
  unfold bytes_str, str_bytes. rewrite <- list_fmap_compose, (list_fmap_ext _ id), list_fmap_id, of_bytes_of; [done|].
  intros i c _. apply ascii_N_embedding.
Qed.

(** [URL_SAFE_NO_PAD]. *)
Class Base64 := {
  b64_encode : list N -> string;
  b64_decode : string -> result string (list N)
}.

Class Base64Laws (B : Base64) : Prop := {
  b64_decode_encode : forall l, is_bytes l -> b64_decode (b64_encode l) = Ok l;
  b64_no_dot : forall l, contains_char "." (b64_encode l) = false
}.

(** ** The encoding of RFC 4648 *)

Definition b64_char (v : N) : ascii :=
  ascii_of_N (if v <? 26 then v + 65 else if v <? 52 then v + 71 else if v <? 62 then v - 4
              else if v =? 62 then 45 else 95)%N.
Definition b64_value (c : ascii) : option N :=
  let n := code c in
  if ((65 <=? n) && (n <=? 90))%N then Some (n - 65)%N
  else if ((97 <=? n) && (n <=? 122))%N then Some (n - 71)%N
  else if ((48 <=? n) && (n <=? 57))%N then Some (n + 4)%N
  else if (n =? 45)%N then Some 62%N else if (n =? 95)%N then Some 63%N else None.

Fixpoint sextets (l : list N) : list N :=
  match l with
  | [] => []
  | [a] => [a / 4; (a mod 4) * 16]%N
  | [a; b] => [a / 4; (a mod 4) * 16 + b / 16; (b mod 16) * 4]%N
  | a :: b :: c :: l => ([a / 4; (a mod 4) * 16 + b / 16; (b mod 16) * 4 + c / 64; c mod 64]%N ++ sextets l)%list
  end.

(** The bits that fill up the last character must be zero. *)
Fixpoint octets (l : list N) : option (list N) :=
  match l with
  | [] => Some []
  | [_] => None
  | [s; t] => if (t mod 16 =? 0)%N then Some [s * 4 + t / 16]%N else None
  | [s; t; u] => if (u mod 4 =? 0)%N then Some [s * 4 + t / 16; (t mod 16) * 16 + u / 4]%N else None
  | s :: t :: u :: v :: l =>
      rest ← octets l; Some ([s * 4 + t / 16; (t mod 16) * 16 + u / 4; (u mod 4) * 64 + v]%N ++ rest)%list
  end.

Definition ref_base64 : Base64 := {|
  b64_encode l := of_bytes (b64_char <$> sextets l);
  b64_decode s := ok_or (mapM b64_value (bytes_of s) ≫= octets) "invalid base64" |}.

Lemma b64_value_char v : (v < 64)%N -> b64_value (b64_char v) = Some v.
Proof.
  intros Hv. assert (Forall (fun v => b64_value (b64_char v) = Some v) (N.of_nat <$> seq 0 64)) as H
    by (vm_compute; repeat constructor).
  rewrite Forall_forall in H. apply H, list_elem_of_fmap. exists (N.to_nat v). split; [lia|]. apply elem_of_seq. lia.
Qed.

Lemma triple_ind {A} (P : list A -> Prop) :
  P [] -> (forall a, P [a]) -> (forall a b, P [a; b]) -> (forall a b c l, P l -> P (a :: b :: c :: l)) ->
  forall l, P l.
Proof.
  intros H0 H1 H2 H3. fix IH 1. intros [|a [|b [|c l]]]; [apply H0|apply H1|apply H2|].
  apply H3. apply IH.
Qed.

Lemma sextet_bounds a b c : (a < 256 -> b < 256 -> c < 256 ->
  a / 4 < 64 /\ (a mod 4) * 16 + b / 16 < 64 /\ (b mod 16) * 4 + c / 64 < 64 /\ c mod 64 < 64)%N.
Proof.
  intros Ha Hb Hc. pose proof (N.mod_lt a 4). pose proof (N.mod_lt b 16). pose proof (N.mod_lt c 64).
  pose proof (N.Div0.div_lt_upper_bound a 4 64). pose proof (N.Div0.div_lt_upper_bound b 16 16).
  pose proof (N.Div0.div_lt_upper_bound c 64 4). lia.
Qed.

Lemma sextets_bound l : is_bytes l -> Forall (fun v => v < 64)%N (sextets l).
Proof.
  unfold is_bytes. induction l as [|a|a b|a b c l IH] using triple_ind; intros Hl; decompose_Forall_hyps; simpl.
  - constructor.
  - pose proof (sextet_bounds a 0 0). rewrite N.Div0.div_0_l in *. repeat constructor; lia.
  - pose proof (sextet_bounds a b 0). rewrite N.Div0.div_0_l in *. repeat constructor; lia.
  - pose proof (sextet_bounds a b c). repeat constructor; try lia. by apply IH.
Qed.

Lemma halves x y k : (y < k -> (x * k + y) / k = x /\ (x * k + y) mod k = y)%N.
Proof.
  intros Hy. split; [rewrite N.div_add_l, N.div_small by lia; lia|].
  rewrite N.add_comm, N.Div0.mod_add. by apply N.mod_small.
Qed.

Lemma octets_sextets l : is_bytes l -> octets (sextets l) = Some l.
Proof.
  unfold is_bytes. induction l as [|a|a b|a b c l IH] using triple_ind; intros Hl; decompose_Forall_hyps; [done| | |];
    simpl; rewrite ?N.Div0.mod_mul, ?N.div_mul by done; simpl; try rewrite IH by done; simpl.
  - pose proof (N.div_mod a 4). do 2 f_equal. lia.
  - destruct (halves (a mod 4) (b / 16) 16) as [-> ->]; [apply N.Div0.div_lt_upper_bound; lia|].
    pose proof (N.div_mod a 4). pose proof (N.div_mod b 16). do 2 f_equal; [lia|f_equal; lia].
  - destruct (halves (a mod 4) (b / 16) 16) as [-> ->]; [apply N.Div0.div_lt_upper_bound; lia|].
    destruct (halves (b mod 16) (c / 64) 4) as [-> ->]; [apply N.Div0.div_lt_upper_bound; lia|].
    pose proof (N.div_mod a 4). pose proof (N.div_mod b 16). pose proof (N.div_mod c 64). repeat f_equal; lia.
Qed.

Lemma b64_values_chars l : Forall (fun v => v < 64)%N l -> mapM b64_value (b64_char <$> l) = Some l.
Proof.
  intros Hl. apply mapM_fmap_Forall_Some. eapply Forall_impl; [exact Hl|]. apply b64_value_char.
Qed.

Lemma b64_char_no_dot v : b64_char v <> "."%char.
Proof.
  unfold b64_char. intros H. apply (f_equal N_of_ascii) in H. revert H.
  rewrite N_ascii_embedding; [|repeat case_match; to_prop; lia]. simpl.
  repeat case_match; to_prop; lia.
Qed.

#[export] Instance ref_base64_laws : Base64Laws ref_base64.
Proof.
  split; simpl.
  - intros l Hl. rewrite bytes_of_bytes, b64_values_chars by (by apply sextets_bound). simpl.
    by rewrite octets_sextets.
  - intros l. rewrite contains_char_all. apply negb_false_iff. induction (sextets l) as [|v s IH]; [done|].
    change (of_bytes (b64_char <$> v :: s)) with (String (b64_char v) (of_bytes (b64_char <$> s))). cbn [all_chars].
    rewrite IH. destruct (ascii_dec "." (b64_char v)) as [E|]; [|done]. by apply eq_sym, b64_char_no_dot in E.
Qed.
