(* ===== verification/Files.v ===== *)
(** * Files

    What the sources use of [std::fs] and [std::path].  A file system has files
    with their contents, directories, and the faults still to come: each operation
    that can fail takes the next one, so that a theorem about all file systems
    covers a failure at any point.  A failed write may leave a truncated file and
    a failed removal of a directory may have removed some of its files.  Paths
    are compared as texts: two spellings of a path ([..], symbolic links) are
    different paths. *)

From S2P Require Import Prelude Order Text.
Local Open Scope string_scope.

Abbreviation PathBuf := string (only parsing).

(** [Path::join]: an absolute path replaces the whole. *)
Definition path_join (a b : PathBuf) : PathBuf := if starts_with b "/" then b else a +:+ "/" +:+ b.
(** [Path::parent]. *)
Definition path_parent (p : PathBuf) : option PathBuf := fst <$> rsplit_once "/" p.
(** [Path::file_name] and [Path::extension]: what follows the last dot, except a leading one. *)
Definition path_file_name (p : PathBuf) : string := match rsplit_once "/" p with Some (_, n) => n | None => p end.
Definition path_extension (p : PathBuf) : option string :=
  '(stem, ext) ← rsplit_once "." (path_file_name p); if is_empty stem then None else Some ext.

Record Fault := { fault_error : string; fault_content : option string; fault_kept : list string }.
Record Fs := { fs_files : gmap string string; fs_dirs : gset string; fs_faults : list (option Fault) }.

Definition fs_eff (E A : Type) : Type := Fs -> result E A * Fs.
Abbreviation io A := (fs_eff string A) (only parsing).
Definition io_ret {E A} (a : A) : fs_eff E A := fun fs => (Ok a, fs).
Definition io_fail {E A} (e : E) : fs_eff E A := fun fs => (Err e, fs).
Definition io_bind {E A B} (c : fs_eff E A) (k : A -> fs_eff E B) : fs_eff E B :=
  fun fs => match c fs with (Ok a, fs) => k a fs | (Err e, fs) => (Err e, fs) end.
(** [.map_err(f)]. *)
Definition io_map_err {E F A} (f : E -> F) (c : fs_eff E A) : fs_eff F A := fun fs => (map_err f (c fs).1, (c fs).2).
Definition io_lift {E A} (r : result E A) : fs_eff E A := fun fs => (r, fs).
Notation "x <-/ e ;; k" := (io_bind e (fun x => k))
  (at level 100, e at next level, right associativity) : ployz_scope.

Section fs.
Definition with_files (f : gmap string string -> gmap string string) (fs : Fs) : Fs :=
  {| fs_files := f (fs_files fs); fs_dirs := fs_dirs fs; fs_faults := fs_faults fs |}.
Definition with_dirs (f : gset string -> gset string) (fs : Fs) : Fs :=
  {| fs_files := fs_files fs; fs_dirs := f (fs_dirs fs); fs_faults := fs_faults fs |}.

(** An operation that may fail: [fault] describes what is left when it does. *)
Definition operation {A} (normal : io A) (fault : Fault -> Fs -> Fs) : io A := fun fs =>
  let later := {| fs_files := fs_files fs; fs_dirs := fs_dirs fs; fs_faults := tail (fs_faults fs) |} in
  match mjoin (head (fs_faults fs)) with
  | Some f => (Err (fault_error f), fault f later)
  | None => normal later
  end.

Definition exists_path (p : PathBuf) (fs : Fs) : bool :=
  bool_decide (is_Some (fs_files fs !! p)) || bool_decide (p ∈ fs_dirs fs).

Definition enoent : string := "No such file or directory (os error 2)".
Definition eisdir : string := "Is a directory (os error 21)".
Definition enotdir : string := "Not a directory (os error 20)".
(** [std::fs::read_to_string], [std::fs::read]. *)
Definition read_file (p : PathBuf) : io string :=
  operation (fun fs => match fs_files fs !! p with
                       | Some c => (Ok c, fs)
                       | None => (Err (if decide (p ∈ fs_dirs fs) then eisdir else enoent), fs)
                       end) (fun _ fs => fs).

(** [std::fs::write]. *)
Definition write_file (p : PathBuf) (content : string) : io unit :=
  operation (fun fs =>
      if decide (p ∈ fs_dirs fs) then (Err eisdir, fs)
      else match path_parent p with
           | Some d => if decide (d ∈ fs_dirs fs) then (Ok tt, with_files (insert p content) fs) else (Err enoent, fs)
           | None => (Ok tt, with_files (insert p content) fs)
           end)
    (fun f fs => match fault_content f with
                 | Some c => if decide (p ∈ fs_dirs fs) then fs else with_files (insert p c) fs
                 | None => fs
                 end).

(** [std::fs::create_dir_all]: the path and all its ancestors. *)
Fixpoint ancestors (seen rest : string) : list string :=
  match rest with
  | "" => [seen]
  | String c rest =>
      if ascii_dec c "/" then ((if is_empty seen then [] else [seen]) ++ ancestors (seen +:+ "/") rest)%list
      else ancestors (seen +:+ String c "") rest
  end.
Definition create_dir_all (p : PathBuf) : io unit :=
  operation (fun fs =>
      if decide (Exists (fun d => is_Some (fs_files fs !! d)) (ancestors "" p)) then (Err enotdir, fs)
      else (Ok tt, with_dirs (union (list_to_set (ancestors "" p))) fs))
    (fun _ fs => fs).

(** [std::fs::remove_dir_all]. *)
Definition is_under (d p : PathBuf) : bool := bool_decide (p = d) || starts_with p (d +:+ "/").
Definition remove_dir_all (d : PathBuf) : io unit :=
  operation (fun fs => if decide (d ∈ fs_dirs fs)
                       then (Ok tt, with_dirs (filter (fun p => is_under d p = false))
                                      (with_files (filter (fun e => is_under d e.1 = false)) fs))
                       else (Err enoent, fs))
    (fun f => with_files (filter (fun e => is_under d e.1 = false \/ e.1 ∈ fault_kept f))).

(** [std::fs::remove_file]. *)
Definition remove_file (p : PathBuf) : io unit :=
  operation (fun fs => match fs_files fs !! p with
                       | Some _ => (Ok tt, with_files (delete p) fs)
                       | None => (Err enoent, fs)
                       end) (fun _ fs => fs).

(** [std::fs::read_dir]: the paths of the entries of a directory, in no
    particular order; [None] when there is no such directory. *)
Definition is_child (d p : PathBuf) : bool := bool_decide (path_parent p = Some d).
Definition read_dir (d : PathBuf) : io (option (list PathBuf)) :=
  operation (fun fs =>
      (Ok (if decide (d ∈ fs_dirs fs)
           then Some (filter (fun p => is_child d p = true) (map_to_list (fs_files fs)).*1
                      ++ filter (fun p => is_child d p = true) (elements (fs_dirs fs)))%list
           else None), fs)) (fun _ fs => fs).
End fs.

(** ** What operations leave alone *)

(** Between the two states only files under [p] changed. *)
Definition only_under (p : PathBuf) (fs fs' : Fs) : Prop :=
  forall q, is_under p q = false -> fs_files fs' !! q = fs_files fs !! q.
(** Only the file [p] changed. *)
Definition only_file (p : PathBuf) (fs fs' : Fs) : Prop :=
  forall q, q <> p -> fs_files fs' !! q = fs_files fs !! q.

Lemma read_file_files p fs : fs_files (read_file p fs).2 = fs_files fs.
Proof. unfold read_file, operation. repeat case_match; done. Qed.
Lemma read_file_ok p fs c : (read_file p fs).1 = Ok c -> fs_files fs !! p = Some c.
Proof. unfold read_file, operation. repeat case_match; simpl; naive_solver. Qed.
Lemma read_dir_files p fs : fs_files (read_dir p fs).2 = fs_files fs.
Proof. unfold read_dir, operation. repeat case_match; done. Qed.
Lemma create_dir_all_files p fs : fs_files (create_dir_all p fs).2 = fs_files fs.
Proof. unfold create_dir_all, operation. repeat case_match; done. Qed.
Lemma write_file_only p c fs : only_file p fs (write_file p c fs).2.
Proof.
  intros q Hq. unfold write_file, operation. repeat case_match; simpl; rewrite ?lookup_insert_ne by done; done.
Qed.
Lemma write_file_ok p c fs : (write_file p c fs).1 = Ok tt -> fs_files (write_file p c fs).2 !! p = Some c.
Proof.
  unfold write_file, operation. repeat case_match; simpl; intros [=]; by rewrite lookup_insert_eq.
Qed.
Lemma remove_file_only p fs : only_file p fs (remove_file p fs).2.
Proof.
  intros q Hq. unfold remove_file, operation. repeat case_match; simpl; rewrite ?lookup_delete_ne by done; done.
Qed.
Lemma remove_dir_all_only d fs : only_under d fs (remove_dir_all d fs).2.
Proof.
  intros q Hq. unfold remove_dir_all, operation. repeat case_match; simpl; try done.
  all: destruct (fs_files fs !! q) as [c|] eqn:E; [apply map_lookup_filter_Some|apply map_lookup_filter_None];
    simpl; auto.
Qed.
Lemma remove_dir_all_ok d fs p : (remove_dir_all d fs).1 = Ok tt -> is_under d p = true ->
  exists_path p (remove_dir_all d fs).2 = false.
Proof.
  unfold remove_dir_all, operation. repeat case_match; simpl; intros [=] Hp. unfold exists_path. simpl.
  rewrite !bool_decide_eq_false_2; [done| |].
  - rewrite elem_of_filter. intros [? _]. congruence.
  - intros [c Hc]. apply map_lookup_filter_Some in Hc as [_ Hc]. simpl in Hc. congruence.
Qed.
