(* ===== verification/Invite.v ===== *)
(** * Invites, network configuration and bootstrap peers

    [mesh_state/invite.rs], [mesh_state/network.rs], [mesh_state/bootstrap.rs]
    of [ployzd], [Identity] of [ployz-runtime-api] and the join response of
    [ployz-types]: the signed tokens that invite a machine into a network, the
    configuration and the list of first peers a joining machine keeps on disk,
    and the machine records a mesh is started with.  Ed25519, X25519 and JSON are
    interfaces; random bytes are arguments. *)

From S2P Require Import Prelude Order Text Types Addr RefCodec Spec Base64 Files.
Local Open Scope string_scope.

Abbreviation PrivateKey := (list N) (only parsing).

(** [ed25519_dalek] and [x25519_dalek] on raw key bytes. *)
Class Keys := {
  verifying_key : PrivateKey -> list N;                    (* [SigningKey::verifying_key().to_bytes()] *)
  sign : PrivateKey -> list N -> list N;                   (* [Signer::sign(..).to_bytes()] *)
  verifying_key_from_bytes : list N -> result string (list N);
  verify : list N -> list N -> list N -> result string unit;
  x25519_public : PrivateKey -> list N                     (* [PublicKey::from(&StaticSecret)] *)
}.

Class KeysLaws (K : Keys) : Prop := {
  verifying_key_bytes : forall k, is_bytes (verifying_key k) /\ length (verifying_key k) = 32;
  sign_bytes : forall k m, is_bytes (sign k m) /\ length (sign k m) = 64;
  verifying_key_valid : forall k, verifying_key_from_bytes (verifying_key k) = Ok (verifying_key k);
  verify_sign : forall k m, verify (verifying_key k) m (sign k m) = Ok tt;
  x25519_bytes : forall k, is_bytes (x25519_public k) /\ length (x25519_public k) = 32
}.

(** ** Identity ([identity.rs]) *)

Record Identity := { idn_machine_id : MachineId; idn_private_key : PrivateKey; idn_public_key : PublicKey }.

Section identity.
Context `{Keys}.
Definition derive_public_key (private_key : PrivateKey) : PublicKey := x25519_public private_key.
Definition identity_generate (machine_id : MachineId) (key_bytes : list N) : Identity := {|
  idn_machine_id := machine_id; idn_private_key := key_bytes; idn_public_key := derive_public_key key_bytes |}.

Inductive IdentityError :=
| IeRead (path : PathBuf) (source : string)
| IeParse (source : string)
| IeCreateDirectory (path : PathBuf) (source : string)
| IeSerialize (source : string)
| IeWrite (path : PathBuf) (source : string).

Context `{RecordCodec Identity}.

Definition identity_load (path : PathBuf) : fs_eff IdentityError Identity :=
  data <-/ io_map_err (IeRead path) (read_file path) ;;
  io_lift (map_err IeParse (from_json data)).

Definition identity_save (self : Identity) (path : PathBuf) : fs_eff IdentityError unit :=
  _ <-/ match path_parent path with
        | Some parent => io_map_err (IeCreateDirectory parent) (create_dir_all parent)
        | None => io_ret tt
        end ;;
  data <-/ io_lift (map_err IeSerialize (to_json self)) ;;
  io_map_err (IeWrite path) (write_file path data).

(** [hostname] is the machine's name when it is known, [key_bytes] are random. *)
Definition load_or_generate (hostname : option string) (key_bytes : list N) (path : PathBuf)
    : fs_eff IdentityError Identity := fun fs =>
  if exists_path path fs then identity_load path fs
  else
    let identity := identity_generate (default "node" hostname) key_bytes in
    (_ <-/ identity_save identity path ;; io_ret identity) fs.
End identity.

(** ** Network configuration ([network.rs], [ployz-config]) *)

Record NetworkConfig := {
  nc_id : NetworkId; nc_name : NetworkName; nc_overlay_ip : OverlayIp; nc_cluster_cidr : string; nc_subnet : Ipv4Net
}.
Inductive NetworkConfigError :=
| NeRead (path : PathBuf) (source : string)
| NeParse (source : string)
| NeCreateDirectory (path : PathBuf) (source : string)
| NeSerialize (source : string)
| NeWrite (path : PathBuf) (source : string).

Definition network_error_to_string (e : NetworkConfigError) : string :=
  match e with
  | NeRead path _ => "reading network config from " +:+ path
  | NeParse _ => "parsing network config JSON"
  | NeCreateDirectory path _ => "creating directory " +:+ path
  | NeSerialize _ => "serializing network config"
  | NeWrite path _ => "writing network config to " +:+ path
  end.

Definition network_dir (data_dir : PathBuf) (name : string) : PathBuf := path_join (path_join data_dir "networks") name.
Definition network_config_path (data_dir : PathBuf) (name : string) : PathBuf :=
  path_join (network_dir data_dir name) "network.json".
Definition active_marker_path (data_dir : PathBuf) : PathBuf := path_join data_dir "active_network".

Definition read_active_network (data_dir : PathBuf) (fs : Fs) : option string * Fs :=
  let '(content, fs) := read_file (active_marker_path data_dir) fs in
  (name ← trim <$> ok content; if is_empty name then None else Some name, fs).

(** [id] is the random [NetworkId]. *)
Definition network_config_new (id : NetworkId) (name : NetworkName) (public_key : PublicKey) (cluster_cidr : string)
    (subnet : Ipv4Net) : NetworkConfig := {|
  nc_id := id; nc_name := name; nc_overlay_ip := management_ip_from_key public_key;
  nc_cluster_cidr := cluster_cidr; nc_subnet := subnet |}.

Section network.
Context `{RecordCodec NetworkConfig}.
Definition network_config_load (path : PathBuf) : fs_eff NetworkConfigError NetworkConfig :=
  data <-/ io_map_err (NeRead path) (read_file path) ;;
  io_lift (map_err NeParse (from_json data)).
Definition network_config_save (self : NetworkConfig) (path : PathBuf) : fs_eff NetworkConfigError unit :=
  _ <-/ match path_parent path with
        | Some parent => io_map_err (NeCreateDirectory parent) (create_dir_all parent)
        | None => io_ret tt
        end ;;
  data <-/ io_lift (map_err NeSerialize (to_json self)) ;;
  io_map_err (NeWrite path) (write_file path data).
End network.
Definition network_config_delete (data_dir : PathBuf) (name : string) : io unit := fun fs =>
  let dir := network_dir data_dir name in
  if exists_path dir fs then remove_dir_all dir fs else (Ok tt, fs).

(** ** Tokens ([invite.rs]) *)

Record InviteClaims := {
  ic_invite_id : string; ic_network_id : NetworkId; ic_network_name : string; ic_issued_by : string;
  ic_issuer_verify_key : string; ic_expires_at : N; ic_nonce : string; ic_issuer_endpoints : list string;
  ic_issuer_overlay_ip : option string; ic_issuer_wg_public_key : option string; ic_issuer_subnet : option string;
  ic_allocated_subnet : string
}.
Record InviteTokenContext := {
  tc_issuer_endpoints : list string; tc_issuer_overlay_ip : option string; tc_issuer_wg_public_key : option string;
  tc_issuer_subnet : option string; tc_allocated_subnet : string
}.

Definition hex_string (bytes : list N) : string := foldr (fun b s => hex_pad 2 b +:+ s) "" bytes.

Section token.
Context `{Keys} `{Base64} `{RecordCodec InviteClaims}.

(** [nonce_bytes] and [invite_id_bytes] are random. *)
Definition issue_invite_token (nonce_bytes invite_id_bytes : list N) (identity : Identity) (network : NetworkConfig)
    (ttl_secs now_unix_secs : N) (context : InviteTokenContext) : result string (string * InviteClaims) :=
  expires_at <-? (if (now_unix_secs + ttl_secs <=? u64_max)%N then Ok (now_unix_secs + ttl_secs)%N
                  else Err "ttl overflow") ;;
  let signing_key := idn_private_key identity in
  let claims := {|
    ic_invite_id := hex_string invite_id_bytes; ic_network_id := nc_id network; ic_network_name := nc_name network;
    ic_issued_by := idn_machine_id identity; ic_issuer_verify_key := b64_encode (verifying_key signing_key);
    ic_expires_at := expires_at; ic_nonce := hex_string nonce_bytes;
    ic_issuer_endpoints := tc_issuer_endpoints context; ic_issuer_overlay_ip := tc_issuer_overlay_ip context;
    ic_issuer_wg_public_key := tc_issuer_wg_public_key context; ic_issuer_subnet := tc_issuer_subnet context;
    ic_allocated_subnet := tc_allocated_subnet context |} in
  claims_json <-? map_err (fun error => "encode invite: " +:+ error) (to_json claims) ;;
  let signature := sign signing_key (str_bytes claims_json) in
  Ok (b64_encode (str_bytes claims_json) +:+ "." +:+ b64_encode signature, claims).

(** [<[u8; n]>::try_from]. *)
Definition array_of (n : nat) (bytes : list N) : option (list N) :=
  if decide (length bytes = n) then Some bytes else None.

Definition parse_and_verify_invite_token (encoded : string) : result string InviteClaims :=
  parts <-? ok_or (split_once "." encoded) "invalid invite token format" ;;
  let '(claims_b64, sig_b64) := parts in
  claims_json <-? map_err (fun error => "decode invite claims: " +:+ error) (b64_decode claims_b64) ;;
  claims <-? map_err (fun error => "parse invite claims: " +:+ error) (from_json (bytes_str claims_json)) ;;
  sig_bytes <-? map_err (fun error => "decode invite signature: " +:+ error) (b64_decode sig_b64) ;;
  signature <-? ok_or (array_of 64 sig_bytes) "invalid invite signature length" ;;
  key_bytes <-? map_err (fun error => "decode issuer verify key: " +:+ error)
                  (b64_decode (ic_issuer_verify_key claims)) ;;
  key_arr <-? ok_or (array_of 32 key_bytes) "invalid issuer verify key length" ;;
  verify_key <-? map_err (fun error => "parse issuer verify key: " +:+ error) (verifying_key_from_bytes key_arr) ;;
  _ <-? map_err (fun error => "verify invite signature: " +:+ error) (verify verify_key claims_json signature) ;;
  Ok claims.
End token.

(** ** Join responses ([JoinResponse] of [model.rs]) *)

Record JoinResponse := {
  jr_machine_id : MachineId; jr_public_key : PublicKey; jr_overlay_ip : OverlayIp; jr_subnet : option Ipv4Net;
  jr_endpoints : list string
}.
Definition JOIN_RESPONSE_PREFIX : string := "PLOYZ_JOIN_RESPONSE:".

Section join_response.
Context `{Base64} `{RecordCodec JoinResponse}.
Definition join_response_encode (self : JoinResponse) : result string string :=
  json <-? map_err (fun e => "serialize: " +:+ e) (to_json self) ;;
  Ok (JOIN_RESPONSE_PREFIX +:+ b64_encode (str_bytes json)).
Definition join_response_decode (s : string) : result string JoinResponse :=
  payload <-? ok_or (strip_prefix JOIN_RESPONSE_PREFIX s) ("missing prefix '" +:+ JOIN_RESPONSE_PREFIX +:+ "'") ;;
  bytes <-? map_err (fun e => "base64 decode: " +:+ e) (b64_decode payload) ;;
  map_err (fun e => "json decode: " +:+ e) (from_json (bytes_str bytes)).
End join_response.
Definition into_seed_machine_record (self : JoinResponse) : MachineRecord := {|
  mr_id := jr_machine_id self; mr_public_key := jr_public_key self; mr_overlay_ip := jr_overlay_ip self;
  mr_subnet := jr_subnet self; mr_bridge_ip := None; mr_endpoints := jr_endpoints self; mr_status := MsUnknown;
  mr_participation := Disabled; mr_last_heartbeat := 0; mr_created_at := 0; mr_updated_at := 0; mr_labels := ∅ |}.

(** ** Bootstrap peers ([bootstrap.rs]) *)

Record BootstrapInfo := {
  bi_peer_id : string; bi_peer_wg_public_key : PublicKey; bi_peer_overlay_ip : Ipv6Addr; bi_peer_endpoints : list string
}.
Record BootstrapPeerRecord := {
  bp_machine_id : MachineId; bp_public_key : PublicKey; bp_overlay_ip : OverlayIp; bp_endpoints : list string
}.
Definition into_machine_record (self : BootstrapPeerRecord) : MachineRecord :=
  machine_seed (bp_machine_id self) (bp_public_key self) (bp_overlay_ip self) None (bp_endpoints self).

Section from_invite.
Context `{Base64}.
Definition from_invite (invite : InviteClaims) : option BootstrapPeerRecord :=
  overlay_str ← ic_issuer_overlay_ip invite;
  public_key_b64 ← ic_issuer_wg_public_key invite;
  match ic_issuer_endpoints invite with
  | [] => None
  | _ =>
      key_bytes ← ok (b64_decode public_key_b64);
      public_key ← array_of 32 key_bytes;
      overlay_ip ← parse_ipv6 overlay_str;
      Some {| bp_machine_id := ic_issued_by invite; bp_public_key := public_key; bp_overlay_ip := overlay_ip;
              bp_endpoints := ic_issuer_endpoints invite |}
  end.

(** [DaemonState::extract_bootstrap] of [handlers/mesh.rs]. *)
Definition extract_bootstrap (invite : InviteClaims) : option BootstrapInfo :=
  wg_key_b64 ← ic_issuer_wg_public_key invite;
  overlay_str ← ic_issuer_overlay_ip invite;
  key_bytes ← ok (b64_decode wg_key_b64);
  peer_wg_public_key ← array_of 32 key_bytes;
  peer_overlay_ip ← parse_ipv6 overlay_str;
  match ic_issuer_endpoints invite with
  | [] => None
  | _ => Some {| bi_peer_id := ic_issued_by invite; bi_peer_wg_public_key := peer_wg_public_key;
                 bi_peer_overlay_ip := peer_overlay_ip; bi_peer_endpoints := ic_issuer_endpoints invite |}
  end.
End from_invite.

Definition BOOTSTRAP_PEERS_FILE : string := "bootstrap-peers.json".
Definition bootstrap_peers_path (network_dir : PathBuf) : PathBuf := path_join network_dir BOOTSTRAP_PEERS_FILE.

(** [if let Some(existing) = l.iter_mut().find(same) { *existing = x } else { l.push(x) }]. *)
Fixpoint replace_or_push {A} (same : A -> bool) (x : A) (l : list A) : list A :=
  match l with [] => [x] | y :: l => if same y then x :: l else y :: replace_or_push same x l end.

Definition cmp_peer_id (a b : BootstrapPeerRecord) : comparison := str_cmp (bp_machine_id a) (bp_machine_id b).
Definition upsert_peer (peer : BootstrapPeerRecord) (peers : list BootstrapPeerRecord) : list BootstrapPeerRecord :=
  sort_by cmp_peer_id (replace_or_push (fun e => bool_decide (bp_machine_id e = bp_machine_id peer)) peer peers).

Section peers.
Context `{RecordCodec (list BootstrapPeerRecord)}.
Definition load_bootstrap_peer_records (network_dir : PathBuf) : io (list BootstrapPeerRecord) := fun fs =>
  let path := bootstrap_peers_path network_dir in
  if exists_path path fs then
    (data <-/ io_map_err (fun error => "read bootstrap peers '" +:+ path +:+ "': " +:+ error) (read_file path) ;;
     io_lift (map_err (fun error => "parse bootstrap peers '" +:+ path +:+ "': " +:+ error) (from_json data))) fs
  else (Ok [], fs).
Definition write_bootstrap_peer_record (network_dir : PathBuf) (peer : BootstrapPeerRecord) : io unit :=
  let path := bootstrap_peers_path network_dir in
  _ <-/ io_map_err (fun error => "create bootstrap peer dir '" +:+ network_dir +:+ "': " +:+ error)
          (create_dir_all network_dir) ;;
  peers <-/ load_bootstrap_peer_records network_dir ;;
  body <-/ io_lift (map_err (fun error => "encode bootstrap peers '" +:+ path +:+ "': " +:+ error)
                      (to_json (upsert_peer peer peers))) ;;
  io_map_err (fun error => "write bootstrap peers '" +:+ path +:+ "': " +:+ error) (write_file path body).
End peers.

Definition resolve_bootstrap_addrs (bootstrap : option BootstrapInfo) (bootstrap_gossip_port : N)
    (fallback_bootstrap_addrs : list string) : list string :=
  match bootstrap with
  | Some b => ["[" +:+ ipv6_to_string (bi_peer_overlay_ip b) +:+ "]:" +:+ dec bootstrap_gossip_port]
  | None => fallback_bootstrap_addrs
  end.

Definition upsert_machine (records : list MachineRecord) (record : MachineRecord) : list MachineRecord :=
  replace_or_push (fun m => bool_decide (mr_id m = mr_id record)) record records.

(** The records once the peers on disk were read. *)
Definition merge_seed_records (peers : list BootstrapPeerRecord) (identity : Identity) (net_config : NetworkConfig)
    (bootstrap : option BootstrapInfo) (endpoints : list string) (extra_records : list MachineRecord)
    : list MachineRecord :=
  let seed_records := foldl upsert_machine (into_machine_record <$> peers) extra_records in
  let seed_records :=
    match bootstrap with
    | Some b =>
        let record := machine_seed (bi_peer_id b) (bi_peer_wg_public_key b) (bi_peer_overlay_ip b) None
                        (bi_peer_endpoints b) in
        if decide (mr_id record ∈ mr_id <$> seed_records) then seed_records else (seed_records ++ [record])%list
    | None => seed_records
    end in
  upsert_machine seed_records
    (machine_seed (idn_machine_id identity) (idn_public_key identity) (nc_overlay_ip net_config)
       (Some (nc_subnet net_config)) endpoints).
Definition build_seed_records `{RecordCodec (list BootstrapPeerRecord)} (network_dir : PathBuf) (identity : Identity)
    (net_config : NetworkConfig) (bootstrap : option BootstrapInfo) (endpoints : list string)
    (extra_records : list MachineRecord) (fs : Fs) : list MachineRecord * Fs :=
  let '(peers, fs) := load_bootstrap_peer_records network_dir fs in
  (merge_seed_records (ok_list peers) identity net_config bootstrap endpoints extra_records, fs).

(** ** Replacing an element by key *)

Section replace_or_push.
Context {A : Type} (f : A -> string) (x : A).
Abbreviation replaced l := (replace_or_push (fun y => bool_decide (f y = f x)) x l).

Lemma replaced_keys l k : k ∈ f <$> replaced l <-> k = f x \/ k ∈ f <$> l.
Proof.
  induction l as [|y l IH]; simpl; [set_solver|]. case_bool_decide as E; csimpl; rewrite !elem_of_cons; [|rewrite IH; tauto].
  rewrite E. tauto.
Qed.
Lemma replaced_NoDup l : NoDup (f <$> l) -> NoDup (f <$> replaced l).
Proof.
  induction l as [|y l IH]; simpl; [intros _; apply NoDup_singleton|]. intros [Hy Hl]%NoDup_cons.
  case_bool_decide as E; csimpl; constructor; [by rewrite <- E|done| |auto]. rewrite replaced_keys. intros [?|?]; auto.
Qed.
Lemma replaced_elem l y : NoDup (f <$> l) -> y ∈ replaced l <-> y = x \/ (y ∈ l /\ f y <> f x).
Proof.
  induction l as [|z l IH]; simpl; [set_solver|]. intros [Hz Hl]%NoDup_cons.
  case_bool_decide as E; rewrite !elem_of_cons; [|rewrite IH by done; naive_solver]. split; [|naive_solver].
  intros [->|Hy]; [by left|right]. split; [by right|]. intros E'. apply Hz. rewrite E, <- E'. by apply list_elem_of_fmap_2.
Qed.
Lemma replaced_index l : NoDup (f <$> l) -> index_by f (replaced l) = <[f x := x]> (index_by f l).
Proof.
  intros Hl. apply map_eq. intros k. apply option_eq. intros y.
  rewrite index_by_NoDup by (by apply replaced_NoDup). rewrite replaced_elem, lookup_insert_Some by done.
  rewrite index_by_NoDup by done. split.
  - intros [[->|[Hy Hne]] <-]; [by left|right; auto].
  - intros [[<- <-]|(Hne & Hy & <-)]; auto.
Qed.
End replace_or_push.

#[export] Instance cmp_peer_id_total : TotalCmp cmp_peer_id.
Proof. unfold cmp_peer_id. apply _. Qed.

(** ** Tokens *)

Section token_proofs.
Context `{K : Keys} `{!KeysLaws K} `{B : Base64} `{!Base64Laws B} `{RecordCodec InviteClaims} `{!JsonRoundTrip InviteClaims}.

Lemma array_of_length n (l : list N) : length l = n -> array_of n l = Some l.
Proof. intros Hl. unfold array_of. by rewrite decide_True. Qed.

Lemma parse_issued nonce id identity network ttl now context token claims :
  issue_invite_token nonce id identity network ttl now context = Ok (token, claims) ->
  parse_and_verify_invite_token token = Ok claims.
Proof.
  unfold issue_invite_token. intros (e & _ & (p & Hp%eq_sym & [= <- <-])%rbind_Ok)%rbind_Ok.
  set (c := Build_InviteClaims _ _ _ _ _ _ _ _ _ _ _ _) in *.
  destruct (json_round_trip c) as (p' & Hp' & Hr). rewrite Hp' in Hp. injection Hp as ->.
  unfold parse_and_verify_invite_token.
  change ("." +:+ b64_encode ?s) with (String "." (b64_encode s)). rewrite split_once_app by apply b64_no_dot. simpl.
  rewrite b64_decode_encode by apply str_bytes_bound. simpl. rewrite bytes_str_bytes, Hr. simpl.
  destruct (sign_bytes (idn_private_key identity) (str_bytes p')) as [Hs Hs64].
  rewrite b64_decode_encode by done. simpl. rewrite array_of_length by done. simpl.
  destruct (verifying_key_bytes (idn_private_key identity)) as [Hk Hk32].
  rewrite b64_decode_encode by done. simpl. rewrite array_of_length by done. simpl.
  rewrite verifying_key_valid. simpl. by rewrite verify_sign.
Qed.

(** The two readings of the founder's address agree. *)
Lemma extract_bootstrap_from_invite (invite : InviteClaims) :
  extract_bootstrap invite =
  (fun p => {| bi_peer_id := bp_machine_id p; bi_peer_wg_public_key := bp_public_key p;
               bi_peer_overlay_ip := bp_overlay_ip p; bi_peer_endpoints := bp_endpoints p |}) <$> from_invite invite.
Proof.
  unfold extract_bootstrap, from_invite.
  destruct (ic_issuer_wg_public_key invite) as [key|], (ic_issuer_overlay_ip invite) as [ip|],
    (ic_issuer_endpoints invite) as [|e es]; csimpl; try done; destruct (ok _) as [kb|]; csimpl; try done;
    destruct (array_of 32 kb); csimpl; try done; by destruct (parse_ipv6 ip).
Qed.
End token_proofs.

(** A token issued for a network is read back: what the joining machine
    verifies are exactly the claims the issuer made, with the network's identity,
    the allocated subnet and the expiry [now + ttl]; issuing fails only when the
    expiry does not fit in 64 bits. *)
Theorem invite_token_roundtrip `{K : Keys} `{!KeysLaws K} `{B : Base64} `{!Base64Laws B} `{RecordCodec InviteClaims}
    `{!JsonRoundTrip InviteClaims} nonce id identity network ttl now context :
  match issue_invite_token nonce id identity network ttl now context with
  | Ok (token, claims) =>
      parse_and_verify_invite_token token = Ok claims /\
      ic_expires_at claims = (now + ttl)%N /\ (now + ttl <= u64_max)%N /\
      ic_network_id claims = nc_id network /\ ic_network_name claims = nc_name network /\
      ic_issued_by claims = idn_machine_id identity /\ ic_allocated_subnet claims = tc_allocated_subnet context
  | Err e => e = "ttl overflow" /\ (u64_max < now + ttl)%N
  end.
Proof.
  destruct (issue_invite_token _ _ _ _ _ _ _) as [[token claims]|e] eqn:E.
  - split; [by eapply parse_issued|]. unfold issue_invite_token in E.
    apply rbind_Ok in E as (x & Hx & (p & _ & [= <- <-])%rbind_Ok). simpl.
    destruct (N.leb_spec (now + ttl) u64_max); simplify_eq. done.
  - unfold issue_invite_token in E. destruct (N.leb_spec (now + ttl) u64_max) as [|Hlt]; simpl in E; [|naive_solver].
    set (c := Build_InviteClaims _ _ _ _ _ _ _ _ _ _ _ _) in *.
    destruct (json_round_trip c) as (p & Hp & _). by rewrite Hp in E.
Qed.

(** A join response is read back. *)
Lemma join_response_roundtrip `{B : Base64} `{!Base64Laws B} `{RecordCodec JoinResponse} `{!JsonRoundTrip JoinResponse}
    (response : JoinResponse) :
  exists text, join_response_encode response = Ok text /\ join_response_decode text = Ok response.
Proof.
  destruct (json_round_trip response) as (p & Hp & Hr). unfold join_response_encode, join_response_decode.
  rewrite Hp. cbn [rbind map_err]. eexists. split; [done|].
  rewrite (proj2 (strip_prefix_Some _ _ _) eq_refl). cbn [rbind map_err ok_or].
  rewrite b64_decode_encode by apply str_bytes_bound. simpl. by rewrite bytes_str_bytes, Hr.
Qed.

(** ** The peers on disk *)

Section peers_proofs.
Context `{RecordCodec (list BootstrapPeerRecord)}.

(** The peers the file holds. *)
Definition stored_peers (dir : PathBuf) (fs : Fs) : result string (list BootstrapPeerRecord) :=
  match fs_files fs !! bootstrap_peers_path dir with Some c => from_json c | None => Ok [] end.

Lemma load_peers_stored dir fs peers :
  (load_bootstrap_peer_records dir fs).1 = Ok peers -> bootstrap_peers_path dir ∉ fs_dirs fs ->
  stored_peers dir fs = Ok peers.
Proof.
  unfold load_bootstrap_peer_records, stored_peers, exists_path, io_bind, io_map_err, io_lift. intros E Hd.
  rewrite (bool_decide_eq_false_2 (_ ∈ fs_dirs fs)), orb_false_r in E by done.
  case_bool_decide as Hs; [|apply eq_None_not_Some in Hs as ->; exact E].
  destruct (read_file _ fs) as [r fs'] eqn:Er. pose proof (read_file_ok (bootstrap_peers_path dir) fs) as Hok.
  rewrite Er in Hok. destruct r as [c|e]; [|done]. rewrite (Hok c eq_refl). simpl in E. by destruct (from_json c); simplify_eq/=.
Qed.
Lemma load_peers_files dir fs : fs_files (load_bootstrap_peer_records dir fs).2 = fs_files fs.
Proof.
  unfold load_bootstrap_peer_records. destruct (exists_path _ fs); [|done]. unfold io_bind, io_map_err, io_lift. simpl.
  pose proof (read_file_files (bootstrap_peers_path dir) fs) as Hf.
  destruct (read_file _ fs) as [[c|e] fs']; simpl in *; [|done]. done.
Qed.

Lemma upsert_peer_spec peer peers : NoDup (bp_machine_id <$> peers) ->
  let peers' := upsert_peer peer peers in
  NoDup (bp_machine_id <$> peers') /\ StronglySorted (cmp_le cmp_peer_id) peers' /\
  index_by bp_machine_id peers' = <[bp_machine_id peer := peer]> (index_by bp_machine_id peers).
Proof.
  intros Hn. unfold upsert_peer. simpl. split_and!.
  - rewrite sort_by_perm. by apply replaced_NoDup.
  - apply (sort_by_sorted _).
  - rewrite <- replaced_index by done. apply index_by_perm; [|apply sort_by_perm].
    rewrite sort_by_perm. by apply replaced_NoDup.
Qed.
End peers_proofs.

(** The file of bootstrap peers keeps its form: a successful write of a
    peer turns a file with one record per machine into such a file, sorted by
    machine, in which the peer replaces an older record of its machine and all
    other records stay; whatever the outcome, no other file changes. *)
Theorem bootstrap_peers_wf `{RecordCodec (list BootstrapPeerRecord)} `{!JsonRoundTrip (list BootstrapPeerRecord)}
    (dir : PathBuf) (peer : BootstrapPeerRecord) (fs : Fs) peers :
  let path := bootstrap_peers_path dir in
  path ∉ fs_dirs (create_dir_all dir fs).2 -> stored_peers dir fs = Ok peers -> NoDup (bp_machine_id <$> peers) ->
  let '(r, fs') := write_bootstrap_peer_record dir peer fs in
  only_file path fs fs' /\
  (r = Ok tt -> exists peers', stored_peers dir fs' = Ok peers' /\ NoDup (bp_machine_id <$> peers') /\
     StronglySorted (cmp_le cmp_peer_id) peers' /\
     index_by bp_machine_id peers' = <[bp_machine_id peer := peer]> (index_by bp_machine_id peers)).
Proof.
  simpl. intros Hd Hs Hn. unfold write_bootstrap_peer_record, io_bind, io_map_err, io_lift. simpl.
  pose proof (create_dir_all_files dir fs) as Hf1.
  destruct (create_dir_all dir fs) as [[[]|e1] fs1]; simpl in *; [|split; [by intros q _; rewrite Hf1|done]].
  pose proof (load_peers_stored dir fs1) as Hl. pose proof (load_peers_files dir fs1) as Hf2.
  destruct (load_bootstrap_peer_records dir fs1) as [[loaded|e2] fs2]; simpl in *;
    [|split; [by intros q _; rewrite Hf2, Hf1|done]].
  specialize (Hl loaded eq_refl Hd). unfold stored_peers in Hl, Hs. rewrite Hf1, Hs in Hl. injection Hl as <-.
  destruct (json_round_trip (upsert_peer peer peers)) as (p & -> & Hr). simpl.
  pose proof (write_file_ok (bootstrap_peers_path dir) p fs2) as Hw.
  pose proof (write_file_only (bootstrap_peers_path dir) p fs2) as Ho.
  destruct (write_file _ p fs2) as [r fs3]; simpl in *. split; [intros q Hq; by rewrite (Ho q Hq), Hf2, Hf1|].
  destruct r as [[]|e3]; [intros _|done]. exists (upsert_peer peer peers).
  destruct (upsert_peer_spec peer peers Hn) as (? & ? & ?). unfold stored_peers. by rewrite (Hw eq_refl).
Qed.

(** ** Seed records *)

Lemma foldl_upsert_machine records extra : NoDup (mr_id <$> records) ->
  NoDup (mr_id <$> foldl upsert_machine records extra) /\
  index_by mr_id (foldl upsert_machine records extra) = insert_all mr_id (index_by mr_id records) extra.
Proof.
  revert records. induction extra as [|r extra IH]; intros records Hn; simpl; [done|].
  destruct (IH (upsert_machine records r)) as [Hn' ->]; [by apply replaced_NoDup|]. split; [done|].
  unfold upsert_machine. by rewrite replaced_index.
Qed.

Definition bootstrap_seed (b : BootstrapInfo) : MachineRecord :=
  machine_seed (bi_peer_id b) (bi_peer_wg_public_key b) (bi_peer_overlay_ip b) None (bi_peer_endpoints b).
Definition self_seed (identity : Identity) (net_config : NetworkConfig) (endpoints : list string) : MachineRecord :=
  machine_seed (idn_machine_id identity) (idn_public_key identity) (nc_overlay_ip net_config)
    (Some (nc_subnet net_config)) endpoints.

(** The records a mesh starts with are one per machine: the machine's own
    record first of all, then the last record of the store's database, then the
    peer on disk, and the peer of the invite only when nothing else is known of
    that machine. *)
Theorem seed_records_precedence (peers : list BootstrapPeerRecord) identity net_config bootstrap endpoints extra :
  NoDup (bp_machine_id <$> peers) ->
  let records := merge_seed_records peers identity net_config bootstrap endpoints extra in
  NoDup (mr_id <$> records) /\
  forall id, index_by mr_id records !! id =
    if decide (id = idn_machine_id identity) then Some (self_seed identity net_config endpoints)
    else match last (filter (fun r => mr_id r = id) extra) with
         | Some r => Some r
         | None =>
             match index_by bp_machine_id peers !! id with
             | Some p => Some (into_machine_record p)
             | None => b ← bootstrap; if decide (bi_peer_id b = id) then Some (bootstrap_seed b) else None
             end
         end.
Proof.
  intros Hn. unfold merge_seed_records. simpl.
  assert (NoDup (mr_id <$> (into_machine_record <$> peers))) as Hn0 by (by rewrite <- list_fmap_compose).
  destruct (foldl_upsert_machine _ extra Hn0) as [Hn1 Hi1].
  set (known := foldl upsert_machine (into_machine_record <$> peers) extra) in *.
  assert (forall id, index_by mr_id known !! id =
    match last (filter (fun r => mr_id r = id) extra) with
    | Some r => Some r | None => into_machine_record <$> index_by bp_machine_id peers !! id end) as Hk.
  { intros id. rewrite Hi1, insert_all_lookup. destruct (last _); [done|]. apply option_eq. intros r.
    rewrite index_by_NoDup by done. rewrite fmap_Some. setoid_rewrite index_by_NoDup; [|done].
    rewrite list_elem_of_fmap. split.
    - intros [(p & -> & Hp) <-]. by exists p.
    - intros (p & [Hp <-] & ->). split; [by exists p|done]. }
  set (more := match bootstrap with Some b => _ | None => known end).
  assert (NoDup (mr_id <$> more) /\ forall id, index_by mr_id more !! id =
    match index_by mr_id known !! id with
    | Some r => Some r
    | None => b ← bootstrap; if decide (bi_peer_id b = id) then Some (bootstrap_seed b) else None
    end) as [Hn2 Hi2].
  { unfold more. clear Hk. destruct bootstrap as [b|]; simpl; [|split; [done|]; intros id; by destruct (index_by _ _ !! id)].
    fold (bootstrap_seed b). case_decide as Hb.
    - split; [done|]. intros id. destruct (index_by _ known !! id) eqn:E; [done|].
      apply index_by_None in E. rewrite decide_False; [done|]. by intros <-.
    - split; [rewrite fmap_app; apply NoDup_app; split_and!; [done|set_solver|apply NoDup_singleton]|].
      intros id. unfold index_by, insert_all in *. rewrite foldl_app. simpl. case_decide as E.
      + subst id. rewrite lookup_insert_eq. fold (insert_all mr_id ∅ known). fold (index_by mr_id known).
        by rewrite (proj2 (index_by_None mr_id known (bi_peer_id b))).
      + rewrite lookup_insert_ne by done. by destruct (_ !! id). }
  split; [by apply replaced_NoDup|]. intros id. unfold upsert_machine. rewrite replaced_index by done.
  fold (self_seed identity net_config endpoints). case_decide as E.
  - rewrite E. apply lookup_insert_eq.
  - rewrite lookup_insert_ne by (intros Heq; apply E; exact (eq_sym Heq)). rewrite Hi2, Hk. destruct (last _); [done|].
    by destruct (index_by bp_machine_id peers !! id).
Qed.

(** ** Reference keys and witnesses *)

Definition ref_key (k : list N) : list N := resize 32 0%N ((fun b => b mod 256)%N <$> k).
Definition ref_sign (key message : list N) : list N := resize 64 0%N ((fun b => b mod 256)%N <$> (key ++ message)%list).
Definition ref_keys : Keys := {|
  verifying_key := ref_key; sign k := ref_sign (ref_key k); verifying_key_from_bytes := Ok;
  verify key message signature := if decide (signature = ref_sign key message) then Ok tt else Err "signature error";
  x25519_public := ref_key |}.

Lemma resize_mod_bytes n (l : list N) : is_bytes (resize n 0%N ((fun b => b mod 256)%N <$> l)).
Proof.
  unfold is_bytes. apply Forall_resize; [lia|]. apply Forall_fmap, Forall_true. intros b. simpl. apply N.mod_lt. done.
Qed.
#[export] Instance ref_keys_laws : KeysLaws ref_keys.
Proof.
  split; simpl; intros; unfold ref_key, ref_sign; try (split; [apply resize_mod_bytes|apply length_resize]); [done|].
  by rewrite decide_True.
Qed.

#[export] Instance InviteClaims_eq_dec : EqDecision InviteClaims.
Proof. solve_decision. Defined.
#[export] Instance InviteClaims_countable : Countable InviteClaims.
Proof.
  refine (inj_countable'
    (fun r => (ic_invite_id r, ic_network_id r, ic_network_name r, ic_issued_by r, ic_issuer_verify_key r, ic_expires_at r,
               (ic_nonce r, ic_issuer_endpoints r, ic_issuer_overlay_ip r, ic_issuer_wg_public_key r, ic_issuer_subnet r,
                ic_allocated_subnet r)))
    (fun '(a, b, c, d, e, f, (g, h, i, j, k, l)) => Build_InviteClaims a b c d e f g h i j k l) _).
  by intros [].
Defined.
#[export] Instance BootstrapPeerRecord_eq_dec : EqDecision BootstrapPeerRecord.
Proof. solve_decision. Defined.
#[export] Instance BootstrapPeerRecord_countable : Countable BootstrapPeerRecord.
Proof.
  refine (inj_countable' (fun r => (bp_machine_id r, bp_public_key r, bp_overlay_ip r, bp_endpoints r))
    (fun '(a, b, c, d) => Build_BootstrapPeerRecord a b c d) _). by intros [].
Defined.

Definition sample_identity : Identity := @identity_generate ref_keys "founder" [1%N; 2%N].
Definition sample_config : NetworkConfig :=
  network_config_new "net" "alpha" (idn_public_key sample_identity) "10.210.0.0/16" (mkNet 181534720 24).
Definition sample_context : InviteTokenContext := {|
  tc_issuer_endpoints := ["1.2.3.4:51820"]; tc_issuer_overlay_ip := None; tc_issuer_wg_public_key := None;
  tc_issuer_subnet := None; tc_allocated_subnet := "10.210.9.0/24" |}.

Lemma invite_token_roundtrip_witness :
  exists token claims,
    @issue_invite_token ref_keys ref_base64 (ref_record_codec _) [7%N] [8%N] sample_identity sample_config 600 1000
      sample_context = Ok (token, claims) /\
    @parse_and_verify_invite_token ref_keys ref_base64 (ref_record_codec _) token = Ok claims /\
    ic_allocated_subnet claims = "10.210.9.0/24".
Proof.
  pose proof (@invite_token_roundtrip ref_keys ref_keys_laws ref_base64 ref_base64_laws (ref_record_codec _)
    (ref_json_round_trip _) [7%N] [8%N] sample_identity sample_config 600 1000 sample_context) as H.
  destruct (issue_invite_token _ _ _ _ _ _ _) as [[token claims]|e].
  - exists token, claims. destruct H as (Hp & _ & _ & _ & _ & _ & Hs). done.
  - destruct H as [_ H]. by vm_compute in H.
Defined.

Definition sample_peer (id : string) (port : N) : BootstrapPeerRecord := {|
  bp_machine_id := id; bp_public_key := []; bp_overlay_ip := []; bp_endpoints := ["10.0.0.1:" +:+ dec port] |}.

Lemma bootstrap_peers_wf_witness :
  exists peers',
    @stored_peers (ref_record_codec _) "/d"
      (@write_bootstrap_peer_record (ref_record_codec _) "/d" (sample_peer "b" 1)
         {| fs_files := ∅; fs_dirs := ∅; fs_faults := [] |}).2 = Ok peers' /\ NoDup (bp_machine_id <$> peers').
Proof.
  pose proof (@bootstrap_peers_wf (ref_record_codec _) (ref_json_round_trip _) "/d" (sample_peer "b" 1)
    {| fs_files := ∅; fs_dirs := ∅; fs_faults := [] |} []) as H. simpl in H.
  specialize (H ltac:(apply (bool_decide_unpack _); vm_compute; reflexivity)
    ltac:(vm_compute; reflexivity) ltac:(apply NoDup_nil_2)).
  destruct (write_bootstrap_peer_record _ _ _) as [r fs'] eqn:E. destruct H as [_ H]. simpl in *.
  assert (r = Ok tt) as Hr by (apply (f_equal fst) in E; simpl in E; rewrite <- E; vm_compute; reflexivity).
  destruct (H Hr) as (peers' & ? & ? & _). by exists peers'.
Defined.

Lemma seed_records_precedence_witness :
  let records := merge_seed_records [sample_peer "founder" 1] sample_identity sample_config None [] [] in
  NoDup (mr_id <$> records) /\
  index_by mr_id records !! "founder" = Some (self_seed sample_identity sample_config []).
Proof.
  destruct (seed_records_precedence [sample_peer "founder" 1] sample_identity sample_config None [] []) as [Hn Hi];
    [apply NoDup_singleton|]. split; [exact Hn|]. by rewrite Hi.
Defined.
