(* ===== verification/IpnetRef.v ===== *)
(** * A concrete network library

    The [ipnet] crate is an interface of the model.  This file gives one
    implementation of that interface and proves the interface's laws of it, so
    that theorems stated against the laws can be applied to concrete networks
    and evaluated. *)

From S2P Require Import Prelude Order Text Types.
Local Open Scope string_scope.
#[local] Arguments String.append !_ _ : simpl nomatch.

Definition ref_network (n : Ipv4Net) : N :=
  (net_addr n / net_size (net_prefix_len n) * net_size (net_prefix_len n))%N.

Definition dotted (a : N) : string :=
  dec (a / 16777216) +:+ String "." (dec (a / 65536 mod 256) +:+ String "." (
    dec (a / 256 mod 256) +:+ String "." (dec (a mod 256)))).

Definition parse_dec_max (m : N) (s : string) : option N :=
  n ← parse_u64 s; if (n <=? m)%N then Some n else None.

Definition ref_parse (s : string) : option Ipv4Net :=
  '(addr, p) ← split_once "/" s;
  p ← parse_dec_max 32 p;
  match split "." addr with
  | [a; b; c; d] =>
      a ← parse_dec_max 255 a; b ← parse_dec_max 255 b; c ← parse_dec_max 255 c; d ← parse_dec_max 255 d;
      Some (mkNet (a * 16777216 + b * 65536 + c * 256 + d) p)
  | _ => None
  end.

Definition ref_ipnet : Ipnet := {|
  ipnet_new a p := if (p <=? 32)%N then Some (mkNet a p) else None;
  ipnet_network := ref_network;
  ipnet_broadcast n := (ref_network n + net_size (net_prefix_len n) - 1)%N;
  ipnet_to_string n := dotted (net_addr n) +:+ String "/" (dec (net_prefix_len n));
  ipnet_parse := ref_parse;
  ipnet_cmp a b := then_with (N.compare (net_addr a) (net_addr b))
                             (N.compare (net_prefix_len a) (net_prefix_len b))
|}.

(** ** Its laws *)

Lemma digits_no_char c s :
  is_ascii_digit c = false -> all_chars is_ascii_digit s = true -> contains_char c s = false.
Proof.
  intros Hc. induction s as [|d s IH]; simpl; [done|]. intros [Hd Hs]%andb_true_iff.
  destruct (ascii_dec c d) as [->|]; [congruence|auto].
Qed.

Lemma dec_no_char c n : is_ascii_digit c = false -> contains_char c (dec n) = false.
Proof. intros. by apply digits_no_char, dec_digits. Qed.

Lemma parse_dec_max_dec m n : (n <= m)%N -> (m <= u64_max)%N -> parse_dec_max m (dec n) = Some n.
Proof.
  intros Hn Hm. unfold parse_dec_max. rewrite parse_u64_dec by lia. simpl.
  by apply N.leb_le in Hn as ->.
Qed.

Lemma parse_dec_max_bound m s n : parse_dec_max m s = Some n -> (n <= m)%N.
Proof.
  unfold parse_dec_max. destruct (parse_u64 s) as [k|]; simpl; [|done].
  destruct (N.leb_spec k m); naive_solver.
Qed.

Lemma dotted_no_slash a : contains_char "/" (dotted a) = false.
Proof. unfold dotted. repeat (rewrite contains_char_app; simpl). by rewrite !dec_no_char. Qed.

Lemma split_dotted a :
  split "." (dotted a) =
  [dec (a / 16777216); dec (a / 65536 mod 256); dec (a / 256 mod 256); dec (a mod 256)].
Proof.
  unfold dotted.
  rewrite split_app by by apply dec_no_char. f_equal.
  rewrite split_app by by apply dec_no_char. f_equal.
  rewrite split_app by by apply dec_no_char. f_equal.
  apply split_piece. by apply dec_no_char.
Qed.

Lemma octets_value a :
  (a = a / 16777216 * 16777216 + (a / 65536 mod 256) * 65536 + (a / 256 mod 256) * 256 + a mod 256)%N.
Proof.
  pose proof (N.Div0.div_mod a 256) as H1. pose proof (N.Div0.div_mod (a / 256) 256) as H2.
  pose proof (N.Div0.div_mod (a / 65536) 256) as H3.
  assert (a / 256 / 256 = a / 65536)%N as E1 by (by rewrite N.Div0.div_div).
  assert (a / 65536 / 256 = a / 16777216)%N as E2 by (by rewrite N.Div0.div_div).
  rewrite E1 in H2. rewrite E2 in H3. lia.
Qed.

Lemma ref_parse_to_string n : net_wf n -> ref_parse (dotted (net_addr n) +:+ String "/" (dec (net_prefix_len n))) = Some n.
Proof.
  intros [Ha Hp]. unfold ref_parse.
  rewrite split_once_app by apply dotted_no_slash. simpl.
  rewrite parse_dec_max_dec by (unfold u64_max; lia). simpl. rewrite split_dotted.
  unfold u32_max in Ha.
  assert (net_addr n / 16777216 < 256)%N by (apply N.Div0.div_lt_upper_bound; lia).
  rewrite !parse_dec_max_dec by (unfold u64_max; try lia;
    match goal with |- (?x mod 256 <= 255)%N => pose proof (N.mod_lt x 256 ltac:(done)); lia end).
  simpl. rewrite <- octets_value. by destruct n.
Qed.

Lemma ref_parse_wf s n : ref_parse s = Some n -> net_wf n.
Proof.
  unfold ref_parse. destruct (split_once "/" s) as [[addr p]|]; simpl; [|done].
  destruct (parse_dec_max 32 p) as [k|] eqn:Hk; simpl; [|done].
  destruct (split "." addr) as [|a [|b [|c [|d [|]]]]]; try done.
  destruct (parse_dec_max 255 a) eqn:Ha; simpl; [|done].
  destruct (parse_dec_max 255 b) eqn:Hb; simpl; [|done].
  destruct (parse_dec_max 255 c) eqn:Hc; simpl; [|done].
  destruct (parse_dec_max 255 d) eqn:Hd; simpl; [|done].
  intros [= <-]. repeat match goal with H : parse_dec_max _ _ = _ |- _ => apply parse_dec_max_bound in H end.
  unfold net_wf, u32_max. simpl. lia.
Qed.

Lemma ref_cmp_eq a b : @ipnet_cmp ref_ipnet a b = Eq <-> a = b.
Proof.
  simpl. unfold then_with.
  destruct (N.compare_spec (net_addr a) (net_addr b)) as [H|H|H];
    [|split; [done|intros ->; lia]..].
  rewrite N.compare_eq_iff. destruct a, b; simpl in *. naive_solver.
Qed.

Lemma ref_ipnet_laws : IpnetLaws ref_ipnet.
Proof.
  split; simpl.
  - intros a p _ Hp. by apply N.leb_le in Hp as ->.
  - intros a p Hp. by apply N.leb_gt in Hp as ->.
  - done.
  - done.
  - apply ref_parse_to_string.
  - apply ref_parse_wf.
  - apply then_with_total; apply cmp_on_total; apply _.
  - apply ref_cmp_eq.
Qed.
