(* ===== verification/Ipam.v ===== *)
(** * Address management

    [ipam.rs] of [ployz-orchestrator]: [Ipam] hands out machine subnets of the
    cluster network, [SubnetIpam] hands out container addresses of a machine
    subnet.  Arithmetic is on [u8] and [u32]: an overflow panics when overflow
    checks are compiled in and wraps otherwise ([Build]); both builds are
    covered. *)

From S2P Require Import Prelude Order Text Types IpnetRef.

(** Whether the build has overflow checks. *)
Class Build := { overflow_checks : bool }.

(** The outcome of a loop: a value, a panic, or out of fuel. *)
Inductive run (A : Type) := Done (a : A) | Panic | OutOfFuel.
Arguments Done {A} a.
Arguments Panic {A}.
Arguments OutOfFuel {A}.

Definition u32_modulus : N := 4294967296.

Section machine_arith.
Context `{Build}.

Definition add_u32 (a b : N) : option N :=
  if (a + b <=? u32_max)%N then Some (a + b)%N
  else if overflow_checks then None else Some ((a + b) mod u32_modulus)%N.

Definition sub_u8 (a b : N) : option N :=
  if (b <=? a)%N then Some (a - b)%N
  else if overflow_checks then None else Some ((256 + a - b) mod 256)%N.

Definition shl_u32 (a k : N) : option N :=
  if (k <? 32)%N then Some (N.shiftl a k mod u32_modulus)%N
  else if overflow_checks then None else Some (N.shiftl a (k mod 32) mod u32_modulus)%N.
End machine_arith.

(** ** Machine subnets *)

Record Ipam := { ipam_cluster : Ipv4Net; ipam_prefix_len : N; ipam_allocated : gset Ipv4Net }.

Definition ipam_new (cluster : Ipv4Net) (prefix_len : N) : Ipam :=
  {| ipam_cluster := cluster; ipam_prefix_len := prefix_len; ipam_allocated := ∅ |}.

Definition ipam_with_allocated (cluster : Ipv4Net) (prefix_len : N) (allocated : list Ipv4Net) : Ipam :=
  {| ipam_cluster := cluster; ipam_prefix_len := prefix_len; ipam_allocated := list_to_set allocated |}.

Section allocate.
Context `{Build} `{Ipnet}.

Definition ipam_insert (self : Ipam) (subnet : Ipv4Net) : Ipam :=
  {| ipam_cluster := ipam_cluster self; ipam_prefix_len := ipam_prefix_len self;
     ipam_allocated := {[subnet]} ∪ ipam_allocated self |}.

Fixpoint allocate_loop (fuel : nat) (self : Ipam) (cluster_end step addr : N)
    : run (option Ipv4Net * Ipam) :=
  match fuel with
  | O => OutOfFuel
  | S fuel =>
      if (addr <? cluster_end)%N then
        let next := match add_u32 addr step with
                    | Some addr => allocate_loop fuel self cluster_end step addr
                    | None => Panic
                    end in
        match ipnet_new addr (ipam_prefix_len self) with
        | Some subnet =>
            if decide (subnet ∈ ipam_allocated self) then next
            else Done (Some subnet, ipam_insert self subnet)
        | None => next
        end
      else Done (None, self)
  end.

(** [1u32 << (32 - prefix_len)]. *)
Definition ipam_step (prefix_len : N) : option N :=
  match sub_u8 32 prefix_len with Some k => shl_u32 1 k | None => None end.

Definition ipam_allocate (self : Ipam) : run (option Ipv4Net * Ipam) :=
  let cluster_start := ipnet_network (ipam_cluster self) in
  let cluster_end := ipnet_broadcast (ipam_cluster self) in
  match ipam_step (ipam_prefix_len self) with
  | Some step =>
      allocate_loop (S (S (N.to_nat ((cluster_end - cluster_start) / step)))) self cluster_end step
        cluster_start
  | None => Panic
  end.

Definition machine_ip (subnet : Ipv4Net) : option Ipv4Addr := add_u32 (ipnet_network subnet) 1.
Definition container_ip (subnet : Ipv4Net) : option Ipv4Addr := add_u32 (ipnet_network subnet) 2.
End allocate.

(** ** Container addresses *)

Record SubnetIpam := { sub_subnet : Ipv4Net; sub_allocated : gset Ipv4Addr }.

Definition sub_new (subnet : Ipv4Net) : SubnetIpam :=
  {| sub_subnet := subnet; sub_allocated := ∅ |}.

Definition sub_with_allocated (subnet : Ipv4Net) (existing : list Ipv4Addr) : SubnetIpam :=
  {| sub_subnet := subnet; sub_allocated := list_to_set existing |}.

Section subnet_allocate.
Context `{Build} `{Ipnet}.

Fixpoint sub_allocate_loop (self : SubnetIpam) (base : N) (offsets : list N)
    : run (option Ipv4Addr * SubnetIpam) :=
  match offsets with
  | [] => Done (None, self)
  | offset :: offsets =>
      match add_u32 base offset with
      | None => Panic
      | Some ip =>
          if decide (ip ∈ sub_allocated self) then sub_allocate_loop self base offsets
          else Done (Some ip, {| sub_subnet := sub_subnet self;
                                 sub_allocated := {[ip]} ∪ sub_allocated self |})
      end
  end.

(** [for offset in 3..255u32]. *)
Definition sub_offsets : list N := N.of_nat <$> seq 3 252.

Definition sub_allocate (self : SubnetIpam) : run (option Ipv4Addr * SubnetIpam) :=
  sub_allocate_loop self (ipnet_network (sub_subnet self)) sub_offsets.

Definition sub_release (self : SubnetIpam) (ip : Ipv4Addr) : SubnetIpam :=
  {| sub_subnet := sub_subnet self; sub_allocated := sub_allocated self ∖ {[ip]} |}.
End subnet_allocate.

Lemma allocate_loop_fresh `{Build} `{Ipnet} fuel self cluster_end step addr s self' :
  allocate_loop fuel self cluster_end step addr = Done (Some s, self') -> s ∉ ipam_allocated self.
Proof.
  revert addr. induction fuel as [|fuel IH]; intros addr; simpl; [done|].
  destruct (addr <? cluster_end)%N; [|done].
  destruct (ipnet_new addr (ipam_prefix_len self)) as [t|].
  - case_decide; [|by intros [= <- _]]. destruct (add_u32 addr step); [apply IH|done].
  - destruct (add_u32 addr step); [apply IH|done].
Qed.

(** What is allocated was free, also in a build or for a cluster where the
    loop may panic or wrap around. *)
Lemma ipam_allocate_fresh `{Build} `{Ipnet} (self self' : Ipam) (s : Ipv4Net) :
  ipam_allocate self = Done (Some s, self') -> s ∉ ipam_allocated self.
Proof. unfold ipam_allocate. destruct (ipam_step _); [apply allocate_loop_fresh|done]. Qed.

(** ** Machine subnets: specification *)

(** The addresses of a network. *)
Definition in_net `{Ipnet} (a : Ipv4Addr) (n : Ipv4Net) : Prop :=
  (ipnet_network n <= a <= ipnet_broadcast n)%N.

(** A network whose address has no host bits. *)
Definition aligned `{Ipnet} (n : Ipv4Net) : Prop := ipnet_network n = net_addr n.

(** [n] candidate subnets from [addr] on. *)
Fixpoint candidates (prefix_len addr : N) (n : nat) : list Ipv4Net :=
  match n with
  | O => []
  | S n => mkNet addr prefix_len :: candidates prefix_len (addr + net_size prefix_len) n
  end.

(** The reference allocator: the first candidate of the cluster not in use. *)
Definition ipam_candidates `{Ipnet} (self : Ipam) : list Ipv4Net :=
  let start := ipnet_network (ipam_cluster self) in
  let size := net_size (ipam_prefix_len self) in
  candidates (ipam_prefix_len self) start
    (N.to_nat ((ipnet_broadcast (ipam_cluster self) - start + size - 1) / size)).

Definition first_free (self : Ipam) (l : list Ipv4Net) : option Ipv4Net * Ipam :=
  match list_find (fun s => s ∉ ipam_allocated self) l with
  | Some (_, s) => (Some s, ipam_insert self s)
  | None => (None, self)
  end.

(** The configurations the allocator is used with: a proper prefix length, and
    room above the cluster for one more step. *)
Record ipam_wf `{Ipnet} (self : Ipam) : Prop := {
  iwf_cluster : net_wf (ipam_cluster self);
  iwf_prefix : (1 <= ipam_prefix_len self <= 32)%N;
  iwf_room : (ipnet_broadcast (ipam_cluster self) + net_size (ipam_prefix_len self) <= u32_max)%N
}.

Lemma net_size_pos p : (0 < net_size p)%N.
Proof. unfold net_size. pose proof (N.pow_nonzero 2 (32 - p) ltac:(done)). lia. Qed.

Lemma net_size_mono p q : (p <= q)%N -> exists k, (net_size p = k * net_size q)%N /\ (0 < k)%N.
Proof.
  intros Hpq. exists (2 ^ ((32 - p) - (32 - q)))%N. unfold net_size.
  rewrite <- N.pow_add_r. split; [f_equal; lia|].
  pose proof (N.pow_nonzero 2 (32 - p - (32 - q)) ltac:(done)). lia.
Qed.

Lemma elem_of_candidates p addr n s :
  s ∈ candidates p addr n <->
  exists k, (k < N.of_nat n)%N /\ s = mkNet (addr + k * net_size p) p.
Proof.
  revert addr; induction n as [|n IH]; intros addr; simpl.
  - rewrite elem_of_nil. split; [done|]. intros (k & ? & _). lia.
  - rewrite elem_of_cons, IH. split.
    + intros [->|(k & Hk & ->)]; [exists 0%N; split; [lia|f_equal; lia]|].
      exists (k + 1)%N. split; [lia|f_equal; lia].
    + intros (k & Hk & ->). destruct (N.eq_dec k 0) as [->|]; [left; f_equal; lia|].
      right. exists (k - 1)%N. split; [lia|]. f_equal.
      replace k with (1 + (k - 1))%N at 1 by lia. lia.
Qed.

Section ipam_laws.
Context {B : Build} {I : Ipnet} {L : IpnetLaws I}.

Lemma ipam_step_ok p : (1 <= p <= 32)%N -> ipam_step p = Some (net_size p).
Proof.
  intros Hp. unfold ipam_step, sub_u8, shl_u32.
  destruct (N.leb_spec p 32); [|lia]. destruct (N.ltb_spec (32 - p) 32); [|lia].
  f_equal. rewrite N.shiftl_1_l. apply N.mod_small. unfold u32_modulus.
  apply (N.lt_le_trans _ (2 ^ 32)); [|done]. apply N.pow_lt_mono_r; lia.
Qed.

(** The loop visits the [n] candidates from [addr] on and stops at the first
    free one. *)
Lemma allocate_loop_first_free self cluster_end n fuel addr :
  let p := ipam_prefix_len self in
  (1 <= p <= 32)%N -> (cluster_end + net_size p <= u32_max)%N -> (n < fuel)%nat ->
  (cluster_end <= addr + N.of_nat n * net_size p)%N ->
  (addr + N.of_nat n * net_size p < cluster_end + net_size p)%N ->
  allocate_loop fuel self cluster_end (net_size p) addr = Done (first_free self (candidates p addr n)).
Proof.
  intros p Hp Hroom. pose proof (net_size_pos p) as Hpos.
  revert n addr. induction fuel as [|fuel IH]; intros n addr Hf Hend Hlast; [lia|].
  cbn [allocate_loop]. destruct n as [|n].
  { destruct (N.ltb_spec addr cluster_end); [lia|]. done. }
  rewrite Nat2N.inj_succ, N.mul_succ_l in Hend, Hlast.
  destruct (N.ltb_spec addr cluster_end); [|lia].
  rewrite ipnet_new_ok by lia. fold p. unfold first_free. cbn [candidates list_find].
  destruct (decide (mkNet addr p ∈ ipam_allocated self)) as [Hin|Hin].
  - destruct (decide (mkNet addr p ∉ ipam_allocated self)); [done|].
    unfold add_u32. destruct (N.leb_spec (addr + net_size p) u32_max); [|lia].
    rewrite (IH n) by lia. unfold first_free.
    by destruct (list_find _ (candidates _ _ _)) as [[]|].
  - by destruct (decide (mkNet addr p ∉ ipam_allocated self)).
Qed.

Lemma ceil_div_bounds x d : (0 < d)%N ->
  (x <= ((x + d - 1) / d) * d)%N /\ (((x + d - 1) / d) * d < x + d)%N.
Proof.
  intros Hd. assert (d <> 0%N) as Hd' by lia.
  pose proof (N.Div0.div_mod (x + d - 1) d) as H1. pose proof (N.mod_lt (x + d - 1) d Hd') as H2.
  rewrite (N.mul_comm d) in H1. revert H1 H2.
  generalize ((x + d - 1) / d * d)%N. generalize ((x + d - 1) mod d)%N. lia.
Qed.

Lemma ceil_div_le x d : (0 < d)%N -> ((x + d - 1) / d <= x / d + 1)%N.
Proof.
  intros Hd. assert (d <> 0%N) as Hd' by lia.
  transitivity ((x + 1 * d) / d)%N; [apply N.Div0.div_le_mono; lia|].
  rewrite N.div_add by done. lia.
Qed.

Lemma cluster_bounds n : net_wf n -> (ipnet_network n <= ipnet_broadcast n)%N.
Proof.
  intros Hn. rewrite ipnet_broadcast_spec by done. pose proof (net_size_pos (net_prefix_len n)). lia.
Qed.

(** The loop bounds of [ipam_allocate] are enough, and no step overflows. *)
Lemma ipam_allocate_eq (self : Ipam) :
  ipam_wf self -> ipam_allocate self = Done (first_free self (ipam_candidates self)).
Proof.
  intros [Hc Hp Hroom]. unfold ipam_allocate, ipam_candidates. rewrite ipam_step_ok by done.
  pose proof (cluster_bounds _ Hc) as Hb. pose proof (net_size_pos (ipam_prefix_len self)) as Hpos.
  pose proof (ceil_div_bounds (ipnet_broadcast (ipam_cluster self) - ipnet_network (ipam_cluster self))
                _ Hpos) as [H1 H2].
  apply allocate_loop_first_free; rewrite ?N2Nat.id; try done; try lia.
  pose proof (ceil_div_le (ipnet_broadcast (ipam_cluster self) - ipnet_network (ipam_cluster self))
                _ Hpos). lia.
Qed.

(** [Ipam::allocate] is the first-free allocator: in every build it
    returns (no panic, no divergence) the first candidate subnet of the
    cluster that is not in use and records it, and returns nothing and
    changes nothing when all candidates are in use. *)
Theorem ipam_allocate_first_free (self : Ipam) :
  ipam_wf self -> ipam_allocate self = Done (first_free self (ipam_candidates self)).
Proof. apply ipam_allocate_eq. Qed.

Lemma aligned_mult n : net_wf n -> aligned n <-> exists q, net_addr n = (q * net_size (net_prefix_len n))%N.
Proof.
  intros Hn. unfold aligned. rewrite ipnet_network_spec by done.
  pose proof (net_size_pos (net_prefix_len n)) as Hp. split.
  - intros H. rewrite <- H. eauto.
  - intros [q ->]. rewrite N.div_mul by lia. done.
Qed.

(** Candidates are aligned subnets of the cluster. *)
Lemma candidate_geometry self s :
  ipam_wf self -> (net_prefix_len (ipam_cluster self) <= ipam_prefix_len self)%N ->
  s ∈ ipam_candidates self ->
  net_wf s /\ net_prefix_len s = ipam_prefix_len self /\ aligned s /\
  (ipnet_network (ipam_cluster self) <= net_addr s)%N /\
  (ipnet_broadcast s <= ipnet_broadcast (ipam_cluster self))%N.
Proof.
  intros [Hc Hp Hroom] Hle Hs. unfold ipam_candidates in Hs. apply elem_of_candidates in Hs.
  rewrite N2Nat.id in Hs. destruct Hs as (j & Hj & ->).
  pose proof (ipnet_network_spec _ Hc) as Hnet. pose proof (ipnet_broadcast_spec _ Hc) as Hbc.
  set (start := ipnet_network (ipam_cluster self)) in *.
  destruct (net_size_mono _ _ Hle) as (k & Hk & Hk0). rewrite Hk in Hnet, Hbc.
  set (size := net_size (ipam_prefix_len self)) in *.
  pose proof (net_size_pos (ipam_prefix_len self)) as Hpos. fold size in Hpos.
  rewrite Hbc in Hj, Hroom.
  pose proof (ceil_div_bounds (start + k * size - 1 - start) size Hpos) as [_ H2].
  assert ((j + 1) * size <= k * size)%N as Hjk.
  { apply N.mul_le_mono_r. apply N.le_succ_l in Hj. rewrite <- N.add_1_r in Hj.
    apply (N.mul_le_mono_r _ _ size) in Hj.
    assert ((j + 1) * size < (k + 1) * size)%N as Hlt by lia.
    apply N.mul_lt_mono_pos_r in Hlt; lia. }
  assert (net_wf (mkNet (start + j * size) (ipam_prefix_len self))) as Hwf.
  { split; simpl; [|lia]. lia. }
  assert (aligned (mkNet (start + j * size) (ipam_prefix_len self))) as Hal.
  { apply aligned_mult; [done|]. simpl. fold size.
    exists (net_addr (ipam_cluster self) / (k * size) * k + j)%N. lia. }
  split_and!; simpl; try done; [lia|].
  rewrite ipnet_broadcast_spec by done. unfold aligned in Hal. rewrite Hal. simpl. fold size. lia.
Qed.

Lemma first_free_Some self l s self' :
  first_free self l = (Some s, self') <->
  s ∈ l /\ s ∉ ipam_allocated self /\ self' = ipam_insert self s /\
  exists i, list_find (fun s => s ∉ ipam_allocated self) l = Some (i, s).
Proof.
  unfold first_free. destruct (list_find _ l) as [[i t]|] eqn:E.
  - pose proof E as E'. apply list_find_Some in E' as (Hi & Hf & _).
    apply list_elem_of_lookup_2 in Hi. split; [|naive_solver].
    intros [= <- <-]. split_and!; eauto.
  - split; [done|]. by intros (_ & _ & _ & i & ?).
Qed.

(** Distinct aligned networks of one prefix length do not share an address. *)
Lemma aligned_disjoint n m a :
  net_wf n -> net_wf m -> aligned n -> aligned m -> net_prefix_len n = net_prefix_len m ->
  in_net a n -> in_net a m -> n = m.
Proof.
  intros Hn Hm Han Ham Hp. unfold in_net.
  rewrite !ipnet_broadcast_spec by done. unfold aligned in *. rewrite Han, Ham.
  pose proof (proj1 (aligned_mult n Hn) Han) as [q1 H1].
  pose proof (proj1 (aligned_mult m Hm) Ham) as [q2 H2].
  rewrite <- Hp in H2 |- *. pose proof (net_size_pos (net_prefix_len n)) as Hpos.
  set (size := net_size (net_prefix_len n)) in *. intros Ha Hb.
  assert (q1 = q2) as ->.
  { destruct (N.lt_trichotomy q1 q2) as [Hl|[->|Hl]]; [|done|]; exfalso;
      apply N.le_succ_l, (N.mul_le_mono_r _ _ size) in Hl; lia. }
  destruct n, m; simpl in *; congruence.
Qed.

(** C11: A subnet handed out by [Ipam::allocate] was free, is recorded, has the
    requested prefix length, lies inside the cluster network, and shares no
    address with any subnet of that length already in use. *)
Theorem ipam_allocate_sound (self self' : Ipam) (s : Ipv4Net) :
  ipam_wf self -> (net_prefix_len (ipam_cluster self) <= ipam_prefix_len self)%N ->
  ipam_allocate self = Done (Some s, self') ->
  s ∉ ipam_allocated self /\ self' = ipam_insert self s /\
  net_prefix_len s = ipam_prefix_len self /\ aligned s /\
  (forall a, in_net a s -> in_net a (ipam_cluster self)) /\
  (forall o a, o ∈ ipam_allocated self -> net_wf o -> aligned o ->
     net_prefix_len o = ipam_prefix_len self -> in_net a s -> ~ in_net a o).
Proof.
  intros Hwf Hle Halloc.
  rewrite ipam_allocate_eq in Halloc by done. injection Halloc as H.
  apply first_free_Some in H as (Hin & Hfree & -> & _).
  destruct (candidate_geometry self s Hwf Hle Hin) as (Hs & Hps & Hal & Hlo & Hhi).
  split_and!; try done.
  - unfold in_net. intros a. unfold aligned in Hal. rewrite Hal. lia.
  - intros o a Ho How Hoa Hop Has Hao.
    assert (s = o) as -> by (eapply aligned_disjoint; eauto; congruence). done.
Qed.

(** Every aligned subnet of the cluster is a candidate. *)
Lemma aligned_candidate self s :
  ipam_wf self -> (net_prefix_len (ipam_cluster self) <= ipam_prefix_len self <= 31)%N ->
  net_wf s -> net_prefix_len s = ipam_prefix_len self -> aligned s ->
  in_net (net_addr s) (ipam_cluster self) -> s ∈ ipam_candidates self.
Proof.
  intros [Hc Hp Hroom] [Hle H31] Hs Hps Hal [Hlo Hhi]. unfold ipam_candidates.
  apply elem_of_candidates. rewrite N2Nat.id.
  destruct (proj1 (aligned_mult s Hs) Hal) as [q Hq]. rewrite Hps in Hq.
  pose proof (ipnet_network_spec _ Hc) as Hnet. pose proof (ipnet_broadcast_spec _ Hc) as Hbc.
  destruct (net_size_mono _ _ Hle) as (k & Hk & Hk0). rewrite Hk in Hnet, Hbc.
  set (start := ipnet_network (ipam_cluster self)) in *.
  set (c := (net_addr (ipam_cluster self) / (k * net_size (ipam_prefix_len self)))%N) in *.
  assert (2 <= net_size (ipam_prefix_len self))%N as H2.
  { unfold net_size. change 2%N with (2 ^ 1)%N at 1. apply N.pow_le_mono_r; lia. }
  set (size := net_size (ipam_prefix_len self)) in *.
  assert (c * k <= q)%N as Hcq.
  { apply (N.mul_le_mono_pos_r _ _ size); lia. }
  exists (q - c * k)%N. split.
  - rewrite Hbc. pose proof (ceil_div_bounds (start + k * size - 1 - start) size ltac:(lia)) as [H1 _].
    rewrite Hq, Hbc, Hnet in Hhi.
    assert (q < c * k + k)%N by (apply (N.mul_lt_mono_pos_r size); lia).
    apply (N.mul_lt_mono_pos_r size); [lia|]. eapply N.lt_le_trans; [|exact H1].
    assert ((q - c * k + 1) * size <= k * size)%N by (apply N.mul_le_mono_r; lia). lia.
  - destruct s as [a p]. simpl in *. subst p. f_equal. rewrite N.mul_sub_distr_r, Hnet. lia.
Qed.

(** When [Ipam::allocate] reports exhaustion, nothing changed and every
    aligned subnet of the requested length in the cluster is in use. *)
Theorem ipam_exhausted_complete (self self' : Ipam) (s : Ipv4Net) :
  ipam_wf self -> (net_prefix_len (ipam_cluster self) <= ipam_prefix_len self <= 31)%N ->
  ipam_allocate self = Done (None, self') ->
  net_wf s -> net_prefix_len s = ipam_prefix_len self -> aligned s ->
  in_net (net_addr s) (ipam_cluster self) ->
  self' = self /\ s ∈ ipam_allocated self.
Proof.
  intros Hwf Hle Halloc Hs Hps Hal Hin. rewrite ipam_allocate_eq in Halloc by done.
  injection Halloc as H. unfold first_free in H.
  destruct (list_find _ (ipam_candidates self)) as [[]|] eqn:E; [done|]. injection H as <-.
  split; [done|]. apply list_find_None in E. rewrite Forall_forall in E.
  apply dec_stable. apply E. by apply aligned_candidate.
Qed.
End ipam_laws.

(** ** Container addresses: specification *)

Definition sub_candidates `{Ipnet} (self : SubnetIpam) : list Ipv4Addr :=
  (fun offset => ipnet_network (sub_subnet self) + offset)%N <$> sub_offsets.

Definition sub_insert (self : SubnetIpam) (ip : Ipv4Addr) : SubnetIpam :=
  {| sub_subnet := sub_subnet self; sub_allocated := {[ip]} ∪ sub_allocated self |}.

Definition sub_first_free (self : SubnetIpam) (l : list Ipv4Addr) : option Ipv4Addr * SubnetIpam :=
  match list_find (fun ip => ip ∉ sub_allocated self) l with
  | Some (_, ip) => (Some ip, sub_insert self ip)
  | None => (None, self)
  end.

Lemma elem_of_sub_offsets k : k ∈ sub_offsets <-> (3 <= k < 255)%N.
Proof.
  unfold sub_offsets. rewrite list_elem_of_fmap. split.
  - intros (i & -> & Hi%elem_of_seq). lia.
  - intros Hk. exists (N.to_nat k). split; [by rewrite N2Nat.id|]. apply elem_of_seq. lia.
Qed.

Section subnet_laws.
Context {B : Build} {I : Ipnet} {L : IpnetLaws I}.

Lemma sub_allocate_loop_eq self base offsets :
  (base + 254 <= u32_max)%N -> Forall (fun k => k < 255)%N offsets ->
  sub_allocate_loop self base offsets =
  Done (sub_first_free self ((fun k => base + k)%N <$> offsets)).
Proof.
  intros Hb. induction 1 as [|k l Hk Hl IH]; simpl; [done|].
  unfold add_u32. destruct (N.leb_spec (base + k) u32_max); [|lia].
  unfold sub_first_free. cbn [list_find fmap list_fmap].
  destruct (decide (base + k ∈ sub_allocated self))%N, (decide (base + k ∉ sub_allocated self))%N; try done.
  rewrite IH. unfold sub_first_free. by destruct (list_find _ _) as [[]|].
Qed.

Lemma sub_allocate_eq self :
  (ipnet_network (sub_subnet self) + 254 <= u32_max)%N ->
  sub_allocate self = Done (sub_first_free self (sub_candidates self)).
Proof.
  intros Hb. apply sub_allocate_loop_eq; [done|]. apply Forall_forall.
  intros k ?%elem_of_sub_offsets. lia.
Qed.

Lemma subnet_room n :
  net_wf n -> (net_prefix_len n <= 24)%N ->
  (ipnet_network n + 255 <= u32_max)%N /\ (ipnet_network n + 255 <= ipnet_broadcast n)%N.
Proof.
  intros Hwf Hp. rewrite ipnet_broadcast_spec, ipnet_network_spec by done.
  destruct (net_size_mono (net_prefix_len n) 24 Hp) as (k & Hk & Hk0).
  change (net_size 24) with 256%N in Hk. rewrite Hk.
  destruct Hwf as [Ha _]. unfold u32_max in *.
  assert (net_addr n / (k * 256) * k <= 16777215)%N.
  { replace (k * 256)%N with (256 * k)%N by lia. rewrite <- N.Div0.div_div, N.mul_comm.
    etransitivity; [apply N.Div0.mul_div_le|]. apply N.lt_succ_r, N.Div0.div_lt_upper_bound. lia. }
  split; lia.
Qed.

(** C39: [SubnetIpam::allocate] on a subnet of prefix length at most 24 always
    returns.  An address it hands out was free, is recorded, lies in the
    subnet, and is none of the network, machine, container-gateway and
    broadcast addresses; when it hands out none, all 252 addresses it manages
    are in use. *)
Theorem sub_allocate_spec (self : SubnetIpam) :
  net_wf (sub_subnet self) -> (net_prefix_len (sub_subnet self) <= 24)%N ->
  match sub_allocate self with
  | Done (Some ip, self') =>
      ip ∉ sub_allocated self /\ self' = sub_insert self ip /\ in_net ip (sub_subnet self) /\
      Some ip <> machine_ip (sub_subnet self) /\ Some ip <> container_ip (sub_subnet self) /\
      ip <> ipnet_network (sub_subnet self) /\ ip <> ipnet_broadcast (sub_subnet self)
  | Done (None, self') =>
      self' = self /\
      forall k, (3 <= k < 255)%N -> (ipnet_network (sub_subnet self) + k)%N ∈ sub_allocated self
  | Panic | OutOfFuel => False
  end.
Proof.
  intros Hwf Hp. destruct (subnet_room _ Hwf Hp) as [Hroom Hbc].
  rewrite sub_allocate_eq by lia. unfold sub_first_free.
  destruct (list_find _ (sub_candidates self)) as [[i ip]|] eqn:E.
  - apply list_find_Some in E as (Hi & Hf & _). apply list_elem_of_lookup_2 in Hi.
    unfold sub_candidates in Hi. apply list_elem_of_fmap in Hi as (k & -> & Hk%elem_of_sub_offsets).
    unfold machine_ip, container_ip, add_u32, in_net.
    destruct (N.leb_spec (ipnet_network (sub_subnet self) + 1) u32_max); [|lia].
    destruct (N.leb_spec (ipnet_network (sub_subnet self) + 2) u32_max); [|lia].
    split_and!; try done; try lia; intros [=]; lia.
  - split; [done|]. intros k Hk. apply list_find_None in E. rewrite Forall_forall in E.
    apply dec_stable, E. apply list_elem_of_fmap. exists k. split; [done|]. by apply elem_of_sub_offsets.
Qed.

(** Releasing an address makes it available again and leaves the others. *)
Lemma sub_release_reuse self ip x :
  x ∈ sub_allocated (sub_release self ip) <-> x ∈ sub_allocated self /\ x <> ip.
Proof. unfold sub_release. simpl. set_solver. Qed.
End subnet_laws.

(** ** Witnesses, on the network 10.210.0.0/16 cut into /24 subnets *)

Definition debug_build : Build := {| overflow_checks := true |}.
Definition sample_subnet (k : N) : Ipv4Net := mkNet (181534720 + 256 * k) 24.
Definition sample_ipam : Ipam := {|
  ipam_cluster := mkNet 181534720 16; ipam_prefix_len := 24;
  ipam_allocated := {[ sample_subnet 0; sample_subnet 1 ]} |}.
(** A full cluster: 10.210.0.0/30 cut into two /31 subnets. *)
Definition full_ipam : Ipam := {|
  ipam_cluster := mkNet 181534720 30; ipam_prefix_len := 31;
  ipam_allocated := {[ mkNet 181534720 31; mkNet 181534722 31 ]} |}.
Definition sample_sub_ipam : SubnetIpam := {|
  sub_subnet := sample_subnet 0; sub_allocated := {[ 181534723%N ]} |}.

Lemma sample_ipam_wf : @ipam_wf ref_ipnet sample_ipam.
Proof. split; vm_compute; repeat split; discriminate. Qed.

Lemma full_ipam_wf : @ipam_wf ref_ipnet full_ipam.
Proof. split; vm_compute; repeat split; discriminate. Qed.

Lemma ipam_allocate_first_free_witness :
  @ipam_allocate debug_build ref_ipnet sample_ipam =
  Done (Some (sample_subnet 2), ipam_insert sample_ipam (sample_subnet 2)).
Proof.
  transitivity (Done (@first_free sample_ipam (@ipam_candidates ref_ipnet sample_ipam))).
  - exact (@ipam_allocate_first_free debug_build ref_ipnet ref_ipnet_laws sample_ipam sample_ipam_wf).
  - vm_compute. reflexivity.
Defined.

Lemma ipam_allocate_sound_witness :
  sample_subnet 2 ∉ ipam_allocated sample_ipam /\
  (forall a, @in_net ref_ipnet a (sample_subnet 2) -> @in_net ref_ipnet a (ipam_cluster sample_ipam)).
Proof.
  destruct (@ipam_allocate_sound debug_build ref_ipnet ref_ipnet_laws sample_ipam
    (ipam_insert sample_ipam (sample_subnet 2)) (sample_subnet 2) sample_ipam_wf)
    as (H1 & _ & _ & _ & H2 & _).
  - vm_compute. discriminate.
  - vm_compute. reflexivity.
  - exact (conj H1 H2).
Defined.

Lemma ipam_exhausted_complete_witness :
  full_ipam = full_ipam /\ mkNet 181534722 31 ∈ ipam_allocated full_ipam.
Proof.
  apply (@ipam_exhausted_complete debug_build ref_ipnet ref_ipnet_laws full_ipam full_ipam
    (mkNet 181534722 31) full_ipam_wf); vm_compute; repeat split; discriminate.
Defined.

Lemma sub_allocate_spec_witness :
  exists ip self', @sub_allocate debug_build ref_ipnet sample_sub_ipam = Done (Some ip, self') /\
    ip ∉ sub_allocated sample_sub_ipam.
Proof.
  assert (@net_wf (sub_subnet sample_sub_ipam)) as Hwf by (vm_compute; repeat split; discriminate).
  assert (net_prefix_len (sub_subnet sample_sub_ipam) <= 24)%N as Hp by (vm_compute; discriminate).
  pose proof (@sub_allocate_spec debug_build ref_ipnet ref_ipnet_laws sample_sub_ipam Hwf Hp) as H.
  exists 181534724%N, (sub_insert sample_sub_ipam 181534724).
  assert (@sub_allocate debug_build ref_ipnet sample_sub_ipam =
    Done (Some 181534724%N, sub_insert sample_sub_ipam 181534724)) as E by (vm_compute; reflexivity).
  rewrite E in H. exact (conj E (proj1 H)).
Defined.
