(* ===== verification/Liveness.v ===== *)
(** * Liveness and the local machine record

    [machine_liveness.rs], and the background tasks that maintain the local
    machine's own record: [self_record.rs] (the single writer), [self_liveness.rs],
    [endpoint_refresh.rs], [participation.rs], [heartbeat.rs].  A task is the
    function its loop body computes; what the loop waits for (the clock, the
    probes, the store's answers) is an argument. *)

From S2P Require Import Prelude Order Text Types.

(** ** Liveness of a machine *)

Definition STALE_HEARTBEAT_SECS : N := 30.
Inductive MachineLiveness := Fresh | Stale | Down.
#[global] Instance MachineLiveness_eq_dec : EqDecision MachineLiveness.
Proof. solve_decision. Defined.

Definition machine_liveness (machine : MachineRecord) (now : N) : MachineLiveness :=
  if decide (mr_status machine = MsDown) then Down
  else if ((mr_last_heartbeat machine =? 0) ||
           (STALE_HEARTBEAT_SECS <? now - mr_last_heartbeat machine))%N%bool then Stale
  else Fresh.

Definition machine_is_fresh (machine : MachineRecord) (now : N) : bool :=
  bool_decide (machine_liveness machine now = Fresh).

Lemma machine_is_fresh_spec m now :
  machine_is_fresh m now = true <->
  mr_status m <> MsDown /\ mr_last_heartbeat m <> 0%N /\ (now <= mr_last_heartbeat m + 30)%N.
Proof.
  unfold machine_is_fresh, machine_liveness, STALE_HEARTBEAT_SECS. rewrite bool_decide_eq_true.
  case_decide; [naive_solver|].
  destruct (N.eqb_spec (mr_last_heartbeat m) 0), (N.ltb_spec 30 (now - mr_last_heartbeat m)); simpl;
    (split; [intros ?; first [discriminate | split_and!; [done|done|lia]]
            | intros (? & ? & ?); first [done | exfalso; lia]]).
Qed.

(** ** The single writer of the local record *)

Inductive SelfRecordMutation :=
| RefreshLiveness (now : N) (bridge_ip : option OverlayIp)
| SetEndpoints (endpoints : list string)
| SetParticipation (participation : Participation)
| ReplaceRecord (r : MachineRecord).

Definition apply_mutation (record : MachineRecord) (mutation : SelfRecordMutation) : MachineRecord :=
  match mutation with
  | RefreshLiveness now bridge_ip => {|
      mr_id := mr_id record; mr_public_key := mr_public_key record;
      mr_overlay_ip := mr_overlay_ip record; mr_subnet := mr_subnet record;
      mr_bridge_ip := match bridge_ip with Some ip => Some ip | None => mr_bridge_ip record end;
      mr_endpoints := mr_endpoints record; mr_status := MsUp;
      mr_participation := mr_participation record; mr_last_heartbeat := now;
      mr_created_at := if (mr_created_at record =? 0)%N then now else mr_created_at record;
      mr_updated_at := now; mr_labels := mr_labels record |}
  | SetEndpoints endpoints => {|
      mr_id := mr_id record; mr_public_key := mr_public_key record;
      mr_overlay_ip := mr_overlay_ip record; mr_subnet := mr_subnet record;
      mr_bridge_ip := mr_bridge_ip record; mr_endpoints := endpoints; mr_status := mr_status record;
      mr_participation := mr_participation record; mr_last_heartbeat := mr_last_heartbeat record;
      mr_created_at := mr_created_at record; mr_updated_at := mr_updated_at record;
      mr_labels := mr_labels record |}
  | SetParticipation participation => {|
      mr_id := mr_id record; mr_public_key := mr_public_key record;
      mr_overlay_ip := mr_overlay_ip record; mr_subnet := mr_subnet record;
      mr_bridge_ip := mr_bridge_ip record; mr_endpoints := mr_endpoints record;
      mr_status := mr_status record; mr_participation := participation;
      mr_last_heartbeat := mr_last_heartbeat record; mr_created_at := mr_created_at record;
      mr_updated_at := mr_updated_at record; mr_labels := mr_labels record |}
  | ReplaceRecord next => next
  end.

(** The writer task: its local copy, the shared record and the store it writes. *)
Record Writer (S : Type) := {
  wr_current : MachineRecord;
  wr_authoritative_self : MachineRecord;
  wr_store : S
}.
Arguments wr_current {S} w : rename.
Arguments wr_authoritative_self {S} w : rename.
Arguments wr_store {S} w : rename.
Arguments Build_Writer {S} _ _ _.

Section writer.
Context {S : Type} (upsert_self_machine : MachineRecord -> S -> Res unit * S).

(** The task starts from the shared record. *)
Definition writer_start (authoritative_self : MachineRecord) (store : S) : Writer S :=
  Build_Writer authoritative_self authoritative_self store.

(** One command of [run_self_record_writer_task]; the value is the reply sent
    on [done]. *)
Definition writer_step (w : Writer S) (mutation : SelfRecordMutation)
    : option MachineRecord * Writer S :=
  let next := apply_mutation (wr_current w) mutation in
  if decide (next = wr_current w) then (Some next, w)
  else match upsert_self_machine next (wr_store w) with
       | (Ok tt, store) => (Some next, Build_Writer next next store)
       | (Err _, store) => (None, Build_Writer (wr_current w) (wr_authoritative_self w) store)
       end.

(** A sequence of commands, with the ones that were acknowledged. *)
Fixpoint writer_run (w : Writer S) (cmds : list SelfRecordMutation)
    : list SelfRecordMutation * Writer S :=
  match cmds with
  | [] => ([], w)
  | c :: cmds =>
      let '(reply, w1) := writer_step w c in
      let '(acked, w2) := writer_run w1 cmds in
      (match reply with Some _ => c :: acked | None => acked end, w2)
  end.
End writer.

(** ** Tasks that feed the writer *)

(** [publish_liveness]: [None] is a clock before the epoch. *)
Definition publish_liveness (clock : option N) (bridge_ip : option OverlayIp)
    : option SelfRecordMutation :=
  match clock with
  | Some now => Some (RefreshLiveness now bridge_ip)
  | None => None
  end.

(** The tick of [run_endpoint_refresh_task]. *)
Definition endpoint_refresh_tick (machine_id : MachineId) (detected : Res (list string))
    (current : MachineRecord) : option SelfRecordMutation :=
  match detected with
  | Err _ => None
  | Ok [] => None
  | Ok new_endpoints =>
      if decide (mr_id current <> machine_id) then None
      else if decide (mr_endpoints current <> new_endpoints) then Some (SetEndpoints new_endpoints)
      else None
  end.

(** ** Participation *)

Definition PARTICIPATION_HYSTERESIS_SAMPLES : N := 3.
Definition u8_max : N := 255.

Record ParticipationState := {
  ps_good : N;                              (* consecutive_good_samples *)
  ps_bad : N;                               (* consecutive_bad_samples *)
  ps_forced : option Participation          (* forced_participation *)
}.
Definition participation_default : ParticipationState :=
  {| ps_good := 0; ps_bad := 0; ps_forced := None |}.

Inductive TcpProbeStatus := Reachable | Unreachable.
#[global] Instance TcpProbeStatus_eq_dec : EqDecision TcpProbeStatus.
Proof. solve_decision. Defined.
Record TcpProbeResult := { tp_status : TcpProbeStatus; tp_rtt : option Duration }.
Definition probe_reachable (rtt : Duration) : TcpProbeResult :=
  {| tp_status := Reachable; tp_rtt := Some rtt |}.
Definition probe_unreachable : TcpProbeResult := {| tp_status := Unreachable; tp_rtt := None |}.

Record RequiredPeerHealth := {
  rph_required_peer_ids : list string;
  rph_unhealthy_required_peer_ids : list string
}.
Inductive PeerHealthSample := Healthy | Unhealthy.
#[global] Instance PeerHealthSample_eq_dec : EqDecision PeerHealthSample.
Proof. solve_decision. Defined.

Definition rph_healthy (h : RequiredPeerHealth) : bool :=
  match rph_unhealthy_required_peer_ids h with [] => true | _ => false end.
Definition rph_sample (h : RequiredPeerHealth) : PeerHealthSample :=
  if rph_healthy h then Healthy else Unhealthy.

Definition participates (m : MachineRecord) : bool :=
  match mr_participation m with Disabled => false | Enabled | Draining => true end.

Definition required_peers_for_participation (machines : list MachineRecord) (machine_id : MachineId)
    (now : N) : list MachineRecord :=
  filter (fun m => mr_id m <> machine_id /\ participates m = true /\ machine_is_fresh m now = true) machines.

Definition required_peer_is_healthy (peer : MachineRecord)
    (overlay_probe_results : gmap (list N) TcpProbeResult) : bool :=
  match tp_status <$> overlay_probe_results !! mr_overlay_ip peer with
  | Some Reachable => true
  | _ => false
  end.

(** [probe] stands for [probe_overlay_ips_parallel]. *)
Definition required_peers_health (read_peers_ok : bool)
    (probe : list OverlayIp -> gmap (list N) TcpProbeResult) (required_peers : list MachineRecord)
    : RequiredPeerHealth :=
  let ids := mr_id <$> required_peers in
  match required_peers with
  | [] => {| rph_required_peer_ids := ids; rph_unhealthy_required_peer_ids := [] |}
  | _ =>
      if negb read_peers_ok then
        {| rph_required_peer_ids := ids; rph_unhealthy_required_peer_ids := ids |}
      else
        let results := probe (mr_overlay_ip <$> required_peers) in
        {| rph_required_peer_ids := ids;
           rph_unhealthy_required_peer_ids :=
             mr_id <$> filter (fun p => required_peer_is_healthy p results = false) required_peers |}
  end.

(** [saturating_add(1).min(3)] on [u8]. *)
Definition bump (n : N) : N := N.min (N.min (n + 1) u8_max) PARTICIPATION_HYSTERESIS_SAMPLES.

Definition update_hysteresis (state : ParticipationState) (sample : PeerHealthSample) : ParticipationState :=
  match sample with
  | Healthy => {| ps_bad := 0; ps_good := bump (ps_good state); ps_forced := ps_forced state |}
  | Unhealthy => {| ps_good := 0; ps_bad := bump (ps_bad state); ps_forced := ps_forced state |}
  end.

Definition next_participation (state : ParticipationState) (current : Participation) : Participation :=
  match ps_forced state with
  | Some p => p
  | None =>
      match current with
      | Disabled => if (PARTICIPATION_HYSTERESIS_SAMPLES <=? ps_good state)%N then Enabled else Disabled
      | Enabled => if (PARTICIPATION_HYSTERESIS_SAMPLES <=? ps_bad state)%N then Disabled else Enabled
      | Draining => Draining
      end
  end.

(** [participation_once]: the new hysteresis state and the mutation sent, if any. *)
Definition participation_once (machine_id : MachineId) (current : MachineRecord)
    (list_machines : Res (list MachineRecord)) (now : N) (read_peers_ok : bool)
    (probe : list OverlayIp -> gmap (list N) TcpProbeResult) (state : ParticipationState)
    : ParticipationState * option SelfRecordMutation :=
  match list_machines with
  | Err _ => (state, None)
  | Ok machines =>
      let required_peers := required_peers_for_participation machines machine_id now in
      let peer_health := required_peers_health read_peers_ok probe required_peers in
      let state := update_hysteresis state (rph_sample peer_health) in
      let next := next_participation state (mr_participation current) in
      (state, if decide (next = mr_participation current) then None else Some (SetParticipation next))
  end.

Inductive ParticipationCommand := ParticipationTick | SetForced (participation : option Participation).

Definition set_forced (state : ParticipationState) (p : option Participation) : ParticipationState :=
  {| ps_good := ps_good state; ps_bad := ps_bad state; ps_forced := p |}.

(** One iteration of [run_participation_task]: an interval tick or [TickNow],
    or a forced value followed by an evaluation. *)
Definition participation_step (machine_id : MachineId) (current : MachineRecord)
    (list_machines : Res (list MachineRecord)) (now : N) (read_peers_ok : bool)
    (probe : list OverlayIp -> gmap (list N) TcpProbeResult) (state : ParticipationState)
    (command : ParticipationCommand) : ParticipationState * option SelfRecordMutation :=
  participation_once machine_id current list_machines now read_peers_ok probe
    (match command with ParticipationTick => state | SetForced p => set_forced state p end).

(** ** The writer keeps the local record consistent *)

Section writer_laws.
Context {S : Type} (upsert_self_machine : MachineRecord -> S -> Res unit * S).

Lemma writer_step_spec w c :
  wr_current w = wr_authoritative_self w ->
  let '(reply, w') := writer_step upsert_self_machine w c in
  wr_current w' = wr_authoritative_self w' /\
  wr_current w' = match reply with Some _ => apply_mutation (wr_current w) c | None => wr_current w end /\
  (forall r, reply = Some r -> r = wr_current w').
Proof.
  intros Hw. unfold writer_step. case_decide as Heq; [naive_solver|].
  destruct (upsert_self_machine _ _) as [[[]|e] st]; simpl; naive_solver.
Qed.

Lemma writer_run_fold w cmds :
  wr_current w = wr_authoritative_self w ->
  let '(acked, w') := writer_run upsert_self_machine w cmds in
  wr_current w' = wr_authoritative_self w' /\
  wr_current w' = foldl apply_mutation (wr_current w) acked.
Proof.
  revert w. induction cmds as [|c cmds IH]; intros w Hw; simpl; [done|].
  pose proof (writer_step_spec w c Hw) as Hs.
  destruct (writer_step _ w c) as [reply w1]. destruct Hs as (Hw1 & Hc & _).
  pose proof (IH w1 Hw1) as H. destruct (writer_run _ w1 cmds) as [acked w2].
  destruct H as [H1 H2]. split; [done|]. rewrite H2, Hc. by destruct reply.
Qed.
End writer_laws.

(** The commands of the background tasks; [ReplaceRecord] is the operator's. *)
Definition is_replace (c : SelfRecordMutation) : bool :=
  match c with ReplaceRecord _ => true | _ => false end.
Definition get_participation (c : SelfRecordMutation) : option Participation :=
  match c with SetParticipation p => Some p | _ => None end.
Definition get_endpoints (c : SelfRecordMutation) : option (list string) :=
  match c with SetEndpoints e => Some e | _ => None end.
Definition get_heartbeat (c : SelfRecordMutation) : option N :=
  match c with RefreshLiveness now _ => Some now | _ => None end.

Lemma default_last_snoc {A} (d : A) (l : list A) (x : A) : default d (last (l ++ [x])) = x.
Proof. by rewrite last_snoc. Qed.

Lemma fold_mutations r cmds :
  Forall (fun c => is_replace c = false) cmds ->
  let r' := foldl apply_mutation r cmds in
  mr_participation r' = default (mr_participation r) (last (omap get_participation cmds)) /\
  mr_endpoints r' = default (mr_endpoints r) (last (omap get_endpoints cmds)) /\
  mr_last_heartbeat r' = default (mr_last_heartbeat r) (last (omap get_heartbeat cmds)) /\
  (mr_id r', mr_public_key r', mr_overlay_ip r', mr_subnet r', mr_labels r') =
  (mr_id r, mr_public_key r, mr_overlay_ip r, mr_subnet r, mr_labels r) /\
  (mr_created_at r <> 0%N -> mr_created_at r' = mr_created_at r).
Proof.
  induction cmds as [|c cmds IH] using rev_ind; intros Hall; [done|].
  apply Forall_app in Hall as [Hall [Hc _]%Forall_cons].
  destruct (IH Hall) as (H1 & H2 & H3 & H4 & H5). simpl.
  rewrite foldl_app, !omap_app. simpl. set (r1 := foldl apply_mutation r cmds) in *.
  destruct c; simpl; rewrite ?app_nil_r, ?last_snoc; simpl; try discriminate; split_and!; try done.
  intros Hne. rewrite (H5 Hne). by destruct (N.eqb_spec (mr_created_at r) 0).
Qed.

(** No update of the local record is lost.  Whatever order the liveness,
    endpoint and participation tasks send their commands in, and whichever of
    them the store refuses, the writer's copy and the shared record agree, each
    field holds the last acknowledged value for it, the identity fields never
    change and the creation time is set at most once. *)
Theorem writer_no_lost_update {S} (upsert : MachineRecord -> S -> Res unit * S)
    (r : MachineRecord) (store : S) (cmds acked : list SelfRecordMutation) (w : Writer S) :
  Forall (fun c => is_replace c = false) cmds ->
  writer_run upsert (writer_start r store) cmds = (acked, w) ->
  let r' := wr_authoritative_self w in
  wr_current w = r' /\
  mr_participation r' = default (mr_participation r) (last (omap get_participation acked)) /\
  mr_endpoints r' = default (mr_endpoints r) (last (omap get_endpoints acked)) /\
  mr_last_heartbeat r' = default (mr_last_heartbeat r) (last (omap get_heartbeat acked)) /\
  (mr_id r', mr_public_key r', mr_overlay_ip r', mr_subnet r', mr_labels r') =
  (mr_id r, mr_public_key r, mr_overlay_ip r, mr_subnet r, mr_labels r) /\
  (mr_created_at r <> 0%N -> mr_created_at r' = mr_created_at r).
Proof.
  intros Hall Hrun. pose proof (writer_run_fold upsert (writer_start r store) cmds eq_refl) as H.
  rewrite Hrun in H. destruct H as [Hw Hc]. simpl in *. rewrite Hw in Hc.
  split; [done|]. rewrite Hc. apply fold_mutations.
  clear Hw Hc. assert (forall w0, (writer_run upsert w0 cmds).1 ⊆ cmds) as Hsub.
  { clear. induction cmds as [|c cmds IH]; intros w0; simpl; [done|].
    destruct (writer_step upsert w0 c) as [reply w1]. specialize (IH w1).
    destruct (writer_run upsert w1 cmds) as [acked w2]. simpl in *. destruct reply; set_solver. }
  specialize (Hsub (writer_start r store)). rewrite Hrun in Hsub.
  rewrite Forall_forall in *. simpl in Hsub. set_solver.
Qed.

(** ** Participation follows three consecutive samples *)

Definition all_healthy (read_peers_ok : bool) (probe : list OverlayIp -> gmap (list N) TcpProbeResult)
    (peers : list MachineRecord) : Prop :=
  peers = [] \/
  read_peers_ok = true /\
  Forall (fun p => tp_status <$> probe (mr_overlay_ip <$> peers) !! mr_overlay_ip p = Some Reachable) peers.

Lemma required_peers_sample read_ok probe peers :
  rph_sample (required_peers_health read_ok probe peers) = Healthy <-> all_healthy read_ok probe peers.
Proof.
  unfold required_peers_health, rph_sample, rph_healthy, all_healthy.
  destruct peers as [|m peers]; [naive_solver|]. destruct read_ok; simpl; [|naive_solver].
  set (results := probe _). set (l := m :: peers).
  destruct (mr_id <$> filter (fun p => required_peer_is_healthy p results = false) l) as [|i ids] eqn:E.
  - split; [|done]. intros _. right. split; [done|]. apply fmap_nil_inv in E.
    apply Forall_forall. intros p Hp.
    assert (p ∉ filter (fun p => required_peer_is_healthy p results = false) l) as Hnot.
    { rewrite E. apply not_elem_of_nil. }
    rewrite list_elem_of_filter in Hnot. unfold required_peer_is_healthy in Hnot.
    destruct (tp_status <$> results !! mr_overlay_ip p) as [[]|]; naive_solver.
  - split; [done|]. intros [?|[_ Hall]]; [done|]. exfalso.
    assert (i ∈ mr_id <$> filter (fun p => required_peer_is_healthy p results = false) l) as Hi
      by (rewrite E; by left).
    apply list_elem_of_fmap in Hi as (p & _ & [Hp Hin]%list_elem_of_filter).
    rewrite Forall_forall in Hall. specialize (Hall p Hin).
    unfold required_peer_is_healthy in Hp. by rewrite Hall in Hp.
Qed.

(** Length of the run of [x] at the head of a list. *)
Fixpoint run_length (x : PeerHealthSample) (l : list PeerHealthSample) : nat :=
  match l with
  | [] => 0
  | y :: l => if decide (y = x) then S (run_length x l) else 0
  end.

Definition hysteresis (history : list PeerHealthSample) : ParticipationState :=
  foldl update_hysteresis participation_default history.

Lemma hysteresis_counts history :
  ps_good (hysteresis history) = N.min (N.of_nat (run_length Healthy (reverse history))) 3 /\
  ps_bad (hysteresis history) = N.min (N.of_nat (run_length Unhealthy (reverse history))) 3 /\
  ps_forced (hysteresis history) = None.
Proof.
  unfold hysteresis. induction history as [|x history IH] using rev_ind; [done|].
  rewrite foldl_app, reverse_snoc. destruct IH as (Hg & Hb & Hf).
  destruct x; simpl; rewrite ?Hg, ?Hb; unfold bump, u8_max, PARTICIPATION_HYSTERESIS_SAMPLES;
    split_and!; try done; lia.
Qed.

Lemma run_length_ge x n history :
  (n <= run_length x (reverse history))%nat <-> exists h, history = h ++ replicate n x.
Proof.
  revert history. induction n as [|n IH]; intros history.
  - split; [intros _; exists history; by rewrite app_nil_r|lia].
  - destruct history as [|y history _] using rev_ind.
    { simpl. split; [lia|]. intros (h & Hh). by destruct h. }
    rewrite reverse_snoc, replicate_S_end. simpl. case_decide as Hy.
    + subst y. rewrite <- Nat.succ_le_mono, IH. split.
      * intros (h & ->). exists h. by rewrite app_assoc.
      * intros (h & Hh). rewrite app_assoc in Hh. apply app_inj_tail in Hh as [-> _]. eauto.
    + split; [lia|]. intros (h & Hh). rewrite app_assoc in Hh. apply app_inj_tail in Hh as [_ ?]. done.
Qed.

(** The decision after a sample, in terms of the whole history. *)
Lemma hysteresis_decision history sample :
  (next_participation (hysteresis (history ++ [sample])) Disabled =
     if decide (sample = Healthy /\ (2 <= run_length Healthy (reverse history))%nat) then Enabled else Disabled) /\
  (next_participation (hysteresis (history ++ [sample])) Enabled =
     if decide (sample = Unhealthy /\ (2 <= run_length Unhealthy (reverse history))%nat) then Disabled else Enabled) /\
  next_participation (hysteresis (history ++ [sample])) Draining = Draining.
Proof.
  destruct (hysteresis_counts (history ++ [sample])) as (Hg & Hb & Hf).
  unfold next_participation. rewrite Hf, Hg, Hb, reverse_snoc. unfold PARTICIPATION_HYSTERESIS_SAMPLES.
  destruct sample; simpl; split_and!; try done.
  all: match goal with |- context [(?a <=? ?b)%N] => destruct (N.leb_spec a b) end;
    case_decide; try done; lia || naive_solver lia.
Qed.

(** Participation has a three-sample hysteresis.  A tick that read the
    machine list adds one sample, healthy exactly when every fresh participating
    peer answered its probe; it switches a disabled machine on exactly when this
    and the two previous samples are healthy, an enabled machine off exactly
    when this and the two previous samples are unhealthy, and never touches a
    draining machine. *)
Theorem participation_once_hysteresis (id : MachineId) (current : MachineRecord)
    (machines : list MachineRecord) (now : N) (read_ok : bool)
    (probe : list OverlayIp -> gmap (list N) TcpProbeResult) (history : list PeerHealthSample) :
  let peers := required_peers_for_participation machines id now in
  let '(state, sent) := participation_once id current (Ok machines) now read_ok probe (hysteresis history) in
  (exists sample, state = hysteresis (history ++ [sample]) /\
     (sample = Healthy <-> all_healthy read_ok probe peers)) /\
  match mr_participation current with
  | Disabled =>
      (sent = Some (SetParticipation Enabled) <->
         all_healthy read_ok probe peers /\ exists h, history = h ++ [Healthy; Healthy]) /\
      (sent = None \/ sent = Some (SetParticipation Enabled))
  | Enabled =>
      (sent = Some (SetParticipation Disabled) <->
         ~ all_healthy read_ok probe peers /\ exists h, history = h ++ [Unhealthy; Unhealthy]) /\
      (sent = None \/ sent = Some (SetParticipation Disabled))
  | Draining => sent = None
  end.
Proof.
  intros peers. unfold participation_once. fold peers.
  pose proof (required_peers_sample read_ok probe peers) as Hs.
  set (sample := rph_sample _) in *.
  assert (update_hysteresis (hysteresis history) sample = hysteresis (history ++ [sample])) as Hh.
  { unfold hysteresis. by rewrite foldl_app. }
  rewrite Hh. destruct (hysteresis_decision history sample) as (Hd & He & Hdr).
  split; [eauto|].
  pose proof (run_length_ge Healthy 2 history) as Hrh. pose proof (run_length_ge Unhealthy 2 history) as Hru.
  simpl in Hrh, Hru.
  destruct (mr_participation current); rewrite ?Hd, ?He, ?Hdr.
  - case_decide as Hc; case_decide as Hx; try done; rewrite <- Hs, <- Hrh; naive_solver.
  - assert (sample = Unhealthy <-> ~ all_healthy read_ok probe peers) as Hs'.
    { rewrite <- Hs. destruct sample; naive_solver. }
    case_decide as Hc; case_decide as Hx; try done; rewrite <- Hs', <- Hru; naive_solver.
  - by case_decide.
Qed.

(** ** Witness *)

Definition sample_record : MachineRecord := {|
  mr_id := "m1"; mr_public_key := []; mr_overlay_ip := [253%N]; mr_subnet := None; mr_bridge_ip := None;
  mr_endpoints := []; mr_status := MsUnknown; mr_participation := Disabled; mr_last_heartbeat := 0;
  mr_created_at := 1; mr_updated_at := 1; mr_labels := ∅ |}.

(** A store that refuses its second write. *)
Definition flaky_upsert (_ : MachineRecord) (writes : nat) : Res unit * nat :=
  (if decide (writes = 1) then Err (Operation "upsert" "down") else Ok tt, S writes).

Definition sample_commands : list SelfRecordMutation :=
  [SetEndpoints ["10.0.0.1:51820"]; SetParticipation Enabled; SetParticipation Draining].

Lemma writer_no_lost_update_witness :
  let '(_, w) := writer_run flaky_upsert (writer_start sample_record 0) sample_commands in
  wr_current w = wr_authoritative_self w /\
  mr_participation (wr_authoritative_self w) = Draining /\
  mr_endpoints (wr_authoritative_self w) = ["10.0.0.1:51820"].
Proof.
  destruct (writer_no_lost_update flaky_upsert sample_record 0 sample_commands
    [SetEndpoints ["10.0.0.1:51820"]; SetParticipation Draining]
    (writer_run flaky_upsert (writer_start sample_record 0) sample_commands).2) as (H1 & H2 & H3 & _).
  - repeat constructor.
  - vm_compute. reflexivity.
  - exact (conj H1 (conj H2 H3)).
Defined.
