(* ===== verification/Store.v ===== *)
(** * The store

    [ployz-store-api]: the store traits of [traits.rs] as classes over an
    abstract state, with the laws their callers rely on, and the in-memory store
    of [memory.rs], which implements them.

    A method takes and returns the state; methods that only read do not return
    it.  Subscriptions are bounded channels: [broadcast] drops an event for a
    subscriber whose channel is full and forgets a subscriber that closed. *)

From S2P Require Import Prelude Order Text Types.

Record DeployCommit := {
  dc_namespace : Namespace;
  dc_removed_services : list string;
  dc_releases : list ServiceReleaseRecord;
  dc_deploy : DeployRecord
}.

Definition release_key (r : ServiceReleaseRecord) : Namespace * string := (rel_namespace r, rel_service r).
Definition revision_key (r : ServiceRevisionRecord) : Namespace * string * string :=
  (srv_namespace r, srv_service r, srv_revision_hash r).

(** The services a commit writes or removes. *)
Definition touched_services (c : DeployCommit) : list string :=
  dc_removed_services c ++ (rel_service <$> dc_releases c).

(** The effect of a commit on the releases: all services it touches are
    replaced at once. *)
Definition commit_releases (c : DeployCommit) (m : gmap (Namespace * string) ServiceReleaseRecord)
    : gmap (Namespace * string) ServiceReleaseRecord :=
  insert_all release_key
    (filter (fun kv => ~ (kv.1.1 = dc_namespace c /\ kv.1.2 ∈ touched_services c)) m)
    (dc_releases c).

(** ** The in-memory store *)

(** A bounded channel: what is queued, and whether the receiver is gone. *)
Record Channel (A : Type) := { ch_queue : list A; ch_closed : bool }.
Arguments ch_queue {A}.
Arguments ch_closed {A}.
Definition CHANNEL_CAPACITY : nat := 64.

Definition channel_new {A} : Channel A := {| ch_queue := []; ch_closed := false |}.

(** [try_send] as the [retain] closures use it: [None] drops the sender. *)
Definition retain_send {A} (event : A) (c : Channel A) : option (Channel A) :=
  if ch_closed c then None
  else if (length (ch_queue c) <? CHANNEL_CAPACITY)%nat
  then Some {| ch_queue := ch_queue c ++ [event]; ch_closed := false |}
  else Some c.

Definition broadcast {A} (event : A) (subscribers : list (Channel A)) : list (Channel A) :=
  omap (retain_send event) subscribers.

Inductive SyncStatus := Disconnected | Syncing (gaps : N) | Synced.

Record MemoryStore := {
  ms_machines : gmap string MachineRecord;
  ms_machine_subscribers : list (Channel MachineEvent);
  ms_routing_subscribers : list (Channel unit);
  ms_invites : gmap string InviteRecord;
  ms_service_revisions : gmap (Namespace * string * string) ServiceRevisionRecord;
  ms_service_releases : gmap (Namespace * string) ServiceReleaseRecord;
  ms_instance_status : gmap string InstanceStatusRecord;
  ms_deploys : gmap string DeployRecord;
  ms_sync_status : SyncStatus
}.

Definition memory_new : MemoryStore := {|
  ms_machines := ∅; ms_machine_subscribers := []; ms_routing_subscribers := []; ms_invites := ∅;
  ms_service_revisions := ∅; ms_service_releases := ∅; ms_instance_status := ∅; ms_deploys := ∅;
  ms_sync_status := Synced |}.

Definition with_machines (m : gmap string MachineRecord) (subs : list (Channel MachineEvent))
    (s : MemoryStore) : MemoryStore := {|
  ms_machines := m; ms_machine_subscribers := subs; ms_routing_subscribers := ms_routing_subscribers s;
  ms_invites := ms_invites s; ms_service_revisions := ms_service_revisions s;
  ms_service_releases := ms_service_releases s; ms_instance_status := ms_instance_status s;
  ms_deploys := ms_deploys s; ms_sync_status := ms_sync_status s |}.

Definition with_invites (i : gmap string InviteRecord) (s : MemoryStore) : MemoryStore := {|
  ms_machines := ms_machines s; ms_machine_subscribers := ms_machine_subscribers s;
  ms_routing_subscribers := ms_routing_subscribers s; ms_invites := i;
  ms_service_revisions := ms_service_revisions s; ms_service_releases := ms_service_releases s;
  ms_instance_status := ms_instance_status s; ms_deploys := ms_deploys s; ms_sync_status := ms_sync_status s |}.

(** The routing tables, with the refresh broadcast that follows each change. *)
Definition with_routing (revisions : gmap (Namespace * string * string) ServiceRevisionRecord)
    (releases : gmap (Namespace * string) ServiceReleaseRecord)
    (instances : gmap string InstanceStatusRecord) (deploys : gmap string DeployRecord)
    (s : MemoryStore) : MemoryStore := {|
  ms_machines := ms_machines s; ms_machine_subscribers := ms_machine_subscribers s;
  ms_routing_subscribers := broadcast tt (ms_routing_subscribers s); ms_invites := ms_invites s;
  ms_service_revisions := revisions; ms_service_releases := releases;
  ms_instance_status := instances; ms_deploys := deploys;
  ms_sync_status := ms_sync_status s |}.

(** [SyncProbe] and [set_sync_status]. *)
Definition mem_sync_status (s : MemoryStore) : SyncStatus := ms_sync_status s.
Definition mem_set_sync_status (status : SyncStatus) (s : MemoryStore) : MemoryStore := {|
  ms_machines := ms_machines s; ms_machine_subscribers := ms_machine_subscribers s;
  ms_routing_subscribers := ms_routing_subscribers s; ms_invites := ms_invites s;
  ms_service_revisions := ms_service_revisions s; ms_service_releases := ms_service_releases s;
  ms_instance_status := ms_instance_status s; ms_deploys := ms_deploys s; ms_sync_status := status |}.

(** [MachineStore]. *)
Definition mem_list_machines (s : MemoryStore) : list MachineRecord := (map_to_list (ms_machines s)).*2.

Definition mem_upsert_self_machine (record : MachineRecord) (s : MemoryStore) : MemoryStore :=
  let event := match ms_machines s !! mr_id record with
               | Some _ => MeUpdated record
               | None => MeAdded record
               end in
  with_machines (<[mr_id record := record]> (ms_machines s))
    (broadcast event (ms_machine_subscribers s)) s.

Definition mem_delete_machine (id : MachineId) (s : MemoryStore) : MemoryStore :=
  match ms_machines s !! id with
  | Some record =>
      with_machines (delete id (ms_machines s)) (broadcast (MeRemoved record) (ms_machine_subscribers s)) s
  | None => s
  end.

Definition mem_subscribe_machines (s : MemoryStore) : list MachineRecord * MemoryStore :=
  (mem_list_machines s, with_machines (ms_machines s) (ms_machine_subscribers s ++ [channel_new]) s).

(** [RoutingStore]. *)
Definition mem_load_routing_state (s : MemoryStore) : RoutingState := {|
  rs_revisions := (map_to_list (ms_service_revisions s)).*2;
  rs_releases := (map_to_list (ms_service_releases s)).*2;
  rs_instances := (map_to_list (ms_instance_status s)).*2 |}.

Definition mem_subscribe_routing_invalidations (s : MemoryStore) : MemoryStore := {|
  ms_machines := ms_machines s; ms_machine_subscribers := ms_machine_subscribers s;
  ms_routing_subscribers := ms_routing_subscribers s ++ [channel_new]; ms_invites := ms_invites s;
  ms_service_revisions := ms_service_revisions s; ms_service_releases := ms_service_releases s;
  ms_instance_status := ms_instance_status s; ms_deploys := ms_deploys s; ms_sync_status := ms_sync_status s |}.

(** [InviteStore]. *)
Definition mem_create_invite (invite : InviteRecord) (s : MemoryStore) : Res unit * MemoryStore :=
  match ms_invites s !! inv_id invite with
  | Some _ => (Err (Operation "invite_exists" ("invite '" +:+ inv_id invite +:+ "' already exists")), s)
  | None => (Ok tt, with_invites (<[inv_id invite := invite]> (ms_invites s)) s)
  end.

Definition mem_consume_invite (invite_id : string) (now_unix_secs : N) (s : MemoryStore)
    : Res unit * MemoryStore :=
  match ms_invites s !! invite_id with
  | None => (Err (Operation "invite_not_found" ("invite '" +:+ invite_id +:+ "' not found")), s)
  | Some invite =>
      if (inv_expires_at invite <? now_unix_secs)%N
      then (Err (Operation "invite_expired" ("invite '" +:+ invite_id +:+ "' is expired")), s)
      else (Ok tt, with_invites (delete invite_id (ms_invites s)) s)
  end.

(** [DeployReadStore]. *)
Definition mem_list_service_revisions (ns : Namespace) (s : MemoryStore) : list ServiceRevisionRecord :=
  filter (fun r => srv_namespace r = ns) (map_to_list (ms_service_revisions s)).*2.
Definition mem_list_service_releases (ns : Namespace) (s : MemoryStore) : list ServiceReleaseRecord :=
  filter (fun r => rel_namespace r = ns) (map_to_list (ms_service_releases s)).*2.
Definition mem_list_instance_status (ns : Namespace) (s : MemoryStore) : list InstanceStatusRecord :=
  filter (fun r => is_namespace r = ns) (map_to_list (ms_instance_status s)).*2.
Definition mem_get_deploy (id : DeployId) (s : MemoryStore) : option DeployRecord := ms_deploys s !! id.

(** [DeployWriteStore]. *)
Definition mem_upsert_service_revision (r : ServiceRevisionRecord) (s : MemoryStore) : MemoryStore :=
  with_routing (<[revision_key r := r]> (ms_service_revisions s)) (ms_service_releases s)
    (ms_instance_status s) (ms_deploys s) s.
Definition mem_upsert_service_release (r : ServiceReleaseRecord) (s : MemoryStore) : MemoryStore :=
  with_routing (ms_service_revisions s) (<[release_key r := r]> (ms_service_releases s))
    (ms_instance_status s) (ms_deploys s) s.
Definition mem_delete_service_release (ns : Namespace) (service : string) (s : MemoryStore) : MemoryStore :=
  with_routing (ms_service_revisions s) (delete (ns, service) (ms_service_releases s))
    (ms_instance_status s) (ms_deploys s) s.
Definition mem_upsert_instance_status (r : InstanceStatusRecord) (s : MemoryStore) : MemoryStore :=
  with_routing (ms_service_revisions s) (ms_service_releases s)
    (<[is_instance_id r := r]> (ms_instance_status s)) (ms_deploys s) s.
Definition mem_delete_instance_status (id : InstanceId) (s : MemoryStore) : MemoryStore :=
  with_routing (ms_service_revisions s) (ms_service_releases s)
    (delete id (ms_instance_status s)) (ms_deploys s) s.
Definition mem_upsert_deploy (r : DeployRecord) (s : MemoryStore) : MemoryStore := {|
  ms_machines := ms_machines s; ms_machine_subscribers := ms_machine_subscribers s;
  ms_routing_subscribers := ms_routing_subscribers s; ms_invites := ms_invites s;
  ms_service_revisions := ms_service_revisions s; ms_service_releases := ms_service_releases s;
  ms_instance_status := ms_instance_status s; ms_deploys := <[dr_deploy_id r := r]> (ms_deploys s);
  ms_sync_status := ms_sync_status s |}.

(** [DeployCommitStore]. *)
Definition mem_apply_deploy_commit (c : DeployCommit) (s : MemoryStore) : MemoryStore :=
  with_routing (ms_service_revisions s) (commit_releases c (ms_service_releases s))
    (ms_instance_status s) (<[dr_deploy_id (dc_deploy c) := dc_deploy c]> (ms_deploys s)) s.

(** [BootstrapStateReader]; [addr] prints an overlay address. *)
Definition mem_seed_machine_records (s : MemoryStore) : list MachineRecord := mem_list_machines s.
Definition mem_bootstrap_addrs (addr : OverlayIp -> string) (local_machine_id : MachineId) (s : MemoryStore)
    : list string :=
  (fun m => addr (mr_overlay_ip m)) <$> filter (fun m => mr_id m <> local_machine_id) (mem_list_machines s).

(** ** Commits *)

(** The last release a commit writes under a key. *)
Definition written_release (c : DeployCommit) (k : Namespace * string) : option ServiceReleaseRecord :=
  last (filter (fun r => release_key r = k) (dc_releases c)).

Lemma commit_releases_lookup c m k :
  commit_releases c m !! k =
  match written_release c k with
  | Some r => Some r
  | None => if decide (k.1 = dc_namespace c /\ k.2 ∈ touched_services c) then None else m !! k
  end.
Proof.
  unfold commit_releases. rewrite insert_all_lookup. unfold written_release.
  destruct (last _) as [r|]; [done|]. case_decide as Hd.
  - apply map_lookup_filter_None. right. intros x _ Hn. by apply Hn.
  - destruct (m !! k) as [x|] eqn:E.
    + by apply map_lookup_filter_Some.
    + apply map_lookup_filter_None. by left.
Qed.

(** Releases are stored under their own key. *)
Definition releases_wf (m : gmap (Namespace * string) ServiceReleaseRecord) : Prop :=
  map_Forall (fun k r => release_key r = k) m.

Lemma commit_releases_wf c m : releases_wf m -> releases_wf (commit_releases c m).
Proof.
  intros Hm k r. rewrite commit_releases_lookup. unfold written_release.
  destruct (last _) as [r'|] eqn:E.
  - intros [= <-]. apply last_Some_elem_of in E. by apply list_elem_of_filter in E as [? _].
  - case_decide; [done|]. apply Hm.
Qed.

(** ** What a client of the release store relies on *)

Class ReleaseStore (S : Type) := {
  rst_wf : S -> Prop;
  rst_releases : S -> gmap (Namespace * string) ServiceReleaseRecord;
  rst_list : Namespace -> S -> list ServiceReleaseRecord;
  rst_commit : DeployCommit -> S -> S;
  rst_releases_wf : forall s, rst_wf s -> releases_wf (rst_releases s);
  rst_list_spec : forall ns s r, rst_wf s ->
    r ∈ rst_list ns s <-> rel_namespace r = ns /\ rst_releases s !! release_key r = Some r;
  rst_list_NoDup : forall ns s, rst_wf s -> NoDup (release_key <$> rst_list ns s);
  rst_commit_wf : forall c s, rst_wf s -> rst_wf (rst_commit c s);
  rst_commit_spec : forall c s, rst_wf s -> rst_releases (rst_commit c s) = commit_releases c (rst_releases s)
}.

Definition memory_wf (s : MemoryStore) : Prop :=
  releases_wf (ms_service_releases s) /\ map_Forall (fun k r => mr_id r = k) (ms_machines s).

Lemma mem_list_spec ns s r :
  memory_wf s ->
  r ∈ mem_list_service_releases ns s <->
  rel_namespace r = ns /\ ms_service_releases s !! release_key r = Some r.
Proof.
  intros [Hw _]. unfold mem_list_service_releases. rewrite list_elem_of_filter, map_values_elem.
  split; [|naive_solver]. intros (Hns & k & Hk). split; [done|]. rewrite <- Hk. f_equal. by apply Hw.
Qed.

#[export] Program Instance memory_release_store : ReleaseStore MemoryStore := {|
  rst_wf := memory_wf;
  rst_releases := ms_service_releases;
  rst_list := mem_list_service_releases;
  rst_commit := mem_apply_deploy_commit |}.
Next Obligation. by intros s [H _]. Qed.
Next Obligation. intros; by apply mem_list_spec. Qed.
Next Obligation.
  intros ns s [H _]. unfold mem_list_service_releases.
  eapply sublist_NoDup; [by apply (map_values_NoDup release_key)|]. apply fmap_sublist, sublist_filter.
Qed.
Next Obligation. intros c s [H1 H2]. split; [by apply commit_releases_wf|done]. Qed.
Next Obligation. done. Qed.

(** A deploy commit replaces exactly the services it names.  In the
    in-memory store, after a commit a service of any namespace has the release
    the commit wrote for it last, or none if the commit removed it, or the one
    it had before if the commit does not name it; the deploy record is stored
    with it, and instances, revisions, machines and invites are untouched. *)
Theorem memory_commit_spec (c : DeployCommit) (s : MemoryStore) (ns : Namespace) (service : string) :
  let s' := mem_apply_deploy_commit c s in
  ms_service_releases s' !! (ns, service) =
    match written_release c (ns, service) with
    | Some r => Some r
    | None => if decide (ns = dc_namespace c /\ service ∈ dc_removed_services c ++ (rel_service <$> dc_releases c))
              then None else ms_service_releases s !! (ns, service)
    end /\
  ms_deploys s' !! dr_deploy_id (dc_deploy c) = Some (dc_deploy c) /\
  (ms_instance_status s', ms_service_revisions s', ms_machines s', ms_invites s') =
  (ms_instance_status s, ms_service_revisions s, ms_machines s, ms_invites s).
Proof.
  split_and!; try done.
  - simpl. apply (commit_releases_lookup c (ms_service_releases s) (ns, service)).
  - simpl. apply lookup_insert_eq.
Qed.

(** ** Invites *)

(** An invite is good for one use before it expires.  Creating an invite
    under a fresh id succeeds; consuming it succeeds exactly when it has not
    expired; and after a successful consumption every further attempt is
    refused, while a refused attempt leaves the store unchanged. *)
Theorem invite_single_use (invite : InviteRecord) (now later : N) (s : MemoryStore) :
  ms_invites s !! inv_id invite = None ->
  let '(created, s1) := mem_create_invite invite s in
  let '(used, s2) := mem_consume_invite (inv_id invite) now s1 in
  created = Ok tt /\
  (is_ok (mem_create_invite invite s1).1 = false) /\
  (used = Ok tt <-> (now <= inv_expires_at invite)%N) /\
  (used = Ok tt -> is_ok (mem_consume_invite (inv_id invite) later s2).1 = false) /\
  (used <> Ok tt -> s2 = s1).
Proof.
  intros Hfresh. unfold mem_create_invite. rewrite Hfresh. simpl.
  unfold mem_consume_invite. simpl. rewrite lookup_insert_eq.
  destruct (N.ltb_spec (inv_expires_at invite) now) as [Hlt|Hle]; simpl.
  - split_and!; try done. split; [done|lia].
  - rewrite lookup_delete_eq. split_and!; done.
Qed.

(** ** Machine subscriptions *)

Definition apply_machine_event_to (m : gmap string MachineRecord) (e : MachineEvent)
    : gmap string MachineRecord :=
  match e with
  | MeAdded r | MeUpdated r => <[mr_id r := r]> m
  | MeRemoved r => delete (mr_id r) m
  end.

Definition machines_by_id (l : list MachineRecord) : gmap string MachineRecord := index_by mr_id l.

Inductive MachineOp := OpUpsert (r : MachineRecord) | OpDelete (id : MachineId).
Definition run_machine_op (o : MachineOp) (s : MemoryStore) : MemoryStore :=
  match o with OpUpsert r => mem_upsert_self_machine r s | OpDelete id => mem_delete_machine id s end.

(** The event an operation broadcasts, and what it does to an open channel. *)
Definition op_event (o : MachineOp) (s : MemoryStore) : option MachineEvent :=
  match o with
  | OpUpsert r => Some (match ms_machines s !! mr_id r with Some _ => MeUpdated r | None => MeAdded r end)
  | OpDelete id => MeRemoved <$> ms_machines s !! id
  end.
Definition channel_after (o : MachineOp) (s : MemoryStore) (c : Channel MachineEvent) : Channel MachineEvent :=
  match op_event o s with Some e => default c (retain_send e c) | None => c end.

(** A store, one of its subscribers' channels, and the machines that
    subscriber has built from its snapshot and the events it received.  The
    channel is open and never full when an operation runs. *)
Inductive subscription : MemoryStore -> Channel MachineEvent -> gmap string MachineRecord -> Prop :=
| sub_start s :
    memory_wf s ->
    subscription (mem_subscribe_machines s).2 channel_new (machines_by_id (mem_subscribe_machines s).1)
| sub_op s c view o :
    subscription s c view -> (length (ch_queue c) < CHANNEL_CAPACITY)%nat ->
    subscription (run_machine_op o s) (channel_after o s c) view
| sub_recv s c view e rest pre post :
    subscription s c view -> ms_machine_subscribers s = pre ++ c :: post -> ch_queue c = e :: rest ->
    subscription
      (with_machines (ms_machines s) (pre ++ {| ch_queue := rest; ch_closed := false |} :: post) s)
      {| ch_queue := rest; ch_closed := false |} (apply_machine_event_to view e).

Lemma broadcast_elem {A} (e : A) c subs :
  c ∈ subs -> ch_closed c = false -> default c (retain_send e c) ∈ broadcast e subs.
Proof.
  intros Hc Ho. apply list_elem_of_omap. exists c. split; [done|].
  unfold retain_send. rewrite Ho. by destruct (_ <? _).
Qed.

Lemma run_op_machines o s :
  map_Forall (fun k r => mr_id r = k) (ms_machines s) ->
  ms_machines (run_machine_op o s) =
    match op_event o s with Some e => apply_machine_event_to (ms_machines s) e | None => ms_machines s end /\
  ms_machine_subscribers (run_machine_op o s) =
    match op_event o s with
    | Some e => broadcast e (ms_machine_subscribers s)
    | None => ms_machine_subscribers s
    end.
Proof.
  intros Hw. destruct o as [r|id]; simpl.
  - unfold mem_upsert_self_machine. by destruct (ms_machines s !! mr_id r).
  - unfold mem_delete_machine. destruct (ms_machines s !! id) as [r|] eqn:E; simpl; [|done].
    by rewrite (Hw _ _ E).
Qed.

Lemma apply_event_wf m e :
  map_Forall (fun k r => mr_id r = k) m ->
  map_Forall (fun k r => mr_id r = k) (apply_machine_event_to m e).
Proof.
  intros Hm. destruct e; simpl; [by apply map_Forall_insert_2..|by apply map_Forall_delete].
Qed.

Lemma machines_by_id_list s : memory_wf s -> machines_by_id (mem_list_machines s) = ms_machines s.
Proof. intros [_ Hw]. by apply index_by_values. Qed.

Lemma replay_snoc view (q : list MachineEvent) e :
  foldl apply_machine_event_to view (q ++ [e]) =
  apply_machine_event_to (foldl apply_machine_event_to view q) e.
Proof. by rewrite foldl_app. Qed.

(** A machine subscriber never misses a change.  From its snapshot on, as
    long as its channel is open and not full when a machine is written or
    deleted, the machines it has built plus the events still queued give
    exactly the store's machines; once it has received everything, it has the
    store's machines. *)
Theorem subscription_complete (s : MemoryStore) (c : Channel MachineEvent) (view : gmap string MachineRecord) :
  subscription s c view ->
  c ∈ ms_machine_subscribers s /\ ch_closed c = false /\
  foldl apply_machine_event_to view (ch_queue c) = ms_machines s /\
  (ch_queue c = [] -> view = ms_machines s).
Proof.
  intros Hsub. cut (c ∈ ms_machine_subscribers s /\ ch_closed c = false /\
    foldl apply_machine_event_to view (ch_queue c) = ms_machines s /\
    map_Forall (fun k r => mr_id r = k) (ms_machines s)).
  { intros (H1 & H2 & H3 & _). split_and!; try done. intros Hq. by rewrite Hq in H3. }
  induction Hsub as [s Hw|s c view o Hsub (Hin & Ho & Hq & Hw) Hlen
                    |s c view e rest pre post Hsub (Hin & Ho & Hq & Hw) Hsubs Hqueue].
  - simpl. rewrite machines_by_id_list by done. destruct Hw. split_and!; try done. set_solver.
  - destruct (run_op_machines o s Hw) as [-> ->]. unfold channel_after.
    destruct (op_event o s) as [e|]; [|done]. split; [by apply broadcast_elem|].
    unfold retain_send. rewrite Ho, (proj2 (Nat.ltb_lt _ _) Hlen). simpl.
    rewrite replay_snoc, Hq. split_and!; try done. by apply apply_event_wf.
  - simpl. rewrite Hqueue in Hq. simpl in Hq. split_and!; try done. set_solver.
Qed.

(** ** Witnesses *)

Lemma invite_single_use_witness :
  is_ok (mem_create_invite {| inv_id := "i1"; inv_expires_at := 10 |} memory_new).1 = true /\
  is_ok (mem_consume_invite "i1" 11
    (mem_create_invite {| inv_id := "i1"; inv_expires_at := 10 |} memory_new).2).1 = false.
Proof.
  pose proof (invite_single_use {| inv_id := "i1"; inv_expires_at := 10 |} 11 12 memory_new) as H.
  split; [|vm_compute; reflexivity].
  assert (ms_invites memory_new !! inv_id {| inv_id := "i1"; inv_expires_at := 10 |} = None) as Hf
    by (vm_compute; reflexivity).
  specialize (H Hf).
  destruct (mem_create_invite {| inv_id := "i1"; inv_expires_at := 10 |} memory_new) as [created s1].
  destruct (mem_consume_invite _ 11 s1) as [used s2]. destruct H as [-> _]. reflexivity.
Defined.

Definition sample_machine : MachineRecord := machine_seed "m1" [1%N] [253%N] None [].

Lemma subscription_complete_witness :
  let s := run_machine_op (OpUpsert sample_machine) (mem_subscribe_machines memory_new).2 in
  subscription s (channel_after (OpUpsert sample_machine) (mem_subscribe_machines memory_new).2 channel_new) ∅ /\
  foldl apply_machine_event_to ∅ [MeAdded sample_machine] = ms_machines s.
Proof.
  intros s.
  assert (subscription s (channel_after (OpUpsert sample_machine) (mem_subscribe_machines memory_new).2
    channel_new) ∅) as Hs.
  { apply (sub_op (mem_subscribe_machines memory_new).2 channel_new
      (machines_by_id (mem_subscribe_machines memory_new).1)); [|vm_compute; lia].
    apply sub_start. split; apply map_Forall_empty. }
  split; [exact Hs|]. apply (subscription_complete s _ ∅ Hs).
Defined.
