(* ===== verification/Mesh.v ===== *)
(** * The mesh lifecycle

    [phase.rs] and [orchestrator.rs] of [ployz-orchestrator]: the phase machine,
    and [Mesh::up], [detach], [destroy] and [restart_runtime_for_subnet_change]
    with everything they start and stop.

    The drivers a [Mesh] holds (WireGuard, container network, dataplane, store
    runtime, store, sync probe, task set) are the environment: a call is
    recorded in a log and answered by an arbitrary function of the log so far
    ([Env]), so a theorem about all environments covers every pattern of
    success and failure.  A wait with a timeout ([poll_until], the bootstrap
    wait) is one call, answered by what it observed before the timeout. *)

From S2P Require Import Prelude Order Text Types Effect Store.

(** ** Phases *)

Inductive Phase := Stopped | Starting | Provisioning | Bootstrapping | Running | Stopping.
Inductive PhaseEvent :=
| UpRequested | NetworkReady | ComponentsStarted | ComponentFailed | SyncComplete
| DetachRequested | DestroyRequested | TeardownComplete.
#[global] Instance Phase_eq_dec : EqDecision Phase.
Proof. solve_decision. Defined.
#[global] Instance PhaseEvent_eq_dec : EqDecision PhaseEvent.
Proof. solve_decision. Defined.

Inductive TransitionError :=
| Invalid (from : Phase) (event : PhaseEvent)
| BootstrapTimeout (reason : string).

Definition transition (current : Phase) (event : PhaseEvent) : result TransitionError Phase :=
  match current, event with
  | Stopped, UpRequested => Ok Starting
  | Starting, NetworkReady => Ok Provisioning
  | Provisioning, ComponentsStarted => Ok Bootstrapping
  | (Starting | Provisioning | Bootstrapping), ComponentFailed => Ok Stopped
  | Bootstrapping, SyncComplete => Ok Running
  | Running, DetachRequested => Ok Stopped
  | (Stopped | Starting | Running | Provisioning | Bootstrapping), DestroyRequested => Ok Stopping
  | Stopping, TeardownComplete => Ok Stopped
  | _, _ => Err (Invalid current event)
  end.

Definition phase_to_string (p : Phase) : string :=
  match p with
  | Stopped => "stopped" | Starting => "starting" | Provisioning => "provisioning"
  | Bootstrapping => "bootstrapping" | Running => "running" | Stopping => "stopping"
  end.

(** ** State *)

Inductive TaskSetError := Subscribe (e : Error) | Join.
Inductive MeshError :=
| MeTransition (e : TransitionError)
| MePort (e : Error)
| MeTask (e : TaskSetError).

(** The background tasks [TaskSet::spawn] starts. *)
Inductive Task :=
| TProbeListener | TPeerSync | TSelfRecordWriter | TEndpointRefresh | TSelfLiveness
| TParticipation | THeartbeat | TSubnetClaimMonitor | TEbpfSync.
#[global] Instance Task_eq_dec : EqDecision Task.
Proof. solve_decision. Defined.

Inductive WireguardBackendMode := WgHost | WgDocker | WgMemory.
#[global] Instance WireguardBackendMode_eq_dec : EqDecision WireguardBackendMode.
Proof. solve_decision. Defined.

(** A WireGuard driver, as far as the mesh looks at it. *)
Record Driver := { drv_mode : WireguardBackendMode }.

(** [WireguardDriver::runs_probe_listener]. *)
Definition runs_probe_listener (d : Driver) : bool := bool_decide (drv_mode d <> WgMemory).

Record Mesh := {
  phase : Phase;
  network : Driver;
  container_network : bool;          (* [Option<ContainerNetwork>]: present or not *)
  dataplane_factory : bool;
  tasks : option (list Task);
  task_cancel : bool;                (* each sender and token: present or not *)
  peer_sync_tx : bool;
  heartbeat_tx : bool;
  self_liveness_tx : bool;
  participation_tx : bool;
  self_record_tx : bool;
  machine_id : MachineId;
  seed_records : list MachineRecord;
  authoritative_self : option MachineRecord;
  allow_disconnected_bootstrap : bool;
  dataplane : bool;
  wg_ifindex : N;
  heartbeat_started : bool
}.

Definition mesh_new (net : Driver) (container dataplane_factory : bool) (id : MachineId) : Mesh := {|
  phase := Stopped; network := net; container_network := container;
  dataplane_factory := dataplane_factory; tasks := None; task_cancel := false; peer_sync_tx := false;
  heartbeat_tx := false; self_liveness_tx := false; participation_tx := false; self_record_tx := false;
  machine_id := id; seed_records := []; authoritative_self := None;
  allow_disconnected_bootstrap := false; dataplane := false; wg_ifindex := 0;
  heartbeat_started := false |}.

Definition set_phase (p : Phase) (m : Mesh) : Mesh := {|
  phase := p; network := network m; container_network := container_network m;
  dataplane_factory := dataplane_factory m; tasks := tasks m; task_cancel := task_cancel m;
  peer_sync_tx := peer_sync_tx m; heartbeat_tx := heartbeat_tx m; self_liveness_tx := self_liveness_tx m;
  participation_tx := participation_tx m; self_record_tx := self_record_tx m; machine_id := machine_id m;
  seed_records := seed_records m; authoritative_self := authoritative_self m;
  allow_disconnected_bootstrap := allow_disconnected_bootstrap m; dataplane := dataplane m;
  wg_ifindex := wg_ifindex m; heartbeat_started := heartbeat_started m |}.

Definition set_drivers (net : Driver) (container : bool) (m : Mesh) : Mesh := {|
  phase := phase m; network := net; container_network := container;
  dataplane_factory := dataplane_factory m; tasks := tasks m; task_cancel := task_cancel m;
  peer_sync_tx := peer_sync_tx m; heartbeat_tx := heartbeat_tx m; self_liveness_tx := self_liveness_tx m;
  participation_tx := participation_tx m; self_record_tx := self_record_tx m; machine_id := machine_id m;
  seed_records := seed_records m; authoritative_self := authoritative_self m;
  allow_disconnected_bootstrap := allow_disconnected_bootstrap m; dataplane := dataplane m;
  wg_ifindex := wg_ifindex m; heartbeat_started := heartbeat_started m |}.

Definition set_dataplane (d : bool) (i : N) (m : Mesh) : Mesh := {|
  phase := phase m; network := network m; container_network := container_network m;
  dataplane_factory := dataplane_factory m; tasks := tasks m; task_cancel := task_cancel m;
  peer_sync_tx := peer_sync_tx m; heartbeat_tx := heartbeat_tx m; self_liveness_tx := self_liveness_tx m;
  participation_tx := participation_tx m; self_record_tx := self_record_tx m; machine_id := machine_id m;
  seed_records := seed_records m; authoritative_self := authoritative_self m;
  allow_disconnected_bootstrap := allow_disconnected_bootstrap m; dataplane := d;
  wg_ifindex := i; heartbeat_started := heartbeat_started m |}.

Definition set_tasks (t : option (list Task)) (m : Mesh) : Mesh := {|
  phase := phase m; network := network m; container_network := container_network m;
  dataplane_factory := dataplane_factory m; tasks := t; task_cancel := task_cancel m;
  peer_sync_tx := peer_sync_tx m; heartbeat_tx := heartbeat_tx m; self_liveness_tx := self_liveness_tx m;
  participation_tx := participation_tx m; self_record_tx := self_record_tx m; machine_id := machine_id m;
  seed_records := seed_records m; authoritative_self := authoritative_self m;
  allow_disconnected_bootstrap := allow_disconnected_bootstrap m; dataplane := dataplane m;
  wg_ifindex := wg_ifindex m; heartbeat_started := heartbeat_started m |}.

Definition set_self (r : option MachineRecord) (m : Mesh) : Mesh := {|
  phase := phase m; network := network m; container_network := container_network m;
  dataplane_factory := dataplane_factory m; tasks := tasks m; task_cancel := task_cancel m;
  peer_sync_tx := peer_sync_tx m; heartbeat_tx := heartbeat_tx m; self_liveness_tx := self_liveness_tx m;
  participation_tx := participation_tx m; self_record_tx := self_record_tx m; machine_id := machine_id m;
  seed_records := seed_records m; authoritative_self := r;
  allow_disconnected_bootstrap := allow_disconnected_bootstrap m; dataplane := dataplane m;
  wg_ifindex := wg_ifindex m; heartbeat_started := heartbeat_started m |}.

(** The builders [with_seed_records] and [with_disconnected_bootstrap_allowed]. *)
Definition with_bootstrap (seeds : list MachineRecord) (allow : bool) (m : Mesh) : Mesh := {|
  phase := phase m; network := network m; container_network := container_network m;
  dataplane_factory := dataplane_factory m; tasks := tasks m; task_cancel := task_cancel m;
  peer_sync_tx := peer_sync_tx m; heartbeat_tx := heartbeat_tx m; self_liveness_tx := self_liveness_tx m;
  participation_tx := participation_tx m; self_record_tx := self_record_tx m; machine_id := machine_id m;
  seed_records := seeds; authoritative_self := authoritative_self m;
  allow_disconnected_bootstrap := allow; dataplane := dataplane m;
  wg_ifindex := wg_ifindex m; heartbeat_started := heartbeat_started m |}.

(** The peer sync channel with its cancellation token. *)
Definition set_peer_sync (cancel peer : bool) (m : Mesh) : Mesh := {|
  phase := phase m; network := network m; container_network := container_network m;
  dataplane_factory := dataplane_factory m; tasks := tasks m; task_cancel := cancel;
  peer_sync_tx := peer; heartbeat_tx := heartbeat_tx m; self_liveness_tx := self_liveness_tx m;
  participation_tx := participation_tx m; self_record_tx := self_record_tx m; machine_id := machine_id m;
  seed_records := seed_records m; authoritative_self := authoritative_self m;
  allow_disconnected_bootstrap := allow_disconnected_bootstrap m; dataplane := dataplane m;
  wg_ifindex := wg_ifindex m; heartbeat_started := heartbeat_started m |}.

(** The senders of the other background tasks, and the heartbeat flag. *)
Definition set_background (tx started : bool) (m : Mesh) : Mesh := {|
  phase := phase m; network := network m; container_network := container_network m;
  dataplane_factory := dataplane_factory m; tasks := tasks m; task_cancel := task_cancel m;
  peer_sync_tx := peer_sync_tx m; heartbeat_tx := tx; self_liveness_tx := tx;
  participation_tx := tx; self_record_tx := tx; machine_id := machine_id m;
  seed_records := seed_records m; authoritative_self := authoritative_self m;
  allow_disconnected_bootstrap := allow_disconnected_bootstrap m; dataplane := dataplane m;
  wg_ifindex := wg_ifindex m; heartbeat_started := started |}.

(** ** The environment *)

Inductive Call :=
| CNetworkUp | CNetworkDown | CSetPeers (peers : list MachineRecord)
| CContainerEnsure | CContainerConnect | CContainerRemove
| CDataplaneAttach | CDataplaneDetach
| CStoreStart | CStoreStop | CStoreHealthy | CStoreInit | CStoreQuery | CHandshake
| CSubscribeMachines | CListMachines | CSyncWait | CTasksStop
| CWriterReplace (r : MachineRecord).

#[global] Instance Call_eq_dec : EqDecision Call.
Proof. solve_decision. Defined.

Record Env := {
  env_unit : list Call -> Call -> Res unit;                  (* fallible calls *)
  env_service : list Call -> Call -> result string unit;      (* store runtime start and stop *)
  env_poll : list Call -> Call -> bool;                      (* a wait: did it succeed in time *)
  env_machines : list Call -> Res (list MachineRecord);      (* [list_machines] *)
  env_ifindex : list Call -> Res N;                          (* [attach]: the interface index *)
  env_sync : list Call -> list (Res SyncStatus);             (* probe answers before the timeout *)
  env_tasks_stop : list Call -> result TaskSetError unit;
  env_writer : list Call -> MachineRecord -> option MachineRecord  (* [apply_self_record_mutation] *)
}.

(** Computations of the mesh: they read and write the mesh, extend the log of
    calls, and may fail. *)
Definition M (A : Type) : Type := eff Mesh Call MeshError A.
Local Open Scope eff_scope.

Section operations.
Context (env : Env).

Definition call_unit (c : Call) : M unit := mcall (fun log => map_err MePort (env_unit env log c)) c.
Definition call_service (what : string) (c : Call) : M unit :=
  mcall (fun log => map_err (fun e => MePort (Operation what e)) (env_service env log c)) c.
Definition call_poll (c : Call) : M bool := mcall (fun log => Ok (env_poll env log c)) c.
Definition call_machines : M (list MachineRecord) :=
  mcall (fun log => map_err MePort (env_machines env log)) CListMachines.
Definition call_subscribe : M unit :=
  mcall (fun log => map_err (fun e => MeTask (Subscribe e)) (env_unit env log CSubscribeMachines))
    CSubscribeMachines.
Definition call_tasks_stop : M unit :=
  mcall (fun log => map_err MeTask (env_tasks_stop env log)) CTasksStop.

(** [Mesh::apply]. *)
Definition apply_event (event : PhaseEvent) : M unit :=
  p <-! mget phase ;;
  match transition p event with
  | Ok next => mput (set_phase next)
  | Err e => mfail (MeTransition e)
  end.

Definition spawn (t : Task) : M unit :=
  mput (fun m => set_tasks (match tasks m with Some l => Some (l ++ [t]) | None => None end) m).

Definition remote_seeds (m : Mesh) : list MachineRecord :=
  filter (fun r => mr_id r <> machine_id m) (seed_records m).

(** [start_peer_sync_task]. *)
Definition start_peer_sync_task : M unit :=
  started <-! mget peer_sync_tx ;;
  if (started : bool) then mret tt else
  _ <-! call_subscribe ;;
  listener <-! mget (fun m => runs_probe_listener (network m)) ;;
  _ <-! mput (set_peer_sync true true) ;;
  mput (set_tasks (Some ((if (listener : bool) then [TProbeListener] else []) ++ [TPeerSync]))).

Definition find_self (m : Mesh) (l : list MachineRecord) : option MachineRecord :=
  snd <$> list_find (fun r => mr_id r = machine_id m) l.

(** The first part of [spawn_background_tasks]: settle the authoritative record. *)
Definition ensure_authoritative_self : M unit :=
  current <-! mget authoritative_self ;;
  match current with
  | Some _ => mret tt
  | None =>
      listed <-! mtry call_machines ;;
      store_self <-! mget (fun m => match listed with Ok l => find_self m l | Err _ => None end) ;;
      seed_self <-! mget (fun m => find_self m (seed_records m)) ;;
      match (match seed_self with Some r => Some r | None => store_self end) with
      | Some r => mput (set_self (Some r))
      | None => mfail (MeTask (Subscribe
                  (Operation "self machine record" "authoritative self record missing")))
      end
  end.

Definition spawn_background_tasks : M unit :=
  cancel <-! mget task_cancel ;;
  if negb cancel then mfail (MeTask (Subscribe
    (Operation "spawn_background_tasks" "peer sync task not started (no cancel token)")))
  else
  _ <-! ensure_authoritative_self ;;
  _ <-! mput (set_background true false) ;;
  _ <-! spawn TSelfRecordWriter ;;
  _ <-! spawn TEndpointRefresh ;;
  _ <-! spawn TSelfLiveness ;;
  _ <-! spawn TParticipation ;;
  _ <-! spawn THeartbeat ;;
  _ <-! call_subscribe ;;
  _ <-! spawn TSubnetClaimMonitor ;;
  dp <-! mget dataplane ;;
  if (dp : bool) then _ <-! call_subscribe ;; spawn TEbpfSync else mret tt.

(** [bootstrap_gate]: the loop returns at the first answer that is not
    [Disconnected] and not an error. *)
Fixpoint bootstrap_wait (answers : list (Res SyncStatus)) : bool :=
  match answers with
  | [] => false
  | Ok Disconnected :: answers | Err _ :: answers => bootstrap_wait answers
  | Ok _ :: _ => true
  end.

Definition bootstrap_timeout_reason : string :=
  "corrosion gossip could not reach any remote peer within the timeout. The gossip transport (QUIC) may be stuck — try restarting the mesh on both nodes".

Definition bootstrap_gate : M unit :=
  machines <-! call_machines ;;
  has_remote_peer <-! mget (fun m => existsb (fun r => bool_decide (mr_id r <> machine_id m)) machines) ;;
  allow <-! mget allow_disconnected_bootstrap ;;
  if negb has_remote_peer then apply_event SyncComplete
  else if (allow : bool) then apply_event SyncComplete
  else
    connected <-! mcall (fun log => Ok (bootstrap_wait (env_sync env log))) CSyncWait ;;
    if (connected : bool) then apply_event SyncComplete
    else mfail (MeTransition (BootstrapTimeout bootstrap_timeout_reason)).

(** [wait_service_ready] and [wait_store_init]. *)
Definition wait_service_ready : M unit :=
  ok <-! call_poll CStoreHealthy ;;
  if (ok : bool) then mret tt
  else mfail (MePort (Operation "service ready" "service did not become ready within 15s")).

Definition wait_store_init : M unit :=
  init_ok <-! call_poll CStoreInit ;;
  if negb init_ok then mfail (MePort (Operation "store init" "store did not become ready within 30s"))
  else
  query_ok <-! call_poll CStoreQuery ;;
  if (query_ok : bool) then mret tt
  else mfail (MePort (Operation "store init" "store queries did not succeed within 30s")).

(** Step 2 of [bring_up]. *)
Definition bring_up_container : M unit :=
  cn <-! mget container_network ;;
  if negb cn then mret tt else
  _ <-! call_unit CContainerEnsure ;;
  mode <-! mget (fun m => drv_mode (network m)) ;;
  _ <-! (if decide (mode = WgDocker) then call_unit CContainerConnect else mret tt) ;;
  factory <-! mget dataplane_factory ;;
  if negb factory then mret tt else
  ifindex <-! mcall (fun log => map_err MePort (env_ifindex env log)) CDataplaneAttach ;;
  mput (set_dataplane true ifindex).

(** Step 3: failures of the pre-start peer sync are only logged. *)
Definition bring_up_seed_peers : M unit :=
  pre_start_peers <-! mget remote_seeds ;;
  match pre_start_peers with
  | [] => mret tt
  | _ =>
      _ <-! mtry (call_unit (CSetPeers pre_start_peers)) ;;
      _ <-! call_poll CHandshake ;;
      mret tt
  end.

Definition bring_up : M unit :=
  _ <-! call_unit CNetworkUp ;;
  _ <-! apply_event NetworkReady ;;
  _ <-! bring_up_container ;;
  _ <-! bring_up_seed_peers ;;
  _ <-! call_service "store runtime start" CStoreStart ;;
  _ <-! wait_service_ready ;;
  _ <-! wait_store_init ;;
  _ <-! start_peer_sync_task ;;
  _ <-! apply_event ComponentsStarted ;;
  _ <-! bootstrap_gate ;;
  spawn_background_tasks.

Definition clear_task_channels : M unit := mput (fun m => set_background false false (set_peer_sync false false m)).

Inductive RuntimeStoreMode := Keep | StopStore.

(** Take the first error ([first_err.get_or_insert]). *)
Definition first_error (first : option MeshError) (r : result MeshError unit) : option MeshError :=
  match first, r with
  | Some e, _ => Some e
  | None, Err e => Some e
  | None, Ok _ => None
  end.

Definition stop_runtime (store : RuntimeStoreMode) : M (option MeshError) :=
  _ <-! clear_task_channels ;;
  ts <-! mget tasks ;;
  _ <-! mput (set_tasks None) ;;
  r1 <-! (match ts with Some _ => mtry call_tasks_stop | None => mret (Ok tt) end) ;;
  dp <-! mget dataplane ;;
  _ <-! (if (dp : bool) then mtry (call_unit CDataplaneDetach) else mret (Ok tt)) ;;
  _ <-! mput (set_dataplane false 0) ;;
  r2 <-! (match store with
          | StopStore => mtry (call_service "store runtime stop" CStoreStop)
          | Keep => mret (Ok tt)
          end) ;;
  r3 <-! mtry (call_unit CNetworkDown) ;;
  cn <-! mget container_network ;;
  r4 <-! (if (cn : bool) then mtry (call_unit CContainerRemove) else mret (Ok tt)) ;;
  mret (first_error (first_error (first_error (first_error None r1) r2) r3) r4).

Definition teardown : M unit := _ <-! stop_runtime StopStore ;; mret tt.

(** ** Public operations *)

Definition up : M unit :=
  _ <-! apply_event UpRequested ;;
  r <-! mtry bring_up ;;
  match r with
  | Ok tt => mret tt
  | Err e =>
      _ <-! teardown ;;
      _ <-! apply_event ComponentFailed ;;
      mfail e
  end.

Definition detach : M unit :=
  _ <-! apply_event DetachRequested ;;
  _ <-! clear_task_channels ;;
  ts <-! mget tasks ;;
  _ <-! mput (set_tasks None) ;;
  match ts with Some _ => call_tasks_stop | None => mret tt end.

(** [update_authoritative_self_record]. *)
Definition update_authoritative_self_record (update : MachineRecord -> MachineRecord)
    : M (option MachineRecord) :=
  current <-! mget authoritative_self ;;
  match current with
  | None => mret None
  | Some current =>
      let next := update current in
      writer <-! mget self_record_tx ;;
      if (writer : bool) then
        reply <-! mcall (fun log => Ok (env_writer env log next)) (CWriterReplace next) ;;
        _ <-! mput (fun m => set_self (match reply with Some r => Some r | None => authoritative_self m end) m) ;;
        mret reply
      else
        _ <-! mput (set_self (Some next)) ;;
        mret (Some next)
  end.

Definition mark_down (now : N) (r : MachineRecord) : MachineRecord := {|
  mr_id := mr_id r; mr_public_key := mr_public_key r; mr_overlay_ip := mr_overlay_ip r;
  mr_subnet := mr_subnet r; mr_bridge_ip := mr_bridge_ip r; mr_endpoints := mr_endpoints r;
  mr_status := MsDown; mr_participation := mr_participation r; mr_last_heartbeat := now;
  mr_created_at := mr_created_at r; mr_updated_at := now; mr_labels := mr_labels r |}.

Definition destroy (now : N) : M unit :=
  _ <-! apply_event DestroyRequested ;;
  _ <-! update_authoritative_self_record (mark_down now) ;;
  first_err <-! stop_runtime StopStore ;;
  _ <-! apply_event TeardownComplete ;;
  match first_err with Some e => mfail e | None => mret tt end.

Record MeshReadyStatus := {
  mrs_ready : bool; mrs_phase : Phase; mrs_store_healthy : bool;
  mrs_sync_connected : bool; mrs_heartbeat_started : bool
}.

(** [ready_status]; the probe's single answer is the first of [env_sync]. *)
Definition ready_status : M MeshReadyStatus :=
  p <-! mget phase ;;
  store_healthy <-! call_poll CStoreHealthy ;;
  listed <-! mtry call_machines ;;
  has_remote_store_peer <-! mget (fun m =>
    match listed with
    | Ok machines => existsb (fun r => bool_decide (mr_id r <> machine_id m)) machines
    | Err _ => false
    end) ;;
  has_remote_seed_peer <-! mget (fun m =>
    existsb (fun r => bool_decide (mr_id r <> machine_id m)) (seed_records m)) ;;
  sync_connected <-! (
    if (has_remote_store_peer || has_remote_seed_peer)%bool then
      mcall (fun log => Ok (match head (env_sync env log) with
                            | Some (Ok Disconnected) | Some (Err _) | None => false
                            | Some (Ok _) => true
                            end)) CSyncWait
    else mret true) ;;
  started <-! mget heartbeat_started ;;
  mret {| mrs_ready := bool_decide (p = Running) && store_healthy && sync_connected && started;
          mrs_phase := p; mrs_store_healthy := store_healthy;
          mrs_sync_connected := sync_connected; mrs_heartbeat_started := started |}.

Definition restart_runtime_for_subnet_change (net : Driver) (container : bool) : M unit :=
  _ <-! apply_event DestroyRequested ;;
  _ <-! stop_runtime Keep ;;
  _ <-! mput (set_drivers net container) ;;
  _ <-! apply_event TeardownComplete ;;
  _ <-! apply_event UpRequested ;;
  r <-! mtry bring_up ;;
  match r with
  | Ok tt => mret tt
  | Err e =>
      _ <-! stop_runtime Keep ;;
      _ <-! apply_event ComponentFailed ;;
      mfail e
  end.
End operations.

(** What the operations leave alone. *)
Definition config (m : Mesh) :=
  (network m, container_network m, dataplane_factory m, machine_id m, seed_records m,
   allow_disconnected_bootstrap m).

(** No task runs and no channel is open. *)
Definition idle (m : Mesh) : Prop :=
  tasks m = None /\ task_cancel m = false /\ peer_sync_tx m = false /\ heartbeat_tx m = false /\
  self_liveness_tx m = false /\ participation_tx m = false /\ self_record_tx m = false /\
  heartbeat_started m = false.

Definition peer_sync_tasks (m : Mesh) : list Task :=
  (if runs_probe_listener (network m) then [TProbeListener] else []) ++ [TPeerSync].

Definition background_tasks (m : Mesh) : list Task :=
  peer_sync_tasks m ++
  [TSelfRecordWriter; TEndpointRefresh; TSelfLiveness; TParticipation; THeartbeat; TSubnetClaimMonitor] ++
  (if dataplane m then [TEbpfSync] else []).

(** Every task of the mesh runs and every channel is open. *)
Definition operational (m : Mesh) : Prop :=
  tasks m = Some (background_tasks m) /\ task_cancel m = true /\ peer_sync_tx m = true /\
  heartbeat_tx m = true /\ self_liveness_tx m = true /\ participation_tx m = true /\
  self_record_tx m = true /\ is_Some (authoritative_self m).

Section specs.
Context (env : Env).

Lemma apply_event_spec ev (Q : result MeshError unit -> Mesh -> list Call -> Prop) m log :
  match transition (phase m) ev with
  | Ok p => Q (Ok tt) (set_phase p m) log
  | Err e => Q (Err (MeTransition e)) m log
  end ->
  wp (apply_event ev) Q m log.
Proof.
  intros H. unfold apply_event. do 2 wp_step. destruct (transition (phase m) ev); by wp_step.
Qed.

(** Attaching the dataplane is the only change step 2 of [bring_up] makes. *)
Definition maybe_attached (m m' : Mesh) : Prop := m' = m \/ exists i, m' = set_dataplane true i m.

Lemma bring_up_container_spec m log :
  wp (bring_up_container env) (fun _ m' _ => maybe_attached m m') m log.
Proof. unfold bring_up_container, call_unit, maybe_attached. wp_steps; simpl in *; eauto. Qed.

Lemma bring_up_seed_peers_spec m log :
  wp (bring_up_seed_peers env) (fun r m' _ => r = Ok tt /\ m' = m) m log.
Proof. unfold bring_up_seed_peers, call_unit, call_poll. wp_steps; done. Qed.

Lemma wait_service_ready_spec m log :
  wp (wait_service_ready env) (fun _ m' _ => m' = m) m log.
Proof. unfold wait_service_ready, call_poll. by wp_steps. Qed.

Lemma wait_store_init_spec m log :
  wp (wait_store_init env) (fun _ m' _ => m' = m) m log.
Proof. unfold wait_store_init, call_poll. by wp_steps. Qed.

Lemma start_peer_sync_task_spec m log :
  peer_sync_tx m = false ->
  wp (start_peer_sync_task env) (fun r m' _ =>
    m' = match r with
         | Ok _ => set_tasks (Some (peer_sync_tasks m)) (set_peer_sync true true m)
         | Err _ => m
         end) m log.
Proof.
  intros Hp. unfold start_peer_sync_task, call_subscribe. do 2 wp_step. rewrite Hp. by wp_steps.
Qed.

Lemma bootstrap_gate_spec m log :
  phase m = Bootstrapping ->
  wp (bootstrap_gate env) (fun r m' _ =>
    m' = match r with Ok _ => set_phase Running m | Err _ => m end) m log.
Proof.
  intros Hp. unfold bootstrap_gate, call_machines.
  wp_steps; try done; apply apply_event_spec; by rewrite Hp.
Qed.

Lemma ensure_authoritative_self_spec m log :
  wp (ensure_authoritative_self env) (fun r m' _ =>
    match r with
    | Ok _ => exists a, m' = set_self (Some a) m
    | Err _ => m' = m
    end) m log.
Proof.
  unfold ensure_authoritative_self, call_machines. wp_step. wp_step.
  destruct (authoritative_self m) as [a|] eqn:Ha.
  - wp_step. exists a. rewrite <- Ha. by destruct m.
  - wp_steps; eauto.
Qed.

(** Any outcome keeps the phase and the configuration; success makes the
    mesh operational. *)
Lemma spawn_background_tasks_spec m log :
  tasks m = Some (peer_sync_tasks m) -> task_cancel m = true -> peer_sync_tx m = true ->
  wp (spawn_background_tasks env) (fun r m' _ =>
    phase m' = phase m /\ config m' = config m /\ dataplane m' = dataplane m /\
    (r = Ok tt -> operational m')) m log.
Proof.
  intros Ht Hc Hp. unfold spawn_background_tasks, spawn, call_subscribe.
  do 2 wp_step. rewrite Hc. simpl. wp_step.
  eapply wp_mono; [apply ensure_authoritative_self_spec|]. intros [[]|e] m1 log1; [|naive_solver].
  intros [a ->]. wp_steps; simpl in *; rewrite ?Ht; split_and!; try done; intros _;
    unfold operational, background_tasks, peer_sync_tasks in *; simpl in *; rewrite <- ?app_assoc;
    match goal with H : dataplane _ = _ |- _ => rewrite H end; split_and!; eauto.
Qed.

(** The phases a start passes through. *)
Definition start_phase (p : Phase) : bool :=
  match p with Starting | Provisioning | Bootstrapping | Running => true | _ => false end.

Lemma bring_up_spec m log :
  phase m = Starting -> idle m ->
  wp (bring_up env) (fun r m' _ =>
    config m' = config m /\
    match r with
    | Ok _ => phase m' = Running /\ operational m'
    | Err _ => start_phase (phase m') = true
    end) m log.
Proof.
  intros Hp (Hi1 & Hi2 & Hi3 & _). unfold bring_up, call_unit, call_service.
  do 2 wp_step; [|by rewrite Hp].
  wp_step. apply apply_event_spec. rewrite Hp. simpl. wp_step.
  eapply wp_mono; [apply bring_up_container_spec|]. intros r m2 log2 Hatt.
  assert (config m2 = config m /\ phase m2 = Provisioning /\ peer_sync_tx m2 = false) as (Hc2 & Hp2 & Hs2).
  { destruct Hatt as [->|[i ->]]; done. }
  clear Hatt. destruct r as [[]|e]; [|by rewrite Hp2]. wp_step.
  eapply wp_mono; [apply bring_up_seed_peers_spec|]. intros r m3 log3 [-> ->].
  do 2 wp_step; [|by rewrite Hp2]. wp_step.
  eapply wp_mono; [apply wait_service_ready_spec|]. intros r m4 log4 ->.
  destruct r as [[]|e]; [|by rewrite Hp2]. wp_step.
  eapply wp_mono; [apply wait_store_init_spec|]. intros r m5 log5 ->.
  destruct r as [[]|e]; [|by rewrite Hp2]. wp_step.
  eapply wp_mono; [by apply start_peer_sync_task_spec|]. intros r m6 log6 ->.
  destruct r as [[]|e]; [|by rewrite Hp2]. wp_step.
  apply apply_event_spec. simpl. rewrite Hp2. simpl. wp_step.
  eapply wp_mono; [by apply bootstrap_gate_spec|]. intros r m7 log7 ->.
  destruct r as [[]|e]; [|done].
  eapply wp_mono; [by apply spawn_background_tasks_spec|]. simpl.
  intros r m8 log8 (H1 & H2 & _ & H3). rewrite H2, H1. split; [by rewrite <- Hc2|].
  destruct r as [[]|e]; [|done]. by split; [|apply H3].
Qed.

(** What stopping calls, in order, whatever the answers are. *)
Definition stop_calls (mode : RuntimeStoreMode) (m : Mesh) : list Call :=
  (if tasks m then [CTasksStop] else []) ++
  (if dataplane m then [CDataplaneDetach] else []) ++
  (match mode with StopStore => [CStoreStop] | Keep => [] end) ++
  [CNetworkDown] ++
  (if container_network m then [CContainerRemove] else []).

(** Stopping never fails: it attempts every call and clears everything the
    start set up. *)
Lemma stop_runtime_spec mode m log :
  wp (stop_runtime env mode) (fun r m' log' =>
    is_ok r = true /\ phase m' = phase m /\ config m' = config m /\ idle m' /\
    dataplane m' = false /\ wg_ifindex m' = 0%N /\ authoritative_self m' = authoritative_self m /\
    log' = log ++ stop_calls mode m) m log.
Proof.
  unfold stop_runtime, clear_task_channels, call_tasks_stop, call_unit, call_service.
  wp_steps; simpl in *; unfold idle, stop_calls; simpl; split_and!; try done;
    repeat match goal with H : _ m = _ |- _ => rewrite H; clear H end; subst;
    rewrite <- ?app_assoc; simpl; rewrite ?app_nil_r; try done.
Qed.
End specs.

Section claims.
Context (env : Env).


(** The end of [destroy], after the local record was marked down. *)
Lemma destroy_tail_spec (m : Mesh) (log : list Call) :
  phase m = Stopping ->
  wp (first_err <-! stop_runtime env StopStore ;;
      _ <-! apply_event TeardownComplete ;;
      match first_err with Some e => mfail e | None => mret tt end)
    (fun r m' log' => phase m' = Stopped /\ config m' = config m /\ idle m' /\ dataplane m' = false /\
      authoritative_self m' = authoritative_self m /\ log' = log ++ stop_calls StopStore m) m log.
Proof.
  intros H1. wp_step. eapply wp_mono; [apply stop_runtime_spec|].
  intros r m2 log2 (Hr & Hp2 & Hc2 & Hi2 & Hd2 & _ & Ha2 & ->). destruct r as [o|]; [|done].
  wp_step. apply apply_event_spec. rewrite Hp2, H1. simpl. destruct o; wp_steps; split_and!; done.
Qed.

(** Destroying a mesh always completes.  From any phase but [Stopping]
    the local record is first marked down (through the writer when it runs),
    then every component is told to stop, in order and whatever the earlier
    answers were; the mesh ends [Stopped] with no task, channel or dataplane
    left. *)
Theorem destroy_outcome (now : N) (m : Mesh) (log : list Call) :
  phase m <> Stopping ->
  wp (destroy env now) (fun r m' log' =>
    phase m' = Stopped /\ config m' = config m /\ idle m' /\ dataplane m' = false /\
    log' = (log ++
      (match authoritative_self m with
       | Some self => if self_record_tx m then [CWriterReplace (mark_down now self)] else []
       | None => []
       end)) ++ stop_calls StopStore m /\
    (self_record_tx m = false -> authoritative_self m' = mark_down now <$> authoritative_self m)) m log.
Proof.
  intros Hp. unfold destroy, update_authoritative_self_record. wp_step. apply apply_event_spec.
  assert (transition (phase m) DestroyRequested = Ok Stopping) as -> by (by destruct (phase m)).
  do 3 wp_step. simpl. destruct (authoritative_self m) as [self|] eqn:Ha.
  - do 2 wp_step. simpl. destruct (self_record_tx m) eqn:Hw;
      repeat first [eapply wp_mono; [by apply destroy_tail_spec|] | wp_step]; simpl.
    all: intros r m' log' (H1 & H2 & H3 & H4 & H5 & ->); rewrite ?app_nil_r; split_and!; naive_solver.
  - wp_step. eapply wp_mono; [by apply destroy_tail_spec|]; simpl.
    intros r m' log' (H1 & H2 & H3 & H4 & H5 & ->); rewrite ?app_nil_r; split_and!; try done.
    intros _. by rewrite H5.
Qed.

(** A subnet change restarts the runtime around the store. *)
Lemma bring_up_keeps_store : emits (fun c => c <> CStoreStop) (bring_up env).
Proof.
  unfold bring_up, apply_event, bring_up_container, bring_up_seed_peers, wait_service_ready,
    wait_store_init, start_peer_sync_task, bootstrap_gate, spawn_background_tasks,
    ensure_authoritative_self, spawn, apply_event, call_unit, call_service, call_poll, call_machines,
    call_subscribe.
  repeat emits_step.
Qed.

Lemma stop_runtime_keeps_store : emits (fun c => c <> CStoreStop) (stop_runtime env Keep).
Proof.
  unfold stop_runtime, clear_task_channels, call_tasks_stop, call_unit, call_service.
  repeat emits_step.
Qed.

(** Restarting the runtime for a subnet change never stops the store,
    whatever fails: no call the restart makes is a store stop. *)
Theorem restart_keeps_store (net : Driver) (container : bool) :
  emits (fun c => c <> CStoreStop) (restart_runtime_for_subnet_change env net container).
Proof.
  unfold restart_runtime_for_subnet_change, apply_event.
  repeat first [apply bring_up_keeps_store | apply stop_runtime_keeps_store | emits_step].
Qed.

(** The outcome of a restart, from any phase but [Stopping]. *)
Lemma restart_outcome net container m log :
  phase m <> Stopping ->
  wp (restart_runtime_for_subnet_change env net container) (fun r m' _ =>
    network m' = net /\ container_network m' = container /\
    match r with
    | Ok _ => phase m' = Running /\ operational m'
    | Err e => idle m' /\ (phase m' = Stopped \/ phase m' = Running)
    end) m log.
Proof.
  intros Hp. unfold restart_runtime_for_subnet_change. wp_step. apply apply_event_spec.
  assert (transition (phase m) DestroyRequested = Ok Stopping) as -> by (by destruct (phase m)).
  wp_step. eapply wp_mono; [apply stop_runtime_spec|].
  intros r m2 log2 (Hr & Hp2 & _ & Hi2 & _ & _ & _ & _). destruct r as [o|]; [|done].
  do 3 wp_step. apply apply_event_spec. simpl. rewrite Hp2. simpl. wp_step.
  apply apply_event_spec. simpl. do 2 wp_step.
  eapply wp_mono; [by apply bring_up_spec|]. intros r m3 log3 [Hc3 H3].
  assert (network m3 = net /\ container_network m3 = container) as [Hn Hk] by (by injection Hc3).
  destruct r as [[]|e]; [by wp_step|]. wp_step. eapply wp_mono; [apply stop_runtime_spec|].
  intros r m4 log4 (Hr4 & Hp4 & Hc4 & Hi4 & _). destruct r as [o'|]; [|done].
  assert (network m4 = net /\ container_network m4 = container) as [Hn4 Hk4]
    by (injection Hc4; intros; split; congruence).
  wp_step. apply apply_event_spec. rewrite Hp4. destruct (phase m3); try done; simpl; wp_steps;
    split_and!; auto.
Qed.
End claims.

(** ** Reachable states *)

(** One public operation under some environment, or the liveness task
    reporting its first heartbeat while it runs. *)
Inductive mesh_step : Mesh -> Mesh -> Prop :=
| step_up env m log : mesh_step m (up env (m, log)).2.1
| step_detach env m log : mesh_step m (detach env (m, log)).2.1
| step_destroy env now m log : mesh_step m (destroy env now (m, log)).2.1
| step_restart env net container m log :
    mesh_step m (restart_runtime_for_subnet_change env net container (m, log)).2.1
| step_update_self env update m log :
    mesh_step m (update_authoritative_self_record env update (m, log)).2.1
| step_heartbeat m ts :
    tasks m = Some ts -> TSelfLiveness ∈ ts ->
    mesh_step m {| phase := phase m; network := network m; container_network := container_network m;
      dataplane_factory := dataplane_factory m; tasks := tasks m; task_cancel := task_cancel m;
      peer_sync_tx := peer_sync_tx m; heartbeat_tx := heartbeat_tx m; self_liveness_tx := self_liveness_tx m;
      participation_tx := participation_tx m; self_record_tx := self_record_tx m; machine_id := machine_id m;
      seed_records := seed_records m; authoritative_self := authoritative_self m;
      allow_disconnected_bootstrap := allow_disconnected_bootstrap m; dataplane := dataplane m;
      wg_ifindex := wg_ifindex m; heartbeat_started := true |}.

Inductive reachable : Mesh -> Prop :=
| reach_new net container factory id seeds allow :
    reachable (with_bootstrap seeds allow (mesh_new net container factory id))
| reach_step m m' : reachable m -> mesh_step m m' -> reachable m'.

(** Between operations a mesh is stopped with nothing running, or running with
    everything; [Running] with nothing is what a late start failure leaves. *)
Definition mesh_inv (m : Mesh) : Prop :=
  phase m = Stopped /\ idle m \/ phase m = Running /\ (idle m \/ operational m).

Lemma inv_not_stopping m : mesh_inv m -> phase m <> Stopping.
Proof. intros [[-> _]|[-> _]]; done. Qed.

Lemma inv_up env m log : mesh_inv m -> wp (up env) (fun _ m' _ => mesh_inv m') m log.
Proof.
  intros [[Hp Hi]|[Hp Hi]].
  - unfold up, teardown. wp_step. apply apply_event_spec. rewrite Hp. simpl. do 2 wp_step.
    eapply wp_mono; [by apply bring_up_spec|]. intros r m1 log1 [_ H1].
    destruct r as [[]|e]; [wp_step; right; naive_solver|]. do 2 wp_step.
    eapply wp_mono; [apply stop_runtime_spec|].
    intros r m2 log2 (Hr & Hp2 & _ & Hi2 & _). destruct r as [o|]; [|done]. do 2 wp_step.
    apply apply_event_spec. rewrite Hp2. unfold mesh_inv.
    destruct (phase m1); try done; simpl; wp_steps; auto.
  - unfold up. wp_step. apply apply_event_spec. rewrite Hp. right. auto.
Qed.

Lemma inv_detach env m log : mesh_inv m -> wp (detach env) (fun _ m' _ => mesh_inv m') m log.
Proof.
  intros H. unfold detach, clear_task_channels, call_tasks_stop. wp_step. apply apply_event_spec.
  destruct H as [[Hp Hi]|[Hp Hi]]; rewrite Hp; simpl; [left; auto|].
  wp_steps; left; unfold idle; simpl; auto 10.
Qed.

Lemma inv_destroy env now m log :
  phase m <> Stopping -> wp (destroy env now) (fun _ m' _ => phase m' = Stopped /\ idle m') m log.
Proof.
  intros Hp. unfold destroy, update_authoritative_self_record. wp_step. apply apply_event_spec.
  assert (transition (phase m) DestroyRequested = Ok Stopping) as -> by (by destruct (phase m)).
  repeat first [eapply wp_mono; [by apply destroy_tail_spec|naive_solver] | wp_step].
Qed.

Lemma inv_update_self env update m log :
  mesh_inv m -> wp (update_authoritative_self_record env update) (fun _ m' _ => mesh_inv m') m log.
Proof.
  intros H. unfold update_authoritative_self_record. do 2 wp_step.
  destruct (authoritative_self m) as [r|] eqn:Ha; [|by wp_step].
  assert (forall x, mesh_inv (set_self (Some x) m)) as Hset.
  { intros x. destruct H as [H|[Hp [H|H]]]; [by left|right; split; [done|by left]|].
    right. split; [done|]. right. unfold operational in *. simpl. naive_solver. }
  wp_steps; [|by apply Hset].
  match goal with |- mesh_inv (set_self (match ?a with _ => _ end) _) => destruct a end;
    [apply Hset|rewrite Ha; apply Hset].
Qed.

(** Every operation keeps the invariant, under every environment. *)
Lemma mesh_step_inv m m' : mesh_step m m' -> mesh_inv m -> mesh_inv m'.
Proof.
  intros Hstep H. destruct Hstep as [env m log|env m log|env now m log|env net cn m log|env update m log|m ts Ht Hin].
  - by destruct (wp_run _ _ _ _ (inv_up env m log H)) as (_ & _ & ?).
  - by destruct (wp_run _ _ _ _ (inv_detach env m log H)) as (_ & _ & ?).
  - destruct (wp_run _ _ _ _ (inv_destroy env now m log (inv_not_stopping m H))) as (_ & _ & ?). by left.
  - destruct (wp_run _ _ _ _ (restart_outcome env net cn m log (inv_not_stopping m H)))
      as (r & log' & _ & _ & Hr).
    destruct r as [[]|e]; unfold mesh_inv; naive_solver.
  - by destruct (wp_run _ _ _ _ (inv_update_self env update m log H)) as (_ & _ & ?).
  - destruct H as [[_ Hi]|[Hp [Hi|Ho]]].
    1,2: unfold idle in Hi; naive_solver.
    right. split; [done|]. by right.
Qed.

Lemma reachable_inv m : reachable m -> mesh_inv m.
Proof. induction 1; [by left|]. eauto using mesh_step_inv. Qed.

(** Whatever sequence of starts, detaches, destroys, subnet restarts,
    record updates and heartbeats a mesh goes through, and however its drivers
    answer, between operations it is either [Stopped] with no task and no open
    channel, or [Running]; and a mesh that reports itself ready is [Running]
    with every task running, every channel open and a local record. *)
Theorem ready_means_operational (env : Env) (m : Mesh) (log : list Call) :
  reachable m ->
  (phase m = Stopped /\ idle m \/ phase m = Running) /\
  wp (ready_status env) (fun r m' _ =>
    m' = m /\ exists s, r = Ok s /\ (mrs_ready s = true -> phase m = Running /\ operational m)) m log.
Proof.
  intros Hr%reachable_inv. split; [destruct Hr; naive_solver|].
  assert (phase m = Running -> heartbeat_started m = true -> operational m) as Hop.
  { intros Hp Hh. destruct Hr as [[Hs _]|[_ [Hi|?]]]; [congruence| |done].
    unfold idle in Hi. destruct Hi as (_ & _ & _ & _ & _ & _ & _ & Hf). congruence. }
  unfold ready_status, call_poll, call_machines.
  wp_steps; (split; [done|]); eexists; (split; [done|]); simpl; intros Hb; to_prop; auto.
Qed.

(** ** Witnesses *)

(** An environment in which everything succeeds, except the calls [bad] selects. *)
Definition ok_env (bad : list Call -> Call -> bool) (self : MachineRecord) : Env := {|
  env_unit log c := if bad log c then Err (Operation "driver" "failed") else Ok tt;
  env_service _ _ := Ok tt;
  env_poll _ _ := true;
  env_machines _ := Ok [self];
  env_ifindex _ := Ok 7%N;
  env_sync _ := [Ok Synced];
  env_tasks_stop _ := Ok tt;
  env_writer _ r := Some r |}.

Definition sample_self : MachineRecord := {|
  mr_id := "m1"; mr_public_key := []; mr_overlay_ip := [253%N]; mr_subnet := None; mr_bridge_ip := None;
  mr_endpoints := []; mr_status := MsUp; mr_participation := Enabled; mr_last_heartbeat := 5;
  mr_created_at := 1; mr_updated_at := 5; mr_labels := ∅ |}.

Definition sample_mesh : Mesh := with_bootstrap [] false (mesh_new {| drv_mode := WgDocker |} true true "m1").
Definition all_ok : Env := ok_env (fun _ _ => false) sample_self.
(** The last subscription of a start fails. *)
Definition late_failure : Env :=
  ok_env (fun log c => bool_decide (c = CSubscribeMachines) && bool_decide (CSubscribeMachines ∈ log)) sample_self.

(** A start that fails after the mesh reached [Running] leaves the phase
    [Running]: when the subscription of the subnet monitor fails, everything is
    torn down but the caller gets an invalid-transition error instead of the
    subscription error, the next start is refused, and only a detach, a destroy
    or a subnet restart gets the mesh out of [Running]. *)
Example late_start_failure :
  let '(r, (m, log)) := up late_failure (sample_mesh, []) in
  r = Err (MeTransition (Invalid Running ComponentFailed)) /\
  phase m = Running /\ idle m /\ last log = Some CContainerRemove /\
  (up all_ok (m, log)).1 = Err (MeTransition (Invalid Running UpRequested)) /\
  phase (detach all_ok (m, log)).2.1 = Stopped.
Proof. vm_compute. by split_and!. Qed.


Definition sample_running : Mesh := (up all_ok (sample_mesh, [])).2.1.

Lemma destroy_outcome_witness :
  phase sample_running <> Stopping /\
  wp (destroy all_ok 9) (fun r m' _ => phase m' = Stopped /\ idle m') sample_running [].
Proof.
  assert (phase sample_running <> Stopping) as Hp by (vm_compute; discriminate).
  split; [exact Hp|].
  apply (wp_mono _ _ _ _ _ (destroy_outcome all_ok 9 sample_running [] Hp)).
  intros r m' log' (H1 & _ & H2 & _). exact (conj H1 H2).
Defined.

Lemma ready_means_operational_witness :
  reachable sample_running /\ (phase sample_running = Stopped /\ idle sample_running \/ phase sample_running = Running).
Proof.
  assert (reachable sample_running) as Hr.
  { exact (reach_step sample_mesh _ (reach_new _ _ _ _ _ _) (step_up all_ok sample_mesh [])). }
  split; [exact Hr|]. apply (ready_means_operational all_ok sample_running [] Hr).
Defined.
