(* ===== verification/Peer.v ===== *)
(** * Peer endpoints

    [peer.rs]: endpoint rotation and the status of one WireGuard peer.
    [peer_state.rs]: the peers the mesh knows, how their endpoints are ranked and
    which peers are programmed into the device.  [tasks/peer_sync.rs]: the task
    that drives them, and the collection of probe answers of [probe.rs].

    Times are arguments; the device's answer and the probe answers are arguments
    too.  A task step returns the new state and the list given to [set_peers],
    when it is called. *)

From S2P Require Import Prelude Order Text Types Liveness.

(** ** One WireGuard peer *)

Module Wg.
Definition ENDPOINT_CONNECTION_TIMEOUT : Duration := from_secs 15.
Definition PEER_DOWN_INTERVAL : Duration := from_secs 275.

Inductive PeerStatus := Up | Down | Unknown.
#[global] Instance PeerStatus_eq_dec : EqDecision PeerStatus.
Proof. solve_decision. Defined.

Record WireGuardPeer := {
  endpoints : list string;
  active_endpoint : nat;
  last_endpoint_change : Instant;
  last_handshake : option Instant;
  status : PeerStatus
}.

Definition new (eps : list string) (now : Instant) : WireGuardPeer := {|
  endpoints := eps; active_endpoint := 0; last_endpoint_change := now;
  last_handshake := None; status := Unknown |}.

(** The method [active_endpoint]. *)
Definition active (p : WireGuardPeer) : option string := endpoints p !! active_endpoint p.

Definition with_status (s : PeerStatus) (p : WireGuardPeer) : WireGuardPeer := {|
  endpoints := endpoints p; active_endpoint := active_endpoint p;
  last_endpoint_change := last_endpoint_change p; last_handshake := last_handshake p; status := s |}.

Definition with_handshake (hs : option Instant) (p : WireGuardPeer) : WireGuardPeer := {|
  endpoints := endpoints p; active_endpoint := active_endpoint p;
  last_endpoint_change := last_endpoint_change p; last_handshake := hs; status := status p |}.

Definition calculate_status (p : WireGuardPeer) (now : Instant) : WireGuardPeer :=
  let since_change := duration_since now (last_endpoint_change p) in
  with_status
    (if (since_change <? ENDPOINT_CONNECTION_TIMEOUT)%N then
       match last_handshake p with
       | Some hs => if (last_endpoint_change p <=? hs)%N then Up else Unknown
       | None => Unknown
       end
     else if (since_change <? PEER_DOWN_INTERVAL)%N then
       match last_handshake p with
       | Some hs => if (last_endpoint_change p <=? hs)%N then Up else Down
       | None => Down
       end
     else
       match last_handshake p with
       | Some hs => if (duration_since now hs <? PEER_DOWN_INTERVAL)%N then Up else Down
       | None => Down
       end) p.

Definition should_change_endpoint (p : WireGuardPeer) : bool :=
  bool_decide (status p = Down) && (1 <? length (endpoints p))%nat.

Definition rotate_endpoint (p : WireGuardPeer) (now : Instant) : WireGuardPeer :=
  match endpoints p with
  | [] => p
  | _ => {| endpoints := endpoints p;
            active_endpoint := (active_endpoint p + 1) mod length (endpoints p);
            last_endpoint_change := now; last_handshake := last_handshake p; status := Unknown |}
  end.

(** [iter().position(|e| e == x)]. *)
Definition position (x : string) (l : list string) : option nat :=
  fst <$> list_find (fun e => e = x) l.

Definition update_endpoints (p : WireGuardPeer) (new : list string) : WireGuardPeer :=
  {| endpoints := new;
     active_endpoint :=
       match new with
       | [] => 0
       | _ => match active p with
              | Some current => default 0 (position current new)
              | None => 0
              end
       end;
     last_endpoint_change := last_endpoint_change p;
     last_handshake := last_handshake p; status := status p |}.

(** The active index points into the list, when there is one. *)
Definition wf (p : WireGuardPeer) : Prop :=
  match endpoints p with [] => active_endpoint p = 0 | l => active_endpoint p < length l end.

Lemma position_Some x l i : position x l = Some i -> l !! i = Some x.
Proof.
  unfold position. destruct (list_find _ l) as [[j y]|] eqn:E; simpl; [|done].
  intros [= <-]. by apply list_find_Some in E as (? & -> & _).
Qed.

Lemma position_elem x l : x ∈ l -> exists i, position x l = Some i /\ l !! i = Some x.
Proof.
  intros Hx. destruct (list_find_elem_of (fun e => e = x) l x) as [[i y] E]; [done..|].
  assert (position x l = Some i) as Hp by (unfold position; by rewrite E).
  exists i. split; [done|]. by apply position_Some.
Qed.

Lemma wf_active p : wf p -> is_Some (active p) \/ endpoints p = [].
Proof.
  unfold wf, active. destruct (endpoints p); [auto|]. intros. left. by apply lookup_lt_is_Some.
Qed.

Lemma update_endpoints_wf p new : wf (update_endpoints p new).
Proof.
  unfold wf, update_endpoints. simpl. destruct new as [|e new]; [done|].
  destruct (active p) as [c|]; simpl; [|lia].
  destruct (position c (e :: new)) as [i|] eqn:E; simpl; [|lia].
  apply position_Some in E. by apply lookup_lt_Some in E.
Qed.

Lemma rotate_endpoint_wf p now : wf p -> wf (rotate_endpoint p now).
Proof.
  intros Hp. destruct p as [eps act ? ? ?]. unfold wf, rotate_endpoint in *. cbn [endpoints] in *.
  destruct eps as [|e eps]; [done|]. cbn [endpoints active_endpoint].
  pose proof (Nat.mod_upper_bound (act + 1) (length (e :: eps)) ltac:(done)). lia.
Qed.

(** An endpoint that is still advertised stays active. *)
Lemma update_endpoints_active p new c :
  active p = Some c -> c ∈ new -> active (update_endpoints p new) = Some c.
Proof.
  intros Ha Hin. destruct (position_elem c new Hin) as (i & Hi & Hl).
  unfold active, update_endpoints in *. simpl. destruct new as [|e new]; [done|].
  fold (active p). unfold active. by rewrite Ha, Hi.
Qed.
End Wg.

(** ** The state of a peer *)

Inductive SelectionReason :=
| AdvertisedOrder | PreservedLiveEndpoint | TcpProbeRanking | WireguardFallback.

Record EndpointCandidateState := {
  ec_endpoint : string;
  ec_advertised_index : nat;
  ec_last_tcp_probe_rtt : option Duration;
  ec_tcp_probe_status : TcpProbeStatus;
  ec_last_wg_success : option Instant;
  ec_last_wg_failure : option Instant
}.

Definition candidate_new (endpoint : string) (index : nat) : EndpointCandidateState := {|
  ec_endpoint := endpoint; ec_advertised_index := index; ec_last_tcp_probe_rtt := None;
  ec_tcp_probe_status := Unreachable; ec_last_wg_success := None; ec_last_wg_failure := None |}.

Definition merge_preserving_history (self other : EndpointCandidateState) : EndpointCandidateState := {|
  ec_endpoint := ec_endpoint self; ec_advertised_index := ec_advertised_index self;
  ec_last_tcp_probe_rtt := ec_last_tcp_probe_rtt other; ec_tcp_probe_status := ec_tcp_probe_status other;
  ec_last_wg_success := ec_last_wg_success other; ec_last_wg_failure := ec_last_wg_failure other |}.

Definition with_wg_success (t : Instant) (c : EndpointCandidateState) : EndpointCandidateState := {|
  ec_endpoint := ec_endpoint c; ec_advertised_index := ec_advertised_index c;
  ec_last_tcp_probe_rtt := ec_last_tcp_probe_rtt c; ec_tcp_probe_status := ec_tcp_probe_status c;
  ec_last_wg_success := Some t; ec_last_wg_failure := ec_last_wg_failure c |}.

Definition with_wg_failure (t : Instant) (c : EndpointCandidateState) : EndpointCandidateState := {|
  ec_endpoint := ec_endpoint c; ec_advertised_index := ec_advertised_index c;
  ec_last_tcp_probe_rtt := ec_last_tcp_probe_rtt c; ec_tcp_probe_status := ec_tcp_probe_status c;
  ec_last_wg_success := ec_last_wg_success c; ec_last_wg_failure := Some t |}.

Definition with_probe (r : TcpProbeResult) (c : EndpointCandidateState) : EndpointCandidateState := {|
  ec_endpoint := ec_endpoint c; ec_advertised_index := ec_advertised_index c;
  ec_last_tcp_probe_rtt := tp_rtt r; ec_tcp_probe_status := tp_status r;
  ec_last_wg_success := ec_last_wg_success c; ec_last_wg_failure := ec_last_wg_failure c |}.

(** [iter_mut().find(p)] followed by an update: the first match changes. *)
Fixpoint update_first {A} (p : A -> bool) (f : A -> A) (l : list A) : list A :=
  match l with
  | [] => []
  | x :: l => if p x then f x :: l else x :: update_first p f l
  end.

Definition build_candidates (endpoints : list string) (existing : list EndpointCandidateState)
    : list EndpointCandidateState :=
  imap (fun index endpoint =>
    let candidate := candidate_new endpoint index in
    match list_find (fun previous => ec_endpoint previous = endpoint) existing with
    | Some (_, previous) => merge_preserving_history candidate previous
    | None => candidate
    end) endpoints.

Definition compare_option_duration_asc (a b : option Duration) : comparison :=
  match a, b with
  | Some a, Some b => N.compare a b
  | Some _, None => Lt
  | None, Some _ => Gt
  | None, None => Eq
  end.

Definition compare_option_instant_desc (a b : option Instant) : comparison :=
  match a, b with
  | Some a, Some b => N.compare b a
  | Some _, None => Lt
  | None, Some _ => Gt
  | None, None => Eq
  end.

Definition compare_probe_status (a b : TcpProbeStatus) : comparison :=
  match a, b with
  | Reachable, Unreachable => Lt
  | Unreachable, Reachable => Gt
  | _, _ => Eq
  end.

Definition compare_candidates (a b : EndpointCandidateState) : comparison :=
  then_with (compare_probe_status (ec_tcp_probe_status a) (ec_tcp_probe_status b))
    (then_with (compare_option_duration_asc (ec_last_tcp_probe_rtt a) (ec_last_tcp_probe_rtt b))
      (then_with (compare_option_instant_desc (ec_last_wg_success a) (ec_last_wg_success b))
        (Nat.compare (ec_advertised_index a) (ec_advertised_index b)))).

Record DevicePeer := {
  dv_public_key : PublicKey;
  dv_endpoint : option string;
  dv_last_handshake : option Instant
}.

Record PeerState := {
  pr_id : MachineId;
  pr_public_key : PublicKey;
  pr_overlay_ip : OverlayIp;
  pr_subnet : option Ipv4Net;
  pr_bridge_ip : option OverlayIp;
  pr_runtime : Wg.WireGuardPeer;
  pr_candidates : list EndpointCandidateState;
  pr_selection_reason : SelectionReason;
  pr_needs_ranking : bool
}.

Definition peer_from_record (record : MachineRecord) (now : Instant) : PeerState := {|
  pr_id := mr_id record; pr_public_key := mr_public_key record; pr_overlay_ip := mr_overlay_ip record;
  pr_subnet := mr_subnet record; pr_bridge_ip := mr_bridge_ip record;
  pr_runtime := Wg.new (mr_endpoints record) now;
  pr_candidates := build_candidates (mr_endpoints record) [];
  pr_selection_reason := AdvertisedOrder;
  pr_needs_ranking := match mr_endpoints record with [] => false | _ => true end |}.

(** Replace the runtime, candidates, selection reason and ranking flag. *)
Definition with_runtime (rt : Wg.WireGuardPeer) (cs : list EndpointCandidateState)
    (reason : SelectionReason) (rank : bool) (p : PeerState) : PeerState := {|
  pr_id := pr_id p; pr_public_key := pr_public_key p; pr_overlay_ip := pr_overlay_ip p;
  pr_subnet := pr_subnet p; pr_bridge_ip := pr_bridge_ip p; pr_runtime := rt; pr_candidates := cs;
  pr_selection_reason := reason; pr_needs_ranking := rank |}.

Definition update_from_record (self : PeerState) (record : MachineRecord) : PeerState :=
  let previous_active := Wg.active (pr_runtime self) in
  let runtime := Wg.update_endpoints (pr_runtime self) (mr_endpoints record) in
  {| pr_id := pr_id self; pr_public_key := mr_public_key record; pr_overlay_ip := mr_overlay_ip record;
     pr_subnet := mr_subnet record; pr_bridge_ip := mr_bridge_ip record;
     pr_runtime := runtime;
     pr_candidates := build_candidates (mr_endpoints record) (pr_candidates self);
     pr_selection_reason := pr_selection_reason self;
     pr_needs_ranking :=
       match Wg.endpoints runtime with
       | [] => false
       | _ =>
           let active_removed :=
             match previous_active with
             | Some endpoint => bool_decide (endpoint ∉ Wg.endpoints runtime)
             | None => false
             end in
           match Wg.status runtime with
           | Wg.Up => active_removed
           | Wg.Down | Wg.Unknown => true
           end
       end |}.

(** [rotate_left]. *)
Definition rotate_left {A} (l : list A) (n : nat) : list A := drop n l ++ take n l.

Definition planned_endpoints (self : PeerState) : list string :=
  let endpoints := Wg.endpoints (pr_runtime self) in
  match endpoints with
  | [] => endpoints
  | _ => rotate_left endpoints (Wg.active_endpoint (pr_runtime self) mod length endpoints)
  end.

Definition endpoint_is (e : string) (c : EndpointCandidateState) : bool := bool_decide (ec_endpoint c = e).

Definition seed_from_device (self : PeerState) (device_peer : DevicePeer) (now : Instant) : PeerState :=
  match dv_endpoint device_peer, dv_last_handshake device_peer with
  | Some endpoint, Some last_handshake =>
      match checked_duration_since now last_handshake with
      | None => self
      | Some elapsed =>
          if (Wg.PEER_DOWN_INTERVAL <=? elapsed)%N then self else
          match Wg.position endpoint (Wg.endpoints (pr_runtime self)) with
          | None => self
          | Some active_endpoint =>
              with_runtime
                (Wg.calculate_status
                   {| Wg.endpoints := Wg.endpoints (pr_runtime self);
                      Wg.active_endpoint := active_endpoint;
                      Wg.last_endpoint_change := last_handshake;
                      Wg.last_handshake := Some last_handshake;
                      Wg.status := Wg.status (pr_runtime self) |} now)
                (update_first (endpoint_is endpoint) (with_wg_success last_handshake) (pr_candidates self))
                PreservedLiveEndpoint false self
          end
      end
  | _, _ => self
  end.

(** The part of [refresh_from_device] that records what the device reports. *)
Definition observe_device (self : PeerState) (device_peer : option DevicePeer) (now : Instant) : PeerState :=
  match device_peer with
  | Some d =>
      let self := seed_from_device self d now in
      let matches_known_endpoint :=
        match dv_endpoint d with
        | Some endpoint => bool_decide (endpoint ∈ Wg.endpoints (pr_runtime self))
        | None => false
        end in
      with_runtime
        (Wg.with_handshake (if matches_known_endpoint then dv_last_handshake d else None) (pr_runtime self))
        (match dv_endpoint d, dv_last_handshake d with
         | Some endpoint, Some last_handshake =>
             update_first (endpoint_is endpoint) (with_wg_success last_handshake) (pr_candidates self)
         | _, _ => pr_candidates self
         end)
        (pr_selection_reason self) (pr_needs_ranking self) self
  | None =>
      with_runtime (Wg.with_handshake None (pr_runtime self)) (pr_candidates self)
        (pr_selection_reason self) (pr_needs_ranking self) self
  end.

Definition refresh_from_device (self : PeerState) (device_peer : option DevicePeer) (now : Instant)
    : bool * PeerState :=
  let self := observe_device self device_peer now in
  let runtime := Wg.calculate_status (pr_runtime self) now in
  if decide (Wg.status runtime = Wg.Up) then
    (false, with_runtime runtime (pr_candidates self) (pr_selection_reason self) false self)
  else if (bool_decide (Wg.status runtime = Wg.Down) && (1 <? length (Wg.endpoints runtime))%nat)%bool then
    let previous_active := Wg.active runtime in
    let candidates :=
      match previous_active with
      | Some e => update_first (endpoint_is e) (with_wg_failure now) (pr_candidates self)
      | None => pr_candidates self
      end in
    let runtime := Wg.rotate_endpoint runtime now in
    (bool_decide (previous_active <> Wg.active runtime),
     with_runtime runtime candidates WireguardFallback false self)
  else
    (false, with_runtime runtime (pr_candidates self) (pr_selection_reason self) false self).

Definition apply_probe_results (self : PeerState) (results : gmap string TcpProbeResult) (now : Instant)
    : bool * PeerState :=
  let candidates :=
    (fun c => match results !! ec_endpoint c with Some r => with_probe r c | None => c end)
      <$> pr_candidates self in
  if existsb (fun c => bool_decide (ec_tcp_probe_status c = Reachable)) candidates then
    let previous_active := Wg.active (pr_runtime self) in
    let candidates := sort_by compare_candidates candidates in
    let runtime := {| Wg.endpoints := ec_endpoint <$> candidates; Wg.active_endpoint := 0;
                      Wg.last_endpoint_change := now; Wg.last_handshake := None;
                      Wg.status := Wg.Unknown |} in
    (bool_decide (previous_active <> Wg.active runtime),
     with_runtime runtime candidates TcpProbeRanking false self)
  else
    (false, with_runtime (pr_runtime self) candidates (pr_selection_reason self) false self).

(** ** All peers *)

Record PeerStateMap := {
  stored_peers : gmap string PeerState;
  transient_peers : gmap string PeerState
}.
Definition peer_map_new : PeerStateMap := {| stored_peers := ∅; transient_peers := ∅ |}.

(** [entry(id).and_modify(update).or_insert_with(new)]. *)
Definition entry_upsert (record : MachineRecord) (now : Instant) (m : gmap string PeerState)
    : gmap string PeerState :=
  <[mr_id record := match m !! mr_id record with
                    | Some ps => update_from_record ps record
                    | None => peer_from_record record now
                    end]> m.

Definition init_from_snapshot (self : PeerStateMap) (records : list MachineRecord) (now : Instant)
    : PeerStateMap :=
  {| stored_peers :=
       foldl (fun m r => match m !! mr_id r with
                         | Some _ => m
                         | None => <[mr_id r := peer_from_record r now]> m
                         end) (stored_peers self) records;
     transient_peers := transient_peers self |}.

Definition upsert_stored (self : PeerStateMap) (record : MachineRecord) (now : Instant) : PeerStateMap :=
  {| stored_peers := entry_upsert record now (stored_peers self);
     transient_peers := delete (mr_id record) (transient_peers self) |}.

Definition upsert_transient (self : PeerStateMap) (record : MachineRecord) (now : Instant) : PeerStateMap :=
  match stored_peers self !! mr_id record with
  | Some _ => self
  | None => {| stored_peers := stored_peers self;
               transient_peers := entry_upsert record now (transient_peers self) |}
  end.

Definition remove_stored (self : PeerStateMap) (id : MachineId) : PeerStateMap :=
  {| stored_peers := delete id (stored_peers self); transient_peers := transient_peers self |}.

Definition remove_transient (self : PeerStateMap) (id : MachineId) : PeerStateMap :=
  {| stored_peers := stored_peers self; transient_peers := delete id (transient_peers self) |}.

Definition apply_machine_event (self : PeerStateMap) (event : MachineEvent) (now : Instant) : PeerStateMap :=
  match event with
  | MeAdded r | MeUpdated r => upsert_stored self r now
  | MeRemoved r => remove_stored self (mr_id r)
  end.

(** [device_peers.iter().map(..).collect()]: the last peer with a key wins. *)
Definition peers_by_key (device_peers : list DevicePeer) : gmap (list N) DevicePeer :=
  foldl (fun m d => <[dv_public_key d := d]> m) ∅ device_peers.

Definition seed_from_device_peers (self : PeerStateMap) (device_peers : list DevicePeer) (now : Instant)
    : PeerStateMap :=
  let by_key := peers_by_key device_peers in
  let seed ps := match by_key !! pr_public_key ps with
                 | Some d => seed_from_device ps d now
                 | None => ps
                 end in
  {| stored_peers := seed <$> stored_peers self; transient_peers := seed <$> transient_peers self |}.

Definition refresh_from_device_peers (self : PeerStateMap) (device_peers : list DevicePeer) (now : Instant)
    : bool * PeerStateMap :=
  let by_key := peers_by_key device_peers in
  let refresh ps := refresh_from_device ps (by_key !! pr_public_key ps) now in
  let stored := refresh <$> stored_peers self in
  let transient := refresh <$> transient_peers self in
  (existsb (fun kv => kv.2.1) (map_to_list stored) || existsb (fun kv => kv.2.1) (map_to_list transient),
   {| stored_peers := snd <$> stored; transient_peers := snd <$> transient |})%bool.

Definition needs_probe (ps : PeerState) : bool :=
  pr_needs_ranking ps && (1 <? length (Wg.endpoints (pr_runtime ps)))%nat.

Definition pending_rankings (self : PeerStateMap) : list (MachineId * list string) :=
  (fun kv => (pr_id kv.2, Wg.endpoints (pr_runtime kv.2))) <$>
    filter (fun kv => needs_probe kv.2 = true) (map_to_list (stored_peers self)) ++
    filter (fun kv => needs_probe kv.2 = true /\ stored_peers self !! pr_id kv.2 = None)
      (map_to_list (transient_peers self)).

Definition map_apply_probe_results (self : PeerStateMap) (id : MachineId)
    (results : gmap string TcpProbeResult) (now : Instant) : bool * PeerStateMap :=
  match stored_peers self !! id with
  | Some ps =>
      let '(changed, ps) := apply_probe_results ps results now in
      (changed, {| stored_peers := <[id := ps]> (stored_peers self);
                   transient_peers := transient_peers self |})
  | None =>
      match transient_peers self !! id with
      | Some ps =>
          let '(changed, ps) := apply_probe_results ps results now in
          (changed, {| stored_peers := stored_peers self;
                       transient_peers := <[id := ps]> (transient_peers self) |})
      | None => (false, self)
      end
  end.

Definition peer_state_to_planned_record (ps : PeerState) : MachineRecord := {|
  mr_id := pr_id ps; mr_public_key := pr_public_key ps; mr_overlay_ip := pr_overlay_ip ps;
  mr_subnet := pr_subnet ps; mr_bridge_ip := pr_bridge_ip ps; mr_endpoints := planned_endpoints ps;
  mr_status := MsUnknown; mr_participation := Disabled; mr_last_heartbeat := 0;
  mr_created_at := 0; mr_updated_at := 0; mr_labels := ∅ |}.

Definition plan_mesh_peers (state : PeerStateMap) (local_machine_id : MachineId) : list MachineRecord :=
  (fun kv => peer_state_to_planned_record kv.2) <$>
    filter (fun kv => pr_id kv.2 <> local_machine_id /\ Wg.endpoints (pr_runtime kv.2) <> [])
      (map_to_list (stored_peers state)) ++
    filter (fun kv => pr_id kv.2 <> local_machine_id /\ stored_peers state !! pr_id kv.2 = None /\
                      Wg.endpoints (pr_runtime kv.2) <> [])
      (map_to_list (transient_peers state)).

(** ** The peer sync task *)

(** [probe_endpoints_parallel]: the probes complete in some order, a later
    answer for an endpoint replaces an earlier one. *)
Definition probe_endpoints_parallel (completions : list (string * option Duration))
    : gmap string TcpProbeResult :=
  foldl (fun m '(endpoint, rtt) =>
           <[endpoint := match rtt with Some d => probe_reachable d | None => probe_unreachable end]> m)
    ∅ completions.

Inductive PeerSyncCommand :=
| UpsertTransient (r : MachineRecord) | RemoveTransient (id : MachineId) | TickNow.

Section peer_sync.
(** How the probes of a list of endpoints complete. *)
Context (probe : list string -> list (string * option Duration)) (local_machine_id : MachineId).

Definition rank_pending_peers (state : PeerStateMap) (now : Instant) : bool * PeerStateMap :=
  foldl (fun '(changed, state) '(id, endpoints) =>
           let '(c, state) := map_apply_probe_results state id
                                (probe_endpoints_parallel (probe endpoints)) now in
           ((changed || c)%bool, state))
    (false, state) (pending_rankings state).

Definition read_device_peers (answer : Res (list DevicePeer)) : list DevicePeer :=
  match answer with Ok peers => peers | Err _ => [] end.

(** A tick: the peers given to [set_peers], if the configuration changed. *)
Definition peer_sync_tick (state : PeerStateMap) (device : Res (list DevicePeer)) (now now' : Instant)
    : option (list MachineRecord) * PeerStateMap :=
  let '(refreshed, state) := refresh_from_device_peers state (read_device_peers device) now in
  let '(ranked, state) := rank_pending_peers state now' in
  (if (refreshed || ranked)%bool then Some (plan_mesh_peers state local_machine_id) else None, state).

(** [rank_pending_peers] and [sync_peers] after an event or a command. *)
Definition rank_and_sync (state : PeerStateMap) (now : Instant)
    : option (list MachineRecord) * PeerStateMap :=
  let state := (rank_pending_peers state now).2 in
  (Some (plan_mesh_peers state local_machine_id), state).

(** The start of [run_peer_sync_task]. *)
Definition peer_sync_start (snapshot bootstrap_peers : list MachineRecord)
    (device : Res (list DevicePeer)) (now now' : Instant) : option (list MachineRecord) * PeerStateMap :=
  let state := init_from_snapshot peer_map_new snapshot now in
  let state := foldl (fun s r => if decide (mr_id r = local_machine_id) then s else upsert_transient s r now)
                 state bootstrap_peers in
  let state := seed_from_device_peers state (read_device_peers device) now in
  rank_and_sync state now'.

Inductive PeerSyncInput :=
| ITick (device : Res (list DevicePeer)) (now now' : Instant)
| IEvent (event : MachineEvent) (now now' : Instant)
| ICommand (command : PeerSyncCommand) (device : Res (list DevicePeer)) (now now' : Instant).

(** One iteration of the loop of [run_peer_sync_task]. *)
Definition peer_sync_step (state : PeerStateMap) (i : PeerSyncInput)
    : option (list MachineRecord) * PeerStateMap :=
  match i with
  | ITick device now now' => peer_sync_tick state device now now'
  | IEvent event now now' => rank_and_sync (apply_machine_event state event now) now'
  | ICommand (UpsertTransient r) _ now now' => rank_and_sync (upsert_transient state r now) now'
  | ICommand (RemoveTransient id) _ _ now' => rank_and_sync (remove_transient state id) now'
  | ICommand TickNow device now now' => peer_sync_tick state device now now'
  end.
End peer_sync.

(** ** A peer represents a machine record *)

(** The peer state carries the record's data; its endpoints are the record's in
    the order of preference, the candidates are about these endpoints, and the
    active index is valid. *)
Record represents (r : MachineRecord) (ps : PeerState) : Prop := {
  rp_id : pr_id ps = mr_id r;
  rp_key : pr_public_key ps = mr_public_key r;
  rp_overlay : pr_overlay_ip ps = mr_overlay_ip r;
  rp_subnet : pr_subnet ps = mr_subnet r;
  rp_bridge : pr_bridge_ip ps = mr_bridge_ip r;
  rp_endpoints : Wg.endpoints (pr_runtime ps) ≡ₚ mr_endpoints r;
  rp_candidates : ec_endpoint <$> pr_candidates ps ≡ₚ mr_endpoints r;
  rp_active : Wg.wf (pr_runtime ps)
}.

Create HintDb peer.

Lemma update_first_fmap {A B} (g : A -> B) p f (l : list A) :
  (forall x, g (f x) = g x) -> g <$> update_first p f l = g <$> l.
Proof. intros Hg. induction l as [|x l IH]; simpl; [done|]. destruct (p x); csimpl; by rewrite ?Hg, ?IH. Qed.

Lemma build_candidates_endpoints eps old : ec_endpoint <$> build_candidates eps old = eps.
Proof.
  unfold build_candidates. apply list_eq. intros i. rewrite list_lookup_fmap, list_lookup_imap.
  destruct (eps !! i) as [e|]; simpl; [|done]. by destruct (list_find _ old) as [[? ?]|].
Qed.

Lemma calculate_status_wf p now : Wg.wf p -> Wg.wf (Wg.calculate_status p now).
Proof. done. Qed.

Lemma calculate_status_endpoints p now :
  Wg.endpoints (Wg.calculate_status p now) = Wg.endpoints p.
Proof. done. Qed.

Lemma rotate_endpoint_endpoints p now : Wg.endpoints (Wg.rotate_endpoint p now) = Wg.endpoints p.
Proof. unfold Wg.rotate_endpoint. by destruct (Wg.endpoints p) eqn:E; simpl; rewrite ?E. Qed.

#[export] Hint Resolve calculate_status_wf Wg.rotate_endpoint_wf Wg.update_endpoints_wf : peer.

(** Replacing the runtime keeps the representation if the endpoints stay. *)
Lemma represents_with_runtime r ps rt cs reason rank :
  represents r ps -> Wg.endpoints rt = Wg.endpoints (pr_runtime ps) -> Wg.wf rt ->
  ec_endpoint <$> cs = ec_endpoint <$> pr_candidates ps ->
  represents r (with_runtime rt cs reason rank ps).
Proof. intros [] Hrt Hwf Hcs. split; simpl; rewrite ?Hrt, ?Hcs; done. Qed.

Lemma represents_new r now : represents r (peer_from_record r now).
Proof.
  split; simpl; try done; [by rewrite build_candidates_endpoints|].
  unfold Wg.wf, Wg.new; simpl. destruct (mr_endpoints r); simpl; lia.
Qed.

Lemma represents_update r0 r ps :
  represents r0 ps -> mr_id r0 = mr_id r -> represents r (update_from_record ps r).
Proof.
  intros [] Hid. split; simpl; try done; [congruence|by rewrite build_candidates_endpoints|].
  apply Wg.update_endpoints_wf.
Qed.

Lemma represents_seed r ps d now : represents r ps -> represents r (seed_from_device ps d now).
Proof.
  intros Hr. unfold seed_from_device. destruct (dv_endpoint d) as [e|]; [|done].
  destruct (dv_last_handshake d) as [hs|]; [|done]. destruct (checked_duration_since now hs); [|done].
  destruct (_ <=? _)%N; [done|]. destruct (Wg.position e _) as [i|] eqn:Hi; [|done].
  apply represents_with_runtime; [done|done| |by apply update_first_fmap].
  apply calculate_status_wf. apply Wg.position_Some, lookup_lt_Some in Hi. unfold Wg.wf. simpl.
  destruct (Wg.endpoints _); simpl in *; lia.
Qed.

Lemma represents_observe r ps d now : represents r ps -> represents r (observe_device ps d now).
Proof.
  intros Hr. unfold observe_device. destruct d as [d|].
  - pose proof (represents_seed r ps d now Hr) as Hs.
    apply represents_with_runtime; [done|done|apply Hs|].
    destruct (dv_endpoint d), (dv_last_handshake d); [by apply update_first_fmap|done..].
  - apply represents_with_runtime; [done|done|apply Hr|done].
Qed.

Lemma represents_refresh r ps d now : represents r ps -> represents r (refresh_from_device ps d now).2.
Proof.
  intros Hr%(represents_observe r ps d now). unfold refresh_from_device.
  set (ps1 := observe_device ps d now) in *. clearbody ps1.
  assert (Wg.wf (Wg.calculate_status (pr_runtime ps1) now)) by apply calculate_status_wf, Hr.
  case_decide; [|case_match]; apply represents_with_runtime; auto with peer.
  - by rewrite rotate_endpoint_endpoints.
  - case_match; [by apply update_first_fmap|done].
Qed.

Lemma represents_probe r ps results now : represents r ps -> represents r (apply_probe_results ps results now).2.
Proof.
  intros Hr. unfold apply_probe_results.
  set (cs := (fun c => _) <$> pr_candidates ps).
  assert (ec_endpoint <$> cs = ec_endpoint <$> pr_candidates ps) as Hcs.
  { unfold cs. rewrite <- list_fmap_compose. apply list_fmap_ext. intros i c _. simpl. by case_match. }
  destruct (existsb _ cs) eqn:Ex; [|apply represents_with_runtime; [done|done|apply Hr|done]].
  destruct Hr as [? ? ? ? ? Heps Hc Hwf]. split; simpl; try done.
  1,2: rewrite sort_by_perm, Hcs; done.
  unfold Wg.wf. simpl. destruct (ec_endpoint <$> sort_by compare_candidates cs); simpl; lia.
Qed.

(** ** The abstract view of the peer sync task *)

(** The records the task was told about: the store's, and the transient ones. *)
Record PeerView := { pv_stored : gmap string MachineRecord; pv_transient : gmap string MachineRecord }.

Definition peer_view (v : PeerView) : gmap string MachineRecord := pv_stored v ∪ pv_transient v.

Definition view_upsert_transient (v : PeerView) (r : MachineRecord) : PeerView :=
  match pv_stored v !! mr_id r with
  | Some _ => v
  | None => {| pv_stored := pv_stored v; pv_transient := <[mr_id r := r]> (pv_transient v) |}
  end.

Definition view_start (local : MachineId) (snapshot bootstrap : list MachineRecord) : PeerView :=
  foldl (fun v r => if decide (mr_id r = local) then v else view_upsert_transient v r)
    {| pv_stored := foldl (fun m r => match m !! mr_id r with Some _ => m | None => <[mr_id r := r]> m end)
                      ∅ snapshot;
       pv_transient := ∅ |} bootstrap.

Definition view_step (v : PeerView) (i : PeerSyncInput) : PeerView :=
  match i with
  | ITick _ _ _ | ICommand TickNow _ _ _ => v
  | IEvent (MeAdded r) _ _ | IEvent (MeUpdated r) _ _ =>
      {| pv_stored := <[mr_id r := r]> (pv_stored v); pv_transient := delete (mr_id r) (pv_transient v) |}
  | IEvent (MeRemoved r) _ _ =>
      {| pv_stored := delete (mr_id r) (pv_stored v); pv_transient := pv_transient v |}
  | ICommand (UpsertTransient r) _ _ _ => view_upsert_transient v r
  | ICommand (RemoveTransient id) _ _ _ =>
      {| pv_stored := pv_stored v; pv_transient := delete id (pv_transient v) |}
  end.

Definition refines (k : string) (r : MachineRecord) (ps : PeerState) : Prop := mr_id r = k /\ represents r ps.

Record view_rel (v : PeerView) (s : PeerStateMap) : Prop := {
  vr_stored : map_Forall2 refines (pv_stored v) (stored_peers s);
  vr_transient : map_Forall2 refines (pv_transient v) (transient_peers s)
}.

Lemma refines_lookup (m1 : gmap string MachineRecord) (m2 : gmap string PeerState) k :
  map_Forall2 refines m1 m2 ->
  match m1 !! k, m2 !! k with
  | Some r, Some ps => refines k r ps
  | None, None => True
  | _, _ => False
  end.
Proof. intros H. specialize (H k). destruct H; done. Qed.

Lemma refines_fmap (m1 : gmap string MachineRecord) (m2 : gmap string PeerState) (f : PeerState -> PeerState) :
  (forall r ps, represents r ps -> represents r (f ps)) ->
  map_Forall2 refines m1 m2 -> map_Forall2 refines m1 (f <$> m2).
Proof.
  intros Hf H k. specialize (H k). rewrite lookup_fmap. destruct H as [r ps [? ?]|]; constructor.
  split; auto.
Qed.

Lemma refines_upsert (m1 : gmap string MachineRecord) (m2 : gmap string PeerState) r now :
  map_Forall2 refines m1 m2 -> map_Forall2 refines (<[mr_id r := r]> m1) (entry_upsert r now m2).
Proof.
  intros H. unfold entry_upsert. apply map_Forall2_insert_2; [|done].
  pose proof (refines_lookup _ _ (mr_id r) H) as Hk. split; [done|].
  destruct (m2 !! mr_id r); [|apply represents_new].
  destruct (m1 !! mr_id r); [|done]. destruct Hk. by eapply represents_update.
Qed.

Lemma view_rel_transient v s r now :
  view_rel v s -> view_rel (view_upsert_transient v r) (upsert_transient s r now).
Proof.
  intros [Hs Ht]. unfold view_upsert_transient, upsert_transient.
  pose proof (refines_lookup _ _ (mr_id r) Hs) as Hk.
  destruct (pv_stored v !! mr_id r), (stored_peers s !! mr_id r); try done.
  split; simpl; [done|]. by apply refines_upsert.
Qed.

Lemma view_rel_probe v s id results now :
  view_rel v s -> view_rel v (map_apply_probe_results s id results now).2.
Proof.
  intros [Hs Ht]. unfold map_apply_probe_results.
  pose proof (refines_lookup _ _ id Hs) as Hks. pose proof (refines_lookup _ _ id Ht) as Hkt.
  destruct (stored_peers s !! id) as [ps|] eqn:Es.
  - destruct (pv_stored v !! id) as [r|] eqn:Er; [|done]. destruct Hks as [Hid Hrep].
    pose proof (represents_probe r ps results now Hrep) as Hp.
    destruct (apply_probe_results ps results now) as [c ps']. split; [|done]. simpl in *.
    rewrite <- (insert_id (pv_stored v) id r) by done. by apply map_Forall2_insert_2.
  - destruct (transient_peers s !! id) as [ps|] eqn:Et; [|done].
    destruct (pv_transient v !! id) as [r|] eqn:Er; [|done]. destruct Hkt as [Hid Hrep].
    pose proof (represents_probe r ps results now Hrep) as Hp.
    destruct (apply_probe_results ps results now) as [c ps']. split; [done|]. simpl in *.
    rewrite <- (insert_id (pv_transient v) id r) by done. by apply map_Forall2_insert_2.
Qed.

Lemma view_rel_rank probe v s now : view_rel v s -> view_rel v (rank_pending_peers probe s now).2.
Proof.
  intros H. unfold rank_pending_peers. generalize (pending_rankings s). intros l.
  assert (forall c s, view_rel v s -> view_rel v
    (foldl (fun '(changed, state) '(id, endpoints) =>
       let '(c, state) := map_apply_probe_results state id (probe_endpoints_parallel (probe endpoints)) now in
       ((changed || c)%bool, state)) (c, s) l).2) as Hf; [|by apply Hf].
  clear s H. induction l as [|[id eps] l IH]; intros c s H; simpl; [done|].
  pose proof (view_rel_probe v s id (probe_endpoints_parallel (probe eps)) now H) as H1.
  destruct (map_apply_probe_results s id _ now) as [c1 s1]. by apply IH.
Qed.

Lemma view_rel_refresh v s dps now : view_rel v s -> view_rel v (refresh_from_device_peers s dps now).2.
Proof.
  intros [Hs Ht]. unfold refresh_from_device_peers. simpl. rewrite <- !map_fmap_compose.
  split; simpl; apply refines_fmap; try done; intros r ps Hr; by apply represents_refresh.
Qed.

Lemma view_rel_seed v s dps now : view_rel v s -> view_rel v (seed_from_device_peers s dps now).
Proof.
  intros [Hs Ht]. split; simpl; apply refines_fmap; try done;
    intros r ps Hr; case_match; auto using represents_seed.
Qed.

Lemma view_rel_tick probe local v s device now now' :
  view_rel v s -> view_rel v (peer_sync_tick probe local s device now now').2.
Proof.
  intros H. unfold peer_sync_tick.
  pose proof (view_rel_refresh v s (read_device_peers device) now H) as H1.
  destruct (refresh_from_device_peers s _ now) as [c s1].
  pose proof (view_rel_rank probe v s1 now' H1) as H2. by destruct (rank_pending_peers probe s1 now').
Qed.

Lemma view_rel_event v s e now : 
  view_rel v s -> view_rel (view_step v (IEvent e now now)) (apply_machine_event s e now).
Proof.
  intros [Hs Ht]. destruct e; simpl; split; simpl;
    first [by apply refines_upsert | by apply map_Forall2_delete | done].
Qed.

#[export] Hint Resolve view_rel_transient view_rel_rank view_rel_tick view_rel_seed : peer.

Lemma view_rel_step probe local v s i :
  view_rel v s -> view_rel (view_step v i) (peer_sync_step probe local s i).2.
Proof.
  intros H. destruct i as [device now now'|e now now'|[r|id|] device now now']; simpl.
  - auto with peer.
  - apply view_rel_rank. pose proof (view_rel_event v s e now H). by destruct e.
  - auto with peer.
  - apply view_rel_rank. destruct H. split; simpl; [done|by apply map_Forall2_delete].
  - auto with peer.
Qed.

Lemma view_rel_start probe local snapshot bootstrap device now now' :
  view_rel (view_start local snapshot bootstrap)
    (peer_sync_start probe local snapshot bootstrap device now now').2.
Proof.
  unfold peer_sync_start, view_start. apply view_rel_rank, view_rel_seed.
  set (v0 := {| pv_stored := _; pv_transient := _ |}).
  set (s0 := init_from_snapshot _ _ _).
  assert (view_rel v0 s0) as H0.
  { split; [|apply map_Forall2_empty]. unfold v0, s0, init_from_snapshot. simpl.
    assert (forall (m1 : gmap string MachineRecord) (m2 : gmap string PeerState), map_Forall2 refines m1 m2 -> map_Forall2 refines
      (foldl (fun m r => match m !! mr_id r with Some _ => m | None => <[mr_id r := r]> m end) m1 snapshot)
      (foldl (fun m r => match m !! mr_id r with Some _ => m
                         | None => <[mr_id r := peer_from_record r now]> m end) m2 snapshot)) as Hf.
    { induction snapshot as [|r l IH]; intros m1 m2 Hm; simpl; [done|].
      pose proof (refines_lookup _ _ (mr_id r) Hm) as Hk.
      destruct (m1 !! mr_id r), (m2 !! mr_id r); try done; [by apply IH|].
      apply IH, map_Forall2_insert_2; [|done]. split; [done|apply represents_new]. }
    apply Hf, map_Forall2_empty. }
  clearbody v0 s0. revert v0 s0 H0.
  induction bootstrap as [|r l IH]; intros v0 s0 H0; simpl; [done|].
  case_decide; auto with peer.
Qed.

(** ** What is programmed into the device *)

Inductive peer_sync_reach (local : MachineId) : PeerView -> PeerStateMap -> Prop :=
| psr_start probe snapshot bootstrap device now now' :
    peer_sync_reach local (view_start local snapshot bootstrap)
      (peer_sync_start probe local snapshot bootstrap device now now').2
| psr_step probe v s i :
    peer_sync_reach local v s ->
    peer_sync_reach local (view_step v i) (peer_sync_step probe local s i).2.

Lemma peer_sync_reach_rel local v s : peer_sync_reach local v s -> view_rel v s.
Proof. induction 1; auto using view_rel_start, view_rel_step. Qed.

Lemma planned_endpoints_perm ps : planned_endpoints ps ≡ₚ Wg.endpoints (pr_runtime ps).
Proof.
  unfold planned_endpoints, rotate_left. destruct (Wg.endpoints _) as [|e l]; [done|].
  rewrite (comm (++)). by rewrite take_drop.
Qed.

Lemma planned_endpoints_head ps :
  Wg.wf (pr_runtime ps) -> head (planned_endpoints ps) = Wg.active (pr_runtime ps).
Proof.
  unfold planned_endpoints, Wg.wf, Wg.active, rotate_left.
  destruct (Wg.endpoints (pr_runtime ps)) as [|e l]; [by intros ->|].
  intros Hlt. rewrite Nat.mod_small by done.
  destruct (lookup_lt_is_Some_2 (e :: l) (Wg.active_endpoint (pr_runtime ps)) Hlt) as [x Hx].
  by rewrite (drop_S _ _ _ Hx), Hx.
Qed.

(** The peers the plan is made of. *)
Definition planned (v : PeerView) (local : MachineId) (r : MachineRecord) : Prop :=
  peer_view v !! mr_id r = Some r /\ mr_id r <> local /\ mr_endpoints r <> [].

Lemma elem_of_plan s local p :
  p ∈ plan_mesh_peers s local <-> exists k ps,
    p = peer_state_to_planned_record ps /\ pr_id ps <> local /\ Wg.endpoints (pr_runtime ps) <> [] /\
    (stored_peers s !! k = Some ps \/ transient_peers s !! k = Some ps /\ stored_peers s !! pr_id ps = None).
Proof.
  unfold plan_mesh_peers. rewrite list_elem_of_fmap. setoid_rewrite elem_of_app.
  setoid_rewrite list_elem_of_filter. split.
  - intros ([k ps] & -> & H). setoid_rewrite elem_of_map_to_list in H. exists k, ps. naive_solver.
  - intros (k & ps & -> & H1 & H2 & H). exists (k, ps). setoid_rewrite elem_of_map_to_list. naive_solver.
Qed.

Lemma refines_ids (m1 : gmap string MachineRecord) (m2 : gmap string PeerState) k ps :
  map_Forall2 refines m1 m2 -> m2 !! k = Some ps ->
  exists r, m1 !! k = Some r /\ mr_id r = k /\ pr_id ps = k /\ represents r ps.
Proof.
  intros H Hk. pose proof (refines_lookup _ _ k H) as Hl. rewrite Hk in Hl.
  destruct (m1 !! k) as [r|]; [|done]. destruct Hl as [Hid Hrep]. pose proof (rp_id _ _ Hrep).
  exists r. split_and!; congruence.
Qed.

Lemma NoDup_filter_keys (m : gmap string PeerState) (P : string * PeerState -> Prop) `{!forall x, Decision (P x)} :
  NoDup (filter P (map_to_list m)).*1.
Proof.
  eapply sublist_NoDup; [apply (NoDup_fst_map_to_list m)|].
  apply fmap_sublist, sublist_filter.
Qed.

Lemma plan_NoDup v s local : view_rel v s -> NoDup (mr_id <$> plan_mesh_peers s local).
Proof.
  intros [Hs Ht]. unfold plan_mesh_peers. rewrite <- list_fmap_compose, fmap_app.
  assert (forall (m1 : gmap string MachineRecord) m2 (P : string * PeerState -> Prop)
            `{!forall x, Decision (P x)}, map_Forall2 refines m1 m2 ->
    ((mr_id ∘ (fun kv : string * PeerState => peer_state_to_planned_record kv.2))
      <$> filter P (map_to_list m2)) = (filter P (map_to_list m2)).*1) as Hkeys.
  { intros m1 m2 P ? H. apply list_fmap_ext. intros i [k ps] Hi%list_elem_of_lookup_2.
    apply list_elem_of_filter in Hi as [_ Hi%elem_of_map_to_list].
    destruct (refines_ids _ _ _ _ H Hi) as (r & _ & _ & Hid & _). done. }
  rewrite (Hkeys _ _ _ _ Hs), (Hkeys _ _ _ _ Ht). apply NoDup_app. split_and!.
  - apply NoDup_filter_keys.
  - intros k ([k1 ps1] & -> & H1)%list_elem_of_fmap ([k2 ps2] & Hk & H2)%list_elem_of_fmap.
    apply list_elem_of_filter in H1 as [_ H1%elem_of_map_to_list].
    apply list_elem_of_filter in H2 as [(_ & Hn & _) H2%elem_of_map_to_list]. simpl in *. subst.
    destruct (refines_ids _ _ _ _ Ht H2) as (r & _ & _ & Hid & _). congruence.
  - apply NoDup_filter_keys.
Qed.


(** ** A silent peer tries all its endpoints *)

(** The device knows no handshake of the peer. *)
Definition silent (d : option DevicePeer) : Prop :=
  match d with Some d => dv_last_handshake d = None | None => True end.

Lemma silent_observe ps d now :
  silent d ->
  pr_runtime (observe_device ps d now) = Wg.with_handshake None (pr_runtime ps) /\
  pr_id (observe_device ps d now) = pr_id ps.
Proof.
  destruct d as [[key ep hs]|]; simpl; [|done]. intros ->. unfold seed_from_device. simpl.
  destruct ep; simpl; by repeat case_match.
Qed.

(** One tick without handshakes: after the grace period the next endpoint
    becomes active, before that nothing changes. *)
Lemma silent_tick ps d now :
  silent d -> 1 < length (Wg.endpoints (pr_runtime ps)) ->
  let rt := pr_runtime ps in
  let rt' := pr_runtime (refresh_from_device ps d now).2 in
  Wg.endpoints rt' = Wg.endpoints rt /\
  (if (Wg.ENDPOINT_CONNECTION_TIMEOUT <=? now - Wg.last_endpoint_change rt)%N
   then Wg.active_endpoint rt' = (Wg.active_endpoint rt + 1) mod length (Wg.endpoints rt) /\
        Wg.last_endpoint_change rt' = now
   else Wg.active_endpoint rt' = Wg.active_endpoint rt /\
        Wg.last_endpoint_change rt' = Wg.last_endpoint_change rt).
Proof.
  intros Hd Hlen rt rt'. destruct (silent_observe ps d now Hd) as [Hobs _].
  unfold rt', refresh_from_device. rewrite Hobs. fold rt in Hlen |- *.
  unfold Wg.calculate_status, Wg.with_handshake, Wg.with_status, duration_since. simpl.
  destruct (N.leb_spec Wg.ENDPOINT_CONNECTION_TIMEOUT (now - Wg.last_endpoint_change rt)) as [Hle|Hlt].
  - rewrite (proj2 (N.ltb_ge _ _) Hle).
    assert ((1 <? length (Wg.endpoints rt)) = true) as Hl by (by apply Nat.ltb_lt).
    destruct (now - Wg.last_endpoint_change rt <? Wg.PEER_DOWN_INTERVAL)%N; simpl; rewrite Hl; simpl;
      unfold Wg.rotate_endpoint; simpl; destruct (Wg.endpoints rt); simpl in *; try lia; done.
  - rewrite (proj2 (N.ltb_lt _ _) Hlt). done.
Qed.

Section silent_peer.
Context (ps : PeerState) (t : nat -> Instant) (d : nat -> option DevicePeer) (m : nat).
Let n := length (Wg.endpoints (pr_runtime ps)).
Hypothesis Hlen : 1 < n.
Hypothesis Hactive : Wg.active_endpoint (pr_runtime ps) < n.
Hypothesis Hstart : (Wg.last_endpoint_change (pr_runtime ps) <= t 0)%N.
Hypothesis Hmono : forall i, (t i <= t (S i))%N.
Hypothesis Hpace : forall i, (t i + Wg.ENDPOINT_CONNECTION_TIMEOUT <= t (i + m))%N.
Hypothesis Hsilent : forall i, silent (d i).

(** The peer after [k] ticks, at times [t 1], ..., [t k]. *)
Fixpoint after_ticks (k : nat) : PeerState :=
  match k with
  | 0 => ps
  | S k => (refresh_from_device (after_ticks k) (d k) (t (S k))).2
  end.

Local Notation rt k := (pr_runtime (after_ticks k)).

Lemma after_ticks_inv k :
  Wg.endpoints (rt k) = Wg.endpoints (pr_runtime ps) /\
  (Wg.last_endpoint_change (rt k) <= t k)%N /\ Wg.active_endpoint (rt k) < n.
Proof.
  induction k as [|k (He & Hc & Ha)]; [done|]. simpl after_ticks.
  destruct (silent_tick (after_ticks k) (d k) (t (S k)) (Hsilent k)) as [He' H]; [by rewrite He|].
  rewrite He', He. split; [done|]. rewrite He in H. fold n in H. specialize (Hmono k).
  destruct (_ <=? _)%N; destruct H as [-> ->]; split; try lia. apply Nat.mod_upper_bound. lia.
Qed.

(** Within [j] ticks the peer rotated once, or nothing happened yet. *)
Lemma rotation_or_wait i j :
  (exists k, i < k <= i + j /\ Wg.active_endpoint (rt k) = (Wg.active_endpoint (rt i) + 1) mod n) \/
  (Wg.active_endpoint (rt (i + j)) = Wg.active_endpoint (rt i) /\
   Wg.last_endpoint_change (rt (i + j)) = Wg.last_endpoint_change (rt i) /\
   (j = 0 \/ (t (i + j) - Wg.last_endpoint_change (rt i) < Wg.ENDPOINT_CONNECTION_TIMEOUT)%N)).
Proof.
  induction j as [|j [(k & Hk & Ha)|(Ha & Hc & _)]]; [right; rewrite Nat.add_0_r; auto| |].
  - left. exists k. split; [lia|done].
  - rewrite Nat.add_succ_r. destruct (after_ticks_inv (i + j)) as (He & _ & _).
    destruct (silent_tick (after_ticks (i + j)) (d (i + j)) (t (S (i + j))) (Hsilent _)) as [_ H];
      [by rewrite He|]. rewrite He in H. fold n in H.
    destruct (N.leb_spec Wg.ENDPOINT_CONNECTION_TIMEOUT
      (t (S (i + j)) - Wg.last_endpoint_change (rt (i + j)))) as [Hle|Hlt]; destruct H as [H1 H2].
    + left. exists (S (i + j)). split; [lia|]. simpl. by rewrite H1, Ha.
    + right. simpl after_ticks. rewrite H1, H2, Ha, Hc. split_and!; try done. right. by rewrite <- Hc.
Qed.

Lemma rotates_within i :
  exists k, i < k <= i + m /\ Wg.active_endpoint (rt k) = (Wg.active_endpoint (rt i) + 1) mod n.
Proof.
  destruct (rotation_or_wait i m) as [?|(_ & _ & H)]; [done|]. exfalso.
  destruct (after_ticks_inv i) as (_ & Hc & _). specialize (Hpace i).
  unfold Wg.ENDPOINT_CONNECTION_TIMEOUT, from_secs in *.
  destruct H as [->|H]; [rewrite Nat.add_0_r in Hpace; lia|lia].
Qed.

Lemma rotates_to k :
  exists j, j <= k * m /\ Wg.active_endpoint (rt j) = (Wg.active_endpoint (pr_runtime ps) + k) mod n.
Proof.
  induction k as [|k (j & Hj & Ha)].
  - exists 0. split; [lia|]. simpl. by rewrite Nat.add_0_r, Nat.mod_small.
  - destruct (rotates_within j) as (j' & Hj' & Ha'). exists j'. split; [lia|].
    rewrite Ha', Ha, Nat.Div0.add_mod_idemp_l. f_equal. lia.
Qed.

Lemma all_endpoints_tried e :
  e ∈ Wg.endpoints (pr_runtime ps) -> exists j, j <= (n - 1) * m /\ Wg.active (rt j) = Some e.
Proof.
  intros (i & Hi)%list_elem_of_lookup. pose proof (lookup_lt_Some _ _ _ Hi) as Hlt. fold n in Hlt.
  set (a := Wg.active_endpoint (pr_runtime ps)) in *.
  assert (exists k, k <= n - 1 /\ (a + k) mod n = i) as (k & Hk & Hmod).
  { destruct (decide (a <= i)).
    - exists (i - a). split; [lia|]. rewrite Nat.mod_small; lia.
    - exists (n + i - a). split; [lia|]. replace (a + (n + i - a)) with (i + 1 * n) by lia.
      rewrite Nat.Div0.mod_add, Nat.mod_small; lia. }
  destruct (rotates_to k) as (j & Hj & Ha). fold a in Ha. rewrite Hmod in Ha. exists j. split; [nia|].
  unfold Wg.active. destruct (after_ticks_inv j) as (-> & _ & _). by rewrite Ha.
Qed.
End silent_peer.

(** No endpoint is starved.  While the device reports no handshake with a
    peer that has several endpoints, its ticks rotate through all of them: if
    every [m] consecutive ticks span at least the 15 second grace period, each
    endpoint has been the active one after at most [(n - 1) * m] ticks, [n]
    being the number of endpoints. *)
Theorem silent_peer_tries_all (ps : PeerState) (t : nat -> Instant) (d : nat -> option DevicePeer)
    (m : nat) (e : string) :
  1 < length (Wg.endpoints (pr_runtime ps)) -> Wg.wf (pr_runtime ps) ->
  (Wg.last_endpoint_change (pr_runtime ps) <= t 0%nat)%N ->
  (forall i, (t i <= t (S i))%N) ->
  (forall i, (t i + Wg.ENDPOINT_CONNECTION_TIMEOUT <= t (i + m)%nat)%N) ->
  (forall i, silent (d i)) ->
  e ∈ Wg.endpoints (pr_runtime ps) ->
  exists j, j <= (length (Wg.endpoints (pr_runtime ps)) - 1) * m /\
            Wg.active (pr_runtime (after_ticks ps t d j)) = Some e.
Proof.
  intros Hlen Hwf Hstart Hmono Hpace Hsilent He. apply all_endpoints_tried; try done.
  unfold Wg.wf in Hwf. destruct (Wg.endpoints (pr_runtime ps)); simpl in *; lia.
Qed.

(** ** Ranking by probes *)

#[export] Instance compare_probe_status_total : TotalCmp compare_probe_status.
Proof. split; [by intros [] []|by intros [] [] []]. Qed.

#[export] Instance compare_option_duration_total : TotalCmp compare_option_duration_asc.
Proof.
  split.
  - intros [x|] [y|]; simpl; try done. apply (cmp_opp N.compare).
  - intros [x|] [y|] [z|]; simpl; try done. apply (cmp_le_trans N.compare).
Qed.

#[export] Instance compare_option_instant_total : TotalCmp compare_option_instant_desc.
Proof.
  pose proof (cmp_flip_total N.compare _) as Hf. split.
  - intros [x|] [y|]; simpl; try done. apply (cmp_opp (fun a b => N.compare b a)).
  - intros [x|] [y|] [z|]; simpl; try done. apply (cmp_le_trans (fun a b => N.compare b a)).
Qed.

#[export] Instance compare_candidates_total : TotalCmp compare_candidates.
Proof. unfold compare_candidates. apply _. Qed.

Lemma compare_candidates_le a b :
  cmp_le compare_candidates a b -> ec_tcp_probe_status b = Reachable ->
  ec_tcp_probe_status a = Reachable /\
  (forall rb, ec_last_tcp_probe_rtt b = Some rb ->
     exists ra, ec_last_tcp_probe_rtt a = Some ra /\ (ra <= rb)%N).
Proof.
  unfold cmp_le, compare_candidates, then_with. intros H Hb. rewrite Hb in H.
  destruct (ec_tcp_probe_status a); simpl in H; [|done]. split; [done|]. intros rb Hrb.
  rewrite Hrb in H. destruct (ec_last_tcp_probe_rtt a) as [ra|]; simpl in H; [|done].
  exists ra. split; [done|]. destruct (N.compare_spec ra rb); [lia|lia|done].
Qed.

(** Ranking picks the fastest reachable endpoint.  When the probes of a
    peer's endpoints reached some candidate, the endpoint in use afterwards is
    one the probes reached, no reachable endpoint has a smaller round-trip time,
    the endpoint set is unchanged, and the peer is re-programmed exactly when
    the endpoint in use changed. *)
Theorem ranking_picks_fastest (r : MachineRecord) (ps : PeerState)
    (results : gmap string TcpProbeResult) (now : Instant) (e : string) (rtt : Duration) :
  represents r ps -> e ∈ mr_endpoints r -> results !! e = Some (probe_reachable rtt) ->
  (forall e', e' ∈ mr_endpoints r -> is_Some (results !! e')) ->
  let '(changed, ps') := apply_probe_results ps results now in
  Wg.endpoints (pr_runtime ps') ≡ₚ mr_endpoints r /\
  (changed = true <-> Wg.active (pr_runtime ps) <> Wg.active (pr_runtime ps')) /\
  exists a ra, Wg.active (pr_runtime ps') = Some a /\
    tp_status <$> results !! a = Some Reachable /\ tp_rtt <$> results !! a = Some (Some ra) /\ (ra <= rtt)%N.
Proof.
  intros Hrep He Hres Hall. pose proof (represents_probe r ps results now Hrep) as Hrep'.
  pose proof (rp_endpoints _ _ Hrep') as Heps. revert Heps. unfold apply_probe_results.
  set (cs := (fun c => _) <$> pr_candidates ps). intros Heps.
  assert (forall c, c ∈ cs -> exists res, results !! ec_endpoint c = Some res /\
    ec_tcp_probe_status c = tp_status res /\ ec_last_tcp_probe_rtt c = tp_rtt res) as Hcs.
  { intros c (c0 & -> & Hc0)%list_elem_of_fmap. simpl.
    assert (is_Some (results !! ec_endpoint c0)) as [res Hr].
    { apply Hall. rewrite <- (rp_candidates _ _ Hrep). by apply list_elem_of_fmap_2. }
    rewrite Hr. exists res. done. }
  assert (exists ce, ce ∈ cs /\ ec_endpoint ce = e) as (ce & Hce & Hee).
  { rewrite <- (rp_candidates _ _ Hrep) in He. apply list_elem_of_fmap in He as (c0 & -> & Hc0).
    eexists. split; [by apply list_elem_of_fmap_2|]. simpl. by destruct (results !! ec_endpoint c0). }
  destruct (Hcs ce Hce) as (res & Hr & Hst & Hrt). rewrite Hee, Hres in Hr. injection Hr as <-.
  destruct (existsb _ cs) eqn:Ex; simpl in Heps |- *.
  2:{ exfalso. apply not_true_iff_false in Ex. apply Ex. apply existsb_exists. exists ce.
      split; [by apply list_elem_of_In|]. by rewrite Hst. }
  split; [done|]. split; [by rewrite bool_decide_eq_true|].
  destruct (sort_by compare_candidates cs) as [|a l] eqn:Es.
  { apply sort_by_nil_iff in Es. rewrite Es in Hce. by apply elem_of_nil in Hce. }
  apply sort_by_head in Es as [Ha Hmin]; [|apply _].
  destruct (compare_candidates_le a ce (Hmin ce Hce) Hst) as [Hsa Hra].
  destruct (Hra rtt Hrt) as (ra & Hra' & Hle). destruct (Hcs a Ha) as (resa & Hresa & Hs1 & Hs2).
  exists (ec_endpoint a), ra. unfold Wg.active. simpl. rewrite Hresa. simpl.
  split_and!; try done; congruence.
Qed.

(** ** Witnesses *)

Definition sample_peer_record : MachineRecord := {|
  mr_id := "m2"; mr_public_key := [7%N]; mr_overlay_ip := [253%N]; mr_subnet := None; mr_bridge_ip := None;
  mr_endpoints := ["10.0.0.2:51820"; "192.168.0.2:51820"]; mr_status := MsUp; mr_participation := Enabled;
  mr_last_heartbeat := 5; mr_created_at := 1; mr_updated_at := 5; mr_labels := ∅ |}.
Definition sample_peer : PeerState := peer_from_record sample_peer_record 0.


Lemma silent_peer_tries_all_witness :
  exists j, j <= 3 /\ Wg.active (pr_runtime (after_ticks sample_peer
    (fun i => from_secs (5 * N.of_nat i)) (fun _ => None) j)) = Some "192.168.0.2:51820".
Proof.
  apply (silent_peer_tries_all sample_peer (fun i => from_secs (5 * N.of_nat i)) (fun _ => None) 3).
  - simpl. lia.
  - unfold Wg.wf. simpl. lia.
  - vm_compute. discriminate.
  - intros i. unfold from_secs. lia.
  - intros i. unfold Wg.ENDPOINT_CONNECTION_TIMEOUT, from_secs. lia.
  - intros i. exact I.
  - right. left.
Defined.

Lemma ranking_picks_fastest_witness :
  let results := probe_endpoints_parallel
    [("192.168.0.2:51820", Some 3%N); ("10.0.0.2:51820", Some 9%N)] in
  let '(changed, ps') := apply_probe_results sample_peer results 1 in
  (changed = true <-> Wg.active (pr_runtime sample_peer) <> Wg.active (pr_runtime ps')) /\
  Wg.active (pr_runtime ps') = Some "192.168.0.2:51820".
Proof.
  intros results.
  pose proof (ranking_picks_fastest sample_peer_record sample_peer results 1 "192.168.0.2:51820" 3
    (represents_new _ _)) as H.
  destruct (apply_probe_results sample_peer results 1) as [changed ps'] eqn:E. split.
  - apply H.
    + right. left.
    + vm_compute. reflexivity.
    + intros e' Hin. simpl in Hin. repeat (apply elem_of_cons in Hin as [->|Hin]);
        [vm_compute; eexists; reflexivity..|]. exfalso. by apply elem_of_nil in Hin.
  - vm_compute in E. injection E as <- <-. reflexivity.
Defined.
