(* ===== verification/Probe.v ===== *)
(** * Mesh probes

    [ployz-orchestrator/src/mesh/probe.rs]: both ends of the probe that measures
    whether a machine answers, over the overlay or at an advertised endpoint.

    A connection is a pair of byte streams; the network ([ProbeNet]) says whether
    it is made in time and what becomes of the bytes. *)

From S2P Require Import Prelude Order Text Types Addr Liveness.

Definition MESH_PROBE_PORT : N := 51821.
Definition PROBE_REQUEST : list N := [80; 76; 90; 63]%N.     (* [PLZ?] *)
Definition PROBE_RESPONSE : list N := [79; 75; 33; 33]%N.    (* [OK!!] *)
Definition PROBE_TIMEOUT : Duration := 750000000.

(** ** The end that answers *)

Definition unexpected_eof : string := "failed to fill whole buffer".
(** [read_exact] on the bytes that arrive before the stream ends. *)
Definition read_exactly (n : nat) (input : list N) : result string (list N) :=
  if decide (length input < n) then Err unexpected_eof else Ok (take n input).
(** The result, and what was sent. *)
Definition handle_probe_connection (input : list N) (write flush : result string unit) : result string unit * list N :=
  match read_exactly (length PROBE_REQUEST) input with
  | Err e => (Err e, [])
  | Ok request =>
      if bool_decide (request = PROBE_REQUEST) then
        match write with
        | Err e => (Err e, [])
        | Ok _ => (flush, PROBE_RESPONSE)
        end
      else (Err "invalid mesh probe request"%string, [])
  end.
(** The sockets the task listens on; it ends at once when there are none. *)
Definition probe_listeners (bind_v4 bind_v6 : result string unit) : list IpAddr :=
  (if is_ok bind_v4 then [V4 0%N] else []) ++ (if is_ok bind_v6 then [V6 (replicate 16 0%N)] else []).

(** ** The end that asks *)

Record ProbeNet := {
  pn_connect : SocketAddr -> option (result string unit);     (* [None]: not within the timeout *)
  pn_write : SocketAddr -> result string unit;
  pn_reply : SocketAddr -> list N -> list N;                  (* what comes back for what was sent *)
  pn_in_time : SocketAddr -> bool;                            (* the exchange ends within the timeout *)
  pn_elapsed : SocketAddr -> Duration
}.
Section probe.
Context (net : ProbeNet).

Definition probe_addr (addr : SocketAddr) : option Duration :=
  match pn_connect net addr with
  | None | Some (Err _) => None
  | Some (Ok _) =>
      if pn_in_time net addr then
        match pn_write net addr with
        | Err _ => None
        | Ok _ => match read_exactly (length PROBE_RESPONSE) (pn_reply net addr PROBE_REQUEST) with
                  | Ok response => if bool_decide (response = PROBE_RESPONSE) then Some (pn_elapsed net addr) else None
                  | Err _ => None
                  end
        end
      else None
  end.
Definition probe_socket_addr (endpoint : string) : option SocketAddr :=
  match parse_socket_addr endpoint with
  | Some (addr, _) => Some {| sa_ip := sa_ip addr; sa_port := MESH_PROBE_PORT |}
  | None => None
  end.
Definition probe_endpoint (endpoint : string) : option Duration :=
  match probe_socket_addr endpoint with Some addr => probe_addr addr | None => None end.
Definition probe_overlay_ip (overlay_ip : OverlayIp) : option Duration :=
  probe_addr {| sa_ip := V6 overlay_ip; sa_port := MESH_PROBE_PORT |}.
Definition probe_result (rtt : option Duration) : TcpProbeResult :=
  match rtt with Some rtt => probe_reachable rtt | None => probe_unreachable end.
(** The results in the order in which the probes end. *)
Definition probe_overlay_ips_parallel (finished : list OverlayIp) : gmap (list N) TcpProbeResult :=
  foldl (fun results ip => <[ip := probe_result (probe_overlay_ip ip)]> results) ∅ finished.

(** ** Who is reachable *)

(** A machine that serves the probe: it sends back what its handler sends. *)
Definition serves (addr : SocketAddr) : Prop :=
  pn_connect net addr = Some (Ok tt) /\ pn_in_time net addr = true /\ pn_write net addr = Ok tt /\
  forall sent, pn_reply net addr sent = (handle_probe_connection sent (Ok tt) (Ok tt)).2.
Lemma probe_served addr : serves addr -> probe_addr addr = Some (pn_elapsed net addr).
Proof. intros (Hc & Ht & Hw & Hr). unfold probe_addr. by rewrite Hc, Ht, Hw, Hr. Qed.
(** Only an answer that starts as the listener's counts. *)
Lemma probe_answered addr rtt : probe_addr addr = Some rtt ->
  pn_connect net addr = Some (Ok tt) /\ exists rest, pn_reply net addr PROBE_REQUEST = PROBE_RESPONSE ++ rest.
Proof.
  unfold probe_addr. destruct (pn_connect net addr) as [[[]|]|]; [|done..]. destruct (pn_in_time net addr); [|done].
  destruct (pn_write net addr) as [[]|]; [|done]. unfold read_exactly. case_decide; [done|]. case_bool_decide as Hr; [|done]. intros _.
  split; [done|]. exists (drop 4 (pn_reply net addr PROBE_REQUEST)). rewrite <- Hr. by rewrite take_drop.
Qed.

(** In whatever order the probes end, each address has the result of its own. *)
Theorem probe_results_exact overlay_ips finished : finished ≡ₚ overlay_ips ->
  forall ip, probe_overlay_ips_parallel finished !! ip =
    if decide (ip ∈ overlay_ips) then Some (probe_result (probe_overlay_ip ip)) else None.
Proof.
  intros Hp ip. assert (ip ∈ finished <-> ip ∈ overlay_ips) as He by by rewrite Hp.
  transitivity (if decide (ip ∈ finished) then Some (probe_result (probe_overlay_ip ip)) else None).
  2:{ destruct (decide (ip ∈ finished)), (decide (ip ∈ overlay_ips)); tauto. }
  clear. unfold probe_overlay_ips_parallel. induction finished as [|x l IH] using rev_ind; [done|]. rewrite foldl_app. cbn.
  destruct (decide (ip = x)) as [->|Hne].
  - rewrite lookup_insert_eq, decide_True; [done|]. set_solver.
  - rewrite lookup_insert_ne, IH by done. destruct (decide (ip ∈ l)), (decide (ip ∈ l ++ [x])); try done; set_solver.
Qed.
End probe.
