(* ===== verification/Deploy.v ===== *)
(** * Deploys

    [deploy/mod.rs] of [ployz-orchestrator]: placement ([deployable_machines],
    [desired_slots]), the plan ([preview]) and the coordinator ([apply]).

    The store, the clock, fresh identifiers and the deploy sessions are the
    environment of [apply] (see [Effect]): every call is logged and answered
    arbitrarily, so the theorems hold for every store, whatever other machines
    write between two calls and whichever call fails. *)

From S2P Require Import Prelude Order Effect Text Types Spec Liveness Store.

(** ** Placement *)

Record DesiredSlot := { ds_slot_id : SlotId; ds_machine_id : MachineId }.

Definition deployable_machines (machines : list MachineRecord) (local_machine_id : MachineId) (now : N)
    : list MachineId :=
  let enabled := sort_strings (mr_id <$>
    filter (fun m => mr_participation m = Enabled /\ machine_is_fresh m now = true) machines) in
  match enabled with
  | [] => [local_machine_id]
  | _ => enabled
  end.

(** ["slot-{:04}"], counting from 1. *)
Definition replica_slot_id (index : nat) : SlotId := "slot-" +:+ dec_pad 4 (N.of_nat index + 1).
Definition global_slot_id (machine_id : MachineId) : SlotId := "slot-" +:+ machine_id.

Definition find_slot (id : SlotId) (slots : list ServiceReleaseSlot) : option ServiceReleaseSlot :=
  snd <$> list_find (fun s => sl_slot_id s = id) slots.

Definition desired_slots (spec : ServiceSpec) (machines : list MachineId)
    (current_slots : option (list ServiceReleaseSlot)) : Res (list DesiredSlot) :=
  let candidates := match machines with [] => ["local"] | _ => machines end in
  match ss_placement spec with
  | Replicated count =>
      if (count =? 0)%N then
        Err (Operation "desired_slots" ("service '" +:+ ss_name spec +:+ "' requested zero replicas"))
      else
        try_fold (fun desired index =>
          let slot_id := replica_slot_id index in
          match sl_machine_id <$> (current_slots ≫= find_slot slot_id) with
          | Some machine_id => Ok (desired ++ [{| ds_slot_id := slot_id; ds_machine_id := machine_id |}])
          | None =>
              let candidate_index := index mod length candidates in
              machine_id <-? ok_or (candidates !! candidate_index)
                (Operation "desired_slots" ("candidate index " +:+ dec (N.of_nat candidate_index) +:+ " out of bounds")) ;;
              Ok (desired ++ [{| ds_slot_id := slot_id; ds_machine_id := machine_id |}])
          end) [] (seq 0 (N.to_nat count))
  | Global =>
      Ok ((fun m => {| ds_slot_id := global_slot_id m; ds_machine_id := m |}) <$> candidates)
  end.

(** ** The plan *)

(** [current_slots_by_service] and [current_slots_by_service_from_releases]:
    the slots of a service's release. *)
Definition current_release_map (current_releases : list ServiceReleaseRecord)
    : gmap string ServiceReleaseRecord := index_by rel_service current_releases.
Definition current_slots_by_service (m : gmap string ServiceReleaseRecord)
    : gmap string (list ServiceReleaseSlot) := (fun r => sr_slots (rel_release r)) <$> m.

Definition slot_action (current : option ServiceReleaseSlot) (desired : DesiredSlot) (revision_hash : string)
    : DeployChangeKind :=
  match current with
  | Some slot =>
      if decide (sl_machine_id slot = ds_machine_id desired /\ sl_revision_hash slot = revision_hash)
      then Unchanged else Replace
  | None => Create
  end.

Definition plan_slot (current_slots : list ServiceReleaseSlot) (revision_hash : string) (desired : DesiredSlot)
    : SlotPlan :=
  let current_slot := find_slot (ds_slot_id desired) current_slots in
  {| sp_slot_id := ds_slot_id desired; sp_machine_id := ds_machine_id desired;
     sp_current_instance_id := sl_active_instance_id <$> current_slot; sp_next_instance_id := None;
     sp_current_revision_hash := sl_revision_hash <$> current_slot;
     sp_next_revision_hash := Some revision_hash;
     sp_action := slot_action current_slot desired revision_hash |}.

Definition service_action (slot_plans : list SlotPlan) (current_release : option ServiceReleaseRecord)
    (revision_hash : string) : DeployChangeKind :=
  if (forallb (fun p => bool_decide (sp_action p = Unchanged)) slot_plans &&
      bool_decide ((fun r => sr_primary_revision_hash (rel_release r)) <$> current_release = Some revision_hash))%bool
  then Unchanged
  else match current_release with None => Create | Some _ => Replace end.

Definition plan_removed_slot (slot : ServiceReleaseSlot) : SlotPlan :=
  {| sp_slot_id := sl_slot_id slot; sp_machine_id := sl_machine_id slot;
     sp_current_instance_id := Some (sl_active_instance_id slot); sp_next_instance_id := None;
     sp_current_revision_hash := Some (sl_revision_hash slot); sp_next_revision_hash := None;
     sp_action := Remove |}.

(** [serde_json] on manifests and previews. *)
Class DeployCodec := {
  manifest_to_vec : DeployManifest -> result string (list N);
  preview_to_string : DeployPreview -> result string string
}.

Section plan.
Context `{SpecCodec} `{DeployCodec}.

Definition hash_or (what : string) (spec : ServiceSpec) : Res string :=
  map_err (Operation what) (revision_hash spec).

(** One iteration of the loop over [manifest.services]. *)
Definition plan_service (desired_machines : list MachineId) (releases : gmap string ServiceReleaseRecord)
    (slots_by_service : gmap string (list ServiceReleaseSlot))
    (acc : gset string * list ServicePlan) (spec : ServiceSpec) : Res (gset string * list ServicePlan) :=
  let '(participants, services) := acc in
  revision_hash <-? hash_or "deploy_preview" spec ;;
  desired <-? desired_slots spec desired_machines (slots_by_service !! ss_name spec) ;;
  let current_service_slots := default [] (slots_by_service !! ss_name spec) in
  let current_release := releases !! ss_name spec in
  let slot_plans := plan_slot current_service_slots revision_hash <$> desired in
  Ok (participants ∪ list_to_set (ds_machine_id <$> desired) ∪ list_to_set (sl_machine_id <$> current_service_slots),
      services ++
      [{| pl_service := ss_name spec;
          pl_current_revision_hash := (fun r => sr_primary_revision_hash (rel_release r)) <$> current_release;
          pl_next_revision_hash := Some revision_hash;
          pl_slots := slot_plans;
          pl_action := service_action slot_plans current_release revision_hash |}]).

Definition plan_removed (releases : gmap string ServiceReleaseRecord)
    (kv : string * list ServiceReleaseSlot) : ServicePlan :=
  {| pl_service := kv.1;
     pl_current_revision_hash :=
       (fun r => sr_primary_revision_hash (rel_release r)) <$> releases !! kv.1;
     pl_next_revision_hash := None;
     pl_slots := plan_removed_slot <$> kv.2;
     pl_action := Remove |}.

(** [preview], from the releases and machines it read and the time. *)
Definition preview_plan (local_machine_id : MachineId) (manifest : DeployManifest)
    (current_releases : list ServiceReleaseRecord) (machines : list MachineRecord) (now : N)
    : Res DeployPreview :=
  let desired_machines := deployable_machines machines local_machine_id now in
  let releases := current_release_map current_releases in
  let slots_by_service := current_slots_by_service releases in
  manifest_bytes <-? map_err (fun e => Operation "deploy_preview" ("serialize manifest: " +:+ e))
                       (manifest_to_vec manifest) ;;
  acc <-?
    try_fold (plan_service desired_machines releases slots_by_service)
      (list_to_set desired_machines, []) (mf_services manifest) ;;
  let '(participants, services) := acc in
  let removed := filter (fun kv => kv.1 ∉ ss_name <$> mf_services manifest) (map_to_list slots_by_service) in
  Ok {| dp_namespace := mf_namespace manifest;
        dp_manifest_hash := stable_hash_hex manifest_bytes;
        dp_participants := sort_strings (elements
          (participants ∪ list_to_set (removed ≫= fun kv => sl_machine_id <$> kv.2)));
        dp_services := services ++ (plan_removed releases <$> removed);
        dp_warnings := [] |}.
End plan.

(** ** Placement is total, sticky and balanced *)

Definition candidates_of (machines : list MachineId) : list MachineId :=
  match machines with [] => ["local"] | _ => machines end.

(** The slot [index] of a replicated service: where it is, or round robin. *)
Definition replica_slot (candidates : list MachineId) (current : option (list ServiceReleaseSlot))
    (index : nat) : DesiredSlot :=
  {| ds_slot_id := replica_slot_id index;
     ds_machine_id :=
       match sl_machine_id <$> (current ≫= find_slot (replica_slot_id index)) with
       | Some m => m
       | None => default "" (candidates !! (index mod length candidates))
       end |}.

Lemma candidates_length ms : 0 < length (candidates_of ms).
Proof. destruct ms; simpl; lia. Qed.

Lemma desired_slots_eq spec ms current :
  desired_slots spec ms current =
  match ss_placement spec with
  | Replicated 0 => Err (Operation "desired_slots" ("service '" +:+ ss_name spec +:+ "' requested zero replicas"))
  | Replicated count => Ok (replica_slot (candidates_of ms) current <$> seq 0 (N.to_nat count))
  | Global => Ok ((fun m => {| ds_slot_id := global_slot_id m; ds_machine_id := m |}) <$> candidates_of ms)
  end.
Proof.
  unfold desired_slots. fold (candidates_of ms). destruct (ss_placement spec) as [|count]; [done|].
  destruct count as [|p]; [done|]. simpl (N.pos p =? 0)%N. cbv iota.
  generalize (seq 0 (N.to_nat (N.pos p))). intros l.
  assert (forall done, try_fold (fun desired index =>
      match sl_machine_id <$> (current ≫= find_slot (replica_slot_id index)) with
      | Some machine_id => Ok (desired ++ [{| ds_slot_id := replica_slot_id index; ds_machine_id := machine_id |}])
      | None =>
          machine_id <-? ok_or (candidates_of ms !! (index mod length (candidates_of ms)))
            (Operation "desired_slots" ("candidate index " +:+
               dec (N.of_nat (index mod length (candidates_of ms))) +:+ " out of bounds")) ;;
          Ok (desired ++ [{| ds_slot_id := replica_slot_id index; ds_machine_id := machine_id |}])
      end) done l = Ok (done ++ (replica_slot (candidates_of ms) current <$> l))) as H; [|by apply H].
  induction l as [|i l IH]; intros dn; simpl; [by rewrite app_nil_r|].
  destruct (lookup_lt_is_Some_2 (candidates_of ms) (i mod length (candidates_of ms))) as [m Hm].
  { apply Nat.mod_upper_bound. pose proof (candidates_length ms). lia. }
  rewrite Hm. simpl.
  assert (replica_slot (candidates_of ms) current i = {| ds_slot_id := replica_slot_id i; ds_machine_id :=
    match sl_machine_id <$> (current ≫= find_slot (replica_slot_id i)) with Some m' => m' | None => m end |})
    as Hslot by (unfold replica_slot; by rewrite Hm).
  destruct (sl_machine_id <$> _); simpl; rewrite IH, <- app_assoc; simpl; by rewrite Hslot.
Qed.

#[export] Instance replica_slot_id_inj : Inj eq eq replica_slot_id.
Proof.
  intros i j H. unfold replica_slot_id in H. apply (inj (String.append "slot-")) in H.
  apply (inj (dec_pad 4)) in H. lia.
Qed.

#[export] Instance global_slot_id_inj : Inj eq eq global_slot_id.
Proof. intros m1 m2 H. by apply (inj (String.append "slot-")) in H. Qed.

Lemma desired_slots_NoDup spec ms current desired :
  NoDup ms -> desired_slots spec ms current = Ok desired -> NoDup (ds_slot_id <$> desired).
Proof.
  intros Hms. rewrite desired_slots_eq. destruct (ss_placement spec) as [|[|p]]; [|done|]; intros [= <-].
  - rewrite <- list_fmap_compose. apply NoDup_fmap_2; [apply global_slot_id_inj|].
    destruct ms; [apply NoDup_singleton|done].
  - rewrite <- list_fmap_compose. apply (NoDup_fmap_2 replica_slot_id), NoDup_seq.
Qed.

(** How often a residue occurs below [c]. *)
Lemma count_mod n j c :
  j < n -> length (filter (fun i => i mod n = j) (seq 0 c)) = c / n + (if decide (j < c mod n) then 1 else 0).
Proof.
  intros Hj. induction c as [|c IH].
  { rewrite Nat.Div0.div_0_l, Nat.Div0.mod_0_l. by destruct (decide (j < 0)); [lia|]. }
  rewrite seq_S, filter_app, length_app, IH. simpl.
  pose proof (Nat.div_mod c n ltac:(lia)) as Hc. pose proof (Nat.mod_upper_bound c n ltac:(lia)) as Hr.
  assert ((S c mod n = S (c mod n) /\ S c / n = c / n /\ S (c mod n) < n) \/
          (S c mod n = 0 /\ S c / n = S (c / n) /\ S (c mod n) = n)) as Hs.
  { destruct (decide (S (c mod n) < n)) as [Hl|Hg]; [left|right].
    - assert (S c = n * (c / n) + S (c mod n)) as E by lia.
      pose proof (Nat.mod_unique (S c) n _ _ Hl E). pose proof (Nat.div_unique (S c) n _ _ Hl E). lia.
    - assert (S c = n * S (c / n) + 0) as E by nia. assert (0 < n) as Hl by lia.
      pose proof (Nat.mod_unique (S c) n _ _ Hl E). pose proof (Nat.div_unique (S c) n _ _ Hl E). lia. }
  rewrite filter_cons, filter_nil. repeat case_decide; simpl; lia.
Qed.

Lemma filter_length_fmap {A B} (f : A -> B) (P : B -> Prop) `{!forall x, Decision (P x)} (l : list A) :
  length (filter P (f <$> l)) = length (filter (fun x => P (f x)) l).
Proof. 
  induction l as [|x l IH]; csimpl; [done|]. rewrite !filter_cons.
  case_decide; simpl; congruence.
Qed.

Lemma round_robin_balanced cands m c :
  NoDup cands -> m ∈ cands ->
  let on_m := length (filter (fun d => ds_machine_id d = m) (replica_slot cands None <$> seq 0 c)) in
  c / length cands <= on_m <= c / length cands + 1.
Proof.
  intros Hnd (j & Hj)%list_elem_of_lookup on_m.
  pose proof (lookup_lt_Some _ _ _ Hj) as Hlt.
  assert (on_m = length (filter (fun i => i mod length cands = j) (seq 0 c))) as ->.
  { unfold on_m. rewrite filter_length_fmap. f_equal. apply list_filter_iff. intros i. simpl.
    destruct (lookup_lt_is_Some_2 cands (i mod length cands)) as [m' Hm'].
    { apply Nat.mod_upper_bound. lia. }
    rewrite Hm'. simpl. split; [|congruence]. intros ->. by eapply NoDup_lookup. }
  rewrite count_mod by done. case_decide; lia.
Qed.

(** Placement.  [desired_slots] gives distinct slots; a replicated service
    gets exactly its count, a slot that exists stays on its machine, and a fresh
    service is spread evenly over the candidates (each gets the quotient or one
    more); a global service gets exactly one slot on each candidate. *)
Theorem desired_slots_placement (spec : ServiceSpec) (ms : list MachineId)
    (current : option (list ServiceReleaseSlot)) (desired : list DesiredSlot) :
  NoDup ms -> desired_slots spec ms current = Ok desired ->
  let cands := candidates_of ms in
  NoDup (ds_slot_id <$> desired) /\
  match ss_placement spec with
  | Replicated count =>
      N.of_nat (length desired) = count /\
      (forall d slot, d ∈ desired -> current ≫= find_slot (ds_slot_id d) = Some slot ->
         ds_machine_id d = sl_machine_id slot) /\
      (forall d, d ∈ desired -> current ≫= find_slot (ds_slot_id d) = None -> ds_machine_id d ∈ cands) /\
      (current = None -> forall m, m ∈ cands ->
         let on_m := length (filter (fun d => ds_machine_id d = m) desired) in
         length desired / length cands <= on_m <= length desired / length cands + 1)
  | Global => ds_machine_id <$> desired = cands
  end.
Proof.
  intros Hms Hd cands. split; [by eapply desired_slots_NoDup|].
  rewrite desired_slots_eq in Hd. destruct (ss_placement spec) as [|[|p]]; [|done|]; injection Hd as <-.
  - rewrite <- list_fmap_compose. apply list_fmap_id.
  - rewrite !length_fmap, !length_seq. split; [lia|]. split_and!.
    + intros d slot (i & -> & _)%list_elem_of_fmap Hs. simpl in *. by rewrite Hs.
    + intros d (i & -> & _)%list_elem_of_fmap Hs. simpl in *. rewrite Hs. simpl.
      destruct (lookup_lt_is_Some_2 cands (i mod length cands)) as [m Hm].
      { apply Nat.mod_upper_bound. pose proof (candidates_length ms). unfold cands. lia. }
      fold cands. rewrite Hm. by eapply list_elem_of_lookup_2.
    + intros -> m Hm. apply round_robin_balanced; [|done]. unfold cands.
      destruct ms; [apply NoDup_singleton|done].
Qed.

(** ** A deployed manifest has nothing to do *)

Section fixpoint.
Context `{SpecCodec} `{DeployCodec}.

(** A release that places a service as [desired_slots] asks. *)
Definition implements (ms : list MachineId) (current : option (list ServiceReleaseSlot))
    (spec : ServiceSpec) (r : ServiceReleaseRecord) : Prop :=
  exists hash desired,
    revision_hash spec = Ok hash /\ desired_slots spec ms current = Ok desired /\
    rel_service r = ss_name spec /\ sr_primary_revision_hash (rel_release r) = hash /\
    Forall2 (fun d s => sl_slot_id s = ds_slot_id d /\ sl_machine_id s = ds_machine_id d /\
                        sl_revision_hash s = hash) desired (sr_slots (rel_release r)).

Lemma find_slot_Some id slots s : find_slot id slots = Some s -> s ∈ slots /\ sl_slot_id s = id.
Proof.
  unfold find_slot. destruct (list_find _ slots) as [[i y]|] eqn:E; simpl; [|done]. intros [= <-].
  apply list_find_Some in E as (? & ? & _). eauto using list_elem_of_lookup_2.
Qed.

Lemma find_slot_elem id slots s : s ∈ slots -> sl_slot_id s = id -> is_Some (find_slot id slots).
Proof.
  intros Hs Hid. unfold find_slot.
  destruct (list_find_elem_of (fun s => sl_slot_id s = id) slots s) as [[i y] E]; [done..|].
  rewrite E. eauto.
Qed.

(** The slots of a release are found under the desired slot they implement. *)
Lemma implemented_slot desired slots hash d :
  Forall2 (fun d s => sl_slot_id s = ds_slot_id d /\ sl_machine_id s = ds_machine_id d /\
                      sl_revision_hash s = hash) desired slots ->
  (forall d1 d2, d1 ∈ desired -> d2 ∈ desired -> ds_slot_id d1 = ds_slot_id d2 ->
     ds_machine_id d1 = ds_machine_id d2) ->
  d ∈ desired ->
  exists s, find_slot (ds_slot_id d) slots = Some s /\ sl_machine_id s = ds_machine_id d /\
            sl_revision_hash s = hash.
Proof.
  intros Hall Hfun Hd. apply list_elem_of_lookup in Hd as Hd'. destruct Hd' as [i Hi].
  destruct (Forall2_lookup_l _ _ _ _ _ Hall Hi) as (s0 & Hs0 & Hid & _).
  destruct (find_slot_elem (ds_slot_id d) slots s0) as [s Hs]; [by eapply list_elem_of_lookup_2|done|].
  exists s. split; [done|]. apply find_slot_Some in Hs as [Hin Hsid].
  apply list_elem_of_lookup in Hin as [j Hj].
  destruct (Forall2_lookup_r _ _ _ _ _ Hall Hj) as (d' & Hd' & Hid' & Hm' & Hh').
  split; [|done]. rewrite Hm'. apply Hfun; [by eapply list_elem_of_lookup_2|done|congruence].
Qed.

Lemma desired_slots_functional spec ms current desired d1 d2 :
  desired_slots spec ms current = Ok desired -> d1 ∈ desired -> d2 ∈ desired ->
  ds_slot_id d1 = ds_slot_id d2 -> ds_machine_id d1 = ds_machine_id d2.
Proof.
  rewrite desired_slots_eq. destruct (ss_placement spec) as [|[|p]]; [|done|]; intros [= <-].
  - intros (m1 & -> & _)%list_elem_of_fmap (m2 & -> & _)%list_elem_of_fmap. simpl.
    apply global_slot_id_inj.
  - intros (i & -> & _)%list_elem_of_fmap (j & -> & _)%list_elem_of_fmap Hid.
    apply replica_slot_id_inj in Hid. by subst.
Qed.

(** Placing a service again, given the release that implements it, asks for
    the same slots. *)
Lemma desired_slots_stable spec ms current r :
  implements ms current spec r ->
  exists desired, desired_slots spec ms current = Ok desired /\
    desired_slots spec ms (Some (sr_slots (rel_release r))) = Ok desired.
Proof.
  intros (hash & desired & _ & Hd & _ & _ & Hall). exists desired. split; [done|].
  assert (forall d, d ∈ desired -> sl_machine_id <$> find_slot (ds_slot_id d) (sr_slots (rel_release r)) =
            Some (ds_machine_id d)) as Hfind.
  { intros d Hin. destruct (implemented_slot _ _ _ d Hall) as (s & -> & Hm & _); [|done|by simpl; f_equal].
    intros d1 d2. by apply (desired_slots_functional spec ms current). }
  rewrite desired_slots_eq in Hd |- *.
  destruct (ss_placement spec) as [|[|p]]; [done|done|]. injection Hd as <-. f_equal.
  apply list_fmap_ext. intros i x Hx.
  assert (replica_slot (candidates_of ms) current x ∈
    replica_slot (candidates_of ms) current <$> seq 0 (N.to_nat (N.pos p))) as Hin.
  { apply list_elem_of_fmap_2. by eapply list_elem_of_lookup_2. }
  specialize (Hfind _ Hin). simpl in Hfind. unfold replica_slot at 1. simpl. by rewrite Hfind.
Qed.

Definition plan_unchanged (pl : ServicePlan) : Prop :=
  pl_action pl = Unchanged /\ Forall (fun sp => sp_action sp = Unchanged) (pl_slots pl).

Lemma plan_service_unchanged ms releases current spec r parts svcs :
  releases !! ss_name spec = Some r -> implements ms current spec r ->
  exists parts' pl, plan_service ms releases (current_slots_by_service releases) (parts, svcs) spec =
    Ok (parts', svcs ++ [pl]) /\ plan_unchanged pl /\ pl_service pl = ss_name spec.
Proof.
  intros Hr Himp. destruct (desired_slots_stable _ _ _ _ Himp) as (desired & Hd & Hd').
  destruct Himp as (hash & desired0 & Hh & Hd0 & _ & Hprim & Hall).
  assert (desired0 = desired) as -> by congruence.
  unfold plan_service, hash_or. rewrite Hh. simpl. unfold current_slots_by_service.
  rewrite lookup_fmap, Hr. simpl. rewrite Hd'. simpl. eexists _, _. split; [reflexivity|].
  assert (Forall (fun sp => sp_action sp = Unchanged)
    (plan_slot (sr_slots (rel_release r)) hash <$> desired)) as Hslots.
  { apply Forall_forall. intros sp (d & -> & Hin)%list_elem_of_fmap. simpl.
    destruct (implemented_slot _ _ _ d Hall) as (s & -> & Hm & Hs); [|done|].
    - intros d1 d2. by apply (desired_slots_functional spec ms current).
    - unfold slot_action. by rewrite decide_True. }
  split; [|done]. split; simpl; [|done]. unfold service_action. simpl.
  rewrite (proj2 (forallb_forall _ _)); [by rewrite Hprim, bool_decide_true|].
  intros sp Hsp%list_elem_of_In. rewrite Forall_forall in Hslots. by apply bool_decide_eq_true, Hslots.
Qed.

(** When every service of a manifest has a release that places it as [desired_slots] asked, whatever
    the releases were then, and no other service exists, the plan for the same
    manifest on the same machines marks every service and every slot
    unchanged and removes nothing. *)
Lemma redeploy_unchanged (local : MachineId) (manifest : DeployManifest)
    (releases : list ServiceReleaseRecord) (machines : list MachineRecord) (now : N) (bytes : list N) :
  manifest_to_vec manifest = Ok bytes ->
  (forall spec, spec ∈ mf_services manifest -> exists current r,
     current_release_map releases !! ss_name spec = Some r /\
     implements (deployable_machines machines local now) current spec r) ->
  (forall r, r ∈ releases -> rel_service r ∈ ss_name <$> mf_services manifest) ->
  exists p, preview_plan local manifest releases machines now = Ok p /\
    Forall plan_unchanged (dp_services p) /\
    pl_service <$> dp_services p = ss_name <$> mf_services manifest.
Proof.
  intros Hjson Himp Honly. unfold preview_plan. rewrite Hjson. simpl.
  set (rm := current_release_map releases) in *. set (ms := deployable_machines _ _ _) in *.
  assert (forall l parts svcs, l ⊆ mf_services manifest -> exists parts' plans,
    try_fold (plan_service ms rm (current_slots_by_service rm)) (parts, svcs) l = Ok (parts', svcs ++ plans) /\
    Forall plan_unchanged plans /\ pl_service <$> plans = ss_name <$> l) as Hfold.
  { induction l as [|spec l IH]; intros parts svcs Hsub.
    - exists parts, []. simpl. by rewrite app_nil_r.
    - destruct (Himp spec) as (current & r & Hr & Hi); [set_solver|].
      destruct (plan_service_unchanged ms rm current spec r parts svcs Hr Hi) as (p1 & pl & Hpl & Hun & Hn).
      cbn [try_fold]. rewrite Hpl. simpl.
      destruct (IH p1 (svcs ++ [pl])) as (p2 & plans & -> & Hall & Hnames); [set_solver|].
      exists p2, (pl :: plans). rewrite <- app_assoc. csimpl. split_and!; [done|by constructor|congruence]. }
  destruct (Hfold (mf_services manifest) (list_to_set ms) []) as (parts & plans & -> & Hall & Hnames); [done|].
  simpl. eexists. split; [reflexivity|]. simpl.
  assert (filter (fun kv : string * list ServiceReleaseSlot => kv.1 ∉ ss_name <$> mf_services manifest)
    (map_to_list (current_slots_by_service rm)) = []) as ->.
  { destruct (filter _ _) as [|[service slots] l] eqn:E; [done|]. exfalso.
    assert ((service, slots) ∈ (service, slots) :: l) as Hin by left. rewrite <- E in Hin.
    apply list_elem_of_filter in Hin as [Hno Hin%elem_of_map_to_list]. apply Hno. simpl.
    unfold current_slots_by_service in Hin. rewrite lookup_fmap in Hin.
    destruct (rm !! service) as [r|] eqn:Hr; [|done].
    apply index_by_Some in Hr as [Hr <-]. by apply Honly. }
  rewrite app_nil_r. done.
Qed.
End fixpoint.

(** ** The plan covers every machine involved *)

Section participants.
Context `{SpecCodec} `{DeployCodec}.

Lemma plan_service_covers ms releases slots parts0 specs parts svcs :
  try_fold (plan_service ms releases slots) (parts0, []) specs = Ok (parts, svcs) ->
  (forall pl sp, pl ∈ svcs -> sp ∈ pl_slots pl -> sp_machine_id sp ∈ parts) /\
  (forall spec slot, spec ∈ specs -> slot ∈ default [] (slots !! ss_name spec) -> sl_machine_id slot ∈ parts).
Proof.
  intros Hfold.
  apply (try_fold_ind (fun done acc =>
    (forall pl sp, pl ∈ acc.2 -> sp ∈ pl_slots pl -> sp_machine_id sp ∈ acc.1) /\
    (forall spec slot, spec ∈ done -> slot ∈ default [] (slots !! ss_name spec) -> sl_machine_id slot ∈ acc.1))
    (plan_service ms releases slots) (parts0, [])) in Hfold; [done| |].
  - split; intros; set_solver.
  - intros dn spec [p1 s1] [p2 s2] [Hpl Hcur]. simpl in *. rewrite rbind_Ok. intros (h & _ & Hd).
    apply rbind_Ok in Hd as (desired & _ & [= <- <-]). split.
    + intros pl sp [Hin|Hin]%elem_of_app Hsp; [specialize (Hpl _ _ Hin Hsp); set_solver|].
      apply list_elem_of_singleton in Hin as ->. simpl in Hsp.
      apply list_elem_of_fmap in Hsp as (d & -> & Hd). simpl. set_solver.
    + intros spec' slot [Hin|Hin]%elem_of_app Hs; [specialize (Hcur _ _ Hin Hs); set_solver|].
      apply list_elem_of_singleton in Hin as ->. set_solver.
Qed.

Lemma participants_sorted local manifest releases machines now p :
  preview_plan local manifest releases machines now = Ok p ->
  StronglySorted (cmp_le str_cmp) (dp_participants p) /\ NoDup (dp_participants p).
Proof.
  unfold preview_plan. rewrite rbind_Ok. intros (bytes & _ & Hp).
  apply rbind_Ok in Hp as ([parts svcs] & _ & [= <-]). simpl. split.
  - apply sort_by_sorted. apply _.
  - unfold sort_strings. rewrite sort_by_perm. apply NoDup_elements.
Qed.

(** The lock set is complete.  The participants of a plan are sorted and
    distinct, and they include every machine on which the plan starts, keeps
    or removes a slot and every machine that holds a slot of a current release
    of the namespace. *)
Theorem participants_complete (local : MachineId) (manifest : DeployManifest)
    (releases : list ServiceReleaseRecord) (machines : list MachineRecord) (now : N) (p : DeployPreview) :
  preview_plan local manifest releases machines now = Ok p ->
  StronglySorted (cmp_le str_cmp) (dp_participants p) /\ NoDup (dp_participants p) /\
  (forall pl sp, pl ∈ dp_services p -> sp ∈ pl_slots pl -> sp_machine_id sp ∈ dp_participants p) /\
  (forall service r slot, current_release_map releases !! service = Some r ->
     slot ∈ sr_slots (rel_release r) -> sl_machine_id slot ∈ dp_participants p).
Proof.
  intros Hplan. pose proof (participants_sorted _ _ _ _ _ _ Hplan) as Hsorted. revert Hplan.
  unfold preview_plan. set (slots := current_slots_by_service _).
  rewrite rbind_Ok. intros (bytes & _ & Hp). apply rbind_Ok in Hp as ([parts svcs] & Hfold & [= <-]).
  apply plan_service_covers in Hfold as [Hpl Hcur]. simpl.
  set (removed := filter _ (map_to_list slots)).
  assert (forall service ss slot, (service, ss) ∈ removed -> slot ∈ ss ->
    sl_machine_id slot ∈ parts ∪ list_to_set (removed ≫= fun kv => sl_machine_id <$> kv.2)) as Hrem.
  { intros service ss slot Hin Hs. apply elem_of_union_r, elem_of_list_to_set, list_elem_of_bind.
    exists (service, ss). split; [|done]. simpl. by apply list_elem_of_fmap_2. }
  split_and!; [apply Hsorted|apply Hsorted|..].
  - intros pl sp Hin Hsp. unfold sort_strings. rewrite elem_of_sort_by, elem_of_elements.
    apply elem_of_app in Hin as [Hin|Hin]; [apply elem_of_union_l; eauto|].
    apply list_elem_of_fmap in Hin as ([service ss] & -> & Hin). simpl in Hsp.
    apply list_elem_of_fmap in Hsp as (slot & -> & Hs). simpl. eauto.
  - intros service r slot Hr Hs. unfold sort_strings. rewrite elem_of_sort_by, elem_of_elements.
    assert (slots !! service = Some (sr_slots (rel_release r))) as Hslots.
    { unfold slots, current_slots_by_service. by rewrite lookup_fmap, Hr. }
    destruct (decide (service ∈ ss_name <$> mf_services manifest)) as [Hin|Hin].
    + apply list_elem_of_fmap in Hin as (spec & -> & Hspec). apply elem_of_union_l.
      apply (Hcur spec slot Hspec). by rewrite Hslots.
    + apply (Hrem service (sr_slots (rel_release r)) slot); [|done].
      apply list_elem_of_filter. by rewrite elem_of_map_to_list.
Qed.
End participants.

(** ** The coordinator *)

Inductive DeployCall :=
| DNow | DUuid
| DListReleases (ns : Namespace) | DListMachines | DListInstances (ns : Namespace)
| DOpen (machine : MachineRecord) (deploy_id : DeployId) | DClose (machine : MachineId)
| DUpsertDeploy (r : DeployRecord) | DUpsertRevision (r : ServiceRevisionRecord)
| DUpsertInstance (r : InstanceStatusRecord)
| DStart (machine : MachineId) (service : string) (slot : SlotId) (instance : InstanceId) (spec_json : string)
| DCommit (c : DeployCommit)
| DDrain (machine : MachineId) (instance : InstanceId)
| DRemove (machine : MachineId) (instance : InstanceId).

Record DeployEnv := {
  de_now : list DeployCall -> N;
  de_uuid : list DeployCall -> string;
  de_releases : list DeployCall -> Res (list ServiceReleaseRecord);
  de_machines : list DeployCall -> Res (list MachineRecord);
  de_instances : list DeployCall -> Res (list InstanceStatusRecord);
  de_open : list DeployCall -> MachineRecord -> Res (list InstanceStatusRecord);
  de_start : list DeployCall -> DeployCall -> Res InstanceStatusRecord;
  de_unit : list DeployCall -> DeployCall -> Res unit
}.

(** The coordinator's mutable locals: the event list, the open sessions (a
    [BTreeMap]) and the cleanup errors. *)
Record Coordinator := {
  co_events : list DeployEvent;
  co_sessions : gset string;
  co_cleanup_errors : list string
}.
Definition D (A : Type) : Type := eff Coordinator DeployCall Error A.

Definition push_event (step message : string) (c : Coordinator) : Coordinator := {|
  co_events := co_events c ++ [{| ev_step := step; ev_message := message |}];
  co_sessions := co_sessions c; co_cleanup_errors := co_cleanup_errors c |}.
Definition add_session (id : MachineId) (c : Coordinator) : Coordinator := {|
  co_events := co_events c; co_sessions := {[id]} ∪ co_sessions c; co_cleanup_errors := co_cleanup_errors c |}.
Definition push_cleanup_error (e : string) (c : Coordinator) : Coordinator := {|
  co_events := co_events c; co_sessions := co_sessions c; co_cleanup_errors := co_cleanup_errors c ++ [e] |}.

Section coordinator.
Context `{SpecCodec} `{DeployCodec} (env : DeployEnv) (local_machine_id : MachineId)
  (manifest : DeployManifest).
Local Open Scope eff_scope.
Local Notation namespace := (mf_namespace manifest).

Definition now_unix_secs : D N := mcall (fun log => Ok (de_now env log)) DNow.
Definition new_uuid : D string := mcall (fun log => Ok (de_uuid env log)) DUuid.
Definition list_service_releases : D (list ServiceReleaseRecord) :=
  mcall (de_releases env) (DListReleases namespace).
Definition list_machines : D (list MachineRecord) := mcall (de_machines env) DListMachines.
Definition unit_call (c : DeployCall) : D unit := mcall (fun log => de_unit env log c) c.

Definition preview : D DeployPreview :=
  _ <-! mlift (map_err (Operation "deploy_preview") (manifest_validate manifest)) ;;
  current_releases <-! list_service_releases ;;
  machines <-! list_machines ;;
  now <-! now_unix_secs ;;
  mlift (preview_plan local_machine_id manifest current_releases machines now).

(** The loop that locks the participants, in order. *)
Definition open_session (deploy_id : DeployId) (machine_map : gmap string MachineRecord)
    (participant : MachineId) : D unit :=
  match machine_map !! participant with
  | None => mfail (Operation "deploy_apply"
      ("participant '" +:+ participant +:+ "' is missing from machine inventory"))
  | Some machine =>
      instances <-! mcall (fun log => de_open env log machine) (DOpen machine deploy_id) ;;
      _ <-! mput (push_event "lock" ("acquired lock on '" +:+ participant +:+ "' (" +:+
                    dec (N.of_nat (length instances)) +:+ " instances)")) ;;
      mput (add_session participant)
  end.

(** One desired slot: keep the instance that runs, or start a candidate. *)
Definition fill_slot (spec : ServiceSpec) (hash spec_json : string)
    (current_slots : option (list ServiceReleaseSlot)) (desired : DesiredSlot) : D ServiceReleaseSlot :=
  let slot active := {| sl_slot_id := ds_slot_id desired; sl_machine_id := ds_machine_id desired;
                        sl_active_instance_id := active; sl_revision_hash := hash |} in
  let current_slot := current_slots ≫= find_slot (ds_slot_id desired) in
  match slot_action current_slot desired hash, current_slot with
  | Unchanged, Some current => mret (slot (sl_active_instance_id current))
  | Unchanged, None => mfail (Operation "deploy_apply" "missing current slot")
  | _, _ =>
      instance_id <-! new_uuid ;;
      _ <-! mput (push_event "start_candidate"
             ("starting " +:+ ss_name spec +:+ " slot " +:+ ds_slot_id desired +:+ " as instance " +:+
              instance_id +:+ " on " +:+ ds_machine_id desired)) ;;
      sessions <-! mget co_sessions ;;
      if decide (ds_machine_id desired ∈ sessions) then
        let call := DStart (ds_machine_id desired) (ss_name spec) (ds_slot_id desired) instance_id spec_json in
        status <-! mcall (fun log => de_start env log call) call ;;
        _ <-! unit_call (DUpsertInstance status) ;;
        mret (slot (is_instance_id status))
      else mfail (Operation "deploy_apply"
             ("no session was available for machine '" +:+ ds_machine_id desired +:+ "'"))
  end.

(** One service of the manifest. *)
Definition deploy_service (deploy_id : DeployId) (started_at : N) (desired_machines : list MachineId)
    (slots_by_service : gmap string (list ServiceReleaseSlot)) (spec : ServiceSpec)
    : D ServiceReleaseRecord :=
  hash <-! mlift (hash_or "deploy_apply" spec) ;;
  spec_json <-! mlift (map_err (Operation "deploy_apply") (canonical_revision_json spec)) ;;
  _ <-! unit_call (DUpsertRevision
         {| srv_namespace := namespace; srv_service := ss_name spec; srv_revision_hash := hash;
            srv_spec_json := spec_json; srv_created_by := local_machine_id; srv_created_at := started_at |}) ;;
  desired <-! mlift (desired_slots spec desired_machines (slots_by_service !! ss_name spec)) ;;
  next_slots <-! mmap (fill_slot spec hash spec_json (slots_by_service !! ss_name spec)) desired ;;
  updated_at <-! now_unix_secs ;;
  mret {| rel_namespace := namespace; rel_service := ss_name spec;
          rel_release := {|
            sr_primary_revision_hash := hash; sr_referenced_revision_hashes := [hash];
            sr_routing := Direct hash; sr_slots := next_slots;
            sr_updated_by_deploy_id := deploy_id; sr_updated_at := updated_at |} |}.

(** One instance of the namespace after the commit. *)
Definition cleanup_instance (active participant_ids : gset string) (status : InstanceStatusRecord) : D unit :=
  if decide (is_instance_id status ∈ active) then mret tt
  else if decide (is_machine_id status ∉ participant_ids) then mret tt
  else
    sessions <-! mget co_sessions ;;
    if decide (is_machine_id status ∉ sessions) then mret tt else
    drained <-! mtry (unit_call (DDrain (is_machine_id status) (is_instance_id status))) ;;
    match drained with
    | Err e => mput (push_cleanup_error (error_to_string e))
    | Ok _ =>
        removed <-! mtry (unit_call (DRemove (is_machine_id status) (is_instance_id status))) ;;
        match removed with
        | Ok _ => mput (push_event "cleanup"
            ("removed old instance " +:+ is_instance_id status +:+ " from " +:+ is_machine_id status))
        | Err e => mput (push_cleanup_error (error_to_string e))
        end
    end.

Definition preview_summary (p : DeployPreview) : Res string :=
  map_err (fun e => Operation "deploy_apply" ("serialize preview: " +:+ e)) (preview_to_string p).

Definition deploy_record (deploy_id : DeployId) (p : DeployPreview) (started_at : N) (summary : string)
    (state : DeployState) (committed finished : option N) : DeployRecord := {|
  dr_deploy_id := deploy_id; dr_namespace := namespace; dr_coordinator_machine_id := local_machine_id;
  dr_manifest_hash := dp_manifest_hash p; dr_state := state; dr_started_at := started_at;
  dr_committed_at := committed; dr_finished_at := finished; dr_summary_json := summary |}.

(** After the commit: remove what is no longer referenced. *)
Definition cleanup (deploy_id : DeployId) (final_preview : DeployPreview) (started_at committed_at : N)
    (summary : string) (releases : list ServiceReleaseRecord) : D DeployState :=
  let active : gset string :=
    list_to_set (releases ≫= fun r => sl_active_instance_id <$> sr_slots (rel_release r)) in
  instances <-! mcall (de_instances env) (DListInstances namespace) ;;
  _ <-! mfor instances (cleanup_instance active (list_to_set (dp_participants final_preview))) ;;
  errors <-! mget co_cleanup_errors ;;
  match errors with
  | [] => mret DpCommitted
  | _ =>
      finished <-! now_unix_secs ;;
      _ <-! unit_call (DUpsertDeploy (deploy_record deploy_id final_preview started_at summary
              DpCleanupPending (Some committed_at) (Some finished))) ;;
      _ <-! mfor errors (fun e => mput (push_event "cleanup_pending" e)) ;;
      mret DpCleanupPending
  end.

Definition removed_services (p : DeployPreview) : list string :=
  pl_service <$> filter (fun pl => pl_action pl = Remove) (dp_services p).

(** The part of [apply] that runs with the locks held. *)
Definition apply_locked (deploy_id : DeployId) (started_at : N) (initial_preview : DeployPreview)
    (machines : list MachineRecord) : D DeployApplyResult :=
  final_preview <-! preview ;;
  if decide (dp_participants final_preview <> dp_participants initial_preview) then
    mfail (Operation "deploy_apply" "participant set changed after lock acquisition; retry deploy")
  else
  summary <-! mlift (preview_summary final_preview) ;;
  _ <-! unit_call (DUpsertDeploy
         (deploy_record deploy_id final_preview started_at summary DpApplying None None)) ;;
  current_releases <-! list_service_releases ;;
  let slots_by_service := current_slots_by_service (current_release_map current_releases) in
  now <-! now_unix_secs ;;
  let desired_machines := deployable_machines machines local_machine_id now in
  releases <-! mmap (deploy_service deploy_id started_at desired_machines slots_by_service)
                 (mf_services manifest) ;;
  committed_at <-! now_unix_secs ;;
  summary <-! mlift (preview_summary final_preview) ;;
  _ <-! unit_call (DCommit
         {| dc_namespace := namespace; dc_removed_services := removed_services final_preview;
            dc_releases := releases;
            dc_deploy := deploy_record deploy_id final_preview started_at summary
                           DpCommitted (Some committed_at) (Some committed_at) |}) ;;
  _ <-! mput (push_event "commit" ("committed deploy " +:+ deploy_id +:+ " for '" +:+ namespace +:+ "'")) ;;
  final_state <-! cleanup deploy_id final_preview started_at committed_at summary releases ;;
  events <-! mget co_events ;;
  mret {| da_deploy_id := deploy_id; da_preview := final_preview; da_state := final_state;
          da_events := events |}.

Definition close_sessions : D unit :=
  sessions <-! mget co_sessions ;;
  mfor (sort_strings (elements sessions)) (fun id => _ <-! mtry (unit_call (DClose id)) ;; mret tt).

Definition apply : D DeployApplyResult :=
  deploy_id <-! new_uuid ;;
  started_at <-! now_unix_secs ;;
  initial_preview <-! preview ;;
  machines <-! list_machines ;;
  let machine_map := index_by mr_id machines in
  _ <-! mfor (sort_strings (dp_participants initial_preview)) (open_session deploy_id machine_map) ;;
  result <-! mtry (apply_locked deploy_id started_at initial_preview machines) ;;
  _ <-! close_sessions ;;
  mlift result.
End coordinator.

Definition coordinator_new : Coordinator := {| co_events := []; co_sessions := ∅; co_cleanup_errors := [] |}.

(** ** What the coordinator does to the outside *)

(** Calls that neither publish a release nor stop an instance. *)
Definition quiet (c : DeployCall) : Prop :=
  match c with DCommit _ | DDrain _ _ | DRemove _ _ => False | _ => True end.
(** Calls that publish nothing and stop no instance of [active]. *)
Definition spares (active : list InstanceId) (c : DeployCall) : Prop :=
  match c with
  | DCommit _ => False
  | DDrain _ i | DRemove _ i => i ∉ active
  | _ => True
  end.

Definition committed_instances (releases : list ServiceReleaseRecord) : list InstanceId :=
  releases ≫= fun r => sl_active_instance_id <$> sr_slots (rel_release r).

Section coordinator_laws.
Context `{SpecCodec} `{DeployCodec} (env : DeployEnv) (local : MachineId) (manifest : DeployManifest).
Local Open Scope eff_scope.

(** A slot of a release is backed by an instance that runs: one the service
    already had in that place, or one a session reported started. *)
Definition slot_backed (current : option (list ServiceReleaseSlot)) (service : string)
    (log : list DeployCall) (s : ServiceReleaseSlot) : Prop :=
  (exists s0, current ≫= find_slot (sl_slot_id s) = Some s0 /\ s0 = s) \/
  (exists before instance json status,
     let call := DStart (sl_machine_id s) service (sl_slot_id s) instance json in
     before ++ [call] `prefix_of` log /\ de_start env before call = Ok status /\
     is_instance_id status = sl_active_instance_id s).

Lemma slot_backed_mono current service log log' s :
  slot_backed current service log s -> log `prefix_of` log' -> slot_backed current service log' s.
Proof.
  intros [Hk|(b & i & j & st & Hp & Hs & Hi)] Hlog; [by left|]. right. exists b, i, j, st.
  split_and!; try done. by etrans.
Qed.

(** The log grew by calls satisfying [P]. *)
Definition grew (P : DeployCall -> Prop) (log log' : list DeployCall) : Prop :=
  exists new, log' = log ++ new /\ Forall P new.

Lemma grew_refl P log : grew P log log.
Proof. exists []. by rewrite app_nil_r. Qed.
Lemma grew_trans P log1 log2 log3 : grew P log1 log2 -> grew P log2 log3 -> grew P log1 log3.
Proof.
  intros (n1 & -> & H1) (n2 & -> & H2). exists (n1 ++ n2). by rewrite app_assoc, Forall_app.
Qed.
Lemma grew_snoc (P : DeployCall -> Prop) log log' c : grew P log log' -> P c -> grew P log (log' ++ [c]).
Proof. intros (new & -> & Hn) Hc. exists (new ++ [c]). rewrite app_assoc, Forall_app. auto. Qed.
Lemma grew_prefix P log log' : grew P log log' -> log `prefix_of` log'.
Proof. intros (new & -> & _). by apply prefix_app_r. Qed.
#[local] Hint Resolve grew_refl grew_snoc : core.
#[local] Hint Extern 1 (quiet _) => exact I : core.

Lemma fill_slot_spec spec hash json current d m log :
  wp (fill_slot env spec hash json current d) (fun r _ log' =>
    grew quiet log log' /\
    match r with
    | Ok s => sl_slot_id s = ds_slot_id d /\ sl_machine_id s = ds_machine_id d /\
              sl_revision_hash s = hash /\ slot_backed current (ss_name spec) log' s
    | Err _ => True
    end) m log.
Proof.
  unfold fill_slot. set (cur := current ≫= find_slot (ds_slot_id d)).
  destruct (slot_action cur d hash) eqn:Hact.
  4:{ destruct cur as [s0|] eqn:Hcur; [|by wp_step].
      wp_step. split; [done|]. simpl. split_and!; try done. left. exists s0. simpl.
      split; [done|]. unfold slot_action in Hact. case_decide as Hd; [|done].
      unfold cur in Hcur. apply bind_Some in Hcur as (l & -> & Hf). apply find_slot_Some in Hf as [_ Hid].
      destruct s0; simpl in *; destruct Hd; by subst. }
  all: unfold new_uuid, unit_call; wp_step; apply wp_call; do 4 wp_step;
    (destruct (decide _); [|by wp_step; split; [|done]; eauto]);
    wp_step; apply wp_call;
    match goal with |- match ?a with Ok _ => _ | Err _ => _ end => destruct a as [status|err] eqn:Hst end;
    [|split; [|done]; eauto];
    wp_step; apply wp_call_any; intros [u|err]; [wp_step|split; [eauto 10|done]];
    (split; [eauto 10|]); simpl; split_and!; try done; right;
    eexists _, _, _, status; (split_and!; [|exact Hst|done]); by apply prefix_app_r.
Qed.

(** A release the coordinator may publish for a service. *)
Definition released (ms : list MachineId) (slots : gmap string (list ServiceReleaseSlot))
    (log : list DeployCall) (spec : ServiceSpec) (rel : ServiceReleaseRecord) : Prop :=
  rel_namespace rel = mf_namespace manifest /\ implements ms (slots !! ss_name spec) spec rel /\
  Forall (slot_backed (slots !! ss_name spec) (ss_name spec) log) (sr_slots (rel_release rel)).

Lemma Forall_backed_mono current service log log' l :
  Forall (slot_backed current service log) l -> log `prefix_of` log' ->
  Forall (slot_backed current service log') l.
Proof. intros Hl Hp. eapply Forall_impl; [exact Hl|]. intros s Hs. by eapply slot_backed_mono. Qed.

Lemma fill_slots_spec spec hash json current desired m log :
  wp (mmap (fill_slot env spec hash json current) desired) (fun r _ log' =>
    grew quiet log log' /\
    match r with
    | Ok l => Forall2 (fun d s => sl_slot_id s = ds_slot_id d /\ sl_machine_id s = ds_machine_id d /\
                                  sl_revision_hash s = hash) desired l /\
              Forall (slot_backed current (ss_name spec) log') l
    | Err _ => True
    end) m log.
Proof.
  apply (wp_map (fun dn ys _ log' => grew quiet log log' /\
    Forall2 (fun d s => sl_slot_id s = ds_slot_id d /\ sl_machine_id s = ds_machine_id d /\
                        sl_revision_hash s = hash) dn ys /\
    Forall (slot_backed current (ss_name spec) log') ys)); [by auto| |by auto].
  intros dn d rest ys m1 log1 _ (Hg & Hf & Hb).
  eapply wp_mono; [apply fill_slot_spec|]. intros r m2 log2 [Hg2 Hr].
  assert (grew quiet log log2) as Hg3 by (by eapply grew_trans). destruct r as [s|e]; [|done].
  destruct Hr as (H1 & H2 & H3 & H4). split_and!; [done|by apply Forall2_app; auto|].
  apply Forall_app. split; [|by constructor]. eapply Forall_backed_mono; [done|by eapply grew_prefix].
Qed.

Lemma deploy_service_spec id started ms slots spec m log :
  wp (deploy_service env local manifest id started ms slots spec) (fun r _ log' =>
    grew quiet log log' /\
    match r with Ok rel => released ms slots log' spec rel | Err _ => True end) m log.
Proof.
  unfold deploy_service, unit_call, now_unix_secs. do 2 wp_step.
  destruct (hash_or "deploy_apply" spec) as [hash|] eqn:Hh; [|auto]. do 2 wp_step.
  destruct (map_err _ (canonical_revision_json spec)) as [json|]; [|auto]. do 2 wp_step; [|auto].
  do 2 wp_step. destruct (desired_slots spec ms _) as [desired|] eqn:Hd; [|auto]. wp_step.
  eapply wp_mono; [apply fill_slots_spec|]. intros r m1 log1 [Hg Hr].
  assert (grew quiet log log1) as Hg1 by (eapply grew_trans; [|exact Hg]; auto).
  destruct r as [l|e]; [|auto]. destruct Hr as [Hf Hb]. do 3 wp_step. split; [auto|].
  split_and!; [done| |].
  - exists hash, desired. unfold hash_or in Hh.
    destruct (revision_hash spec) as [h|]; [|done]. injection Hh as ->. done.
  - simpl. eapply Forall_backed_mono; [done|]. by apply prefix_app_r.
Qed.

(** What a committed deploy looks like: the commit names the manifest's
    services in order, each with a backed release, and nothing outside it
    was stopped before it or is stopped after it. *)
Definition sound_commit (c : DeployCommit) (before : list DeployCall) : Prop :=
  dc_namespace c = mf_namespace manifest /\ dr_state (dc_deploy c) = DpCommitted /\
  exists ms slots, Forall2 (released ms slots before) (mf_services manifest) (dc_releases c).

Definition commit_shape (ok : bool) (log log' : list DeployCall) : Prop :=
  (ok = false /\ grew quiet log log') \/
  exists c before after,
    log' = before ++ DCommit c :: after /\ grew quiet log before /\ sound_commit c before /\
    Forall (spares (committed_instances (dc_releases c))) after.

Lemma deploy_services_spec id started ms slots m log :
  wp (mmap (deploy_service env local manifest id started ms slots) (mf_services manifest))
    (fun r _ log' => grew quiet log log' /\
      match r with Ok l => Forall2 (released ms slots log') (mf_services manifest) l | Err _ => True end) m log.
Proof.
  apply (wp_map (fun dn ys _ log' => grew quiet log log' /\ Forall2 (released ms slots log') dn ys));
    [by auto| |by auto].
  intros dn spec rest ys m1 log1 _ [Hg Hf]. eapply wp_mono; [apply deploy_service_spec|].
  intros r m2 log2 [Hg2 Hr]. assert (grew quiet log log2) as Hg3 by (by eapply grew_trans).
  destruct r as [rel|e]; [|done]. split; [done|]. apply Forall2_app; [|by constructor].
  eapply Forall2_impl; [exact Hf|]. intros s r (H1 & H2 & H3). split_and!; try done.
  eapply Forall_backed_mono; [done|by eapply grew_prefix].
Qed.

Lemma preview_quiet m log : wp (preview env local manifest) (fun r m' log' => m' = m /\ grew quiet log log') m log.
Proof.
  unfold preview, list_service_releases, list_machines, now_unix_secs. wp_steps; auto 10.
Qed.

(** Cleanup stops no committed instance. *)
Lemma cleanup_spares id p started committed summary releases :
  emits (spares (committed_instances releases)) (cleanup env local manifest id p started committed summary releases).
Proof.
  unfold cleanup, cleanup_instance, unit_call, now_unix_secs.
  repeat first [emits_step | match goal with
    | |- emits _ (mcall _ (DDrain _ _)) => apply emits_call; simpl
    | |- emits _ (mcall _ (DRemove _ _)) => apply emits_call; simpl
    end].
  all: rewrite elem_of_list_to_set in *; done.
Qed.

Lemma commit_shape_quiet log log1 : grew quiet log log1 -> commit_shape false log log1.
Proof. by left. Qed.
#[local] Hint Resolve commit_shape_quiet : core.

Lemma apply_locked_spec id started p0 machines m log :
  wp (apply_locked env local manifest id started p0 machines) (fun r _ log' =>
    commit_shape (is_ok r) log log') m log.
Proof.
  unfold apply_locked, unit_call, list_service_releases, now_unix_secs. wp_step.
  eapply wp_mono; [apply preview_quiet|]. intros [p|e] m1 log1 [-> Hg]; [|by auto].
  destruct (decide _); [by wp_step; auto|]. do 2 wp_step.
  destruct (preview_summary p) as [summary|]; [|by auto]. do 2 wp_step; [|by simpl; auto].
  do 2 wp_step; [|by simpl; auto]. do 3 wp_step.
  eapply wp_mono; [apply deploy_services_spec|]. intros r m2 log2 [Hg2 Hr].
  assert (grew quiet log log2) as Hg3 by (eapply grew_trans; [|exact Hg2]; auto).
  destruct r as [releases|e]; [|by auto]. do 4 wp_step. wp_step. apply wp_call_any.
  set (c := {| dc_namespace := _; dc_removed_services := _; dc_releases := _; dc_deploy := _ |}).
  assert (sound_commit c (log2 ++ [DNow])) as Hc.
  { split_and!; [done..|]. eexists _, _. simpl. eapply Forall2_impl; [exact Hr|].
    intros spec rel (Hns & Himp & Hb). split_and!; try done.
    eapply Forall_backed_mono; [exact Hb|]. by apply prefix_app_r. }
  assert (grew quiet log (log2 ++ [DNow])) as Hg4 by auto.
  intros [u|e]; [|right; eexists c, _, []; split_and!; done].
  do 2 wp_step. wp_step. eapply wp_mono; [apply cleanup_spares|].
  intros r4 m4 log4 Hx. cbv beta in Hx. destruct Hx as (new & -> & Hnew).
  assert (forall ok, commit_shape ok log (((log2 ++ [DNow]) ++ [DCommit c]) ++ new)) as Hshape.
  { intros ok. right. exists c, (log2 ++ [DNow]), new. by rewrite <- (app_assoc _ [DCommit c]). }
  destruct r4; [|apply Hshape]. do 3 wp_step. apply Hshape.
Qed.

(** The start and the end of [apply]. *)
Lemma open_sessions_quiet id machine_map l : emits quiet (mfor l (open_session env id machine_map)).
Proof. unfold open_session. repeat emits_step. Qed.

Definition is_close (c : DeployCall) : Prop := match c with DClose _ => True | _ => False end.

Lemma close_sessions_emits : emits is_close (close_sessions env).
Proof. unfold close_sessions, unit_call. repeat emits_step. Qed.

Lemma commit_shape_close ok log0 log log' new :
  grew quiet log0 log -> commit_shape ok log log' -> Forall is_close new -> commit_shape ok log0 (log' ++ new).
Proof.
  intros H0' Hshape Hnew. destruct Hshape as [[Hok Hg]|(c & before & after & -> & Hg & Hc & Hsp)].
  - left. split; [done|]. apply (grew_trans _ _ log'); [by eapply grew_trans|]. exists new. split; [done|].
    eapply Forall_impl; [exact Hnew|]. by intros [].
  - right. exists c, before, (after ++ new). rewrite <- app_assoc. split_and!; try done.
    + by eapply grew_trans.
    + apply Forall_app. split; [done|]. eapply Forall_impl; [exact Hnew|]. by intros [].
Qed.

Lemma close_sessions_ok m log : wp (close_sessions env) (fun r _ _ => r = Ok tt) m log.
Proof.
  unfold close_sessions, unit_call. do 2 wp_step.
  apply (wp_for (fun _ _ _ => True)); [done| |done]. intros. wp_steps; done.
Qed.


(** ** Locks *)

Definition is_read (c : DeployCall) : Prop :=
  match c with DNow | DUuid | DListReleases _ | DListMachines => True | _ => False end.
Definition is_locking (c : DeployCall) : Prop :=
  match c with DOpen _ _ | DClose _ => True | _ => False end.
Definition opens (ids : list MachineId) (calls : list DeployCall) : Prop :=
  Forall2 (fun id c => exists m deploy, c = DOpen m deploy /\ mr_id m = id) ids calls.

Lemma preview_spec m log :
  wp (preview env local manifest) (fun r m' log' =>
    m' = m /\ grew is_read log log' /\
    (forall p, r = Ok p -> StronglySorted (cmp_le str_cmp) (dp_participants p) /\ NoDup (dp_participants p)))
    m log.
Proof.
  unfold preview, list_service_releases, list_machines, now_unix_secs.
  wp_steps; (split; [done|]); (split; [repeat (apply grew_snoc || exact I || apply grew_refl)|]);
    try done. intros p0 Hp. by eapply participants_sorted.
Qed.

Lemma apply_locked_sessions id started p0 machines :
  preserves co_sessions (apply_locked env local manifest id started p0 machines).
Proof.
  unfold apply_locked, preview, deploy_service, fill_slot, cleanup, cleanup_instance, unit_call,
    list_service_releases, list_machines, now_unix_secs, new_uuid.
  repeat preserves_step.
Qed.

Lemma apply_locked_no_locking id started p0 machines :
  emits (fun c => ~ is_locking c) (apply_locked env local manifest id started p0 machines).
Proof.
  unfold apply_locked, preview, deploy_service, fill_slot, cleanup, cleanup_instance, unit_call,
    list_service_releases, list_machines, now_unix_secs, new_uuid.
  repeat (emits_step || (apply emits_call; simpl; by intros [])).
Qed.

Lemma open_sessions_spec id mm l m log :
  co_sessions m = ∅ -> map_Forall (fun k x => mr_id x = k) mm ->
  wp (mfor l (open_session env id mm)) (fun r m' log' => exists ids calls,
    log' = log ++ calls /\ ids `prefix_of` l /\ opens ids calls /\
    (r = Ok tt -> ids = l /\ co_sessions m' = list_to_set l)) m log.
Proof.
  intros Hm Hmm.
  apply (wp_for (fun dn m' log' => exists calls,
    log' = log ++ calls /\ opens dn calls /\ co_sessions m' = list_to_set dn)).
  - exists []. rewrite app_nil_r. split_and!; [done|constructor|done].
  - intros dn x rest m1 log1 -> (calls & -> & Ho & Hs). unfold open_session.
    destruct (mm !! x) as [machine|] eqn:Hx.
    2:{ wp_step. exists dn, calls. split_and!; try done. by apply prefix_app_r. }
    assert (opens (dn ++ [x]) (calls ++ [DOpen machine id])) as Ho'.
    { apply Forall2_app; [done|]. constructor; [|constructor]. exists machine, id.
      split; [done|]. by apply Hmm in Hx. }
    wp_step. apply wp_call_any. intros [inst|e]; cbv beta iota.
    + do 3 wp_step. exists (calls ++ [DOpen machine id]). rewrite app_assoc.
      split_and!; [done|done|]. simpl. rewrite Hs, list_to_set_app_L. simpl. set_solver.
    + exists (dn ++ [x]), (calls ++ [DOpen machine id]). rewrite app_assoc.
      split_and!; [done| |done|done]. exists rest. by rewrite <- app_assoc.
  - intros m1 log1 (calls & -> & Ho & Hs). exists l, calls. split_and!; done.
Qed.

Lemma close_sessions_spec m log :
  wp (close_sessions env) (fun r _ log' =>
    r = Ok tt /\ log' = log ++ (DClose <$> sort_strings (elements (co_sessions m)))) m log.
Proof.
  unfold close_sessions, unit_call. do 2 wp_step.
  apply (wp_for (fun dn _ log' => log' = log ++ (DClose <$> dn))); [by rewrite app_nil_r| |by auto].
  intros dn x rest m1 log1 _ ->. wp_steps; rewrite fmap_app, app_assoc; done.
Qed.

End coordinator_laws.

(** ** Deploying again changes nothing *)

Section convergence.
Context `{SpecCodec} `{DeployCodec} {S : Type} `{!ReleaseStore S}.

Lemma removed_services_elem local manifest releases machines now p r :
  preview_plan local manifest releases machines now = Ok p ->
  r ∈ releases -> rel_service r ∉ ss_name <$> mf_services manifest ->
  rel_service r ∈ removed_services p.
Proof.
  unfold preview_plan. set (slots := current_slots_by_service _).
  rewrite rbind_Ok. intros (bytes & _ & Hp). apply rbind_Ok in Hp as ([parts svcs] & _ & [= <-]).
  intros Hr Hno. unfold removed_services. simpl. rewrite filter_app, fmap_app. apply elem_of_app. right.
  assert (is_Some (slots !! rel_service r)) as [ss Hss].
  { unfold slots, current_slots_by_service. rewrite lookup_fmap, fmap_is_Some.
    destruct (current_release_map releases !! rel_service r) eqn:E; [eauto|].
    apply index_by_None in E. exfalso. apply E. by apply list_elem_of_fmap_2. }
  apply list_elem_of_fmap.
  exists (plan_removed (current_release_map releases) (rel_service r, ss)). split; [done|].
  apply list_elem_of_filter. split; [done|]. apply list_elem_of_fmap_2.
  apply list_elem_of_filter. by rewrite elem_of_map_to_list.
Qed.

(** The releases of the namespace after a commit are the committed ones. *)
Lemma committed_list ns (s : S) c r :
  rst_wf s -> dc_namespace c = ns -> Forall (fun r => rel_namespace r = ns) (dc_releases c) ->
  (forall r, r ∈ rst_list ns s -> rel_service r ∈ touched_services c) ->
  r ∈ rst_list ns (rst_commit c s) <-> written_release c (release_key r) = Some r /\ rel_namespace r = ns.
Proof.
  intros Hs Hns Hrel Hcover. rewrite rst_list_spec by (by apply rst_commit_wf).
  rewrite rst_commit_spec, commit_releases_lookup by done.
  destruct (written_release c (release_key r)) as [r'|]; [naive_solver|].
  case_decide as Hd; [naive_solver|]. split; [|naive_solver]. intros [Hr Hlook]. exfalso. apply Hd. simpl.
  split; [congruence|]. apply Hcover. by apply rst_list_spec.
Qed.

Lemma written_release_index c k : written_release c k = index_by release_key (dc_releases c) !! k.
Proof. unfold written_release, index_by. rewrite insert_all_lookup, lookup_empty. by destruct (last _). Qed.

Lemma services_NoDup ns (l : list ServiceReleaseRecord) :
  Forall (fun r => rel_namespace r = ns) l -> NoDup (release_key <$> l) <-> NoDup (rel_service <$> l).
Proof.
  intros Hl. assert (release_key <$> l = pair ns <$> (rel_service <$> l)) as ->.
  { rewrite <- list_fmap_compose. apply list_fmap_ext. intros i r Hr%list_elem_of_lookup_2.
    rewrite Forall_forall in Hl. unfold release_key. simpl. by rewrite (Hl r). }
  split; [apply NoDup_fmap_1|]. apply NoDup_fmap_2. by intros x y [= ->].
Qed.

(** C2: Deploys converge.  Take any release store, the plan made from its
    releases, and a commit that removes what the plan removes and publishes,
    for every service of the manifest, a release placed as [desired_slots]
    asks for the given machines.  After the commit the store holds exactly the
    manifest's services, and planning the same manifest again on these
    machines marks every service and slot unchanged and removes nothing. *)
Theorem deploy_converges (s : S) (c : DeployCommit) (local : MachineId) (manifest : DeployManifest)
    (machines machines0 : list MachineRecord) (now now0 : N) (p0 : DeployPreview) (bytes : list N) :
  rst_wf s ->
  preview_plan local manifest (rst_list (mf_namespace manifest) s) machines0 now0 = Ok p0 ->
  dc_namespace c = mf_namespace manifest -> dc_removed_services c = removed_services p0 ->
  NoDup (ss_name <$> mf_services manifest) ->
  Forall2 (fun spec r => rel_namespace r = mf_namespace manifest /\
    exists current, implements (deployable_machines machines local now) current spec r)
    (mf_services manifest) (dc_releases c) ->
  manifest_to_vec manifest = Ok bytes ->
  exists p, preview_plan local manifest (rst_list (mf_namespace manifest) (rst_commit c s)) machines now = Ok p /\
    Forall plan_unchanged (dp_services p) /\
    pl_service <$> dp_services p = ss_name <$> mf_services manifest.
Proof.
  intros Hs Hp0 Hns Hrm Hnd Hall Hjson.
  assert (Forall (fun r => rel_namespace r = mf_namespace manifest) (dc_releases c)) as Hrel.
  { apply Forall_forall. intros r (i & Hi)%list_elem_of_lookup.
    by destruct (Forall2_lookup_r _ _ _ _ _ Hall Hi) as (spec & _ & ? & _). }
  assert (rel_service <$> dc_releases c = ss_name <$> mf_services manifest) as Hnames.
  { clear -Hall. induction Hall as [|spec r specs rs (_ & cur & h & d & _ & _ & Hn & _) _ IH]; csimpl; congruence. }
  assert (forall r, r ∈ rst_list (mf_namespace manifest) s -> rel_service r ∈ touched_services c) as Hcover.
  { intros r Hr. unfold touched_services. rewrite Hnames. apply elem_of_app.
    destruct (decide (rel_service r ∈ ss_name <$> mf_services manifest)); [by right|left].
    rewrite Hrm. by eapply removed_services_elem. }
  pose proof (fun r => committed_list (mf_namespace manifest) s c r Hs Hns Hrel Hcover) as Hlist.
  apply (redeploy_unchanged local manifest _ machines now bytes); [done| |].
  - intros spec (i & Hi)%list_elem_of_lookup.
    destruct (Forall2_lookup_l _ _ _ _ _ Hall Hi) as (r & Hr & Hrns & cur & Himp).
    exists cur, r. split; [|done]. pose proof Himp as (h & d & _ & _ & Hn & _).
    apply index_by_NoDup; [|split; [|done]].
    + apply (services_NoDup (mf_namespace manifest)); [|by apply rst_list_NoDup, rst_commit_wf].
      apply Forall_forall. intros r' Hr'. by apply Hlist in Hr' as [_ ?].
    + apply Hlist. split; [|done]. rewrite written_release_index.
      apply index_by_NoDup; [|by split; [eapply list_elem_of_lookup_2|]].
      apply (services_NoDup _ _ Hrel). by rewrite Hnames.
  - intros r [Hw _]%Hlist. rewrite written_release_index in Hw. apply index_by_Some in Hw as [Hr _].
    rewrite <- Hnames. by apply list_elem_of_fmap_2.
Qed.
End convergence.

(** ** The states a deploy record goes through *)

Section states.
Context `{SpecCodec} `{DeployCodec} (env : DeployEnv) (local : MachineId) (manifest : DeployManifest).

Definition written_state_ok (c : DeployCall) : Prop :=
  match c with
  | DUpsertDeploy r => dr_state r = DpApplying /\ dr_finished_at r = None \/ dr_state r = DpCleanupPending
  | DCommit c => dr_state (dc_deploy c) = DpCommitted
  | _ => True
  end.

(** A failed deploy stays [Applying].  Every state [apply] ever writes for
    its deploy record is [Applying] (not finished), [Committed] (with the
    commit) or [CleanupPending]; no path, whatever fails, writes [Failed] or
    [Planning], so the record of a deploy that fails after its first write is
    left as [Applying] without a finish time. *)
Theorem apply_never_records_failure : emits written_state_ok (apply env local manifest).
Proof.
  unfold apply, apply_locked, preview, open_session, deploy_service, fill_slot, cleanup, cleanup_instance,
    close_sessions, unit_call, list_service_releases, list_machines, now_unix_secs, new_uuid.
  repeat first [emits_step | apply emits_call; simpl; by auto].
Qed.
End states.

(** ** Witnesses *)

Definition sample_spec_codec : SpecCodec := {|
  spec_to_json s := Ok (ss_name s); spec_from_json _ := Err "not used" |}.
Definition sample_deploy_codec : DeployCodec := {|
  manifest_to_vec m := Ok (str_bytes (mf_namespace m)); preview_to_string p := Ok (dp_manifest_hash p) |}.

Definition sample_spec : ServiceSpec := {|
  ss_name := "web"; ss_placement := Replicated 3;
  ss_template := {| cs_image := "nginx"; cs_command := None; cs_entrypoint := None; cs_env := ∅;
    cs_volumes := []; cs_cap_add := []; cs_cap_drop := []; cs_privileged := false; cs_user := None;
    cs_pull_policy := IfNotPresent;
    cs_resources := {| res_cpu_millicores := None; res_memory_bytes := None |}; cs_sysctls := ∅ |};
  ss_network := NmOverlay; ss_service_ports := []; ss_publish := []; ss_routes := [];
  ss_readiness := None; ss_rollout := Recreate; ss_labels := ∅; ss_stop_grace_period := None;
  ss_restart := UnlessStopped |}.
Definition sample_manifest : DeployManifest := {| mf_namespace := "prod"; mf_services := [sample_spec] |}.

Definition sample_slots (hash : string) : list ServiceReleaseSlot :=
  [{| sl_slot_id := "slot-0001"; sl_machine_id := "m1"; sl_active_instance_id := "i1"; sl_revision_hash := hash |};
   {| sl_slot_id := "slot-0002"; sl_machine_id := "m1"; sl_active_instance_id := "i2"; sl_revision_hash := hash |};
   {| sl_slot_id := "slot-0003"; sl_machine_id := "m1"; sl_active_instance_id := "i3"; sl_revision_hash := hash |}].
Definition sample_hash : string := stable_hash_hex (str_bytes "web").
Definition sample_release : ServiceReleaseRecord := {|
  rel_namespace := "prod"; rel_service := "web";
  rel_release := {| sr_primary_revision_hash := sample_hash; sr_referenced_revision_hashes := [sample_hash];
    sr_routing := Direct sample_hash; sr_slots := sample_slots sample_hash;
    sr_updated_by_deploy_id := "d1"; sr_updated_at := 1 |} |}.
Definition sample_commit : DeployCommit := {|
  dc_namespace := "prod"; dc_removed_services := []; dc_releases := [sample_release];
  dc_deploy := {| dr_deploy_id := "d1"; dr_namespace := "prod"; dr_coordinator_machine_id := "m1";
    dr_manifest_hash := ""; dr_state := DpCommitted; dr_started_at := 1; dr_committed_at := Some 1%N;
    dr_finished_at := Some 1%N; dr_summary_json := "" |} |}.

Lemma desired_slots_placement_witness :
  exists desired, desired_slots sample_spec ["m1"; "m2"] None = Ok desired /\ NoDup (ds_slot_id <$> desired).
Proof.
  eexists. split; [vm_compute; reflexivity|].
  apply (desired_slots_placement sample_spec ["m1"; "m2"] None).
  - apply (bool_decide_unpack _). vm_compute. exact I.
  - vm_compute. reflexivity.
Defined.

Lemma participants_complete_witness :
  exists p, @preview_plan sample_spec_codec sample_deploy_codec "m1" sample_manifest [sample_release] [] 0 = Ok p /\
    "m1" ∈ dp_participants p.
Proof.
  eexists. split; [vm_compute; reflexivity|].
  match goal with |- _ ∈ dp_participants ?p =>
    destruct (@participants_complete sample_spec_codec sample_deploy_codec "m1" sample_manifest
      [sample_release] [] 0 p) as (_ & _ & _ & Hc); [vm_compute; reflexivity|] end.
  apply (Hc "web" sample_release {| sl_slot_id := "slot-0001"; sl_machine_id := "m1";
    sl_active_instance_id := "i1"; sl_revision_hash := sample_hash |}).
  - vm_compute. reflexivity.
  - left.
Defined.

Lemma deploy_converges_witness :
  exists p, @preview_plan sample_spec_codec sample_deploy_codec "m1" sample_manifest
      (mem_list_service_releases "prod" (mem_apply_deploy_commit sample_commit memory_new)) [] 0 = Ok p /\
    Forall plan_unchanged (dp_services p) /\ pl_service <$> dp_services p = ["web"].
Proof.
  assert (exists p0, @preview_plan sample_spec_codec sample_deploy_codec "m1" sample_manifest
    (mem_list_service_releases "prod" memory_new) [] 0 = Ok p0 /\ removed_services p0 = []) as (p0 & Hp0 & Hr0).
  { eexists. split; vm_compute; reflexivity. }
  apply (@deploy_converges sample_spec_codec sample_deploy_codec MemoryStore memory_release_store memory_new
    sample_commit "m1" sample_manifest [] [] 0 0 p0 (str_bytes "prod")).
  - split; apply map_Forall_empty.
  - exact Hp0.
  - reflexivity.
  - symmetry. exact Hr0.
  - apply (bool_decide_unpack _). vm_compute. exact I.
  - constructor; [|constructor]. split; [reflexivity|]. exists None, sample_hash.
    eexists. split; [reflexivity|]. split; [vm_compute; reflexivity|].
    split; [reflexivity|]. split; [reflexivity|]. repeat constructor.
  - reflexivity.
Defined.
