(* ===== verification/Gateway.v ===== *)
(** * The HTTP gateway

    [ployz-gateway]: [routes.rs] (projection of the routing state to a snapshot,
    host normalisation, route matching), [snapshot.rs] (the shared snapshot and
    its load balancers), [sync.rs] (one refresh) and the routing decisions of
    [proxy.rs].  The JSON decoding of a revision's spec is [SpecCodec]; the load
    balancer is a parameter. *)

From S2P Require Import Prelude Order Text Types Spec Store.

Record BackendView := {
  bv_instance_id : InstanceId;
  bv_machine_id : MachineId;
  bv_service_port : string;
  bv_address : Ipv4Addr * N                 (* [SocketAddr::V4] *)
}.
#[global] Instance BackendView_eq_dec : EqDecision BackendView.
Proof. solve_decision. Defined.

Record HttpRouteView := {
  hv_route_id : string;
  hv_namespace : Namespace;
  hv_service : string;
  hv_revision_hash : string;
  hv_hostnames : list string;
  hv_path_prefix : string;
  hv_backends : list BackendView
}.
#[global] Instance HttpRouteView_eq_dec : EqDecision HttpRouteView.
Proof. solve_decision. Defined.

Record TcpRouteView := {
  tv_route_id : string;
  tv_namespace : Namespace;
  tv_service : string;
  tv_revision_hash : string;
  tv_listen_port : N;
  tv_backends : list BackendView
}.
#[global] Instance TcpRouteView_eq_dec : EqDecision TcpRouteView.
Proof. solve_decision. Defined.

Record GatewaySnapshot := { http_routes : list HttpRouteView; tcp_routes : list TcpRouteView }.
Definition snapshot_empty : GatewaySnapshot := {| http_routes := []; tcp_routes := [] |}.

Inductive ProjectionError :=
| MissingRevision (namespace service revision_hash : string)
| InvalidRevisionSpec (namespace service message : string)
| HttpRouteConflict (left right host path_prefix : string)
| TcpRouteConflict (left right : string) (listen_port : N).

(** ** Hosts and paths *)

Definition normalize_request_host (host : string) : string :=
  let trimmed := trim_end_matches "."%char (trim host) in
  if is_empty trimmed then ""
  else match strip_prefix "[" trimmed with
  | Some ipv6 =>
      let bare := match split_once "]"%char ipv6 with Some (addr, _) => addr | None => ipv6 end in
      to_ascii_lowercase bare
  | None =>
      match rsplit_once ":"%char trimmed with
      | Some (host_part, port_part) =>
          if all_chars is_ascii_digit port_part then to_ascii_lowercase host_part
          else to_ascii_lowercase trimmed
      | None => to_ascii_lowercase trimmed
      end
  end.

Definition normalize_path_prefix (path_prefix : string) : string :=
  let trimmed := trim path_prefix in
  if is_empty trimmed then "/"
  else if starts_with trimmed "/" then trimmed
  else "/" +:+ trimmed.

Definition route_matches_host (route : HttpRouteView) (host : option string) : bool :=
  match hv_hostnames route with
  | [] => true
  | hostnames =>
      match host with
      | Some host => existsb (fun candidate => bool_decide (candidate = host)) hostnames
      | None => false
      end
  end.

(** [host.map(normalize_request_host).filter(|value| !value.is_empty())]. *)
Definition request_host (host : option string) : option string :=
  match normalize_request_host <$> host with
  | Some value => if is_empty value then None else Some value
  | None => None
  end.

Definition route_matches (host : option string) (path : string) (route : HttpRouteView) : bool :=
  route_matches_host route host && starts_with path (hv_path_prefix route).

Definition match_http_route (snapshot : GatewaySnapshot) (host : option string) (path : string)
    : option HttpRouteView :=
  let host := request_host host in
  let path := normalize_path_prefix path in
  snd <$> list_find (fun route => route_matches host path route = true) (http_routes snapshot).

(** ** Projection *)

Definition routing_revision_hash (release : ServiceRelease) : string :=
  match sr_routing release with
  | Direct revision_hash => revision_hash
  | Split _ => sr_primary_revision_hash release
  end.

Definition allowed_revision_hashes (release : ServiceRelease) : gset string :=
  match sr_routing release with
  | Direct revision_hash => {[ revision_hash ]}
  | Split allocations =>
      let hashes : gset string := list_to_set (sta_revision_hash <$> allocations) in
      if decide (hashes = ∅) then list_to_set (sr_referenced_revision_hashes release) else hashes
  end.

Definition is_routable_instance (instance : InstanceStatusRecord) (slot : ServiceReleaseSlot)
    (namespace : Namespace) (service : string) (allowed : gset string) : bool :=
  bool_decide (is_namespace instance = namespace) &&
  bool_decide (is_service instance = service) &&
  bool_decide (is_slot_id instance = sl_slot_id slot) &&
  bool_decide (is_machine_id instance = sl_machine_id slot) &&
  bool_decide (is_revision_hash instance = sl_revision_hash slot) &&
  bool_decide (is_revision_hash instance ∈ allowed) &&
  is_ready instance &&
  bool_decide (is_phase instance = IpReady) &&
  bool_decide (is_drain_state instance = DsNone) &&
  bool_decide (is_error instance = None).

(** [SocketAddrV4]: by address, then by port. *)
Definition address_cmp (a b : Ipv4Addr * N) : comparison :=
  then_with (N.compare a.1 b.1) (N.compare a.2 b.2).
Definition backend_cmp (a b : BackendView) : comparison :=
  then_with (str_cmp (bv_machine_id a) (bv_machine_id b))
    (then_with (str_cmp (bv_instance_id a) (bv_instance_id b))
      (address_cmp (bv_address a) (bv_address b))).

Definition push_backend (instance : InstanceStatusRecord) (overlay_ip : Ipv4Addr)
    (backends : gmap string (list BackendView)) (port_name : string) : gmap string (list BackendView) :=
  match is_backend_ports instance !! port_name with
  | None => backends
  | Some port_number =>
      <[port_name := default [] (backends !! port_name) ++
          [{| bv_instance_id := is_instance_id instance; bv_machine_id := is_machine_id instance;
              bv_service_port := port_name; bv_address := (overlay_ip, port_number) |}]]> backends
  end.

Definition add_slot (ports : list string) (namespace : Namespace) (service : string) (allowed : gset string)
    (instances : gmap string InstanceStatusRecord) (backends : gmap string (list BackendView))
    (slot : ServiceReleaseSlot) : gmap string (list BackendView) :=
  match instances !! sl_active_instance_id slot with
  | None => backends
  | Some instance =>
      if is_routable_instance instance slot namespace service allowed then
        match is_overlay_ip instance with
        | None => backends
        | Some overlay_ip => foldl (push_backend instance overlay_ip) backends ports
        end
      else backends
  end.

Definition routable_backends_by_port (spec : ServiceSpec) (namespace : Namespace) (service : string)
    (allowed : gset string) (slots : list ServiceReleaseSlot) (instances : gmap string InstanceStatusRecord)
    : gmap string (list BackendView) :=
  let ports := elements (list_to_set (port_name <$> ss_service_ports spec) : gset string) in
  sort_by backend_cmp <$> foldl (add_slot ports namespace service allowed instances) ∅ slots.

Definition normalize_hostnames (hostnames : list string) : list string :=
  sort_strings (elements (list_to_set (filter (fun h => h <> "") (normalize_request_host <$> hostnames)) : gset string)).

Definition route_id (kind namespace service : string) (index : nat) : string :=
  kind +:+ ":" +:+ namespace +:+ ":" +:+ service +:+ ":" +:+ dec (N.of_nat index).

(** One route of a release: an HTTP or a TCP view. *)
Definition project_route (revision : ServiceRevisionRecord) (spec : ServiceSpec)
    (backends : gmap string (list BackendView)) (index : nat) (route : RouteSpec)
    : HttpRouteView + TcpRouteView :=
  match route with
  | RouteHttp r => inl
      {| hv_route_id := route_id "http" (srv_namespace revision) (ss_name spec) index;
         hv_namespace := srv_namespace revision; hv_service := ss_name spec;
         hv_revision_hash := srv_revision_hash revision;
         hv_hostnames := normalize_hostnames (hr_hostnames r);
         hv_path_prefix := normalize_path_prefix (hr_path_prefix r);
         hv_backends := default [] (backends !! hr_service_port r) |}
  | RouteTcp r => inr
      {| tv_route_id := route_id "tcp" (srv_namespace revision) (ss_name spec) index;
         tv_namespace := srv_namespace revision; tv_service := ss_name spec;
         tv_revision_hash := srv_revision_hash revision;
         tv_listen_port := tr_listen_port r;
         tv_backends := default [] (backends !! tr_service_port r) |}
  end.

Definition get_http (v : HttpRouteView + TcpRouteView) : option HttpRouteView :=
  match v with inl r => Some r | inr _ => None end.
Definition get_tcp (v : HttpRouteView + TcpRouteView) : option TcpRouteView :=
  match v with inl _ => None | inr r => Some r end.

(** [validate_http_conflicts]: [seen] maps a host and prefix to a route id. *)
Definition route_hosts (route : HttpRouteView) : list string :=
  match hv_hostnames route with [] => ["*"] | hosts => hosts end.

Definition validate_http_host (route : HttpRouteView) (seen : gmap (string * string) string) (host : string)
    : result ProjectionError (gmap (string * string) string) :=
  match seen !! (host, hv_path_prefix route) with
  | Some existing => Err (HttpRouteConflict existing (hv_route_id route) host (hv_path_prefix route))
  | None => Ok (<[(host, hv_path_prefix route) := hv_route_id route]> seen)
  end.

Definition validate_http_conflicts (routes : list HttpRouteView) : result ProjectionError unit :=
  seen <-? try_fold (fun seen route => try_fold (validate_http_host route) seen (route_hosts route)) ∅ routes ;;
  Ok tt.

Definition validate_tcp_conflicts (routes : list TcpRouteView) : result ProjectionError unit :=
  seen <-? try_fold (fun (seen : gmap N string) route =>
      match seen !! tv_listen_port route with
      | Some existing => Err (TcpRouteConflict existing (tv_route_id route) (tv_listen_port route))
      | None => Ok (<[tv_listen_port route := tv_route_id route]> seen)
      end) ∅ routes ;;
  Ok tt.

Definition hostnames_empty (r : HttpRouteView) : bool := match hv_hostnames r with [] => true | _ => false end.
Definition http_route_cmp (a b : HttpRouteView) : comparison :=
  then_with (bool_cmp (hostnames_empty a) (hostnames_empty b))
    (then_with (Nat.compare (len (hv_path_prefix b)) (len (hv_path_prefix a)))
      (then_with (str_cmp (hv_namespace a) (hv_namespace b))
        (then_with (str_cmp (hv_service a) (hv_service b))
          (str_cmp (hv_route_id a) (hv_route_id b))))).
Definition tcp_route_cmp (a b : TcpRouteView) : comparison :=
  then_with (N.compare (tv_listen_port a) (tv_listen_port b)) (str_cmp (tv_route_id a) (tv_route_id b)).

Section project.
Context `{SpecCodec}.

(** One release of the loop in [project]. *)
Definition project_release (revisions : gmap (string * string * string) ServiceRevisionRecord)
    (instances : gmap string InstanceStatusRecord) (r : ServiceReleaseRecord)
    : result ProjectionError (list (HttpRouteView + TcpRouteView)) :=
  let hash := routing_revision_hash (rel_release r) in
  match revisions !! (rel_namespace r, rel_service r, hash) with
  | None => Err (MissingRevision (rel_namespace r) (rel_service r) hash)
  | Some revision =>
      spec <-? map_err (InvalidRevisionSpec (srv_namespace revision) (srv_service revision))
                 (spec_from_json (srv_spec_json revision)) ;;
      let backends := routable_backends_by_port spec (rel_namespace r) (rel_service r)
                        (allowed_revision_hashes (rel_release r)) (sr_slots (rel_release r)) instances in
      Ok (imap (project_route revision spec backends) (ss_routes spec))
  end.

Definition project (state : RoutingState) : result ProjectionError GatewaySnapshot :=
  let revisions := index_by revision_key (rs_revisions state) in
  let instances := index_by is_instance_id (rs_instances state) in
  routes <-? try_fold (fun routes r =>
               new <-? project_release revisions instances r ;; Ok (routes ++ new)) [] (rs_releases state) ;;
  let http := omap get_http routes in
  let tcp := omap get_tcp routes in
  _ <-? validate_http_conflicts http ;;
  _ <-? validate_tcp_conflicts tcp ;;
  Ok {| http_routes := sort_by http_route_cmp http; tcp_routes := sort_by tcp_route_cmp tcp |}.
End project.

(** ** Conflict checks *)

Definition http_keys (r : HttpRouteView) : list (string * string) :=
  (fun h => (h, hv_path_prefix r)) <$> route_hosts r.

Lemma validate_http_host_ok route hosts seen seen' :
  try_fold (validate_http_host route) seen hosts = Ok seen' ->
  let ks := (fun h => (h, hv_path_prefix route)) <$> hosts in
  NoDup ks /\ (forall k, k ∈ ks -> k ∉ dom seen) /\ dom seen' = dom seen ∪ list_to_set ks.
Proof.
  revert seen. induction hosts as [|h hosts IH]; intros seen; simpl.
  { intros [= <-]. split_and!; [constructor|set_solver|set_solver]. }
  unfold validate_http_host at 1. destruct (seen !! _) eqn:Hs; [done|]. simpl.
  intros (Hnd & Hdis & Hdom)%IH. apply not_elem_of_dom in Hs. rewrite dom_insert_L in Hdis, Hdom.
  csimpl. split_and!; [|set_solver|set_solver].
  constructor; [|done]. intros Hin. apply Hdis in Hin. set_solver.
Qed.

Lemma validate_http_host_total route hosts seen :
  let ks := (fun h => (h, hv_path_prefix route)) <$> hosts in
  NoDup ks -> (forall k, k ∈ ks -> k ∉ dom seen) -> exists seen', try_fold (validate_http_host route) seen hosts = Ok seen'.
Proof.
  revert seen. induction hosts as [|h hosts IH]; intros seen; csimpl; [eauto|].
  intros [Hh Hnd]%NoDup_cons Hdis. unfold validate_http_host at 1.
  assert (seen !! (h, hv_path_prefix route) = None) as ->.
  { apply not_elem_of_dom, Hdis. left. }
  simpl. apply IH; [done|]. intros k Hk. rewrite dom_insert_L. intros [->%elem_of_singleton|Hd]%elem_of_union; [done|].
  eapply Hdis; [right; exact Hk|done].
Qed.

Lemma validate_http_fold_ok routes seen seen' :
  try_fold (fun seen route => try_fold (validate_http_host route) seen (route_hosts route)) seen routes = Ok seen' ->
  NoDup (routes ≫= http_keys) /\ (forall k, k ∈ routes ≫= http_keys -> k ∉ dom seen).
Proof.
  revert seen. induction routes as [|r routes IH]; intros seen; csimpl.
  { intros _. split; [constructor|set_solver]. }
  rewrite rbind_Ok. intros (s1 & (Hnd & Hdis & Hdom)%validate_http_host_ok & (Hnd2 & Hdis2)%IH).
  fold (http_keys r) in *. rewrite Hdom in Hdis2. split.
  - apply NoDup_app. split_and!; [done| |done]. intros k Hk Hk2. apply (Hdis2 k Hk2). set_solver.
  - intros k [Hk|Hk]%elem_of_app; [by apply Hdis|]. intros Hd. apply (Hdis2 k Hk). set_solver.
Qed.

Lemma validate_http_fold_total routes seen :
  NoDup (routes ≫= http_keys) -> (forall k, k ∈ routes ≫= http_keys -> k ∉ dom seen) ->
  exists seen', try_fold (fun seen route => try_fold (validate_http_host route) seen (route_hosts route)) seen routes = Ok seen'.
Proof.
  revert seen. induction routes as [|r routes IH]; intros seen; csimpl; [eauto|].
  intros (Hr & Hdis & Hrs)%NoDup_app Hseen.
  destruct (validate_http_host_total r (route_hosts r) seen) as [s1 Hs1]; [done| |].
  { intros k Hk. apply Hseen. apply elem_of_app. by left. }
  rewrite Hs1. simpl. apply validate_http_host_ok in Hs1 as (_ & _ & Hdom). apply IH; [done|].
  intros k Hk. rewrite Hdom. intros [Hd|Hd]%elem_of_union.
  - eapply Hseen; [|exact Hd]. apply elem_of_app. by right.
  - apply elem_of_list_to_set in Hd. by eapply Hdis.
Qed.

(** No two routes claim the same host and path prefix. *)
Lemma validate_http_conflicts_ok routes :
  validate_http_conflicts routes = Ok tt <-> NoDup (routes ≫= http_keys).
Proof.
  unfold validate_http_conflicts. rewrite rbind_Ok. split.
  - intros (seen & Hf & _). by apply validate_http_fold_ok in Hf as [? _].
  - intros Hnd. destruct (validate_http_fold_total routes ∅ Hnd) as [seen Hs]; [|eauto].
    intros k _. by rewrite dom_empty_L.
Qed.

Lemma validate_tcp_conflicts_ok routes :
  validate_tcp_conflicts routes = Ok tt <-> NoDup (tv_listen_port <$> routes).
Proof.
  unfold validate_tcp_conflicts. rewrite rbind_Ok.
  set (body := fun (seen : gmap N string) route => _).
  assert (forall l seen, (exists seen', try_fold body seen l = Ok seen') <->
    NoDup (tv_listen_port <$> l) /\ forall p, p ∈ tv_listen_port <$> l -> p ∉ dom seen) as Hf.
  { induction l as [|r l IH]; intros seen; csimpl.
    - split; [intros _; split; [constructor|set_solver]|eauto].
    - unfold body at 1. rewrite NoDup_cons. destruct (seen !! tv_listen_port r) as [x|] eqn:Hs; simpl.
      + apply elem_of_dom_2 in Hs. split; [by intros [? ?]|]. intros [_ Hp]. exfalso.
        apply (Hp (tv_listen_port r)); [left|done].
      + apply not_elem_of_dom in Hs. rewrite IH, dom_insert_L. set_solver. }
  specialize (Hf routes ∅). rewrite dom_empty_L in Hf. split.
  - intros (seen & Hs & _). by apply Hf; eauto.
  - intros Hnd. destruct (proj2 Hf) as [seen Hs]; [|eauto]. split; [done|]. set_solver.
Qed.

(** ** Matching *)

#[export] Instance http_route_cmp_total : TotalCmp http_route_cmp.
Proof.
  unfold http_route_cmp. apply then_with_total; [apply _|]. apply then_with_total; [|apply _].
  apply (cmp_flip_total (fun a b => Nat.compare (len (hv_path_prefix a)) (len (hv_path_prefix b)))). apply _.
Qed.

#[export] Instance tcp_route_cmp_total : TotalCmp tcp_route_cmp.
Proof. unfold tcp_route_cmp. apply _. Qed.

#[export] Instance address_cmp_total : TotalCmp address_cmp.
Proof.
  unfold address_cmp. apply then_with_total; [apply (cmp_on_total fst)|apply (cmp_on_total snd)]; apply _.
Qed.

#[export] Instance backend_cmp_total : TotalCmp backend_cmp.
Proof. unfold backend_cmp. apply _. Qed.

(** A route that wins over another: a named host beats the wildcard, then the
    longer prefix wins. *)
Definition preferred (r r' : HttpRouteView) : Prop :=
  hv_hostnames r <> [] /\ hv_hostnames r' = [] \/
  (hv_hostnames r = [] <-> hv_hostnames r' = []) /\ len (hv_path_prefix r') < len (hv_path_prefix r).

Lemma http_route_cmp_le r r' :
  cmp_le http_route_cmp r r' ->
  preferred r r' \/
  (hostnames_empty r = hostnames_empty r' /\ len (hv_path_prefix r') = len (hv_path_prefix r)).
Proof.
  unfold cmp_le, http_route_cmp, then_with, preferred, hostnames_empty.
  destruct (hv_hostnames r), (hv_hostnames r'); simpl; try naive_solver.
  all: destruct (Nat.compare_spec (len (hv_path_prefix r')) (len (hv_path_prefix r)));
    intros; try done; auto; left; right; split; try done; lia.
Qed.

Lemma append_inj_len p1 p2 a b : p1 +:+ a = p2 +:+ b -> len p1 = len p2 -> p1 = p2.
Proof.
  revert p2. induction p1 as [|c p1 IH]; intros [|d p2]; simpl; try done.
  intros [= -> Hs] [= Hl]. f_equal. by eapply IH.
Qed.

Lemma bind_NoDup_lookup {A B} (f : A -> list B) (l : list A) i j a b x :
  NoDup (l ≫= f) -> l !! i = Some a -> l !! j = Some b -> x ∈ f a -> x ∈ f b -> i = j.
Proof.
  revert i j. induction l as [|y l IH]; intros i j; csimpl; [done|].
  intros (Hy & Hdis & Hl)%NoDup_app Hi Hj Ha Hb.
  assert (forall k c, l !! k = Some c -> x ∈ f c -> x ∈ l ≫= f) as Hin.
  { intros k c Hk Hc. apply list_elem_of_bind. exists c. split; [done|]. by eapply list_elem_of_lookup_2. }
  destruct i as [|i], j as [|j]; simpl in *; simplify_eq; [done| | |f_equal; eauto].
  - exfalso. by eapply (Hdis x); eauto.
  - exfalso. by eapply (Hdis x); eauto.
Qed.

Lemma route_matches_spec host path r :
  route_matches host path r = true <->
  (hv_hostnames r = [] \/ exists h, host = Some h /\ h ∈ hv_hostnames r) /\
  exists rest, path = hv_path_prefix r +:+ rest.
Proof.
  unfold route_matches, route_matches_host. rewrite andb_true_iff, starts_with_spec.
  apply and_iff_compat_r. destruct (hv_hostnames r) as [|h0 hs]; [naive_solver|].
  destruct host as [h|]; [|naive_solver]. rewrite existsb_exists. setoid_rewrite bool_decide_eq_true.
  setoid_rewrite <- list_elem_of_In. naive_solver.
Qed.

(** Routes that match the same request with the same rank are the same. *)
Lemma same_rank_eq routes host path r r' :
  NoDup (routes ≫= http_keys) -> r ∈ routes -> r' ∈ routes ->
  route_matches host path r = true -> route_matches host path r' = true ->
  hostnames_empty r = hostnames_empty r' -> len (hv_path_prefix r') = len (hv_path_prefix r) -> r = r'.
Proof.
  intros Hnd (i & Hi)%list_elem_of_lookup (j & Hj)%list_elem_of_lookup
    [Hh [rest Hp]]%route_matches_spec [Hh' [rest' Hp']]%route_matches_spec He Hl.
  assert (hv_path_prefix r = hv_path_prefix r') as Hpp by (apply (append_inj_len _ _ rest rest'); congruence).
  assert (exists x, x ∈ http_keys r /\ x ∈ http_keys r') as (x & Hx & Hx').
  { unfold http_keys, route_hosts, hostnames_empty in *. rewrite Hpp.
    destruct (hv_hostnames r) as [|h1 hs1], (hv_hostnames r') as [|h2 hs2]; try done.
    - exists ("*", hv_path_prefix r'). split; left.
    - destruct Hh as [?|(h & -> & Hh)]; [done|]. destruct Hh' as [?|(h' & [= <-] & Hh')]; [done|].
      exists (h, hv_path_prefix r'). split; by apply (list_elem_of_fmap_2 (fun h => (h, hv_path_prefix r'))). }
  assert (i = j) as ->; [|congruence]. by eapply (bind_NoDup_lookup http_keys routes i j r r' x).
Qed.

Section routing.
Context `{SpecCodec}.

(** The views of all releases, in order. *)
Definition project_releases (state : RoutingState) : result ProjectionError (list (HttpRouteView + TcpRouteView)) :=
  try_fold (fun routes r =>
    new <-? project_release (index_by revision_key (rs_revisions state))
              (index_by is_instance_id (rs_instances state)) r ;;
    Ok (routes ++ new)) [] (rs_releases state).

Lemma project_ok state snap :
  project state = Ok snap <->
  exists routes, project_releases state = Ok routes /\
    NoDup (omap get_http routes ≫= http_keys) /\ NoDup (tv_listen_port <$> omap get_tcp routes) /\
    snap = {| http_routes := sort_by http_route_cmp (omap get_http routes);
              tcp_routes := sort_by tcp_route_cmp (omap get_tcp routes) |}.
Proof.
  unfold project. fold (project_releases state). rewrite rbind_Ok.
  setoid_rewrite <- validate_http_conflicts_ok. setoid_rewrite <- validate_tcp_conflicts_ok. split.
  - intros (routes & Hr & Hrest). exists routes. apply rbind_Ok in Hrest as ([] & H1 & Hrest).
    apply rbind_Ok in Hrest as ([] & H2 & [= <-]). done.
  - intros (routes & Hr & H1 & H2 & ->). exists routes. by rewrite Hr, H1, H2.
Qed.

Lemma snapshot_keys_NoDup state snap : project state = Ok snap -> NoDup (http_routes snap ≫= http_keys).
Proof. intros (routes & _ & Hnd & _ & ->)%project_ok. simpl. by rewrite sort_by_perm. Qed.

Lemma list_find_sorted {A} (cmp : A -> A -> comparison) `{!TotalCmp cmp} (P : A -> Prop)
    `{!forall x, Decision (P x)} l i x y :
  StronglySorted (cmp_le cmp) l -> list_find P l = Some (i, x) -> y ∈ l -> P y -> y = x \/ cmp_le cmp x y.
Proof.
  intros Hs (Hi & Hx & Hbefore)%list_find_Some (j & Hj)%list_elem_of_lookup Hy.
  destruct (decide (j < i)) as [Hlt|Hge]; [exfalso; by eapply Hbefore|].
  destruct (decide (j = i)) as [->|Hne]; [left; congruence|]. right.
  clear Hbefore. revert i j Hi Hj Hge Hne. induction Hs as [|z l Hs IH Hz]; intros i j Hi Hj Hge Hne; [done|].
  destruct i as [|i], j as [|j]; simpl in *; try lia.
  - simplify_eq. rewrite Forall_forall in Hz. eapply Hz, list_elem_of_lookup_2, Hj.
  - eapply IH; eauto; lia.
Qed.

(** C8: The gateway picks the right route.  For a snapshot that the
    projection accepted and any request, [match_http_route] returns a route
    whose host and path prefix match, and every other matching route is less
    specific: it is the wildcard where the returned one names the host, or it
    has a shorter path prefix.  So the choice is unique and does not depend on
    the order of the routes; and it returns nothing only if no route matches. *)
Theorem match_http_route_best (state : RoutingState) (snap : GatewaySnapshot) (host : option string) (path : string) :
  project state = Ok snap ->
  let matches := route_matches (request_host host) (normalize_path_prefix path) in
  match match_http_route snap host path with
  | Some r => r ∈ http_routes snap /\ matches r = true /\
              forall r', r' ∈ http_routes snap -> matches r' = true -> r' = r \/ preferred r r'
  | None => forall r', r' ∈ http_routes snap -> matches r' = false
  end.
Proof.
  intros Hp matches. pose proof (snapshot_keys_NoDup _ _ Hp) as Hnd.
  assert (StronglySorted (cmp_le http_route_cmp) (http_routes snap)) as Hs.
  { apply project_ok in Hp as (routes & _ & _ & _ & ->). apply sort_by_sorted, _. }
  unfold match_http_route. fold matches.
  destruct (list_find (fun route => matches route = true) (http_routes snap)) as [[i r]|] eqn:E; simpl.
  - pose proof E as (Hi & Hm & _)%list_find_Some. apply list_elem_of_lookup_2 in Hi. split_and!; try done.
    intros r' Hr' Hm'. destruct (list_find_sorted _ _ _ _ _ r' Hs E Hr' Hm') as [->|Hle]; [by left|].
    apply http_route_cmp_le in Hle as [?|[He Hl]]; [by right|]. left. symmetry.
    by eapply (same_rank_eq (http_routes snap)).
  - apply list_find_None in E. rewrite Forall_forall in E. intros r' Hr'.
    apply not_true_is_false. by apply E.
Qed.
End routing.

(** ** Backends *)

Definition backend_of (inst : InstanceStatusRecord) (ip : Ipv4Addr) (port_name : string) (port : N) : BackendView := {|
  bv_instance_id := is_instance_id inst; bv_machine_id := is_machine_id inst;
  bv_service_port := port_name; bv_address := (ip, port) |}.

Lemma push_backends_elem inst ip ports m p b :
  b ∈ default [] (foldl (push_backend inst ip) m ports !! p) <->
  b ∈ default [] (m !! p) \/
  p ∈ ports /\ exists n, is_backend_ports inst !! p = Some n /\ b = backend_of inst ip p n.
Proof.
  induction ports as [|q ports IH] using rev_ind; simpl; [set_solver|].
  rewrite foldl_app. simpl. unfold push_backend at 1.
  destruct (is_backend_ports inst !! q) as [n|] eqn:Hq.
  - destruct (decide (p = q)) as [->|Hne].
    + rewrite lookup_insert_eq. simpl. rewrite elem_of_app, IH, list_elem_of_singleton.
      fold (backend_of inst ip q n). set_solver.
    + rewrite lookup_insert_ne by done. rewrite IH. set_solver.
  - rewrite IH. set_solver.
Qed.

(** The backend a slot gives a port, if its instance may be routed to. *)
Definition slot_backend (namespace : Namespace) (service : string) (allowed : gset string)
    (instances : gmap string InstanceStatusRecord) (p : string) (slot : ServiceReleaseSlot) (b : BackendView) : Prop :=
  exists inst ip n, instances !! sl_active_instance_id slot = Some inst /\
    is_routable_instance inst slot namespace service allowed = true /\
    is_overlay_ip inst = Some ip /\ is_backend_ports inst !! p = Some n /\ b = backend_of inst ip p n.

Lemma routable_backends_elem spec ns service allowed slots instances p b :
  b ∈ default [] (routable_backends_by_port spec ns service allowed slots instances !! p) <->
  p ∈ port_name <$> ss_service_ports spec /\
  exists slot, slot ∈ slots /\ slot_backend ns service allowed instances p slot b.
Proof.
  unfold routable_backends_by_port.
  set (ports := elements (list_to_set (port_name <$> ss_service_ports spec) : gset string)).
  assert (p ∈ ports <-> p ∈ port_name <$> ss_service_ports spec) as Hports.
  { unfold ports. by rewrite elem_of_elements, elem_of_list_to_set. }
  rewrite lookup_fmap. set (m := foldl _ ∅ slots).
  assert (b ∈ default [] (sort_by backend_cmp <$> m !! p) <-> b ∈ default [] (m !! p)) as ->.
  { destruct (m !! p); simpl; [apply elem_of_sort_by|done]. }
  unfold m. clear m. rewrite <- Hports. clear Hports.
  induction slots as [|slot slots IH] using rev_ind; simpl.
  { rewrite lookup_empty. simpl. set_solver. }
  rewrite foldl_app. simpl. unfold add_slot at 1.
  assert ((exists s, s ∈ slots ++ [slot] /\ slot_backend ns service allowed instances p s b) <->
    (exists s, s ∈ slots /\ slot_backend ns service allowed instances p s b) \/
    slot_backend ns service allowed instances p slot b) as ->.
  { setoid_rewrite elem_of_app. setoid_rewrite list_elem_of_singleton. naive_solver. }
  unfold slot_backend at 2.
  destruct (instances !! sl_active_instance_id slot) as [inst|].
  2:{ rewrite IH. split; [tauto|]. by intros [? [?|(? & ? & ? & ? & _)]]. }
  destruct (is_routable_instance inst slot ns service allowed) eqn:Hr.
  2:{ rewrite IH. split; [tauto|]. intros [? [?|(? & ? & ? & [= <-] & Hc & _)]]; [tauto|congruence]. }
  destruct (is_overlay_ip inst) as [ip|] eqn:Hip.
  2:{ rewrite IH. split; [tauto|]. intros [? [?|(? & ? & ? & [= <-] & _ & Hc & _)]]; [tauto|congruence]. }
  rewrite push_backends_elem, IH. split.
  - intros [[? ?]|(Hp & n & Hn & ->)]; [tauto|]. split; [done|]. right. exists inst, ip, n. done.
  - intros [Hp [?|(i & ip' & n & [= <-] & _ & Hip' & Hn & ->)]]; [tauto|]. right. split; [done|].
    exists n. split; [done|congruence].
Qed.

Lemma is_routable_spec inst slot ns service allowed :
  is_routable_instance inst slot ns service allowed = true <->
  is_namespace inst = ns /\ is_service inst = service /\ is_slot_id inst = sl_slot_id slot /\
  is_machine_id inst = sl_machine_id slot /\ is_revision_hash inst = sl_revision_hash slot /\
  is_revision_hash inst ∈ allowed /\ is_ready inst = true /\ is_phase inst = IpReady /\
  is_drain_state inst = DsNone /\ is_error inst = None.
Proof. unfold is_routable_instance. rewrite !andb_true_iff, !bool_decide_eq_true. tauto. Qed.

Section published.
Context `{SpecCodec}.

Lemma project_releases_elem state routes v :
  project_releases state = Ok routes ->
  v ∈ routes <-> exists rel views, rel ∈ rs_releases state /\
    project_release (index_by revision_key (rs_revisions state))
      (index_by is_instance_id (rs_instances state)) rel = Ok views /\ v ∈ views.
Proof.
  intros Hr. apply (try_fold_ind (fun dn acc => v ∈ acc <-> exists rel views, rel ∈ dn /\
    project_release (index_by revision_key (rs_revisions state))
      (index_by is_instance_id (rs_instances state)) rel = Ok views /\ v ∈ views)) in Hr; [done|set_solver|].
  intros dn rel acc acc' Hacc (views & Hv & [= <-])%rbind_Ok.
  rewrite elem_of_app, Hacc. setoid_rewrite elem_of_app. setoid_rewrite list_elem_of_singleton.
  split.
  - intros [(rel' & views' & ? & ? & ?)|Hin]; [exists rel', views'; auto|exists rel, views; auto].
  - intros (rel' & views' & [Hin| ->] & Hp & Hv'); [left; eauto|right; congruence].
Qed.

(** A published HTTP route comes from an HTTP route of a release's spec. *)
Definition published (state : RoutingState) (rel : ServiceReleaseRecord) (hr : HttpRoute) (r : HttpRouteView) : Prop :=
  exists revision spec,
    index_by revision_key (rs_revisions state) !!
      (rel_namespace rel, rel_service rel, routing_revision_hash (rel_release rel)) = Some revision /\
    spec_from_json (srv_spec_json revision) = Ok spec /\ RouteHttp hr ∈ ss_routes spec /\
    hv_service r = ss_name spec /\ hv_hostnames r = normalize_hostnames (hr_hostnames hr) /\
    hv_path_prefix r = normalize_path_prefix (hr_path_prefix hr) /\
    forall b, b ∈ hv_backends r <->
      hr_service_port hr ∈ port_name <$> ss_service_ports spec /\
      exists slot, slot ∈ sr_slots (rel_release rel) /\
        slot_backend (rel_namespace rel) (rel_service rel) (allowed_revision_hashes (rel_release rel))
          (index_by is_instance_id (rs_instances state)) (hr_service_port hr) slot b.

Lemma project_release_http state rel views r :
  project_release (index_by revision_key (rs_revisions state))
    (index_by is_instance_id (rs_instances state)) rel = Ok views ->
  inl r ∈ views -> exists hr, published state rel hr r.
Proof.
  unfold project_release. destruct (_ !! _) as [revision|] eqn:Hrev; [|done].
  rewrite rbind_Ok. intros (spec & Hspec & [= <-]) (i & Hi)%list_elem_of_lookup.
  rewrite list_lookup_imap in Hi. destruct (ss_routes spec !! i) as [route|] eqn:Hroute; [|done].
  destruct route as [hr|tr]; simpl in Hi; [|done]. injection Hi as <-. exists hr, revision, spec.
  destruct (spec_from_json _) as [spec'|]; [|done]. injection Hspec as ->. simpl.
  split_and!; try done; [by eapply list_elem_of_lookup_2|].
  intros b. apply routable_backends_elem.
Qed.

End published.

(** ** The projection does not depend on the order of the tables *)

Lemma route_id_inj kind ns service i j : route_id kind ns service i = route_id kind ns service j -> i = j.
Proof.
  unfold route_id. intros E. repeat apply (inj (String.append _)) in E. apply (inj dec) in E. lia.
Qed.

Section order.
Context `{SpecCodec}.

(** The tables have distinct keys, as a store keeps them, and a revision's
    spec carries the service's name. *)
Record tables_wf (state : RoutingState) : Prop := {
  tw_revisions : NoDup (revision_key <$> rs_revisions state);
  tw_instances : NoDup (is_instance_id <$> rs_instances state);
  tw_releases : NoDup (release_key <$> rs_releases state);
  tw_names : forall revision spec, revision ∈ rs_revisions state ->
    spec_from_json (srv_spec_json revision) = Ok spec -> ss_name spec = srv_service revision
}.

Lemma project_releases_collect state routes :
  project_releases state = Ok routes <->
  let f := project_release (index_by revision_key (rs_revisions state))
             (index_by is_instance_id (rs_instances state)) in
  (forall r, r ∈ rs_releases state -> is_ok (f r) = true) /\
  routes = rs_releases state ≫= fun r => ok_list (f r).
Proof. apply (try_fold_collect _ _ []). Qed.

(** A view names the release it comes from. *)
Lemma project_release_names state rel views i r :
  tables_wf state ->
  project_release (index_by revision_key (rs_revisions state))
    (index_by is_instance_id (rs_instances state)) rel = Ok views ->
  views !! i = Some (inl r) ->
  hv_namespace r = rel_namespace rel /\ hv_service r = rel_service rel /\
  hv_route_id r = route_id "http" (rel_namespace rel) (rel_service rel) i.
Proof.
  intros Hw. unfold project_release. destruct (_ !! _) as [revision|] eqn:Hrev; [|done].
  apply index_by_Some in Hrev as [Hin Hkey].
  assert (srv_namespace revision = rel_namespace rel /\ srv_service revision = rel_service rel) as [Hns Hsv]
    by (by injection Hkey).
  rewrite rbind_Ok. intros (spec & Hspec & [= <-]) Hi.
  destruct (spec_from_json _) as [spec'|] eqn:Ej; [|done]. injection Hspec as ->.
  pose proof (tw_names _ Hw _ _ Hin Ej) as Hname.
  rewrite list_lookup_imap in Hi. destruct (ss_routes spec !! i) as [[hr|tr]|]; simpl in Hi; [|done..].
  injection Hi as <-. simpl. rewrite Hname, Hns, Hsv. done.
Qed.

(** Routes the sort cannot tell apart are equal. *)
Lemma http_routes_distinct state routes r r' :
  tables_wf state -> project_releases state = Ok routes ->
  r ∈ omap get_http routes -> r' ∈ omap get_http routes -> http_route_cmp r r' = Eq -> r = r'.
Proof.
  intros Hw Hr Hin Hin' Hcmp.
  assert (forall x, x ∈ omap get_http routes -> exists rel views i, rel ∈ rs_releases state /\
    project_release (index_by revision_key (rs_revisions state))
      (index_by is_instance_id (rs_instances state)) rel = Ok views /\ views !! i = Some (inl x)) as Hsrc.
  { intros x (v & Hv & Hg)%list_elem_of_omap. destruct v as [x'|]; [|done]. injection Hg as ->.
    apply (project_releases_elem state routes) in Hv as (rel & views & ? & ? & (i & Hi)%list_elem_of_lookup);
      [|done]. eauto 10. }
  destruct (Hsrc r Hin) as (rel & views & i & Hrel & Hv & Hi).
  destruct (Hsrc r' Hin') as (rel' & views' & i' & Hrel' & Hv' & Hi').
  destruct (project_release_names _ _ _ _ _ Hw Hv Hi) as (Hns & Hsv & Hid).
  destruct (project_release_names _ _ _ _ _ Hw Hv' Hi') as (Hns' & Hsv' & Hid').
  assert (hv_namespace r = hv_namespace r' /\ hv_service r = hv_service r' /\ hv_route_id r = hv_route_id r')
    as (E1 & E2 & E3).
  { unfold http_route_cmp, then_with in Hcmp. rewrite <- !str_cmp_eq.
    repeat case_match; done. }
  assert (release_key rel = release_key rel') as Hkey by (unfold release_key; congruence).
  assert (rel = rel') as <-.
  { pose proof (index_by_NoDup release_key _ (release_key rel) rel (tw_releases _ Hw)) as H1.
    pose proof (index_by_NoDup release_key _ (release_key rel) rel' (tw_releases _ Hw)) as H2.
    assert (index_by release_key (rs_releases state) !! release_key rel = Some rel) by (by apply H1).
    assert (index_by release_key (rs_releases state) !! release_key rel = Some rel') by (by apply H2).
    congruence. }
  assert (i = i') as <- by (rewrite Hid, Hid' in E3; by apply route_id_inj in E3). congruence.
Qed.

(** The snapshot does not depend on the order in which the store returns
    its rows.  For tables with distinct keys whose specs carry the service
    name, permuting the revisions, releases and instances leaves an accepted
    snapshot exactly the same, routes and backends in the same order. *)
Theorem project_order_independent (state state' : RoutingState) (snap : GatewaySnapshot) :
  tables_wf state ->
  rs_revisions state ≡ₚ rs_revisions state' -> rs_releases state ≡ₚ rs_releases state' ->
  rs_instances state ≡ₚ rs_instances state' ->
  project state = Ok snap -> project state' = Ok snap.
Proof.
  intros Hw Hrev Hrel Hinst (routes & Hr & Hh & Ht & ->)%project_ok. apply project_ok.
  pose proof Hr as Hr0. apply project_releases_collect in Hr as [Hall Hroutes].
  rewrite (index_by_perm revision_key _ _ (tw_revisions _ Hw) Hrev),
    (index_by_perm is_instance_id _ _ (tw_instances _ Hw) Hinst) in Hall, Hroutes.
  set (f := project_release _ _) in Hall, Hroutes.
  exists (rs_releases state' ≫= fun r => ok_list (f r)).
  assert (routes ≡ₚ (rs_releases state' ≫= fun r => ok_list (f r))) as Hperm.
  { rewrite Hroutes. by apply bind_Permutation. }
  split_and!.
  - apply project_releases_collect. split; [|done]. intros r Hin. apply Hall. by rewrite Hrel.
  - by rewrite <- Hperm.
  - by rewrite <- Hperm.
  - f_equal.
    + apply sort_by_unique; [apply _| |by rewrite Hperm].
      intros x y Hx Hy. by apply (http_routes_distinct state routes).
    + apply sort_by_unique; [apply _| |by rewrite Hperm].
      intros x y (i & Hi)%list_elem_of_lookup (j & Hj)%list_elem_of_lookup Hcmp.
      assert (tv_listen_port x = tv_listen_port y) as Hp.
      { unfold tcp_route_cmp, then_with in Hcmp.
        destruct (N.compare_spec (tv_listen_port x) (tv_listen_port y)); [done|done|done]. }
      assert (i = j) as ->; [|congruence].
      eapply NoDup_lookup; [exact Ht|by rewrite list_lookup_fmap, Hi|by rewrite list_lookup_fmap, Hj, Hp].
Qed.
End order.

(** ** Hosts with a port *)

(** A host name: a non-empty text of plain bytes without [:] and [[], not
    ending in a dot. *)
Definition plain_host (h : string) : bool :=
  negb (is_empty h) && all_chars plain h && negb (contains_char ":" h) && negb (contains_char "[" h) &&
  match rev_str h with String "." _ => false | _ => true end.

(** What normalisation does to a text that is plain, does not end in a dot and
    does not start with a bracket. *)
Lemma normalize_plain s :
  s <> "" -> all_chars plain s = true -> match rev_str s with String d _ => "."%char <> d | "" => True end ->
  match s with String d _ => "["%char <> d | "" => True end ->
  normalize_request_host s =
  match rsplit_once ":" s with
  | Some (h, p) => if all_chars is_ascii_digit p then to_ascii_lowercase h else to_ascii_lowercase s
  | None => to_ascii_lowercase s
  end.
Proof.
  intros Hne Hpl Hdot Hbr. unfold normalize_request_host. rewrite trim_plain_all by done.
  unfold trim_end_matches. rewrite drop_char_head by done. rewrite rev_str_involutive.
  destruct s as [|c s]; [done|]. 
  assert (strip_prefix "[" (String c s) = None) as ->; [|done].
  destruct (strip_prefix "[" (String c s)) as [r|] eqn:Hs; [|done].
  apply strip_prefix_Some in Hs. change ("[" +:+ r) with (String "[" r) in Hs. injection Hs as Hc _. by subst c.
Qed.

Lemma plain_host_spec h :
  plain_host h = true ->
  h <> "" /\ all_chars plain h = true /\ contains_char ":" h = false /\ contains_char "[" h = false /\
  match rev_str h with String d _ => "."%char <> d | "" => True end.
Proof.
  unfold plain_host. intros Hp. to_prop. split_and!; try done.
  - by destruct h.
  - destruct (rev_str h) as [|d r]; [done|]. by intros <-.
Qed.

Lemma head_no_bracket s : contains_char "[" s = false -> match s with String d _ => "["%char <> d | "" => True end.
Proof. destruct s as [|d s]; simpl; [done|]. destruct (ascii_dec "[" d); naive_solver. Qed.

(** A [Host] header with a port names the same host as one without.  For a
    host name (plain characters, no colon or bracket, no trailing dot) and any
    port, normalising [name:port] gives the lower-cased name, as normalising the
    name alone does; so both requests match the same routes. *)
Theorem normalize_host_port (h : string) (port : N) :
  plain_host h = true ->
  normalize_request_host (h +:+ ":" +:+ dec port) = to_ascii_lowercase h /\
  normalize_request_host h = to_ascii_lowercase h.
Proof.
  intros (Hne & Hpl & Hcol & Hbr & Hdot)%plain_host_spec. split.
  - assert (rev_str (h +:+ ":" +:+ dec port) = rev_str (dec port) +:+ String ":" (rev_str h)) as Hrev.
    { rewrite !rev_str_app. rewrite append_assoc. done. }
    destruct (rev_dec_head port) as (d & r & Hd & Hdig).
    rewrite normalize_plain.
    + unfold rsplit_once. rewrite Hrev, split_once_app, !rev_str_involutive by
        (by rewrite contains_char_rev, digits_no_colon by apply dec_digits).
      by rewrite dec_digits.
    + by destruct h.
    + rewrite !all_chars_app, Hpl. simpl. eapply all_chars_impl; [apply digit_plain|apply dec_digits].
    + rewrite Hrev, Hd. change (String d r +:+ String ":" (rev_str h)) with (String d (r +:+ String ":" (rev_str h))).
      simpl. by intros <-.
    + destruct h as [|c h]; [done|]. change (String c h +:+ ":" +:+ dec port) with (String c (h +:+ ":" +:+ dec port)).
      by apply head_no_bracket in Hbr.
  - rewrite normalize_plain by (done || by apply head_no_bracket).
    unfold rsplit_once. by rewrite split_once_none by (by rewrite contains_char_rev).
Qed.

(** A trailing dot survives in front of a port.  [example.com.] and
    [example.com:80] normalise to [example.com], but [example.com.:80] to
    [example.com.], which is not a normal form, and an IPv6 address without
    brackets loses its last group; such requests miss the host's routes. *)
Example normalize_host_dot_port :
  normalize_request_host "example.com." = "example.com" /\
  normalize_request_host "example.com:80" = "example.com" /\
  normalize_request_host "example.com.:80" = "example.com." /\
  normalize_request_host "fd00::1" = "fd00:" /\ normalize_request_host "[fd00::1]:80" = "fd00::1".
Proof. vm_compute. split_and!; reflexivity. Qed.

(** ** Serving requests *)

Inductive Method := GET | HEAD | OPTIONS | OtherMethod.
Definition is_retryable_method (m : Method) : bool :=
  match m with GET | HEAD | OPTIONS => true | OtherMethod => false end.

Inductive GatewayError := GwStore (e : Error) | GwProjection (e : ProjectionError).

Section serve.
(** Pingora's round-robin balancer: built from a list of addresses, and the
    address its [k]-th selection gives. *)
Context {LB : Type} (try_from_iter : list (Ipv4Addr * N) -> option LB)
  (select : LB -> nat -> option (Ipv4Addr * N)).

Record SnapshotState := {
  st_snapshot : GatewaySnapshot;
  st_load_balancers : gmap string LB;
  st_backend_lookup : gmap (Ipv4Addr * N) BackendView
}.

Definition build_route (acc : gmap string LB * gmap (Ipv4Addr * N) BackendView) (route : HttpRouteView)
    : gmap string LB * gmap (Ipv4Addr * N) BackendView :=
  match hv_backends route with
  | [] => acc
  | backends =>
      let lookup := insert_all bv_address acc.2 backends in
      match try_from_iter (bv_address <$> backends) with
      | None => (acc.1, lookup)
      | Some lb => (<[hv_route_id route := lb]> acc.1, lookup)
      end
  end.

Definition build (snapshot : GatewaySnapshot) : SnapshotState :=
  let '(lbs, lookup) := foldl build_route (∅, ∅) (http_routes snapshot) in
  {| st_snapshot := snapshot; st_load_balancers := lbs; st_backend_lookup := lookup |}.

Record RequestCtx := {
  ctx_route_id : option string; ctx_selected_addr : option (Ipv4Addr * N);
  ctx_upstream_host : option string; ctx_retry_allowed : bool
}.

(** [request_filter]: answer 404, or continue with a context. *)
Definition request_filter (state : SnapshotState) (method : Method) (host : option string) (path : string)
    : result N RequestCtx :=
  match match_http_route (st_snapshot state) host path with
  | None => Err 404%N
  | Some route => Ok {| ctx_route_id := Some (hv_route_id route); ctx_selected_addr := None; ctx_upstream_host := host;
                        ctx_retry_allowed := is_retryable_method method |}
  end.

Definition with_selected (addr : Ipv4Addr * N) (ctx : RequestCtx) : RequestCtx := {|
  ctx_route_id := ctx_route_id ctx; ctx_selected_addr := Some addr;
  ctx_upstream_host := ctx_upstream_host ctx; ctx_retry_allowed := ctx_retry_allowed ctx |}.

(** [upstream_peer], with the snapshot it loads: the context and the address
    to connect to, or a status. *)
Definition upstream_peer (state : SnapshotState) (ctx : RequestCtx) (k : nat)
    : result N (RequestCtx * (Ipv4Addr * N)) :=
  match ctx_route_id ctx with
  | None => Err 500%N
  | Some id =>
      match st_load_balancers state !! id with
      | None => Err 503%N
      | Some lb => match select lb k with
                   | None => Err 503%N
                   | Some addr => Ok (with_selected addr ctx, addr)
                   end
      end
  end.

(** A failed connection is retried only for idempotent methods. *)
Definition fail_to_connect_retry (ctx : RequestCtx) (e_retry : bool) : bool :=
  if negb (ctx_retry_allowed ctx) then e_retry else true.

(** One refresh of [run_sync_loop]: a failed load or projection keeps the
    snapshot. *)
Definition load_projected_snapshot `{SpecCodec} (loaded : Res RoutingState) : result GatewayError GatewaySnapshot :=
  state <-? map_err GwStore loaded ;; map_err GwProjection (project state).
Definition sync_refresh `{SpecCodec} (loaded : Res RoutingState) (shared : SnapshotState) : SnapshotState :=
  match load_projected_snapshot loaded with
  | Ok next => build next
  | Err _ => shared
  end.

Lemma build_route_lbs routes acc id :
  (foldl build_route acc routes).1 !! id =
  match last (filter (fun r => hv_route_id r = id /\ hv_backends r <> [] /\
                        try_from_iter (bv_address <$> hv_backends r) <> None) routes) with
  | Some r => try_from_iter (bv_address <$> hv_backends r)
  | None => acc.1 !! id
  end.
Proof.
  induction routes as [|r routes IH] using rev_ind; [done|].
  rewrite foldl_app, filter_app. simpl. rewrite filter_cons, filter_nil.
  unfold build_route at 1. destruct (hv_backends r) as [|b bs] eqn:Hb.
  { rewrite decide_False by naive_solver. by rewrite app_nil_r, IH. }
  destruct (try_from_iter (bv_address <$> b :: bs)) as [lb|] eqn:Hlb; simpl.
  - destruct (decide (hv_route_id r = id)) as [Hid|Hne].
    + rewrite decide_True by (rewrite ?Hb, ?Hlb; done). rewrite last_snoc, Hb, Hlb. subst id.
      apply lookup_insert_eq.
    + rewrite decide_False by naive_solver. rewrite lookup_insert_ne by done. by rewrite app_nil_r, IH.
  - rewrite decide_False by (rewrite ?Hb, ?Hlb; naive_solver). by rewrite app_nil_r, IH.
Qed.

Lemma match_http_route_elem snap host path r :
  match_http_route snap host path = Some r -> r ∈ http_routes snap.
Proof.
  by intros [? _]%list_find_elem.
Qed.

(** The balancer a route id selects is built from a route with that id. *)
Lemma build_lookup snap id lb :
  st_load_balancers (build snap) !! id = Some lb ->
  exists r, r ∈ http_routes snap /\ hv_route_id r = id /\ hv_backends r <> [] /\
    try_from_iter (bv_address <$> hv_backends r) = Some lb.
Proof.
  assert (st_load_balancers (build snap) = (foldl build_route (∅, ∅) (http_routes snap)).1) as ->
    by (unfold build; by destruct (foldl _ _ _)).
  rewrite build_route_lbs. destruct (last _) as [r|] eqn:Hl; simpl; [|by rewrite lookup_empty].
  apply last_Some_elem_of, list_elem_of_filter in Hl as [(? & ? & _) ?]. intros ?. by exists r.
Qed.

(** A request is served by a route with the id that matched it, also when
    the snapshot is replaced while the request is handled: [request_filter]
    and [upstream_peer] each load the shared snapshot, so they may see
    different ones.  A request that matches no route is answered 404.  When
    the balancer picks an address among those it was built from, the address
    chosen is recorded in the context and is that of a backend of a route of
    the later snapshot with the matched route's id; if route ids are distinct
    there and the matched route is unchanged, it is a backend of the matched
    route, and a matched route without backends is answered 503. *)
Theorem request_served_by_route (snap snap' : GatewaySnapshot) (method : Method) (host : option string)
    (path : string) (k : nat) :
  (forall addrs lb j a, try_from_iter addrs = Some lb -> select lb j = Some a -> a ∈ addrs) ->
  match request_filter (build snap) method host path with
  | Err status => status = 404%N /\ match_http_route snap host path = None
  | Ok ctx => exists r, match_http_route snap host path = Some r /\
      match upstream_peer (build snap') ctx k with
      | Ok (ctx', addr) => ctx_selected_addr ctx' = Some addr /\
          exists r' b, r' ∈ http_routes snap' /\ hv_route_id r' = hv_route_id r /\
            b ∈ hv_backends r' /\ bv_address b = addr /\
            (NoDup (hv_route_id <$> http_routes snap') -> r ∈ http_routes snap' -> r' = r)
      | Err status => status = 503%N
      end
  end.
Proof.
  intros Hlaw. unfold request_filter.
  assert (st_snapshot (build snap) = snap) as -> by (unfold build; by destruct (foldl _ _ _)).
  destruct (match_http_route snap host path) as [r|] eqn:Hm; [|done].
  exists r. split; [done|]. unfold upstream_peer. simpl.
  destruct (st_load_balancers (build snap') !! _) as [lb|] eqn:Hlb; [|done].
  apply build_lookup in Hlb as (r' & Hr' & Hid & _ & Hlb).
  destruct (select lb k) as [a|] eqn:Hsel; [|done]. split; [done|].
  pose proof (Hlaw _ _ _ _ Hlb Hsel) as (b & -> & Hb)%list_elem_of_fmap.
  exists r', b. split_and!; [done..|]. intros Hnd Hr. by apply (NoDup_fmap_elem hv_route_id (http_routes snap')).
Qed.
End serve.

(** ** Witnesses *)

Definition gw_spec (name host : string) : ServiceSpec := {|
  ss_name := name; ss_placement := Replicated 1;
  ss_template := {| cs_image := "nginx"; cs_command := None; cs_entrypoint := None; cs_env := ∅;
    cs_volumes := []; cs_cap_add := []; cs_cap_drop := []; cs_privileged := false; cs_user := None;
    cs_pull_policy := IfNotPresent;
    cs_resources := {| res_cpu_millicores := None; res_memory_bytes := None |}; cs_sysctls := ∅ |};
  ss_network := NmOverlay;
  ss_service_ports := [{| port_name := "http"; port_container_port := 80; port_protocol := Tcp |}];
  ss_publish := [];
  ss_routes := [RouteHttp {| hr_service_port := "http"; hr_hostnames := [host]; hr_path_prefix := "/" |}];
  ss_readiness := None; ss_rollout := Recreate; ss_labels := ∅; ss_stop_grace_period := None;
  ss_restart := UnlessStopped |}.

(** JSON texts are spelled ["name host"]. *)
Definition gw_codec : SpecCodec := {|
  spec_to_json s := Ok (ss_name s);
  spec_from_json j := match split_once " " j with Some (n, h) => Ok (gw_spec n h) | None => Err "bad json" end |}.

Definition gw_revision (ns service host : string) : ServiceRevisionRecord := {|
  srv_namespace := ns; srv_service := service; srv_revision_hash := "r1";
  srv_spec_json := service +:+ " " +:+ host; srv_created_by := "m1"; srv_created_at := 0 |}.
Definition gw_release (ns service instance : string) : ServiceReleaseRecord := {|
  rel_namespace := ns; rel_service := service;
  rel_release := {| sr_primary_revision_hash := "r1"; sr_referenced_revision_hashes := ["r1"];
    sr_routing := Direct "r1";
    sr_slots := [{| sl_slot_id := "slot-0001"; sl_machine_id := "m1"; sl_active_instance_id := instance;
                    sl_revision_hash := "r1" |}];
    sr_updated_by_deploy_id := "d1"; sr_updated_at := 0 |} |}.
Definition gw_instance (ns service id : string) (ip : N) : InstanceStatusRecord := {|
  is_instance_id := id; is_namespace := ns; is_service := service; is_slot_id := "slot-0001";
  is_machine_id := "m1"; is_revision_hash := "r1"; is_deploy_id := "d1"; is_docker_container_id := "";
  is_overlay_ip := Some ip; is_backend_ports := {[ "http" := 80%N ]}; is_phase := IpReady; is_ready := true;
  is_drain_state := DsNone; is_error := None; is_started_at := 0; is_updated_at := 0 |}.

Definition gw_state : RoutingState := {|
  rs_revisions := [gw_revision "prod" "web" "web.example"; gw_revision "prod" "api" "api.example"];
  rs_releases := [gw_release "prod" "web" "i1"; gw_release "prod" "api" "i2"];
  rs_instances := [gw_instance "prod" "web" "i1" 1; gw_instance "prod" "api" "i2" 2] |}.

Definition gw_snapshot : GatewaySnapshot :=
  match @project gw_codec gw_state with Ok s => s | Err _ => snapshot_empty end.

Lemma gw_project : @project gw_codec gw_state = Ok gw_snapshot.
Proof. vm_compute. reflexivity. Qed.

Lemma match_http_route_best_witness :
  exists r, match_http_route gw_snapshot (Some "WEB.example:80") "/index" = Some r /\
    hv_service r = "web" /\ r ∈ http_routes gw_snapshot.
Proof.
  pose proof (@match_http_route_best gw_codec gw_state gw_snapshot (Some "WEB.example:80") "/index" gw_project) as H.
  simpl in H. destruct (match_http_route gw_snapshot (Some "WEB.example:80") "/index") as [r|] eqn:E.
  - exists r. split; [reflexivity|]. split; [|apply H]. vm_compute in E. injection E as <-. reflexivity.
  - exfalso. vm_compute in E. discriminate.
Defined.


Lemma project_order_independent_witness :
  @project gw_codec {| rs_revisions := rev (rs_revisions gw_state); rs_releases := rev (rs_releases gw_state);
                       rs_instances := rev (rs_instances gw_state) |} = Ok gw_snapshot.
Proof.
  apply (@project_order_independent gw_codec gw_state); simpl.
  - split; [apply (bool_decide_unpack _); vm_compute; exact I..|].
    intros revision spec Hin. simpl in Hin.
    apply elem_of_cons in Hin as [->|Hin]; [intros Hs; vm_compute in Hs; injection Hs as <-; reflexivity|].
    apply elem_of_cons in Hin as [->|Hin]; [intros Hs; vm_compute in Hs; injection Hs as <-; reflexivity|].
    by apply elem_of_nil in Hin.
  - apply perm_swap.
  - apply perm_swap.
  - apply perm_swap.
  - apply gw_project.
Defined.

Lemma normalize_host_port_witness :
  normalize_request_host ("Example.com" +:+ ":" +:+ dec 8080) = "example.com".
Proof. apply (normalize_host_port "Example.com" 8080). vm_compute. reflexivity. Defined.

Lemma request_served_by_route_witness :
  let state := build Some gw_snapshot in
  exists ctx r, request_filter state GET (Some "web.example") "/" = Ok ctx /\
    match_http_route gw_snapshot (Some "web.example") "/" = Some r /\
    match upstream_peer (fun l _ => head l) state ctx 0 with
    | Ok (_, addr) => exists b, b ∈ hv_backends r /\ bv_address b = addr
    | Err status => False
    end.
Proof.
  pose proof (@request_served_by_route (list (N * N)) Some (fun l _ => head l) gw_snapshot gw_snapshot GET
    (Some "web.example") "/" 0) as H.
  assert (forall addrs lb (j : nat) a, Some addrs = Some lb -> head lb = Some a -> a ∈ (addrs : list (N * N))) as Hlaw.
  { intros addrs lb j a Hs Hh. injection Hs as <-. destruct addrs; [discriminate|]. injection Hh as <-. left. }
  assert (NoDup (hv_route_id <$> http_routes gw_snapshot)) as Hnd.
  { apply (bool_decide_unpack _). vm_compute. exact I. }
  specialize (H Hlaw). simpl in H |- *.
  destruct (request_filter (build Some gw_snapshot) GET (Some "web.example") "/") as [ctx|status] eqn:E.
  - destruct H as (r & Hr & Hu). exists ctx, r. split; [reflexivity|]. split; [exact Hr|].
    destruct (upstream_peer _ _ ctx 0) as [[ctx' addr]|status] eqn:E'.
    + destruct Hu as (_ & r' & b & Hr' & _ & Hb & Ha & Hone). exists b.
      rewrite (Hone Hnd (match_http_route_elem _ _ _ _ Hr)) in Hb. split; [exact Hb|exact Ha].
    + exfalso. vm_compute in E. injection E as <-. vm_compute in E'. discriminate.
  - exfalso. vm_compute in E. discriminate.
Defined.

(** Route ids can collide.  A namespace or service name may contain a
    colon, and [http:<namespace>:<service>:<index>] then does not determine the
    route: with service [b:c] of namespace [a] and service [c] of namespace
    [a:b] the projection accepts both, a request for the first one's host is
    routed to the first service, and it is served by a backend of the other. *)
Example route_id_collision :
  let state := {| rs_revisions := [gw_revision "a" "b:c" "one.example"; gw_revision "a:b" "c" "two.example"];
                  rs_releases := [gw_release "a" "b:c" "i1"; gw_release "a:b" "c" "i2"];
                  rs_instances := [gw_instance "a" "b:c" "i1" 1; gw_instance "a:b" "c" "i2" 2] |} in
  exists snap r ctx, @project gw_codec state = Ok snap /\
    match_http_route snap (Some "one.example") "/" = Some r /\ hv_service r = "b:c" /\
    bv_address <$> hv_backends r = [(1, 80)]%N /\
    request_filter (build Some snap) GET (Some "one.example") "/" = Ok ctx /\
    snd <$> ok (upstream_peer (fun l _ => head l) (build Some snap) ctx 0) = Some (2, 80)%N.
Proof. vm_compute. eexists _, _, _. split_and!; reflexivity. Qed.
