(* ===== verification/Dns.v ===== *)
(** * The DNS resolver

    [ployz-dns]: [resolve.rs] (query parsing and resolution), [snapshot.rs] (the
    projection of the routing state), [sync.rs] (one refresh) and the answer of
    [server.rs] to a decoded request.  The DNS wire format is not modelled: a
    request is its name, its type and its source address. *)

From S2P Require Import Prelude Order Text Types.

(** ** Queries *)

Inductive DnsQuery :=
| ServiceImplicit (service : string)
| ServiceExplicit (service : string) (namespace : Namespace)
| ListServicesImplicit
| ListServicesExplicit (namespace : Namespace)
| UnknownQuery.
#[global] Instance DnsQuery_eq_dec : EqDecision DnsQuery.
Proof. solve_decision. Defined.

Inductive ResolveResult :=
| Addresses (ips : list Ipv4Addr)
| ServiceList (names : list string)
| NxDomain.
#[global] Instance ResolveResult_eq_dec : EqDecision ResolveResult.
Proof. solve_decision. Defined.

Definition parse_query (name : string) : DnsQuery :=
  let name := to_ascii_lowercase (trim_end_matches "."%char name) in
  match split "."%char name with
  | [service] => if is_empty service then UnknownQuery else ServiceImplicit service
  | [service; zone; root] =>
      if decide (zone = "ployz" /\ root = "internal" /\ service <> "") then
        if decide (service = "_services") then ListServicesImplicit
        else ServiceImplicit service
      else UnknownQuery
  | [service; namespace; zone; root] =>
      if decide (zone = "ployz" /\ root = "internal" /\ service <> "" /\ namespace <> "") then
        if decide (service = "_services") then ListServicesExplicit namespace
        else ServiceExplicit service namespace
      else UnknownQuery
  | _ => UnknownQuery
  end.

(** ** Snapshots *)

Record DnsSnapshot := {
  services : gmap string (gmap string (list Ipv4Addr));
  ip_to_namespace : gmap N Namespace;
  service_names : gmap string (list string)
}.
Definition dns_empty : DnsSnapshot := {| services := ∅; ip_to_namespace := ∅; service_names := ∅ |}.

Definition snapshot_lookup_service (s : DnsSnapshot) (namespace : Namespace) (service : string)
    : option (list Ipv4Addr) :=
  services s !! namespace ≫= fun by_service => by_service !! service.

(** The address a resolvable instance contributes. *)
Definition dns_address (i : InstanceStatusRecord) : option Ipv4Addr :=
  if (bool_decide (is_phase i <> IpReady) || negb (is_ready i))%bool then None
  else if bool_decide (is_drain_state i <> DsNone) then None
  else is_overlay_ip i.

Definition add_instance (acc : gmap string (gmap string (list Ipv4Addr)) * gmap N Namespace)
    (i : InstanceStatusRecord) : gmap string (gmap string (list Ipv4Addr)) * gmap N Namespace :=
  match dns_address i with
  | None => acc
  | Some ip =>
      let by_service := default ∅ (acc.1 !! is_namespace i) in
      let ips := default [] (by_service !! is_service i) in
      (<[is_namespace i := <[is_service i := ips ++ [ip]]> by_service]> acc.1,
       <[ip := is_namespace i]> acc.2)
  end.

Definition project_dns (state : RoutingState) : DnsSnapshot :=
  let '(raw, ips) := foldl add_instance (∅, ∅) (rs_instances state) in
  let sorted := (fun by_service : gmap string (list Ipv4Addr) => sort_by N.compare <$> by_service) <$> raw in
  {| services := sorted; ip_to_namespace := ips;
     service_names := (fun by_service : gmap string (list Ipv4Addr) => sort_strings (map_to_list by_service).*1) <$> sorted |}.

(** ** Resolution *)

Definition lookup_service (snapshot : DnsSnapshot) (namespace : Namespace) (service : string) : ResolveResult :=
  match snapshot_lookup_service snapshot namespace service with
  | Some (ip :: ips) => Addresses (ip :: ips)
  | _ => NxDomain
  end.

Definition lookup_service_list (snapshot : DnsSnapshot) (namespace : Namespace) : ResolveResult :=
  match service_names snapshot !! namespace with
  | Some (n :: names) => ServiceList (n :: names)
  | _ => NxDomain
  end.

Definition resolve (snapshot : DnsSnapshot) (query : DnsQuery) (caller_namespace : option Namespace) : ResolveResult :=
  match query with
  | ServiceImplicit service =>
      match caller_namespace with
      | None => NxDomain
      | Some ns => lookup_service snapshot ns service
      end
  | ServiceExplicit service namespace => lookup_service snapshot namespace service
  | ListServicesImplicit =>
      match caller_namespace with
      | None => NxDomain
      | Some ns => lookup_service_list snapshot ns
      end
  | ListServicesExplicit namespace => lookup_service_list snapshot namespace
  | UnknownQuery => NxDomain
  end.

(** ** The request handler *)

Inductive RecordType := RA | RTXT | RANY | ROther.
#[global] Instance RecordType_eq_dec : EqDecision RecordType.
Proof. solve_decision. Defined.
Inductive RecordData := DataA (ip : Ipv4Addr) | DataTXT (text : string).
Inductive ResponseCode := NoError | NXDomainCode | FormErr.

(** [handle_request] on a decoded request; [src] is the source address when it
    is IPv4, [request] the query unless it was malformed. *)
Definition handle_request (snapshot : DnsSnapshot) (src : option Ipv4Addr) (request : option (string * RecordType))
    : ResponseCode * list RecordData :=
  match request with
  | None => (FormErr, [])
  | Some (name, rtype) =>
      let caller_namespace := src ≫= fun ip => ip_to_namespace snapshot !! ip in
      match resolve snapshot (parse_query name) caller_namespace with
      | Addresses ips =>
          if decide (rtype = RA \/ rtype = RANY) then (NoError, DataA <$> ips) else (NoError, [])
      | ServiceList names =>
          if decide (rtype = RTXT \/ rtype = RANY) then (NoError, DataTXT <$> names) else (NoError, [])
      | NxDomain => (NXDomainCode, [])
      end
  end.

(** One refresh of [run_sync_loop]. *)
Definition dns_sync_refresh (loaded : Res RoutingState) (shared : DnsSnapshot) : DnsSnapshot :=
  match loaded with Ok state => project_dns state | Err _ => shared end.

(** ** The snapshot is exact *)

Lemma add_instances_spec l ns service :
  let '(raw, ips) := foldl add_instance (∅, ∅) l in
  (raw !! ns ≫= fun by_service => by_service !! service) =
    match omap (fun i => if decide (is_namespace i = ns /\ is_service i = service) then dns_address i else None) l with
    | [] => None
    | found => Some found
    end.
Proof.
  induction l as [|i l IH] using rev_ind; simpl; [done|].
  rewrite foldl_app, omap_app. simpl. destruct (foldl add_instance (∅, ∅) l) as [raw ips].
  unfold add_instance. destruct (dns_address i) as [ip|] eqn:Hi.
  2:{ destruct (decide (is_namespace i = ns /\ is_service i = service)); by rewrite app_nil_r. }
  simpl. destruct (decide (is_namespace i = ns)) as [<-|Hns].
  - rewrite lookup_insert_eq. simpl. destruct (decide (is_service i = service)) as [<-|Hs].
    + rewrite decide_True by done. rewrite lookup_insert_eq.
      assert (default [] (default ∅ (raw !! is_namespace i) !! is_service i) =
        omap (fun j => if decide (is_namespace j = is_namespace i /\ is_service j = is_service i)
                       then dns_address j else None) l) as ->.
      { destruct (raw !! is_namespace i) as [m|]; simpl in *; [rewrite IH|rewrite lookup_empty];
          destruct (omap _ l); done. }
      by destruct (omap _ l).
    + rewrite decide_False by naive_solver. rewrite lookup_insert_ne by done. rewrite app_nil_r, <- IH.
      by destruct (raw !! is_namespace i); simpl; rewrite ?lookup_empty.
  - rewrite decide_False by naive_solver. by rewrite lookup_insert_ne, app_nil_r.
Qed.

(** A resolvable instance of a service. *)
Definition resolvable (state : RoutingState) (ns service : string) (ip : Ipv4Addr) : Prop :=
  exists i, i ∈ rs_instances state /\ is_namespace i = ns /\ is_service i = service /\
    is_phase i = IpReady /\ is_ready i = true /\ is_drain_state i = DsNone /\ is_overlay_ip i = Some ip.

Lemma dns_address_Some i ip :
  dns_address i = Some ip <->
  is_phase i = IpReady /\ is_ready i = true /\ is_drain_state i = DsNone /\ is_overlay_ip i = Some ip.
Proof.
  unfold dns_address. destruct (decide (is_phase i = IpReady)), (is_ready i), (decide (is_drain_state i = DsNone));
    rewrite ?(bool_decide_eq_true_2 (is_phase i <> IpReady)), ?(bool_decide_eq_false_2 (is_phase i <> IpReady)),
      ?(bool_decide_eq_true_2 (is_drain_state i <> DsNone)), ?(bool_decide_eq_false_2 (is_drain_state i <> DsNone))
      by tauto; simpl; naive_solver.
Qed.

Lemma snapshot_lookup_exact state ns service :
  match snapshot_lookup_service (project_dns state) ns service with
  | Some ips => ips <> [] /\ StronglySorted (cmp_le N.compare) ips /\
                forall ip, ip ∈ ips <-> resolvable state ns service ip
  | None => forall ip, ~ resolvable state ns service ip
  end.
Proof.
  pose proof (add_instances_spec (rs_instances state) ns service) as Hspec.
  unfold snapshot_lookup_service, project_dns. destruct (foldl add_instance (∅, ∅) _) as [raw ips]. simpl.
  set (found := omap _ (rs_instances state)) in Hspec.
  assert (forall ip, ip ∈ found <-> resolvable state ns service ip) as Hfound.
  { intros ip. unfold found, resolvable. rewrite list_elem_of_omap. setoid_rewrite <- dns_address_Some.
    split; [intros (i & Hi & Hd); exists i; case_decide; naive_solver|].
    intros (i & Hi & Hns & Hs & Hd). exists i. by rewrite decide_True. }
  rewrite lookup_fmap. destruct (raw !! ns) as [by_service|]; simpl in *.
  - rewrite lookup_fmap. rewrite Hspec. destruct found as [|ip0 found'] eqn:E; simpl; [set_solver|].
    change (insert_by N.compare ip0 (foldr (insert_by N.compare) [] found')) with (sort_by N.compare (ip0 :: found')).
    generalize (sort_by_nil_iff N.compare (ip0 :: found')) (sort_by_sorted N.compare (ip0 :: found'))
      (fun x => elem_of_sort_by N.compare x (ip0 :: found')).
    intros Hnil Hsorted Helem. split_and!.
    + intros Hn. by apply Hnil in Hn.
    + done.
    + intros ip. by rewrite Helem, Hfound.
  - destruct found; [set_solver|done].
Qed.

(** ** Parsing *)

(** A lower-case DNS label. *)
Definition is_label (s : string) : bool :=
  negb (is_empty s) && negb (contains_char "." s) && bool_decide (to_ascii_lowercase s = s).

Definition explicit_name (service namespace : string) : string :=
  service +:+ String "." (namespace +:+ ".ployz.internal").

Lemma is_label_spec s :
  is_label s = true -> s <> "" /\ is_empty s = false /\ contains_char "." s = false /\ to_ascii_lowercase s = s.
Proof. unfold is_label. intros Hs. to_prop. split_and!; try done. by destruct s. Qed.

Lemma parse_explicit service namespace name :
  is_label service = true -> is_label namespace = true ->
  trim_end_matches "." (to_ascii_lowercase name) = explicit_name service namespace ->
  parse_query name =
  if decide (service = "_services") then ListServicesExplicit namespace else ServiceExplicit service namespace.
Proof.
  intros (Hne & _ & Hd & _)%is_label_spec (Hne' & _ & Hd' & _)%is_label_spec Hname.
  unfold parse_query. rewrite trim_dots_lowercase, Hname. unfold explicit_name.
  rewrite split_app by done. change (namespace +:+ ".ployz.internal") with (namespace +:+ String "." "ployz.internal").
  rewrite split_app by done. change (split "." "ployz.internal") with ["ployz"; "internal"].
  cbv iota. by rewrite decide_True.
Qed.

Lemma explicit_name_trim service namespace :
  trim_end_matches "." (explicit_name service namespace) = explicit_name service namespace.
Proof.
  apply trim_dots_id. unfold explicit_name.
  change (String "." (namespace +:+ ".ployz.internal")) with ("." +:+ namespace +:+ ".ployz.internal").
  rewrite !rev_str_app, !append_assoc. simpl. done.
Qed.

(** An explicit query gets exactly the ready instances.  For lower-case
    labels, a query for [service.namespace.ployz.internal], in any letter case
    and with or without the final dot, is answered with the sorted overlay
    addresses of exactly the instances of that service and namespace that are
    ready, in phase [Ready] and not draining; when there are none, the name does
    not exist.  The caller's address does not matter. *)
Theorem dns_explicit_answer (state : RoutingState) (src : option Ipv4Addr) (service namespace name : string) :
  is_label service = true -> is_label namespace = true -> service <> "_services" ->
  (to_ascii_lowercase name = explicit_name service namespace \/
   to_ascii_lowercase name = explicit_name service namespace +:+ ".") ->
  match handle_request (project_dns state) src (Some (name, RA)) with
  | (NoError, records) => exists ips, records = DataA <$> ips /\ ips <> [] /\
      StronglySorted (cmp_le N.compare) ips /\ forall ip, ip ∈ ips <-> resolvable state namespace service ip
  | (NXDomainCode, records) => records = [] /\ forall ip, ~ resolvable state namespace service ip
  | (FormErr, _) => False
  end.
Proof.
  intros Hs Hns Hne Hname. simpl.
  assert (trim_end_matches "." (to_ascii_lowercase name) = explicit_name service namespace) as Htrim.
  { destruct Hname as [->| ->]; [|rewrite trim_dots_app]; apply explicit_name_trim. }
  rewrite (parse_explicit service namespace name Hs Hns Htrim), decide_False by done. simpl.
  pose proof (snapshot_lookup_exact state namespace service) as Hex. unfold lookup_service.
  destruct (snapshot_lookup_service (project_dns state) namespace service) as [[|ip ips]|].
  - by destruct Hex.
  - destruct (decide (RA = RA \/ RA = RANY)) as [_|Hn]; [|naive_solver]. destruct Hex as (H1 & H2 & H3).
    exists (ip :: ips). split_and!; done.
  - done.
Qed.

(** ** Names in upper case *)

Lemma split_lowercase s p : p ∈ split "." (to_ascii_lowercase s) -> to_ascii_lowercase p = p.
Proof.
  unfold to_ascii_lowercase. revert p. induction s as [|d s IH]; cbn [map_str split].
  - intros p ->%list_elem_of_singleton. done.
  - intros p. destruct (ascii_dec "." (lower_char d)).
    + intros [->|Hp]%elem_of_cons; [done|auto].
    + destruct (split "." (map_str lower_char s)) as [|q qs] eqn:E; [by apply split_not_nil in E|].
      intros [->|Hp]%elem_of_cons; [|apply IH; by right]. cbn [map_str]. rewrite lower_char_idem. f_equal.
      apply IH. by left.
Qed.

Lemma parse_query_lowercase name :
  match parse_query name with
  | ServiceImplicit s => to_ascii_lowercase s = s
  | ServiceExplicit s ns => to_ascii_lowercase s = s /\ to_ascii_lowercase ns = ns
  | ListServicesExplicit ns => to_ascii_lowercase ns = ns
  | _ => True
  end.
Proof.
  unfold parse_query. pose proof (split_lowercase (trim_end_matches "." name)) as Hl.
  destruct (split _ _) as [|a [|b [|c [|d [|? ?]]]]]; try done.
  - destruct (is_empty a); [done|]. apply Hl. left.
  - repeat case_decide; try done. apply Hl. left.
  - repeat case_decide; try done; repeat split; apply Hl; set_solver.
Qed.

(** A name with an upper-case letter cannot be resolved.  Queries are
    lower-cased but the snapshot keeps service and namespace names as they are:
    addresses are only ever returned for a service whose name is lower-case (and
    for explicit queries a lower-case namespace), so the ready instances of a
    service called [Web] are unreachable by any query. *)
Theorem dns_uppercase_unreachable (snapshot : DnsSnapshot) (name : string) (caller : option Namespace)
    (ips : list Ipv4Addr) :
  resolve snapshot (parse_query name) caller = Addresses ips ->
  exists ns service, snapshot_lookup_service snapshot ns service = Some ips /\
    to_ascii_lowercase service = service /\ (to_ascii_lowercase ns = ns \/ caller = Some ns).
Proof.
  pose proof (parse_query_lowercase name) as Hl.
  assert (forall ns s, lookup_service snapshot ns s = Addresses ips ->
    snapshot_lookup_service snapshot ns s = Some ips) as Hlook.
  { unfold lookup_service. intros ns s. destruct (snapshot_lookup_service snapshot ns s) as [[|ip l]|]; try done.
    by intros [= <-]. }
  assert (forall ns, lookup_service_list snapshot ns <> Addresses ips) as Hlist.
  { intros ns. unfold lookup_service_list. by destruct (service_names snapshot !! ns) as [[|? ?]|]. }
  unfold resolve. destruct (parse_query name) as [s|s ns| |ns|]; [| | | |done].
  - destruct caller as [ns|]; [|done]. intros Hr%Hlook. eauto 10.
  - intros Hr%Hlook. destruct Hl. eauto 10.
  - destruct caller as [ns|]; [|done]. by intros Hr%Hlist.
  - by intros Hr%Hlist.
Qed.

(** ** Witnesses *)

Definition dns_instance (ns service id : string) (ip : N) : InstanceStatusRecord := {|
  is_instance_id := id; is_namespace := ns; is_service := service; is_slot_id := "slot-0001";
  is_machine_id := "m1"; is_revision_hash := "r1"; is_deploy_id := "d1"; is_docker_container_id := "";
  is_overlay_ip := Some ip; is_backend_ports := ∅; is_phase := IpReady; is_ready := true;
  is_drain_state := DsNone; is_error := None; is_started_at := 0; is_updated_at := 0 |}.
Definition dns_state : RoutingState := {|
  rs_revisions := []; rs_releases := [];
  rs_instances := [dns_instance "prod" "db" "i1" 9; dns_instance "prod" "db" "i2" 7; dns_instance "prod" "Web" "i3" 5] |}.

Lemma dns_explicit_answer_witness :
  match handle_request (project_dns dns_state) None (Some ("DB.prod.ployz.internal.", RA)) with
  | (NoError, records) => exists ips, records = DataA <$> ips /\ ips <> []
  | _ => False
  end.
Proof.
  pose proof (dns_explicit_answer dns_state None "db" "prod" "DB.prod.ployz.internal.") as H.
  assert (is_label "db" = true) as H1 by reflexivity.
  assert (is_label "prod" = true) as H2 by reflexivity.
  assert ("db" <> "_services") as H3 by discriminate.
  specialize (H H1 H2 H3 (or_intror eq_refl)).
  destruct (handle_request (project_dns dns_state) None (Some ("DB.prod.ployz.internal.", RA)))
    as [code records] eqn:E.
  destruct code.
  - destruct H as (ips & Hr & Hne & _). exists ips. exact (conj Hr Hne).
  - vm_compute in E. discriminate.
  - exact H.
Defined.

Lemma dns_uppercase_unreachable_witness :
  exists ns service, snapshot_lookup_service (project_dns dns_state) ns service = Some [7; 9]%N /\
    to_ascii_lowercase service = service.
Proof.
  destruct (dns_uppercase_unreachable (project_dns dns_state) "db.prod.ployz.internal" None [7; 9]%N)
    as (ns & service & H1 & H2 & _); [vm_compute; reflexivity|].
  exists ns, service. exact (conj H1 H2).
Defined.
