(* ===== verification/Sync.v ===== *)
(** * Keeping the gateway and DNS snapshots current

    [run_sync_loop] of [ployz-gateway] and [ployz-dns] against the in-memory
    store: the loop waits for a refresh signal on its bounded channel, sleeps,
    drains the channel, loads the routing tables and installs the projected
    snapshot; meanwhile anybody writes to the store.  The two loops differ in the
    projection only, which is the interface [RoutingView]; the gateway and the
    DNS server are its instances. *)

From S2P Require Import Prelude Order Text Types Spec Store Gateway Dns.
From stdpp Require Import relations.

(** What a refresh installs, from the answer of [load_routing_state]; [None]
    keeps the snapshot that is there. *)
Class RoutingView (Snap : Type) := {
  refresh_view : Res RoutingState -> option Snap;
  refresh_view_error : forall e, refresh_view (Err e) = None
}.

#[export] Program Instance gateway_view `{SpecCodec} : RoutingView GatewaySnapshot :=
  {| refresh_view loaded := ok (load_projected_snapshot loaded) |}.
Next Obligation. done. Qed.
#[export] Program Instance dns_view : RoutingView DnsSnapshot :=
  {| refresh_view loaded := project_dns <$> ok loaded |}.
Next Obligation. done. Qed.

(** ** Writes to the store *)

Inductive StoreOp :=
| WMachine (o : MachineOp) | WSubscribeMachines | WSubscribeRouting
| WCreateInvite (i : InviteRecord) | WConsumeInvite (id : string) (now : N)
| WRevision (r : ServiceRevisionRecord) | WRelease (r : ServiceReleaseRecord)
| WDeleteRelease (ns : Namespace) (service : string)
| WInstance (r : InstanceStatusRecord) | WDeleteInstance (id : InstanceId)
| WDeploy (r : DeployRecord) | WCommit (c : DeployCommit) | WSyncStatus (s : SyncStatus).

Definition run_store_op (o : StoreOp) (s : MemoryStore) : MemoryStore :=
  match o with
  | WMachine o => run_machine_op o s
  | WSubscribeMachines => (mem_subscribe_machines s).2
  | WSubscribeRouting => mem_subscribe_routing_invalidations s
  | WCreateInvite i => (mem_create_invite i s).2
  | WConsumeInvite id now => (mem_consume_invite id now s).2
  | WRevision r => mem_upsert_service_revision r s
  | WRelease r => mem_upsert_service_release r s
  | WDeleteRelease ns service => mem_delete_service_release ns service s
  | WInstance r => mem_upsert_instance_status r s
  | WDeleteInstance id => mem_delete_instance_status id s
  | WDeploy r => mem_upsert_deploy r s
  | WCommit c => mem_apply_deploy_commit c s
  | WSyncStatus st => mem_set_sync_status st s
  end.

(** The writes that broadcast a routing refresh. *)
Definition signals (o : StoreOp) : bool :=
  match o with
  | WRevision _ | WRelease _ | WDeleteRelease _ _ | WInstance _ | WDeleteInstance _ | WCommit _ => true
  | _ => false
  end.

(** A write that does not signal leaves the routing tables alone. *)
Lemma silent_op_routing o s :
  signals o = false ->
  mem_load_routing_state (run_store_op o s) = mem_load_routing_state s /\
  exists more, ms_routing_subscribers (run_store_op o s) = ms_routing_subscribers s ++ more.
Proof.
  intros Hs. destruct o as [[r|id]| | |i|id now| | | | | | | |]; try done; simpl;
    unfold mem_delete_machine, mem_create_invite, mem_consume_invite; repeat case_match; (split; [done|]);
    first [by (exists []; rewrite app_nil_r) | by eexists].
Qed.

Lemma signal_op_subscribers o s :
  signals o = true -> ms_routing_subscribers (run_store_op o s) = broadcast tt (ms_routing_subscribers s).
Proof. by destruct o. Qed.

(** ** The loop *)

Section sync.
Context {Snap : Type} `{RoutingView Snap}.

(** Where the loop is: in [recv], in the debounce sleep and drain, before the
    load, or with the outcome of a load that is not installed yet. *)
Inductive LoopPhase := Waiting | Debouncing | Loading | Loaded (next : option Snap).
Inductive LastRefresh := NeverRefreshed | RefreshFailed | RefreshSucceeded.

Record SyncState := {
  sy_store : MemoryStore;
  sy_channel : Channel unit;               (* the loop's channel, one of the store's subscribers *)
  sy_phase : LoopPhase;
  sy_snapshot : Snap;                      (* the shared snapshot *)
  sy_last : LastRefresh
}.

(** The snapshot the store's tables project to. *)
Definition current_view (s : MemoryStore) : option Snap := refresh_view (Ok (mem_load_routing_state s)).

Definition with_subscribers (subs : list (Channel unit)) (s : MemoryStore) : MemoryStore := {|
  ms_machines := ms_machines s; ms_machine_subscribers := ms_machine_subscribers s;
  ms_routing_subscribers := subs; ms_invites := ms_invites s;
  ms_service_revisions := ms_service_revisions s; ms_service_releases := ms_service_releases s;
  ms_instance_status := ms_instance_status s; ms_deploys := ms_deploys s;
  ms_sync_status := ms_sync_status s |}.

(** The loop subscribes, with the snapshot that was loaded before. *)
Definition sync_start (s : MemoryStore) (initial : Snap) : SyncState := {|
  sy_store := mem_subscribe_routing_invalidations s; sy_channel := channel_new;
  sy_phase := Waiting; sy_snapshot := initial; sy_last := NeverRefreshed |}.

(** Taking one signal out of the channel. *)
Definition pop (rest : list unit) : Channel unit := {| ch_queue := rest; ch_closed := false |}.

(** Steps of the loop itself. *)
Inductive loop_step : SyncState -> SyncState -> Prop :=
| loop_recv s c snap last u rest pre post :
    ms_routing_subscribers s = pre ++ c :: post -> ch_queue c = u :: rest ->
    loop_step (Build_SyncState s c Waiting snap last)
      (Build_SyncState (with_subscribers (pre ++ pop rest :: post) s) (pop rest) Debouncing snap last)
| loop_try_recv s c snap last u rest pre post :
    ms_routing_subscribers s = pre ++ c :: post -> ch_queue c = u :: rest ->
    loop_step (Build_SyncState s c Debouncing snap last)
      (Build_SyncState (with_subscribers (pre ++ pop rest :: post) s) (pop rest) Debouncing snap last)
| loop_drained s c snap last :
    ch_queue c = [] ->
    loop_step (Build_SyncState s c Debouncing snap last) (Build_SyncState s c Loading snap last)
| loop_load s c snap last :
    loop_step (Build_SyncState s c Loading snap last)
      (Build_SyncState s c (Loaded (current_view s)) snap last)
| loop_install s c snap last next :
    loop_step (Build_SyncState s c (Loaded (Some next)) snap last)
      (Build_SyncState s c Waiting next RefreshSucceeded)
| loop_keep s c snap last :
    loop_step (Build_SyncState s c (Loaded None) snap last)
      (Build_SyncState s c Waiting snap RefreshFailed).

(** Interleavings: a loop step, a load that fails, or a write to the store. *)
Inductive sync_step : SyncState -> SyncState -> Prop :=
| sync_loop st st' : loop_step st st' -> sync_step st st'
| sync_load_error s c snap last e :
    sync_step (Build_SyncState s c Loading snap last)
      (Build_SyncState s c (Loaded (refresh_view (Err e))) snap last)
| sync_write s c phase snap last o :
    sync_step (Build_SyncState s c phase snap last)
      (Build_SyncState (run_store_op o s)
         (if signals o then default c (retain_send tt c) else c) phase snap last).

(** The loop's channel is subscribed and open, and unless a signal is queued
    what was loaded or installed last is the projection of the tables. *)
Definition sync_inv (st : SyncState) : Prop :=
  sy_channel st ∈ ms_routing_subscribers (sy_store st) /\ ch_closed (sy_channel st) = false /\
  (ch_queue (sy_channel st) = [] ->
   match sy_phase st with
   | Waiting => sy_last st = RefreshSucceeded -> current_view (sy_store st) = Some (sy_snapshot st)
   | Loaded (Some next) => current_view (sy_store st) = Some next
   | _ => True
   end).

Lemma write_inv s c phase snap last o :
  sync_inv (Build_SyncState s c phase snap last) ->
  sync_inv (Build_SyncState (run_store_op o s)
              (if signals o then default c (retain_send tt c) else c) phase snap last).
Proof.
  intros (Hin & Ho & Hcur). unfold sync_inv in *. simpl in *. destruct (signals o) eqn:Hs.
  - rewrite signal_op_subscribers by done. split; [by apply broadcast_elem|].
    unfold retain_send. rewrite Ho. destruct (Nat.ltb_spec (length (ch_queue c)) CHANNEL_CAPACITY) as [?|Hfull]; simpl.
    + split; [done|]. intros Hq. by apply app_nil in Hq as [_ ?].
    + split; [done|]. intros Hq. rewrite Hq in Hfull. simpl in Hfull. unfold CHANNEL_CAPACITY in Hfull. lia.
  - destruct (silent_op_routing o s Hs) as [Hload (more & ->)]. unfold current_view in *. rewrite Hload.
    split; [set_solver|done].
Qed.

Lemma loop_step_inv st st' : loop_step st st' -> sync_inv st -> sync_inv st'.
Proof.
  destruct 1; intros (Hin & Ho & Hcur); unfold sync_inv; simpl in *; split_and!;
    try done; try set_solver.
  by destruct (current_view s).
Qed.

Lemma sync_step_inv st st' : sync_step st st' -> sync_inv st -> sync_inv st'.
Proof.
  destruct 1 as [st st' Hl|s c snap last e|s c phase snap last o]; intros Hinv.
  - by eapply loop_step_inv.
  - destruct Hinv as (? & ? & _). unfold sync_inv; simpl. by rewrite refresh_view_error.
  - by apply write_inv.
Qed.

Lemma sync_reach_inv s initial st : rtc sync_step (sync_start s initial) st -> sync_inv st.
Proof.
  intros Hr. assert (sync_inv (sync_start s initial)) as Hinv.
  { unfold sync_inv; simpl. split_and!; [set_solver|done..]. }
  induction Hr; eauto using sync_step_inv.
Qed.

(** The drain loop empties the channel. *)
Lemma drain_steps s c snap last :
  c ∈ ms_routing_subscribers s -> ch_closed c = false ->
  exists s' c', rtc loop_step (Build_SyncState s c Debouncing snap last) (Build_SyncState s' c' Loading snap last) /\
    ch_queue c' = [] /\ current_view s' = current_view s.
Proof.
  destruct c as [q closed]. simpl. intros Hin Ho. subst closed. revert s Hin.
  induction q as [|u q IH]; intros s Hin.
  - exists s, {| ch_queue := []; ch_closed := false |}. split; [|done]. apply rtc_once. by constructor.
  - apply list_elem_of_split in Hin as (pre & post & Hsubs).
    destruct (IH (with_subscribers (pre ++ pop q :: post) s)) as (s' & c' & Hr & Hq & Hv).
    { simpl. set_solver. }
    exists s', c'. split; [|done]. eapply rtc_l; [|exact Hr]. by eapply loop_try_recv.
Qed.

(** A whole iteration: from a queued signal to an installed snapshot. *)
Lemma iteration_steps s c snap last :
  c ∈ ms_routing_subscribers s -> ch_closed c = false -> ch_queue c <> [] ->
  exists s' c', ch_queue c' = [] /\ current_view s' = current_view s /\
    rtc loop_step (Build_SyncState s c Waiting snap last)
      (match current_view s with
       | Some next => Build_SyncState s' c' Waiting next RefreshSucceeded
       | None => Build_SyncState s' c' Waiting snap RefreshFailed
       end).
Proof.
  intros Hin Ho Hq. destruct (ch_queue c) as [|u rest] eqn:Hc; [done|].
  apply list_elem_of_split in Hin as (pre & post & Hsubs).
  destruct (drain_steps (with_subscribers (pre ++ pop rest :: post) s) (pop rest) snap last)
    as (s' & c' & Hr & Hq' & Hv); [simpl; set_solver|done|].
  exists s', c'. split; [done|]. split; [by rewrite Hv|].
  eapply rtc_l; [by eapply loop_recv|]. etransitivity; [exact Hr|].
  eapply rtc_l; [apply loop_load|]. rewrite Hv.
  change (current_view (with_subscribers _ s)) with (current_view s).
  destruct (current_view s); apply rtc_once; constructor.
Qed.

(** C33: Coalescing refresh signals loses no change.  However writes to the
    store interleave with the sync loop - also in its debounce sleep, between
    the load and the installation of its result, and when its channel is full
    and drops signals - whenever the loop waits, no signal is queued and its
    last refresh succeeded, the shared snapshot is the projection of the
    store's current tables.  And when a signal is queued, the loop's own steps
    lead to waiting with the current projection installed (or, if the tables
    do not project, with the old snapshot kept). *)
Theorem sync_never_stale (s : MemoryStore) (initial : Snap) (st : SyncState) :
  rtc sync_step (sync_start s initial) st -> sy_phase st = Waiting ->
  (ch_queue (sy_channel st) = [] -> sy_last st = RefreshSucceeded ->
   current_view (sy_store st) = Some (sy_snapshot st)) /\
  (ch_queue (sy_channel st) <> [] ->
   exists st', rtc loop_step st st' /\ sy_phase st' = Waiting /\ ch_queue (sy_channel st') = [] /\
     current_view (sy_store st') = current_view (sy_store st) /\
     sy_snapshot st' = default (sy_snapshot st) (current_view (sy_store st))).
Proof.
  intros Hr Hp. apply sync_reach_inv in Hr as (Hin & Ho & Hcur).
  destruct st as [s' c phase snap last]. simpl in *. subst phase. split; [done|]. intros Hq.
  destruct (iteration_steps s' c snap last Hin Ho Hq) as (s2 & c2 & Hq2 & Hv & Hr).
  eexists. split; [exact Hr|]. by destruct (current_view s').
Qed.
End sync.

(** ** Witnesses *)

Definition sync_instance : InstanceStatusRecord := dns_instance "prod" "web" "i1" 7.

(** One write after the loop started: the signal is queued. *)
Lemma sync_never_stale_witness :
  let st := Build_SyncState (run_store_op (WInstance sync_instance) (mem_subscribe_routing_invalidations memory_new))
              {| ch_queue := [tt]; ch_closed := false |} Waiting dns_empty NeverRefreshed in
  exists st', rtc loop_step st st' /\ ch_queue (sy_channel st') = [] /\
    snapshot_lookup_service (sy_snapshot st') "prod" "web" = Some [7%N].
Proof.
  intros st.
  assert (rtc sync_step (sync_start memory_new dns_empty) st) as Hr.
  { apply rtc_once.
    exact (sync_write (mem_subscribe_routing_invalidations memory_new) channel_new Waiting dns_empty
             NeverRefreshed (WInstance sync_instance)). }
  destruct (sync_never_stale memory_new dns_empty st Hr eq_refl) as [_ Hnext].
  destruct (Hnext ltac:(discriminate)) as (st' & Hsteps & _ & Hq & _ & Hsnap).
  exists st'. split; [exact Hsteps|]. split; [exact Hq|]. rewrite Hsnap. vm_compute. reflexivity.
Defined.

(** A write between the initial load and the subscription is missed.  The
    processes load and project the tables first and subscribe in the spawned
    loop; an instance written in between is not in the snapshot, no signal is
    queued and the loop has no step to take, so the DNS server does not answer
    for it until some later write to the routing tables. *)
Example sync_startup_race :
  let initial := project_dns (mem_load_routing_state memory_new) in
  let st := sync_start (run_store_op (WInstance sync_instance) memory_new) initial in
  snapshot_lookup_service (sy_snapshot st) "prod" "web" = None /\
  (fun now => snapshot_lookup_service now "prod" "web") <$> current_view (sy_store st) = Some (Some [7%N]) /\
  (forall st', ~ loop_step st st').
Proof.
  split_and!; [vm_compute; reflexivity..|]. intros st' Hstep. inversion Hstep; discriminate.
Qed.
