(* ===== verification/Heal.v ===== *)
(** * Duplicate subnets

    Machines claim their subnet in their machine record; records of machines
    that joined concurrently can claim the same one.
    [mesh/tasks/subnet_claim_monitor.rs] reports such claims,
    [handlers/machine/heal.rs] of the daemon resolves them: of the machines that
    claim a subnet the one with the least id keeps it, the others move to a free
    subnet, with a settle window and tie-breaks in between.  [Ipnet] and its laws
    stand for the [ipnet] crate, [addr_parse_error] for its parse error text. *)

From stdpp Require Import relations.
From S2P Require Import Prelude Order Text Types Effect IpnetRef Ipam Store Mesh.

(** ** Claims *)

(** The claimants of each subnet, in the order of the list. *)
Definition add_claim (groups : gmap Ipv4Net (list MachineId)) (machine : MachineRecord)
    : gmap Ipv4Net (list MachineId) :=
  match mr_subnet machine with
  | None => groups
  | Some subnet => <[subnet := default [] (groups !! subnet) ++ [mr_id machine]]> groups
  end.

Section groups.
Context `{Ipnet}.

(** A [BTreeMap<Ipv4Net, _>] is iterated in the order of its keys. *)
Definition duplicate_subnet_groups (machines : list MachineRecord) : list (Ipv4Net * list MachineId) :=
  omap (fun '(subnet, machine_ids) =>
          if (length machine_ids <? 2)%nat then None else Some (subnet, sort_strings machine_ids))
    (sort_by (fun a b => ipnet_cmp a.1 b.1) (map_to_list (foldl add_claim ∅ machines))).

(** The monitor's report, with subnets printed; its [BTreeMap] is keyed by the
    printed subnet. *)
Definition add_claim_string (groups : gmap string (list string)) (machine : MachineRecord)
    : gmap string (list string) :=
  match mr_subnet machine with
  | None => groups
  | Some subnet =>
      <[ipnet_to_string subnet := default [] (groups !! ipnet_to_string subnet) ++ [mr_id machine]]> groups
  end.

Definition duplicate_subnet_claims (machines : list MachineRecord) : list (string * list string) :=
  omap (fun '(subnet, claimants) =>
          if (length claimants <? 2)%nat then None else Some (subnet, sort_strings claimants))
    (sort_by (fun a b => str_cmp a.1 b.1) (map_to_list (foldl add_claim_string ∅ machines))).

(** [run_subnet_claim_monitor_task]: the machines it knows and the duplicates it
    reported last; an event answers with what is reported, if that changed. *)
Record SubnetClaimMonitor := {
  mon_machines : gmap string MachineRecord;
  mon_previous_duplicates : list (string * list string)
}.
Definition monitor_start (snapshot : list MachineRecord) : SubnetClaimMonitor :=
  let machines := index_by mr_id snapshot in
  {| mon_machines := machines;
     mon_previous_duplicates := duplicate_subnet_claims (map_to_list machines).*2 |}.
Definition monitor_event (self : SubnetClaimMonitor) (event : MachineEvent)
    : option (list (string * list string)) * SubnetClaimMonitor :=
  let machines := match event with
                  | MeAdded m | MeUpdated m => <[mr_id m := m]> (mon_machines self)
                  | MeRemoved m => delete (mr_id m) (mon_machines self)
                  end in
  let next := duplicate_subnet_claims (map_to_list machines).*2 in
  if decide (next = mon_previous_duplicates self)
  then (None, {| mon_machines := machines; mon_previous_duplicates := mon_previous_duplicates self |})
  else (Some next, {| mon_machines := machines; mon_previous_duplicates := next |}).

Record LocalSubnetConflict := { lc_subnet : Ipv4Net; lc_winner_machine_id : MachineId }.

Fixpoint find_conflict (local_machine_id : MachineId) (groups : list (Ipv4Net * list MachineId))
    : option LocalSubnetConflict :=
  match groups with
  | [] => None
  | (subnet, machine_ids) :: groups =>
      match machine_ids with
      | [] => find_conflict local_machine_id groups
      | winner_machine_id :: _ =>
          if decide (winner_machine_id = local_machine_id) then None
          else if decide (local_machine_id ∈ machine_ids) then
            Some {| lc_subnet := subnet; lc_winner_machine_id := winner_machine_id |}
          else find_conflict local_machine_id groups
      end
  end.

Definition local_duplicate_subnet_conflict (machines : list MachineRecord) (local_machine_id : MachineId)
    : option LocalSubnetConflict :=
  find_conflict local_machine_id (duplicate_subnet_groups machines).

Definition claimants (machines : list MachineRecord) (subnet : Ipv4Net) : list MachineId :=
  mr_id <$> filter (fun m => mr_subnet m = Some subnet) machines.

Definition target_subnet_winner (machines : list MachineRecord) (local_machine_id : MachineId)
    (target_subnet : Ipv4Net) : MachineId :=
  match sort_strings (claimants machines target_subnet ++ [local_machine_id]) with
  | winner :: _ => winner
  | [] => local_machine_id
  end.

Definition subnet_claim_winner (machines : list MachineRecord) (subnet : Ipv4Net) : option MachineId :=
  head (sort_strings (claimants machines subnet)).

(** [Panic] and [OutOfFuel] are the outcomes of [Ipam::allocate]. *)
Definition allocate_replacement_subnet `{Build} (addr_parse_error : string -> string)
    (machines : list MachineRecord) (local_machine_id : MachineId) (cluster_cidr : string)
    (subnet_prefix_len : N) : run (result string Ipv4Net) :=
  match ipnet_parse cluster_cidr with
  | None => Done (Err ("invalid cluster CIDR '" +:+ cluster_cidr +:+ "': " +:+ addr_parse_error cluster_cidr))
  | Some cluster =>
      let allocated := omap (fun m => if decide (mr_id m = local_machine_id) then None else mr_subnet m) machines in
      match ipam_allocate (ipam_with_allocated cluster subnet_prefix_len allocated) with
      | Done (Some subnet, _) => Done (Ok subnet)
      | Done (None, _) => Done (Err "no available subnets for local heal")
      | Panic => Panic
      | OutOfFuel => OutOfFuel
      end
  end.
End groups.

(** ** Groups of claimants *)

Lemma claim_groups_lookup machines subnet :
  foldl add_claim ∅ machines !! subnet =
  match claimants machines subnet with [] => None | ids => Some ids end.
Proof.
  unfold claimants. induction machines as [|m machines IH] using rev_ind; [done|].
  rewrite foldl_app, filter_app, fmap_app. simpl. rewrite filter_cons, filter_nil. unfold add_claim at 1.
  destruct (mr_subnet m) as [s|] eqn:Hs; [|by rewrite app_nil_r].
  destruct (decide (s = subnet)) as [->|Hne].
  - rewrite lookup_insert_eq, IH, decide_True by done. simpl.
    by destruct (mr_id <$> filter _ machines).
  - rewrite lookup_insert_ne by done. rewrite IH, decide_False by congruence. simpl. by rewrite app_nil_r.
Qed.

Section laws.
Context `{Ipnet}.

Lemma elem_of_groups machines subnet ids :
  (subnet, ids) ∈ duplicate_subnet_groups machines <->
  (2 <= length (claimants machines subnet))%nat /\ ids = sort_strings (claimants machines subnet).
Proof.
  unfold duplicate_subnet_groups. rewrite list_elem_of_omap. setoid_rewrite elem_of_sort_by. split.
  - intros ([s l] & Hl & Hs). apply elem_of_map_to_list in Hl. rewrite claim_groups_lookup in Hl.
    destruct (Nat.ltb_spec (length l) 2); [done|]. injection Hs as -> <-.
    destruct (claimants machines subnet); [done|]. by injection Hl as <-.
  - intros [Hlen ->]. exists (subnet, claimants machines subnet). split.
    + apply elem_of_map_to_list. rewrite claim_groups_lookup.
      destruct (claimants machines subnet); [simpl in Hlen; lia|done].
    + by destruct (Nat.ltb_spec (length (claimants machines subnet)) 2); [lia|].
Qed.

Lemma find_conflict_spec local groups c :
  (forall g g', g ∈ groups -> g' ∈ groups -> local ∈ g.2 -> local ∈ g'.2 -> g = g') ->
  find_conflict local groups = Some c <->
  exists rest, (lc_subnet c, lc_winner_machine_id c :: rest) ∈ groups /\ local ∈ rest /\
    lc_winner_machine_id c <> local.
Proof.
  induction groups as [|[s ids] groups IH]; intros Huniq; simpl.
  { split; [done|]. by intros (rest & ?%elem_of_nil & _). }
  assert (forall g g', g ∈ groups -> g' ∈ groups -> local ∈ g.2 -> local ∈ g'.2 -> g = g') as Huniq'.
  { intros g g' Hg Hg'. apply Huniq; by right. }
  specialize (IH Huniq'). destruct ids as [|w ids].
  - rewrite IH. setoid_rewrite elem_of_cons. naive_solver.
  - case_decide as Hw; [|case_decide as Hin].
    + subst w. split; [done|]. intros (rest & Hg & Hr & Hne). exfalso. apply Hne.
      assert ((lc_subnet c, lc_winner_machine_id c :: rest) = (s, local :: ids)) as [= _ -> _]; [|done].
      apply Huniq; [done|by left|by right|by left].
    + split.
      * intros [= <-]. exists ids. simpl. split; [by left|]. split; [set_solver|done].
      * intros (rest & Hg & Hr & Hne).
        assert ((lc_subnet c, lc_winner_machine_id c :: rest) = (s, w :: ids)) as [= <- <- _].
        { apply Huniq; [done|by left|by right|done]. }
        by destruct c.
    + rewrite IH. split; [intros (rest & ? & ?); exists rest; split; [by right|done]|].
      intros (rest & [[= -> -> ->]|?]%elem_of_cons & Hr & ?); [|eauto].
      exfalso. apply Hin. by right.
Qed.

Lemma elem_of_claimants machines subnet id :
  id ∈ claimants machines subnet <-> exists m, m ∈ machines /\ mr_id m = id /\ mr_subnet m = Some subnet.
Proof.
  unfold claimants. rewrite list_elem_of_fmap. setoid_rewrite list_elem_of_filter. naive_solver.
Qed.

Lemma claimants_NoDup machines subnet : NoDup (mr_id <$> machines) -> NoDup (claimants machines subnet).
Proof. intros Hnd. eapply sublist_NoDup; [exact Hnd|]. apply fmap_sublist, sublist_filter. Qed.

(** The least claimant wins. *)
Lemma subnet_claim_winner_spec machines subnet w :
  subnet_claim_winner machines subnet = Some w ->
  w ∈ claimants machines subnet /\ forall id, id ∈ claimants machines subnet -> cmp_le str_cmp w id.
Proof.
  unfold subnet_claim_winner. destruct (sort_strings _) as [|w' rest] eqn:E; [done|]. intros [= ->].
  by apply (sort_by_head str_cmp) in E.
Qed.

(** A machine is in conflict exactly when it claims a subnet that another
    machine with a smaller id claims too. *)
Lemma conflict_spec machines local c :
  NoDup (mr_id <$> machines) ->
  local_duplicate_subnet_conflict machines local = Some c <->
  local ∈ claimants machines (lc_subnet c) /\
  subnet_claim_winner machines (lc_subnet c) = Some (lc_winner_machine_id c) /\
  lc_winner_machine_id c <> local.
Proof.
  intros Hnd. unfold local_duplicate_subnet_conflict. rewrite find_conflict_spec.
  - unfold subnet_claim_winner. setoid_rewrite elem_of_groups. split.
    + intros (rest & [Hlen Hs] & Hr & Hne). rewrite <- Hs. split_and!; [|done..].
      apply (elem_of_sort_by str_cmp). change (sort_by str_cmp) with sort_strings. rewrite <- Hs. by right.
    + intros (Hin & Hw & Hne). destruct (sort_strings _) as [|w rest] eqn:Hs; [done|]. injection Hw as ->.
      assert (local ∈ lc_winner_machine_id c :: rest) as Hl.
      { rewrite <- Hs. by apply (elem_of_sort_by str_cmp). }
      exists rest. apply elem_of_cons in Hl as [?|Hl]; [congruence|]. split_and!; [|done..].
      rewrite <- (length_sort_by str_cmp). change (sort_by str_cmp) with sort_strings. rewrite Hs.
      destruct rest; [by apply elem_of_nil in Hl|simpl; lia].
  - intros [s ids] [s' ids'] [_ ->]%elem_of_groups [_ ->]%elem_of_groups Hg Hg'. simpl in Hg, Hg'.
    apply (elem_of_sort_by str_cmp), elem_of_claimants in Hg as (m & Hm & Hid & Hs).
    apply (elem_of_sort_by str_cmp), elem_of_claimants in Hg' as (m' & Hm' & Hid' & Hs').
    assert (m = m') as -> by (apply (NoDup_fmap_elem mr_id machines); congruence). congruence.
Qed.
End laws.

(** ** Convergence *)

(** The record [reserve_local_subnet_claim] publishes. *)
Definition claim_subnet (target_subnet : Ipv4Net) (now : N) (r : MachineRecord) : MachineRecord := {|
  mr_id := mr_id r; mr_public_key := mr_public_key r; mr_overlay_ip := mr_overlay_ip r;
  mr_subnet := Some target_subnet; mr_bridge_ip := mr_bridge_ip r; mr_endpoints := mr_endpoints r;
  mr_status := mr_status r; mr_participation := Disabled; mr_last_heartbeat := mr_last_heartbeat r;
  mr_created_at := mr_created_at r; mr_updated_at := now; mr_labels := mr_labels r |}.

Definition claimed (machines : list MachineRecord) : gset Ipv4Net := list_to_set (omap mr_subnet machines).

Section converge.
Context `{Build} `{IpnetLaws} (addr_parse_error : string -> string) (cluster_cidr : string) (prefix_len : N).
Local Notation replacement := (fun machines id =>
  allocate_replacement_subnet addr_parse_error machines id cluster_cidr prefix_len).

(** What machine [m] publishes when it plans a heal on the list [machines]. *)
Definition plan_claim (machines : list MachineRecord) (now : N) (m : MachineRecord) : MachineRecord :=
  match local_duplicate_subnet_conflict machines (mr_id m), replacement machines (mr_id m) with
  | Some _, Done (Ok target) => claim_subnet target now m
  | _, _ => m
  end.

(** A round: some of the machines plan at once, on the same machine list, and
    at least one of them moves. *)
Inductive heal_round : list MachineRecord -> list MachineRecord -> Prop :=
| heal_round_plan machines (planners : gset string) now m c target :
    m ∈ machines -> mr_id m ∈ planners ->
    local_duplicate_subnet_conflict machines (mr_id m) = Some c ->
    replacement machines (mr_id m) = Done (Ok target) ->
    heal_round machines
      ((fun m => if decide (mr_id m ∈ planners) then plan_claim machines now m else m) <$> machines).

Context (cluster : Ipv4Net) (Hcidr : ipnet_parse cluster_cidr = Some cluster)
  (Hwf : ipam_wf (ipam_new cluster prefix_len)).

Lemma elem_of_claimed machines s : s ∈ claimed machines <-> exists m, m ∈ machines /\ mr_subnet m = Some s.
Proof. unfold claimed. by rewrite elem_of_list_to_set, list_elem_of_omap. Qed.

(** What a machine in conflict finds taken is everything claimed: its own
    subnet is claimed by the winner as well. *)
Lemma conflict_allocated machines id c :
  NoDup (mr_id <$> machines) -> local_duplicate_subnet_conflict machines id = Some c ->
  list_to_set (omap (fun m => if decide (mr_id m = id) then None else mr_subnet m) machines) = claimed machines.
Proof.
  intros Hnd Hc. apply conflict_spec in Hc as (Hin & Hw & Hne); [|done].
  apply set_eq. intros s. rewrite elem_of_claimed, elem_of_list_to_set, list_elem_of_omap. split.
  - intros (m & Hm & Hs). case_decide; [done|]. eauto.
  - intros (m & Hm & Hs). destruct (decide (mr_id m = id)) as [Hid|?]; [|exists m; by rewrite decide_False].
    apply elem_of_claimants in Hin as (m' & Hm' & Hid' & Hs').
    assert (m' = m) as -> by (apply (NoDup_fmap_elem mr_id machines); congruence).
    apply subnet_claim_winner_spec in Hw as [(w & Hwin & Hwid & Hws)%elem_of_claimants _].
    exists w. split; [done|]. rewrite decide_False by congruence. congruence.
Qed.

Lemma replacement_claimed machines id c target :
  NoDup (mr_id <$> machines) -> local_duplicate_subnet_conflict machines id = Some c ->
  replacement machines id = Done (Ok target) <->
  fst (first_free {| ipam_cluster := cluster; ipam_prefix_len := prefix_len; ipam_allocated := claimed machines |}
         (ipam_candidates (ipam_new cluster prefix_len))) = Some target.
Proof.
  intros Hnd Hc. unfold allocate_replacement_subnet. rewrite Hcidr. unfold ipam_with_allocated.
  rewrite (conflict_allocated _ _ _ Hnd Hc). rewrite ipam_allocate_eq by (destruct Hwf; by constructor).
  change (ipam_candidates _) with (ipam_candidates (ipam_new cluster prefix_len)).
  destruct (first_free _ _) as [[t|] i]; simpl; naive_solver.
Qed.

Lemma replacement_fresh machines id c target :
  NoDup (mr_id <$> machines) -> local_duplicate_subnet_conflict machines id = Some c ->
  replacement machines id = Done (Ok target) -> target ∉ claimed machines.
Proof.
  intros Hnd Hc Hr. apply (replacement_claimed _ _ _ _ Hnd Hc) in Hr.
  destruct (first_free _ _) as [t i] eqn:E. simpl in Hr. subst t. by apply first_free_Some in E as (_ & ? & _).
Qed.

(** All machines that plan on the same list move to the same subnet. *)
Lemma plan_claim_cases machines id c target now m :
  NoDup (mr_id <$> machines) -> local_duplicate_subnet_conflict machines id = Some c ->
  replacement machines id = Done (Ok target) ->
  match local_duplicate_subnet_conflict machines (mr_id m) with
  | Some _ => plan_claim machines now m = claim_subnet target now m
  | None => plan_claim machines now m = m
  end.
Proof.
  intros Hnd Hc Hr. unfold plan_claim.
  destruct (local_duplicate_subnet_conflict machines (mr_id m)) as [c'|] eqn:Hc'; [|done].
  apply (replacement_claimed _ _ _ _ Hnd Hc) in Hr.
  by rewrite (proj2 (replacement_claimed _ _ _ _ Hnd Hc') Hr).
Qed.

Lemma winner_exists machines s : s ∈ claimed machines -> exists w, subnet_claim_winner machines s = Some w.
Proof.
  intros (m & Hm & Hs)%elem_of_claimed. unfold subnet_claim_winner.
  destruct (sort_strings (claimants machines s)) as [|w rest] eqn:E; [|eauto].
  exfalso. apply (proj1 (sort_by_nil_iff str_cmp (claimants machines s))) in E.
  assert (mr_id m ∈ claimants machines s) as Hin by (apply elem_of_claimants; eauto).
  rewrite E in Hin. by apply elem_of_nil in Hin.
Qed.

(** The winner of a subnet is not in conflict. *)
Lemma winner_no_conflict machines s w :
  NoDup (mr_id <$> machines) -> subnet_claim_winner machines s = Some w ->
  local_duplicate_subnet_conflict machines w = None.
Proof.
  intros Hnd Hw. destruct (local_duplicate_subnet_conflict machines w) as [c|] eqn:Hc; [|done]. exfalso.
  apply conflict_spec in Hc as (Hin & Hw' & Hne); [|done].
  apply elem_of_claimants in Hin as (m & Hm & Hid & Hs).
  pose proof (proj1 (subnet_claim_winner_spec _ _ _ Hw)) as (m' & Hm' & Hid' & Hs')%elem_of_claimants.
  assert (m = m') as -> by (apply (NoDup_fmap_elem mr_id machines); congruence).
  assert (lc_subnet c = s) as Heq by congruence. rewrite Heq, Hw in Hw'. congruence.
Qed.

(** A round claims one more subnet, and every subnet keeps its winner. *)
Lemma heal_round_spec machines machines' :
  NoDup (mr_id <$> machines) -> heal_round machines machines' ->
  mr_id <$> machines' = mr_id <$> machines /\
  (forall s w, subnet_claim_winner machines s = Some w -> w ∈ claimants machines' s) /\
  exists target, target ∉ claimed machines /\ claimed machines' = {[target]} ∪ claimed machines.
Proof.
  intros Hnd Hround. destruct Hround as [machines planners now m c target Hm Hp Hc Hr].
  set (step m := if decide (mr_id m ∈ planners) then plan_claim machines now m else m).
  pose proof (fun x => plan_claim_cases machines (mr_id m) c target now x Hnd Hc Hr) as Hcases.
  assert (forall m, mr_id (step m) = mr_id m) as Hid.
  { intros x. unfold step. case_decide; [|done].
    specialize (Hcases x).
    by destruct (local_duplicate_subnet_conflict machines (mr_id x)); rewrite Hcases. }
  assert (forall s w, subnet_claim_winner machines s = Some w -> w ∈ claimants (step <$> machines) s) as Hkeep.
  { intros s w Hw. pose proof (winner_no_conflict _ _ _ Hnd Hw) as Hnc.
    apply subnet_claim_winner_spec in Hw as [(x & Hx & Hxid & Hxs)%elem_of_claimants _].
    apply elem_of_claimants. exists x. split_and!; [|done..].
    apply list_elem_of_fmap. exists x. split; [|done]. unfold step. case_decide; [|done].
    specialize (Hcases x). rewrite Hxid, Hnc in Hcases. by rewrite Hcases. }
  split_and!; [|done|].
  - rewrite <- list_fmap_compose. apply list_fmap_ext. intros i x _. apply Hid.
  - exists target. split; [by eapply replacement_fresh|]. apply set_eq. intros s.
    rewrite elem_of_union, elem_of_singleton, elem_of_claimed. split.
    + intros (y & (x & -> & Hx)%list_elem_of_fmap & Hs). unfold step in Hs.
      case_decide; [|right; apply elem_of_claimed; eauto].
      specialize (Hcases x).
      destruct (local_duplicate_subnet_conflict machines (mr_id x)); rewrite Hcases in Hs; simpl in Hs;
        [left; congruence|right; apply elem_of_claimed; eauto].
    + intros [->|Hs].
      * exists (step m). split; [by apply list_elem_of_fmap_2|]. unfold step. rewrite decide_True by done.
        specialize (Hcases m). rewrite Hc in Hcases. by rewrite Hcases.
      * destruct (winner_exists _ _ Hs) as [w Hw]. apply Hkeep, elem_of_claimants in Hw as (y & Hy & _ & Hys).
        eauto.
Qed.

Lemma claimed_size machines : size (claimed machines) <= length machines.
Proof.
  unfold claimed. induction machines as [|m machines IH]; csimpl; [done|].
  destruct (mr_subnet m) as [s|]; simpl; [|lia]. rewrite size_union_alt, size_singleton.
  apply le_n_S. etrans; [|exact IH]. apply subseteq_size. set_solver.
Qed.

Lemma heal_rounds_spec k machines machines' :
  NoDup (mr_id <$> machines) -> nsteps heal_round k machines machines' ->
  mr_id <$> machines' = mr_id <$> machines /\ size (claimed machines') = k + size (claimed machines).
Proof.
  intros Hnd Hsteps. induction Hsteps as [ms|k ms ms1 ms2 Hround _ IH]; [done|].
  destruct (heal_round_spec _ _ Hnd Hround) as (Hids & _ & target & Hfresh & Hcl).
  rewrite Hids in IH. destruct (IH Hnd) as [IH1 IH2]. split; [by rewrite IH1|].
  rewrite IH2, Hcl, size_union, size_singleton by set_solver. lia.
Qed.

(** As long as claims clash and a subnet is free, some machine can move. *)
Lemma heal_round_progress machines :
  NoDup (mr_id <$> machines) -> duplicate_subnet_groups machines <> [] ->
  (exists s, s ∈ ipam_candidates (ipam_new cluster prefix_len) /\ s ∉ claimed machines) ->
  exists machines', heal_round machines machines'.
Proof.
  intros Hnd Hdup (s & Hs & Hfree).
  destruct (duplicate_subnet_groups machines) as [|[g ids] groups] eqn:Hg; [done|]. clear Hdup.
  assert ((g, ids) ∈ duplicate_subnet_groups machines) as [Hlen _]%elem_of_groups by (rewrite Hg; left).
  pose proof (claimants_NoDup machines g Hnd) as Hndg.
  destruct (sort_strings (claimants machines g)) as [|w [|id rest]] eqn:Hsort.
  1,2: rewrite <- (length_sort_by str_cmp) in Hlen; change (sort_by str_cmp) with sort_strings in Hlen;
       rewrite Hsort in Hlen; simpl in Hlen; lia.
  assert (id ∈ claimants machines g) as Hid by (apply (elem_of_sort_by str_cmp); change (sort_by str_cmp) with sort_strings; rewrite Hsort; set_solver).
  assert (w <> id) as Hne.
  { rewrite <- (sort_by_perm str_cmp) in Hndg. change (sort_by str_cmp) with sort_strings in Hndg.
    rewrite Hsort in Hndg. apply NoDup_cons in Hndg as [Hw _]. set_solver. }
  pose proof Hid as (m & Hm & Hmid & _)%elem_of_claimants.
  assert (local_duplicate_subnet_conflict machines id = Some {| lc_subnet := g; lc_winner_machine_id := w |}) as Hc.
  { apply conflict_spec; [done|]. unfold subnet_claim_winner. simpl. by rewrite Hsort. }
  destruct (first_free {| ipam_cluster := cluster; ipam_prefix_len := prefix_len; ipam_allocated := claimed machines |}
         (ipam_candidates (ipam_new cluster prefix_len))) as [[t|] i] eqn:Hff.
  2:{ exfalso. unfold first_free in Hff. destruct (list_find _ _) as [[]|] eqn:E; [done|].
      apply list_find_None in E. rewrite Forall_forall in E. by apply (E s). }
  eexists. eapply (heal_round_plan machines {[id]} 0 m); [done|set_solver|by rewrite Hmid|].
  rewrite Hmid. apply (replacement_claimed _ _ _ _ Hnd Hc). by rewrite Hff.
Qed.

(** C22: Subnet conflicts heal.  Suppose machines plan on the machine list as it
    is, one after the other or any number at once (they then pick the same
    replacement subnet and clash again).  In each such round every subnet keeps
    its winner, the claimant with the least id, and one more subnet is claimed;
    so there are fewer rounds than machines.  As long as two machines claim one
    subnet and the cluster has a free one, another round is possible: after at
    most that many rounds no two machines claim the same subnet. *)
Theorem heal_converges (machines : list MachineRecord) :
  NoDup (mr_id <$> machines) ->
  (forall k machines', nsteps heal_round k machines machines' ->
     mr_id <$> machines' = mr_id <$> machines /\ k + size (claimed machines) <= length machines) /\
  (forall machines' machines'', rtc heal_round machines machines' -> heal_round machines' machines'' ->
     forall s w, subnet_claim_winner machines' s = Some w -> w ∈ claimants machines'' s) /\
  (forall machines', rtc heal_round machines machines' ->
     duplicate_subnet_groups machines' <> [] ->
     (exists s, s ∈ ipam_candidates (ipam_new cluster prefix_len) /\ s ∉ claimed machines') ->
     exists machines'', heal_round machines' machines'').
Proof.
  intros Hnd.
  assert (forall machines', rtc heal_round machines machines' -> NoDup (mr_id <$> machines')) as Hids.
  { intros ms' [k Hk]%rtc_nsteps. by rewrite (proj1 (heal_rounds_spec _ _ _ Hnd Hk)). }
  split_and!.
  - intros k ms' Hk. destruct (heal_rounds_spec _ _ _ Hnd Hk) as [Hi Hs]. split; [done|].
    rewrite <- Hs, <- (length_fmap mr_id machines), <- Hi, length_fmap. apply claimed_size.
  - intros ms' ms'' Hr Hround. by apply (heal_round_spec ms' ms'' (Hids _ Hr) Hround).
  - intros ms' Hr. by apply heal_round_progress, Hids.
Qed.
End converge.

(** ** The daemon's handler *)

Definition SUBNET_HEAL_COOLDOWN_SECS : N := 10.
Definition SUBNET_HEAL_SETTLE_SECS : N := 10.

Record SubnetHealAttempt := { sa_network_subnet : Ipv4Net; sa_target_subnet : Ipv4Net; sa_attempted_at : N }.
Record PendingSubnetHeal := { ph_network_subnet : Ipv4Net; ph_target_subnet : Ipv4Net; ph_planned_at : N }.
Record LocalSubnetHealPlan := {
  lp_current_subnet : Ipv4Net; lp_winner_machine_id : MachineId; lp_target_subnet : Ipv4Net
}.

(** The part of [DaemonState] the handler uses: the subnet of the active
    network's configuration, the planned heal and the last attempt. *)
Record HealState := {
  hs_active : option Ipv4Net;
  hs_pending : option PendingSubnetHeal;
  hs_last_attempt : option SubnetHealAttempt
}.
Definition set_pending (p : option PendingSubnetHeal) (s : HealState) : HealState :=
  {| hs_active := hs_active s; hs_pending := p; hs_last_attempt := hs_last_attempt s |}.
Definition set_attempt (a : option SubnetHealAttempt) (s : HealState) : HealState :=
  {| hs_active := hs_active s; hs_pending := hs_pending s; hs_last_attempt := a |}.
Definition set_active_subnet (n : Ipv4Net) (s : HealState) : HealState :=
  {| hs_active := Some n; hs_pending := hs_pending s; hs_last_attempt := hs_last_attempt s |}.

(** The updates of the local record. *)
Definition down_for_heal (claimed_subnet : Ipv4Net) (now : N) (r : MachineRecord) : MachineRecord := {|
  mr_id := mr_id r; mr_public_key := mr_public_key r; mr_overlay_ip := mr_overlay_ip r;
  mr_subnet := Some claimed_subnet; mr_bridge_ip := mr_bridge_ip r; mr_endpoints := mr_endpoints r;
  mr_status := MsDown; mr_participation := Disabled; mr_last_heartbeat := now;
  mr_created_at := mr_created_at r; mr_updated_at := now; mr_labels := mr_labels r |}.
Definition healed_record (subnet : Ipv4Net) (now : N) (r : MachineRecord) : MachineRecord := {|
  mr_id := mr_id r; mr_public_key := mr_public_key r; mr_overlay_ip := mr_overlay_ip r;
  mr_subnet := Some subnet; mr_bridge_ip := mr_bridge_ip r; mr_endpoints := mr_endpoints r;
  mr_status := mr_status r; mr_participation := mr_participation r; mr_last_heartbeat := mr_last_heartbeat r;
  mr_created_at := mr_created_at r; mr_updated_at := now; mr_labels := mr_labels r |}.
Inductive SelfUpdate := UClaim (subnet : Ipv4Net) (now : N) | UDown (subnet : Ipv4Net) (now : N)
                      | UHealed (subnet : Ipv4Net) (now : N).
Definition apply_self_update (u : SelfUpdate) : MachineRecord -> MachineRecord :=
  match u with
  | UClaim subnet now => claim_subnet subnet now
  | UDown subnet now => down_for_heal subnet now
  | UHealed subnet now => healed_record subnet now
  end.

Inductive HealCall :=
| HPhase | HStoreHealthy | HListMachines | HNow
| HUpdateSelf (u : SelfUpdate) | HUpsertSelf (r : MachineRecord)
| HParticipationOverride (p : option Participation)
| HBeginOperation (target : Ipv4Net) | HEndOperation (ok : bool)
| HLoadConfig | HSaveConfig (subnet : Ipv4Net)
| HStopWorkloads (subnet : Ipv4Net) | HRestartRuntime | HStartWorkloads (subnet : Ipv4Net).

(** Answers of the environment.  [update_authoritative_self_record] answers with
    the local record before the update, if there is one and the writer accepts. *)
Record HealEnv := {
  he_phase : list HealCall -> Phase;
  he_healthy : list HealCall -> bool;
  he_machines : list HealCall -> Res (list MachineRecord);
  he_now : list HealCall -> N;
  he_self : list HealCall -> option MachineRecord;
  he_config : list HealCall -> result string Ipv4Net;      (* the stored configuration's subnet *)
  he_restart : list HealCall -> result string Ipv4Net;     (* the subnet the runtime restarted with *)
  he_unit : list HealCall -> HealCall -> result string unit
}.

Definition H (A : Type) : Type := eff HealState HealCall string A.
Local Open Scope eff_scope.

Section heal.
Context `{Build} `{Ipnet} (addr_parse_error : string -> string) (env : HealEnv)
  (local_machine_id : MachineId) (cluster_cidr : string) (subnet_prefix_len : N) (memory_mode : bool).

Definition heal_call (c : HealCall) : H unit := mcall (fun log => he_unit env log c) c.
Definition heal_now : H N := mcall (fun log => Ok (he_now env log)) HNow.

Definition update_self (u : SelfUpdate) : H MachineRecord :=
  answer <-! mcall (fun log => Ok (he_self env log)) (HUpdateSelf u) ;;
  match answer with
  | None => mfail "local authoritative self record missing"
  | Some record => mret (apply_self_update u record)
  end.

Definition set_local_participation_override (p : option Participation) : H unit :=
  active <-! mget hs_active ;;
  match active with
  | None => mfail "no running network"
  | Some _ => heal_call (HParticipationOverride p)
  end.

Definition reserve_local_subnet_claim (target_subnet : Ipv4Net) : H unit :=
  active <-! mget hs_active ;;
  match active with
  | None => mfail "no running network"
  | Some _ =>
      now <-! heal_now ;;
      record <-! update_self (UClaim target_subnet now) ;;
      _ <-! heal_call (HUpsertSelf record) ;;
      set_local_participation_override (Some Disabled)
  end.

(** [restart_active_mesh_for_subnet_heal]; the runtime restart itself is a call. *)
Definition restart_active_mesh_for_subnet_heal (claimed_subnet : Ipv4Net) : H unit :=
  now <-! heal_now ;;
  record <-! update_self (UDown claimed_subnet now) ;;
  _ <-! heal_call (HUpsertSelf record) ;;
  active <-! mget hs_active ;;
  old <-! mlift (ok_or active "no running network") ;;
  _ <-! heal_call (HStopWorkloads old) ;;
  restarted <-! mcall (he_restart env) HRestartRuntime ;;
  _ <-! mput (set_active_subnet restarted) ;;
  heal_call (HStartWorkloads restarted).

Definition apply_local_subnet_heal_in_memory_mode : H unit :=
  subnet <-! mcall (he_config env) HLoadConfig ;;
  _ <-! mput (set_active_subnet subnet) ;;
  now <-! heal_now ;;
  record <-! update_self (UHealed subnet now) ;;
  _ <-! heal_call (HUpsertSelf record) ;;
  set_local_participation_override None.

Definition apply_local_subnet_heal (plan : LocalSubnetHealPlan) : H unit :=
  active <-! mget hs_active ;;
  _ <-! mlift (ok_or active "no running network") ;;
  _ <-! mcall (he_config env) HLoadConfig ;;
  _ <-! heal_call (HSaveConfig (lp_target_subnet plan)) ;;
  if memory_mode then apply_local_subnet_heal_in_memory_mode
  else restart_active_mesh_for_subnet_heal (lp_target_subnet plan).

(** Plan a replacement subnet, reserve it and remember it; failures are logged.
    The handler itself returns nothing: its only error is a panic of the
    allocator. *)
Definition plan_replacement (machines : list MachineRecord) (network_subnet : Ipv4Net) (now : N) : H unit :=
  match allocate_replacement_subnet addr_parse_error machines local_machine_id cluster_cidr subnet_prefix_len with
  | Done (Err _) => mret tt
  | Done (Ok target) =>
      reserved <-! mtry (reserve_local_subnet_claim target) ;;
      match reserved with
      | Err _ => mret tt
      | Ok _ => mput (set_pending (Some {| ph_network_subnet := network_subnet; ph_target_subnet := target;
                                           ph_planned_at := now |}))
      end
  | Panic | OutOfFuel => mfail "panic in Ipam::allocate"
  end.

Definition healing_in_progress (active_subnet : Ipv4Net) (pending : option PendingSubnetHeal)
    : option PendingSubnetHeal :=
  match pending with
  | Some p => if decide (ph_network_subnet p = active_subnet /\ ph_target_subnet p <> active_subnet)
              then Some p else None
  | None => None
  end.

Definition in_cooldown (plan : LocalSubnetHealPlan) (now : N) (last : option SubnetHealAttempt) : bool :=
  match last with
  | Some a => bool_decide (sa_network_subnet a = lp_current_subnet plan) &&
              bool_decide (sa_target_subnet a = lp_target_subnet plan) &&
              (now - sa_attempted_at a <? SUBNET_HEAL_COOLDOWN_SECS)%N
  | None => false
  end.

(** The last part of the handler: carry out the plan. *)
Definition attempt_heal (plan : LocalSubnetHealPlan) (now : N) : H unit :=
  _ <-! mput (set_pending None) ;;
  _ <-! mput (set_attempt (Some {| sa_network_subnet := lp_current_subnet plan;
                                   sa_target_subnet := lp_target_subnet plan; sa_attempted_at := now |})) ;;
  operation <-! mtry (heal_call (HBeginOperation (lp_target_subnet plan))) ;;
  healed <-! mtry (apply_local_subnet_heal plan) ;;
  match operation with
  | Ok _ => _ <-! mtry (heal_call (HEndOperation (is_ok healed))) ;; mret tt
  | Err _ => mret tt
  end.

(** With a planned heal: replan, wait, or attempt it. *)
Definition continue_heal (machines : list MachineRecord) (active_subnet : Ipv4Net) (pending : PendingSubnetHeal)
    (now : N) : H unit :=
  if decide (target_subnet_winner machines local_machine_id (ph_target_subnet pending) <> local_machine_id) then
    plan_replacement machines active_subnet now
  else if (now - ph_planned_at pending <? SUBNET_HEAL_SETTLE_SECS)%N then mret tt
  else
    let plan := {| lp_current_subnet := active_subnet;
                   lp_winner_machine_id := default local_machine_id (subnet_claim_winner machines active_subnet);
                   lp_target_subnet := ph_target_subnet pending |} in
    last <-! mget hs_last_attempt ;;
    if in_cooldown plan now last then mret tt else attempt_heal plan now.

(** [heal_local_subnet_conflict_if_needed]. *)
Definition heal_local_subnet_conflict_if_needed : H unit :=
  active <-! mget hs_active ;;
  match active with
  | None => _ <-! mput (set_pending None) ;; mput (set_attempt None)
  | Some active_subnet =>
      phase <-! mcall (fun log => Ok (he_phase env log)) HPhase ;;
      if decide (phase <> Running) then mret tt else
      healthy <-! mcall (fun log => Ok (he_healthy env log)) HStoreHealthy ;;
      if negb healthy then mret tt else
      listed <-! mcall (fun log => Ok (he_machines env log)) HListMachines ;;
      match listed with
      | Err _ => mret tt
      | Ok machines =>
          if decide (local_machine_id ∉ mr_id <$> machines) then mret tt else
          pending <-! mget hs_pending ;;
          let in_progress := healing_in_progress active_subnet pending in
          if decide (duplicate_subnet_groups machines = [] /\ in_progress = None) then
            _ <-! mtry (set_local_participation_override None) ;;
            _ <-! mput (set_pending None) ;;
            mput (set_attempt None)
          else
          now <-! heal_now ;;
          match in_progress with
          | Some pending => continue_heal machines active_subnet pending now
          | None =>
              match local_duplicate_subnet_conflict machines local_machine_id with
              | None => _ <-! mtry (set_local_participation_override None) ;; mput (set_pending None)
              | Some conflict => plan_replacement machines (lc_subnet conflict) now
              end
          end
      end
  end.
End heal.

(** ** What the handler does *)

(** A replacement is claimed by no other machine, whatever the build. *)
Lemma replacement_unclaimed `{Build} `{Ipnet} err machines local cidr p target :
  allocate_replacement_subnet err machines local cidr p = Done (Ok target) ->
  forall m, m ∈ machines -> mr_id m <> local -> mr_subnet m <> Some target.
Proof.
  unfold allocate_replacement_subnet. intros Ha m Hm Hne Hs.
  destruct (ipnet_parse cidr) as [cluster|]; [|done].
  destruct (ipam_allocate _) as [[[t|] i]| |] eqn:E; try done. injection Ha as ->.
  apply ipam_allocate_fresh in E. apply E. simpl. apply elem_of_list_to_set, list_elem_of_omap.
  exists m. by rewrite decide_False.
Qed.

(** The calls of a reservation and of an attempt. *)
Definition reserving (target : Ipv4Net) (c : HealCall) : Prop :=
  match c with
  | HNow | HParticipationOverride _ | HUpsertSelf _ => True
  | HUpdateSelf (UClaim t _) => t = target
  | _ => False
  end.
Definition attempting (target : Ipv4Net) (c : HealCall) : Prop :=
  match c with
  | HPhase | HStoreHealthy | HListMachines | HUpdateSelf (UClaim _ _) => False
  | HSaveConfig t | HBeginOperation t | HUpdateSelf (UDown t _) => t = target
  | _ => True
  end.

Section heal_laws.
Context `{Build} `{Ipnet} (addr_parse_error : string -> string) (env : HealEnv)
  (local_machine_id : MachineId) (cluster_cidr : string) (prefix_len : N) (memory_mode : bool).

Lemma reserve_spec target s log :
  wp (reserve_local_subnet_claim env target) (fun r s' log' => s' = s /\
    exists new, log' = log ++ new /\ Forall (reserving target) new /\
      (is_ok r = true -> exists record, HUpsertSelf record ∈ new /\ mr_subnet record = Some target)) s log.
Proof.
  unfold reserve_local_subnet_claim, set_local_participation_override, update_self, heal_call, heal_now.
  wp_steps; rewrite <- ?app_assoc; (split; [done|]); eexists;
    (split; [first [reflexivity | symmetry; apply app_nil_r]|]); (split; [by repeat constructor|]); try done.
  all: intros _; eexists; split; [right; right; left|done].
Qed.

Lemma attempt_emits plan now : emits (attempting (lp_target_subnet plan)) (attempt_heal env memory_mode plan now).
Proof.
  unfold attempt_heal, apply_local_subnet_heal, apply_local_subnet_heal_in_memory_mode,
    restart_active_mesh_for_subnet_heal, set_local_participation_override, update_self, heal_call, heal_now.
  repeat emits_step.
Qed.

Lemma attempt_clears plan now s log :
  wp (attempt_heal env memory_mode plan now) (fun _ s' _ => hs_pending s' = None) s log.
Proof.
  unfold attempt_heal. do 4 wp_step.
  eapply (wp_mono _ (fun _ s' _ => hs_pending s' = None)); [|done].
  assert (preserves hs_pending
    (operation <-! mtry (heal_call env (HBeginOperation (lp_target_subnet plan))) ;;
     healed <-! mtry (apply_local_subnet_heal env memory_mode plan) ;;
     match operation with
     | Ok _ => _ <-! mtry (heal_call env (HEndOperation (is_ok healed))) ;; mret tt
     | Err _ => mret tt
     end)) as Hp.
  { unfold apply_local_subnet_heal, apply_local_subnet_heal_in_memory_mode,
      restart_active_mesh_for_subnet_heal, set_local_participation_override, update_self, heal_call, heal_now.
    repeat preserves_step. }
  eapply wp_mono; [apply Hp|]. by intros r s' log' ->.
Qed.

(** What one run of the handler may do, given the machines it listed and the
    time it read: claim a subnet nobody else claims, when the machine lost its
    own or its planned one; or restart on the planned subnet, when it has been
    planned for the settle time and no machine with a smaller id claims it. *)
Definition heal_allowed (s : HealState) (machines : list MachineRecord) (now : N) (c : HealCall) : Prop :=
  let settled target := exists active p,
    hs_active s = Some active /\ hs_pending s = Some p /\ ph_network_subnet p = active /\
    ph_target_subnet p <> active /\ target = ph_target_subnet p /\
    (ph_planned_at p + SUBNET_HEAL_SETTLE_SECS <= now)%N /\
    (forall id, id ∈ claimants machines (ph_target_subnet p) -> cmp_le str_cmp local_machine_id id) in
  match c with
  | HUpdateSelf (UClaim target _) =>
      (forall m, m ∈ machines -> mr_id m <> local_machine_id -> mr_subnet m <> Some target) /\
      ((exists c, local_duplicate_subnet_conflict machines local_machine_id = Some c) \/
       exists p, hs_pending s = Some p /\
         target_subnet_winner machines local_machine_id (ph_target_subnet p) <> local_machine_id)
  | HSaveConfig target | HBeginOperation target | HUpdateSelf (UDown target _) => settled target
  | HStopWorkloads _ | HRestartRuntime | HStartWorkloads _ | HUpdateSelf (UHealed _ _) =>
      exists target, settled target
  | _ => True
  end.

(** How the planned heal changes. *)
Definition pending_change (s s' : HealState) (now : N) (calls : list HealCall) : Prop :=
  hs_pending s' = hs_pending s \/ hs_pending s' = None \/
  exists p record, hs_pending s' = Some p /\ ph_planned_at p = now /\
    HUpsertSelf record ∈ calls /\ mr_subnet record = Some (ph_target_subnet p).

Definition heal_post (s : HealState) (machines : list MachineRecord) (now : N) (log : list HealCall)
    (s' : HealState) (log' : list HealCall) : Prop :=
  exists calls, log' = log ++ calls /\ Forall (heal_allowed s machines now) calls /\ pending_change s s' now calls.

Lemma heal_post_quiet s machines now log new s' log' :
  log' = log ++ new -> Forall (heal_allowed s machines now) new ->
  hs_pending s' = hs_pending s \/ hs_pending s' = None -> heal_post s machines now log s' log'.
Proof. intros -> Hn Hs. exists new. unfold pending_change. naive_solver. Qed.

Lemma heal_post_app s machines now log new s' log' :
  Forall (heal_allowed s machines now) new ->
  heal_post s machines now (log ++ new) s' log' -> heal_post s machines now log s' log'.
Proof.
  intros Hnew (calls & -> & Hn & Hp). exists (new ++ calls). split; [by rewrite app_assoc|].
  split; [by apply Forall_app|]. unfold pending_change in *.
  destruct Hp as [?|[?|(p & rec & ? & ? & ? & ?)]]; [by left|by right; left|].
  right. right. exists p, rec. split_and!; try done. set_solver.
Qed.

Lemma target_winner_least machines target :
  target_subnet_winner machines local_machine_id target = local_machine_id ->
  forall id, id ∈ claimants machines target -> cmp_le str_cmp local_machine_id id.
Proof.
  unfold target_subnet_winner. intros Hw id Hid.
  destruct (sort_strings _) as [|w rest] eqn:E.
  - apply (proj1 (sort_by_nil_iff str_cmp _)) in E. by apply app_nil in E as [_ ?].
  - subst w. apply (sort_by_head str_cmp) in E as [_ Hall]. apply Hall. set_solver.
Qed.

Lemma plan_replacement_spec machines subnet now s log :
  ((exists c, local_duplicate_subnet_conflict machines local_machine_id = Some c) \/
   exists p, hs_pending s = Some p /\
     target_subnet_winner machines local_machine_id (ph_target_subnet p) <> local_machine_id) ->
  wp (plan_replacement addr_parse_error env local_machine_id cluster_cidr prefix_len machines subnet now)
    (fun _ s' log' => heal_post s machines now log s' log') s log.
Proof.
  intros Hwhy. unfold plan_replacement.
  destruct (allocate_replacement_subnet _ _ _ _ _) as [[target|e]| |] eqn:Ha.
  2-4: first [apply wp_ret|apply wp_fail]; exists []; split; [by rewrite app_nil_r|]; split; [done|by left].
  do 2 wp_step. eapply wp_mono; [apply reserve_spec|]. intros r s' log' [-> (new & -> & Hn & Hr)].
  assert (Forall (heal_allowed s machines now) new) as Hall.
  { eapply Forall_impl; [exact Hn|]. intros c Hc. destruct c as [| | | |[t n|t n|t n]| | | | | | | | |]; try done.
    simpl in Hc. subst t. split; [|done]. by eapply replacement_unclaimed. }
  destruct r as [[]|e].
  - wp_step. exists new. split_and!; [done..|]. right. right.
    destruct (Hr eq_refl) as (record & Hrec & Hsub). eexists _, record. split; [done|]. done.
  - wp_step. exists new. split_and!; [done..|]. by left.
Qed.

Lemma continue_heal_spec machines active pending now s log :
  hs_active s = Some active -> hs_pending s = Some pending ->
  ph_network_subnet pending = active -> ph_target_subnet pending <> active ->
  wp (continue_heal addr_parse_error env local_machine_id cluster_cidr prefix_len memory_mode machines active pending now)
    (fun _ s' log' => heal_post s machines now log s' log') s log.
Proof.
  intros Ha Hp Hnet Htarget. unfold continue_heal. case_decide as Hwin.
  { apply plan_replacement_spec. right. eauto. }
  destruct (N.ltb_spec (now - ph_planned_at pending) SUBNET_HEAL_SETTLE_SECS) as [_|Hsettled].
  { wp_step. exists []. split; [by rewrite app_nil_r|]. split; [done|by left]. }
  do 2 wp_step. wp_step.
  { wp_step. exists []. split; [by rewrite app_nil_r|]. split; [done|by left]. }
  eapply wp_mono; [apply wp_and; [apply attempt_emits|apply attempt_clears]|].
  intros r s' log' [(new & -> & Hn) Hcleared]. exists new. split; [done|]. split; [|right; by left].
  eapply Forall_impl; [exact Hn|].
  assert (exists active p, hs_active s = Some active /\ hs_pending s = Some p /\ ph_network_subnet p = active /\
    ph_target_subnet p <> active /\ ph_target_subnet pending = ph_target_subnet p /\
    (ph_planned_at p + SUBNET_HEAL_SETTLE_SECS <= now)%N /\
    (forall id, id ∈ claimants machines (ph_target_subnet p) -> cmp_le str_cmp local_machine_id id)) as Hset.
  { exists active, pending. split_and!; try done; [unfold SUBNET_HEAL_SETTLE_SECS in *; lia|].
    by apply target_winner_least. }
  intros c Hc. destruct c as [| | | |[t n|t n|t n]| | | | | | | | |]; simpl in Hc |- *; try done;
    first [by subst; exact Hset | by exists (ph_target_subnet pending)].
Qed.

(** A machine heals its subnet carefully.  Whatever the store, the runtime
    and the configuration answer, one run of the handler claims a subnet only if
    no other machine it listed claims it, and only when its own subnet or its
    planned one belongs to a machine with a smaller id; it saves a new
    configuration, stops workloads and restarts only onto the subnet planned
    before, at least ten seconds after planning it, when no machine with a
    smaller id claims that subnet; and a plan is made only together with a
    published claim of its target. *)
Theorem heal_guard (s : HealState) (log : list HealCall) :
  let machines := default [] (ok (he_machines env (log ++ [HPhase; HStoreHealthy]))) in
  let now := he_now env (log ++ [HPhase; HStoreHealthy; HListMachines]) in
  wp (heal_local_subnet_conflict_if_needed addr_parse_error env local_machine_id cluster_cidr prefix_len memory_mode)
    (fun _ s' log' => heal_post s machines now log s' log') s log.
Proof.
  intros machines now. unfold heal_local_subnet_conflict_if_needed.
  do 2 wp_step. destruct (hs_active s) as [active|] eqn:Ha; cbv beta iota.
  2:{ wp_steps. apply (heal_post_quiet _ _ _ _ []); [by rewrite app_nil_r|done|by right]. }
  apply wp_bind, wp_call. cbv beta iota. wp_step; [wp_step; by eapply heal_post_quiet; [done|repeat constructor|left]|].
  apply wp_bind, wp_call. cbv beta iota. rewrite <- app_assoc. simpl.
  wp_step; [wp_step; by eapply heal_post_quiet; [done|repeat constructor|left]|].
  apply wp_bind, wp_call. cbv beta iota. rewrite <- app_assoc. simpl.
  destruct (he_machines env (log ++ [HPhase; HStoreHealthy])) as [ms|e] eqn:Hms; simpl in machines;
    [|wp_step; by eapply heal_post_quiet; [done|repeat constructor|left]].
  wp_step; [wp_step; by eapply heal_post_quiet; [done|repeat constructor|left]|].
  do 2 wp_step. destruct (decide (duplicate_subnet_groups ms = [] /\ _)) as [Hdup|Hdup].
  - unfold set_local_participation_override, heal_call. wp_steps; rewrite <- ?app_assoc;
      (eapply heal_post_quiet; [reflexivity|by repeat constructor|by right]).
  - apply wp_bind, wp_call. cbv beta iota. rewrite <- app_assoc. simpl. fold now machines.
    eapply wp_mono; [|intros r s' log'; by apply (heal_post_app _ _ _ _ [HPhase; HStoreHealthy; HListMachines; HNow]); repeat constructor].
    destruct (healing_in_progress active (hs_pending s)) as [p|] eqn:Hprog.
    + unfold healing_in_progress in Hprog. destruct (hs_pending s) as [q|] eqn:Hq; [|done].
      case_decide as Hd; [|done]. injection Hprog as ->. destruct Hd. by apply continue_heal_spec.
    + destruct (local_duplicate_subnet_conflict machines local_machine_id) as [c|] eqn:Hc.
      * apply plan_replacement_spec. eauto.
      * unfold set_local_participation_override, heal_call. wp_steps;
          (eexists; split; [first [reflexivity|symmetry; apply app_nil_r]|]);
          (split; [by repeat constructor|right; by left]).
Qed.
End heal_laws.

(** ** Witnesses *)

(** Three machines that all claim 10.210.0.0/24. *)
Definition heal_machines : list MachineRecord :=
  (fun id => machine_seed id [1%N] [253%N] (Some (sample_subnet 0)) []) <$> ["m2"; "m1"; "m3"].

Lemma heal_cidr : @ipnet_parse ref_ipnet "10.210.0.0/16" = Some (mkNet 181534720 16).
Proof. vm_compute. reflexivity. Qed.

Lemma heal_cluster_wf : @ipam_wf ref_ipnet (ipam_new (mkNet 181534720 16) 24).
Proof. split; vm_compute; repeat split; discriminate. Qed.

Lemma heal_converges_witness :
  (exists machines', @heal_round debug_build ref_ipnet (fun _ => "") "10.210.0.0/16" 24 heal_machines machines') /\
  (forall k machines', nsteps (@heal_round debug_build ref_ipnet (fun _ => "") "10.210.0.0/16" 24) k
     heal_machines machines' -> k + size (claimed heal_machines) <= length heal_machines).
Proof.
  destruct (@heal_converges debug_build ref_ipnet ref_ipnet_laws (fun _ => "") "10.210.0.0/16" 24
    (mkNet 181534720 16) heal_cidr heal_cluster_wf heal_machines) as (Hbound & _ & Hprogress).
  { apply (bool_decide_unpack _). vm_compute. exact I. }
  split.
  - apply (Hprogress heal_machines); [apply rtc_refl|vm_compute; discriminate|].
    exists (sample_subnet 1). split; apply (bool_decide_unpack _); vm_compute; exact I.
  - intros k machines' Hk. exact (proj2 (Hbound k machines' Hk)).
Defined.
