(* ===== verification/Ebpf.v ===== *)
(** * Routes of the eBPF dataplane

    [mesh/tasks/ebpf_sync.rs]: the task that keeps the dataplane's route table,
    one entry per remote machine's subnet, in step with the machine events.  The
    dataplane is its table; a call that fails is only logged by the task and
    leaves the table as it is. *)

From S2P Require Import Prelude Order Text Types Ipam Store.

Inductive RouteCall := UpsertRoute (subnet : Ipv4Net) (ifindex : N) | RemoveRoute (subnet : Ipv4Net).

Section ebpf.
Context (wg_ifindex : N) (local_machine_id : MachineId).

(** Seeding from the snapshot. *)
Definition ebpf_seed (snapshot : list MachineRecord) : list RouteCall :=
  omap (fun machine =>
          if decide (mr_id machine = local_machine_id) then None
          else match mr_subnet machine with Some subnet => Some (UpsertRoute subnet wg_ifindex) | None => None end)
    snapshot.

(** One event. *)
Definition ebpf_event (event : MachineEvent) : option RouteCall :=
  match event with
  | MeAdded m | MeUpdated m =>
      if decide (mr_id m = local_machine_id) then None
      else match mr_subnet m with Some subnet => Some (UpsertRoute subnet wg_ifindex) | None => None end
  | MeRemoved m =>
      if decide (mr_id m = local_machine_id) then None
      else match mr_subnet m with Some subnet => Some (RemoveRoute subnet) | None => None end
  end.

(** The dataplane's table after a call that succeeds. *)
Definition run_route (table : gmap Ipv4Net N) (c : RouteCall) : gmap Ipv4Net N :=
  match c with
  | UpsertRoute subnet ifindex => <[subnet := ifindex]> table
  | RemoveRoute subnet => delete subnet table
  end.

(** The subnets that should be routed. *)
Definition remote_subnet (machines : gmap string MachineRecord) (s : Ipv4Net) : Prop :=
  exists id r, machines !! id = Some r /\ id <> local_machine_id /\ mr_subnet r = Some s.

(** The store's machines and a dataplane, as the task sees them: a snapshot and
    then events, the calls run one after another by [run] from [empty].  A machine
    keeps its subnet, which satisfies [valid], and a machine that leaves shares
    its subnet with no other remote machine. *)
Section reach.
Context {T : Type} (valid : Ipv4Net -> Prop) (empty : T) (run : T -> RouteCall -> T).

Inductive ebpf_reach : gmap string MachineRecord -> T -> Prop :=
| ebpf_start machines :
    map_Forall (fun k r => mr_id r = k) machines ->
    (forall k r s, machines !! k = Some r -> mr_subnet r = Some s -> valid s) ->
    ebpf_reach machines (foldl run empty (ebpf_seed (map_to_list machines).*2))
| ebpf_upsert machines table r event :
    ebpf_reach machines table -> event = MeAdded r \/ event = MeUpdated r ->
    (forall old, machines !! mr_id r = Some old -> mr_subnet old = mr_subnet r) ->
    (forall s, mr_subnet r = Some s -> valid s) ->
    ebpf_reach (apply_machine_event_to machines event) (from_option (run table) table (ebpf_event event))
| ebpf_remove machines table r :
    ebpf_reach machines table -> machines !! mr_id r = Some r ->
    (forall s, mr_subnet r = Some s -> ~ remote_subnet (delete (mr_id r) machines) s) ->
    ebpf_reach (apply_machine_event_to machines (MeRemoved r))
      (from_option (run table) table (ebpf_event (MeRemoved r))).

Lemma ebpf_reach_valid machines t :
  ebpf_reach machines t -> forall k r s, machines !! k = Some r -> mr_subnet r = Some s -> valid s.
Proof.
  induction 1 as [|machines t r event _ IH Hev _ Hv|machines t r _ IH _ _]; [done| |].
  - assert (apply_machine_event_to machines event = <[mr_id r := r]> machines) as -> by (by destruct Hev as [-> | ->]).
    intros k x s [[_ <-]|[_ Hx]]%lookup_insert_Some; eauto.
  - simpl. intros k x s [_ Hx]%lookup_delete_Some. eauto.
Qed.
End reach.

Definition call_subnet (c : RouteCall) : Ipv4Net := match c with UpsertRoute s _ | RemoveRoute s => s end.

Definition call_target (c : RouteCall) : Prop := match c with UpsertRoute _ i => i = wg_ifindex | RemoveRoute _ => True end.

(** A dataplane whose calls simulate another one's reaches related states. *)
Lemma ebpf_reach_simulation {T U : Type} (valid : Ipv4Net -> Prop) (R : T -> U -> Prop) e1 run1 e2 run2 :
  R e1 e2 ->
  (forall c t u, valid (call_subnet c) -> call_target c -> R t u -> R (run1 t c) (run2 u c)) ->
  forall machines t, ebpf_reach valid e1 run1 machines t -> exists u, ebpf_reach valid e2 run2 machines u /\ R t u.
Proof.
  intros He Hrun machines t. induction 1 as [machines Hk Hv|machines t r event _ (u & Hu & HR) Hev Hold Hv
    |machines t r Hr (u & Hu & HR) Hl Hlast].
  - eexists. split; [by apply ebpf_start|].
    assert (Forall (fun c => valid (call_subnet c) /\ call_target c) (ebpf_seed (map_to_list machines).*2)) as Hc.
    { apply Forall_forall. intros c (m & (k & Hm)%map_values_elem & Hf)%list_elem_of_omap.
      repeat (case_match; try done). simplify_eq. split; [simpl; eauto|done]. }
    revert Hc. generalize (ebpf_seed (map_to_list machines).*2). intros cs. revert e1 e2 He.
    induction cs as [|c cs IH]; intros t u HR; [done|]. intros [[? ?] ?]%Forall_cons. simpl. apply IH; [|done]. by apply Hrun.
  - eexists. split; [by eapply ebpf_upsert|].
    assert (ebpf_event event = ebpf_event (MeAdded r)) as -> by (by destruct Hev as [-> | ->]).
    unfold ebpf_event. repeat (case_match; simpl; try done). apply Hrun; simpl; auto.
  - eexists. split; [by eapply ebpf_remove|]. simpl. repeat (case_match; simpl; try done).
    apply Hrun; simpl; [|done..]. by eapply ebpf_reach_valid.
Qed.

Lemma seed_lookup snapshot table s :
  foldl run_route table (ebpf_seed snapshot) !! s =
  if decide (Exists (fun m => mr_id m <> local_machine_id /\ mr_subnet m = Some s) snapshot)
  then Some wg_ifindex else table !! s.
Proof.
  revert table. induction snapshot as [|m snapshot IH]; intros table; csimpl; [done|].
  destruct (decide (mr_id m = local_machine_id)) as [Hl|Hr]; [|destruct (mr_subnet m) as [t|] eqn:Ht; simpl].
  - rewrite IH. apply decide_ext. rewrite Exists_cons. naive_solver.
  - rewrite IH. destruct (decide (t = s)) as [->|Hne]; simpl.
    + rewrite lookup_insert_eq. rewrite (decide_True (P := Exists _ (m :: _))) by (by left). by case_decide.
    + rewrite lookup_insert_ne by done. apply decide_ext. rewrite Exists_cons. naive_solver.
  - rewrite IH. apply decide_ext. rewrite Exists_cons. naive_solver.
Qed.

Lemma remote_subnet_insert machines r s :
  mr_id r <> local_machine_id ->
  (forall old, machines !! mr_id r = Some old -> mr_subnet old = mr_subnet r) ->
  remote_subnet (<[mr_id r := r]> machines) s <-> mr_subnet r = Some s \/ remote_subnet machines s.
Proof.
  intros Hr Hold. unfold remote_subnet. split.
  - intros (id & x & Hx & Hid & Hs). destruct (decide (id = mr_id r)) as [->|Hne].
    + rewrite lookup_insert_eq in Hx. injection Hx as ->. by left.
    + rewrite lookup_insert_ne in Hx by done. eauto 10.
  - intros [Hs|(id & x & Hx & Hid & Hs)]; [by exists (mr_id r), r; rewrite lookup_insert_eq|].
    destruct (decide (id = mr_id r)) as [->|Hne].
    + exists (mr_id r), r. rewrite lookup_insert_eq. split_and!; try done. by rewrite <- (Hold _ Hx).
    + exists id, x. by rewrite lookup_insert_ne.
Qed.

Lemma remote_subnet_insert_local machines r s :
  mr_id r = local_machine_id -> remote_subnet (<[mr_id r := r]> machines) s <-> remote_subnet machines s.
Proof.
  intros Hr. unfold remote_subnet. split; intros (id & x & Hx & Hid & Hs); exists id, x.
  - by rewrite lookup_insert_ne in Hx by congruence.
  - by rewrite lookup_insert_ne by congruence.
Qed.

Lemma remote_subnet_delete machines r s :
  machines !! mr_id r = Some r ->
  (forall s, mr_subnet r = Some s -> ~ remote_subnet (delete (mr_id r) machines) s) ->
  remote_subnet (delete (mr_id r) machines) s <->
  remote_subnet machines s /\ ~ (mr_id r <> local_machine_id /\ mr_subnet r = Some s).
Proof.
  intros Hr Hlast. split.
  - intros Hs. split; [|intros [_ Hrs]; by apply (Hlast s)].
    destruct Hs as (id & x & Hx & ? & ?). apply lookup_delete_Some in Hx as [? ?]. by exists id, x.
  - intros [(id & x & Hx & Hid & Hs) Hn]. destruct (decide (id = mr_id r)) as [->|Hne].
    + rewrite Hx in Hr. injection Hr as ->. naive_solver.
    + exists id, x. by rewrite lookup_delete_ne.
Qed.

(** The dataplane routes exactly the remote machines' subnets.  As long as
    the calls succeed, no machine changes its subnet and no machine leaves while
    another remote one claims the same subnet, the table has an entry for a
    subnet exactly when a remote machine of the store claims it, and the entry
    leads to the WireGuard interface. *)
Theorem ebpf_routes_exact valid (machines : gmap string MachineRecord) (table : gmap Ipv4Net N) :
  ebpf_reach valid ∅ run_route machines table ->
  forall s ifindex, table !! s = Some ifindex <-> ifindex = wg_ifindex /\ remote_subnet machines s.
Proof.
  intros Hreach. induction Hreach as [machines Hwf _|machines table r event _ IH Hev Hold _|machines table r _ IH Hr Hlast];
    intros s i.
  - rewrite seed_lookup, lookup_empty.
    assert (Exists (fun m => mr_id m <> local_machine_id /\ mr_subnet m = Some s) (map_to_list machines).*2 <->
            remote_subnet machines s) as Hiff.
    { rewrite Exists_exists. setoid_rewrite map_values_elem. unfold remote_subnet. split.
      - intros (x & (k & Hk) & Hx). exists k, x. by rewrite (Hwf _ _ Hk) in Hx.
      - intros (k & x & Hk & Hx). exists x. pose proof (Hwf _ _ Hk) as Hid. simpl in Hid. rewrite Hid. eauto. }
    case_decide; naive_solver.
  - assert (apply_machine_event_to machines event = <[mr_id r := r]> machines) as -> by (by destruct Hev as [-> | ->]).
    assert (ebpf_event event = ebpf_event (MeAdded r)) as -> by (by destruct Hev as [-> | ->]).
    unfold ebpf_event. case_decide as Hl; simpl; [by rewrite IH, remote_subnet_insert_local|].
    rewrite remote_subnet_insert by done. destruct (mr_subnet r) as [t|] eqn:Ht; simpl; [|rewrite IH; naive_solver].
    rewrite lookup_insert_Some, IH. destruct (decide (t = s)); naive_solver.
  - simpl. rewrite remote_subnet_delete by done. case_decide as Hl; simpl; [rewrite IH; naive_solver|].
    destruct (mr_subnet r) as [t|] eqn:Ht; simpl; [|rewrite IH; naive_solver].
    rewrite lookup_delete_Some, IH. naive_solver.
Qed.
End ebpf.

(** ** Witnesses *)

Definition ebpf_machine (id : string) (k : N) : MachineRecord :=
  machine_seed id [1%N] [253%N] (Some (sample_subnet k)) [].

Lemma ebpf_routes_exact_witness :
  foldl run_route ∅ (ebpf_seed 7 "m1" (map_to_list ({[ "m2" := ebpf_machine "m2" 1 ]} : gmap string MachineRecord)).*2)
    !! sample_subnet 1 = Some 7%N.
Proof.
  apply (ebpf_routes_exact 7 "m1" (fun _ => True) {[ "m2" := ebpf_machine "m2" 1 ]}).
  - apply ebpf_start; [apply map_Forall_singleton; reflexivity|done].
  - split; [reflexivity|]. exists "m2", (ebpf_machine "m2" 1). split; [vm_compute; reflexivity|].
    split; [discriminate|reflexivity].
Defined.

(** The two conditions are needed.  When a remote machine moves to another
    subnet (as healing a duplicate claim makes it do), the route to its old
    subnet stays in the table; and when one of two machines with the same subnet
    leaves, the route of the one that stays is removed. *)
Example ebpf_stale_route :
  let table := foldl run_route ∅ (ebpf_seed 7 "m1" [ebpf_machine "m2" 1; ebpf_machine "m3" 1]) in
  let moved := from_option (run_route table) table (ebpf_event 7 "m1" (MeUpdated (ebpf_machine "m3" 2))) in
  let moved' := from_option (run_route moved) moved (ebpf_event 7 "m1" (MeUpdated (ebpf_machine "m3" 3))) in
  let left_ := from_option (run_route table) table (ebpf_event 7 "m1" (MeRemoved (ebpf_machine "m3" 1))) in
  moved' !! sample_subnet 2 = Some 7%N /\ left_ !! sample_subnet 1 = None.
Proof. vm_compute. split; reflexivity. Qed.
