(* ===== verification/Dataplane.v ===== *)
(** * The eBPF dataplane

    [ebpf/src/main.rs], the classifiers that run in the kernel on every packet of
    the container bridge: they read the packet's bytes, look the destination up
    in the route table and redirect it to WireGuard, and they report packets when
    observation is on.  [ebpf-common]: the tables' keys, entries and events.
    [ployz-bpfctl/src/linux.rs]: the tool that attaches the classifiers and edits
    the pinned tables.  [runtime-backends/src/mesh/dataplane.rs]: the daemon's
    dataplane, either native or through the tool run in the WireGuard container.

    The programs are built for little-endian targets ([bpfel]): a [u32] read from
    memory has its first byte lowest.  The kernel, Docker and the loader answer
    through [KernelEnv]; the maps' contents are the state. *)

From S2P Require Import Prelude Order Effect Text Types IpnetRef Ipam Store Mesh Ebpf.
Local Open Scope string_scope.
Local Open Scope eff_scope.
#[local] Arguments String.append !_ _ : simpl nomatch.

(** ** Machine words in memory *)

Fixpoint le_value (bs : list N) : N := match bs with [] => 0 | b :: bs => b + 256 * le_value bs end.
Fixpoint le_bytes (n : nat) (x : N) : list N :=
  match n with O => [] | S n => (x mod 256 :: le_bytes n (x / 256))%N end.

(** [to_be] and [from_be] on a little-endian machine. *)
Definition swap_bytes (n : nat) (x : N) : N := le_value (reverse (le_bytes n x)).

(** ** The tables ([ebpf-common]) *)

Record RouteKey := mkRouteKey { rk_network : N; rk_prefix_len : N }.
#[global] Instance RouteKey_eq_dec : EqDecision RouteKey.
Proof. solve_decision. Defined.
#[global] Program Instance RouteKey_countable : Countable RouteKey :=
  inj_countable' (fun k => (rk_network k, rk_prefix_len k)) (fun '(a, p) => mkRouteKey a p) _.
Next Obligation. by intros []. Qed.

Record RouteEntry := mkRouteEntry { re_ifindex : N }.

Record PacketEvent := mkPacketEvent {
  pe_ts_ns : N; pe_src_addr : list N; pe_dst_addr : list N; pe_src_port : N; pe_dst_port : N;
  pe_pkt_len : N; pe_proto : N; pe_direction : N
}.

(** The maps of the loaded object; an array's element is zero until it is set. *)
Record BpfMaps := mkBpfMaps { bm_routes : gmap RouteKey RouteEntry; bm_wg_ifindex : N; bm_observe_flag : N }.
Definition fresh_maps : BpfMaps := {| bm_routes := ∅; bm_wg_ifindex := 0; bm_observe_flag := 0 |}.
Definition with_routes (f : gmap RouteKey RouteEntry -> gmap RouteKey RouteEntry) (m : BpfMaps) : BpfMaps :=
  {| bm_routes := f (bm_routes m); bm_wg_ifindex := bm_wg_ifindex m; bm_observe_flag := bm_observe_flag m |}.
Definition with_wg_ifindex (v : N) (m : BpfMaps) : BpfMaps :=
  {| bm_routes := bm_routes m; bm_wg_ifindex := v; bm_observe_flag := bm_observe_flag m |}.
Definition with_observe_flag (v : N) (m : BpfMaps) : BpfMaps :=
  {| bm_routes := bm_routes m; bm_wg_ifindex := bm_wg_ifindex m; bm_observe_flag := v |}.

(** ** The classifiers ([ebpf/src/main.rs]) *)

(** A packet: its bytes and the length the kernel gives for it. *)
Record TcContext := mkTcContext { ctx_data : list N; ctx_len : N }.
(** [ctx.load] of a value of [size] bytes. *)
Definition load (ctx : TcContext) (offset size : nat) : option (list N) :=
  if decide (offset + size <= length (ctx_data ctx)) then Some (take size (drop offset (ctx_data ctx))) else None.

Definition EthHdr_LEN : nat := 14.
Inductive EtherType := Ipv4Type | Ipv6Type | OtherType.
Definition ether_type (ethhdr : list N) : EtherType :=
  match drop 12 ethhdr with
  | [8; 0] => Ipv4Type
  | [134; 221] => Ipv6Type
  | _ => OtherType
  end%N.

(** The fields of the 20-byte IPv4 header the programs read; the addresses are
    in network byte order. *)
Record Ipv4Hdr := mkIpv4Hdr { v4_proto : N; v4_src_addr : N; v4_dst_addr : N }.
Definition load_ipv4 (ctx : TcContext) : option Ipv4Hdr :=
  h ← load ctx EthHdr_LEN 20;
  Some {| v4_proto := nth 9 h 0%N; v4_src_addr := le_value (take 4 (drop 12 h));
          v4_dst_addr := le_value (take 4 (drop 16 h)) |}.

Definition u32_mask (prefix_len : N) : N := N.shiftl u32_max (32 - prefix_len) mod 4294967296.

Fixpoint lookup_prefixes (routes : gmap RouteKey RouteEntry) (dest_ip : N) (lens : list N) : option N :=
  match lens with
  | [] => None
  | prefix_len :: lens =>
      let mask := u32_mask prefix_len in
      let network := swap_bytes 4 (N.land dest_ip mask) in
      match routes !! mkRouteKey network prefix_len with
      | Some entry => Some (re_ifindex entry)
      | None => lookup_prefixes routes dest_ip lens
      end
  end.
Definition prefix_lens : list N := [32; 24; 16; 8]%N.

Definition try_classify_ipv4 (maps : BpfMaps) (ctx : TcContext) : option N :=
  iphdr ← load_ipv4 ctx;
  let dest_ip := swap_bytes 4 (v4_dst_addr iphdr) in
  lookup_prefixes (bm_routes maps) dest_ip prefix_lens.

Definition try_classify_ipv6 (maps : BpfMaps) (ctx : TcContext) : option N :=
  b ← load ctx (EthHdr_LEN + 24) 1;
  if (nth 0 b 0 =? 253)%N then Some (bm_wg_ifindex maps) else None.

Definition try_classify (maps : BpfMaps) (ctx : TcContext) : option N :=
  ethhdr ← load ctx 0 EthHdr_LEN;
  match ether_type ethhdr with
  | Ipv4Type => try_classify_ipv4 maps ctx
  | Ipv6Type => try_classify_ipv6 maps ctx
  | OtherType => None
  end.

Definition extract_ports (ctx : TcContext) (transport_offset : nat) (proto : N) : N * N :=
  if negb (proto =? 6)%N && negb (proto =? 17)%N then (0, 0)%N
  else match load ctx transport_offset 2 with
       | None => (0, 0)%N
       | Some src =>
           match load ctx (transport_offset + 2) 2 with
           | None => (0, 0)%N
           | Some dst => (swap_bytes 2 (le_value src), swap_bytes 2 (le_value dst))
           end
       end.

(** [::ffff:a.b.c.d] from an address in network byte order. *)
Definition v4_mapped (addr : N) : list N := (replicate 10 0%N ++ [255; 255]%N ++ le_bytes 4 addr)%list.

Definition build_ipv4_event (now : N) (ctx : TcContext) (direction : N) : option PacketEvent :=
  iphdr ← load_ipv4 ctx;
  let proto := v4_proto iphdr in
  let '(src_port, dst_port) := extract_ports ctx (EthHdr_LEN + 20) proto in
  Some {| pe_ts_ns := now; pe_src_addr := v4_mapped (v4_src_addr iphdr); pe_dst_addr := v4_mapped (v4_dst_addr iphdr);
          pe_src_port := src_port; pe_dst_port := dst_port; pe_pkt_len := ctx_len ctx; pe_proto := proto;
          pe_direction := direction |}.

Definition build_ipv6_event (now : N) (ctx : TcContext) (direction : N) : option PacketEvent :=
  ip6hdr ← load ctx EthHdr_LEN 40;
  let proto := nth 6 ip6hdr 0%N in
  let '(src_port, dst_port) := extract_ports ctx (EthHdr_LEN + 40) proto in
  Some {| pe_ts_ns := now; pe_src_addr := take 16 (drop 8 ip6hdr); pe_dst_addr := take 16 (drop 24 ip6hdr);
          pe_src_port := src_port; pe_dst_port := dst_port; pe_pkt_len := ctx_len ctx; pe_proto := proto;
          pe_direction := direction |}.

(** The event given to the kernel, if any. *)
Definition try_emit (maps : BpfMaps) (now : N) (ctx : TcContext) (direction : N) : option PacketEvent :=
  if negb (bm_observe_flag maps =? 1)%N then None
  else ethhdr ← load ctx 0 EthHdr_LEN;
       match ether_type ethhdr with
       | Ipv4Type => build_ipv4_event now ctx direction
       | Ipv6Type => build_ipv6_event now ctx direction
       | OtherType => None
       end.

Inductive TcAction := TC_ACT_OK | Redirect (ifindex : N).
#[global] Instance TcAction_eq_dec : EqDecision TcAction.
Proof. solve_decision. Defined.

Definition ployz_egress (maps : BpfMaps) (now : N) (ctx : TcContext) : TcAction * option PacketEvent :=
  let target := try_classify maps ctx in
  let event := try_emit maps now ctx 0 in
  (match target with Some ifindex => Redirect ifindex | None => TC_ACT_OK end, event).
Definition ployz_ingress (maps : BpfMaps) (now : N) (ctx : TcContext) : TcAction * option PacketEvent :=
  (TC_ACT_OK, try_emit maps now ctx 1).

(** ** Calls to the kernel, the loader and Docker *)

Inductive TcAttachType := Egress | Ingress.
Inductive ObserveMode := ObserveDisabled | ObserveEnabled.

Inductive KernelCall :=
| MountBpffs
| IfNameToIndex (ifname : string)
| LoadObject
| QdiscAddClsact (ifname : string)
| ProgramMut (name : string) | ProgramCast (name : string) | ProgramLoad (name : string)
| ProgramAttach (name ifname : string) (ty : TcAttachType)
| QdiscDetach (ifname name : string) (ty : TcAttachType)
| MapMut (name : string) | MapTryFrom (name : string) | MapFromPin (path : string)
| ArraySet (name : string) (value : N)
| RouteInsert (key : RouteKey) (entry : RouteEntry)
| RouteDelete (key : RouteKey)
| PinMap (name path : string) | PinProgram (name path : string)
| CreateDirAll (path : string) | RemoveFile (path : string) | RemoveDir (path : string)
| ResolveBridge
| DockerExec (args : list string).

(** [docker] could not be started, it failed without running the tool, or the
    tool ran. *)
Inductive ExecAnswer := SpawnFailed (error : string) | DockerFailed (status stderr : string) | ToolRan.

Record KernelEnv := {
  ke_answer : KernelCall -> list KernelCall -> result string unit;
  ke_ifindex : string -> list KernelCall -> N;
  ke_os_error : list KernelCall -> string;       (* the text of the last OS error *)
  ke_bridge : list KernelCall -> result Error string;
  ke_docker : list string -> list KernelCall -> ExecAnswer
}.

Section dataplane.
Context {IP : Ipnet} (env : KernelEnv).
(** The text of [ipnet]'s parse error. *)
Context (addr_parse_error : string).

Local Abbreviation T := (eff BpfMaps KernelCall string).
Local Abbreviation M := (eff BpfMaps KernelCall Error).

Definition kcall (c : KernelCall) : T unit := mcall (ke_answer env c) c.
(** A call whose error text becomes an [Error] of the given operation. *)
Definition kop (operation : string) (c : KernelCall) : M unit := mmap_err (Operation operation) (kcall c).
(** A call whose failure has a fixed message. *)
Definition kfound (operation message : string) (c : KernelCall) : M unit :=
  mmap_err (fun _ => Operation operation message) (kcall c).

(** [u32::from_str] and the text of its error. *)
Definition parse_u32 (s : string) : option N := n ← parse_u64 s; if (n <=? u32_max)%N then Some n else None.
Definition all_digits (s : string) : bool :=
  match s with EmptyString => false | _ => all_chars is_ascii_digit s end.
Definition parse_int_error (s : string) : string :=
  if is_empty s then "cannot parse integer from empty string"
  else if all_digits (match s with String "+" r => r | _ => s end) then "number too large to fit in target type"
  else "invalid digit found in string".

(** [CString::new]: the position of the first NUL byte. *)
Fixpoint nul_position (i : N) (s : string) : option N :=
  match s with
  | EmptyString => None
  | String c r => if ascii_dec c "000" then Some i else nul_position (i + 1) r
  end.

(** *** [ployz-bpfctl/src/linux.rs] *)

Definition PIN_PATH : string := "/sys/fs/bpf/ployz".

Definition subnet_to_key (subnet : Ipv4Net) : RouteKey :=
  {| rk_network := swap_bytes 4 (ipnet_network subnet); rk_prefix_len := net_prefix_len subnet |}.

Definition resolve_ifindex (ifname : string) : T N :=
  match nul_position 0 ifname with
  | Some i => mfail ("nul byte found in provided data at position: " +:+ dec i)
  | None =>
      idx <-! mcall (fun log => Ok (ke_ifindex env ifname log)) (IfNameToIndex ifname) ;;
      if (idx =? 0)%N then mfail ("interface " +:+ ifname +:+ " not found") else mret idx
  end.

Definition ensure_bpffs : T unit :=
  _ <-! ignore (kcall (CreateDirAll "/sys/fs/bpf")) ;;
  ignore (kcall MountBpffs).

(** [Ebpf::load]: a new object with maps of its own. *)
Definition load_object : T unit :=
  _ <-! kcall LoadObject ;;
  mput (fun _ => fresh_maps).

Definition ctl_attach_tc_classifier (program_name ifname : string) (attach_type : TcAttachType) : T unit :=
  _ <-! mmap_err (fun _ => program_name +:+ " not found") (kcall (ProgramMut program_name)) ;;
  _ <-! kcall (ProgramCast program_name) ;;
  _ <-! kcall (ProgramLoad program_name) ;;
  kcall (ProgramAttach program_name ifname attach_type).

Definition cmd_attach (args : list string) : T unit :=
  match args with
  | bridge :: wg_ifname :: _ =>
      wg_ifindex <-! resolve_ifindex wg_ifname ;;
      _ <-! ensure_bpffs ;;
      _ <-! load_object ;;
      _ <-! ignore (kcall (QdiscAddClsact bridge)) ;;
      _ <-! ctl_attach_tc_classifier "ployz_egress" bridge Egress ;;
      _ <-! ctl_attach_tc_classifier "ployz_ingress" bridge Ingress ;;
      _ <-! mmap_err (fun _ => "WG_IFINDEX map not found") (kcall (MapMut "WG_IFINDEX")) ;;
      _ <-! kcall (MapTryFrom "WG_IFINDEX") ;;
      _ <-! kcall (ArraySet "WG_IFINDEX" wg_ifindex) ;;
      _ <-! mput (with_wg_ifindex wg_ifindex) ;;
      _ <-! kcall (CreateDirAll PIN_PATH) ;;
      _ <-! mmap_err (fun _ => "ROUTES map not found") (kcall (MapMut "ROUTES")) ;;
      _ <-! kcall (PinMap "ROUTES" (PIN_PATH +:+ "/routes")) ;;
      _ <-! mmap_err (fun _ => "OBSERVE_FLAG map not found") (kcall (MapMut "OBSERVE_FLAG")) ;;
      _ <-! kcall (PinMap "OBSERVE_FLAG" (PIN_PATH +:+ "/observe_flag")) ;;
      egress <-! mtry (kcall (ProgramMut "ployz_egress")) ;;
      _ <-! (if is_ok egress then ignore (kcall (PinProgram "ployz_egress" (PIN_PATH +:+ "/egress"))) else mret tt) ;;
      ingress <-! mtry (kcall (ProgramMut "ployz_ingress")) ;;
      if is_ok ingress then ignore (kcall (PinProgram "ployz_ingress" (PIN_PATH +:+ "/ingress"))) else mret tt
  | _ => mfail "usage: attach <bridge-ifname> <wg-ifname>"
  end.

Definition cmd_detach (args : list string) : T unit :=
  match args with
  | bridge :: _ =>
      _ <-! ignore (kcall (QdiscDetach bridge "ployz_egress" Egress)) ;;
      _ <-! ignore (kcall (QdiscDetach bridge "ployz_ingress" Ingress)) ;;
      _ <-! ignore (kcall (RemoveFile (PIN_PATH +:+ "/routes"))) ;;
      _ <-! ignore (kcall (RemoveFile (PIN_PATH +:+ "/observe_flag"))) ;;
      _ <-! ignore (kcall (RemoveFile (PIN_PATH +:+ "/egress"))) ;;
      _ <-! ignore (kcall (RemoveFile (PIN_PATH +:+ "/ingress"))) ;;
      ignore (kcall (RemoveDir PIN_PATH))
  | _ => mfail "usage: detach <bridge-ifname>"
  end.

Definition open_routes_map : T unit :=
  _ <-! kcall (MapFromPin (PIN_PATH +:+ "/routes")) ;;
  kcall (MapTryFrom "ROUTES").

(** The map operations of the loader: the contents change when they succeed. *)
Definition routes_insert (key : RouteKey) (entry : RouteEntry) : T unit :=
  _ <-! kcall (RouteInsert key entry) ;;
  mput (with_routes (insert key entry)).
Definition routes_remove (key : RouteKey) : T unit :=
  _ <-! kcall (RouteDelete key) ;;
  mput (with_routes (delete key)).
Definition observe_flag_set (value : N) : T unit :=
  _ <-! kcall (ArraySet "OBSERVE_FLAG" value) ;;
  mput (with_observe_flag value).

Definition cmd_route (args : list string) : T unit :=
  match args with
  | [] => mfail "usage: route <add|del> <subnet> [ifindex]"
  | subcmd :: rest =>
      if decide (subcmd = "add") then
        match rest with
        | subnet_str :: ifindex_str :: _ =>
            subnet <-! mlift (ok_or (ipnet_parse subnet_str) addr_parse_error) ;;
            ifindex <-! mlift (ok_or (parse_u32 ifindex_str) (parse_int_error ifindex_str)) ;;
            _ <-! open_routes_map ;;
            routes_insert (subnet_to_key subnet) (mkRouteEntry ifindex)
        | _ => mfail "usage: route add <subnet> <ifindex>"
        end
      else if decide (subcmd = "del") then
        match rest with
        | subnet_str :: _ =>
            subnet <-! mlift (ok_or (ipnet_parse subnet_str) addr_parse_error) ;;
            _ <-! open_routes_map ;;
            ignore (routes_remove (subnet_to_key subnet))
        | _ => mfail "usage: route del <subnet>"
        end
      else mfail ("unknown route subcommand: " +:+ subcmd)
  end.

Definition cmd_observe (args : list string) : T unit :=
  match args with
  | [] => mfail "usage: observe <on|off>"
  | state :: _ =>
      value <-! (if decide (state = "on") then mret 1%N
                 else if decide (state = "off") then mret 0%N
                 else mfail ("unknown observe state: " +:+ state +:+ " (expected on|off)")) ;;
      _ <-! kcall (MapFromPin (PIN_PATH +:+ "/observe_flag")) ;;
      _ <-! kcall (MapTryFrom "OBSERVE_FLAG") ;;
      observe_flag_set value
  end.

Definition newline : string := String "010" "".

(** The tool's [main]: whether it exits with success, and its error output then
    on failure. *)
Definition bpfctl_main (args : list string) : T (bool * string) :=
  match args with
  | _ :: cmd :: rest =>
      let unknown := negb (bool_decide (cmd ∈ ["attach"; "detach"; "route"; "observe"])) in
      r <-! mtry (if decide (cmd = "attach") then cmd_attach rest
                  else if decide (cmd = "detach") then cmd_detach rest
                  else if decide (cmd = "route") then cmd_route rest
                  else if decide (cmd = "observe") then cmd_observe rest
                  else mfail "unknown command") ;;
      match r with
      | Ok _ => mret (true, "")
      | Err error => mret (false, (if unknown then "unknown command: " +:+ cmd +:+ newline else "") +:+
                                  "error: " +:+ error +:+ newline)
      end
  | _ => mret (false, "usage: ployz-bpfctl <attach|detach|route|observe> ..." +:+ newline)
  end.

(** *** [mesh/dataplane.rs]: through the container *)

Definition CTL_BIN : string := "/usr/local/bin/ployz-bpfctl".

Definition exec_failed (status stderr : string) : Error :=
  let stderr := trim stderr in
  Operation "ebpf exec" (if is_empty stderr then "exit code " +:+ status else stderr).

Definition exec (container_name : string) (cmd : list string) : M unit :=
  let full_cmd := (["exec"; "--privileged"; container_name; "nsenter"; "--net=/proc/1/ns/net"; "--"] ++ cmd)%list in
  output <-! mobserve (ke_docker env full_cmd) (fun _ => DockerExec full_cmd) ;;
  match output with
  | SpawnFailed error => mfail (Operation "ebpf exec" error)
  | DockerFailed status stderr => mfail (exec_failed status stderr)
  | ToolRan =>
      '(success, stderr) <-! mmap_err (Operation "") (bpfctl_main cmd) ;;
      if success : bool then mret tt else mfail (exec_failed "exit status: 1" stderr)
  end.

Definition container_attach (wg_container_name bridge_ifname wg_ifname : string) : M unit :=
  exec wg_container_name [CTL_BIN; "attach"; bridge_ifname; wg_ifname].
Definition container_set_observe (name : string) (mode : ObserveMode) : M unit :=
  exec name [CTL_BIN; "observe"; match mode with ObserveEnabled => "on" | ObserveDisabled => "off" end].
Definition container_upsert_route (name : string) (subnet : Ipv4Net) (ifindex : N) : M unit :=
  exec name [CTL_BIN; "route"; "add"; ipnet_to_string subnet; dec ifindex].
Definition container_remove_route (name : string) (subnet : Ipv4Net) : M unit :=
  ignore (exec name [CTL_BIN; "route"; "del"; ipnet_to_string subnet]).
Definition container_detach_ref (name bridge_ifname : string) : M unit :=
  ignore (exec name [CTL_BIN; "detach"; bridge_ifname]).

(** *** [mesh/dataplane.rs]: natively *)

Definition native_attach_tc_classifier (program_name ifname : string) (attach_type : TcAttachType) : M unit :=
  _ <-! kfound "ebpf" (program_name +:+ " program not found") (ProgramMut program_name) ;;
  _ <-! mmap_err (fun e => Operation "ebpf program cast" (program_name +:+ ": " +:+ e)) (kcall (ProgramCast program_name)) ;;
  _ <-! mmap_err (fun e => Operation "ebpf program load" (program_name +:+ ": " +:+ e)) (kcall (ProgramLoad program_name)) ;;
  mmap_err (fun e => Operation "ebpf program attach" (program_name +:+ ": " +:+ e))
    (kcall (ProgramAttach program_name ifname attach_type)).

Definition native_attach (bridge_ifname : string) : M unit :=
  _ <-! mmap_err (Operation "ebpf load") load_object ;;
  _ <-! ignore (kcall (QdiscAddClsact bridge_ifname)) ;;
  _ <-! native_attach_tc_classifier "ployz_egress" bridge_ifname Egress ;;
  native_attach_tc_classifier "ployz_ingress" bridge_ifname Ingress.

Definition native_set_observe (mode : ObserveMode) : M unit :=
  let value := match mode with ObserveDisabled => 0 | ObserveEnabled => 1 end%N in
  _ <-! kfound "ebpf" "OBSERVE_FLAG map not found" (MapMut "OBSERVE_FLAG") ;;
  _ <-! kop "ebpf map" (MapTryFrom "OBSERVE_FLAG") ;;
  mmap_err (Operation "ebpf observe set") (observe_flag_set value).

Definition native_upsert_route (subnet : Ipv4Net) (ifindex : N) : M unit :=
  _ <-! kfound "ebpf" "ROUTES map not found" (MapMut "ROUTES") ;;
  _ <-! kop "ebpf map" (MapTryFrom "ROUTES") ;;
  mmap_err (Operation "ebpf route insert") (routes_insert (subnet_to_key subnet) (mkRouteEntry ifindex)).

Definition native_remove_route (subnet : Ipv4Net) : M unit :=
  _ <-! kfound "ebpf" "ROUTES map not found" (MapMut "ROUTES") ;;
  _ <-! kop "ebpf map" (MapTryFrom "ROUTES") ;;
  ignore (routes_remove (subnet_to_key subnet)).

Definition native_detach_ref (bridge_ifname : string) : M unit :=
  _ <-! ignore (kcall (QdiscDetach bridge_ifname "ployz_egress" Egress)) ;;
  ignore (kcall (QdiscDetach bridge_ifname "ployz_ingress" Ingress)).

(** [resolve_ifindex] of the daemon. *)
Definition native_resolve_ifindex (ifname : string) : M N :=
  match nul_position 0 ifname with
  | Some i => mfail (Operation "if_nametoindex" ("nul byte found in provided data at position: " +:+ dec i))
  | None =>
      index <-! mcall (fun log => Ok (ke_ifindex env ifname log)) (IfNameToIndex ifname) ;;
      if (index =? 0)%N then
        os_error <-! (fun st => (Ok (ke_os_error env st.2), st)) ;;
        mfail (Operation "if_nametoindex" os_error)
      else mret index
  end.

(** *** The dataplane and its factory *)

Inductive EbpfDataplane := Native (bridge_ifname : string) | ViaContainer (container_name bridge_ifname : string).

Definition dp_set_observe (d : EbpfDataplane) (mode : ObserveMode) : M unit :=
  match d with Native _ => native_set_observe mode | ViaContainer name _ => container_set_observe name mode end.
Definition dp_upsert_route (d : EbpfDataplane) (subnet : Ipv4Net) (ifindex : N) : M unit :=
  match d with
  | Native _ => native_upsert_route subnet ifindex
  | ViaContainer name _ => container_upsert_route name subnet ifindex
  end.
Definition dp_remove_route (d : EbpfDataplane) (subnet : Ipv4Net) : M unit :=
  match d with Native _ => native_remove_route subnet | ViaContainer name _ => container_remove_route name subnet end.
Definition dp_detach (d : EbpfDataplane) : M unit :=
  match d with Native bridge => native_detach_ref bridge | ViaContainer name bridge => container_detach_ref name bridge end.

Record AttachedDataplane := mkAttached { ad_dataplane : EbpfDataplane; ad_wg_ifindex : N }.

Record WireguardDriver := { wd_mode : WireguardBackendMode; wd_host_interface_name : option string }.
Definition ebpf_attachment_ifname (self : WireguardDriver) (bridge_ifname : string) : string :=
  match wd_host_interface_name self with
  | Some ifname => if decide (wd_mode self = WgHost) then ifname else bridge_ifname
  | None => bridge_ifname
  end.

(** [DefaultDataplaneFactory::attach], in a build with the feature [ebpf-native]
    ([native]) or without it. *)
Definition factory_attach (native : bool) (container_name : string) (network : WireguardDriver) : M AttachedDataplane :=
  bridge_ifname <-! mcall (ke_bridge env) ResolveBridge ;;
  let wg_ifname := ebpf_attachment_ifname network bridge_ifname in
  if native then
    wg_ifindex <-! native_resolve_ifindex wg_ifname ;;
    _ <-! native_attach bridge_ifname ;;
    mret {| ad_dataplane := Native bridge_ifname; ad_wg_ifindex := wg_ifindex |}
  else
    _ <-! container_attach container_name bridge_ifname wg_ifname ;;
    mret {| ad_dataplane := ViaContainer container_name bridge_ifname; ad_wg_ifindex := 0 |}.

(** The route calls of the sync task, whose failures it only logs. *)
Definition dp_run (d : EbpfDataplane) (st : BpfMaps * list KernelCall) (c : RouteCall) : BpfMaps * list KernelCall :=
  (match c with
   | UpsertRoute subnet ifindex => dp_upsert_route d subnet ifindex st
   | RemoveRoute subnet => dp_remove_route d subnet st
   end).2.
End dataplane.

(** ** Words *)

Lemma le_bytes_length n x : length (le_bytes n x) = n.
Proof. revert x. induction n as [|n IH]; intros x; simpl; [done|]. by rewrite IH. Qed.

Lemma le_bytes_small n x : Forall (fun b => b < 256)%N (le_bytes n x).
Proof. revert x. induction n as [|n IH]; intros x; simpl; [done|]. constructor; [by apply N.mod_lt|done]. Qed.

Lemma le_bytes_value bs : Forall (fun b => b < 256)%N bs -> le_bytes (length bs) (le_value bs) = bs.
Proof.
  induction 1 as [|b bs Hb _ IH]; simpl; [done|]. f_equal.
  - by rewrite (N.mul_comm 256), N.Div0.mod_add, N.mod_small.
  - by rewrite N.add_comm, (N.mul_comm 256), N.div_add_l, (N.div_small b), N.add_0_r by done.
Qed.

Lemma le_value_bytes n x : (x < 256 ^ N.of_nat n)%N -> le_value (le_bytes n x) = x.
Proof.
  revert x. induction n as [|n IH]; intros x Hx; simpl; [change (256 ^ N.of_nat 0)%N with 1%N in Hx; lia|].
  rewrite IH; [pose proof (N.Div0.div_mod x 256); lia|].
  apply N.Div0.div_lt_upper_bound. rewrite Nat2N.inj_succ, N.pow_succ_r' in Hx. done.
Qed.

Lemma swap_bytes_value bs :
  Forall (fun b => b < 256)%N bs -> swap_bytes (length bs) (le_value bs) = le_value (reverse bs).
Proof. intros Hb. unfold swap_bytes. by rewrite le_bytes_value. Qed.

Lemma swap_bytes_involutive n x : (x < 256 ^ N.of_nat n)%N -> swap_bytes n (swap_bytes n x) = x.
Proof.
  intros Hx. unfold swap_bytes at 2.
  rewrite <- (le_bytes_length n x) at 1. rewrite <- (length_reverse (le_bytes n x)).
  rewrite swap_bytes_value by (apply Forall_reverse, le_bytes_small).
  by rewrite reverse_involutive, le_value_bytes.
Qed.

Lemma swap_bytes_inj n x y :
  (x < 256 ^ N.of_nat n)%N -> (y < 256 ^ N.of_nat n)%N -> swap_bytes n x = swap_bytes n y -> x = y.
Proof. intros Hx Hy E. rewrite <- (swap_bytes_involutive n x), E by done. by apply swap_bytes_involutive. Qed.

Lemma le_value_bound bs : Forall (fun b => b < 256)%N bs -> (le_value bs < 256 ^ N.of_nat (length bs))%N.
Proof.
  induction 1 as [|b bs Hb _ IH]; [done|]. cbn [le_value length].
  rewrite Nat2N.inj_succ, N.pow_succ_r'. lia.
Qed.

(** Masking rounds down to a multiple of the network's size. *)
Lemma land_high d k n : (d < 2 ^ (k + n))%N -> N.land d (N.shiftl (N.ones n) k) = (d / 2 ^ k * 2 ^ k)%N.
Proof.
  intros Hd. rewrite <- N.shiftr_div_pow2, <- N.shiftl_mul_pow2. apply N.bits_inj. intros i.
  rewrite N.land_spec. destruct (N.lt_ge_cases i k) as [Hi|Hi].
  - by rewrite !N.shiftl_spec_low, andb_false_r.
  - rewrite !N.shiftl_spec_high' by done. rewrite N.shiftr_spec', N.sub_add by done.
    destruct (N.lt_ge_cases (i - k) n) as [Hn|Hn]; [by rewrite N.ones_spec_low, andb_true_r|].
    rewrite N.ones_spec_high, andb_false_r by done. symmetry.
    destruct (decide (d = 0%N)) as [->|H0]; [by rewrite N.bits_0|].
    rewrite N.bits_above_log2; [done|]. apply N.log2_lt_pow2; [lia|]. eapply N.lt_le_trans; [exact Hd|]. apply N.pow_le_mono_r; lia.
Qed.

Lemma u32_mask_spec d p :
  (d <= u32_max)%N -> p ∈ prefix_lens -> N.land d (u32_mask p) = (d / net_size p * net_size p)%N.
Proof.
  intros Hd Hp. assert (u32_mask p = N.shiftl (N.ones p) (32 - p) /\ (32 - p + p = 32)%N) as [-> E].
  { unfold prefix_lens in Hp. set_unfold in Hp. by destruct_or! Hp; subst. }
  rewrite land_high; [done|]. rewrite E. unfold u32_max in Hd. change (2 ^ 32)%N with 4294967296%N. lia.
Qed.

(** ** Longest-prefix matching *)

Section routes.
Context {IP : Ipnet} {laws : IpnetLaws IP}.

(** A network without host bits, and one the classifier looks for. *)
Definition canonical (s : Ipv4Net) : Prop := net_wf s /\ ipnet_network s = net_addr s.
Definition routable (s : Ipv4Net) : Prop := canonical s /\ net_prefix_len s ∈ prefix_lens.
Definition contains (s : Ipv4Net) (d : Ipv4Addr) : Prop := (ipnet_network s <= d <= ipnet_broadcast s)%N.

(** The network of [p] bits that [d] belongs to. *)
Definition net_of (d p : N) : Ipv4Net := mkNet (d / net_size p * net_size p) p.

Lemma net_of_canonical d p : (d <= u32_max)%N -> (p <= 32)%N -> canonical (net_of d p).
Proof.
  intros Hd Hp. pose proof (net_size_pos p). assert (net_wf (net_of d p)) as Hwf.
  { split; simpl; [|done]. pose proof (N.Div0.mul_div_le d (net_size p)). lia. }
  split; [done|]. rewrite ipnet_network_spec by done. simpl. by rewrite N.div_mul by lia.
Qed.

Lemma contains_net_of s d : canonical s -> (d <= u32_max)%N -> contains s d <-> s = net_of d (net_prefix_len s).
Proof.
  intros [Hwf Hn] Hd. unfold contains. rewrite ipnet_broadcast_spec, Hn by done.
  pose proof (net_size_pos (net_prefix_len s)) as Hpos. rewrite ipnet_network_spec in Hn by done.
  destruct s as [a p]; simpl in *. split.
  - intros Hc. unfold net_of. f_equal. rewrite <- Hn in Hc |- *. f_equal.
    apply N.le_antisymm; [apply N.div_le_lower_bound; lia|].
    apply N.lt_succ_r, N.Div0.div_lt_upper_bound. lia.
  - intros [= E]. pose proof (N.Div0.div_mod d (net_size p)) as Hdm. pose proof (N.mod_lt d (net_size p) ltac:(lia)) as Hm.
    clear Hn. revert E Hdm Hm Hpos. generalize (net_size p) as n. intros n.
    generalize (d / n)%N (d mod n)%N. intros; lia.
Qed.

Lemma subnet_to_key_inj s t : canonical s -> canonical t -> subnet_to_key s = subnet_to_key t -> s = t.
Proof.
  intros [[Ha _] Hs] [[Hb _] Ht]. unfold subnet_to_key. rewrite Hs, Ht. intros [= E Hp].
  apply swap_bytes_inj in E; [by destruct s, t; simpl in *; subst|..];
    change (256 ^ N.of_nat 4)%N with 4294967296%N; unfold u32_max in *; lia.
Qed.

(** The key looked up for one length is the key of the destination's network. *)
Lemma masked_key d p :
  (d <= u32_max)%N -> p ∈ prefix_lens ->
  mkRouteKey (swap_bytes 4 (N.land d (u32_mask p))) p = subnet_to_key (net_of d p).
Proof.
  intros Hd Hp. rewrite u32_mask_spec by done. unfold subnet_to_key.
  assert (p <= 32)%N as Hp' by (unfold prefix_lens in Hp; set_unfold in Hp; destruct_or! Hp; subst; lia).
  by destruct (net_of_canonical d p Hd Hp') as [_ ->].
Qed.

Lemma prefix_len_le p : p ∈ prefix_lens -> (p <= 32)%N.
Proof. unfold prefix_lens. intros Hp. set_unfold in Hp. destruct_or! Hp; subst; lia. Qed.

Lemma lookup_prefixes_spec routes d lens i :
  (d <= u32_max)%N -> lens ⊆ prefix_lens -> StronglySorted (fun a b => b < a)%N lens ->
  lookup_prefixes routes d lens = Some i <->
  exists p, p ∈ lens /\ routes !! subnet_to_key (net_of d p) = Some (mkRouteEntry i) /\
    forall q, q ∈ lens -> is_Some (routes !! subnet_to_key (net_of d q)) -> (q <= p)%N.
Proof.
  intros Hd. induction lens as [|p lens IH]; intros Hsub Hsort; cbn [lookup_prefixes].
  { split; [done|]. intros (p & Hp & _). set_solver. }
  apply StronglySorted_inv in Hsort as [Hsort Hlt]. rewrite Forall_forall in Hlt.
  rewrite masked_key by set_solver. destruct (routes !! subnet_to_key (net_of d p)) as [[j]|] eqn:Hp; simpl.
  - split.
    + intros [= ->]. exists p. split_and!; [set_solver|done|]. intros q Hq _.
      apply elem_of_cons in Hq as [->|Hq]; [lia|]. specialize (Hlt q Hq). simpl in Hlt. lia.
    + intros (q & Hq & He & Hmax). apply elem_of_cons in Hq as [->|Hq]; [congruence|].
      specialize (Hlt q Hq). specialize (Hmax p ltac:(set_solver) ltac:(by eexists)). simpl in Hlt. lia.
  - rewrite IH by (done || set_solver). split; intros (q & Hq & He & Hmax); exists q.
    + split_and!; [set_solver|done|]. intros q' Hq' [e He']. apply elem_of_cons in Hq' as [->|Hq']; [congruence|eauto].
    + apply elem_of_cons in Hq as [->|Hq]; [congruence|]. split_and!; [done|done|]. intros; apply Hmax; set_solver.
Qed.

Lemma lookup_prefixes_none routes d lens p :
  (d <= u32_max)%N -> lens ⊆ prefix_lens -> lookup_prefixes routes d lens = None -> p ∈ lens ->
  routes !! subnet_to_key (net_of d p) = None.
Proof.
  intros Hd. induction lens as [|q lens IH]; intros Hsub; cbn [lookup_prefixes]; [set_solver|].
  rewrite masked_key by set_solver. destruct (routes !! subnet_to_key (net_of d q)) as [e|] eqn:Hq; [intros; discriminate|].
  intros Hn [->|Hp]%elem_of_cons; [done|]. apply IH; [set_solver|done..].
Qed.

(** ** Packets *)

(** An Ethernet frame with an IPv4 header and the destination [d]. *)
Definition ipv4_frame (ctx : TcContext) (d : Ipv4Addr) : Prop :=
  34 <= length (ctx_data ctx) /\ Forall (fun b => b < 256)%N (ctx_data ctx) /\
  take 2 (drop 12 (ctx_data ctx)) = [8; 0]%N /\ le_value (reverse (take 4 (drop 30 (ctx_data ctx)))) = d.
(** One with an IPv6 header and a unique local destination, [fd00::/8]. *)
Definition ipv6_local_frame (ctx : TcContext) : Prop :=
  39 <= length (ctx_data ctx) /\ take 2 (drop 12 (ctx_data ctx)) = [134; 221]%N /\
  ctx_data ctx !! 38 = Some 253%N.

Lemma load_some ctx offset size :
  offset + size <= length (ctx_data ctx) -> load ctx offset size = Some (take size (drop offset (ctx_data ctx))).
Proof. intros H. unfold load. by rewrite decide_True. Qed.

Lemma classify_ipv4 maps ctx d : ipv4_frame ctx d ->
  (d <= u32_max)%N /\ try_classify maps ctx = lookup_prefixes (bm_routes maps) d prefix_lens.
Proof.
  intros (Hl & Hb & Ht & Hd).
  assert (length (take 4 (drop 30 (ctx_data ctx))) = 4) as H4 by (rewrite length_take, length_drop; lia).
  assert (Forall (fun b => b < 256)%N (take 4 (drop 30 (ctx_data ctx)))) as Hb4 by by apply Forall_take, Forall_drop.
  split.
  - apply Forall_reverse, le_value_bound in Hb4. rewrite length_reverse, H4, Hd in Hb4.
    change (256 ^ N.of_nat 4)%N with 4294967296%N in Hb4. unfold u32_max. lia.
  - unfold try_classify, EthHdr_LEN. rewrite load_some by lia. cbn [base.mbind option_bind].
    unfold ether_type. rewrite <- (take_drop_commute _ 2 12), drop_0, Ht.
    unfold try_classify_ipv4, load_ipv4, EthHdr_LEN. rewrite load_some by lia. cbn [base.mbind option_bind v4_dst_addr].
    rewrite <- (take_drop_commute _ 4 16), drop_drop, take_take. change (take (4 `min` 4)) with (@take N 4).
    change (14 + 16) with 30. rewrite <- H4 at 1. by rewrite swap_bytes_value, Hd.
Qed.
End routes.

(** ** Longest-prefix matching of packets *)

Section packets.
Context {IP : Ipnet} {laws : IpnetLaws IP}.

(** The classifier forwards an IPv4 packet by the longest matching route.
    For a frame whose destination is [d] it returns an interface exactly when the
    table routes a network of 8, 16, 24 or 32 bits that contains [d] there, and
    no longer routed network of these lengths contains [d]. *)
Theorem classify_longest_prefix maps ctx d i :
  ipv4_frame ctx d ->
  try_classify maps ctx = Some i <->
  exists s, routable s /\ contains s d /\ bm_routes maps !! subnet_to_key s = Some (mkRouteEntry i) /\
    forall t, routable t -> contains t d -> is_Some (bm_routes maps !! subnet_to_key t) ->
      (net_prefix_len t <= net_prefix_len s)%N.
Proof.
  intros Hf. destruct (classify_ipv4 maps ctx d Hf) as [Hd ->].
  rewrite lookup_prefixes_spec; [|done|done|by repeat constructor]. split.
  - intros (p & Hp & He & Hmax). exists (net_of d p).
    pose proof (net_of_canonical d p Hd (prefix_len_le p Hp)) as Hc. split_and!; [done|by apply contains_net_of|done|].
    intros t [Ht Hpt] Hct Hr. apply contains_net_of in Hct; [|done..]. rewrite Hct in Hr. by apply Hmax.
  - intros (s & [Hs Hp] & Hc & He & Hmax). apply contains_net_of in Hc; [|done..].
    exists (net_prefix_len s). rewrite <- Hc. split_and!; [done..|]. intros q Hq Hr.
    apply (Hmax (net_of d q)); [|apply contains_net_of; [|done..]|done];
      [split; [|done]|]; by apply net_of_canonical, prefix_len_le.
Qed.

Lemma classify_ula maps ctx : ipv6_local_frame ctx -> try_classify maps ctx = Some (bm_wg_ifindex maps).
Proof.
  intros (Hl & Ht & Hb). unfold try_classify, EthHdr_LEN. rewrite load_some by lia. cbn [base.mbind option_bind].
  unfold ether_type. rewrite <- (take_drop_commute _ 2 12), drop_0, Ht.
  unfold try_classify_ipv6, EthHdr_LEN. rewrite load_some by lia. cbn [base.mbind option_bind]. simpl Nat.add.
  by rewrite (drop_S _ _ _ Hb).
Qed.
End packets.

(** ** The daemon's dataplanes *)

Lemma wp_ignore_kcall {E} env c (Q : result E unit -> BpfMaps -> list KernelCall -> Prop) m log :
  Q (Ok tt) m (log ++ [c])%list -> wp (ignore (kcall env c)) Q m log.
Proof. done. Qed.

Lemma wp_kcall env c (Q : result string unit -> BpfMaps -> list KernelCall -> Prop) m log :
  Q (Ok tt) m (log ++ [c])%list -> (forall e, Q (Err e) m (log ++ [c])%list) -> wp (kcall env c) Q m log.
Proof. intros H1 H2. unfold kcall. apply wp_call. destruct (ke_answer env c log) as [[]|e]; auto. Qed.

Ltac kernel_step :=
  match goal with
  | |- wp (ignore (kcall _ _)) _ _ _ => apply wp_ignore_kcall
  | |- wp (ignore _) _ _ _ => apply wp_ignore
  | |- wp (mobserve _ _) _ _ _ => apply wp_observe; intros ?
  | |- wp (kcall _ _) _ _ _ => apply wp_kcall; [|intros ?]
  | |- wp (kop _ _ _) _ _ _ => unfold kop at 1
  | |- wp (kfound _ _ _ _) _ _ _ => unfold kfound at 1
  | _ => wp_step
  end; cbn [map_err]; cbv beta iota.
Ltac kernel_steps := repeat kernel_step.

Section drivers.
Context {IP : Ipnet} {laws : IpnetLaws IP} (env : KernelEnv) (addr_parse_error : string).

Lemma parse_u32_dec n : (n <= u32_max)%N -> parse_u32 (dec n) = Some n.
Proof.
  intros Hn. unfold parse_u32. rewrite parse_u64_dec by (unfold u32_max, u64_max in *; lia). simpl.
  by apply N.leb_le in Hn as ->.
Qed.

(** What a call does to the tables: all of it when it succeeds, nothing when it
    fails. *)
Definition all_or_nothing {E A} (f : BpfMaps -> BpfMaps) (c : eff BpfMaps KernelCall E A) : Prop :=
  forall m log, wp c (fun r m' _ => m' = if is_ok r then f m else m) m log.

Lemma route_add_cmd s i :
  net_wf s -> (i <= u32_max)%N ->
  all_or_nothing (with_routes (insert (subnet_to_key s) (mkRouteEntry i)))
    (cmd_route env addr_parse_error ["add"; ipnet_to_string s; dec i]).
Proof.
  intros Hs Hi m log. unfold cmd_route. rewrite decide_True by done.
  rewrite ipnet_parse_to_string, parse_u32_dec by done. unfold open_routes_map, routes_insert. cbn [ok_or].
  kernel_steps; simplify_eq/=; done.
Qed.

Lemma observe_cmd mode :
  all_or_nothing (with_observe_flag (match mode with ObserveDisabled => 0 | ObserveEnabled => 1 end))
    (cmd_observe env [match mode with ObserveEnabled => "on" | ObserveDisabled => "off" end]).
Proof. intros m log. unfold cmd_observe, observe_flag_set. destruct mode; kernel_steps; simplify_eq/=; done. Qed.

(** A removal may fail after the table was opened, unnoticed. *)
Lemma route_del_cmd s m log :
  net_wf s ->
  wp (cmd_route env addr_parse_error ["del"; ipnet_to_string s])
    (fun _ m' _ => m' = m \/ m' = with_routes (delete (subnet_to_key s)) m) m log.
Proof.
  intros Hs. unfold cmd_route. rewrite decide_False, decide_True by done.
  rewrite ipnet_parse_to_string by done. unfold open_routes_map, routes_remove. cbn [ok_or].
  kernel_steps; simplify_eq/=; auto.
Qed.

(** Running the tool in the container does what the tool's command does, and
    reports success exactly when the command succeeded. *)
Lemma wp_exec name cmd rest (c : eff BpfMaps KernelCall string unit) (P : bool -> BpfMaps -> Prop) m log :
  bpfctl_main env addr_parse_error (CTL_BIN :: cmd :: rest) =
    (r <-! mtry c ;;
     match r with Ok _ => mret (true, "") | Err e => mret (false, "" +:+ "error: " +:+ e +:+ newline) end) ->
  P false m -> (forall log, wp c (fun r m' _ => P (is_ok r) m') m log) ->
  wp (exec env addr_parse_error name (CTL_BIN :: cmd :: rest)) (fun r m' _ => P (is_ok r) m') m log.
Proof.
  intros Hmain Hf Hc. unfold exec. kernel_step. kernel_step. destruct a as [e|st se|]; [by apply wp_fail..|].
  rewrite Hmain. do 4 kernel_step. eapply wp_mono; [apply Hc|]. intros [[]|e] m' log' HP; by kernel_steps.
Qed.

Lemma exec_route_del name s m log :
  net_wf s ->
  wp (exec env addr_parse_error name [CTL_BIN; "route"; "del"; ipnet_to_string s])
    (fun _ m' _ => m' = m \/ m' = with_routes (delete (subnet_to_key s)) m) m log.
Proof.
  intros Hs. apply (wp_exec _ _ _ (cmd_route env addr_parse_error ["del"; ipnet_to_string s])
    (fun _ m' => m' = m \/ m' = with_routes (delete (subnet_to_key s)) m)); [reflexivity|auto|].
  intros. by apply route_del_cmd.
Qed.

Lemma upsert_atomic d s i :
  net_wf s -> (i <= u32_max)%N ->
  all_or_nothing (with_routes (insert (subnet_to_key s) (mkRouteEntry i))) (dp_upsert_route env addr_parse_error d s i).
Proof.
  intros Hs Hi m log. destruct d as [b|name b]; simpl.
  - unfold native_upsert_route, routes_insert. kernel_steps; simplify_eq/=; done.
  - apply (wp_exec _ _ _ (cmd_route env addr_parse_error ["add"; ipnet_to_string s; dec i])
      (fun b m' => m' = if b then _ else m)); [reflexivity|done|]. intros. by apply route_add_cmd.
Qed.

(** Every call succeeds, and interface indices are [u32]s. *)
Definition kernel_up : Prop :=
  (forall c log, ke_answer env c log = Ok tt) /\ (forall args log, ke_docker env args log = ToolRan) /\
  (forall ifname log, (ke_ifindex env ifname log <= u32_max)%N).

Ltac kernel_up_steps :=
  repeat (match goal with
          | H : forall c log, ke_answer env c log = Ok tt |- wp (kcall env _) _ _ _ =>
              unfold kcall at 1; apply wp_call; rewrite H; cbn [map_err]; cbv beta iota
          | H : forall args log, ke_docker env args log = ToolRan |- wp (mobserve (ke_docker env _) _) _ _ _ =>
              unfold wp, mobserve; rewrite H; cbv beta iota zeta
          end || kernel_step).

Definition run_call (d : EbpfDataplane) (c : RouteCall) : eff BpfMaps KernelCall Error unit :=
  match c with
  | UpsertRoute s i => dp_upsert_route env addr_parse_error d s i
  | RemoveRoute s => dp_remove_route env addr_parse_error d s
  end.
Definition call_effect (c : RouteCall) : BpfMaps -> BpfMaps :=
  match c with
  | UpsertRoute s i => with_routes (insert (subnet_to_key s) (mkRouteEntry i))
  | RemoveRoute s => with_routes (delete (subnet_to_key s))
  end.
Definition call_ifindex (c : RouteCall) : N := match c with UpsertRoute _ i => i | RemoveRoute _ => 0 end.

Lemma wp_exec_up name cmd rest (c : eff BpfMaps KernelCall string unit) f m log :
  (forall args log, ke_docker env args log = ToolRan) ->
  bpfctl_main env addr_parse_error (CTL_BIN :: cmd :: rest) =
    (r <-! mtry c ;;
     match r with Ok _ => mret (true, "") | Err e => mret (false, "" +:+ "error: " +:+ e +:+ newline) end) ->
  (forall log, wp c (fun r m' _ => r = Ok tt /\ m' = f m) m log) ->
  wp (exec env addr_parse_error name (CTL_BIN :: cmd :: rest)) (fun r m' _ => r = Ok tt /\ m' = f m) m log.
Proof.
  intros Hd Hmain Hc. unfold exec. kernel_step. unfold wp at 1, mobserve. rewrite Hd. cbv beta iota zeta.
  rewrite Hmain. do 4 kernel_step. eapply wp_mono; [apply Hc|]. intros r m' log' [-> ->]. by kernel_steps.
Qed.

Lemma calls_succeed d c m log :
  kernel_up -> net_wf (call_subnet c) -> (call_ifindex c <= u32_max)%N ->
  wp (run_call d c) (fun r m' _ => r = Ok tt /\ m' = call_effect c m) m log.
Proof.
  intros (Hk & Hd & _) Hs Hi. destruct c as [s i|s]; destruct d as [b|name b]; simpl in *.
  - unfold native_upsert_route, routes_insert. by kernel_up_steps.
  - eapply (wp_exec_up _ _ _ (cmd_route env addr_parse_error ["add"; ipnet_to_string s; dec i]) (with_routes _));
      [done|reflexivity|]. intros log'. unfold cmd_route.
    rewrite decide_True by done. rewrite ipnet_parse_to_string, parse_u32_dec by done.
    unfold open_routes_map, routes_insert. cbn [ok_or]. kernel_up_steps; by simplify_eq/=.
  - unfold native_remove_route, routes_remove. by kernel_up_steps.
  - apply wp_ignore. eapply wp_mono; [eapply (wp_exec_up _ _ _ (cmd_route env addr_parse_error ["del"; ipnet_to_string s])
      (with_routes _)); [done|reflexivity|]|naive_solver].
    intros log'. unfold cmd_route. rewrite decide_False, decide_True by done. rewrite ipnet_parse_to_string by done.
    unfold open_routes_map, routes_remove. cbn [ok_or]. kernel_up_steps; by simplify_eq/=.
Qed.

(** Both dataplanes edit the kernel's tables alike.  Whatever the kernel, the
    loader and Docker answer, upserting a route either succeeds and has set
    exactly the entry of its subnet, or returns an error and has changed nothing,
    whether the daemon writes the table itself or runs the tool in the container
    with the subnet and the interface index as text; switching observation
    likewise; removing a route has removed that entry or nothing.  When the calls
    below it succeed, so does a route call, with its whole effect. *)
Theorem dataplane_calls_atomic d s i mode :
  net_wf s -> (i <= u32_max)%N ->
  all_or_nothing (call_effect (UpsertRoute s i)) (run_call d (UpsertRoute s i)) /\
  all_or_nothing (with_observe_flag (match mode with ObserveDisabled => 0 | ObserveEnabled => 1 end))
    (dp_set_observe env addr_parse_error d mode) /\
  (forall m log, wp (run_call d (RemoveRoute s)) (fun _ m' _ => m' = m \/ m' = call_effect (RemoveRoute s) m) m log) /\
  (kernel_up -> forall c m log, c = UpsertRoute s i \/ c = RemoveRoute s ->
     wp (run_call d c) (fun r m' _ => r = Ok tt /\ m' = call_effect c m) m log).
Proof.
  intros Hs Hi. split_and!.
  - by apply upsert_atomic.
  - intros m log. destruct d as [b|name b]; simpl.
    + unfold native_set_observe, observe_flag_set. kernel_steps; simplify_eq/=; done.
    + apply (wp_exec _ _ _ (cmd_observe env [match mode with ObserveEnabled => "on" | ObserveDisabled => "off" end])
        (fun b m' => m' = if b then _ else m)); [reflexivity|done|]. intros. by apply observe_cmd.
  - intros m log. destruct d as [b|name b]; simpl.
    + unfold native_remove_route, routes_remove. kernel_steps; auto.
    + apply wp_ignore. by apply exec_route_del.
  - intros Hup c m log [-> | ->]; apply calls_succeed; simpl; done || unfold u32_max; lia.
Qed.
End drivers.

(** ** From the store's machines to packets *)

Section overlay.
Context {IP : Ipnet} {laws : IpnetLaws IP} (env : KernelEnv) (addr_parse_error : string).

(** The interfaces a fresh dataplane redirects to: IPv4 by the routes of the sync
    task, which has the index the factory returns, IPv6 by the array. *)
Definition targets_after_attach (native : bool) (att : AttachedDataplane) (m : BpfMaps) : Prop :=
  bm_routes m = ∅ /\
  if native then ad_wg_ifindex att <> 0%N /\ bm_wg_ifindex m = 0%N
  else ad_wg_ifindex att = 0%N /\ bm_wg_ifindex m <> 0%N.

Lemma resolve_ifindex_wp ifname m log :
  wp (resolve_ifindex env ifname) (fun r m' _ => m' = m /\ forall i, r = Ok i -> i <> 0%N) m log.
Proof.
  unfold resolve_ifindex. kernel_steps; simplify_eq/=; try done.
  split; [done|]. intros i [= <-]. by apply N.eqb_neq.
Qed.

Lemma cmd_attach_wp bridge wg m log :
  wp (cmd_attach env [bridge; wg])
    (fun r m' _ => is_ok r = true -> bm_routes m' = ∅ /\ bm_wg_ifindex m' <> 0%N) m log.
Proof.
  unfold cmd_attach. kernel_step. eapply wp_mono; [apply resolve_ifindex_wp|].
  intros [i|e] m1 log1 [-> Hi]; [|done]. specialize (Hi i eq_refl).
  unfold ensure_bpffs, load_object, ctl_attach_tc_classifier. kernel_steps; simplify_eq/=; done.
Qed.

Lemma factory_attach_wp native name network m log :
  wp (factory_attach env addr_parse_error native name network)
    (fun r m' _ => forall att, r = Ok att -> targets_after_attach native att m') m log.
Proof.
  unfold factory_attach, targets_after_attach. destruct native.
  - unfold native_resolve_ifindex, native_attach, load_object, native_attach_tc_classifier.
    kernel_steps; intros; simplify_eq/=; try done.
    split_and!; try done. by apply N.eqb_neq.
  - kernel_step. kernel_step; [|naive_solver]. kernel_step. unfold container_attach.
    eapply wp_mono.
    { apply (wp_exec env addr_parse_error _ _ _ (cmd_attach env [a; ebpf_attachment_ifname network a])
        (fun b m' => b = true -> bm_routes m' = ∅ /\ bm_wg_ifindex m' <> 0%N)); [reflexivity|done|].
      intros. apply cmd_attach_wp. }
    intros [[]|e] m1 log1 H1; [|naive_solver]. kernel_steps. intros att [= <-]. naive_solver.
Qed.

(** The kernel's table holds the task's table, by the keys of the subnets. *)
Definition holds_table (w6 : N) (st : BpfMaps * list KernelCall) (table : gmap Ipv4Net N) : Prop :=
  bm_wg_ifindex st.1 = w6 /\
  forall s, routable s -> bm_routes st.1 !! subnet_to_key s = mkRouteEntry <$> table !! s.

Lemma call_holds_table w6 d c st table :
  kernel_up env -> routable (call_subnet c) -> (call_ifindex c <= u32_max)%N -> holds_table w6 st table ->
  holds_table w6 (dp_run env addr_parse_error d st c) (run_route table c).
Proof.
  intros Hup Hc Hi [Hw Ht]. destruct st as [m log]. pose proof Hc as [[Hwf _] _].
  assert (dp_run env addr_parse_error d (m, log) c = (run_call env addr_parse_error d c (m, log)).2) as -> by (by destruct c).
  pose proof (calls_succeed env addr_parse_error d c m log Hup Hwf Hi) as Hs. unfold wp in Hs.
  destruct (run_call _ _ _ _ _) as [r [m' log']]. destruct Hs as [_ ->]. destruct c as [s i|s]; simpl in *.
  - split; [done|]. intros t Hrt. simpl. destruct (decide (t = s)) as [->|Hne]; [by rewrite !lookup_insert_eq|].
    rewrite !lookup_insert_ne; [by apply Ht|done|]. intros E. apply Hne. symmetry. by apply subnet_to_key_inj; [apply Hc|apply Hrt|].
  - split; [done|]. intros t Hrt. simpl. destruct (decide (t = s)) as [->|Hne]; [by rewrite !lookup_delete_eq|].
    rewrite !lookup_delete_ne; [by apply Ht|done|]. intros E. apply Hne. symmetry. by apply subnet_to_key_inj; [apply Hc|apply Hrt|].
Qed.

Lemma attached_ifindex_u32 native name network m log att st :
  kernel_up env -> factory_attach env addr_parse_error native name network (m, log) = (Ok att, st) ->
  (ad_wg_ifindex att <= u32_max)%N.
Proof.
  intros (_ & _ & Hu) Hatt.
  assert (wp (factory_attach env addr_parse_error native name network)
    (fun r _ _ => forall att, r = Ok att -> ad_wg_ifindex att <= u32_max)%N m log) as Hwp.
  { unfold factory_attach. destruct native.
    - unfold native_resolve_ifindex. kernel_step. kernel_step; [|naive_solver]. kernel_step.
      destruct (nul_position 0 _); [kernel_steps; naive_solver|]. kernel_step. apply wp_call. cbv beta iota.
      case_match; [kernel_steps; unfold wp; naive_solver|]. kernel_step. kernel_step. unfold wp at 1.
      destruct (native_attach env a _) as [[?|?] [? ?]]; [|naive_solver].
      apply wp_ret. intros ? [= <-]. apply Hu.
    - kernel_step. kernel_step; [|naive_solver]. kernel_step. unfold wp at 1.
      destruct (container_attach _ _ _ _ _ _) as [[?|?] [? ?]]; [|naive_solver]. apply wp_ret. intros ? [= <-]. by unfold u32_max. }
  unfold wp in Hwp. rewrite Hatt in Hwp. destruct st. by apply Hwp.
Qed.

(** What a run of the sync task leaves in the kernel. *)
Definition routes_remote (wg : N) local (machines : gmap string MachineRecord) (m : BpfMaps) : Prop :=
  (forall s, remote_subnet local machines s -> routable s) /\
  forall s i, routable s ->
    bm_routes m !! subnet_to_key s = Some (mkRouteEntry i) <-> i = wg /\ remote_subnet local machines s.

Lemma overlay_state native name network m log att st0 local machines st :
  kernel_up env ->
  factory_attach env addr_parse_error native name network (m, log) = (Ok att, st0) ->
  ebpf_reach (ad_wg_ifindex att) local routable st0 (dp_run env addr_parse_error (ad_dataplane att)) machines st ->
  targets_after_attach native att st0.1 /\ bm_wg_ifindex st.1 = bm_wg_ifindex st0.1 /\
  routes_remote (ad_wg_ifindex att) local machines st.1.
Proof.
  intros Hup Hatt Hreach. pose proof (attached_ifindex_u32 _ _ _ _ _ _ _ Hup Hatt) as Hi.
  pose proof (factory_attach_wp native name network m log) as Hw. unfold wp in Hw. rewrite Hatt in Hw.
  destruct st0 as [m0 log0]. specialize (Hw att eq_refl). pose proof Hw as [Hempty _].
  pose proof (ebpf_reach_valid _ _ _ _ _ _ _ Hreach) as Hvalid.
  destruct (ebpf_reach_simulation (ad_wg_ifindex att) local routable (holds_table (bm_wg_ifindex m0))
    (m0, log0) (dp_run env addr_parse_error (ad_dataplane att)) ∅ run_route) with (3 := Hreach)
    as (table & Htable & Hw6 & Hholds).
  { split; [done|]. intros s _. simpl. by rewrite Hempty. }
  { intros c t u Hc Htgt Ht. apply call_holds_table; [done|done| |done]. destruct c; simpl in *; subst; [done|].
    unfold u32_max; lia. }
  split_and!; [done|done|]. split; [intros s (id & r & Hm & _ & Hs); eauto|]. intros s i Hs.
  rewrite Hholds, fmap_Some, <- (ebpf_routes_exact _ _ _ _ _ Htable s i) by done. naive_solver.
Qed.

(** The destination of a packet decides, by the remote subnets. *)
Lemma remote_packet wg local machines m ctx d s :
  routes_remote wg local machines m -> ipv4_frame ctx d -> remote_subnet local machines s -> contains s d ->
  try_classify m ctx = Some wg.
Proof.
  intros [Hvalid Hroutes] Hf Hr Hc. destruct (classify_ipv4 m ctx d Hf) as [Hd ->]. pose proof (Hvalid s Hr) as Hs.
  apply contains_net_of in Hc; [|apply Hs|done].
  destruct (lookup_prefixes _ d prefix_lens) as [i|] eqn:Hl.
  - apply lookup_prefixes_spec in Hl as (p & Hp & He & _); [|done|done|by repeat constructor].
    pose proof (net_of_canonical d p Hd (prefix_len_le p Hp)) as Hcn. by apply Hroutes in He as [-> _].
  - pose proof (lookup_prefixes_none _ _ _ (net_prefix_len s) Hd ltac:(done) Hl (proj2 Hs)) as Hn.
    rewrite <- Hc in Hn. by rewrite (proj2 (Hroutes s wg Hs) (conj eq_refl Hr)) in Hn.
Qed.

Lemma other_packet wg local machines m ctx d :
  routes_remote wg local machines m -> ipv4_frame ctx d ->
  ~ (exists s, remote_subnet local machines s /\ contains s d) -> try_classify m ctx = None.
Proof.
  intros [Hvalid Hroutes] Hf Hn. destruct (classify_ipv4 m ctx d Hf) as [Hd ->].
  destruct (lookup_prefixes _ d prefix_lens) as [i|] eqn:Hl; [|done]. destruct Hn.
  apply lookup_prefixes_spec in Hl as (p & Hp & He & _); [|done|done|by repeat constructor].
  pose proof (net_of_canonical d p Hd (prefix_len_le p Hp)) as Hc. exists (net_of d p).
  split; [by apply (Hroutes (net_of d p) i)|by apply contains_net_of].
Qed.


(** Each build of the daemon sends one family of overlay traffic nowhere.
    After a successful attach and any run of the sync task, a build with native
    eBPF redirects every packet to a unique local IPv6 address, the mesh's
    management addresses, to interface 0, because only the tool sets the array;
    a build that attaches through the container redirects every IPv4 packet to a
    remote machine to interface 0, because the factory returns 0 as the index.
    No interface has the index 0. *)
Theorem overlay_family_lost native name network m log att st0 local machines st ctx now :
  kernel_up env ->
  factory_attach env addr_parse_error native name network (m, log) = (Ok att, st0) ->
  ebpf_reach (ad_wg_ifindex att) local routable st0 (dp_run env addr_parse_error (ad_dataplane att)) machines st ->
  (if native then ipv6_local_frame ctx
   else exists d s, ipv4_frame ctx d /\ remote_subnet local machines s /\ contains s d) ->
  (ployz_egress st.1 now ctx).1 = Redirect 0.
Proof.
  intros Hup Hatt Hreach Hctx. destruct (overlay_state _ _ _ _ _ _ _ _ _ _ Hup Hatt Hreach) as ([_ Ht] & Hw6 & Hroutes).
  unfold ployz_egress. destruct native.
  - rewrite classify_ula, Hw6 by done. by destruct Ht as [_ ->].
  - destruct Hctx as (d & s & Hf & Hr & Hc). rewrite (remote_packet _ _ _ _ _ _ _ Hroutes Hf Hr Hc). by destruct Ht as [-> _].
Qed.
End overlay.

(** ** Witnesses *)

(** A kernel in which everything succeeds and interfaces have the index 7. *)
Definition calm_env : KernelEnv := {|
  ke_answer _ _ := Ok tt; ke_ifindex _ _ := 7%N; ke_os_error _ := ""; ke_bridge _ := Ok "br-ployz"; ke_docker _ _ := ToolRan
|}.
Lemma calm_up : kernel_up calm_env.
Proof. by split_and!. Qed.

(** A frame to an IPv4 address, and one to a unique local IPv6 address. *)
Definition frame_to (d : N) : TcContext :=
  {| ctx_data := (replicate 12 2%N ++ [8; 0]%N ++ [69; 0; 0; 20; 0; 0; 0; 0; 64; 6; 0; 0; 10; 0; 0; 9]%N ++
                  reverse (le_bytes 4 d))%list; ctx_len := 34 |}.
Definition ula_frame : TcContext :=
  {| ctx_data := (replicate 12 2%N ++ [134; 221]%N ++ replicate 24 0%N ++ 253%N :: replicate 15 1%N)%list; ctx_len := 54 |}.

Definition bytes_ok (bs : list N) : bool := forallb (fun b => b <? 256)%N bs.
Lemma frame_to_ipv4 d :
  Nat.leb 34 (length (ctx_data (frame_to d))) && bytes_ok (ctx_data (frame_to d)) &&
  bool_decide (take 2 (drop 12 (ctx_data (frame_to d))) = [8; 0]%N) &&
  (le_value (reverse (take 4 (drop 30 (ctx_data (frame_to d))))) =? d)%N = true -> ipv4_frame (frame_to d) d.
Proof.
  rewrite !andb_true_iff, Nat.leb_le, bool_decide_eq_true, N.eqb_eq. intros [[[H1 H2] H3] H4]. split_and!; try done.
  apply Forall_forall. intros b Hb. unfold bytes_ok in H2. rewrite forallb_forall in H2. apply list_elem_of_In in Hb.
  by apply N.ltb_lt, H2.
Qed.

Definition overlay_machines : gmap string MachineRecord := {[ "m2" := ebpf_machine "m2" 1 ]}.
Definition host_driver : WireguardDriver := {| wd_mode := WgHost; wd_host_interface_name := Some "ployz0" |}.
Definition attach_run (native : bool) := @factory_attach ref_ipnet calm_env "bad address" native "ployz-wg" host_driver (fresh_maps, []).
Definition attached (native : bool) : AttachedDataplane :=
  if native then {| ad_dataplane := Native "br-ployz"; ad_wg_ifindex := 7 |}
  else {| ad_dataplane := ViaContainer "ployz-wg" "br-ployz"; ad_wg_ifindex := 0 |}.
Lemma attach_run_ok native : attach_run native = (Ok (attached native), (attach_run native).2).
Proof. by destruct native. Qed.

Lemma sample_routable : @routable ref_ipnet (sample_subnet 1).
Proof.
  split; [split; [|by vm_compute]|vm_compute; set_solver]. split; vm_compute; discriminate.
Qed.
Lemma overlay_reach native :
  ebpf_reach (ad_wg_ifindex (attached native)) "m1" (@routable ref_ipnet) (attach_run native).2
    (@dp_run ref_ipnet calm_env "bad address" (ad_dataplane (attached native))) overlay_machines
    (foldl (@dp_run ref_ipnet calm_env "bad address" (ad_dataplane (attached native))) (attach_run native).2
       (ebpf_seed (ad_wg_ifindex (attached native)) "m1" (map_to_list overlay_machines).*2)).
Proof.
  apply ebpf_start; [by apply map_Forall_singleton|].
  unfold overlay_machines. intros k r s [<- <-]%lookup_singleton_Some [= <-]. apply sample_routable.
Qed.
Lemma overlay_remote : remote_subnet "m1" overlay_machines (sample_subnet 1).
Proof. exists "m2", (ebpf_machine "m2" 1). split_and!; [by vm_compute|done|done]. Qed.

Definition overlay_maps (native : bool) : BpfMaps :=
  (foldl (@dp_run ref_ipnet calm_env "bad address" (ad_dataplane (attached native))) (attach_run native).2
     (ebpf_seed (ad_wg_ifindex (attached native)) "m1" (map_to_list overlay_machines).*2)).1.


Lemma overlay_family_lost_witness :
  (ployz_egress (overlay_maps true) 0 ula_frame).1 = Redirect 0 /\
  (ployz_egress (overlay_maps false) 0 (frame_to (net_addr (sample_subnet 1) + 5))).1 = Redirect 0.
Proof.
  split.
  - apply (@overlay_family_lost ref_ipnet ref_ipnet_laws calm_env "bad address" true "ployz-wg" host_driver fresh_maps []
      (attached true) (attach_run true).2 "m1" overlay_machines _ ula_frame 0%N calm_up (attach_run_ok true) (overlay_reach true)).
    split; [vm_compute; lia|split; vm_compute; reflexivity].
  - apply (@overlay_family_lost ref_ipnet ref_ipnet_laws calm_env "bad address" false "ployz-wg" host_driver fresh_maps []
      (attached false) (attach_run false).2 "m1" overlay_machines _ _ 0%N calm_up (attach_run_ok false) (overlay_reach false)).
    exists (net_addr (sample_subnet 1) + 5)%N, (sample_subnet 1). split; [apply frame_to_ipv4; vm_compute; reflexivity|].
    split; [apply overlay_remote|]. split; vm_compute; discriminate.
Defined.

Lemma classify_longest_prefix_witness :
  let maps := with_routes (insert (@subnet_to_key ref_ipnet (mkNet 167772160 8)) (mkRouteEntry 3)) (overlay_maps true) in
  exists s, @routable ref_ipnet s /\ @contains ref_ipnet s (net_addr (sample_subnet 1) + 5) /\
    bm_routes maps !! @subnet_to_key ref_ipnet s = Some (mkRouteEntry 7).
Proof.
  intros maps.
  destruct (proj1 (@classify_longest_prefix ref_ipnet ref_ipnet_laws maps (frame_to (net_addr (sample_subnet 1) + 5))
    (net_addr (sample_subnet 1) + 5)%N 7%N (frame_to_ipv4 (net_addr (sample_subnet 1) + 5) ltac:(vm_compute; reflexivity))))
    as (s & H1 & H2 & H3 & _); [vm_compute; reflexivity|]. exists s. split; [exact H1|split; [exact H2|exact H3]].
Defined.

Lemma dataplane_calls_atomic_witness :
  all_or_nothing (call_effect (IP := ref_ipnet) (UpsertRoute (sample_subnet 1) 7))
    (run_call (IP := ref_ipnet) calm_env "bad address" (ViaContainer "ployz-wg" "br-ployz") (UpsertRoute (sample_subnet 1) 7)).
Proof.
  refine (proj1 (@dataplane_calls_atomic ref_ipnet ref_ipnet_laws calm_env "bad address" (ViaContainer "ployz-wg" "br-ployz")
    (sample_subnet 1) 7 ObserveEnabled _ _)); [split; vm_compute; discriminate|vm_compute; discriminate].
Defined.
