(* ===== verification/Container.v ===== *)
(** * Managed containers

    [runtime/] of [ployz-runtime-backends]: the labels of managed containers
    ([labels.rs]), image references ([image_ref.rs]), the desired and the
    observed container ([spec.rs]), the comparison that decides whether a
    container is kept ([diff.rs]) and the engine that adopts, creates or
    recreates it ([engine.rs]).  The Docker Engine is the interface [Docker];
    [DockerLaws] states what its API documents. *)

From S2P Require Import Prelude Order Effect Text Types Addr.
Local Open Scope string_scope.
Local Open Scope eff_scope.

(** ** Labels ([labels.rs]) *)

Definition LABEL_MANAGED : string := "dev.ployz.managed".
Definition LABEL_KIND : string := "dev.ployz.kind".
Definition LABEL_KEY : string := "dev.ployz.key".
Definition LABEL_PARENT_ID : string := "dev.ployz.parent-id".
Definition LABEL_NAMESPACE : string := "dev.ployz.namespace".
Definition LABEL_SERVICE : string := "dev.ployz.service".
Definition LABEL_REVISION : string := "dev.ployz.revision".
Definition LABEL_DEPLOY : string := "dev.ployz.deploy".
Definition LABEL_INSTANCE : string := "dev.ployz.instance".
Definition LABEL_SLOT : string := "dev.ployz.slot".
Definition LABEL_MACHINE : string := "dev.ployz.machine".
Definition LEGACY_LABEL_CONFIG_HASH : string := "ployz.config-hash".
Definition LEGACY_LABEL_PARENT_ID : string := "ployz.parent-container-id".

Record WorkloadMeta := {
  wm_namespace : string; wm_service : string; wm_revision : string; wm_deploy_id : string;
  wm_instance_id : string; wm_slot_id : string; wm_machine_id : string
}.
Record WorkloadLabels := {
  wl_instance_id : string; wl_service : string; wl_slot_id : string; wl_machine_id : string;
  wl_revision_hash : string; wl_deploy_id : string
}.

Definition build_system_labels (key : string) (parent_id : option string) : gmap string string :=
  let labels := <[LABEL_KEY := key]> (<[LABEL_KIND := "system"]> (<[LABEL_MANAGED := "true"]> ∅)) in
  match parent_id with Some pid => <[LABEL_PARENT_ID := pid]> labels | None => labels end.

Definition workload_identity (key : string) (meta : WorkloadMeta) : gmap string string :=
  <[LABEL_MACHINE := wm_machine_id meta]> (<[LABEL_SLOT := wm_slot_id meta]>
  (<[LABEL_INSTANCE := wm_instance_id meta]> (<[LABEL_DEPLOY := wm_deploy_id meta]>
  (<[LABEL_REVISION := wm_revision meta]> (<[LABEL_SERVICE := wm_service meta]>
  (<[LABEL_NAMESPACE := wm_namespace meta]> (<[LABEL_KEY := key]>
  (<[LABEL_KIND := "workload"]> (<[LABEL_MANAGED := "true"]> ∅))))))))).

(** The entries of [extra] are inserted last. *)
Definition build_workload_labels (key : string) (meta : WorkloadMeta) (extra : gmap string string)
    : gmap string string := extra ∪ workload_identity key meta.

Definition parse_key (labels : gmap string string) : option string := labels !! LABEL_KEY.

Definition extract_workload_labels (labels : gmap string string) : option WorkloadLabels :=
  instance_id ← labels !! LABEL_INSTANCE; service ← labels !! LABEL_SERVICE;
  slot_id ← labels !! LABEL_SLOT; machine_id ← labels !! LABEL_MACHINE;
  revision_hash ← labels !! LABEL_REVISION; deploy_id ← labels !! LABEL_DEPLOY;
  Some {| wl_instance_id := instance_id; wl_service := service; wl_slot_id := slot_id;
          wl_machine_id := machine_id; wl_revision_hash := revision_hash; wl_deploy_id := deploy_id |}.

(** ** Image references ([image_ref.rs]) *)

Record DockerImageRef := { from_image : string; ir_tag : option string }.

(** [str::rfind] of a character, and the two slices around an index. *)
Fixpoint rfind (c : ascii) (s : string) : option nat :=
  match s with
  | EmptyString => None
  | String d s => match rfind c s with
                  | Some i => Some (S i)
                  | None => if ascii_dec c d then Some 0 else None
                  end
  end.
Definition slice_to (i : nat) (s : string) : string := String.substring 0 i s.
Definition slice_from (i : nat) (s : string) : string := String.substring i (len s - i) s.

Definition parse_docker_image_ref (image : string) : DockerImageRef :=
  if contains_char "@" image then {| from_image := image; ir_tag := None |} else
  let last_slash := rfind "/" image in
  match rfind ":" image with
  | Some colon_index =>
      if match last_slash with None => true | Some slash_index => Nat.ltb slash_index colon_index end
      then {| from_image := slice_to colon_index image; ir_tag := Some (slice_from (colon_index + 1) image) |}
      else {| from_image := image; ir_tag := Some "latest" |}
  | None => {| from_image := image; ir_tag := Some "latest" |}
  end.

(** ** Desired and observed containers ([spec.rs]) *)

(** The types of the Docker API the sources build and read. *)
Record PortBinding := { pb_host_ip : option string; pb_host_port : option string }.
Abbreviation PortMap := (gmap string (option (list PortBinding))) (only parsing).
Inductive RestartPolicyName := RpEmpty | RpNo | RpAlways | RpUnlessStopped | RpOnFailure.
Record DockerRestartPolicy := { rp_name : option RestartPolicyName; rp_maximum_retry_count : option Z }.
#[global] Instance PortBinding_eq_dec : EqDecision PortBinding.
Proof. solve_decision. Defined.
#[global] Instance RestartPolicyName_eq_dec : EqDecision RestartPolicyName.
Proof. solve_decision. Defined.
#[global] Instance DockerRestartPolicy_eq_dec : EqDecision DockerRestartPolicy.
Proof. solve_decision. Defined.

Record ContainerConfig := {
  cc_image : option string; cc_cmd : option (list string); cc_entrypoint : option (list string);
  cc_env : option (list string); cc_labels : option (gmap string string); cc_user : option string;
  cc_exposed_ports : option (list string); cc_stop_timeout : option Z
}.
Record HostConfig := {
  hc_binds : option (list string); hc_dns : option (list string); hc_network_mode : option string;
  hc_port_bindings : option PortMap; hc_cap_add : option (list string); hc_cap_drop : option (list string);
  hc_privileged : option bool; hc_restart_policy : option DockerRestartPolicy; hc_memory : option Z;
  hc_nano_cpus : option Z; hc_sysctls : option (gmap string string); hc_tmpfs : option (gmap string string);
  hc_pid_mode : option string
}.
Record ContainerInspectResponse := {
  ci_id : option string; ci_name : option string; ci_running : option bool;
  ci_config : option ContainerConfig; ci_host_config : option HostConfig;
  ci_networks : option (gmap string (option string))    (* the endpoint's address per network *)
}.

Record RuntimeContainerSpec := {
  rc_key : string; rc_container_name : string; rc_image : string; rc_pull_policy : PullPolicy;
  rc_cmd : option (list string); rc_entrypoint : option (list string); rc_env : list (string * string);
  rc_labels : gmap string string; rc_binds : list string; rc_tmpfs : gmap string string;
  rc_dns_servers : list string; rc_network_mode : option string; rc_port_bindings : option PortMap;
  rc_exposed_ports : option (list string); rc_cap_add : list string; rc_cap_drop : list string;
  rc_privileged : bool; rc_user : option string; rc_restart_policy : option DockerRestartPolicy;
  rc_memory_bytes : option Z; rc_nano_cpus : option Z; rc_sysctls : gmap string string;
  rc_stop_timeout : option Z; rc_pid_mode : option string
}.

Record ObservedContainer := {
  oc_container_id : string; oc_container_name : string; oc_running : bool; oc_image : string;
  oc_cmd : option (list string); oc_entrypoint : option (list string); oc_env : list (string * string);
  oc_labels : gmap string string; oc_binds : list string; oc_tmpfs : gmap string string;
  oc_dns_servers : list string; oc_network_mode : option string; oc_port_bindings : option PortMap;
  oc_cap_add : list string; oc_cap_drop : list string; oc_privileged : bool; oc_user : option string;
  oc_restart_policy : option DockerRestartPolicy; oc_memory_bytes : option Z; oc_nano_cpus : option Z;
  oc_sysctls : gmap string string; oc_stop_timeout : option Z; oc_pid_mode : option string;
  oc_ip_address : option IpAddr; oc_networks : gmap string string
}.

Definition parse_env_pair (s : string) : string * string :=
  match split_once "=" s with Some (k, v) => (k, v) | None => (s, "") end.

(** [Option::and_then] and [Option::filter]. *)
Definition and_then {A B} (o : option A) (f : A -> option B) : option B :=
  match o with Some x => f x | None => None end.
Definition filter_option {A} (f : A -> bool) (o : option A) : option A :=
  match o with Some x => if f x then Some x else None | None => None end.

(** The loop over the networks: the first usable address and all of them. *)
Definition observe_network (acc : option IpAddr * gmap string string) (net : string * option string)
    : option IpAddr * gmap string string :=
  match net.2 with
  | Some ip => if is_empty ip then acc else
               match parse_ip ip with
               | Some addr => (match acc.1 with None => Some addr | Some a => Some a end, <[net.1 := ip]> acc.2)
               | None => acc
               end
  | None => acc
  end.

Definition observe_networks (info : ContainerInspectResponse) : option IpAddr * gmap string string :=
  match ci_networks info with
  | Some nets => foldl observe_network (None, ∅) (map_to_list nets)
  | None => (None, ∅)
  end.

Definition observe (info : ContainerInspectResponse) : ObservedContainer :=
  let config := ci_config info in
  let host_config := ci_host_config info in
  {| oc_container_id := default "" (ci_id info);
     oc_container_name := default "" (option_map (drop_char "/") (ci_name info));
     oc_running := default false (ci_running info);
     oc_image := default "" (and_then config cc_image);
     oc_cmd := and_then config cc_cmd;
     oc_entrypoint := and_then config cc_entrypoint;
     oc_env := default [] (option_map (map parse_env_pair) (and_then config cc_env));
     oc_labels := default ∅ (and_then config cc_labels);
     oc_binds := default [] (and_then host_config hc_binds);
     oc_tmpfs := default ∅ (and_then host_config hc_tmpfs);
     oc_dns_servers := default [] (and_then host_config hc_dns);
     oc_network_mode := and_then host_config hc_network_mode;
     oc_port_bindings := and_then host_config hc_port_bindings;
     oc_cap_add := default [] (and_then host_config hc_cap_add);
     oc_cap_drop := default [] (and_then host_config hc_cap_drop);
     oc_privileged := default false (and_then host_config hc_privileged);
     oc_user := filter_option (fun u => negb (is_empty u)) (and_then config cc_user);
     oc_restart_policy := and_then host_config hc_restart_policy;
     oc_memory_bytes := filter_option (fun m => 0 <? m)%Z (and_then host_config hc_memory);
     oc_nano_cpus := filter_option (fun c => 0 <? c)%Z (and_then host_config hc_nano_cpus);
     oc_sysctls := default ∅ (and_then host_config hc_sysctls);
     oc_stop_timeout := and_then config cc_stop_timeout;
     oc_pid_mode := and_then host_config hc_pid_mode;
     oc_ip_address := (observe_networks info).1;
     oc_networks := (observe_networks info).2 |}.

(** ** Comparing a container with its specification ([diff.rs]) *)

Inductive ChangedField :=
| CfImage | CfCmd | CfEntrypoint | CfEnv | CfBinds | CfTmpfs | CfDnsServers | CfNetworkMode | CfPortBindings
| CfCapAdd | CfCapDrop | CfPrivileged | CfUser | CfRestartPolicy | CfMemoryBytes | CfNanoCpus | CfSysctls
| CfStopTimeout | CfPidMode.
#[global] Instance ChangedField_eq_dec : EqDecision ChangedField.
Proof. solve_decision. Defined.

Inductive SpecChange := InSync | Missing | Drifted (fields : list ChangedField).
Definition is_in_sync (c : SpecChange) : bool := match c with InSync => true | _ => false end.

Definition entrypoint_equal (observed desired : option (list string)) : bool :=
  match desired with None => true | Some d => bool_decide (observed = Some d) end.

(** [Ord] of pairs of strings. *)
Definition pair_cmp (a b : string * string) : comparison := then_with (str_cmp a.1 b.1) (str_cmp a.2 b.2).

Definition env_equal (observed desired : list (string * string)) : bool :=
  let ignore_path := negb (existsb (fun kv => bool_decide (kv.1 = "PATH")) desired) in
  let observed_sorted :=
    sort_by pair_cmp (List.filter (fun kv => negb (ignore_path && bool_decide (kv.1 = "PATH"))) observed) in
  let desired_sorted := sort_by pair_cmp desired in
  bool_decide (observed_sorted = desired_sorted).

Definition network_mode_equal (observed desired : option string) : bool :=
  if decide (observed = desired) then true
  else match observed, desired with
       | Some observed, Some desired => starts_with observed "container:" && starts_with desired "container:"
       | _, _ => false
       end.

Definition normalize_restart_policy (policy : option DockerRestartPolicy) : option DockerRestartPolicy :=
  match policy with
  | None => None
  | Some policy =>
      if bool_decide (rp_name policy = Some RpNo) && (default 0 (rp_maximum_retry_count policy) =? 0)%Z
      then None else Some policy
  end.
Definition restart_policy_equal (observed desired : option DockerRestartPolicy) : bool :=
  bool_decide (normalize_restart_policy observed = desired).

Definition normalize_optional_string (value : option string) : option string :=
  match value with Some "" => None | _ => value end.
Definition pid_mode_equal (observed desired : option string) : bool :=
  bool_decide (normalize_optional_string observed = normalize_optional_string desired).

Definition sorted_eq (a b : list string) : bool :=
  if negb (Nat.eqb (length a) (length b)) then false
  else bool_decide (sort_strings a = sort_strings b).

(** The nineteen comparisons, in the order the source makes them. *)
Definition field_checks (observed : ObservedContainer) (desired : RuntimeContainerSpec)
    : list (bool * ChangedField) :=
  [ (bool_decide (oc_image observed = rc_image desired), CfImage);
    (bool_decide (oc_cmd observed = rc_cmd desired), CfCmd);
    (entrypoint_equal (oc_entrypoint observed) (rc_entrypoint desired), CfEntrypoint);
    (env_equal (oc_env observed) (rc_env desired), CfEnv);
    (sorted_eq (oc_binds observed) (rc_binds desired), CfBinds);
    (bool_decide (oc_tmpfs observed = rc_tmpfs desired), CfTmpfs);
    (sorted_eq (oc_dns_servers observed) (rc_dns_servers desired), CfDnsServers);
    (network_mode_equal (oc_network_mode observed) (rc_network_mode desired), CfNetworkMode);
    (bool_decide (oc_port_bindings observed = rc_port_bindings desired), CfPortBindings);
    (sorted_eq (oc_cap_add observed) (rc_cap_add desired), CfCapAdd);
    (sorted_eq (oc_cap_drop observed) (rc_cap_drop desired), CfCapDrop);
    (bool_decide (oc_privileged observed = rc_privileged desired), CfPrivileged);
    (bool_decide (oc_user observed = rc_user desired), CfUser);
    (restart_policy_equal (oc_restart_policy observed) (rc_restart_policy desired), CfRestartPolicy);
    (bool_decide (oc_memory_bytes observed = rc_memory_bytes desired), CfMemoryBytes);
    (bool_decide (oc_nano_cpus observed = rc_nano_cpus desired), CfNanoCpus);
    (bool_decide (oc_sysctls observed = rc_sysctls desired), CfSysctls);
    (bool_decide (oc_stop_timeout observed = rc_stop_timeout desired), CfStopTimeout);
    (pid_mode_equal (oc_pid_mode observed) (rc_pid_mode desired), CfPidMode) ].

Definition drifted_fields (observed : ObservedContainer) (desired : RuntimeContainerSpec) : list ChangedField :=
  map snd (List.filter (fun c => negb c.1) (field_checks observed desired)).
#[global] Arguments field_checks : simpl never.
#[global] Arguments drifted_fields : simpl never.

Definition eval_spec_change (observed : option ObservedContainer) (desired : RuntimeContainerSpec) : SpecChange :=
  match observed with
  | None => Missing
  | Some observed =>
      if negb (oc_running observed) then Missing
      else match drifted_fields observed desired with
           | [] => InSync
           | fields => Drifted fields
           end
  end.

Definition is_legacy_container (observed : ObservedContainer) : bool :=
  let has k := bool_decide (is_Some (oc_labels observed !! k)) in
  let has_new_key := has LABEL_KEY in
  let has_legacy := has LEGACY_LABEL_CONFIG_HASH || has LABEL_MANAGED || has LABEL_KIND in
  negb has_new_key && (has_legacy || negb (bool_decide (oc_labels observed = ∅))).
Definition has_new_labels (observed : ObservedContainer) : bool :=
  let has k := bool_decide (is_Some (oc_labels observed !! k)) in
  has LABEL_KEY && has LABEL_MANAGED && has LABEL_KIND.

Definition parent_id_matches (observed : ObservedContainer) (desired_parent_id : option string) : bool :=
  match desired_parent_id with
  | None => true
  | Some expected =>
      match oc_labels observed !! LABEL_PARENT_ID with
      | Some stored => bool_decide (stored = expected)
      | None => match oc_labels observed !! LEGACY_LABEL_PARENT_ID with
                | Some stored => bool_decide (stored = expected)
                | None => false
                end
      end
  end.

(** ** The Docker Engine API *)

(** [bollard::errors::Error]: the status of a server response, and the text. *)
Record DockerError := { de_status : option N; de_message : string }.
Definition has_status (l : list N) (e : DockerError) : bool :=
  match de_status e with Some s => bool_decide (s ∈ l) | None => false end.

Inductive DockerCall :=
| DcInspect (name : string)
| DcCreate (name : string) (config : ContainerConfig) (host_config : HostConfig)
| DcStart (name : string)
| DcStop (name : string) (secs : Z)
| DcRemove (name : string) (force : bool)
| DcList (label_filters : list string)
| DcInspectImage (image : string)
| DcCreateImage (ref : DockerImageRef).

(** The calls the sources make; [D] is the state of the daemon. *)
Class Docker (D : Type) := {
  dk_inspect_container : string -> D -> result DockerError ContainerInspectResponse * D;
  dk_create_container : string -> ContainerConfig -> HostConfig -> D -> result DockerError unit * D;
  dk_start_container : string -> D -> result DockerError unit * D;
  dk_stop_container : string -> Z -> D -> result DockerError unit * D;
  dk_remove_container : string -> bool -> D -> result DockerError unit * D;
  dk_list_containers : list string -> D -> result DockerError (list (option string)) * D;
  dk_inspect_image : string -> D -> result DockerError unit * D;
  dk_create_image : DockerImageRef -> D -> D
}.

(** ** The engine ([engine.rs]) *)

Inductive EnsureAction := Adopted | Created | Recreated (changed : list ChangedField).
Record EnsureResult := {
  er_container_id : string; er_container_name : string; er_action : EnsureAction;
  er_ip_address : option IpAddr; er_networks : gmap string string
}.

(** [secs as i32]. *)
Definition as_i32 (n : N) : Z :=
  let m := (Z.of_N n mod 4294967296)%Z in if (m <? 2147483648)%Z then m else (m - 4294967296)%Z.

Definition none_if_empty {A} (v : list A) : option (list A) := match v with [] => None | _ => Some v end.
Definition none_if_empty_map (m : gmap string string) : option (gmap string string) :=
  if decide (m = ∅) then None else Some m.

(** The body [create_and_start] sends. *)
Definition create_labels (spec : RuntimeContainerSpec) (parent_id : option string) : gmap string string :=
  match parent_id with
  | Some pid => <[LABEL_PARENT_ID := pid]> (rc_labels spec)
  | None => rc_labels spec
  end.
Definition create_config (spec : RuntimeContainerSpec) (parent_id : option string) : ContainerConfig :=
  let env := map (fun kv => kv.1 +:+ "=" +:+ kv.2) (rc_env spec) in
  {| cc_image := Some (rc_image spec); cc_cmd := rc_cmd spec; cc_entrypoint := rc_entrypoint spec;
     cc_env := none_if_empty env; cc_labels := Some (create_labels spec parent_id); cc_user := rc_user spec;
     cc_exposed_ports := rc_exposed_ports spec; cc_stop_timeout := rc_stop_timeout spec |}.
Definition create_host_config (spec : RuntimeContainerSpec) : HostConfig :=
  {| hc_binds := none_if_empty (rc_binds spec); hc_dns := none_if_empty (rc_dns_servers spec);
     hc_network_mode := rc_network_mode spec; hc_port_bindings := rc_port_bindings spec;
     hc_cap_add := none_if_empty (rc_cap_add spec); hc_cap_drop := none_if_empty (rc_cap_drop spec);
     hc_privileged := Some (rc_privileged spec); hc_restart_policy := rc_restart_policy spec;
     hc_memory := rc_memory_bytes spec; hc_nano_cpus := rc_nano_cpus spec;
     hc_sysctls := none_if_empty_map (rc_sysctls spec); hc_tmpfs := none_if_empty_map (rc_tmpfs spec);
     hc_pid_mode := rc_pid_mode spec |}.

Section engine.
Context {D : Type} `{Docker D}.
Abbreviation M := (eff D DockerCall Error).

(** One API call; its result is a value the caller inspects. *)
Definition dk {A} (c : DockerCall) (op : D -> A * D) : M A :=
  fun '(d, log) => let '(r, d') := op d in (Ok r, (d', (log ++ [c])%list)).
Definition docker_err {A} (operation : string) (e : DockerError) : M A :=
  mfail (Operation operation (de_message e)).

Definition engine_inspect (name : string) : M (option ObservedContainer) :=
  r <-! dk (DcInspect name) (dk_inspect_container name) ;;
  match r with
  | Ok info => mret (Some (observe info))
  | Err e => if has_status [404%N] e then mret None else docker_err "docker inspect" e
  end.

Definition is_running (name : string) : M bool :=
  observed <-! engine_inspect name ;;
  mret (match observed with None => false | Some observed => oc_running observed end).

Definition engine_stop (name : string) (grace_period : Duration) : M unit :=
  let secs := as_i32 (grace_period / 1000000000) in
  r <-! dk (DcStop name secs) (dk_stop_container name secs) ;;
  match r with
  | Ok _ => mret tt
  | Err e => if has_status [304%N; 404%N] e then mret tt else docker_err "docker stop" e
  end.

Definition engine_remove (name : string) (grace_period : Duration) : M unit :=
  _ <-! engine_stop name grace_period ;;
  r <-! dk (DcRemove name false) (dk_remove_container name false) ;;
  match r with
  | Ok _ => mret tt
  | Err e => if has_status [404%N] e then mret tt else docker_err "docker remove" e
  end.

Definition engine_start (name : string) : M unit :=
  r <-! dk (DcStart name) (dk_start_container name) ;;
  match r with
  | Ok _ => mret tt
  | Err e => if has_status [304%N] e then mret tt else docker_err "docker start" e
  end.

(** The inspections of [list_by_labels]; a container that cannot be inspected is skipped. *)
Fixpoint inspect_listed (summaries : list (option string)) : M (list ObservedContainer) :=
  match summaries with
  | [] => mret []
  | None :: summaries => inspect_listed summaries
  | Some id :: summaries =>
      r <-! dk (DcInspect id) (dk_inspect_container id) ;;
      rest <-! inspect_listed summaries ;;
      mret (match r with Ok info => observe info :: rest | Err _ => rest end)
  end.
Definition list_by_labels (filters : list (string * string)) : M (list ObservedContainer) :=
  let filter_strings := map (fun kv => kv.1 +:+ "=" +:+ kv.2) filters in
  r <-! dk (DcList filter_strings) (dk_list_containers filter_strings) ;;
  match r with
  | Ok summaries => inspect_listed summaries
  | Err e => docker_err "list_containers" e
  end.

(** [pull_docker_image]: a failed pull is logged and the cached image tried. *)
Definition pull_docker_image (image : string) : M unit :=
  let ref := parse_docker_image_ref image in
  dk (DcCreateImage ref) (fun d => (tt, dk_create_image ref d)).
Definition pull_image (image : string) (policy : PullPolicy) : M unit :=
  match policy with
  | Never => mret tt
  | IfNotPresent =>
      r <-! dk (DcInspectImage image) (dk_inspect_image image) ;;
      if is_ok r then mret tt else pull_docker_image image
  | Always => pull_docker_image image
  end.

Definition resolve_parent_id (spec : RuntimeContainerSpec) : M (option string) :=
  match rc_network_mode spec with
  | None => mret None
  | Some mode =>
      match strip_prefix "container:" mode with
      | None => mret None
      | Some parent_name =>
          r <-! dk (DcInspect parent_name) (dk_inspect_container parent_name) ;;
          match r with
          | Ok info => mret (ci_id info)
          | Err e => if has_status [404%N] e then mret None
                     else mfail (Operation "resolve_parent_id"
                                   ("inspect parent " +:+ parent_name +:+ ": " +:+ de_message e))
          end
      end
  end.

Definition force_remove (name : string) : M unit :=
  _ <-! dk (DcRemove name true) (dk_remove_container name true) ;; mret tt.

Definition or_docker_err {A} (operation : string) (r : result DockerError A) : M A :=
  match r with Ok a => mret a | Err e => docker_err operation e end.

Definition create_and_start (spec : RuntimeContainerSpec) (parent_id : option string)
    : M (string * option IpAddr * gmap string string) :=
  let name := rc_container_name spec in
  let config := create_config spec parent_id in
  let host_config := create_host_config spec in
  _ <-! force_remove name ;;
  r <-! dk (DcCreate name config host_config) (dk_create_container name config host_config) ;;
  _ <-! or_docker_err "docker create" r ;;
  r <-! dk (DcStart name) (dk_start_container name) ;;
  _ <-! or_docker_err "docker start" r ;;
  r <-! dk (DcInspect name) (dk_inspect_container name) ;;
  info <-! or_docker_err "docker inspect" r ;;
  let observed := observe info in
  mret (oc_container_id observed, oc_ip_address observed, oc_networks observed).

Definition ensure (spec : RuntimeContainerSpec) : M EnsureResult :=
  let name := rc_container_name spec in
  observed <-! engine_inspect name ;;
  parent_id <-! resolve_parent_id spec ;;
  let change := match observed with
                | Some obs => if negb (parent_id_matches obs parent_id) then Drifted [CfNetworkMode]
                              else eval_spec_change (Some obs) spec
                | None => Missing
                end in
  match change with
  | InSync =>
      match observed with
      | None => mfail (Operation "ensure" "InSync but no observed container")
      | Some obs => mret {| er_container_id := oc_container_id obs; er_container_name := name;
                            er_action := Adopted; er_ip_address := oc_ip_address obs;
                            er_networks := oc_networks obs |}
      end
  | Missing =>
      _ <-! pull_image (rc_image spec) (rc_pull_policy spec) ;;
      '(container_id, ip_address, networks) <-! create_and_start spec parent_id ;;
      mret {| er_container_id := container_id; er_container_name := name; er_action := Created;
              er_ip_address := ip_address; er_networks := networks |}
  | Drifted fields =>
      _ <-! pull_image (rc_image spec) (rc_pull_policy spec) ;;
      _ <-! force_remove name ;;
      '(container_id, ip_address, networks) <-! create_and_start spec parent_id ;;
      mret {| er_container_id := container_id; er_container_name := name;
              er_action := Recreated fields; er_ip_address := ip_address; er_networks := networks |}
  end.
End engine.

(** ** When a container is kept *)

#[global] Instance pair_cmp_total : TotalCmp pair_cmp.
Proof. unfold pair_cmp. apply _. Qed.

Lemma pair_cmp_eq a b : pair_cmp a b = Eq <-> a = b.
Proof.
  destruct a as [a1 a2], b as [b1 b2]. unfold pair_cmp, then_with. simpl. split.
  - destruct (str_cmp a1 b1) eqn:E; try done. apply str_cmp_eq in E as ->. by intros ->%str_cmp_eq.
  - intros [= -> ->]. by rewrite !(proj2 (str_cmp_eq _ _) eq_refl).
Qed.

(** The variables compared: the observed [PATH] counts only if one is desired. *)
Definition compared_env (observed desired : list (string * string)) : list (string * string) :=
  if decide ("PATH" ∈ desired.*1) then observed else filter (fun kv => kv.1 <> "PATH") observed.

(** What it means for a field to agree. *)
Definition agrees (f : ChangedField) (obs : ObservedContainer) (spec : RuntimeContainerSpec) : Prop :=
  match f with
  | CfImage => oc_image obs = rc_image spec
  | CfCmd => oc_cmd obs = rc_cmd spec
  | CfEntrypoint => rc_entrypoint spec = None \/ oc_entrypoint obs = rc_entrypoint spec
  | CfEnv => compared_env (oc_env obs) (rc_env spec) ≡ₚ rc_env spec
  | CfBinds => oc_binds obs ≡ₚ rc_binds spec
  | CfTmpfs => oc_tmpfs obs = rc_tmpfs spec
  | CfDnsServers => oc_dns_servers obs ≡ₚ rc_dns_servers spec
  | CfNetworkMode => oc_network_mode obs = rc_network_mode spec \/
      exists a b, oc_network_mode obs = Some ("container:" +:+ a) /\ rc_network_mode spec = Some ("container:" +:+ b)
  | CfPortBindings => oc_port_bindings obs = rc_port_bindings spec
  | CfCapAdd => oc_cap_add obs ≡ₚ rc_cap_add spec
  | CfCapDrop => oc_cap_drop obs ≡ₚ rc_cap_drop spec
  | CfPrivileged => oc_privileged obs = rc_privileged spec
  | CfUser => oc_user obs = rc_user spec
  | CfRestartPolicy => normalize_restart_policy (oc_restart_policy obs) = rc_restart_policy spec
  | CfMemoryBytes => oc_memory_bytes obs = rc_memory_bytes spec
  | CfNanoCpus => oc_nano_cpus obs = rc_nano_cpus spec
  | CfSysctls => oc_sysctls obs = rc_sysctls spec
  | CfStopTimeout => oc_stop_timeout obs = rc_stop_timeout spec
  | CfPidMode => default "" (oc_pid_mode obs) = default "" (rc_pid_mode spec)
  end.

Lemma sorted_eq_spec a b : sorted_eq a b = true <-> a ≡ₚ b.
Proof.
  unfold sorted_eq. split.
  - destruct (Nat.eqb_spec (length a) (length b)); simpl; [|done]. intros E%bool_decide_eq_true.
    unfold sort_strings in E. rewrite <- (sort_by_perm str_cmp a), E. by rewrite sort_by_perm.
  - intros Hp. rewrite (Permutation_length Hp), Nat.eqb_refl. simpl.
    apply bool_decide_eq_true. by apply sort_strings_unique.
Qed.

Lemma list_filter_bool {A} (P : A -> Prop) `{!forall x, Decision (P x)} (f : A -> bool) l :
  (forall x, f x = true <-> P x) -> List.filter f l = filter P l.
Proof.
  intros Hf. induction l as [|x l IH]; simpl; [done|]. rewrite filter_cons, IH.
  destruct (f x) eqn:E; case_decide as Hd; try done.
  - exfalso. by apply Hd, Hf.
  - apply Hf in Hd. congruence.
Qed.

Lemma compared_env_spec (observed desired : list (string * string)) :
  List.filter (fun kv => negb (negb (existsb (fun kv => bool_decide (kv.1 = "PATH")) desired) &&
                               bool_decide (kv.1 = "PATH"))) observed = compared_env observed desired.
Proof.
  assert (existsb (fun kv : string * string => bool_decide (kv.1 = "PATH")) desired = true <-> "PATH" ∈ desired.*1) as Hx.
  { rewrite existsb_exists, list_elem_of_fmap. setoid_rewrite bool_decide_eq_true.
    setoid_rewrite <- list_elem_of_In. naive_solver. }
  unfold compared_env. destruct (existsb _ desired) eqn:E.
  - rewrite decide_True by by apply Hx. simpl. induction observed as [|x l IH]; simpl; [done|]. by f_equal.
  - rewrite decide_False by (rewrite <- Hx; done). simpl. apply list_filter_bool.
    intros x. rewrite negb_true_iff, bool_decide_eq_false. done.
Qed.

Lemma env_equal_spec observed desired :
  env_equal observed desired = true <-> compared_env observed desired ≡ₚ desired.
Proof.
  unfold env_equal. rewrite bool_decide_eq_true, compared_env_spec. split.
  - intros E. rewrite <- (sort_by_perm pair_cmp (compared_env _ _)), E. apply sort_by_perm.
  - intros Hp. apply sort_by_unique; [apply _|intros; by apply pair_cmp_eq|done].
Qed.

Lemma field_checks_spec obs spec f b : (b, f) ∈ field_checks obs spec -> b = true <-> agrees f obs spec.
Proof.
  unfold field_checks. rewrite !elem_of_cons. intros Hf.
  repeat destruct Hf as [[= -> ->]|Hf]; try apply elem_of_nil in Hf as []; simpl;
    rewrite ?bool_decide_eq_true, ?sorted_eq_spec, ?env_equal_spec; try done.
  - unfold entrypoint_equal. destruct (rc_entrypoint spec); [rewrite bool_decide_eq_true|]; naive_solver.
  - unfold network_mode_equal. destruct (decide _) as [E|E]; [naive_solver|].
    split; [|intros [?|(a & b & -> & ->)]; done].
    destruct (oc_network_mode obs) as [o|], (rc_network_mode spec) as [d|]; try done.
    rewrite andb_true_iff, !starts_with_spec. intros [[a ->] [b ->]]. right. eauto.
  - unfold restart_policy_equal. by rewrite bool_decide_eq_true.
  - unfold pid_mode_equal. rewrite bool_decide_eq_true.
    destruct (oc_pid_mode obs) as [[]|], (rc_pid_mode spec) as [[]|]; simpl; naive_solver.
Qed.

Lemma field_checks_all obs spec f : exists b, (b, f) ∈ field_checks obs spec.
Proof.
  assert (f ∈ (field_checks obs spec).*2) as ([b g] & -> & Hb)%list_elem_of_fmap; [|by exists b].
  change (field_checks obs spec).*2 with
    [CfImage; CfCmd; CfEntrypoint; CfEnv; CfBinds; CfTmpfs; CfDnsServers; CfNetworkMode; CfPortBindings; CfCapAdd;
     CfCapDrop; CfPrivileged; CfUser; CfRestartPolicy; CfMemoryBytes; CfNanoCpus; CfSysctls; CfStopTimeout; CfPidMode].
  destruct f; repeat first [left; reflexivity|right].
Qed.

Lemma changed_fields obs spec f :
  f ∈ drifted_fields obs spec <-> ~ agrees f obs spec.
Proof.
  unfold drifted_fields. rewrite list_elem_of_fmap. setoid_rewrite list_elem_of_In. setoid_rewrite filter_In.
  setoid_rewrite <- list_elem_of_In. split.
  - intros ([b g] & -> & Hf & Hb). simpl in *. rewrite <- (field_checks_spec _ _ _ _ Hf). by destruct b.
  - intros Hn. destruct (field_checks_all obs spec f) as [b Hf]. exists (b, f). split_and!; [done..|].
    simpl. rewrite <- (field_checks_spec _ _ _ _ Hf) in Hn. by destruct b.
Qed.

Lemma eval_spec_change_cases (observed : option ObservedContainer) (spec : RuntimeContainerSpec) :
  match eval_spec_change observed spec with
  | Missing => forall obs, observed = Some obs -> oc_running obs = false
  | InSync => exists obs, observed = Some obs /\ oc_running obs = true /\ forall f, agrees f obs spec
  | Drifted fields => exists obs, observed = Some obs /\ oc_running obs = true /\ fields <> [] /\
                                  forall f, f ∈ fields <-> ~ agrees f obs spec
  end.
Proof.
  unfold eval_spec_change. destruct observed as [obs|]; [|done].
  destruct (oc_running obs) eqn:Hr; simpl; [|by intros ? [= <-]].
  pose proof (changed_fields obs spec) as Hc.
  destruct (drifted_fields obs spec) as [|g fields] eqn:E; exists obs; split_and!; try done.
  intros f. destruct (field_checks_all obs spec f) as [b Hf].
  pose proof (field_checks_spec _ _ _ _ Hf) as Hs. destruct b; [by apply Hs|].
  exfalso. assert (f ∈ @nil ChangedField) as Hn by (apply Hc; rewrite <- Hs; done). by apply elem_of_nil in Hn.
Qed.

(** The comparison of containers is exact.  A container that is absent or
    not running is missing.  A running one is in sync if and only if all
    nineteen fields agree, and otherwise the drift names exactly the fields that
    do not.  Lists and variables agree up to order, an unset entrypoint agrees
    with any, the observed [PATH] counts only if one is desired, and
    [container:] network modes all agree. *)
Theorem eval_spec_change_exact (observed : option ObservedContainer) (spec : RuntimeContainerSpec) :
  match eval_spec_change observed spec with
  | Missing => forall obs, observed = Some obs -> oc_running obs = false
  | InSync => exists obs, observed = Some obs /\ oc_running obs = true /\ forall f, agrees f obs spec
  | Drifted fields => exists obs, observed = Some obs /\ oc_running obs = true /\ fields <> [] /\
                                  forall f, f ∈ fields <-> ~ agrees f obs spec
  end.
Proof. apply eval_spec_change_cases. Qed.

(** ** What the Docker API documents *)

(** What an image sets when a container does not. *)
Record ImageDefaults := { img_cmd : option (list string); img_env : list string; img_user : string }.

Definition env_key (s : string) : string := (parse_env_pair s).1.

(** The configuration an inspection shows of a container created with [config]:
    what was given, and the image's defaults for what was not. *)
Record config_echo (img : ImageDefaults) (config c : ContainerConfig) : Prop := {
  ce_image : cc_image c = cc_image config;
  ce_cmd : cc_cmd c = cc_cmd config \/ (cc_cmd config = None /\ cc_cmd c = img_cmd img);
  ce_entrypoint : cc_entrypoint config <> None -> cc_entrypoint c = cc_entrypoint config;
  ce_env : exists extra, default [] (cc_env c) = (default [] (cc_env config) ++ extra)%list /\
             Forall (fun s => s ∈ img_env img /\ env_key s ∉ env_key <$> default [] (cc_env config)) extra;
  ce_labels : default ∅ (cc_labels config) ⊆ default ∅ (cc_labels c);
  ce_user : cc_user c = cc_user config \/ (cc_user config = None /\ cc_user c = Some (img_user img));
  ce_stop_timeout : cc_stop_timeout c = cc_stop_timeout config
}.

(** An unset list or map is shown as null or empty, an unset number as null or
    zero, an unset restart policy as null or [no]. *)
Record host_echo (host h : HostConfig) : Prop := {
  he_binds : default [] (hc_binds h) = default [] (hc_binds host);
  he_dns : default [] (hc_dns h) = default [] (hc_dns host);
  he_cap_add : default [] (hc_cap_add h) = default [] (hc_cap_add host);
  he_cap_drop : default [] (hc_cap_drop h) = default [] (hc_cap_drop host);
  he_sysctls : default ∅ (hc_sysctls h) = default ∅ (hc_sysctls host);
  he_tmpfs : default ∅ (hc_tmpfs h) = default ∅ (hc_tmpfs host);
  he_network_mode : hc_network_mode host <> None -> hc_network_mode h = hc_network_mode host;
  he_port_bindings : hc_port_bindings host <> None -> hc_port_bindings h = hc_port_bindings host;
  he_privileged : default false (hc_privileged h) = default false (hc_privileged host);
  he_restart : normalize_restart_policy (hc_restart_policy h) = normalize_restart_policy (hc_restart_policy host);
  he_memory : filter_option (fun m => 0 <? m)%Z (hc_memory h) = filter_option (fun m => 0 <? m)%Z (hc_memory host);
  he_nano_cpus : filter_option (fun m => 0 <? m)%Z (hc_nano_cpus h) = filter_option (fun m => 0 <? m)%Z (hc_nano_cpus host);
  he_pid_mode : default "" (hc_pid_mode h) = default "" (hc_pid_mode host)
}.

(** [dk_view d n] is what an inspection of [n] shows in state [d]; a call
    touches at most the container it names. *)
Class DockerLaws (D : Type) `{Docker D} := {
  dk_view : D -> string -> option ContainerInspectResponse;
  dk_image : D -> string -> ImageDefaults;
  dk_other (d : D) (name n : string) : Prop := exists info, dk_view d n = Some info /\
    forall info0, dk_view d name = Some info0 -> ci_id info0 <> ci_id info;
  law_inspect : forall name d r d', dk_inspect_container name d = (r, d') ->
    (forall n, dk_view d' n = dk_view d n) /\
    match r with
    | Ok info => dk_view d name = Some info
    | Err e => has_status [404%N] e = true -> dk_view d name = None
    end;
  law_inspect_image : forall image d r d', dk_inspect_image image d = (r, d') ->
    forall n, dk_view d' n = dk_view d n;
  law_create_image : forall ref d n, dk_view (dk_create_image ref d) n = dk_view d n;
  law_remove : forall name force d r d', dk_remove_container name force d = (r, d') ->
    (forall n, dk_other d name n -> dk_view d' n = dk_view d n) /\
    match r with Ok _ => dk_view d' name = None | Err _ => dk_view d' name = dk_view d name end;
  law_create : forall name config host d r d', dk_create_container name config host d = (r, d') ->
    (forall n info, dk_view d n = Some info -> dk_view d' n = Some info) /\
    (is_ok r = true -> exists info c h,
       dk_view d' name = Some info /\ ci_config info = Some c /\ ci_host_config info = Some h /\
       (forall image, cc_image config = Some image -> config_echo (dk_image d image) config c) /\
       host_echo host h /\
       (forall n info0, dk_view d n = Some info0 -> ci_id info <> ci_id info0));
  law_start : forall name d r d', dk_start_container name d = (r, d') ->
    (forall n, dk_other d name n -> dk_view d' n = dk_view d n) /\
    (is_ok r = true -> exists info info', dk_view d name = Some info /\ dk_view d' name = Some info' /\
       ci_id info' = ci_id info /\ ci_running info' = Some true /\
       ci_config info' = ci_config info /\ ci_host_config info' = ci_host_config info)
}.

(** A specification whose comparison does not depend on defaults it leaves to
    the image or the daemon. *)
Record pinned (spec : RuntimeContainerSpec) (img : ImageDefaults) : Prop := {
  pin_cmd : rc_cmd spec <> None \/ img_cmd img = None;
  pin_network : rc_network_mode spec <> None;
  pin_ports : rc_port_bindings spec <> None;
  pin_keys : Forall (fun kv => contains_char "=" kv.1 = false) (rc_env spec);
  pin_env : Forall (fun s => env_key s ∈ (rc_env spec).*1 \/ env_key s = "PATH") (img_env img);
  pin_user : (exists u, rc_user spec = Some u /\ u <> "") \/ (rc_user spec = None /\ img_user img = "");
  pin_restart : normalize_restart_policy (rc_restart_policy spec) = rc_restart_policy spec;
  pin_memory : forall m, rc_memory_bytes spec = Some m -> (0 < m)%Z;
  pin_cpus : forall m, rc_nano_cpus spec = Some m -> (0 < m)%Z
}.

Lemma parse_env_pair_eq k v : contains_char "=" k = false -> parse_env_pair (k +:+ "=" +:+ v) = (k, v).
Proof. intros Hk. unfold parse_env_pair. change (k +:+ "=" +:+ v) with (k +:+ String "=" v). by rewrite split_once_app. Qed.

Lemma default_none_if_empty {A} (v : list A) : default [] (none_if_empty v) = v.
Proof. by destruct v. Qed.
Lemma default_none_if_empty_map m : default ∅ (none_if_empty_map m) = m.
Proof. unfold none_if_empty_map. by destruct (decide (m = ∅)). Qed.

(** Printed variables are read back. *)
Lemma env_echo (env : list (string * string)) :
  Forall (fun kv => contains_char "=" kv.1 = false) env ->
  map parse_env_pair (map (fun kv => kv.1 +:+ "=" +:+ kv.2) env) = env.
Proof.
  induction 1 as [|[k v] env Hk _ IH]; simpl; [done|]. by rewrite parse_env_pair_eq, IH.
Qed.

Lemma compared_env_extra (env extra : list (string * string)) :
  Forall (fun kv => kv.1 = "PATH" /\ kv.1 ∉ env.*1) extra -> compared_env (env ++ extra) env ≡ₚ env.
Proof.
  intros He. unfold compared_env. case_decide as Hp.
  - destruct extra as [|kv extra]; [by rewrite app_nil_r|].
    apply Forall_cons in He as [[Hk Hn] _]. rewrite Hk in Hn. done.
  - rewrite filter_app.
    assert (filter (fun kv : string * string => kv.1 <> "PATH") extra = []) as ->.
    { induction He as [|kv l [Hk _] _ IH]; [done|]. rewrite filter_cons_False by (intros Hx; by apply Hx). done. }
    rewrite app_nil_r. clear He. induction env as [|kv env IH]; [done|].
    rewrite fmap_cons, not_elem_of_cons in Hp. destruct Hp as [Hk Hp].
    rewrite filter_cons_True by done. by rewrite (IH Hp).
Qed.

Section echo.
Context (spec : RuntimeContainerSpec) (parent_id : option string) (img : ImageDefaults)
  (info : ContainerInspectResponse) (c : ContainerConfig) (h : HostConfig).
Context (Hpin : pinned spec img) (Hc : ci_config info = Some c) (Hh : ci_host_config info = Some h)
  (Hce : config_echo img (create_config spec parent_id) c) (Hhe : host_echo (create_host_config spec) h).

Lemma echo_env_agrees : compared_env (oc_env (observe info)) (rc_env spec) ≡ₚ rc_env spec.
Proof.
  destruct (ce_env _ _ _ Hce) as (extra & Henv & Hextra). simpl in Henv, Hextra.
  rewrite default_none_if_empty in Henv, Hextra.
  unfold observe. simpl. rewrite Hc. simpl.
  replace (default [] (option_map (map parse_env_pair) (cc_env c)))
    with (map parse_env_pair (default [] (cc_env c))) by by destruct (cc_env c).
  rewrite Henv, map_app, (env_echo _ (pin_keys _ _ Hpin)). apply compared_env_extra.
  apply Forall_map. eapply Forall_impl; [exact Hextra|]. intros s [Hs Hn]. simpl.
  assert (env_key <$> map (fun kv : string * string => kv.1 +:+ "=" +:+ kv.2) (rc_env spec) = (rc_env spec).*1) as Hkeys.
  { rewrite <- (env_echo _ (pin_keys _ _ Hpin)) at 2. by rewrite <- !list_fmap_compose. }
  rewrite Hkeys in Hn. split; [|done].
  pose proof (pin_env _ _ Hpin) as Hp. rewrite Forall_forall in Hp. by destruct (Hp s Hs).
Qed.

Lemma echo_agrees f : agrees f (observe info) spec.
Proof.
  destruct (decide (f = CfEnv)) as [->|Hf]; [exact echo_env_agrees|].
  unfold observe.
  destruct Hce as [Himg Hcmd Hent _ _ Huser Hstop], Hhe as [Hb Hdns Hca Hcd Hsys Htmp Hnet Hports Hpriv Hres Hmem Hnano Hpid].
  destruct Hpin as [Pcmd Pnet Pports _ _ Puser Pres Pmem Pcpu]. simpl in *.
  rewrite default_none_if_empty in Hb, Hdns, Hca, Hcd. rewrite default_none_if_empty_map in Hsys, Htmp.
  destruct f; simpl; rewrite ?Hc, ?Hh; simpl; rewrite ?Himg, ?Hb, ?Hdns, ?Hca, ?Hcd, ?Hsys, ?Htmp, ?Hpriv, ?Hstop; try done.
  - destruct Hcmd as [->|[Hn ->]]; [done|]. by destruct Pcmd as [?| ->].
  - destruct (rc_entrypoint spec) as [e|]; [right; by apply Hent|by left].
  - left. by apply Hnet.
  - by apply Hports.
  - destruct Puser as [(u & Hu & Hne)|[Hu Hi]].
    + destruct Huser as [->|[Hn _]]; [|congruence]. rewrite Hu. simpl. by destruct u.
    + destruct Huser as [->|[_ ->]]; rewrite Hu; [done|]. by rewrite Hi.
  - by rewrite Hres.
  - rewrite Hmem. destruct (rc_memory_bytes spec) as [m|] eqn:E; [|done]. simpl.
    specialize (Pmem m eq_refl). by destruct (Z.ltb_spec 0 m); [|lia].
  - rewrite Hnano. destruct (rc_nano_cpus spec) as [m|] eqn:E; [|done]. simpl.
    specialize (Pcpu m eq_refl). by destruct (Z.ltb_spec 0 m); [|lia].
Qed.

Lemma echo_parent : parent_id_matches (observe info) parent_id = true.
Proof.
  unfold observe.
  pose proof (ce_labels _ _ _ Hce) as Hl. unfold parent_id_matches. simpl in *. rewrite Hc. simpl.
  destruct parent_id as [pid|]; [|done].
  assert (default ∅ (cc_labels c) !! LABEL_PARENT_ID = Some pid) as ->.
  { eapply lookup_weaken; [|exact Hl]. simpl. by rewrite lookup_insert_eq. }
  by apply bool_decide_eq_true.
Qed.
End echo.

(** ** Ensuring a container twice *)

Definition is_inspect (c : DockerCall) : Prop := match c with DcInspect _ => True | _ => False end.

Definition parent_name (spec : RuntimeContainerSpec) : option string :=
  and_then (rc_network_mode spec) (strip_prefix "container:").

Section ensure_laws.
Context {D : Type} `{DockerLaws D} (spec : RuntimeContainerSpec).
Abbreviation name := (rc_container_name spec).

Definition same_view (d d' : D) : Prop := forall n, dk_view d' n = dk_view d n.

Definition parent_of (d : D) : option string :=
  match parent_name spec with
  | Some p => match dk_view d p with Some info => ci_id info | None => None end
  | None => None
  end.

(** The parent, if the specification has one, is another container. *)
Definition parent_ok (d : D) : Prop := forall p, parent_name spec = Some p -> dk_other d name p.

Definition keeps_parent (d d' : D) : Prop :=
  forall p, parent_name spec = Some p -> dk_view d' p = dk_view d p /\ dk_other d' name p.

(** A container that a run of [ensure] keeps. *)
Definition settled (d : D) (cid : string) : Prop :=
  exists info, dk_view d name = Some info /\ oc_container_id (observe info) = cid /\
    eval_spec_change (Some (observe info)) spec = InSync /\
    parent_id_matches (observe info) (parent_of d) = true.

Lemma parent_of_keeps d d' : keeps_parent d d' -> parent_of d' = parent_of d.
Proof. intros Hk. unfold parent_of. destruct (parent_name spec) as [p|] eqn:E; [|done]. by rewrite (proj1 (Hk p E)). Qed.

Lemma other_view d d' n1 n2 : same_view d d' -> dk_other d n1 n2 -> dk_other d' n1 n2.
Proof. intros Hv (info & Hi & Ho). exists info. by rewrite !Hv. Qed.

Lemma keeps_view d d' : same_view d d' -> parent_ok d -> keeps_parent d d'.
Proof. intros Hv Hp p Hn. split; [apply Hv|]. by apply (other_view d), Hp. Qed.

Lemma keeps_trans d d1 d2 : keeps_parent d d1 -> keeps_parent d1 d2 -> keeps_parent d d2.
Proof. intros H1 H2 p Hp. destruct (H1 p Hp) as [<- _]. by apply H2. Qed.

Lemma keeps_ok d d' : keeps_parent d d' -> parent_ok d'.
Proof. intros Hk p Hp. by apply Hk. Qed.

Lemma settled_view d d' cid : same_view d d' -> settled d cid -> settled d' cid.
Proof.
  intros Hv (info & Hi & Hid & Hs & Hp). exists info. rewrite Hv. split_and!; try done.
  replace (parent_of d') with (parent_of d); [done|]. unfold parent_of. by destruct (parent_name spec); rewrite ?Hv.
Qed.

Lemma wp_dk {A} c (op : D -> A * D) Q d log :
  (forall r d', op d = (r, d') -> Q (Ok r) d' (log ++ [c])%list) -> wp (dk c op) Q d log.
Proof. intros HQ. unfold wp, dk. destruct (op d) as [r d'] eqn:E. by apply HQ. Qed.

Lemma inspect_spec n d log :
  wp (engine_inspect n) (fun r d' log' => same_view d d' /\ log' = (log ++ [DcInspect n])%list /\
    match r with Ok o => o = option_map observe (dk_view d n) | Err e => err_operation e = "docker inspect" end) d log.
Proof.
  apply wp_bind, wp_dk. intros r d' [Hv Hr]%law_inspect. destruct r as [info|e].
  - apply wp_ret. by rewrite Hr.
  - destruct (has_status [404%N] e) eqn:E; [|by apply wp_fail]. apply wp_ret. by rewrite (Hr eq_refl).
Qed.

Lemma resolve_parent_spec d log :
  wp (resolve_parent_id spec) (fun r d' log' => same_view d d' /\
    (exists new, log' = (log ++ new)%list /\ Forall is_inspect new) /\
    match r with Ok pid => pid = parent_of d | Err e => err_operation e = "resolve_parent_id" end) d log.
Proof.
  unfold resolve_parent_id, parent_of, parent_name. destruct (rc_network_mode spec) as [mode|]; cbn [and_then].
  2:{ apply wp_ret. split_and!; try done. exists []. by rewrite app_nil_r. }
  destruct (strip_prefix "container:" mode) as [p|].
  2:{ apply wp_ret. split_and!; try done. exists []. by rewrite app_nil_r. }
  apply wp_bind, wp_dk. intros r d' [Hv Hr]%law_inspect.
  assert (exists new, (log ++ [DcInspect p])%list = (log ++ new)%list /\ Forall is_inspect new) as Hl.
  { exists [DcInspect p]. split; [done|]. by repeat constructor. }
  destruct r as [info|e].
  - apply wp_ret. by rewrite Hr.
  - destruct (has_status [404%N] e) eqn:E; [|by apply wp_fail]. apply wp_ret. by rewrite (Hr eq_refl).
Qed.

Lemma pull_spec image policy d log : wp (pull_image image policy) (fun _ d' _ => same_view d d') d log.
Proof.
  assert (forall d log, wp (pull_docker_image image) (fun _ d' _ => same_view d d') d log) as Hp.
  { intros d1 log1. apply wp_dk. intros r d' [= _ <-]. intros n. apply law_create_image. }
  unfold pull_image. destruct policy; [|apply Hp|by apply wp_ret].
  apply wp_bind, wp_dk. intros r d' Hi. pose proof (law_inspect_image _ _ _ _ Hi) as Hv. destruct (is_ok r); [by apply wp_ret|].
  eapply wp_mono; [apply Hp|]. intros r2 d2 log2 Hv2 n. by rewrite Hv2, Hv.
Qed.

Lemma force_remove_spec d log :
  parent_ok d -> wp (force_remove name) (fun _ d' _ => keeps_parent d d') d log.
Proof.
  intros Hp. apply wp_bind, wp_dk. intros r d' [Ho Hr]%law_remove. apply wp_ret.
  intros p Hpn. pose proof (Hp p Hpn) as Hop. destruct (Hp p Hpn) as (info & Hi & Hdiff). split; [by apply Ho|].
  exists info. rewrite (Ho p Hop). split; [done|]. intros info0. destruct r; rewrite Hr; [done|]. apply Hdiff.
Qed.
Lemma create_spec d log :
  (forall d, pinned spec (dk_image d (rc_image spec))) -> parent_ok d ->
  wp (create_and_start spec (parent_of d)) (fun r d' _ => forall cid ip nets, r = Ok (cid, ip, nets) ->
    settled d' cid /\ keeps_parent d d') d log.
Proof.
  intros Hpin Hp. unfold create_and_start.
  apply wp_bind. eapply wp_mono; [by apply force_remove_spec|]. intros [u|e] d1 log1 Hk1; [|done]. clear u.
  apply wp_bind, wp_dk. intros r d2 [Hkeep2 Hnew]%law_create. apply wp_bind.
  destruct r as [u|e]; [|by apply wp_fail]. apply wp_ret.
  destruct (Hnew eq_refl) as (info & c & h & Hv2 & Hc & Hh & Hce & Hhe & Hfresh). clear Hnew.
  assert (keeps_parent d1 d2) as Hk2.
  { intros p Hpn. destruct (keeps_ok _ _ Hk1 p Hpn) as (infop & Hip & _).
    rewrite Hip, (Hkeep2 _ _ Hip). split; [done|]. exists infop. rewrite (Hkeep2 _ _ Hip). split; [done|].
    intros info0. rewrite Hv2. intros [= <-]. by apply (Hfresh p). }
  apply wp_bind, wp_dk. intros r d3 [Hother Hst]%law_start. apply wp_bind.
  destruct r as [[]|e]; [|by apply wp_fail]. apply wp_ret.
  destruct (Hst eq_refl) as (i2 & info' & Hv2' & Hv3 & Hid & Hrun & Hc' & Hh'). rewrite Hv2 in Hv2'. simplify_eq.
  assert (keeps_parent d2 d3) as Hk3.
  { intros p Hpn. pose proof (keeps_ok _ _ Hk2 p Hpn) as Hop. destruct (keeps_ok _ _ Hk2 p Hpn) as (infop & Hip & Hdiff).
    split; [by apply Hother|]. exists infop. rewrite (Hother p Hop). split; [done|]. intros info0. rewrite Hv3.
    intros [= <-]. rewrite Hid. by apply Hdiff. }
  apply wp_bind, wp_dk. intros r d4 [Hv4 Hr]%law_inspect. apply wp_bind.
  destruct r as [info4|e]; [|by apply wp_fail]. apply wp_ret, wp_ret. rewrite Hv3 in Hr. simplify_eq.
  intros cid ip nets [= <- <- <-].
  assert (keeps_parent d d4) as Hk.
  { eapply keeps_trans; [exact Hk1|]. eapply keeps_trans; [exact Hk2|]. eapply keeps_trans; [exact Hk3|].
    apply keeps_view; [exact Hv4|]. by eapply keeps_ok. }
  split; [|done]. exists info4. rewrite Hv4, (parent_of_keeps _ _ Hk), Hv3. split_and!; [done..| |].
  - rewrite Hc in Hc'. rewrite Hh in Hh'.
    pose proof (echo_agrees spec (parent_of d) _ info4 c h (Hpin d1) Hc' Hh' (Hce _ eq_refl) Hhe) as Hag.
    pose proof (eval_spec_change_cases (Some (observe info4)) spec) as Hex.
    destruct (eval_spec_change _ _) as [| |fs]; [done| |].
    + specialize (Hex _ eq_refl). unfold observe in Hex. simpl in Hex. by rewrite Hrun in Hex.
    + destruct Hex as (obs & [= <-] & _ & Hne & Hfs). destruct fs as [|f fs]; [done|].
      exfalso. apply (Hfs f); [by left|]. apply Hag.
  - rewrite Hc in Hc'. by apply (echo_parent spec (parent_of d) (dk_image d1 (rc_image spec)) info4 c Hc'), Hce.
Qed.
Lemma ensure_settles d log :
  (forall d, pinned spec (dk_image d (rc_image spec))) -> parent_ok d ->
  wp (ensure spec) (fun r d' _ => forall res, r = Ok res -> settled d' (er_container_id res)) d log.
Proof.
  intros Hpin Hp. unfold ensure.
  apply wp_bind. eapply wp_mono; [apply inspect_spec|]. intros [o|e] d1 log1 (Hv1 & _ & Ho); [|done].
  apply wp_bind. eapply wp_mono; [apply resolve_parent_spec|]. intros [pid|e] d2 log2 (Hv2 & _ & Hpid); [|done].
  assert (same_view d d2) as Hv by (intros n; by rewrite Hv2, Hv1).
  pose proof (keeps_view _ _ Hv1 Hp) as Hk1. pose proof (keeps_view _ _ Hv Hp) as Hk.
  rewrite (parent_of_keeps _ _ Hk1) in Hpid. subst o pid.
  assert (forall d3 log3, same_view d d3 -> wp (create_and_start spec (parent_of d)) (fun r d' _ =>
    forall cid ip nets, r = Ok (cid, ip, nets) -> settled d' cid) d3 log3) as Hcreate.
  { intros d3 log3 Hv3. rewrite <- (parent_of_keeps d d3) by by apply keeps_view.
    eapply wp_mono; [apply create_spec; [done|]; eapply keeps_ok; by apply keeps_view|].
    intros r d4 log4 Hr cid ip nets E. by eapply Hr. }
  match goal with |- wp (match ?x with _ => _ end) _ _ _ => destruct x as [| |fs] eqn:Hch end.
  - destruct (dk_view d name) as [info|] eqn:Hi; cbn [option_map] in Hch |- *; [|done].
    apply wp_ret. intros res [= <-]. cbn [er_container_id].
    destruct (negb _) eqn:Hm; [done|]. apply (settled_view d); [done|]. exists info. split_and!; try done.
    by apply negb_false_iff in Hm.
  - apply wp_bind. eapply wp_mono; [apply pull_spec|]. intros [u|e] d3 log3 Hv3; [|done]. apply wp_bind.
    eapply wp_mono; [apply Hcreate; intros n; by rewrite Hv3, Hv|].
    intros [[[cid ip] nets]|e] d4 log4 Hr; [|done]. apply wp_ret. intros res [= <-]. by eapply Hr.
  - apply wp_bind. eapply wp_mono; [apply pull_spec|]. intros [u|e] d3 log3 Hv3; [|done]. apply wp_bind.
    assert (same_view d d3) as Hv3' by (intros n; by rewrite Hv3, Hv).
    pose proof (keeps_view _ _ Hv3' Hp) as Hk3.
    eapply wp_mono; [apply force_remove_spec; by eapply keeps_ok|]. intros [u'|e] d4 log4 Hk4; [|done].
    pose proof (keeps_trans _ _ _ Hk3 Hk4) as Hk'.
    apply wp_bind. eapply wp_mono.
    { rewrite <- (parent_of_keeps _ _ Hk'). apply create_spec; [done|]. by eapply keeps_ok. }
    intros [[[cid ip] nets]|e] d5 log5 Hr; [|done]. apply wp_ret. intros res [= <-]. by eapply Hr.
Qed.

Lemma ensure_adopts d log cid :
  settled d cid ->
  wp (ensure spec) (fun r d' log' => same_view d d' /\
    (exists new, log' = (log ++ new)%list /\ Forall is_inspect new) /\
    match r with
    | Ok res => er_action res = Adopted /\ er_container_id res = cid
    | Err e => err_operation e ∈ ["docker inspect"; "resolve_parent_id"]
    end) d log.
Proof.
  intros (info & Hi & Hid & Hs & Hp). unfold ensure.
  apply wp_bind. eapply wp_mono; [apply inspect_spec|]. intros [o|e] d1 log1 (Hv1 & -> & Ho).
  2:{ split_and!; [done| |by rewrite Ho; left]. exists [DcInspect name]. split; [done|]. by repeat constructor. }
  apply wp_bind. eapply wp_mono; [apply resolve_parent_spec|].
  intros r d2 log2 (Hv2 & (new & -> & Hnew) & Hr).
  assert (same_view d d2) as Hv by (intros n; by rewrite Hv2, Hv1).
  assert (exists new', ((log ++ [DcInspect name]) ++ new)%list = (log ++ new')%list /\ Forall is_inspect new') as Hl.
  { exists (DcInspect name :: new). rewrite <- app_assoc. split; [done|]. by constructor. }
  destruct r as [pid|e]; [|split_and!; [done..|by rewrite Hr; right; left]].
  replace (parent_of d1) with (parent_of d) in Hr
    by (unfold parent_of; destruct (parent_name spec); by rewrite ?Hv1).
  rewrite Hi in Ho. simpl in Ho. subst o pid. rewrite Hp. simpl negb. cbv iota. rewrite Hs.
  apply wp_ret. split_and!; done.
Qed.
End ensure_laws.


(** A daemon that keeps what it is given: containers by name, identified by
    their name. *)
Abbreviation ref_docker := (gmap string (ContainerConfig * HostConfig * bool)).
Definition ref_info (n : string) (x : ContainerConfig * HostConfig * bool) : ContainerInspectResponse :=
  {| ci_id := Some n; ci_name := Some ("/" +:+ n); ci_running := Some x.2; ci_config := Some x.1.1;
     ci_host_config := Some x.1.2; ci_networks := None |}.
Definition ref_error (status : N) : DockerError := {| de_status := Some status; de_message := "" |}.
#[export] Instance ref_docker_ops : Docker ref_docker := {|
  dk_inspect_container n d := (match d !! n with Some x => Ok (ref_info n x) | None => Err (ref_error 404) end, d);
  dk_create_container n c h d := match d !! n with
                                 | Some _ => (Err (ref_error 409), d)
                                 | None => (Ok tt, <[n := (c, h, false)]> d)
                                 end;
  dk_start_container n d := match d !! n with
                            | Some x => (Ok tt, <[n := (x.1, true)]> d)
                            | None => (Err (ref_error 404), d)
                            end;
  dk_stop_container n _ d := (Ok tt, d);
  dk_remove_container n _ d := match d !! n with
                               | Some _ => (Ok tt, delete n d)
                               | None => (Err (ref_error 404), d)
                               end;
  dk_list_containers _ d := (Ok (map (fun kv => Some kv.1) (map_to_list d)), d);
  dk_inspect_image _ d := (Ok tt, d);
  dk_create_image _ d := d
|}.

#[export] Program Instance ref_docker_laws : DockerLaws ref_docker := {|
  dk_view d n := option_map (ref_info n) (d !! n);
  dk_image _ _ := {| img_cmd := None; img_env := []; img_user := "" |}
|}.
Next Obligation. simpl. intros name d r d' [= <- <-]. split; [done|]. by destruct (d !! name). Qed.
Next Obligation. simpl. by intros image d r d' [= <- <-]. Qed.
Next Obligation. done. Qed.
Next Obligation.
  simpl. intros name _ d r d' E. destruct (d !! name) as [x|] eqn:Hn; simplify_eq/=.
  - rewrite lookup_delete_eq. split; [|done]. intros n (info & Hi & Hd).
    destruct (decide (n = name)) as [->|Hne]; [|by rewrite lookup_delete_ne].
    rewrite Hn in Hi. simplify_eq/=. by destruct (Hd (ref_info name x)); rewrite ?Hn.
  - split; [done|]. by rewrite Hn.
Qed.
Next Obligation.
  simpl. intros name config host d r d' E. destruct (d !! name) as [x|] eqn:Hn; simplify_eq/=; [done|].
  split.
  - intros n info. destruct (decide (n = name)) as [->|Hne]; [by rewrite Hn|by rewrite lookup_insert_ne].
  - intros _. rewrite lookup_insert_eq. eexists _, config, host. split_and!; try done.
    + intros image _. split; try done; try by left. exists []. by rewrite app_nil_r.
    + intros n info0 Hi. destruct (decide (n = name)) as [->|Hne]; [by rewrite Hn in Hi|].
      destruct (d !! n); simplify_eq/=. congruence.
Qed.
Next Obligation.
  simpl. intros name d r d' E. destruct (d !! name) as [x|] eqn:Hn; simplify_eq/=.
  - split.
    + intros n (info & Hi & Hd). destruct (decide (n = name)) as [->|Hne]; [|by rewrite lookup_insert_ne].
      rewrite Hn in Hi. simplify_eq/=. by destruct (Hd (ref_info name x)); rewrite ?Hn.
    + intros _. rewrite lookup_insert_eq. eexists _, _. split_and!; done.
  - split; [done|]. done.
Qed.

Definition sample_container : RuntimeContainerSpec := {|
  rc_key := "prod/api/slot-1/i1"; rc_container_name := "ployz-prod-api-i1"; rc_image := "api:v1";
  rc_pull_policy := IfNotPresent; rc_cmd := Some ["serve"]; rc_entrypoint := None; rc_env := [("MODE", "prod")];
  rc_labels := {[LABEL_KEY := "prod/api/slot-1/i1"]}; rc_binds := []; rc_tmpfs := ∅; rc_dns_servers := ["10.210.0.2"];
  rc_network_mode := Some "container:parent"; rc_port_bindings := Some ∅; rc_exposed_ports := None; rc_cap_add := [];
  rc_cap_drop := []; rc_privileged := false; rc_user := None;
  rc_restart_policy := Some {| rp_name := Some RpUnlessStopped; rp_maximum_retry_count := Some 0%Z |};
  rc_memory_bytes := Some 1024%Z; rc_nano_cpus := None; rc_sysctls := ∅; rc_stop_timeout := None; rc_pid_mode := None |}.

Definition sample_docker : ref_docker :=
  {["parent" := (create_config sample_container None, create_host_config sample_container, true)]}.

Lemma sample_pinned (d : ref_docker) : pinned sample_container (dk_image d (rc_image sample_container)).
Proof.
  split; try done; simpl.
  - by left.
  - by repeat constructor.
  - by right.
  - intros m [= <-]. done.
Qed.

Lemma sample_parent_ok : parent_ok sample_container sample_docker.
Proof.
  intros p [= <-]. eexists. split; [vm_compute; reflexivity|]. intros info0. vm_compute. done.
Qed.

Definition sample_run := Eval vm_compute in ensure sample_container (sample_docker, []).

Lemma sample_run_eq : ensure sample_container (sample_docker, []) =
  (Ok {| er_container_id := "ployz-prod-api-i1"; er_container_name := "ployz-prod-api-i1"; er_action := Created;
         er_ip_address := None; er_networks := ∅ |}, sample_run.2).
Proof. vm_compute. reflexivity. Qed.

