(* ===== verification/Services.v ===== *)
(** * Supervised services

    [ployzd/src/services]: the gateway and the DNS server run as Docker
    containers, systemd units or child processes.  A [SidecarSpec] describes a
    service; [sidecar_ensure] starts or adopts it and [sidecar_shutdown] stops it.
    Docker, [systemctl] and processes are the environment [ServiceEnv]; every call
    is logged with its answer, and [instances] reads off a log which services are
    running. *)

From S2P Require Import Prelude Order Effect Text Types Spec Container Files Invite.
Local Open Scope string_scope.
Local Open Scope eff_scope.

Inductive ServiceSupervision := DockerContainer | ChildProcess | Systemd.
#[export] Instance ServiceSupervision_eq_dec : EqDecision ServiceSupervision.
Proof. solve_decision. Defined.

Record SidecarSpec := {
  sc_name : string; sc_image : string; sc_binary_name : string; sc_container_name : string; sc_cmd : list string;
  sc_env : list (string * string); sc_binds : list string; sc_network_container : option string;
  sc_systemd_extra : string
}.

Definition sidecar_to_runtime_spec (spec : SidecarSpec) : RuntimeContainerSpec :=
  let key := "system/" +:+ sc_name spec in {|
  rc_key := key; rc_container_name := sc_container_name spec; rc_image := sc_image spec; rc_pull_policy := Always;
  rc_cmd := Some (sc_cmd spec); rc_entrypoint := None; rc_env := sc_env spec; rc_labels := build_system_labels key None;
  rc_binds := sc_binds spec; rc_tmpfs := ∅; rc_dns_servers := [];
  rc_network_mode := (fun name => "container:" +:+ name) <$> sc_network_container spec; rc_port_bindings := None;
  rc_exposed_ports := None; rc_cap_add := []; rc_cap_drop := []; rc_privileged := false; rc_user := None;
  rc_restart_policy := None; rc_memory_bytes := None; rc_nano_cpus := None; rc_sysctls := ∅; rc_stop_timeout := None;
  rc_pid_mode := None |}.

Inductive SidecarHandle :=
| ChildHandle (name : string) (pid : N)
| DockerHandle (container_name service_name : string)
| SystemdHandle (unit_name service_name : string).

(** ** Systemd units *)

(** [str::replace] of one character. *)
Fixpoint replace_char (c : ascii) (by_ : string) (s : string) : string :=
  match s with
  | "" => ""
  | String d s => if ascii_dec c d then by_ +:+ replace_char c by_ s else String d (replace_char c by_ s)
  end.
Definition backslash : string := String (ascii_of_N 92) "".
Definition quote : string := String (ascii_of_N 34) "".
Definition newline : string := String (ascii_of_N 10) "".
Definition systemd_quote (value : string) : string :=
  replace_char (ascii_of_N 34) (backslash +:+ quote) (replace_char (ascii_of_N 92) (backslash +:+ backslash) value).

Definition is_ascii_alphanumeric (c : ascii) : bool :=
  is_ascii_digit c || ((65 <=? code c) && (code c <=? 90))%N || ((97 <=? code c) && (code c <=? 122))%N.
(** Over characters: a character outside ASCII becomes one dash.  In UTF-8 the
    bytes that continue a character are 128 to 191. *)
Fixpoint sanitize_chars (s : string) : string :=
  match s with
  | "" => ""
  | String c s =>
      if ((128 <=? code c) && (code c <=? 191))%N then sanitize_chars s
      else String (if is_ascii_alphanumeric c || bool_decide (c = "-"%char) then c else "-"%char) (sanitize_chars s)
  end.
Definition sanitize_unit_component (name : string) : string :=
  let sanitized := sanitize_chars name in if is_empty sanitized then "default" else sanitized.

Fixpoint join_with (sep : string) (l : list string) : string :=
  match l with [] => "" | [s] => s | s :: l => s +:+ sep +:+ join_with sep l end.

Definition build_unit_content (spec : SidecarSpec) (binary : PathBuf) : string :=
  let binary_str := systemd_quote binary in
  let env_lines := join_with newline
    ((fun '(k, v) => "Environment=" +:+ quote +:+ systemd_quote k +:+ "=" +:+ systemd_quote v +:+ quote) <$> sc_env spec) in
  let cmd_args := join_with " " (systemd_quote <$> sc_cmd spec) in
  let exec_start := if is_empty cmd_args then binary_str else binary_str +:+ " " +:+ cmd_args in
  "[Unit]" +:+ newline +:+ "Description=Ployz " +:+ sc_name spec +:+ newline +:+ "After=network-online.target" +:+ newline
  +:+ newline +:+ "[Service]" +:+ newline +:+ "Type=simple" +:+ newline +:+ env_lines +:+ newline +:+ "ExecStart="
  +:+ exec_start +:+ newline +:+ sc_systemd_extra spec +:+ "Restart=on-failure" +:+ newline +:+ newline +:+ "[Install]"
  +:+ newline +:+ "WantedBy=multi-user.target" +:+ newline.

Definition unit_name_of (spec : SidecarSpec) : string :=
  "ployz-" +:+ sanitize_unit_component (sc_name spec) +:+ ".service".

(** ** The environment *)

Inductive ServiceEvent :=
| SeConnect (r : result string unit)                                    (* [ContainerEngine::connect] *)
| SeEnsure (spec : RuntimeContainerSpec) (r : result string unit)       (* [ContainerEngine::ensure] *)
| SeRemove (container_name : string) (r : result string unit)           (* [ContainerEngine::remove] *)
| SeSpawn (binary : PathBuf) (args : list string) (env : list (string * string)) (r : result string N)
| SeTerminate (pid : N) (r : result string unit)                        (* [SIGTERM] and wait for the grace period *)
| SeKill (pid : N) (r : result string unit)
| SeWait (pid : N) (r : result string unit)
| SeIsActive (unit_name : string) (r : result string bool)
| SeSystemctl (args : list string) (r : result string unit).

Record ServiceEnv (Call : Type) := {
  sv_current_exe : result string PathBuf;
  sv_connect : list Call -> result string unit;
  sv_ensure : RuntimeContainerSpec -> list Call -> result string unit;
  sv_remove : string -> list Call -> result string unit;
  sv_spawn : list Call -> result string N;
  sv_terminate : N -> list Call -> result string unit;
  sv_kill : N -> list Call -> result string unit;
  sv_wait : N -> list Call -> result string unit;
  sv_is_active : string -> list Call -> result string bool;
  sv_systemctl : list string -> list Call -> result string unit
}.
Arguments sv_current_exe {Call}.
Arguments sv_connect {Call}.
Arguments sv_ensure {Call}.
Arguments sv_remove {Call}.
Arguments sv_spawn {Call}.
Arguments sv_terminate {Call}.
Arguments sv_kill {Call}.
Arguments sv_wait {Call}.
Arguments sv_is_active {Call}.
Arguments sv_systemctl {Call}.

(** What a client of this component has: files, and a log with room for its events. *)
Class HasFiles (St : Type) := { get_files : St -> Fs; set_files : Fs -> St -> St }.
Class HasServices (Call : Type) := { service_event : ServiceEvent -> Call }.

Section services.
Context {St Call : Type} `{HasFiles St} `{HasServices Call} (env : ServiceEnv Call).
Abbreviation M A := (eff St Call string A) (only parsing).

Definition with_fs {A} (c : io A) : M A := fun '(m, log) =>
  let '(r, fs) := c (get_files m) in (r, (set_files fs m, log)).
Definition exists_file (p : PathBuf) : M bool := mget (fun m => exists_path p (get_files m)).

Definition process_error (e : string) : string := "sidecar process error: " +:+ e.

(** [current_exe.with_file_name(name)]. *)
Definition with_file_name (p : PathBuf) (name : string) : PathBuf :=
  match path_parent p with Some d => path_join d name | None => name end.
Fixpoint first_existing (candidates : list PathBuf) : M (option PathBuf) :=
  match candidates with
  | [] => mret None
  | c :: candidates => found <-! exists_file c ;; if found : bool then mret (Some c) else first_existing candidates
  end.
Definition find_binary (name : string) : M PathBuf :=
  current_exe <-! mlift (map_err (fun err => process_error ("current_exe failed: " +:+ err)) (sv_current_exe env)) ;;
  found <-! first_existing [with_file_name current_exe name; "/usr/local/bin/" +:+ name; "/usr/bin/" +:+ name] ;;
  match found with Some p => mret p | None => mfail (process_error (name +:+ " binary not found")) end.

(** [ChildHandle::shutdown]; the process exits in the grace period or is killed. *)
Definition child_shutdown (name : string) (pid : N) : M unit :=
  stopped <-! mtry (mask (sv_terminate env pid) (fun r => service_event (SeTerminate pid r))) ;;
  match stopped with
  | Ok _ => mret tt
  | Err _ =>
      _ <-! mmap_err (fun err => process_error ("failed to kill " +:+ name +:+ " pid Some(" +:+ dec pid +:+ "): " +:+ err))
              (mask (sv_kill env pid) (fun r => service_event (SeKill pid r))) ;;
      mmap_err (fun err => process_error ("failed to wait for " +:+ name +:+ " pid Some(" +:+ dec pid +:+ "): " +:+ err))
        (mask (sv_wait env pid) (fun r => service_event (SeWait pid r)))
  end.

Definition start_child (spec : SidecarSpec) : M SidecarHandle :=
  binary <-! find_binary (sc_binary_name spec) ;;
  pid <-! mmap_err (fun err => process_error ("failed to spawn " +:+ binary +:+ ": " +:+ err))
            (mask (sv_spawn env) (fun r => service_event (SeSpawn binary (sc_cmd spec) (sc_env spec) r))) ;;
  mret (ChildHandle (sc_name spec) pid).

Definition docker_shutdown (container_name service_name : string) : M unit :=
  mmap_err (fun e => process_error ("docker remove " +:+ service_name +:+ ": " +:+ e))
    (mask (sv_remove env container_name) (fun r => service_event (SeRemove container_name r))).

Definition ensure_docker (spec : SidecarSpec) : M SidecarHandle :=
  _ <-! mmap_err process_error (mask (sv_connect env) (fun r => service_event (SeConnect r))) ;;
  let runtime_spec := sidecar_to_runtime_spec spec in
  _ <-! mmap_err (fun e => process_error (sc_name spec +:+ ": " +:+ e))
          (mask (sv_ensure env runtime_spec) (fun r => service_event (SeEnsure runtime_spec r))) ;;
  mret (DockerHandle (sc_container_name spec) (sc_name spec)).

Definition run_systemctl (args : list string) (service_name : string) : M unit :=
  mmap_err (fun e => process_error ("systemctl " +:+ join_with " " args +:+ " failed for " +:+ service_name +:+ ": " +:+ e))
    (mask (sv_systemctl env args) (fun r => service_event (SeSystemctl args r))).

Definition systemd_shutdown (unit_name service_name : string) : M unit := run_systemctl ["stop"; unit_name] service_name.

Definition ensure_systemd (spec : SidecarSpec) : M SidecarHandle :=
  binary <-! find_binary (sc_binary_name spec) ;;
  let unit_name := unit_name_of spec in
  let unit_path := path_join "/etc/systemd/system" unit_name in
  let desired_unit := build_unit_content spec binary in
  existing_unit <-! mtry (with_fs (read_file unit_path)) ;;
  is_active <-! (if decide (ok existing_unit = Some desired_unit) then
      active <-! mtry (mask (sv_is_active env unit_name) (fun r => service_event (SeIsActive unit_name r))) ;;
      mret (match active with Ok b => b | Err _ => false end)
    else mret false) ;;
  if is_active : bool then mret (SystemdHandle unit_name (sc_name spec))
  else
    _ <-! mmap_err (fun err => process_error ("write systemd unit: " +:+ err)) (with_fs (write_file unit_path desired_unit)) ;;
    _ <-! run_systemctl ["daemon-reload"] (sc_name spec) ;;
    _ <-! run_systemctl ["restart"; unit_name] (sc_name spec) ;;
    mret (SystemdHandle unit_name (sc_name spec)).

Definition sidecar_ensure (supervision : ServiceSupervision) (spec : SidecarSpec) : M SidecarHandle :=
  match supervision with
  | DockerContainer => ensure_docker spec
  | ChildProcess => start_child spec
  | Systemd => ensure_systemd spec
  end.
Definition sidecar_shutdown (self : SidecarHandle) : M unit :=
  match self with
  | ChildHandle name pid => child_shutdown name pid
  | DockerHandle container service => docker_shutdown container service
  | SystemdHandle unit_name service => systemd_shutdown unit_name service
  end.
(** Containers and units keep running across daemon restarts. *)
Definition sidecar_detach (self : SidecarHandle) : M unit :=
  match self with
  | DockerHandle _ _ | SystemdHandle _ _ => mret tt
  | ChildHandle name pid => child_shutdown name pid
  end.
End services.

(** ** The gateway and the DNS server ([services/gateway.rs], [services/dns.rs]) *)

Record GatewayConfig := { gc_data_dir : PathBuf; gc_network : string; gc_listen_addr : string; gc_threads : N }.
Record DnsConfig := {
  dc_data_dir : PathBuf; dc_network : string; dc_overlay_listen_addr : string; dc_bridge_listen_addr : option string
}.
(** [GatewayConfig::for_network], [DnsConfig::for_network]. *)
Definition gateway_for_network (data_dir : PathBuf) (network listen_addr : string) (threads : N) : GatewayConfig := {|
  gc_data_dir := data_dir; gc_network := network; gc_listen_addr := listen_addr; gc_threads := threads |}.
Definition dns_for_network (data_dir : PathBuf) (network : string) (overlay_ip : OverlayIp)
    (bridge_listen_addr : option string) : DnsConfig := {|
  dc_data_dir := data_dir; dc_network := network; dc_overlay_listen_addr := "[" +:+ Addr.ipv6_to_string overlay_ip +:+ "]:53";
  dc_bridge_listen_addr := bridge_listen_addr |}.

Record GatewayPaths := { gp_gateway_dir : PathBuf; gp_pingora_config : PathBuf; gp_pid_file : PathBuf; gp_upgrade_sock : PathBuf }.
Definition gateway_paths_for_config (config : GatewayConfig) : GatewayPaths :=
  let gateway_dir := path_join (network_dir (gc_data_dir config) (gc_network config)) "gateway" in {|
  gp_pingora_config := path_join gateway_dir "pingora.yaml"; gp_pid_file := path_join gateway_dir "pingora.pid";
  gp_upgrade_sock := path_join gateway_dir "pingora.sock"; gp_gateway_dir := gateway_dir |}.

Definition gateway_process_error (e : string) : string := "gateway process failed: " +:+ e.
Definition dns_process_error (e : string) : string := "dns process failed: " +:+ e.

Definition write_pingora_config (paths : GatewayPaths) (threads : N) : io unit :=
  _ <-/ io_map_err (fun err => gateway_process_error ("create gateway dir: " +:+ err)) (create_dir_all (gp_gateway_dir paths)) ;;
  let contents := "---" +:+ newline +:+ "version: 1" +:+ newline +:+ "threads: " +:+ dec threads +:+ newline +:+ "pid_file: "
    +:+ gp_pid_file paths +:+ newline +:+ "upgrade_sock: " +:+ gp_upgrade_sock paths +:+ newline in
  io_map_err (fun err => gateway_process_error ("write gateway config: " +:+ err)) (write_file (gp_pingora_config paths) contents).

Definition build_dns_sidecar_spec (config : DnsConfig) (image : string) : SidecarSpec := {|
  sc_name := "dns-" +:+ dc_network config; sc_image := image; sc_binary_name := "ployz-dns"; sc_container_name := "ployz-dns";
  sc_cmd := ["ployz-dns"];
  sc_env := ([("PLOYZ_DNS_DATA_DIR", dc_data_dir config); ("PLOYZ_DNS_NETWORK", dc_network config);
              ("PLOYZ_DNS_OVERLAY_LISTEN_ADDR", dc_overlay_listen_addr config);
              ("PLOYZ_DNS_LISTEN_ADDR", dc_overlay_listen_addr config)] ++
             match dc_bridge_listen_addr config with Some a => [("PLOYZ_DNS_BRIDGE_LISTEN_ADDR", a)] | None => [] end)%list;
  sc_binds := [dc_data_dir config +:+ ":" +:+ dc_data_dir config]; sc_network_container := Some "ployz-networking";
  sc_systemd_extra := "" |}.

Section managed.
Context {St Call : Type} `{HasFiles St} `{HasServices Call} (env : ServiceEnv Call).
Abbreviation M A := (eff St Call string A) (only parsing).

Definition gateway_systemd_extra (paths : GatewayPaths) : M string :=
  found <-! mtry (find_binary env "ployz-gateway") ;;
  let binary := match found with Ok b => systemd_quote b | Err _ => "" end in
  mret ("PIDFile=" +:+ systemd_quote (gp_pid_file paths) +:+ newline +:+ "ExecReload=/bin/kill -QUIT $MAINPID" +:+ newline
    +:+ "ExecReload=" +:+ binary +:+ " -u -d -c " +:+ systemd_quote (gp_pingora_config paths) +:+ newline
    +:+ "ExecStop=/bin/kill -TERM $MAINPID" +:+ newline).
Definition build_gateway_sidecar_spec (config : GatewayConfig) (paths : GatewayPaths) (image : string) : M SidecarSpec :=
  systemd_extra <-! gateway_systemd_extra paths ;;
  mret {| sc_name := "gateway-" +:+ gc_network config; sc_image := image; sc_binary_name := "ployz-gateway";
          sc_container_name := "ployz-gateway"; sc_cmd := ["-c"; gp_pingora_config paths];
          sc_env := [("PLOYZ_GATEWAY_DATA_DIR", gc_data_dir config); ("PLOYZ_GATEWAY_NETWORK", gc_network config);
                     ("PLOYZ_GATEWAY_LISTEN_ADDR", gc_listen_addr config); ("PLOYZ_GATEWAY_THREADS", dec (gc_threads config))];
          sc_binds := [gc_data_dir config +:+ ":" +:+ gc_data_dir config; gp_gateway_dir paths +:+ ":" +:+ gp_gateway_dir paths];
          sc_network_container := Some "ployz-networking"; sc_systemd_extra := systemd_extra |}.

(** Without supervision (in tests) there is no service: [None] is the handle that does nothing. *)
Definition start_managed_gateway (supervision : option ServiceSupervision) (config : GatewayConfig) (image : string)
    : M (option SidecarHandle) :=
  match supervision with
  | None => mret None
  | Some supervision =>
      let paths := gateway_paths_for_config config in
      _ <-! with_fs (write_pingora_config paths (gc_threads config)) ;;
      spec <-! build_gateway_sidecar_spec config paths image ;;
      handle <-! mmap_err gateway_process_error (sidecar_ensure env supervision spec) ;;
      mret (Some handle)
  end.
Definition start_managed_dns (supervision : option ServiceSupervision) (config : DnsConfig) (image : string)
    : M (option SidecarHandle) :=
  match supervision with
  | None => mret None
  | Some supervision =>
      handle <-! mmap_err dns_process_error (sidecar_ensure env supervision (build_dns_sidecar_spec config image)) ;;
      mret (Some handle)
  end.
(** [GatewayHandle::shutdown] and [DnsHandle::shutdown], [detach]. *)
Definition managed_shutdown (wrap : string -> string) (self : option SidecarHandle) : M unit :=
  match self with None => mret tt | Some handle => mmap_err wrap (sidecar_shutdown env handle) end.
Definition managed_detach (wrap : string -> string) (self : option SidecarHandle) : M unit :=
  match self with None => mret tt | Some handle => mmap_err wrap (sidecar_detach env handle) end.
End managed.

(** ** Which services run *)

Inductive ServiceInstance := IContainer (name : string) | IUnit (unit_name : string) | IChild (pid : N).
#[export] Instance ServiceInstance_eq_dec : EqDecision ServiceInstance.
Proof. solve_decision. Defined.
#[export] Instance ServiceInstance_countable : Countable ServiceInstance.
Proof.
  refine (inj_countable' (fun i => match i with IContainer n => inl n | IUnit n => inr (inl n) | IChild p => inr (inr p) end)
    (fun s => match s with inl n => IContainer n | inr (inl n) => IUnit n | inr (inr p) => IChild p end) _).
  by intros [].
Defined.

(** What an event says about the services; [pids] of the system are unique while
    a process lives. *)
Definition apply_service_event (s : gset ServiceInstance) (e : ServiceEvent) : gset ServiceInstance :=
  match e with
  | SeEnsure spec (Ok _) => {[IContainer (rc_container_name spec)]} ∪ s
  | SeRemove name (Ok _) => s ∖ {[IContainer name]}
  | SeSpawn _ _ _ (Ok pid) => {[IChild pid]} ∪ s
  | SeTerminate pid (Ok _) | SeKill pid (Ok _) => s ∖ {[IChild pid]}
  | SeIsActive unit_name (Ok true) => {[IUnit unit_name]} ∪ s
  | SeSystemctl ["restart"; unit_name] (Ok _) => {[IUnit unit_name]} ∪ s
  | SeSystemctl ["stop"; unit_name] (Ok _) => s ∖ {[IUnit unit_name]}
  | _ => s
  end.
Definition instances_after (s : gset ServiceInstance) (events : list ServiceEvent) : gset ServiceInstance :=
  foldl apply_service_event s events.

Definition instance_of (h : SidecarHandle) : ServiceInstance :=
  match h with
  | ChildHandle _ pid => IChild pid
  | DockerHandle name _ => IContainer name
  | SystemdHandle unit_name _ => IUnit unit_name
  end.

(** The services that were told to stop and did not confirm it. *)
Definition failed_stop (e : ServiceEvent) : option ServiceInstance :=
  match e with
  | SeRemove name (Err _) => Some (IContainer name)
  | SeTerminate pid (Err _) => Some (IChild pid)
  | SeSystemctl ["stop"; unit_name] (Err _) => Some (IUnit unit_name)
  | _ => None
  end.
Definition failed_stops (events : list ServiceEvent) : gset ServiceInstance := list_to_set (omap failed_stop events).

(** What a computation does to the services: it appends service events to the
    log, and [P] relates its result to them. *)
Definition service_spec {St Call A} `{HasServices Call} (c : eff St Call string A)
    (P : result string A -> list ServiceEvent -> Prop) : Prop :=
  forall m log, wp c (fun r _ log' => exists new, log' = (log ++ (service_event <$> new))%list /\ P r new) m log.

Section spec_rules.
Context {St Call : Type} `{HasFiles St} `{HasServices Call}.
Abbreviation M A := (eff St Call string A) (only parsing).

Lemma service_mono {A} (c : M A) (P Q : result string A -> list ServiceEvent -> Prop) :
  service_spec c P -> (forall r new, P r new -> Q r new) -> service_spec c Q.
Proof. intros Hc HPQ m log. eapply wp_mono; [apply Hc|]. simpl. intros r _ log' (new & -> & HP). eauto. Qed.
(** A computation that makes no call. *)
Lemma service_pure {A} (c : M A) (P : result string A -> list ServiceEvent -> Prop) :
  (forall m log, wp c (fun r _ log' => log' = log /\ P r []) m log) -> service_spec c P.
Proof.
  intros Hc m log. eapply wp_mono; [apply Hc|]. simpl. intros r _ log' [-> HP]. exists []. by rewrite app_nil_r.
Qed.
Lemma service_ret {A} (a : A) (P : result string A -> list ServiceEvent -> Prop) :
  P (Ok a) [] -> service_spec (mret a : M A) P.
Proof. intros HP. apply service_pure. intros m log. by apply wp_ret. Qed.
Lemma service_fail {A} e (P : result string A -> list ServiceEvent -> Prop) :
  P (Err e) [] -> service_spec (mfail e : M A) P.
Proof. intros HP. apply service_pure. intros m log. by apply wp_fail. Qed.
Lemma service_lift {A} (r : result string A) (P : result string A -> list ServiceEvent -> Prop) :
  P r [] -> service_spec (mlift r : M A) P.
Proof. intros HP. apply service_pure. intros m log. by apply wp_lift. Qed.
Lemma service_files {A} (c : io A) : service_spec (with_fs c : M A) (fun _ new => new = []).
Proof. apply service_pure. intros m log. unfold wp, with_fs. by destruct (c (get_files m)). Qed.
Lemma service_bind {A B} (c : M A) (k : A -> M B) Q :
  service_spec c (fun r new => match r with
    | Ok a => service_spec (k a) (fun r later => Q r (new ++ later)%list) | Err e => Q (Err e) new end) ->
  service_spec (mbind c k) Q.
Proof.
  intros Hc m log. apply wp_bind. eapply wp_mono; [apply Hc|]. simpl. intros [a|e] m1 log1 (new & -> & HP); [|eauto].
  eapply wp_mono; [apply HP|]. simpl. intros r _ log2 (later & -> & HQ).
  exists (new ++ later)%list. by rewrite fmap_app, app_assoc.
Qed.
Lemma service_try {A} (c : M A) P : service_spec c (fun r new => P (Ok r) new) -> service_spec (mtry c) P.
Proof. intros Hc m log. apply wp_try. apply Hc. Qed.
Lemma service_map_err {A} f (c : M A) P : service_spec c (fun r new => P (map_err f r) new) -> service_spec (mmap_err f c) P.
Proof. intros Hc m log. apply wp_map_err. apply Hc. Qed.
Lemma service_ask {A} (answer : list Call -> result string A) (event : result string A -> ServiceEvent)
    (P : result string A -> list ServiceEvent -> Prop) :
  (forall r, P r [event r]) -> service_spec (mask answer (fun r => service_event (event r)) : M A) P.
Proof. intros HP m log. apply wp_ask. intros r. exists [event r]. by rewrite list_fmap_singleton. Qed.

Context (env : ServiceEnv Call).

Lemma first_existing_quiet candidates : service_spec (first_existing candidates : M _) (fun _ new => new = []).
Proof.
  induction candidates as [|c l IH]; simpl; [by apply service_ret|].
  apply service_bind, service_pure. intros m log. apply wp_get. split; [done|].
  destruct (exists_path c (get_files m)); [by apply service_ret|done].
Qed.
Lemma find_binary_quiet name : service_spec (find_binary env name : M _) (fun _ new => new = []).
Proof.
  unfold find_binary. apply service_bind, service_lift. destruct (map_err _ _); [|done].
  apply service_bind. eapply service_mono; [apply first_existing_quiet|]. intros [[p|]|e] new ->; [by apply service_ret|by apply service_fail|done].
Qed.

(** Ensuring a service leaves it running when it succeeds and changes nothing when it does not. *)
Definition ensured (r : result string SidecarHandle) (new : list ServiceEvent) : Prop :=
  forall s, instances_after s new = match r with Ok h => {[instance_of h]} ∪ s | Err _ => s end.
(** Shutting down stops this service at most, and stops it when it succeeds. *)
Definition shut (h : SidecarHandle) (r : result string unit) (new : list ServiceEvent) : Prop :=
  forall s, instances_after s new = (s ∖ {[instance_of h]}) \/
    (instances_after s new = s /\ is_ok r = false /\ instance_of h ∈ failed_stops new).

(** One step of such a computation. *)
Ltac service_step :=
  match goal with
  | |- service_spec (mbind _ _) _ => apply service_bind
  | |- service_spec (mmap_err _ _) _ => apply service_map_err
  | |- service_spec (mtry _) _ => apply service_try
  | |- service_spec (mret _) _ => apply service_ret
  | |- service_spec (mfail _) _ => apply service_fail
  | |- service_spec (mask _ _) _ => apply service_ask; intros [?|?]
  | |- service_spec (with_fs _) _ => eapply service_mono; [apply service_files|]; intros [?|?] ? ->
  | |- service_spec (find_binary _ _) _ => eapply service_mono; [apply find_binary_quiet|]; intros [?|?] ? ->
  | |- service_spec (run_systemctl _ _ _) _ => unfold run_systemctl
  | |- service_spec (if ?b then _ else _) _ => destruct b
  | |- service_spec (match ?x with _ => _ end) _ => destruct x
  end; cbn [map_err rbind app].

Lemma ensure_docker_spec spec : service_spec (ensure_docker env spec : M _) ensured.
Proof. unfold ensure_docker. repeat service_step; done. Qed.
Lemma start_child_spec spec : service_spec (start_child env spec : M _) ensured.
Proof. unfold start_child. repeat service_step; done. Qed.
Lemma ensure_systemd_spec spec : service_spec (ensure_systemd env spec : M _) ensured.
Proof.
  unfold ensure_systemd. repeat service_step; done.
Qed.
Lemma sidecar_ensure_spec supervision spec : service_spec (sidecar_ensure env supervision spec : M _) ensured.
Proof. destruct supervision; [apply ensure_docker_spec|apply start_child_spec|apply ensure_systemd_spec]. Qed.

Lemma sidecar_shutdown_spec h : service_spec (sidecar_shutdown env h : M _) (shut h).
Proof.
  destruct h; simpl; unfold child_shutdown, docker_shutdown, systemd_shutdown; repeat service_step; intros s; cbn;
    first [by left|right; split_and!; [done|done|set_solver]].
Qed.

(** The managed services, with the handle that does nothing. *)
Definition managed_instances (h : option SidecarHandle) : gset ServiceInstance :=
  match h with Some h => {[instance_of h]} | None => ∅ end.
Definition managed_started (r : result string (option SidecarHandle)) (new : list ServiceEvent) : Prop :=
  forall s, instances_after s new = match r with Ok h => managed_instances h ∪ s | Err _ => s end.
Definition managed_shut (h : option SidecarHandle) (r : result string unit) (new : list ServiceEvent) : Prop :=
  forall s, instances_after s new = (s ∖ managed_instances h) \/
    (instances_after s new = s /\ is_ok r = false /\ managed_instances h ⊆ failed_stops new).

Lemma start_managed_gateway_spec supervision config image :
  service_spec (start_managed_gateway env supervision config image : M _) managed_started.
Proof.
  unfold start_managed_gateway, build_gateway_sidecar_spec, gateway_systemd_extra.
  destruct supervision as [sup|]; repeat service_step; try (intros s; cbn; set_solver).
  all: eapply service_mono; [apply sidecar_ensure_spec|]; intros r new Hn; destruct r; cbn; [apply service_ret|];
    intros s; rewrite ?app_nil_r; apply Hn.
Qed.
Lemma start_managed_dns_spec supervision config image :
  service_spec (start_managed_dns env supervision config image : M _) managed_started.
Proof.
  unfold start_managed_dns. destruct supervision as [sup|]; repeat service_step; try (intros s; cbn; set_solver).
  eapply service_mono; [apply sidecar_ensure_spec|]; intros r new Hn; destruct r; cbn; [apply service_ret|];
    intros s; rewrite ?app_nil_r; apply Hn.
Qed.
Lemma managed_shutdown_spec wrap h : service_spec (managed_shutdown env wrap h : M _) (managed_shut h).
Proof.
  destruct h as [h|]; simpl; [|apply service_ret; intros s; cbn; left; set_solver].
  apply service_map_err. eapply service_mono; [apply sidecar_shutdown_spec|].
  intros r new Hn s. destruct (Hn s) as [?|(? & ? & ?)]; [by left|right]. simpl. destruct r; [done|]. set_solver.
Qed.

(** In Docker the services have fixed container names. *)
Definition named (name : string) (r : result string (option SidecarHandle)) : Prop :=
  match r with Ok h => exists service, h = Some (DockerHandle name service) | Err _ => True end.
Lemma docker_gateway_named config image :
  service_spec (start_managed_gateway env (Some DockerContainer) config image : M _) (fun r _ => named "ployz-gateway" r).
Proof.
  unfold start_managed_gateway, build_gateway_sidecar_spec, gateway_systemd_extra, sidecar_ensure, ensure_docker.
  repeat service_step; simpl; eauto.
Qed.
Lemma docker_dns_named config image :
  service_spec (start_managed_dns env (Some DockerContainer) config image : M _) (fun r _ => named "ployz-dns" r).
Proof. unfold start_managed_dns, sidecar_ensure, ensure_docker. repeat service_step; simpl; eauto. Qed.
End spec_rules.
