(* ===== verification/Wireguard.v ===== *)
(** * WireGuard

    [runtime-backends/src/mesh/wireguard]: the configuration file handed to
    [wg syncconf] and the key texts ([config.rs]), the backend that keeps the
    interface in a container ([docker.rs]), with the overlay bridge and sidecars
    as extra peers, the sidecar container ([sidecar.rs]) and the backend on the
    host ([host.rs]).

    Docker, the WireGuard API and the processes answer through [WgEnv], as a
    function of all the calls before; what the interface then has is a function
    of the calls, [device], of which [DeviceLaws] states the documented behaviour
    of [wg] and [ip].  Logging is left out. *)

From S2P Require Import Prelude Order Effect Text Types Addr Base64 Files Invite IpnetRef Peer Container Services.
Local Open Scope string_scope.
Local Open Scope eff_scope.
#[local] Arguments String.append !_ _ : simpl nomatch.

Definition DEFAULT_LISTEN_PORT : N := 51820.
Definition PERSISTENT_KEEPALIVE_SECS : N := 5.

(** ** Texts *)

(** [str::lines]. *)
Definition strip_cr_end (s : string) : string :=
  match strip_suffix (String "013" "") s with Some r => r | None => s end.
Fixpoint lines_of (pieces : list string) : list string :=
  match pieces with
  | [] => []
  | [last] => if is_empty last then [] else [last]
  | p :: rest => strip_cr_end p :: lines_of rest
  end.
Definition lines (s : string) : list string := lines_of (split "010" s).

(** [str::split_whitespace().next()]. *)
Fixpoint take_word (s : string) : string :=
  match s with
  | EmptyString => ""
  | String c s1 =>
      if ws1 c then ""
      else match s1 with
           | EmptyString => String c ""
           | String d s2 =>
               if ws2 c d then ""
               else match s2 with
                    | String e _ => if ws3 c d e then "" else String c (take_word s1)
                    | EmptyString => String c (take_word s1)
                    end
           end
  end.
Definition first_word (s : string) : option string :=
  let w := take_word (trim_start s) in if is_empty w then None else Some w.

(** The [STANDARD] alphabet of base64, with padding. *)
Class Base64Standard := {
  std_encode : list N -> string;
  std_decode : string -> result string (list N)
}.
Definition std_char (c : ascii) : bool :=
  is_ascii_digit c || ((65 <=? code c) && (code c <=? 90))%N || ((97 <=? code c) && (code c <=? 122))%N ||
  contains_char c "+/=".
Class Base64StandardLaws (B : Base64Standard) : Prop := {
  std_decode_encode : forall l, is_bytes l -> std_decode (std_encode l) = Ok l;
  std_encode_chars : forall l, all_chars std_char (std_encode l) = true;
  std_encode_nonempty : forall l, l <> [] -> std_encode l <> ""
}.

(** ** Configuration ([config.rs]) *)

Record WgPaths := { wp_dir : PathBuf; wp_sync_config : PathBuf; wp_private_key_file : PathBuf }.
Definition WgPaths_new (data_dir : PathBuf) : WgPaths :=
  let dir := path_join data_dir "wireguard" in
  {| wp_dir := dir; wp_sync_config := path_join dir "wg0-sync.conf"; wp_private_key_file := path_join dir "private.key" |}.
Definition ensure_dir (self : WgPaths) : io unit := create_dir_all (wp_dir self).

(** A peer that is no machine of the mesh: the bridge, or a sidecar. *)
Record BridgePeerInfo := { bp_public_key : list N; bp_allowed_ips : list string }.

Section config.
Context {IP : Ipnet} {B64 : Base64Standard}.

Definition encode_key (key : list N) : string := std_encode key.
Definition decode_key (b64 : string) : result string (list N) :=
  bytes <-? map_err (fun e => "invalid base64 key: " +:+ e) (std_decode b64) ;;
  if Nat.eqb (length bytes) 32 then Ok bytes
  else Err ("key must be 32 bytes, got " +:+ dec (N.of_nat (length bytes))).

Definition write_private_key (paths : WgPaths) (private_key : list N) : io unit :=
  _ <-/ ensure_dir paths ;; write_file (wp_private_key_file paths) (encode_key private_key).

(** [MachineRecord::allowed_cidrs]. *)
Definition allowed_cidrs (self : MachineRecord) : list string :=
  ([ipv6_to_string (mr_overlay_ip self) +:+ "/128"] ++
   match mr_subnet self with Some subnet => [ipnet_to_string subnet] | None => [] end ++
   match mr_bridge_ip self with Some bridge_ip => [ipv6_to_string bridge_ip +:+ "/128"] | None => [] end)%list.

Definition writeln (s : string) : string := s +:+ newline.
Definition render_peer (peer : MachineRecord) : string :=
  writeln "[Peer]" +:+
  writeln ("PublicKey = " +:+ encode_key (mr_public_key peer)) +:+
  writeln ("AllowedIPs = " +:+ join_with ", " (allowed_cidrs peer)) +:+
  match mr_endpoints peer with endpoint :: _ => writeln ("Endpoint = " +:+ endpoint) | [] => "" end +:+
  writeln ("PersistentKeepalive = " +:+ dec PERSISTENT_KEEPALIVE_SECS).
Definition render_bridge_peer (bridge : BridgePeerInfo) : string :=
  writeln "[Peer]" +:+
  writeln ("PublicKey = " +:+ encode_key (bp_public_key bridge)) +:+
  writeln ("AllowedIPs = " +:+ join_with ", " (bp_allowed_ips bridge)) +:+
  writeln ("PersistentKeepalive = " +:+ dec PERSISTENT_KEEPALIVE_SECS).

Fixpoint concat_str (l : list string) : string := match l with [] => "" | s :: l => s +:+ concat_str l end.
Definition sync_config_text (private_key : list N) (listen_port : N) (peers : list MachineRecord)
    (extra_peers : list BridgePeerInfo) : string :=
  writeln "[Interface]" +:+
  writeln ("PrivateKey = " +:+ encode_key private_key) +:+
  writeln ("ListenPort = " +:+ dec listen_port) +:+
  concat_str ((fun extra => writeln "" +:+ render_bridge_peer extra) <$> extra_peers) +:+
  concat_str ((fun peer => writeln "" +:+ render_peer peer) <$> peers).
Definition write_sync_config_with_extra_peers (paths : WgPaths) (private_key : list N) (listen_port : N)
    (peers : list MachineRecord) (extra_peers : list BridgePeerInfo) : io unit :=
  _ <-/ ensure_dir paths ;;
  write_file (wp_sync_config paths) (sync_config_text private_key listen_port peers extra_peers).
End config.

(** ** Calls *)

Record OutboundForward := { of_local_addr : SocketAddr; of_overlay_dest : SocketAddr }.

(** What running a command in a container gives: creating or starting it can
    fail, its output can break off, and the exit code is asked for at the end. *)
Inductive LogOutput := StdOut (message : string) | StdErr (message : string) | OtherOutput.
Inductive ExecOutcome :=
| CreateExecFailed (e : string)
| StartExecFailed (e : string)
| Attached (output : list (result string LogOutput)) (inspect : result string (option Z))
| Detached.

(** A peer and an interface of the host's WireGuard API; an address mask is kept
    as the text it was read from, an endpoint has the scope of its address. *)
Record HostPeer := {
  hp_public_key : list N; hp_allowed_ips : list string; hp_endpoint : option (SocketAddr * N);
  hp_persistent_keepalive_interval : option N; hp_last_handshake : option N
}.
Record InterfaceConfiguration := {
  ifc_name : string; ifc_prvkey : string; ifc_addresses : list string; ifc_port : N; ifc_peers : list HostPeer;
  ifc_mtu : option N; ifc_fwmark : option N
}.
(** [Command::output]: success, standard output and standard error. *)
Record ProcessOutput := { po_success : bool; po_stdout : string; po_stderr : string }.

Inductive WgEvent :=
| WeConnect | WePing
| WeInspect (name : string)
| WePull (image : string)
| WeCreate (name : string) (config : ContainerConfig) (host_config : HostConfig)
| WeStart (name : string)
| WeStop (name : string) (grace_secs : Z)
| WeRemove (name : string) (force : bool)
| WeExec (container : string) (cmd : list string) (files : gmap string string) (outcome : ExecOutcome)
| WeSleep (millis : N)
| WeRandom
| WeBridgeStart (public_key : list N) (peer_endpoint : SocketAddr) (forwards : list OutboundForward) (r : result string unit)
| WeBridgeStop (public_key : list N)
| WeCreateInterface | WeRemoveInterface
| WeConfigureInterface (config : InterfaceConfiguration)
| WeReadInterface
| WeConfigurePeer (peer : HostPeer) (r : result string unit)
| WeRemovePeer (key : list N) (r : result string unit)
| WeIp (args : list string) (r : result string ProcessOutput).

Record WgEnv := {
  wv_connect : list WgEvent -> result string unit;
  wv_ping : list WgEvent -> result string unit;
  wv_inspect : list WgEvent -> result DockerError ContainerInspectResponse;
  wv_create : list WgEvent -> result DockerError unit;
  wv_start : list WgEvent -> result DockerError unit;
  wv_stop : list WgEvent -> result DockerError unit;
  wv_remove : list WgEvent -> result DockerError unit;
  wv_exec : list string -> list WgEvent -> ExecOutcome;
  wv_random : list WgEvent -> list N;
  wv_bridge_start : list WgEvent -> result string unit;
  wv_api : list WgEvent -> result string unit;
  wv_interface : list WgEvent -> result string (list HostPeer);
  wv_ip : list string -> list WgEvent -> result string ProcessOutput;
  wv_now : list WgEvent -> N * Instant   (* the system clock since the epoch, the monotonic clock, in nanoseconds *)
}.

(** ** The container backend ([docker.rs]) *)

Definition DEFAULT_IMAGE : string := "ghcr.io/getployz/ployz-networking:latest".
Definition DEFAULT_MTU : N := 1420.
Definition INTERFACE_NAME : string := "wg0".
Definition BRIDGE_HOST_LOOPBACK : string := "127.0.0.1".

Record DockerWireGuard := {
  dw_container_name : string; dw_image : string; dw_paths : WgPaths; dw_private_key : list N;
  dw_public_key_bytes : list N; dw_overlay_ip : OverlayIp; dw_listen_port : N;
  dw_outbound_forwards : list OutboundForward; dw_exposed_tcp_ports : list N
}.
(** Its mutexes, and the files of the machine. *)
Record WgState := {
  ws_fs : Fs; ws_bridge : option (list N); ws_bridge_overlay_ip : option OverlayIp; ws_extra_peers : list BridgePeerInfo
}.
Definition with_ws_fs (fs : Fs) (s : WgState) : WgState :=
  {| ws_fs := fs; ws_bridge := ws_bridge s; ws_bridge_overlay_ip := ws_bridge_overlay_ip s; ws_extra_peers := ws_extra_peers s |}.
Definition with_bridge (b : option (list N)) (ip : option OverlayIp) (s : WgState) : WgState :=
  {| ws_fs := ws_fs s; ws_bridge := b; ws_bridge_overlay_ip := ip; ws_extra_peers := ws_extra_peers s |}.
Definition with_extra (f : list BridgePeerInfo -> list BridgePeerInfo) (s : WgState) : WgState :=
  {| ws_fs := ws_fs s; ws_bridge := ws_bridge s; ws_bridge_overlay_ip := ws_bridge_overlay_ip s;
     ws_extra_peers := f (ws_extra_peers s) |}.

(** [DockerWireGuardBuilder]. *)
Record DockerWireGuardBuilder := {
  wb_container_name : string; wb_image : string; wb_data_dir : PathBuf; wb_private_key : list N;
  wb_overlay_ip : OverlayIp; wb_listen_port : N; wb_outbound_forwards : list OutboundForward; wb_exposed_tcp_ports : list N
}.
Definition wg_builder (container_name : string) (data_dir : PathBuf) (private_key : list N) (overlay_ip : OverlayIp)
    : DockerWireGuardBuilder :=
  {| wb_container_name := container_name; wb_image := DEFAULT_IMAGE; wb_data_dir := data_dir; wb_private_key := private_key;
     wb_overlay_ip := overlay_ip; wb_listen_port := DEFAULT_LISTEN_PORT; wb_outbound_forwards := []; wb_exposed_tcp_ports := [] |}.
Definition builder_image (image : string) (b : DockerWireGuardBuilder) : DockerWireGuardBuilder :=
  {| wb_container_name := wb_container_name b; wb_image := image; wb_data_dir := wb_data_dir b;
     wb_private_key := wb_private_key b; wb_overlay_ip := wb_overlay_ip b; wb_listen_port := wb_listen_port b;
     wb_outbound_forwards := wb_outbound_forwards b; wb_exposed_tcp_ports := wb_exposed_tcp_ports b |}.
Definition with_bridge_forward (local_addr overlay_dest : SocketAddr) (b : DockerWireGuardBuilder) : DockerWireGuardBuilder :=
  {| wb_container_name := wb_container_name b; wb_image := wb_image b; wb_data_dir := wb_data_dir b;
     wb_private_key := wb_private_key b; wb_overlay_ip := wb_overlay_ip b; wb_listen_port := wb_listen_port b;
     wb_outbound_forwards := (wb_outbound_forwards b ++ [{| of_local_addr := local_addr; of_overlay_dest := overlay_dest |}])%list;
     wb_exposed_tcp_ports := wb_exposed_tcp_ports b |}.
Definition expose_tcp (port : N) (b : DockerWireGuardBuilder) : DockerWireGuardBuilder :=
  {| wb_container_name := wb_container_name b; wb_image := wb_image b; wb_data_dir := wb_data_dir b;
     wb_private_key := wb_private_key b; wb_overlay_ip := wb_overlay_ip b; wb_listen_port := wb_listen_port b;
     wb_outbound_forwards := wb_outbound_forwards b; wb_exposed_tcp_ports := (wb_exposed_tcp_ports b ++ [port])%list |}.

(** The [Result] of a command from its outcome ([docker_exec_capture]). *)
Definition dec_z (z : Z) : string := if (z <? 0)%Z then "-" +:+ dec (Z.to_N (- z)) else dec (Z.to_N z).
Fixpoint collect_output (operation : string) (output : list (result string LogOutput)) (stdout_buf stderr_buf : string)
    : Res (string * string) :=
  match output with
  | [] => Ok (stdout_buf, stderr_buf)
  | Ok (StdOut message) :: output => collect_output operation output (stdout_buf +:+ message) stderr_buf
  | Ok (StdErr message) :: output => collect_output operation output stdout_buf (stderr_buf +:+ message)
  | Ok OtherOutput :: output => collect_output operation output stdout_buf stderr_buf
  | Err e :: _ => Err (Operation operation e)
  end.
Definition exec_capture_result (operation : string) (outcome : ExecOutcome) : Res string :=
  match outcome with
  | CreateExecFailed e => Err (Operation operation ("create exec: " +:+ e))
  | StartExecFailed e => Err (Operation operation ("start exec: " +:+ e))
  | Detached => Ok ""
  | Attached output inspect =>
      collected <-? collect_output operation output "" "" ;;
      let '(stdout_buf, stderr_buf) := collected in
      exit_code <-? map_err (fun e => Operation operation ("inspect exec: " +:+ e)) inspect ;;
      match exit_code with
      | Some code =>
          if (code =? 0)%Z then Ok stdout_buf
          else Err (Operation operation (if is_empty stderr_buf then "exit code " +:+ dec_z code
                                         else "exit code " +:+ dec_z code +:+ ": " +:+ trim stderr_buf))
      | None => Ok stdout_buf
      end
  end.

Section wireguard.
Context {IP : Ipnet} {B64 : Base64Standard} {K : Keys} (env : WgEnv).
Local Abbreviation W := (eff WgState WgEvent Error).

Definition wg_io {A} (operation : string) (c : io A) : W A := fun '(s, log) =>
  let '(r, fs) := c (ws_fs s) in (map_err (Operation operation) r, (with_ws_fs fs s, log)).

Definition docker_exec_capture (container_name : string) (cmd : list string) (operation : string) : W string :=
  fun '(s, log) =>
    let outcome := wv_exec env cmd log in
    (exec_capture_result operation outcome, (s, (log ++ [WeExec container_name cmd (fs_files (ws_fs s)) outcome])%list)).

Definition docker_call {A} (answer : list WgEvent -> result DockerError A) (event : WgEvent) : W (result DockerError A) :=
  mobserve answer (fun _ => event).
Definition docker_op (operation : string) (answer : list WgEvent -> result DockerError unit) (event : WgEvent) : W unit :=
  r <-! docker_call answer event ;;
  match r with Ok _ => mret tt | Err e => mfail (Operation operation (de_message e)) end.

Definition docker_force_remove (container_name : string) : W unit :=
  _ <-! docker_call (wv_remove env) (WeRemove container_name true) ;; mret tt.
Definition docker_graceful_remove (container_name : string) (grace_secs : Z) : W unit :=
  stopped <-! docker_call (wv_stop env) (WeStop container_name grace_secs) ;;
  _ <-! match stopped with
        | Ok _ => mret tt
        | Err e => if has_status [304; 404]%N e then mret tt else mfail (Operation "docker stop" (de_message e))
        end ;;
  removed <-! docker_call (wv_remove env) (WeRemove container_name false) ;;
  match removed with
  | Ok _ => mret tt
  | Err e => if has_status [404]%N e then mret tt else mfail (Operation "docker remove" (de_message e))
  end.

(** [DockerWireGuardBuilder::build]. *)
Definition wg_build (self : DockerWireGuardBuilder) : W DockerWireGuard :=
  _ <-! mmap_err (Operation "docker connect") (mcall (wv_connect env) WeConnect) ;;
  _ <-! mmap_err (Operation "docker ping") (mcall (wv_ping env) WePing) ;;
  mret {| dw_container_name := wb_container_name self; dw_image := wb_image self; dw_paths := WgPaths_new (wb_data_dir self);
          dw_private_key := wb_private_key self; dw_public_key_bytes := x25519_public (wb_private_key self);
          dw_overlay_ip := wb_overlay_ip self; dw_listen_port := wb_listen_port self;
          dw_outbound_forwards := wb_outbound_forwards self; dw_exposed_tcp_ports := wb_exposed_tcp_ports self |}.

(** [docker] of [driver.rs]. *)
Definition driver_docker (identity : Identity) (overlay_ip : OverlayIp) (network_dir : PathBuf) (exposed_tcp_ports : list N)
    (bridged_api_port : N) (image : string) : eff WgState WgEvent string DockerWireGuard :=
  let overlay_api := {| sa_ip := V6 overlay_ip; sa_port := bridged_api_port |} in
  let local_api := {| sa_ip := V4 2130706433; sa_port := bridged_api_port |} in
  let builder := with_bridge_forward local_api overlay_api
    (builder_image image (wg_builder "ployz-networking" network_dir (idn_private_key identity) overlay_ip)) in
  mmap_err (fun error => "docker wireguard: " +:+ error_to_string error)
    (wg_build (foldl (fun b port => expose_tcp port b) builder exposed_tcp_ports)).

Section docker.
Context (self : DockerWireGuard).

Definition bridge_peer_endpoint : SocketAddr := {| sa_ip := V4 2130706433; sa_port := dw_listen_port self |}.

Definition wg_port_bindings : gmap string (option (list PortBinding)) :=
  foldl (fun m port => <[dec port +:+ "/tcp" := Some [{| pb_host_ip := None; pb_host_port := Some (dec port) |}]]> m)
    {[ dec (dw_listen_port self) +:+ "/udp" :=
         Some [{| pb_host_ip := Some BRIDGE_HOST_LOOPBACK; pb_host_port := Some (dec (dw_listen_port self)) |}] ]}
    (dw_exposed_tcp_ports self).

Definition container_running : W bool :=
  r <-! docker_call (wv_inspect env) (WeInspect (dw_container_name self)) ;;
  mret (match r with Ok info => match ci_running info with Some b => b | None => false end | Err _ => false end).

Definition exec_in_container_capture (cmd : list string) : W string :=
  docker_exec_capture (dw_container_name self) cmd "docker exec".
Definition exec_in_container (cmd : list string) : W unit :=
  _ <-! exec_in_container_capture cmd ;; mret tt.

(** Three queries; only their log lines depend on the answers. *)
Definition log_interface_diagnostics : W unit :=
  _ <-! ignore (exec_in_container_capture ["wg"; "show"; INTERFACE_NAME; "listen-port"]) ;;
  _ <-! ignore (exec_in_container_capture ["wg"; "show"; INTERFACE_NAME; "peers"]) ;;
  ignore (exec_in_container_capture ["wg"; "show"; INTERFACE_NAME; "latest-handshakes"]).

Definition setup_interface : W unit :=
  let key_path := wp_private_key_file (dw_paths self) in
  let overlay := ipv6_to_string (dw_overlay_ip self) +:+ "/128" in
  _ <-! exec_in_container ["ip"; "link"; "add"; INTERFACE_NAME; "type"; "wireguard"] ;;
  _ <-! exec_in_container ["ip"; "link"; "set"; INTERFACE_NAME; "mtu"; dec DEFAULT_MTU] ;;
  _ <-! exec_in_container ["wg"; "set"; INTERFACE_NAME; "private-key"; key_path; "listen-port"; dec (dw_listen_port self)] ;;
  _ <-! exec_in_container ["ip"; "addr"; "add"; overlay; "dev"; INTERFACE_NAME] ;;
  _ <-! exec_in_container ["ip"; "link"; "set"; INTERFACE_NAME; "up"] ;;
  exec_in_container ["ip"; "-6"; "route"; "add"; "fd00::/8"; "dev"; INTERFACE_NAME].

Definition interface_ready : W bool :=
  r <-! mtry (exec_in_container_capture ["wg"; "show"; INTERFACE_NAME; "listen-port"]) ;; mret (is_ok r).

(** [wg set wg0 peer K allowed-ips A persistent-keepalive N]. *)
Definition set_peer_cmd (key allowed : string) : list string :=
  ["wg"; "set"; INTERFACE_NAME; "peer"; key; "allowed-ips"; allowed; "persistent-keepalive"; dec PERSISTENT_KEEPALIVE_SECS].

Definition add_sidecar_peer (pubkey : list N) (overlay_ip : Ipv4Addr) : W unit :=
  let allowed := ipv4_to_string overlay_ip +:+ "/32" in
  _ <-! exec_in_container (set_peer_cmd (encode_key pubkey) allowed) ;;
  mput (with_extra (fun extra => extra ++ [{| bp_public_key := pubkey; bp_allowed_ips := [allowed] |}])%list).

Definition remove_sidecar_peer (pubkey : list N) : W unit :=
  _ <-! exec_in_container ["wg"; "set"; INTERFACE_NAME; "peer"; encode_key pubkey; "remove"] ;;
  mput (with_extra (filter (fun p => bp_public_key p <> pubkey))).

(** [OverlayBridge::generate_keypair]. *)
Definition generate_keypair : W (list N * OverlayIp) :=
  secret <-! mobserve (wv_random env) (fun _ => WeRandom) ;;
  let pub_bytes := x25519_public secret in
  mret (pub_bytes, management_ip_from_key pub_bytes).

Definition start_bridge : W unit :=
  match dw_outbound_forwards self with
  | [] => mret tt
  | _ =>
      running <-! mget ws_bridge ;;
      match running with
      | Some _ => mret tt
      | None =>
          '(bridge_pub_bytes, bridge_overlay_ip) <-! generate_keypair ;;
          let bridge_allowed := ipv6_to_string bridge_overlay_ip +:+ "/128" in
          _ <-! exec_in_container (set_peer_cmd (encode_key bridge_pub_bytes) bridge_allowed) ;;
          _ <-! mmap_err (Operation "bridge start")
                  (mask (wv_bridge_start env) (WeBridgeStart bridge_pub_bytes bridge_peer_endpoint (dw_outbound_forwards self))) ;;
          _ <-! mput (with_extra (fun extra =>
                  extra ++ [{| bp_public_key := bridge_pub_bytes; bp_allowed_ips := [bridge_allowed] |}])%list) ;;
          mput (with_bridge (Some bridge_pub_bytes) (Some bridge_overlay_ip))
      end
  end.

Definition create_wireguard_container : W unit :=
  let wg_dir := wp_dir (dw_paths self) in
  let host_config := {|
    hc_binds := Some [wg_dir +:+ ":" +:+ wg_dir; "/dev/net/tun:/dev/net/tun"; "/sys/fs/bpf:/sys/fs/bpf:rw"];
    hc_dns := None; hc_network_mode := None; hc_port_bindings := Some wg_port_bindings; hc_cap_add := None;
    hc_cap_drop := None; hc_privileged := Some true;
    hc_restart_policy := Some {| rp_name := Some RpAlways; rp_maximum_retry_count := None |};
    hc_memory := None; hc_nano_cpus := None;
    hc_sysctls := Some (list_to_map [("net.ipv4.conf.all.src_valid_mark", "1"); ("net.ipv6.conf.all.disable_ipv6", "0")]);
    hc_tmpfs := None; hc_pid_mode := Some "host" |} in
  let config := {|
    cc_image := Some (dw_image self); cc_cmd := Some ["sleep"; "infinity"]; cc_entrypoint := None; cc_env := None;
    cc_labels := Some (list_to_map [("com.docker.compose.project", "ployz-system"); ("com.docker.compose.service", "wireguard")]);
    cc_user := None;
    cc_exposed_ports := Some ((dec (dw_listen_port self) +:+ "/udp") :: ((fun port => dec port +:+ "/tcp") <$> dw_exposed_tcp_ports self));
    cc_stop_timeout := None |} in
  docker_op "docker create" (wv_create env) (WeCreate (dw_container_name self) config host_config).

Definition docker_up : W unit :=
  _ <-! wg_io "write private key" (write_private_key (dw_paths self) (dw_private_key self)) ;;
  running <-! container_running ;;
  ready <-! (if running : bool then interface_ready else mret false) ;;
  if ready : bool then
    _ <-! log_interface_diagnostics ;;
    _ <-! start_bridge ;;
    log_interface_diagnostics
  else
    _ <-! mcall (fun _ => Ok tt) (WePull (dw_image self)) ;;
    _ <-! docker_force_remove (dw_container_name self) ;;
    _ <-! create_wireguard_container ;;
    _ <-! docker_op "docker start" (wv_start env) (WeStart (dw_container_name self)) ;;
    _ <-! setup_interface ;;
    _ <-! log_interface_diagnostics ;;
    _ <-! start_bridge ;;
    log_interface_diagnostics.

Definition docker_down : W unit :=
  running <-! mget ws_bridge ;;
  _ <-! match running with Some key => mcall (fun _ => Ok tt) (WeBridgeStop key) | None => mret tt end ;;
  _ <-! mput (with_bridge None None) ;;
  _ <-! mput (with_extra (fun _ => [])) ;;
  docker_graceful_remove (dw_container_name self) 10.

(** The IPv4 networks of [ip route show dev wg0]. *)
Definition route_destinations (output : string) : gset string :=
  list_to_set (filter (fun dest => contains_char "/" dest && negb (contains_char ":" dest) = true)
                 (omap first_word (lines output))).
Definition desired_subnets (peers : list MachineRecord) : gset string :=
  list_to_set (omap (fun p => ipnet_to_string <$> mr_subnet p) peers).

Definition SRC_IP_SCRIPT : string :=
  "ip -4 addr show eth1 | awk '/inet /{split($2,a," +:+ quote +:+ "/" +:+ quote +:+ ");print a[1]}'".
Definition route_src : W (option string) :=
  r <-! mtry (exec_in_container_capture ["sh"; "-c"; SRC_IP_SCRIPT]) ;;
  mret (match r with
        | Ok s => let s := trim s in if is_empty s then None else Some s
        | Err _ => None
        end).
Definition replace_route_cmd (src_ip : option string) (subnet : string) : list string :=
  (["ip"; "route"; "replace"; subnet; "dev"; INTERFACE_NAME] ++
   match src_ip with Some src => ["src"; src] | None => [] end)%list.
Definition delete_route_cmd (subnet : string) : list string := ["ip"; "route"; "del"; subnet; "dev"; INTERFACE_NAME].

Definition sync_subnet_routes (src_ip : option string) (desired current : gset string) : W unit :=
  _ <-! mfor (elements desired) (fun subnet => ignore (exec_in_container (replace_route_cmd src_ip subnet))) ;;
  mfor (elements (current ∖ desired)) (fun subnet => ignore (exec_in_container (delete_route_cmd subnet))).

Definition docker_set_peers (peers : list MachineRecord) : W unit :=
  extra <-! mget ws_extra_peers ;;
  _ <-! wg_io "write sync config"
          (write_sync_config_with_extra_peers (dw_paths self) (dw_private_key self) (dw_listen_port self) peers extra) ;;
  let syncconf_cmd := ["wg"; "syncconf"; INTERFACE_NAME; wp_sync_config (dw_paths self)] in
  first <-! mtry (exec_in_container syncconf_cmd) ;;
  _ <-! match first with
        | Ok _ => mret tt
        | Err first =>
            _ <-! mcall (fun _ => Ok tt) (WeSleep 150) ;;
            mmap_err (fun _ => first) (exec_in_container syncconf_cmd)
        end ;;
  let desired := desired_subnets peers in
  shown <-! mtry (exec_in_container_capture ["ip"; "route"; "show"; "dev"; INTERFACE_NAME]) ;;
  let current := route_destinations (match shown with Ok output => output | Err _ => "" end) in
  src_ip <-! route_src ;;
  sync_subnet_routes src_ip desired current.

(** [has_remote_handshake]; the text of the log lines is left out. *)
Definition remote_handshake_line (local_keys : gset string) (line : string) : bool :=
  match split_once "009" line with
  | None => false
  | Some (pubkey_raw, ts_raw) =>
      let pubkey := trim pubkey_raw in
      let ts := default 0%N (parse_u64 (trim ts_raw)) in
      negb (bool_decide (pubkey ∈ local_keys)) && (0 <? ts)%N
  end.
Definition has_remote_handshake : W bool :=
  r <-! mtry (exec_in_container_capture ["wg"; "show"; INTERFACE_NAME; "latest-handshakes"]) ;;
  match r with
  | Err _ => mret false
  | Ok output =>
      extra <-! mget ws_extra_peers ;;
      let local_keys := list_to_set ((fun p => encode_key (bp_public_key p)) <$> extra) in
      mret (existsb (remote_handshake_line local_keys) (lines output))
  end.

(** From the readings of both clocks. *)
Definition system_time_to_instant (now : N * Instant) (value : N) : option Instant :=
  if (now.1 <? value)%N then None
  else let elapsed := (now.1 - value)%N in if (now.2 <? elapsed)%N then None else Some (now.2 - elapsed)%N.
Definition unix_seconds_to_instant (now : N * Instant) (seconds : N) : option Instant :=
  system_time_to_instant now (from_secs seconds).

Definition parse_int_error_u64 (s : string) : string :=
  if is_empty s then "cannot parse integer from empty string"
  else let digits := match s with String "+" r => r | _ => s end in
       if negb (is_empty digits) && all_chars is_ascii_digit digits then "number too large to fit in target type"
       else "invalid digit found in string".

(** The text of [{line:?}] is an argument. *)
Definition parse_device_peer_line (debug : string -> string) (now : N * N) (line : string) : Res DevicePeer :=
  match split_once "009" line with
  | None => Err (Operation "docker wireguard read_peers" ("invalid latest-handshakes line: " +:+ debug line))
  | Some (key_b64, handshake_secs) =>
      public_key <-? map_err (Operation "docker wireguard read_peers") (decode_key key_b64) ;;
      handshake <-? map_err (Operation "docker wireguard read_peers")
                      (ok_or (parse_u64 (trim handshake_secs)) (parse_int_error_u64 (trim handshake_secs))) ;;
      Ok {| dv_public_key := public_key; dv_endpoint := None;
            dv_last_handshake := if (handshake =? 0)%N then None else unix_seconds_to_instant now handshake |}
  end.
Definition docker_read_peers (debug : string -> string) : W (list DevicePeer) :=
  output <-! exec_in_container_capture ["wg"; "show"; INTERFACE_NAME; "latest-handshakes"] ;;
  fun st => (try_map (parse_device_peer_line debug (wv_now env st.2)) (lines output), st).

Definition docker_set_peer_endpoint (key : PublicKey) (endpoint : string) : W unit :=
  exec_in_container ["wg"; "set"; INTERFACE_NAME; "peer"; encode_key key; "endpoint"; endpoint].
End docker.

(** ** Sidecars ([sidecar.rs]) *)

Record SidecarConfig := {
  sd_container_name : string; sd_private_key : list N; sd_overlay_ip : Ipv4Addr; sd_backbone_pubkey : list N;
  sd_backbone_endpoint : string; sd_cluster_cidr : string; sd_image : string
}.

(** [str::trim_start_matches] of a text that does not overlap itself. *)
Fixpoint trim_start_matches (fuel : nat) (p s : string) : string :=
  match fuel with
  | O => s
  | S fuel => match strip_prefix p s with Some r => trim_start_matches fuel p r | None => s end
  end.

Definition wg_sidecar_up (config : SidecarConfig) : W unit :=
  _ <-! docker_force_remove (sd_container_name config) ;;
  let host_config := {|
    hc_binds := None; hc_dns := None; hc_network_mode := None; hc_port_bindings := None; hc_cap_add := Some ["NET_ADMIN"];
    hc_cap_drop := None; hc_privileged := None; hc_restart_policy := None; hc_memory := None; hc_nano_cpus := None;
    hc_sysctls := None; hc_tmpfs := None; hc_pid_mode := None |} in
  let body := {|
    cc_image := Some (sd_image config); cc_cmd := Some ["sleep"; "infinity"]; cc_entrypoint := None; cc_env := None;
    cc_labels := Some (list_to_map [("com.docker.compose.project", "ployz-system");
      ("com.docker.compose.service",
       "sidecar-" +:+ trim_start_matches (String.length (sd_container_name config)) "ployz-sidecar-" (sd_container_name config))]);
    cc_user := None; cc_exposed_ports := None; cc_stop_timeout := None |} in
  _ <-! docker_op "sidecar create" (wv_create env) (WeCreate (sd_container_name config) body host_config) ;;
  docker_op "sidecar start" (wv_start env) (WeStart (sd_container_name config)).

Definition sidecar_exec (config : SidecarConfig) (cmd : list string) : W unit :=
  _ <-! docker_exec_capture (sd_container_name config) cmd "sidecar exec" ;; mret tt.

Definition sidecar_setup_interface (config : SidecarConfig) : W unit :=
  _ <-! sidecar_exec config ["ip"; "link"; "add"; INTERFACE_NAME; "type"; "wireguard"] ;;
  _ <-! sidecar_exec config ["ip"; "link"; "set"; INTERFACE_NAME; "mtu"; dec DEFAULT_MTU] ;;
  _ <-! sidecar_exec config ["sh"; "-c"; "echo '" +:+ encode_key (sd_private_key config) +:+ "' > /tmp/wg-private.key"] ;;
  _ <-! sidecar_exec config ["wg"; "set"; INTERFACE_NAME; "private-key"; "/tmp/wg-private.key";
          "peer"; encode_key (sd_backbone_pubkey config); "endpoint"; sd_backbone_endpoint config;
          "allowed-ips"; sd_cluster_cidr config +:+ ",fd00::/8"; "persistent-keepalive"; dec PERSISTENT_KEEPALIVE_SECS] ;;
  _ <-! sidecar_exec config ["rm"; "/tmp/wg-private.key"] ;;
  _ <-! sidecar_exec config ["ip"; "addr"; "add"; ipv4_to_string (sd_overlay_ip config) +:+ "/32"; "dev"; INTERFACE_NAME] ;;
  _ <-! sidecar_exec config ["ip"; "link"; "set"; INTERFACE_NAME; "up"] ;;
  _ <-! sidecar_exec config ["ip"; "route"; "add"; sd_cluster_cidr config; "dev"; INTERFACE_NAME] ;;
  sidecar_exec config ["ip"; "-6"; "route"; "add"; "fd00::/8"; "dev"; INTERFACE_NAME].

Definition wg_sidecar_down (config : SidecarConfig) : W unit := docker_graceful_remove (sd_container_name config) 5.

(** ** The host backend ([host.rs], on Linux) *)

Record HostWireGuard := {
  hw_ifname : string; hw_private_key : list N; hw_overlay_ip : OverlayIp; hw_listen_port : N; hw_subnet : Ipv4Net
}.

Section host.
(** The error of the API's mask parser, if it refuses the text, and [ipnet]'s
    first host address. *)
Context (mask_error : string -> option string) (first_host : Ipv4Net -> option Ipv4Addr) (self : HostWireGuard).

Definition machine_to_peer (record : MachineRecord) : Res HostPeer :=
  allowed_ips <-? try_map (fun cidr => match mask_error cidr with
                                       | None => Ok cidr
                                       | Some e => Err (Operation "parse allowed ip" e)
                                       end) (allowed_cidrs record) ;;
  let endpoint := match mr_endpoints record with ep :: _ => parse_socket_addr ep | [] => None end in
  Ok {| hp_public_key := mr_public_key record; hp_allowed_ips := allowed_ips; hp_endpoint := endpoint;
        hp_persistent_keepalive_interval := Some PERSISTENT_KEEPALIVE_SECS; hp_last_handshake := None |}.

Definition wg_create_interface : W unit := mmap_err (Operation "create interface") (mcall (wv_api env) WeCreateInterface).
Definition wg_remove_interface : W unit := mmap_err (Operation "remove interface") (mcall (wv_api env) WeRemoveInterface).
Definition wg_configure_interface (config : InterfaceConfiguration) : W unit :=
  mmap_err (Operation "configure interface") (mcall (wv_api env) (WeConfigureInterface config)).
Definition wg_read_peers : W (list HostPeer) := mmap_err (Operation "read interface") (mcall (wv_interface env) WeReadInterface).
Definition wg_configure_peer (peer : HostPeer) : W unit :=
  mmap_err (Operation "configure peer") (mask (wv_api env) (WeConfigurePeer peer)).
Definition wg_remove_peer (key : list N) : W unit :=
  mmap_err (Operation "remove peer") (mask (wv_api env) (WeRemovePeer key)).

Definition ip_output (args : list string) : eff WgState WgEvent string ProcessOutput := mask (wv_ip env args) (WeIp args).

Definition route_args (verb cidr ifname : string) : list string :=
  ((if contains_char ":" cidr then ["-6"] else []) ++ ["route"; verb; cidr; "dev"; ifname])%list.
Definition add_route (ifname cidr : string) : W unit :=
  output <-! mmap_err (Operation "add route") (ip_output (route_args "replace" cidr ifname)) ;;
  if po_success output then mret tt else mfail (Operation "add route" (trim (po_stderr output))).
Definition del_route (cidr ifname : string) : W unit :=
  output <-! mmap_err (Operation "del route") (ip_output (route_args "del" cidr ifname)) ;;
  if po_success output || contains_str "No such process" (po_stderr output) then mret tt
  else mfail (Operation "del route" (trim (po_stderr output))).

Definition host_up : W unit :=
  _ <-! wg_create_interface ;;
  let overlay_addr := ipv6_to_string (hw_overlay_ip self) +:+ "/128" in
  _ <-! match mask_error overlay_addr with Some e => mfail (Operation "parse overlay addr" e) | None => mret tt end ;;
  _ <-! wg_configure_interface {| ifc_name := hw_ifname self; ifc_prvkey := encode_key (hw_private_key self);
          ifc_addresses := [overlay_addr]; ifc_port := hw_listen_port self; ifc_peers := []; ifc_mtu := None; ifc_fwmark := None |} ;;
  add_route (hw_ifname self) "fd00::/8".

Definition host_down : W unit :=
  _ <-! ignore (del_route "fd00::/8" (hw_ifname self)) ;;
  wg_remove_interface.

Definition host_set_peers (peers : list MachineRecord) : W unit :=
  desired <-! mlift (try_map machine_to_peer peers) ;;
  current <-! wg_read_peers ;;
  let desired_keys : gset (list N) := list_to_set (hp_public_key <$> desired) in
  let current_keys : gset (list N) := list_to_set (hp_public_key <$> current) in
  _ <-! mfor (elements (current_keys ∖ desired_keys)) wg_remove_peer ;;
  _ <-! mfor desired wg_configure_peer ;;
  let src_ip := ipv4_to_string <$> first_host (hw_subnet self) in
  let desired := desired_subnets peers in
  output <-! mmap_err (Operation "list routes") (ip_output ["route"; "show"; "dev"; hw_ifname self]) ;;
  let current_routes := route_destinations (po_stdout output) in
  _ <-! mfor (elements (desired ∖ current_routes)) (fun subnet =>
          ignore (ip_output (["route"; "replace"; subnet; "dev"; hw_ifname self] ++
                             match src_ip with Some src => ["src"; src] | None => [] end)%list)) ;;
  mfor (elements (current_routes ∖ desired)) (fun subnet =>
    ignore (ip_output ["route"; "del"; subnet; "dev"; hw_ifname self])).

(** [Display] of a [SocketAddr]. *)
Definition scoped_socket_to_string (a : SocketAddr * N) : string :=
  match sa_ip a.1 with
  | V4 ip => ipv4_to_string ip +:+ ":" +:+ dec (sa_port a.1)
  | V6 ip => "[" +:+ ipv6_to_string ip +:+ (if (a.2 =? 0)%N then "" else "%" +:+ dec a.2) +:+ "]:" +:+ dec (sa_port a.1)
  end.
Definition host_read_peers : W (list DevicePeer) :=
  peers <-! wg_read_peers ;;
  fun st => (Ok ((fun peer => {| dv_public_key := hp_public_key peer; dv_endpoint := scoped_socket_to_string <$> hp_endpoint peer;
                                 dv_last_handshake := hp_last_handshake peer ≫= system_time_to_instant (wv_now env st.2) |}) <$> peers), st).

Definition host_set_peer_endpoint (key : PublicKey) (endpoint : string) : W unit :=
  endpoint <-! mlift (ok_or (parse_socket_addr endpoint) (Operation "set peer endpoint" "invalid socket address syntax")) ;;
  peers <-! wg_read_peers ;;
  match find (fun peer => bool_decide (hp_public_key peer = key)) peers with
  | None => mfail (Operation "set peer endpoint" "peer not found")
  | Some peer => wg_configure_peer {| hp_public_key := hp_public_key peer; hp_allowed_ips := hp_allowed_ips peer;
      hp_endpoint := Some endpoint; hp_persistent_keepalive_interval := hp_persistent_keepalive_interval peer;
      hp_last_handshake := hp_last_handshake peer |}
  end.
End host.
End wireguard.

(** ** The configuration format of [wg] *)

(** What [wg(8)] documents of the file given to [wg syncconf]: a comment starts
    with a number sign, white space does not count, [[Interface]] and [[Peer]]
    open a section, other lines are a key, an equals sign and a value. *)
Record PeerConf := mkPeerConf {
  pc_public_key : string; pc_allowed_ips : list string; pc_endpoint : option string; pc_keepalive : option string
}.
Record WgConf := { wc_private_key : option string; wc_listen_port : option string; wc_peers : list PeerConf }.

Fixpoint squash (s : string) : string :=
  match s with
  | EmptyString => ""
  | String c r => if ascii_dec c "#" then "" else if ws1 c then squash r else String c (squash r)
  end.

(** The peers read so far, the current one first. *)
Record ConfState := { cf_in_interface : bool; cf_private_key : option string; cf_listen_port : option string; cf_peers : list PeerConf }.
Definition conf_start : ConfState :=
  {| cf_in_interface := false; cf_private_key := None; cf_listen_port := None; cf_peers := [] |}.
Definition comma_list (value : string) : list string := if is_empty value then [] else split "," value.
Definition peer_key (key value : string) (p : PeerConf) : option PeerConf :=
  if decide (key = "publickey") then Some (mkPeerConf value (pc_allowed_ips p) (pc_endpoint p) (pc_keepalive p))
  else if decide (key = "allowedips") then Some (mkPeerConf (pc_public_key p) (comma_list value) (pc_endpoint p) (pc_keepalive p))
  else if decide (key = "endpoint") then Some (mkPeerConf (pc_public_key p) (pc_allowed_ips p) (Some value) (pc_keepalive p))
  else if decide (key = "persistentkeepalive") then Some (mkPeerConf (pc_public_key p) (pc_allowed_ips p) (pc_endpoint p) (Some value))
  else None.
Definition conf_line (st : ConfState) (line : string) : option ConfState :=
  let text := squash line in
  if is_empty text then Some st
  else if decide (to_ascii_lowercase text = "[interface]") then
    Some {| cf_in_interface := true; cf_private_key := cf_private_key st; cf_listen_port := cf_listen_port st; cf_peers := cf_peers st |}
  else if decide (to_ascii_lowercase text = "[peer]") then
    Some {| cf_in_interface := false; cf_private_key := cf_private_key st; cf_listen_port := cf_listen_port st;
            cf_peers := mkPeerConf "" [] None None :: cf_peers st |}
  else match split_once "=" text with None => None | Some (key, value) =>
    let key := to_ascii_lowercase key in
    if cf_in_interface st then
      if decide (key = "privatekey") then
        Some {| cf_in_interface := true; cf_private_key := Some value; cf_listen_port := cf_listen_port st; cf_peers := cf_peers st |}
      else if decide (key = "listenport") then
        Some {| cf_in_interface := true; cf_private_key := cf_private_key st; cf_listen_port := Some value; cf_peers := cf_peers st |}
      else None
    else match cf_peers st with
         | [] => None
         | p :: ps => p ← peer_key key value p;
                      Some {| cf_in_interface := false; cf_private_key := cf_private_key st; cf_listen_port := cf_listen_port st;
                              cf_peers := p :: ps |}
         end
    end.
Definition conf_lines (st : ConfState) (l : list string) : option ConfState :=
  foldl (fun st line => st ≫= fun st => conf_line st line) (Some st) l.
Definition read_config (text : string) : option WgConf :=
  st ← conf_lines conf_start (split "010" text);
  Some {| wc_private_key := cf_private_key st; wc_listen_port := cf_listen_port st; wc_peers := reverse (cf_peers st) |}.

(** *** Texts without white space *)

(** Bytes that mean nothing to the format. *)
Definition conf_char (c : ascii) : bool :=
  negb (ws1 c) && negb (if ascii_dec c "#" then true else false) && negb (if ascii_dec c "," then true else false).
Definition clean (s : string) : Prop := all_chars conf_char s = true.

Lemma squash_app a b : contains_char "#" a = false -> squash (a +:+ b) = squash a +:+ squash b.
Proof.
  induction a as [|c a IH]; [done|]. change (String c a +:+ b) with (String c (a +:+ b)). cbn [squash contains_char].
  destruct (ascii_dec "#" c) as [|Hc]; [done|]. destruct (ascii_dec c "#"); [congruence|]. intros Ha.
  rewrite IH by done. by destruct (ws1 c).
Qed.
Lemma clean_squash s : clean s -> squash s = s.
Proof.
  unfold clean. induction s as [|c s IH]; [done|]. cbn [all_chars squash]. unfold conf_char at 1.
  destruct (ws1 c), (ascii_dec c "#"); simpl; try done. destruct (ascii_dec c ","); simpl; [done|]. intros Hs. by rewrite IH.
Qed.
Lemma all_chars_no f s (c : ascii) : f c = false -> all_chars f s = true -> contains_char c s = false.
Proof.
  intros Hc. induction s as [|d s IH]; [done|]. cbn [all_chars contains_char]. intros [Hd Hs]%andb_true_iff.
  destruct (ascii_dec c d) as [<-|]; [congruence|auto].
Qed.
Lemma clean_no s (c : ascii) : conf_char c = false -> clean s -> contains_char c s = false.
Proof. apply all_chars_no. Qed.
Lemma clean_app a b : clean (a +:+ b) <-> clean a /\ clean b.
Proof. unfold clean. by rewrite all_chars_app, andb_true_iff. Qed.
Lemma split_join_comma l : l <> [] -> Forall clean l -> split "," (join "," l) = l.
Proof.
  induction l as [|x l IH]; [done|]. intros _ [Hx Hl]%Forall_cons. destruct l as [|y l].
  - simpl. apply split_piece. by apply clean_no.
  - change (join "," (x :: y :: l)) with (x +:+ String "," (join "," (y :: l))).
    rewrite split_app by by apply clean_no. by rewrite IH.
Qed.
Lemma squash_join_with l : Forall clean l -> squash (join_with ", " l) = join "," l.
Proof.
  induction l as [|x l IH]; [done|]. intros [Hx Hl]%Forall_cons. destruct l as [|y l].
  - simpl. by apply clean_squash.
  - change (join_with ", " (x :: y :: l)) with (x +:+ String "," (String " " (join_with ", " (y :: l)))).
    rewrite squash_app by by apply clean_no. rewrite clean_squash by done.
    change (squash (String "," (String " " ?t))) with (String "," (squash t)). by rewrite IH.
Qed.

(** *** Lines *)

Definition unlines (l : list string) : string := concat_str (writeln <$> l).
Definition one_line (s : string) : Prop := contains_char "010" s = false.

Lemma concat_str_app a b : concat_str (a ++ b)%list = concat_str a +:+ concat_str b.
Proof. induction a as [|x a IH]; [done|]. cbn [app concat_str]. by rewrite IH, append_assoc. Qed.
Lemma unlines_app a b : unlines (a ++ b)%list = unlines a +:+ unlines b.
Proof. unfold unlines. by rewrite fmap_app, concat_str_app. Qed.
Lemma unlines_bind {A} (f : A -> list string) l : concat_str ((fun x => unlines (f x)) <$> l) = unlines (l ≫= f).
Proof. induction l as [|x l IH]; [done|]. csimpl. cbn [concat_str]. by rewrite unlines_app, IH. Qed.

Lemma writeln_app a rest : writeln a +:+ rest = a +:+ String "010" rest.
Proof. unfold writeln. by rewrite append_assoc. Qed.
Lemma split_unlines l : Forall one_line l -> split "010" (unlines l) = (l ++ [""])%list.
Proof.
  induction 1 as [|x l Hx _ IH]; [done|]. unfold unlines. csimpl. cbn [concat_str].
  rewrite writeln_app, split_app by done. by rewrite <- IH.
Qed.
Lemma clean_one_line s : clean s -> one_line s.
Proof. intros Hs. by apply clean_no. Qed.

Lemma conf_lines_app st a b : conf_lines st (a ++ b)%list = conf_lines st a ≫= fun st => conf_lines st b.
Proof.
  unfold conf_lines. rewrite foldl_app. destruct (foldl _ (Some st) a) as [st'|]; [done|]. simpl.
  induction b as [|x b IH]; [done|]. exact IH.
Qed.
Lemma conf_lines_cons st x l : conf_lines st (x :: l) = conf_line st x ≫= fun st => conf_lines st l.
Proof. apply (conf_lines_app st [x] l). Qed.

(** A line with a key and a value. *)
Definition kv (label value : string) : string := label +:+ " = " +:+ value.
Lemma kv_squash label value :
  clean label -> squash (kv label value) = label +:+ String "=" (squash value).
Proof.
  intros Hl. unfold kv. rewrite squash_app by by apply clean_no. by rewrite clean_squash.
Qed.

Definition label_ok (label : string) : bool :=
  all_chars conf_char label && negb (contains_char "=" label) &&
  match label with String c _ => negb (if ascii_dec (lower_char c) "[" then true else false) | EmptyString => false end.
Lemma conf_line_kv st label value :
  label_ok label = true ->
  conf_line st (kv label value) =
    if cf_in_interface st then
      if decide (to_ascii_lowercase label = "privatekey") then
        Some {| cf_in_interface := true; cf_private_key := Some (squash value); cf_listen_port := cf_listen_port st; cf_peers := cf_peers st |}
      else if decide (to_ascii_lowercase label = "listenport") then
        Some {| cf_in_interface := true; cf_private_key := cf_private_key st; cf_listen_port := Some (squash value); cf_peers := cf_peers st |}
      else None
    else match cf_peers st with
         | [] => None
         | p :: ps => p ← peer_key (to_ascii_lowercase label) (squash value) p;
                      Some {| cf_in_interface := false; cf_private_key := cf_private_key st; cf_listen_port := cf_listen_port st;
                              cf_peers := p :: ps |}
         end.
Proof.
  unfold label_ok. intros [[Hc He]%andb_true_iff Hb]%andb_true_iff. apply negb_true_iff in He.
  unfold conf_line. rewrite kv_squash by done. destruct label as [|c label]; [done|].
  destruct (ascii_dec (lower_char c) "["); [done|].
  change (String c label +:+ ?t) with (String c (label +:+ t)). cbn [is_empty].
  assert (forall t s, to_ascii_lowercase (String c t) <> String "[" s) as Hne by (intros t s [= E _]; congruence).
  rewrite !decide_False by apply Hne. change (String c (label +:+ ?t)) with (String c label +:+ t).
  by rewrite split_once_app by done.
Qed.

(** *** Peers *)

Definition peer_lines (key : string) (allowed : list string) (endpoint : option string) : list string :=
  (["[Peer]"; kv "PublicKey" key; kv "AllowedIPs" (join_with ", " allowed)] ++
   match endpoint with Some e => [kv "Endpoint" e] | None => [] end ++
   [kv "PersistentKeepalive" (dec PERSISTENT_KEEPALIVE_SECS)])%list.

Lemma read_peer_lines st key allowed endpoint :
  clean key -> allowed <> [] -> Forall clean allowed -> Forall (fun s => s <> "") allowed -> from_option clean True endpoint ->
  conf_lines st (peer_lines key allowed endpoint) =
  Some {| cf_in_interface := false; cf_private_key := cf_private_key st; cf_listen_port := cf_listen_port st;
          cf_peers := mkPeerConf key allowed endpoint (Some (dec PERSISTENT_KEEPALIVE_SECS)) :: cf_peers st |}.
Proof.
  intros Hk Hne Ha Hn He. unfold peer_lines. cbn [app]. rewrite conf_lines_cons.
  change (conf_line st "[Peer]") with (Some {| cf_in_interface := false; cf_private_key := cf_private_key st;
    cf_listen_port := cf_listen_port st; cf_peers := mkPeerConf "" [] None None :: cf_peers st |}).
  cbn [base.mbind option_bind]. rewrite conf_lines_cons, conf_line_kv by done. cbn [cf_in_interface cf_peers].
  change (to_ascii_lowercase "PublicKey") with "publickey". unfold peer_key at 1. rewrite decide_True by done.
  cbn [base.mbind option_bind]. rewrite conf_lines_cons, conf_line_kv by done. cbn [cf_in_interface cf_peers].
  change (to_ascii_lowercase "AllowedIPs") with "allowedips". unfold peer_key at 1. rewrite decide_False, decide_True by done.
  cbn [base.mbind option_bind].
  rewrite squash_join_with, (clean_squash key) by done. unfold comma_list.
  assert (is_empty (join "," allowed) = false) as ->.
  { destruct allowed as [|x [|y l]]; [done| |]; apply Forall_cons in Hn as [Hx _]; simpl; destruct x; done. }
  rewrite split_join_comma by done. cbn [pc_public_key pc_allowed_ips pc_endpoint pc_keepalive].
  destruct endpoint as [e|]; cbn [app].
  - rewrite conf_lines_cons, conf_line_kv by done. cbn [cf_in_interface cf_peers].
    change (to_ascii_lowercase "Endpoint") with "endpoint". unfold peer_key at 1. rewrite !decide_False, decide_True by done.
    cbn [base.mbind option_bind]. rewrite clean_squash by done. reflexivity.
  - reflexivity.
Qed.

(** *** Addresses and keys are clean *)

Lemma std_char_clean c : std_char c = true -> conf_char c = true.
Proof. destruct c as [[] [] [] [] [] [] [] []]; (reflexivity || (vm_compute; discriminate)). Qed.
Lemma digit_conf c : is_ascii_digit c = true -> conf_char c = true.
Proof. destruct c as [[] [] [] [] [] [] [] []]; (reflexivity || (vm_compute; discriminate)). Qed.
Lemma dec_clean n : clean (dec n).
Proof. eapply all_chars_impl; [apply digit_conf|apply dec_digits]. Qed.
Lemma ipv4_clean a : clean (ipv4_to_string a).
Proof.
  unfold ipv4_to_string. rewrite !clean_app. split; [apply dec_clean|].
  repeat (change (String "." (?x +:+ ?y)) with ("." +:+ (x +:+ y)); rewrite !clean_app; split; [done|split; [apply dec_clean|]]).
  change (String "." ?x) with ("." +:+ x). rewrite clean_app. split; [done|apply dec_clean].
Qed.
Lemma hex_char_conf d : (d < 16)%N -> conf_char (hex_char d) = true.
Proof.
  intros Hd. assert (Forall (fun d => conf_char (hex_char d) = true) (N.of_nat <$> seq 0 16)) as H by (vm_compute; repeat constructor).
  rewrite Forall_forall in H. apply H, list_elem_of_fmap. exists (N.to_nat d). split; [lia|]. apply elem_of_seq. lia.
Qed.
Lemma hex_u16_clean g : (g < 65536)%N -> clean (hex_u16 g).
Proof.
  intros Hg. assert (g / 4096 < 16 /\ g / 256 mod 16 < 16 /\ g / 16 mod 16 < 16 /\ g mod 16 < 16)%N as (? & ? & ? & ?).
  { split; [apply N.Div0.div_lt_upper_bound; lia|]. repeat split; apply N.mod_lt; done. }
  unfold hex_u16, clean. repeat case_match; cbn [all_chars]; rewrite !hex_char_conf by done; done.
Qed.
Lemma fmt_groups_clean gs : Forall (fun g => g < 65536)%N gs -> clean (fmt_groups gs).
Proof.
  unfold fmt_groups. induction 1 as [|g gs Hg _ IH]; [done|]. csimpl.
  destruct gs as [|g' gs]; csimpl; [by apply hex_u16_clean|].
  change (join ":" (hex_u16 g :: ?l)) with (hex_u16 g +:+ (":" +:+ join ":" l)).
  apply clean_app. split; [by apply hex_u16_clean|]. apply (clean_app ":"). split; [done|exact IH].
Qed.
Lemma ipv6_clean a : octets_wf a -> clean (ipv6_to_string a).
Proof.
  intros Hwf. destruct (octets_groups_wf a Hwf) as [_ Hg]. unfold ipv6_to_string.
  destruct (to_ipv4_mapped _); [apply clean_app; split; [done|apply ipv4_clean]|].
  destruct (longest_zeroes _) as [start l]. case_match; [|by apply fmt_groups_clean].
  apply clean_app. split; [by apply fmt_groups_clean, Forall_take|]. apply (clean_app "::").
  split; [done|by apply fmt_groups_clean, Forall_drop].
Qed.

(** ** Reading back what was written *)

Section roundtrip.
Context {IP : Ipnet} {B64 : Base64Standard} {blaws : Base64StandardLaws B64}.

Lemma encode_key_clean key : clean (encode_key key).
Proof. eapply all_chars_impl; [apply std_char_clean|apply std_encode_chars]. Qed.

(** What is written of a machine and of an extra peer. *)
Definition machine_conf (p : MachineRecord) : PeerConf :=
  mkPeerConf (encode_key (mr_public_key p)) (allowed_cidrs p) (head (mr_endpoints p)) (Some (dec PERSISTENT_KEEPALIVE_SECS)).
Definition extra_conf (p : BridgePeerInfo) : PeerConf :=
  mkPeerConf (encode_key (bp_public_key p)) (bp_allowed_ips p) None (Some (dec PERSISTENT_KEEPALIVE_SECS)).

(** Records whose texts the format can carry. *)
Definition text_ok (s : string) : Prop := clean s /\ s <> "".
Definition machine_ok (p : MachineRecord) : Prop :=
  octets_wf (mr_overlay_ip p) /\ from_option octets_wf True (mr_bridge_ip p) /\ from_option net_wf True (mr_subnet p) /\
  from_option clean True (head (mr_endpoints p)).
Definition extra_ok (p : BridgePeerInfo) : Prop := bp_allowed_ips p <> [] /\ Forall text_ok (bp_allowed_ips p).

Lemma cidr_ok s : clean s -> text_ok (s +:+ "/128").
Proof. intros Hs. split; [by apply clean_app|by destruct s]. Qed.
(** [Display] of a network, [a.b.c.d/p], is a text of plain characters with a
    slash and without colons, commas and number signs. *)
Definition is_v4_net (dest : string) : Prop := contains_char "/" dest && negb (contains_char ":" dest) = true.
Definition route_ok (dest : string) : Prop := dest <> "" /\ all_chars plain dest = true /\ is_v4_net dest.
Definition ipnet_text_clean : Prop := forall n, net_wf n -> text_ok (ipnet_to_string n) /\ route_ok (ipnet_to_string n).
Lemma allowed_cidrs_ok p : ipnet_text_clean -> machine_ok p -> Forall text_ok (allowed_cidrs p).
Proof.
  intros Hnet (Ho & Hb & Hs & _). unfold allowed_cidrs. apply Forall_cons. split; [by apply cidr_ok, ipv6_clean|].
  apply Forall_app. split.
  - destruct (mr_subnet p) as [n|]; [|done]. apply Forall_singleton. by apply Hnet.
  - destruct (mr_bridge_ip p) as [b|]; [|done]. apply Forall_singleton. by apply cidr_ok, ipv6_clean.
Qed.

Lemma render_peer_lines p :
  render_peer p = unlines (peer_lines (encode_key (mr_public_key p)) (allowed_cidrs p) (head (mr_endpoints p))).
Proof.
  unfold render_peer, peer_lines, unlines, kv. destruct (mr_endpoints p) as [|e es];
    cbn [head app fmap list_fmap concat_str]; by rewrite append_empty_r.
Qed.
Lemma render_bridge_peer_lines p :
  render_bridge_peer p = unlines (peer_lines (encode_key (bp_public_key p)) (bp_allowed_ips p) None).
Proof. unfold render_bridge_peer, peer_lines, unlines, kv. cbn [app fmap list_fmap concat_str]. by rewrite append_empty_r. Qed.

Definition conf_block (c : PeerConf) : list string := "" :: peer_lines (pc_public_key c) (pc_allowed_ips c) (pc_endpoint c).
Definition config_lines (private_key : list N) (listen_port : N) (confs : list PeerConf) : list string :=
  (["[Interface]"; kv "PrivateKey" (encode_key private_key); kv "ListenPort" (dec listen_port)] ++ (confs ≫= conf_block))%list.
Lemma sync_config_lines private_key listen_port peers extra :
  sync_config_text private_key listen_port peers extra =
  unlines (config_lines private_key listen_port ((extra_conf <$> extra) ++ (machine_conf <$> peers))%list).
Proof.
  unfold sync_config_text, config_lines. rewrite unlines_app, bind_app, unlines_app. unfold kv.
  assert (forall A (f : A -> PeerConf) (r : A -> string) l, (forall x, writeln "" +:+ r x = unlines (conf_block (f x))) ->
    concat_str ((fun x => writeln "" +:+ r x) <$> l) = unlines ((f <$> l) ≫= conf_block)) as Hblocks.
  { intros A f r l Hx. rewrite (list_fmap_ext _ (fun x => unlines (conf_block (f x)))) by (intros; apply Hx).
    rewrite <- unlines_bind. by rewrite <- list_fmap_compose. }
  rewrite (Hblocks _ extra_conf), (Hblocks _ machine_conf); [unfold unlines; cbn [fmap list_fmap concat_str]; by rewrite !append_assoc|..].
  - intros p. by rewrite render_peer_lines.
  - intros p. by rewrite render_bridge_peer_lines.
Qed.

Definition conf_ok (c : PeerConf) : Prop :=
  clean (pc_public_key c) /\ pc_allowed_ips c <> [] /\ Forall text_ok (pc_allowed_ips c) /\
  from_option clean True (pc_endpoint c) /\ pc_keepalive c = Some (dec PERSISTENT_KEEPALIVE_SECS).

Lemma read_blocks confs st :
  Forall conf_ok confs ->
  conf_lines st (confs ≫= conf_block) =
  Some {| cf_in_interface := match confs with [] => cf_in_interface st | _ => false end; cf_private_key := cf_private_key st;
          cf_listen_port := cf_listen_port st; cf_peers := (reverse confs ++ cf_peers st)%list |}.
Proof.
  intros Hc. revert st. induction Hc as [|c confs (Hk & Hne & Ha & He & Hka) _ IH]; intros st; [by destruct st|].
  rewrite bind_cons.
  change (conf_block c ++ ?r)%list with ("" :: (peer_lines (pc_public_key c) (pc_allowed_ips c) (pc_endpoint c) ++ r))%list.
  rewrite conf_lines_cons. change (conf_line st "") with (Some st). cbn [base.mbind option_bind]. rewrite conf_lines_app, read_peer_lines; try done.
  - cbn [base.mbind option_bind]. rewrite IH. cbn [cf_in_interface cf_private_key cf_listen_port cf_peers].
    rewrite reverse_cons, <- app_assoc, <- Hka. destruct c, confs; done.
  - eapply Forall_impl; [exact Ha|]. by intros ? [? ?].
  - eapply Forall_impl; [exact Ha|]. by intros ? [? ?].
Qed.

Lemma one_line_app a b : one_line (a +:+ b) <-> one_line a /\ one_line b.
Proof. unfold one_line. by rewrite contains_char_app, orb_false_iff. Qed.
Lemma kv_one_line label value : clean label -> one_line value -> one_line (kv label value).
Proof. intros Hl Hv. unfold kv. rewrite !one_line_app. split_and!; [by apply clean_one_line|done|done]. Qed.
Lemma join_with_one_line l : Forall text_ok l -> one_line (join_with ", " l).
Proof.
  induction 1 as [|x l [Hx _] _ IH]; [done|]. destruct l as [|y l]; [by apply clean_one_line|].
  change (join_with ", " (x :: y :: l)) with (x +:+ (", " +:+ join_with ", " (y :: l))). rewrite !one_line_app.
  split_and!; [by apply clean_one_line|done|done].
Qed.
Lemma conf_block_lines c : conf_ok c -> Forall one_line (conf_block c).
Proof.
  intros (Hk & _ & Ha & He & _). unfold conf_block, peer_lines. repeat (apply Forall_cons; split).
  - done.
  - done.
  - by apply kv_one_line, clean_one_line.
  - by apply kv_one_line, join_with_one_line.
  - destruct (pc_endpoint c) as [e|]; cbn [app]; repeat (apply Forall_cons; split); try done;
      by apply kv_one_line; [|apply clean_one_line, He || done].
Qed.

Lemma machine_conf_ok p : ipnet_text_clean -> machine_ok p -> conf_ok (machine_conf p).
Proof.
  intros Hnet Hp. pose proof (allowed_cidrs_ok p Hnet Hp). split_and!; [apply encode_key_clean|done|done|apply Hp|done].
Qed.
Lemma extra_conf_ok p : extra_ok p -> conf_ok (extra_conf p).
Proof. intros [Hne Ha]. split_and!; [apply encode_key_clean|done..]. Qed.

Lemma read_sync_config private_key listen_port peers extra :
  ipnet_text_clean -> Forall machine_ok peers -> Forall extra_ok extra ->
  read_config (sync_config_text private_key listen_port peers extra) =
  Some {| wc_private_key := Some (encode_key private_key); wc_listen_port := Some (dec listen_port);
          wc_peers := ((extra_conf <$> extra) ++ (machine_conf <$> peers))%list |}.
Proof.
  intros Hnet Hp He. rewrite sync_config_lines. set (confs := (_ ++ _)%list).
  assert (Forall conf_ok confs) as Hc.
  { apply Forall_app. split; apply Forall_fmap; eapply Forall_impl; eauto using machine_conf_ok, extra_conf_ok. }
  unfold read_config, config_lines. rewrite split_unlines.
  2:{ apply Forall_app. split.
      - repeat constructor; (by apply kv_one_line, clean_one_line, encode_key_clean) || (by apply kv_one_line, clean_one_line, dec_clean).
      - apply Forall_bind. eapply Forall_impl; [exact Hc|]. apply conf_block_lines. }
  rewrite !conf_lines_app. rewrite conf_lines_cons. change (conf_line conf_start "[Interface]") with
    (Some {| cf_in_interface := true; cf_private_key := None; cf_listen_port := None; cf_peers := [] |}).
  cbn [base.mbind option_bind]. rewrite conf_lines_cons, conf_line_kv by done. cbn [cf_in_interface].
  change (to_ascii_lowercase "PrivateKey") with "privatekey". rewrite decide_True by done. cbn [base.mbind option_bind].
  rewrite conf_lines_cons, conf_line_kv by done. cbn [cf_in_interface].
  change (to_ascii_lowercase "ListenPort") with "listenport". rewrite decide_False, decide_True by done. cbn [base.mbind option_bind].
  change (conf_lines ?st []) with (Some st). cbn [base.mbind option_bind]. rewrite read_blocks by done. cbn [base.mbind option_bind].
  rewrite conf_lines_cons. change (conf_line ?st "") with (Some st). cbn [base.mbind option_bind].
  change (conf_lines ?st []) with (Some st). cbn [base.mbind option_bind cf_private_key cf_listen_port cf_peers].
  by rewrite app_nil_r, reverse_involutive, !clean_squash by (apply dec_clean || apply encode_key_clean).
Qed.

Lemma decode_encode_key key : is_bytes key -> length key = 32 -> decode_key (encode_key key) = Ok key.
Proof. intros Hb Hl. unfold decode_key, encode_key. rewrite std_decode_encode by done. simpl. by rewrite Hl. Qed.

(** The configuration handed to WireGuard says what was meant.  Read by the
    format [wg] documents, the file written for a list of machines and extra
    peers gives the interface's private key and port, and exactly these peers in
    order, the extra ones first, each with its key, its allowed addresses, its
    first endpoint and the keepalive; and the text of a key decodes to the key.
    No address a machine can have, and no endpoint without white space, commas
    and number signs, can end a line or start another peer. *)
Theorem sync_config_roundtrip private_key listen_port peers extra :
  ipnet_text_clean -> Forall machine_ok peers -> Forall extra_ok extra ->
  read_config (sync_config_text private_key listen_port peers extra) =
  Some {| wc_private_key := Some (encode_key private_key); wc_listen_port := Some (dec listen_port);
          wc_peers := ((extra_conf <$> extra) ++ (machine_conf <$> peers))%list |} /\
  (forall p, is_bytes (mr_public_key p) -> length (mr_public_key p) = 32 ->
     decode_key (pc_public_key (machine_conf p)) = Ok (mr_public_key p)).
Proof. intros Hnet Hp He. split; [by apply read_sync_config|]. intros p. apply decode_encode_key. Qed.
End roundtrip.

(** ** What the interface has *)

Record Device := { dev_peers : gmap string PeerConf; dev_routes : gset string }.

Definition exec_ok (outcome : ExecOutcome) : bool := is_ok (exec_capture_result "" outcome).
Lemma exec_ok_result operation outcome : is_ok (exec_capture_result operation outcome) = exec_ok outcome.
Proof.
  unfold exec_ok. destruct outcome as [| |output inspect|]; try done. simpl.
  assert (forall out a b, match collect_output operation out a b, collect_output "" out a b with
                          | Ok x, Ok y => x = y | Err _, Err _ => True | _, _ => False end) as H.
  { induction out as [|[[m|m|]|e] out IH]; intros a b; simpl; first [done|apply IH]. }
  specialize (H output "" ""). destruct (collect_output operation _ _ _) as [[? ?]|], (collect_output "" _ _ _) as [[? ?]|]; try done.
  simplify_eq/=. destruct inspect as [[code|]|e]; try done. simpl. by destruct (code =? 0)%Z.
Qed.

(** A table of routes as [ip route show] prints it: on each line the destination
    first. *)
Definition entry_text (e : string * string) : string := e.1 +:+ " " +:+ e.2.
Definition show_routes (entries : list (string * string)) : string := unlines (entry_text <$> entries).
Definition entry_ok (e : string * string) : Prop :=
  e.1 <> "" /\ all_chars plain e.1 = true /\ one_line e.2 /\ strip_cr_end (entry_text e) = entry_text e.

Section device.
Context {IP : Ipnet} {B64 : Base64Standard} {K : Keys} (env : WgEnv) (name : string).

Definition exec_event (cmd : list string) (files : gmap string string) (outcome : ExecOutcome) : WgEvent := WeExec name cmd files outcome.

(** Documented behaviour of [wg syncconf], of [ip route], and of the commands
    that only show something, for the interface [wg0] in the container [name]. *)
Class DeviceLaws (device : list WgEvent -> Device) : Prop := {
  dl_syncconf : forall log path files outcome content conf,
    exec_ok outcome = true -> files !! path = Some content -> read_config content = Some conf ->
    NoDup (pc_public_key <$> wc_peers conf) ->
    dev_peers (device (log ++ [exec_event ["wg"; "syncconf"; INTERFACE_NAME; path] files outcome])%list) =
    list_to_map ((fun p => (pc_public_key p, p)) <$> wc_peers conf);
  dl_replace : forall log src subnet files outcome,
    route_ok subnet -> let log' := (log ++ [exec_event (replace_route_cmd src subnet) files outcome])%list in
    dev_peers (device log') = dev_peers (device log) /\
    (exec_ok outcome = true -> dev_routes (device log') = {[ subnet ]} ∪ dev_routes (device log));
  dl_delete : forall log subnet files outcome,
    let log' := (log ++ [exec_event (delete_route_cmd subnet) files outcome])%list in
    dev_peers (device log') = dev_peers (device log) /\
    (exec_ok outcome = true -> dev_routes (device log') = dev_routes (device log) ∖ {[ subnet ]});
  dl_show : forall log rest files outcome,
    device (log ++ [exec_event ("ip" :: "route" :: "show" :: rest) files outcome])%list = device log;
  dl_script : forall log files outcome, device (log ++ [exec_event ["sh"; "-c"; SRC_IP_SCRIPT] files outcome])%list = device log;
  dl_shown : forall log output,
    exec_capture_result "docker exec" (wv_exec env ["ip"; "route"; "show"; "dev"; INTERFACE_NAME] log) = Ok output ->
    exists entries, output = show_routes entries /\ Forall entry_ok entries /\
      dev_routes (device log) = list_to_set (filter is_v4_net entries.*1)
}.
End device.

Lemma lines_unlines l : Forall (fun s => one_line s /\ strip_cr_end s = s) l -> lines (unlines l) = l.
Proof.
  intros Hl. unfold lines. rewrite split_unlines by (eapply Forall_impl; [exact Hl|]; naive_solver).
  induction Hl as [|x l [_ Hx] _ IH]; [done|]. cbn [app lines_of]. rewrite IH.
  destruct l; cbn [app]; by rewrite Hx.
Qed.

Lemma take_word_plain w rest : all_chars plain w = true -> take_word (w +:+ String " " rest) = w.
Proof.
  induction w as [|c w IH]; [done|]. cbn [all_chars]. intros [Hc Hw]%andb_true_iff.
  assert (forall s, take_word (String c s) = String c (take_word s)) as Hstep.
  { unfold plain in Hc. apply andb_true_iff in Hc as [Hw1 Hlt]. apply negb_true_iff in Hw1. apply N.ltb_lt in Hlt.
    intros s. cbn [take_word]. rewrite Hw1. destruct s as [|d s]; [done|].
    assert (ws2 c d = false) as -> by (unfold ws2; destruct (N.eqb_spec (code c) 194); [lia|done]).
    destruct s as [|e s]; [done|].
    assert (ws3 c d e = false) as ->; [|done]. unfold ws3.
    destruct (N.eqb_spec (code c) 225), (N.eqb_spec (code c) 226), (N.eqb_spec (code c) 227); try lia; done. }
  change (String c w +:+ ?t) with (String c (w +:+ t)). by rewrite Hstep, IH.
Qed.

Lemma first_word_entry e : entry_ok e -> first_word (entry_text e) = Some e.1.
Proof.
  destruct e as [w rest]. intros (Hne & Hp & _). unfold first_word, entry_text. simpl fst in *. simpl snd.
  destruct w as [|c w]; [done|]. pose proof Hp as [Hc _]%andb_true_iff.
  unfold trim_start. change (String c w +:+ ?t) with (String c (w +:+ t)). rewrite (proj1 (drop_ws_plain _ _ Hc)).
  change (String c (w +:+ (" " +:+ ?t))) with (String c w +:+ String " " t). by rewrite take_word_plain.
Qed.

Lemma route_destinations_show entries :
  Forall entry_ok entries -> route_destinations (show_routes entries) = list_to_set (filter is_v4_net entries.*1).
Proof.
  intros He. unfold route_destinations, show_routes. rewrite lines_unlines.
  - assert (omap first_word (entry_text <$> entries) = entries.*1) as ->; [|done].
    induction He as [|e entries He _ IH]; [done|]. rewrite !fmap_cons. cbn [omap list_omap].
    rewrite first_word_entry by done. by rewrite IH.
  - apply Forall_fmap. eapply Forall_impl; [exact He|]. intros e (Hne & Hp & Hl & Hcr). split; [|done].
    apply one_line_app. split; [by apply (all_chars_no plain)|by apply one_line_app].
Qed.

(** ** Programming the peers *)

Section set_peers.
Context {IP : Ipnet} {B64 : Base64Standard} {blaws : Base64StandardLaws B64} {K : Keys} (env : WgEnv) (self : DockerWireGuard).
Context (device : list WgEvent -> Device) {dlaws : DeviceLaws env (dw_container_name self) device}.

Definition exec_succeeded (e : WgEvent) : Prop := match e with WeExec _ _ _ outcome => exec_ok outcome = true | _ => True end.

(** One command: the state stays, and its event is logged with the outcome that
    decides the result. *)
Lemma wp_exec_in cmd (Q : result Error unit -> WgState -> list WgEvent -> Prop) s log :
  (forall r outcome, is_ok r = exec_ok outcome ->
     Q r s (log ++ [WeExec (dw_container_name self) cmd (fs_files (ws_fs s)) outcome])%list) ->
  wp (exec_in_container env self cmd) Q s log.
Proof.
  intros HQ. unfold exec_in_container, exec_in_container_capture. apply wp_bind. unfold wp at 1, docker_exec_capture.
  set (outcome := wv_exec env cmd log). pose proof (exec_ok_result "docker exec" outcome) as Hr.
  destruct (exec_capture_result "docker exec" outcome) as [out|e]; [apply wp_ret|]; by apply HQ.
Qed.

(** A loop of route commands whose failures are ignored. *)
Lemma route_loop (cmd : string -> list string) (step : gset string -> string -> gset string) (subnets : list string) s log :
  (forall subnet, subnet ∈ subnets -> forall log files outcome,
     let log' := (log ++ [WeExec (dw_container_name self) (cmd subnet) files outcome])%list in
     dev_peers (device log') = dev_peers (device log) /\
     (exec_ok outcome = true -> dev_routes (device log') = step (dev_routes (device log)) subnet)) ->
  wp (mfor subnets (fun subnet => ignore (exec_in_container env self (cmd subnet)) : eff WgState WgEvent Error unit))
    (fun r s' log' => r = Ok tt /\ s' = s /\ exists new, log' = (log ++ new)%list /\
       dev_peers (device log') = dev_peers (device log) /\
       (Forall exec_succeeded new -> dev_routes (device log') = foldl step (dev_routes (device log)) subnets)) s log.
Proof.
  intros Hcmd. apply (wp_for (fun done s' log' => s' = s /\ exists new, log' = (log ++ new)%list /\
    dev_peers (device log') = dev_peers (device log) /\
    (Forall exec_succeeded new -> dev_routes (device log') = foldl step (dev_routes (device log)) done))).
  - split; [done|]. exists []. by rewrite app_nil_r.
  - intros done x rest m log1 Hl (-> & new & -> & Hp & Hr). apply wp_ignore, wp_exec_in. intros r outcome _.
    destruct (Hcmd x ltac:(rewrite Hl; set_solver) (log ++ new)%list (fs_files (ws_fs s)) outcome) as [Hp' Hr']. split; [done|].
    exists (new ++ [WeExec (dw_container_name self) (cmd x) (fs_files (ws_fs s)) outcome])%list.
    rewrite app_assoc, Hp'. split_and!; [done|done|].
    intros [Hnew Hx]%Forall_app. apply Forall_cons in Hx as [Hx _]. rewrite foldl_app, (Hr' Hx), (Hr Hnew). reflexivity.
  - intros m log1 (-> & new & -> & Hp & Hr). eauto 10.
Qed.

Lemma foldl_union_set (subnets : list string) (routes : gset string) :
  foldl (fun routes subnet => {[ subnet ]} ∪ routes) routes subnets = list_to_set subnets ∪ routes.
Proof. revert routes. induction subnets as [|x l IH]; intros routes; simpl; [set_solver|]. rewrite IH. set_solver. Qed.
Lemma foldl_difference_set (subnets : list string) (routes : gset string) :
  foldl (fun routes subnet => routes ∖ {[ subnet ]}) routes subnets = routes ∖ list_to_set subnets.
Proof. revert routes. induction subnets as [|x l IH]; intros routes; simpl; [set_solver|]. rewrite IH. set_solver. Qed.

(** The routes of a run of replacements and then deletions. *)
Lemma sync_routes src (desired current : gset string) s log :
  (forall x, x ∈ desired -> route_ok x) ->
  wp (sync_subnet_routes env self src desired current)
    (fun r s' log' => r = Ok tt /\ s' = s /\ exists new, log' = (log ++ new)%list /\
       dev_peers (device log') = dev_peers (device log) /\
       (Forall exec_succeeded new -> dev_routes (device log') = desired ∪ (dev_routes (device log) ∖ current))) s log.
Proof.
  intros Hok. apply wp_bind. eapply wp_mono.
  { apply (route_loop (replace_route_cmd src) (fun routes subnet => {[ subnet ]} ∪ routes)).
    intros subnet Hin log0 files outcome. apply (dl_replace env (dw_container_name self)). apply Hok. set_solver. }
  simpl. intros r s1 log1 (-> & -> & new1 & -> & Hp1 & Hr1). eapply wp_mono.
  { apply (route_loop delete_route_cmd (fun routes subnet => routes ∖ {[ subnet ]})).
    intros subnet _ log0 files outcome. apply (dl_delete env (dw_container_name self)). }
  simpl. intros r s2 log2 (-> & -> & new2 & -> & Hp2 & Hr2). split_and!; [done|done|].
  exists (new1 ++ new2)%list. rewrite app_assoc. split_and!; [done|congruence|]. intros [H1 H2]%Forall_app.
  rewrite Hr2, Hr1, foldl_union_set, foldl_difference_set, !list_to_set_elements_L by done.
  apply set_eq. intros x. destruct (decide (x ∈ desired)), (decide (x ∈ current)); set_solver.
Qed.

Lemma write_sync_config_written paths private_key listen_port peers extra fs fs' :
  write_sync_config_with_extra_peers paths private_key listen_port peers extra fs = (Ok tt, fs') ->
  fs_files fs' !! wp_sync_config paths = Some (sync_config_text private_key listen_port peers extra).
Proof.
  unfold write_sync_config_with_extra_peers, io_bind. destruct (ensure_dir paths fs) as [[[]|e] fs1]; [|done].
  intros Hw. pose proof (write_file_ok (wp_sync_config paths) (sync_config_text private_key listen_port peers extra) fs1) as H.
  rewrite Hw in H. by apply H.
Qed.

(** The part of the answer that the routes are compared with. *)
Definition shown_routes (r : result Error string) : gset string :=
  route_destinations (match r with Ok output => output | Err _ => "" end).

(** After the configuration was taken over. *)
Lemma desired_subnets_ok peers : ipnet_text_clean -> Forall machine_ok peers -> forall x, x ∈ desired_subnets peers -> route_ok x.
Proof.
  intros Hnet Hp x. unfold desired_subnets. rewrite elem_of_list_to_set, list_elem_of_omap. intros (p & Hin & Hs).
  rewrite Forall_forall in Hp. destruct (Hp p Hin) as (_ & _ & Hwf & _).
  destruct (mr_subnet p) as [n|]; [|done]. simpl in *. injection Hs as <-. by apply Hnet.
Qed.

Lemma routes_after_sync peers s log :
  (forall x, x ∈ desired_subnets peers -> route_ok x) ->
  wp (shown <-! mtry (exec_in_container_capture env self ["ip"; "route"; "show"; "dev"; INTERFACE_NAME]) ;;
      src_ip <-! route_src env self ;;
      sync_subnet_routes env self src_ip (desired_subnets peers) (shown_routes shown))
    (fun r s' log' => r = Ok tt /\ s' = s /\ exists new, log' = (log ++ new)%list /\
       dev_peers (device log') = dev_peers (device log) /\
       (Forall exec_succeeded new -> dev_routes (device log') = desired_subnets peers)) s log.
Proof.
  intros Hdes. apply wp_bind, wp_try. unfold wp at 1, exec_in_container_capture, docker_exec_capture.
  set (outcome := wv_exec env _ log). set (log1 := (log ++ [_])%list). cbv beta iota.
  assert (device log1 = device log) as Hd1 by apply (dl_show env (dw_container_name self)).
  apply wp_bind. unfold route_src, exec_in_container_capture. apply wp_bind, wp_try. unfold wp at 1, docker_exec_capture.
  set (outcome2 := wv_exec env _ log1). set (log2 := (log1 ++ [_])%list). cbv beta iota. apply wp_ret.
  assert (device log2 = device log1) as Hd2 by apply (dl_script env (dw_container_name self)).
  eapply wp_mono; [by apply sync_routes|]. simpl. intros r s' log' (-> & -> & new & -> & Hp & Hr). split_and!; [done|done|].
  assert (exists e1 e2, (log2 ++ new)%list = (log ++ e1 :: e2 :: new)%list /\ (exec_succeeded e1 <-> exec_ok outcome = true))
    as (e1 & e2 & Hlog & He1) by (do 2 eexists; split; [unfold log2, log1; by rewrite <- !app_assoc|done]).
  exists (e1 :: e2 :: new). split; [done|]. rewrite <- Hd1, <- Hd2. split; [exact Hp|].
  intros [Ho [_ Hnew]%Forall_cons]%Forall_cons. rewrite Hr by done. apply He1 in Ho. unfold shown_routes.
  pose proof (exec_ok_result "docker exec" outcome) as Hok. rewrite Ho in Hok.
  destruct (exec_capture_result "docker exec" outcome) as [output|e] eqn:Hout; [|done].
  destruct (dl_shown env (dw_container_name self) log output Hout) as (entries & -> & He & Hroutes).
  rewrite route_destinations_show, Hd2, Hd1, Hroutes by done. set_solver.
Qed.

End set_peers.

(** ** Reading handshakes *)

Lemma try_map_fmap {E A B C} (f : B -> result E C) (g : A -> B) l : try_map f (g <$> l) = try_map (fun x => f (g x)) l.
Proof. induction l as [|x l IH]; [done|]. csimpl. by rewrite IH. Qed.

Section handshakes.
Context {IP : Ipnet} {B64 : Base64Standard} {blaws : Base64StandardLaws B64} {K : Keys} (env : WgEnv) (self : DockerWireGuard).

(** The answer of [wg show wg0 latest-handshakes]: a key, a tab, a Unix time. *)
Definition handshake_line (e : list N * N) : string := encode_key e.1 +:+ String "009" (dec e.2).
Definition handshake_ok (e : list N * N) : Prop := is_bytes e.1 /\ length e.1 = 32 /\ (e.2 <= u64_max)%N.

Lemma no_cr_strip s : contains_char "013" s = false -> strip_cr_end s = s.
Proof.
  intros Hs. unfold strip_cr_end. destruct (strip_suffix _ s) as [r|] eqn:E; [|done].
  apply strip_suffix_Some in E as ->. rewrite contains_char_app in Hs. by destruct (contains_char _ r).
Qed.
Lemma handshake_line_no c e : conf_char c = false -> c <> "009"%char -> contains_char c (handshake_line e) = false.
Proof.
  intros Hc Ht. unfold handshake_line. rewrite contains_char_app. cbn [contains_char].
  rewrite (clean_no _ c Hc (encode_key_clean e.1)), (clean_no _ c Hc (dec_clean e.2)).
  by destruct (ascii_dec c "009").
Qed.
Lemma handshake_lines entries : lines (unlines (handshake_line <$> entries)) = handshake_line <$> entries.
Proof.
  apply lines_unlines, Forall_fmap, Forall_true. intros e. split; [by apply handshake_line_no|].
  apply no_cr_strip. by apply handshake_line_no.
Qed.

Lemma encode_key_inj a b : is_bytes a -> is_bytes b -> encode_key a = encode_key b -> a = b.
Proof.
  intros Ha Hb E. apply (f_equal std_decode) in E. unfold encode_key in E. rewrite !std_decode_encode in E by done. by simplify_eq.
Qed.
Lemma trim_encode_key key : key <> [] -> trim (encode_key key) = encode_key key.
Proof.
  intros Hk. apply trim_plain_all; [by apply std_encode_nonempty|].
  eapply all_chars_impl; [|apply std_encode_chars].
  intros c. destruct c as [[] [] [] [] [] [] [] []]; (reflexivity || (vm_compute; discriminate)).
Qed.
Lemma split_handshake e : split_once "009" (handshake_line e) = Some (encode_key e.1, dec e.2).
Proof. apply split_once_app. by apply clean_no; [|apply encode_key_clean]. Qed.

Lemma remote_line_spec (extra : list BridgePeerInfo) e :
  handshake_ok e -> Forall (fun p => is_bytes (bp_public_key p)) extra ->
  remote_handshake_line (list_to_set ((fun p => encode_key (bp_public_key p)) <$> extra)) (handshake_line e) =
  bool_decide (e.1 ∉ bp_public_key <$> extra /\ (0 < e.2)%N).
Proof.
  intros (Hb & Hl & Ht) Hx. unfold remote_handshake_line. rewrite split_handshake.
  rewrite trim_encode_key by (by destruct e.1). rewrite trim_dec, parse_u64_dec by done. cbn [default].
  rewrite bool_decide_and, bool_decide_not. f_equal; [|by apply Bool.eq_iff_eq_true; rewrite N.ltb_lt, bool_decide_eq_true].
  f_equal. apply bool_decide_ext. rewrite elem_of_list_to_set, !list_elem_of_fmap. split.
  - intros (p & E & Hp). exists p. split; [|done]. rewrite Forall_forall in Hx. apply encode_key_inj; auto.
  - intros (p & E & Hp). exists p. by rewrite E.
Qed.

Lemma parse_peer_line debug now e : handshake_ok e ->
  parse_device_peer_line debug now (handshake_line e) =
  Ok {| dv_public_key := e.1; dv_endpoint := None;
        dv_last_handshake := if (e.2 =? 0)%N then None else unix_seconds_to_instant now e.2 |}.
Proof.
  intros (Hb & Hl & Ht). unfold parse_device_peer_line. rewrite split_handshake, decode_encode_key by done. cbn [map_err rbind].
  by rewrite trim_dec, parse_u64_dec by done.
Qed.

(** Handshakes are read back as they are printed.  For any peers and times
    the interface reports, [read_peers] returns exactly these peers, in order,
    with no handshake for time zero; and [has_remote_handshake] says yes exactly
    when some peer that is neither the bridge nor a sidecar has had one. *)
Theorem handshakes_read_back debug entries s log :
  Forall handshake_ok entries -> Forall (fun p => is_bytes (bp_public_key p)) (ws_extra_peers s) ->
  exec_capture_result "docker exec" (wv_exec env ["wg"; "show"; INTERFACE_NAME; "latest-handshakes"] log) =
    Ok (unlines (handshake_line <$> entries)) ->
  (has_remote_handshake env self (s, log)).1 =
    Ok (bool_decide (Exists (fun e => e.1 ∉ bp_public_key <$> ws_extra_peers s /\ (0 < e.2)%N) entries)) /\
  exists now, (docker_read_peers env self debug (s, log)).1 =
    Ok ((fun e => {| dv_public_key := e.1; dv_endpoint := None;
                     dv_last_handshake := if (e.2 =? 0)%N then None else unix_seconds_to_instant now e.2 |}) <$> entries).
Proof.
  intros He Hx Hout. split.
  - unfold has_remote_handshake, exec_in_container_capture, docker_exec_capture, mbind, mtry. rewrite Hout. cbn [fst mret].
    unfold mget, mret. cbn [fst]. rewrite handshake_lines. f_equal. apply Bool.eq_iff_eq_true.
    rewrite existsb_exists, bool_decide_eq_true, Exists_exists. rewrite Forall_forall in He. split.
    + intros (l & (e & -> & Hin)%list_elem_of_In%list_elem_of_fmap & Hl). exists e. split; [done|].
      rewrite remote_line_spec in Hl by auto. by apply bool_decide_eq_true in Hl.
    + intros (e & Hin & Hr). exists (handshake_line e). split; [by apply list_elem_of_In, list_elem_of_fmap; eauto|].
      rewrite remote_line_spec by auto. by apply bool_decide_eq_true.
  - unfold docker_read_peers, exec_in_container_capture, docker_exec_capture, mbind. rewrite Hout. cbn [fst snd].
    eexists. rewrite handshake_lines, try_map_fmap. erewrite try_map_ok; [done|]. intros e Hin. apply parse_peer_line.
    rewrite Forall_forall in He. by apply He.
Qed.
End handshakes.

(** ** The bridge over the backend's life *)

(** The bridges that were started and not stopped. *)
Definition bridge_step (running : gset (list N)) (e : WgEvent) : gset (list N) :=
  match e with
  | WeBridgeStart key _ _ (Ok _) => {[ key ]} ∪ running
  | WeBridgeStop key => running ∖ {[ key ]}
  | _ => running
  end.
Definition bridges_running (log : list WgEvent) : gset (list N) := foldl bridge_step ∅ log.
Lemma bridges_running_snoc log e : bridges_running (log ++ [e])%list = bridge_step (bridges_running log) e.
Proof. unfold bridges_running. by rewrite foldl_app. Qed.

Definition mutexes (s : WgState) : option (list N) * option OverlayIp * list BridgePeerInfo :=
  (ws_bridge s, ws_bridge_overlay_ip s, ws_extra_peers s).
(** Computations that touch neither the bridge nor the extra peers. *)
Definition quiet {E A} (c : eff WgState WgEvent E A) : Prop :=
  forall s log, wp c (fun _ s' log' => mutexes s' = mutexes s /\ bridges_running log' = bridges_running log) s log.

Lemma wgq_bind {E A B} (c : eff WgState WgEvent E A) (k : A -> eff WgState WgEvent E B) :
  quiet c -> (forall a, quiet (k a)) -> quiet (mbind c k).
Proof.
  intros Hc Hk s log. apply wp_bind. eapply wp_mono; [apply Hc|]. intros [a|e] s1 log1 [H1 H2]; [|done].
  eapply wp_mono; [apply Hk|]. simpl. intros r s2 log2 [H3 H4]. split; congruence.
Qed.
Lemma wgq_try {E A} (c : eff WgState WgEvent E A) : quiet c -> quiet (mtry c).
Proof. intros Hc s log. apply wp_try, Hc. Qed.
Lemma wgq_ignore {E E' A} (c : eff WgState WgEvent E A) : quiet c -> quiet (ignore c : eff _ _ E' unit).
Proof. intros Hc s log. apply wp_ignore, Hc. Qed.
Lemma wgq_map_err {E F A} (f : E -> F) (c : eff WgState WgEvent E A) : quiet c -> quiet (mmap_err f c).
Proof. intros Hc s log. apply wp_map_err, Hc. Qed.
Lemma wgq_for {E A} (l : list A) (body : A -> eff WgState WgEvent E unit) : (forall x, quiet (body x)) -> quiet (mfor l body).
Proof. intros Hb. induction l as [|x l IH]; [done|]. by apply wgq_bind. Qed.
Lemma wgq_ret {E A} (a : A) : quiet (mret a : eff WgState WgEvent E A).
Proof. done. Qed.
Lemma wgq_fail {E A} (e : E) : quiet (mfail e : eff WgState WgEvent E A).
Proof. done. Qed.
Lemma wgq_get {E A} (f : WgState -> A) : quiet (mget f : eff WgState WgEvent E A).
Proof. done. Qed.
Lemma wgq_call {E A} (answer : list WgEvent -> result E A) e : (forall r, bridge_step r e = r) -> quiet (mcall answer e).
Proof. intros He s log. split; [done|]. by rewrite bridges_running_snoc. Qed.
Lemma wgq_observe {E A} (answer : list WgEvent -> A) e :
  (forall r, bridge_step r e = r) -> quiet (mobserve answer (fun _ => e) : eff WgState WgEvent E A).
Proof. intros He s log. split; [done|]. by rewrite bridges_running_snoc. Qed.
Lemma wgq_io {A} operation (c : io A) : quiet (wg_io operation c).
Proof. intros s log. unfold wp, wg_io. by destruct (c (ws_fs s)). Qed.

Create HintDb quiet.
#[export] Hint Resolve wgq_try wgq_ignore wgq_map_err wgq_for wgq_ret wgq_fail wgq_get wgq_io : quiet.

Ltac wgq_step :=
  match goal with
  | |- quiet (mbind _ _) => apply wgq_bind; [|intros ?]
  | |- quiet (mcall _ _) => apply wgq_call; done
  | |- quiet (mobserve _ _) => apply wgq_observe; done
  | |- quiet (mfor _ _) => apply wgq_for; intros ?
  | |- quiet (match ?x with _ => _ end) => destruct x
  | |- quiet _ => solve [eauto with quiet]
  | |- quiet (mtry _) => apply wgq_try
  | |- quiet (ignore _) => apply wgq_ignore
  | |- quiet (mmap_err _ _) => apply wgq_map_err
  end.

Section life.
Context {IP : Ipnet} {B64 : Base64Standard} {K : Keys} {klaws : KeysLaws K} (env : WgEnv) (self : DockerWireGuard).

Lemma wgq_exec cmd operation : quiet (docker_exec_capture env (dw_container_name self) cmd operation).
Proof. intros s log. unfold wp, docker_exec_capture. split; [done|]. by rewrite bridges_running_snoc. Qed.
Lemma wgq_exec_in cmd : quiet (exec_in_container env self cmd).
Proof. apply wgq_bind; [apply wgq_exec|]. intros. apply wgq_ret. Qed.
Lemma wgq_docker_op operation answer e : (forall r, bridge_step r e = r) -> quiet (docker_op operation answer e).
Proof. intros He. unfold docker_op, docker_call. apply wgq_bind; [by apply wgq_observe|]. intros []; done. Qed.
Hint Resolve wgq_exec wgq_exec_in : quiet.

Lemma wgq_diagnostics : quiet (log_interface_diagnostics env self).
Proof. unfold log_interface_diagnostics, exec_in_container_capture. repeat wgq_step. Qed.
Lemma wgq_setup : quiet (setup_interface env self).
Proof. unfold setup_interface. repeat wgq_step. Qed.
Lemma wgq_running : quiet (container_running env self).
Proof. unfold container_running, docker_call. repeat wgq_step. Qed.
Lemma wgq_ready : quiet (interface_ready env self).
Proof. unfold interface_ready, exec_in_container_capture. repeat wgq_step. Qed.
Lemma wgq_remove name : quiet (docker_force_remove env name).
Proof. unfold docker_force_remove, docker_call. repeat wgq_step. Qed.
Lemma wgq_graceful name secs : quiet (docker_graceful_remove env name secs).
Proof. unfold docker_graceful_remove, docker_call. repeat wgq_step. Qed.
Lemma wgq_create : quiet (create_wireguard_container env self).
Proof. by apply wgq_docker_op. Qed.
Lemma wgq_set_peers peers : quiet (docker_set_peers env self peers).
Proof.
  unfold docker_set_peers, route_src, sync_subnet_routes, exec_in_container_capture. repeat wgq_step.
Qed.
Hint Resolve wgq_diagnostics wgq_setup wgq_running wgq_ready wgq_remove wgq_graceful wgq_create : quiet.

(** What the daemon asks of the backend. *)
Inductive WgOp :=
| OpUp | OpDown
| OpSetPeers (peers : list MachineRecord)
| OpAddSidecar (pubkey : list N) (overlay_ip : Ipv4Addr)
| OpRemoveSidecar (pubkey : list N)
| OpSetEndpoint (key : PublicKey) (endpoint : string)
| OpHasRemoteHandshake.
Definition run_op (op : WgOp) : eff WgState WgEvent Error unit :=
  match op with
  | OpUp => docker_up env self
  | OpDown => docker_down env self
  | OpSetPeers peers => docker_set_peers env self peers
  | OpAddSidecar pubkey overlay_ip => add_sidecar_peer env self pubkey overlay_ip
  | OpRemoveSidecar pubkey => remove_sidecar_peer env self pubkey
  | OpSetEndpoint key endpoint => docker_set_peer_endpoint env self key endpoint
  | OpHasRemoteHandshake => _ <-! has_remote_handshake env self ;; mret tt
  end.
(** One after another, going on after a failure. *)
Definition run_ops (ops : list WgOp) (st : WgState * list WgEvent) : WgState * list WgEvent :=
  foldl (fun st op => (run_op op st).2) st ops.

(** The bridge that runs is the one recorded, with its address, and it is
    among the extra peers unless it was removed as if it were a sidecar. *)
Definition bridge_entry (key : list N) : BridgePeerInfo :=
  {| bp_public_key := key; bp_allowed_ips := [ipv6_to_string (management_ip_from_key key) +:+ "/128"] |}.
Definition wg_wf (removed : list (list N)) (s : WgState) (log : list WgEvent) : Prop :=
  match ws_bridge s with
  | Some key => bridges_running log = {[ key ]} /\ ws_bridge_overlay_ip s = Some (management_ip_from_key key) /\
                (key ∈ removed \/ bridge_entry key ∈ ws_extra_peers s)
  | None => bridges_running log = ∅ /\ ws_bridge_overlay_ip s = None
  end /\ Forall extra_ok (ws_extra_peers s).

Lemma wg_wf_quiet removed s log s' log' :
  wg_wf removed s log -> mutexes s' = mutexes s -> bridges_running log' = bridges_running log -> wg_wf removed s' log'.
Proof. unfold wg_wf, mutexes. intros Hwf [= -> -> ->] ->. done. Qed.
Lemma wp_quiet {A} (c : eff WgState WgEvent Error A) removed s log :
  quiet c -> wg_wf removed s log -> wp c (fun _ => wg_wf removed) s log.
Proof. intros Hc Hwf. eapply wp_mono; [apply Hc|]. intros r s' log' [H1 H2]. by eapply wg_wf_quiet. Qed.
Lemma wp_quiet_bind {A B} (c : eff WgState WgEvent Error A) (k : A -> eff WgState WgEvent Error B) removed s log :
  quiet c -> wg_wf removed s log -> (forall a s log, wg_wf removed s log -> wp (k a) (fun _ => wg_wf removed) s log) ->
  wp (mbind c k) (fun _ => wg_wf removed) s log.
Proof.
  intros Hc Hwf Hk. apply wp_bind. eapply wp_mono; [by eapply wp_quiet|]. intros [a|e] s1 log1 H1; auto.
Qed.

Lemma management_ip_wf key : is_bytes key -> length key = 32 -> octets_wf (management_ip_from_key key).
Proof.
  intros Hb Hl. unfold management_ip_from_key, octets_wf. split; [cbn [length]; rewrite length_take; lia|].
  apply Forall_cons. split; [done|]. by apply Forall_take.
Qed.
Lemma bridge_entry_ok key : is_bytes key -> length key = 32 -> extra_ok (bridge_entry key).
Proof. intros Hb Hl. split; [done|]. apply Forall_singleton. by apply cidr_ok, ipv6_clean, management_ip_wf. Qed.

Lemma start_bridge_wf removed s log :
  wg_wf removed s log -> wp (start_bridge env self) (fun _ => wg_wf removed) s log.
Proof.
  intros Hwf. unfold start_bridge. destruct (dw_outbound_forwards self) as [|f fs]; [done|].
  apply wp_bind, wp_get. destruct (ws_bridge s) as [b|] eqn:Hb; [done|].
  unfold generate_keypair. apply wp_bind, wp_bind, wp_observe. intros secret. apply wp_ret. cbv iota beta.
  set (key := x25519_public secret). destruct (x25519_bytes secret) as [Hkb Hkl]. fold key in Hkb, Hkl.
  apply wp_bind. eapply wp_mono; [apply wgq_exec_in|]. rewrite bridges_running_snoc. simpl.
  intros r1 s1 log1 [Hm Hl]. assert (wg_wf removed s1 log1) as Hwf1 by by eapply wg_wf_quiet.
  destruct r1 as [[]|e1]; [|done]. unfold mutexes in Hm. injection Hm as Hb1 Hi1 He1. rewrite Hb in Hb1.
  apply wp_bind, wp_map_err, wp_ask. intros [[]|e]; cbn [map_err].
  - apply wp_bind, wp_put, wp_put. unfold wg_wf in *. rewrite Hb1 in Hwf1. destruct Hwf1 as [[Hr _] He]. cbn.
    rewrite bridges_running_snoc, Hr. split; [split_and!|apply Forall_app; split; [done|]].
    + simpl. set_solver.
    + done.
    + right. apply elem_of_app. right. by apply list_elem_of_singleton.
    + apply Forall_singleton. by apply bridge_entry_ok.
  - eapply wg_wf_quiet; [exact Hwf1|done|]. by rewrite bridges_running_snoc.
Qed.

Lemma up_wf removed s log : wg_wf removed s log -> wp (docker_up env self) (fun _ => wg_wf removed) s log.
Proof.
  intros Hwf. unfold docker_up. apply wp_quiet_bind; [apply wgq_io|done|]. intros _ s1 log1 H1.
  apply wp_quiet_bind; [apply wgq_running|done|]. intros running s2 log2 H2.
  apply wp_quiet_bind; [destruct running; eauto with quiet|done|]. intros [] s3 log3 H3.
  - apply wp_quiet_bind; [apply wgq_diagnostics|done|]. intros _ s4 log4 H4.
    apply wp_bind. eapply wp_mono; [by apply start_bridge_wf|]. intros [[]|e] s5 log5 H5; [|done].
    apply wp_quiet; [apply wgq_diagnostics|done].
  - apply wp_quiet_bind; [by apply wgq_call|done|]. intros _ s4 log4 H4.
    apply wp_quiet_bind; [apply wgq_remove|done|]. intros _ s5 log5 H5.
    apply wp_quiet_bind; [apply wgq_create|done|]. intros _ s6 log6 H6.
    apply wp_quiet_bind; [by apply wgq_docker_op|done|]. intros _ s7 log7 H7.
    apply wp_quiet_bind; [apply wgq_setup|done|]. intros _ s8 log8 H8.
    apply wp_quiet_bind; [apply wgq_diagnostics|done|]. intros _ s9 log9 H9.
    apply wp_bind. eapply wp_mono; [by apply start_bridge_wf|]. intros [[]|e] s10 log10 H10; [|done].
    apply wp_quiet; [apply wgq_diagnostics|done].
Qed.

Lemma down_wf removed s log : wg_wf removed s log -> wp (docker_down env self) (fun _ => wg_wf removed) s log.
Proof.
  intros [Hb He]. unfold docker_down. apply wp_bind, wp_get, wp_bind.
  assert (forall log', bridges_running log' = ∅ ->
    wp (_ <-! mput (with_bridge None None) ;; _ <-! mput (with_extra (fun _ => [])) ;;
        docker_graceful_remove env (dw_container_name self) 10) (fun _ => wg_wf removed) s log') as Hrest.
  { intros log' Hl. apply wp_bind, wp_put, wp_bind, wp_put. apply wp_quiet; [apply wgq_graceful|]. by split; [split|]. }
  destruct (ws_bridge s) as [key|]; [|apply wp_ret; apply Hrest; apply Hb].
  apply wp_call. apply Hrest. rewrite bridges_running_snoc. simpl. destruct Hb as (-> & _). set_solver.
Qed.

Lemma wg_wf_removed removed key s log : wg_wf removed s log -> wg_wf (key :: removed) s log.
Proof. intros [Hb He]. split; [|done]. destruct (ws_bridge s); [|done]. set_solver. Qed.

Definition op_removes (op : WgOp) : list (list N) := match op with OpRemoveSidecar key => [key] | _ => [] end.
Lemma run_op_wf removed op s log :
  wg_wf removed s log -> wp (run_op op) (fun _ => wg_wf (op_removes op ++ removed)%list) s log.
Proof.
  intros Hwf. destruct op as [| |peers|key ip|key|key endpoint|]; simpl.
  - by apply up_wf.
  - by apply down_wf.
  - apply wp_quiet; [apply wgq_set_peers|done].
  - apply wp_quiet_bind; [apply wgq_exec_in|done|]. intros _ s1 log1 [Hb He]. apply wp_put. split.
    + cbn. destruct (ws_bridge s1); [|done]. set_solver.
    + apply Forall_app. split; [done|]. apply Forall_singleton. split; [done|]. apply Forall_singleton.
      split; [apply clean_app; split; [apply ipv4_clean|done]|]. by destruct (ipv4_to_string ip).
  - apply wp_quiet_bind; [apply wgq_exec_in|by apply wg_wf_removed|]. intros _ s1 log1 [Hb He]. apply wp_put. split.
    + cbn. destruct (ws_bridge s1) as [k|]; [|done]. destruct Hb as (? & ? & Hin). split_and!; [done|done|].
      destruct (decide (k = key)) as [->|Hne]; [left; set_solver|]. destruct Hin as [|Hin]; [by left|right].
      by apply list_elem_of_filter.
    + apply Forall_forall. intros p Hp. apply list_elem_of_filter in Hp as [_ Hp]. rewrite Forall_forall in He. by apply He.
  - apply wp_quiet; [apply wgq_exec_in|done].
  - apply wp_quiet; [|done]. unfold has_remote_handshake, exec_in_container_capture. repeat wgq_step.
    all: try apply wgq_exec.
Qed.

(** C25: The backend never loses or doubles its bridge.  After any sequence of
    operations, whichever of their calls fail, at most one bridge runs: the one
    the backend has recorded, whose address it reports, and whose peer entry is
    among the extra peers, so that programming the machines does not remove it
    (unless its key was itself removed as a sidecar's); and every extra peer has
    addresses the configuration format can carry. *)
Theorem bridge_owned ops s log :
  wg_wf [] s log ->
  let '(s', log') := run_ops ops (s, log) in wg_wf (reverse ops ≫= op_removes) s' log'.
Proof.
  intros Hwf. induction ops as [|op ops IH] using rev_ind; [done|].
  unfold run_ops in *. rewrite foldl_app. simpl. destruct (foldl _ (s, log) ops) as [s1 log1].
  pose proof (run_op_wf _ op s1 log1 IH) as H. unfold wp in H. rewrite reverse_app. cbn [reverse].
  destruct (run_op op (s1, log1)) as [r [s2 log2]]. exact H.
Qed.
End life.

(** ** The host backend programs the same peers *)

Lemma try_map_Forall2 {E A B} (f : A -> result E B) l ys :
  try_map f l = Ok ys -> Forall2 (fun x y => f x = Ok y) l ys.
Proof.
  revert ys. induction l as [|x l IH]; intros ys; simpl; [by intros [= <-]|].
  rewrite rbind_Ok. intros (y & Hy & Hrest). apply rbind_Ok in Hrest as (zs & Hzs & [= <-]). auto.
Qed.

Section host_peers.
Context {IP : Ipnet} {B64 : Base64Standard} {K : Keys} (env : WgEnv).
Context (mask_error : string -> option string) (first_host : Ipv4Net -> option Ipv4Addr) (self : HostWireGuard).

(** The peers of the host's interface: a key's allowed addresses and endpoint.
    Configuring a peer replaces its addresses, and its endpoint when it has one. *)
Abbreviation HostDevice := (gmap (list N) (list string * option (SocketAddr * N))) (only parsing).
Class HostLaws (device : list WgEvent -> HostDevice) : Prop := {
  hl_read : forall log peers, wv_interface env log = Ok peers -> dom (device log) = list_to_set (hp_public_key <$> peers);
  hl_read_event : forall log, device (log ++ [WeReadInterface])%list = device log;
  hl_configure : forall log p, device (log ++ [WeConfigurePeer p (Ok tt)])%list =
    <[hp_public_key p := (hp_allowed_ips p, match hp_endpoint p with
                                            | Some e => Some e
                                            | None => device log !! hp_public_key p ≫= snd
                                            end)]> (device log);
  hl_remove : forall log key, device (log ++ [WeRemovePeer key (Ok tt)])%list = delete key (device log);
  hl_ip : forall log args r, device (log ++ [WeIp args r])%list = device log
}.

Context (device : list WgEvent -> HostDevice) {hlaws : HostLaws device}.

Lemma machine_to_peer_fields p hp :
  machine_to_peer mask_error p = Ok hp ->
  hp_public_key hp = mr_public_key p /\ hp_allowed_ips hp = allowed_cidrs p /\
  hp_endpoint hp = (head (mr_endpoints p) ≫= parse_socket_addr).
Proof.
  unfold machine_to_peer. rewrite rbind_Ok. intros (allowed & Hm & [= <-]). cbn.
  assert (allowed = allowed_cidrs p) as ->; [|split_and!; [done|done|by destruct (mr_endpoints p)]].
  revert allowed Hm. induction (allowed_cidrs p) as [|c l IH]; intros allowed; simpl; [by intros [= <-]|].
  destruct (mask_error c); [done|]. simpl. rewrite rbind_Ok. intros (ys & Hys & [= <-]). f_equal. by apply IH.
Qed.

Lemma remove_loop keys s log :
  wp (mfor keys (wg_remove_peer env))
    (fun r _ log' => r = Ok tt -> device log' = foldl (fun d k => delete k d) (device log) keys) s log.
Proof.
  apply (wp_for (fun done _ log' => device log' = foldl (fun d k => delete k d) (device log) done)); [done| |done].
  intros done k rest m log1 _ Hd. unfold wg_remove_peer. apply wp_map_err, wp_ask. intros [[]|e]; cbn [map_err]; [|done].
  by rewrite (hl_remove log1 k), Hd, foldl_app.
Qed.

Definition configured (d : HostDevice) (p : HostPeer) : Prop :=
  exists ep, d !! hp_public_key p = Some (hp_allowed_ips p, ep) /\ (forall e, hp_endpoint p = Some e -> ep = Some e).
Lemma configure_loop peers s log :
  NoDup (hp_public_key <$> peers) ->
  wp (mfor peers (wg_configure_peer env))
    (fun r _ log' => r = Ok tt ->
       dom (device log') = dom (device log) ∪ list_to_set (hp_public_key <$> peers) /\ Forall (configured (device log')) peers) s log.
Proof.
  intros Hnd. apply (wp_for (fun done _ log' =>
    dom (device log') = dom (device log) ∪ list_to_set (hp_public_key <$> done) /\ Forall (configured (device log')) done)).
  - split; [set_solver|done].
  - intros done p rest m log1 -> [Hdom Hc]. unfold wg_configure_peer. apply wp_map_err, wp_ask.
    intros [[]|e]; cbn [map_err]; [|done]. rewrite (hl_configure log1 p). split.
    + rewrite dom_insert_L, Hdom, fmap_app, list_to_set_app_L. set_solver.
    + rewrite fmap_app, NoDup_app in Hnd. destruct Hnd as (_ & Hnd & _). apply Forall_app. split.
      * apply Forall_forall. intros q Hq. rewrite Forall_forall in Hc. destruct (Hc q Hq) as (ep & Hl & He).
        exists ep. split; [|done]. rewrite lookup_insert_ne; [done|]. intros E.
        apply (Hnd (hp_public_key q)); [by apply list_elem_of_fmap; eauto|]. rewrite <- E, fmap_cons. left.
      * apply Forall_singleton. eexists. rewrite lookup_insert_eq. split; [done|]. intros e ->. done.
  - done.
Qed.

Lemma removed_rest (current desired : gset (list N)) : current ∖ (current ∖ desired) ∪ desired = desired.
Proof. apply set_eq. intros k. destruct (decide (k ∈ desired)); set_solver. Qed.
Lemma delete_all_dom (keys : list (list N)) (d : HostDevice) :
  dom (foldl (fun d k => delete k d) d keys) = dom d ∖ list_to_set keys.
Proof. revert d. induction keys as [|k keys IH]; intros d; simpl; [set_solver|]. rewrite IH, dom_delete_L. set_solver. Qed.

Lemma ip_loop {A} (l : list A) (args : A -> list string) s log :
  wp (mfor l (fun x => ignore (ip_output env (args x)) : eff WgState WgEvent Error unit))
    (fun r _ log' => r = Ok tt /\ device log' = device log) s log.
Proof.
  apply (wp_for (fun _ _ log' => device log' = device log)); [done| |done].
  intros done x rest m log1 _ Hd. apply wp_ignore, wp_ask. intros r. by rewrite (hl_ip log1).
Qed.

(** The host backend programs exactly the peers it is given, as the container
    backend does.  Whenever [set_peers] returns success, the interface's peers
    are the machines, no more and no less, each with the same allowed addresses
    the configuration file would have, and with its first endpoint wherever that
    is an address and a port. *)
Theorem host_set_peers_exact peers s log :
  NoDup (mr_public_key <$> peers) ->
  let '(r, (_, log')) := host_set_peers env mask_error first_host self peers (s, log) in
  r = Ok tt ->
  dom (device log') = list_to_set (mr_public_key <$> peers) /\
  forall p, p ∈ peers -> exists ep, device log' !! mr_public_key p = Some (allowed_cidrs p, ep) /\
    forall e, (head (mr_endpoints p) ≫= parse_socket_addr) = Some e -> ep = Some e.
Proof.
  intros Hnd.
  assert (wp (host_set_peers env mask_error first_host self peers) (fun r _ log' => r = Ok tt ->
    dom (device log') = list_to_set (mr_public_key <$> peers) /\
    forall p, p ∈ peers -> exists ep, device log' !! mr_public_key p = Some (allowed_cidrs p, ep) /\
      forall e, (head (mr_endpoints p) ≫= parse_socket_addr) = Some e -> ep = Some e) s log) as H;
    [|unfold wp in H; by destruct (host_set_peers _ _ _ _ _ _) as [r [s' log']]].
  unfold host_set_peers. apply wp_bind, wp_lift. destruct (try_map _ peers) as [desired|e] eqn:Hdes; [|done].
  apply try_map_Forall2 in Hdes.
  assert (hp_public_key <$> desired = mr_public_key <$> peers) as Hkeys.
  { induction Hdes as [|p hp peers desired Hp _ IH]; [done|]. rewrite !fmap_cons. f_equal; [by apply machine_to_peer_fields|].
    apply IH. by inversion Hnd. }
  apply wp_bind. unfold wg_read_peers. apply wp_map_err, wp_call.
  destruct (wv_interface env log) as [current|e] eqn:Hcur; cbn [map_err]; [|done].
  apply hl_read in Hcur. apply wp_bind. eapply wp_mono; [apply remove_loop|]. intros [[]|e] s1 log1 Hrem; [|done].
  specialize (Hrem eq_refl). apply wp_bind. eapply wp_mono; [apply configure_loop; by rewrite Hkeys|].
  intros [[]|e] s2 log2 Hconf; [|done]. destruct (Hconf eq_refl) as [Hdom Hall].
  apply wp_bind, wp_map_err, wp_ask. intros [output|e]; cbn [map_err]; [|done].
  apply wp_bind. eapply wp_mono; [apply ip_loop|]. simpl. intros r3 s3 log3 [-> Hd3].
  eapply wp_mono; [apply ip_loop|]. simpl. intros r4 s4 log4 [-> Hd4] _. rewrite Hd4, Hd3, (hl_ip log2). split.
  - rewrite Hdom, Hrem, delete_all_dom, hl_read_event, Hcur, Hkeys, list_to_set_elements_L. apply removed_rest.
  - intros p Hp. apply list_elem_of_lookup in Hp as [i Hi].
    destruct (Forall2_lookup_l _ _ _ _ _ Hdes Hi) as (hp & Hhp%list_elem_of_lookup_2 & Hpeer).
    rewrite Forall_forall in Hall. destruct (Hall hp Hhp) as (ep & Hl & He).
    apply machine_to_peer_fields in Hpeer as (Hk & Ha & Hep). exists ep. rewrite <- Hk, <- Ha. split; [done|].
    intros e Hparse. apply He. by rewrite Hep.
Qed.
End host_peers.

(** ** Instances *)

(** RFC 4648, section 4. *)
Definition std_b64_char (v : N) : ascii :=
  let v := (v mod 64)%N in
  if (v =? 62)%N then "+"%char else if (v =? 63)%N then "/"%char else b64_char v.
Definition std_b64_value (c : ascii) : option N :=
  if ascii_dec c "+" then Some 62%N else if ascii_dec c "/" then Some 63%N
  else if ascii_dec c "-" then None else if ascii_dec c "_" then None else b64_value c.
Definition ref_base64_standard : Base64Standard := {|
  std_encode l := of_bytes ((std_b64_char <$> sextets l) ++ replicate ((3 - length l mod 3) mod 3) "="%char)%list;
  std_decode s := ok_or (mapM std_b64_value (filter (fun c => c <> "="%char) (bytes_of s)) ≫= octets) "invalid base64" |}.

Lemma std_b64_check :
  forallb (fun v => bool_decide (std_b64_value (std_b64_char v) = Some v) && negb (bool_decide (std_b64_char v = "="%char)) &&
                    std_char (std_b64_char v)) (N.of_nat <$> seq 0 64) = true.
Proof. vm_compute. reflexivity. Qed.
Lemma std_b64_value_char v :
  (v < 64)%N -> std_b64_value (std_b64_char v) = Some v /\ std_b64_char v <> "="%char /\ std_char (std_b64_char v) = true.
Proof.
  intros Hv. pose proof std_b64_check as H. rewrite forallb_forall in H. specialize (H v).
  rewrite !andb_true_iff, negb_true_iff, bool_decide_eq_true, bool_decide_eq_false in H.
  assert (In v (N.of_nat <$> seq 0 64)) as Hin; [|specialize (H Hin); tauto].
  apply list_elem_of_In, list_elem_of_fmap. exists (N.to_nat v). split; [lia|]. apply elem_of_seq. lia.
Qed.
Lemma std_b64_char_ok v : std_char (std_b64_char v) = true.
Proof.
  assert (std_b64_char v = std_b64_char (v mod 64)) as -> by (unfold std_b64_char; by rewrite N.Div0.mod_mod).
  apply std_b64_value_char. by apply N.mod_lt.
Qed.
Lemma all_chars_of_bytes f l : all_chars f (of_bytes l) = forallb f l.
Proof. induction l as [|c l IH]; [done|]. change (of_bytes (c :: l)) with (String c (of_bytes l)). cbn. by rewrite IH. Qed.

#[export] Instance ref_base64_standard_laws : Base64StandardLaws ref_base64_standard.
Proof.
  split; simpl.
  - intros l Hl. pose proof (sextets_bound l Hl) as Hs. rewrite bytes_of_bytes, filter_app.
    assert (filter (fun c => c <> "="%char) (std_b64_char <$> sextets l) = std_b64_char <$> sextets l) as ->.
    { induction Hs as [|v vs Hv _ IH]; [done|]. rewrite fmap_cons, filter_cons_True, IH by by apply std_b64_value_char. done. }
    assert (forall n, filter (fun c => c <> "="%char) (replicate n "="%char) = []) as ->.
    { intros n. induction n as [|n IH]; [done|]. cbn [replicate]. by rewrite filter_cons_False by naive_solver. }
    rewrite app_nil_r, mapM_fmap_Forall_Some; [simpl; by rewrite octets_sextets|].
    eapply Forall_impl; [exact Hs|]. intros v Hv. by apply std_b64_value_char.
  - intros l. rewrite all_chars_of_bytes, forallb_app. apply andb_true_iff. split; apply forallb_forall.
    + intros c Hc%list_elem_of_In. apply list_elem_of_fmap in Hc as (v & -> & _). apply std_b64_char_ok.
    + intros c Hc%list_elem_of_In. apply elem_of_replicate in Hc as [-> _]. done.
  - intros l Hl. destruct l as [|a [|b [|c l]]]; done.
Qed.

(** Networks are printed in plain characters. *)
Definition net_char (c : ascii) : bool := is_ascii_digit c || contains_char c "./".
Lemma net_char_check : forall c, net_char c = true -> conf_char c = true /\ plain c = true.
Proof. intros c. destruct c as [[] [] [] [] [] [] [] []]; (by split) || (vm_compute; discriminate). Qed.
Lemma dec_net_chars n : all_chars net_char (dec n) = true.
Proof. eapply all_chars_impl; [|apply dec_digits]. intros c Hc. unfold net_char. by rewrite Hc. Qed.
Lemma ref_ipnet_text_clean : @ipnet_text_clean ref_ipnet.
Proof.
  intros n _. change (ipnet_to_string n) with (dotted (net_addr n) +:+ ("/" +:+ dec (net_prefix_len n))).
  set (text := _ +:+ _). assert (all_chars net_char text = true) as Hc.
  { unfold text, dotted. repeat (rewrite all_chars_app; cbn [all_chars String.append]). rewrite !dec_net_chars. done. }
  assert (text <> "") as Hne by (unfold text; by destruct (dotted (net_addr n))).
  split; [split; [|done]|split_and!; [done| |]].
  - eapply all_chars_impl; [|exact Hc]. apply net_char_check.
  - eapply all_chars_impl; [|exact Hc]. apply net_char_check.
  - unfold is_v4_net. apply andb_true_iff. split.
    + unfold text. rewrite contains_char_app. simpl. by rewrite orb_true_r.
    + apply negb_true_iff. by apply (all_chars_no net_char).
Qed.

(** An interface that follows the commands of the container's log. *)
Section ref_device.
Context (name : string).
#[local] Instance route_ok_dec s : Decision (route_ok s).
Proof. unfold route_ok, is_v4_net. apply _. Defined.

Definition ref_run (d : Device) (cmd : list string) (files : gmap string string) : Device :=
  match cmd with
  | a :: b :: c :: x :: _ =>
      if String.eqb a "wg" && String.eqb b "syncconf" then
        match files !! x ≫= read_config with
        | Some conf => {| dev_peers := list_to_map ((fun p => (pc_public_key p, p)) <$> wc_peers conf); dev_routes := dev_routes d |}
        | None => d
        end
      else if String.eqb a "ip" && String.eqb b "route" && String.eqb c "replace" then
        if decide (route_ok x) then {| dev_peers := dev_peers d; dev_routes := {[ x ]} ∪ dev_routes d |} else d
      else if String.eqb a "ip" && String.eqb b "route" && String.eqb c "del" then
        {| dev_peers := dev_peers d; dev_routes := dev_routes d ∖ {[ x ]} |}
      else d
  | _ => d
  end.
Definition ref_event (d : Device) (e : WgEvent) : Device :=
  match e with
  | WeExec c cmd files outcome => if String.eqb c name && exec_ok outcome then ref_run d cmd files else d
  | _ => d
  end.
Definition ref_device (log : list WgEvent) : Device := foldl ref_event {| dev_peers := ∅; dev_routes := ∅ |} log.
Lemma ref_device_exec log cmd files outcome :
  ref_device (log ++ [exec_event name cmd files outcome])%list =
  if exec_ok outcome then ref_run (ref_device log) cmd files else ref_device log.
Proof. unfold ref_device. rewrite foldl_app. simpl. by rewrite String.eqb_refl. Qed.

Lemma ref_routes_ok log : forall x, x ∈ dev_routes (ref_device log) -> route_ok x.
Proof.
  unfold ref_device. induction log as [|e log IH] using rev_ind; [set_solver|]. rewrite foldl_app. simpl.
  set (d := foldl _ _ log) in *. clearbody d. destruct e; try done. simpl. case_match; [|done]. unfold ref_run.
  repeat (case_match; try done); simpl; set_solver.
Qed.

(** Every command succeeds, and the routes shown are the interface's. *)
Definition succeed (output : string) : ExecOutcome := Attached [Ok (StdOut output)] (Ok (Some 0%Z)).
Definition route_listing (log : list WgEvent) : string :=
  show_routes ((fun r => (r, "scope link")) <$> elements (dev_routes (ref_device log))).
Definition ref_wg_env (handshakes : string) : WgEnv := {|
  wv_connect _ := Ok tt; wv_ping _ := Ok tt;
  wv_inspect _ := Err {| de_status := Some 404%N; de_message := "no such container" |};
  wv_create _ := Ok tt; wv_start _ := Ok tt; wv_stop _ := Ok tt; wv_remove _ := Ok tt;
  wv_exec cmd log := if decide (cmd = ["ip"; "route"; "show"; "dev"; INTERFACE_NAME]) then succeed (route_listing log)
                     else if decide (cmd = ["wg"; "show"; INTERFACE_NAME; "latest-handshakes"]) then succeed handshakes
                     else succeed "";
  wv_random _ := [7%N]; wv_bridge_start _ := Ok tt; wv_api _ := Ok tt; wv_interface _ := Ok [];
  wv_ip _ _ := Ok {| po_success := true; po_stdout := ""; po_stderr := "" |}; wv_now _ := (from_secs 1000, from_secs 500) |}.

Lemma route_entry_ok r : route_ok r -> entry_ok (r, "scope link").
Proof.
  intros (Hne & Hp & _). split_and!; [done|done|done|]. apply no_cr_strip. unfold entry_text. rewrite contains_char_app.
  simpl fst. by rewrite (all_chars_no plain).
Qed.

#[export] Instance ref_device_laws handshakes : DeviceLaws (ref_wg_env handshakes) name ref_device.
Proof.
  split.
  - intros log path files outcome content conf Ho Hf Hr _. rewrite ref_device_exec, Ho.
    assert (files !! path ≫= read_config = Some conf) as Hc by (rewrite Hf; exact Hr).
    unfold ref_run. cbn [String.eqb Ascii.eqb Bool.eqb andb]. by rewrite Hc.
  - intros log src subnet files outcome Hok. cbv zeta. rewrite ref_device_exec. destruct (exec_ok outcome); [|done].
    split; [by unfold ref_run, replace_route_cmd; simpl; case_decide|]. intros _. unfold ref_run, replace_route_cmd. simpl.
    by rewrite decide_True.
  - intros log subnet files outcome. cbv zeta. rewrite ref_device_exec. by destruct (exec_ok outcome).
  - intros log rest files outcome. rewrite ref_device_exec. destruct (exec_ok outcome); [|done]. unfold ref_run. by destruct rest.
  - intros log files outcome. rewrite ref_device_exec. by destruct (exec_ok outcome).
  - intros log output. cbn [ref_wg_env wv_exec]. rewrite decide_True by done. intros [= <-]. eexists. split; [reflexivity|].
    pose proof (ref_routes_ok log) as Hok. split.
    + apply Forall_fmap, Forall_forall. intros r Hr%elem_of_elements. by apply route_entry_ok, Hok.
    + rewrite <- list_fmap_compose. apply set_eq. intros x. rewrite elem_of_list_to_set, list_elem_of_filter, list_elem_of_fmap. simpl.
      split; [|intros (_ & y & -> & Hy); by apply elem_of_elements]. intros Hx. split; [by apply Hok|].
      exists x. split; [done|]. by apply elem_of_elements.
Qed.
End ref_device.

(** An interface of the host that follows the API's calls. *)
Abbreviation HostMap := (gmap (list N) (list string * option (SocketAddr * N))) (only parsing).
Definition ref_host_event (d : HostMap) (e : WgEvent) : HostMap :=
  match e with
  | WeConfigurePeer p (Ok _) =>
      <[hp_public_key p := (hp_allowed_ips p, match hp_endpoint p with Some e => Some e | None => d !! hp_public_key p ≫= snd end)]> d
  | WeRemovePeer key (Ok _) => delete key d
  | _ => d
  end.
Definition ref_host (log : list WgEvent) : HostMap := foldl ref_host_event ∅ log.
Definition shown_peer (key : list N) : HostPeer :=
  {| hp_public_key := key; hp_allowed_ips := []; hp_endpoint := None; hp_persistent_keepalive_interval := None; hp_last_handshake := None |}.
Definition ref_host_env : WgEnv :=
  let env := ref_wg_env "" "" in {|
  wv_connect := wv_connect env; wv_ping := wv_ping env; wv_inspect := wv_inspect env; wv_create := wv_create env;
  wv_start := wv_start env; wv_stop := wv_stop env; wv_remove := wv_remove env; wv_exec := wv_exec env; wv_random := wv_random env;
  wv_bridge_start := wv_bridge_start env; wv_api := wv_api env;
  wv_interface log := Ok (shown_peer <$> elements (dom (ref_host log))); wv_ip := wv_ip env; wv_now := wv_now env |}.
#[export] Instance ref_host_laws : HostLaws ref_host_env ref_host.
Proof.
  split.
  - intros log peers [= <-]. rewrite <- list_fmap_compose. change (hp_public_key ∘ shown_peer) with (fun k : list N => k).
    by rewrite list_fmap_id, list_to_set_elements_L.
  - intros log. unfold ref_host. by rewrite foldl_app.
  - intros log p. unfold ref_host. by rewrite foldl_app.
  - intros log key. unfold ref_host. by rewrite foldl_app.
  - intros log args r. unfold ref_host. by rewrite foldl_app.
Qed.

(** ** Witnesses *)

Definition wg_member (k : N) : MachineRecord :=
  machine_seed (dec k) (replicate 32 k) (management_ip_from_key (replicate 32 k))
    (Some {| net_addr := 181534720 + k * 256; net_prefix_len := 24 |}) [dec k +:+ ".example:51820"].
Definition wg_sidecar : BridgePeerInfo := {| bp_public_key := replicate 32 9%N; bp_allowed_ips := ["10.210.3.7/32"] |}.
Definition wg_self : DockerWireGuard := {|
  dw_container_name := "ployz-networking"; dw_image := DEFAULT_IMAGE; dw_paths := WgPaths_new "/d"; dw_private_key := replicate 32 5%N;
  dw_public_key_bytes := replicate 32 6%N; dw_overlay_ip := management_ip_from_key (replicate 32 6%N);
  dw_listen_port := DEFAULT_LISTEN_PORT; dw_outbound_forwards := []; dw_exposed_tcp_ports := [] |}.
Definition wg_state (extra : list BridgePeerInfo) : WgState := {|
  ws_fs := {| fs_files := ∅; fs_dirs := {[ "/"; "/d"; "/d/wireguard" ]}; fs_faults := [] |};
  ws_bridge := None; ws_bridge_overlay_ip := None; ws_extra_peers := extra |}.

#[local] Instance octets_wf_dec a : Decision (octets_wf a).
Proof. unfold octets_wf. apply _. Defined.
#[local] Instance clean_dec s : Decision (clean s).
Proof. unfold clean. apply _. Defined.
Lemma wg_member_ok k : (k < 100)%N -> octets_wf (management_ip_from_key (replicate 32 k)) -> clean (dec k +:+ ".example:51820") ->
  machine_ok (wg_member k).
Proof. intros Hk Ho Hc. split; [exact Ho|]. split; [exact I|]. split; [|exact Hc]. split; cbn; unfold u32_max; lia. Qed.
Lemma wg_members_ok : Forall machine_ok [wg_member 1; wg_member 2].
Proof. apply Forall_cons. split; [|apply Forall_cons; split; [|done]]; apply wg_member_ok; try lia; (apply (bool_decide_eq_true _); vm_compute; reflexivity). Qed.
Lemma wg_sidecar_ok : Forall extra_ok [wg_sidecar].
Proof. apply Forall_cons. split; [|done]. split; [done|]. apply Forall_cons. by split. Qed.

Definition sample_set_peers :=
  @docker_set_peers ref_ipnet ref_base64_standard (ref_wg_env "ployz-networking" "") wg_self [wg_member 1; wg_member 2] (wg_state [wg_sidecar], []).

Lemma sync_config_roundtrip_witness :
  exists conf, @read_config (@sync_config_text ref_ipnet ref_base64_standard (replicate 32 5%N) 51820 [wg_member 1; wg_member 2] [wg_sidecar])
    = Some conf /\ (pc_endpoint <$> wc_peers conf) = [None; Some "1.example:51820"; Some "2.example:51820"].
Proof.
  eexists. split; [refine (proj1 (@sync_config_roundtrip ref_ipnet ref_base64_standard ref_base64_standard_laws (replicate 32 5%N) 51820
    [wg_member 1; wg_member 2] [wg_sidecar] ref_ipnet_text_clean wg_members_ok wg_sidecar_ok))|].
  vm_compute. reflexivity.
Defined.

Definition sample_handshakes : list (list N * N) := [(replicate 32 9%N, 400%N); (replicate 32 1%N, 990%N); (replicate 32 2%N, 0%N)].
Definition handshake_env : WgEnv :=
  ref_wg_env "ployz-networking" (unlines (@handshake_line ref_base64_standard <$> sample_handshakes)).
Lemma handshakes_read_back_witness :
  (@has_remote_handshake ref_base64_standard handshake_env wg_self (wg_state [wg_sidecar], [])).1 = Ok true /\
  exists now, (@docker_read_peers ref_base64_standard handshake_env wg_self (fun s => s) (wg_state [wg_sidecar], [])).1 =
    Ok ((fun e => {| dv_public_key := e.1; dv_endpoint := None;
                     dv_last_handshake := if (e.2 =? 0)%N then None else unix_seconds_to_instant now e.2 |}) <$> sample_handshakes).
Proof.
  refine (@handshakes_read_back ref_base64_standard ref_base64_standard_laws handshake_env wg_self (fun s => s) sample_handshakes
    (wg_state [wg_sidecar]) [] _ _ _).
  - repeat (apply Forall_cons; split); try done; (split; [|split; [done|]]);
      [repeat constructor|cbn; unfold u64_max; lia|repeat constructor|cbn; unfold u64_max; lia|repeat constructor|cbn; unfold u64_max; lia].
  - apply Forall_cons. split; [|done]. repeat constructor.
  - vm_compute. reflexivity.
Defined.

Definition sample_ops : list WgOp := [OpUp; OpAddSidecar (replicate 32 9%N) 181535495; OpSetPeers [wg_member 1]; OpDown; OpUp].
Lemma bridge_owned_witness :
  let '(s', log') := @run_ops ref_ipnet ref_base64_standard ref_keys (ref_wg_env "ployz-networking" "") wg_self sample_ops (wg_state [], []) in
  wg_wf [] s' log'.
Proof.
  refine (@bridge_owned ref_ipnet ref_base64_standard ref_keys ref_keys_laws (ref_wg_env "ployz-networking" "") wg_self sample_ops
    (wg_state []) [] _).
  split; [by split|done].
Defined.

Definition sample_host : HostWireGuard := {|
  hw_ifname := "ployz0"; hw_private_key := replicate 32 5%N; hw_overlay_ip := management_ip_from_key (replicate 32 6%N);
  hw_subnet := mkNet 181534720 24; hw_listen_port := DEFAULT_LISTEN_PORT |}.
Definition stale_peer : HostPeer :=
  {| hp_public_key := replicate 32 8%N; hp_allowed_ips := ["10.210.8.0/24"]; hp_endpoint := None;
     hp_persistent_keepalive_interval := None; hp_last_handshake := None |}.
Definition sample_host_set_peers :=
  @host_set_peers ref_ipnet ref_host_env (fun _ => None) (fun _ => None) sample_host [wg_member 1; wg_member 2]
    (wg_state [], [WeConfigurePeer stale_peer (Ok tt)]).
Lemma host_set_peers_exact_witness :
  exists s' log', sample_host_set_peers = (Ok tt, (s', log')) /\
    dom (ref_host log') = list_to_set (mr_public_key <$> [wg_member 1; wg_member 2]).
Proof.
  pose proof (@host_set_peers_exact ref_ipnet ref_host_env (fun _ => None) (fun _ => None) sample_host ref_host ref_host_laws
    [wg_member 1; wg_member 2] (wg_state []) [WeConfigurePeer stale_peer (Ok tt)]
    ltac:(apply (bool_decide_eq_true _); vm_compute; reflexivity)) as H.
  assert (bool_decide (sample_host_set_peers.1 = Ok tt) = true) as Hok by (vm_compute; reflexivity).
  fold sample_host_set_peers in H. destruct sample_host_set_peers as [r [s' log']]. apply bool_decide_eq_true in Hok. simpl in Hok.
  exists s', log'. rewrite Hok. split; [done|]. exact (proj1 (H Hok)).
Defined.
