(* ===== verification/Bridge.v ===== *)
(** * Container network and endpoints of the host

    [runtime-backends/src/network/docker_bridge.rs]: the Docker bridge network
    that the containers of a machine share, created for the machine's subnet;
    and [runtime-backends/src/mesh/endpoints.rs]: the addresses of the host that
    other machines can reach.

    Docker answers each call through [BridgeEnv]; what the network then is, its
    subnet, gateway and attached containers, is a function of the calls, [view],
    of which [NetworkLaws] states Docker's documented behaviour.  Logging is left
    out. *)

From S2P Require Import Prelude Order Effect Text Types Addr Base64 IpnetRef Ipam Container.
Local Open Scope string_scope.
Local Open Scope eff_scope.
#[local] Arguments String.append !_ _ : simpl nomatch.

(** ** The container network *)

Record DockerBridgeNetwork := {
  bn_name : string; bn_subnet_v4 : Ipv4Net; bn_gateway_v4 : Ipv4Addr; bn_container_v4 : Ipv4Addr
}.

(** The fields of Docker's requests that the code sets. *)
Record NetworkCreateRequest := {
  ncr_name : string; ncr_driver : option string; ncr_ipam_driver : option string; ncr_subnet : option string;
  ncr_gateway : option string; ncr_options : gmap string string
}.
Inductive DisconnectMode := Graceful | Force.

Inductive BridgeCall :=
| BcConnect
| BcInspectNetwork (name : string)
| BcCreateNetwork (request : NetworkCreateRequest) (r : result DockerError unit)
| BcInspectContainer (container : string)
| BcConnectNetwork (name container : string) (ipv4_address : option string) (r : result DockerError unit)
| BcDisconnectNetwork (name container : string) (force : bool) (r : result DockerError unit)
| BcRemoveNetwork (name : string) (r : result DockerError unit).

Record BridgeEnv := {
  be_connect : list BridgeCall -> result string unit;
  be_inspect_network : string -> list BridgeCall -> result DockerError (option string);   (* its identifier *)
  be_create_network : NetworkCreateRequest -> list BridgeCall -> result DockerError unit;
  be_inspect_container : string -> list BridgeCall -> result DockerError (option (gmap string (option string)));
  be_connect_network : string -> string -> option string -> list BridgeCall -> result DockerError unit;
  be_disconnect_network : string -> string -> bool -> list BridgeCall -> result DockerError unit;
  be_remove_network : string -> list BridgeCall -> result DockerError unit
}.

Section bridge.
Context {IP : Ipnet} {build : Build} (env : BridgeEnv).
Local Abbreviation B := (eff unit BridgeCall Error).

(** [DockerBridgeNetwork::new]; [None] when the addresses overflow. *)
Definition bridge_new (mesh_name : string) (subnet_v4 : Ipv4Net) : B (option DockerBridgeNetwork) :=
  _ <-! mmap_err (Operation "docker connect") (mcall (be_connect env) BcConnect) ;;
  mret (gateway_v4 ← machine_ip subnet_v4;
        container_v4 ← container_ip subnet_v4;
        Some {| bn_name := "ployz-" +:+ mesh_name; bn_subnet_v4 := subnet_v4; bn_gateway_v4 := gateway_v4;
                bn_container_v4 := container_v4 |}).

Section network.
Context (self : DockerBridgeNetwork).

Definition create_request : NetworkCreateRequest := {|
  ncr_name := bn_name self; ncr_driver := Some "bridge"; ncr_ipam_driver := Some "default";
  ncr_subnet := Some (ipnet_to_string (bn_subnet_v4 self)); ncr_gateway := Some (ipv4_to_string (bn_gateway_v4 self));
  ncr_options := {[ "com.docker.network.driver.mtu" := "1420" ]} |}.

Definition docker_answer {A} (answer : list BridgeCall -> result DockerError A) (event : result DockerError A -> BridgeCall)
    : B (result DockerError A) := mobserve answer event.

Definition net_ensure : B unit :=
  inspected <-! docker_answer (be_inspect_network env (bn_name self)) (fun _ => BcInspectNetwork (bn_name self)) ;;
  match inspected with
  | Ok _ => mret tt
  | Err e =>
      if has_status [404%N] e then
        created <-! docker_answer (be_create_network env create_request) (BcCreateNetwork create_request) ;;
        match created with Ok _ => mret tt | Err e => mfail (Operation "create network" (de_message e)) end
      else mfail (Operation "inspect network" (de_message e))
  end.

(** The endpoint of the container on this network, if it is attached. *)
Definition attached_endpoint (details : option (gmap string (option string))) : option (option string) :=
  networks ← details; networks !! bn_name self.

(** The refusal that means that the container is attached already. *)
Definition already_attached (e : DockerError) : bool :=
  has_status [403%N] e && contains_str "already exists in network" (de_message e).

Definition net_connect (container : string) (ipv4 : option Ipv4Addr) : B unit :=
  inspected <-! docker_answer (be_inspect_container env container) (fun _ => BcInspectContainer container) ;;
  attached <-! match inspected with
               | Ok details => mret (bool_decide (is_Some (attached_endpoint details)))
               | Err e => if has_status [404%N] e then mret false
                          else mfail (Operation "inspect container" (de_message e))
               end ;;
  if attached : bool then mret tt   (* with the address asked for, or with another: only the log line differs *)
  else
    connected <-! docker_answer (be_connect_network env (bn_name self) container (ipv4_to_string <$> ipv4))
                                 (BcConnectNetwork (bn_name self) container (ipv4_to_string <$> ipv4)) ;;
    match connected with
    | Ok _ => mret tt
    | Err e => if already_attached e then mret tt else mfail (Operation "connect network" (de_message e))
    end.

Definition net_disconnect (container : string) (mode : DisconnectMode) : B unit :=
  let force := match mode with Force => true | Graceful => false end in
  disconnected <-! docker_answer (be_disconnect_network env (bn_name self) container force)
                                 (BcDisconnectNetwork (bn_name self) container force) ;;
  match disconnected with
  | Ok _ => mret tt
  | Err e => if has_status [404%N] e then mret tt else mfail (Operation "disconnect network" (de_message e))
  end.

Definition net_remove : B unit :=
  removed <-! docker_answer (be_remove_network env (bn_name self)) (BcRemoveNetwork (bn_name self)) ;;
  match removed with
  | Ok _ => mret tt
  | Err e => if has_status [404%N] e then mret tt else mfail (Operation "remove network" (de_message e))
  end.

(** [resolve_bridge_ifname]; [None] is the panic of [&id[..12]] on a shorter identifier. *)
Definition resolve_bridge_ifname : B (option string) :=
  inspected <-! docker_answer (be_inspect_network env (bn_name self)) (fun _ => BcInspectNetwork (bn_name self)) ;;
  match inspected with
  | Err e => mfail (Operation "inspect network" (de_message e))
  | Ok None => mfail (Operation "resolve bridge" "network has no ID")
  | Ok (Some id) => mret (if Nat.ltb (String.length id) 12 then None else Some ("br-" +:+ String.substring 0 12 id))
  end.
End network.

(** The calls on the container network of [restart_runtime_for_subnet_change]:
    the old network is removed (a failure is logged and kept for later), then
    [bring_up] ensures the new one and attaches the WireGuard container. *)
Definition change_subnet (old new : DockerBridgeNetwork) : B (result Error unit) :=
  stopped <-! mtry (net_remove old) ;;
  _ <-! net_ensure new ;;
  _ <-! net_connect new "ployz-networking" (Some (bn_container_v4 new)) ;;
  mret stopped.
End bridge.

(** ** Docker's networks *)

Record NetView := { nv_subnet : option string; nv_gateway : option string; nv_attached : gmap string (option string) }.
Definition net_attach (container : string) (address : option string) (n : NetView) : NetView :=
  {| nv_subnet := nv_subnet n; nv_gateway := nv_gateway n; nv_attached := <[container := address]> (nv_attached n) |}.
Definition net_detach (container : string) (n : NetView) : NetView :=
  {| nv_subnet := nv_subnet n; nv_gateway := nv_gateway n; nv_attached := delete container (nv_attached n) |}.
Definition is_attached (container : string) (v : option NetView) : Prop :=
  exists n, v = Some n /\ is_Some (nv_attached n !! container).
Definition fresh_network (self : DockerBridgeNetwork) `{Ipnet} : NetView :=
  {| nv_subnet := Some (ipnet_to_string (bn_subnet_v4 self)); nv_gateway := Some (ipv4_to_string (bn_gateway_v4 self)); nv_attached := ∅ |}.

(** What the Docker API documents of the network [name]: a call that fails
    changes nothing, status 404 means that there is none. *)
Class NetworkLaws (env : BridgeEnv) (name : string) (view : list BridgeCall -> option NetView) : Prop := {
  nl_inspect : forall log,
    match be_inspect_network env name log with
    | Ok _ => is_Some (view log)
    | Err e => has_status [404%N] e = true -> view log = None
    end;
  nl_inspect_event : forall log n, view (log ++ [BcInspectNetwork n])%list = view log;
  nl_create : forall log request, ncr_name request = name ->
    match be_create_network env request log with
    | Ok _ => view log = None /\ view (log ++ [BcCreateNetwork request (Ok tt)])%list =
                Some {| nv_subnet := ncr_subnet request; nv_gateway := ncr_gateway request; nv_attached := ∅ |}
    | Err e => view (log ++ [BcCreateNetwork request (Err e)])%list = view log
    end;
  nl_container : forall log container,
    match be_inspect_container env container log with
    | Ok details => is_Some (details ≫= lookup name) <-> is_attached container (view log)
    | Err e => has_status [404%N] e = true -> ~ is_attached container (view log)
    end;
  nl_container_event : forall log c, view (log ++ [BcInspectContainer c])%list = view log;
  nl_connect : forall log container address,
    match be_connect_network env name container address log with
    | Ok _ => exists n a, view log = Some n /\ view (log ++ [BcConnectNetwork name container address (Ok tt)])%list = Some (net_attach container a n) /\
                (address <> None -> a = address)
    | Err e => view (log ++ [BcConnectNetwork name container address (Err e)])%list = view log /\
               (already_attached e = true -> is_attached container (view log))
    end;
  nl_disconnect : forall log container force,
    match be_disconnect_network env name container force log with
    | Ok _ => view (log ++ [BcDisconnectNetwork name container force (Ok tt)])%list = net_detach container <$> view log
    | Err e => view (log ++ [BcDisconnectNetwork name container force (Err e)])%list = view log /\
               (has_status [404%N] e = true -> ~ is_attached container (view log))
    end;
  nl_remove : forall log,
    match be_remove_network env name log with
    | Ok _ => view (log ++ [BcRemoveNetwork name (Ok tt)])%list = None
    | Err e => view (log ++ [BcRemoveNetwork name (Err e)])%list = view log /\
               (has_status [404%N] e = true -> view log = None)
    end
}.

Lemma wp_answered {St Call E A} (answer : list Call -> A) (event : A -> Call) (Q : result E A -> St -> list Call -> Prop) m log :
  Q (Ok (answer log)) m (log ++ [event (answer log)])%list -> wp (mobserve answer event) Q m log.
Proof. done. Qed.

Section laws.
Context {IP : Ipnet} (env : BridgeEnv) (name : string) (view : list BridgeCall -> option NetView) {laws : NetworkLaws env name view}.

Definition fresh_or (self : DockerBridgeNetwork) (v : option NetView) : NetView := default (fresh_network self) v.

Lemma ensure_spec self log : bn_name self = name ->
  wp (net_ensure env self) (fun r _ log' =>
    match r with Ok _ => view log' = Some (fresh_or self (view log)) | Err _ => view log' = view log end) tt log.
Proof.
  intros Hn. unfold net_ensure, docker_answer. apply wp_bind, wp_answered. cbv beta iota. rewrite Hn. pose proof (nl_inspect log) as Hi.
  destruct (be_inspect_network env name log) as [id|e].
  - destruct Hi as [n Hv]. apply wp_ret. by rewrite (nl_inspect_event (view := view) log name), Hv.
  - destruct (has_status [404%N] e); [|apply wp_fail; apply (nl_inspect_event (view := view) log name)].
    specialize (Hi eq_refl). apply wp_bind, wp_answered. cbv beta iota.
    pose proof (nl_create (log ++ [BcInspectNetwork name])%list (create_request self) Hn) as Hc.
    destruct (be_create_network env _ _) as [[]|e'].
    + destruct Hc as [_ Hc]. apply wp_ret. by rewrite Hc, Hi.
    + apply wp_fail. by rewrite Hc, (nl_inspect_event (view := view) log name).
Qed.

Lemma remove_spec self log : bn_name self = name ->
  wp (net_remove env self) (fun r _ log' =>
    match r with Ok _ => view log' = None | Err _ => view log' = view log end) tt log.
Proof.
  intros Hn. unfold net_remove, docker_answer. apply wp_bind, wp_answered. cbv beta iota. rewrite Hn. pose proof (nl_remove log) as Hr.
  destruct (be_remove_network env name log) as [[]|e]; [done|]. destruct Hr as [Hv H404].
  destruct (has_status [404%N] e); (apply wp_ret || apply wp_fail); rewrite Hv; auto.
Qed.

(** Attaching: a container that is attached is left as it is. *)
Definition connected (container : string) (ipv4 : option Ipv4Addr) (v v' : option NetView) : Prop :=
  (is_attached container v /\ v' = v) \/
  (exists n a, v = Some n /\ nv_attached n !! container = None /\ v' = Some (net_attach container a n) /\
     (forall ip, ipv4 = Some ip -> a = Some (ipv4_to_string ip))).
Lemma connect_call_spec container ipv4 log : ~ is_attached container (view log) ->
  wp (answer <-! mobserve (be_connect_network env name container (ipv4_to_string <$> ipv4))
                   (BcConnectNetwork name container (ipv4_to_string <$> ipv4)) ;;
      match answer with
      | Ok _ => mret tt
      | Err e => if already_attached e then mret tt else mfail (Operation "connect network" (de_message e))
      end)
    (fun r _ log' => match r with Ok _ => connected container ipv4 (view log) (view log') | Err _ => view log' = view log end)
    tt log.
Proof.
  intros Hna. apply wp_bind, wp_answered. cbv beta iota. pose proof (nl_connect log container (ipv4_to_string <$> ipv4)) as Hc.
  destruct (be_connect_network env _ _ _ _) as [[]|e].
  - destruct Hc as (n & a & Hv & Hv' & Ha). apply wp_ret. right. exists n, a. split_and!; [done| |done|].
    + destruct (nv_attached n !! container) eqn:E; [|done]. exfalso. apply Hna. exists n. by rewrite E.
    + intros ip ->. by apply Ha.
  - destruct Hc as [Hv Ha]. destruct (already_attached e); [apply wp_ret|by apply wp_fail]. by destruct (Hna (Ha eq_refl)).
Qed.
Lemma connect_spec self container ipv4 log : bn_name self = name ->
  wp (net_connect env self container ipv4)
    (fun r _ log' => match r with Ok _ => connected container ipv4 (view log) (view log') | Err _ => view log' = view log end)
    tt log.
Proof.
  intros Hn. unfold net_connect, docker_answer, attached_endpoint. rewrite Hn.
  apply wp_bind, wp_answered. cbv beta iota. pose proof (nl_container log container) as Hi.
  pose proof (connect_call_spec container ipv4 (log ++ [BcInspectContainer container])%list) as Hconnect.
  rewrite (nl_container_event (view := view) log) in Hconnect.
  apply wp_bind. destruct (be_inspect_container env container log) as [details|e].
  - apply wp_ret. change (networks ← details; networks !! name) with (details ≫= lookup name). case_bool_decide as Ha.
    + apply wp_ret. left. by rewrite (nl_container_event (view := view) log), <- Hi.
    + apply Hconnect. by rewrite <- Hi.
  - destruct (has_status [404%N] e); [apply wp_ret, Hconnect; auto|]. apply wp_fail. apply (nl_container_event (view := view) log).
Qed.

Lemma disconnect_spec self container mode log : bn_name self = name ->
  wp (net_disconnect env self container mode) (fun r _ log' =>
    match r with Ok _ => ~ is_attached container (view log') | Err _ => view log' = view log end) tt log.
Proof.
  intros Hn. unfold net_disconnect, docker_answer. apply wp_bind, wp_answered. cbv beta iota. rewrite Hn.
  set (force := match mode with Force => true | Graceful => false end). pose proof (nl_disconnect log container force) as Hr.
  destruct (be_disconnect_network env name container force log) as [[]|e].
  - apply wp_ret. rewrite Hr. intros (n & Hv & Ha). destruct (view log) as [n0|]; [|done]. injection Hv as <-.
    cbn in Ha. rewrite lookup_delete_eq in Ha. by destruct Ha.
  - destruct Hr as [Hv H404]. destruct (has_status [404%N] e); (apply wp_ret || apply wp_fail); rewrite Hv; auto.
Qed.

End laws.

(** ** The host's endpoints ([endpoints.rs]) *)

Definition MIN_ENDPOINT_MTU : N := 1280.
Record Interface := { if_name : string; if_ip : IpAddr }.

(** [IpAddr::is_loopback] and the first group of [Ipv6Addr::segments]. *)
Definition is_loopback (ip : IpAddr) : bool :=
  match ip with
  | V4 a => (a / 16777216 =? 127)%N
  | V6 a => bool_decide (a = (replicate 15 0 ++ [1])%list%N)
  end.
Definition first_segment (a : Ipv6Addr) : N := nth 0 (octets_groups a) 0%N.

Section endpoints.
(** The system: the maximum transmission unit of an interface, and its interfaces. *)
Context (get_interface_mtu : string -> option N).

Definition routable_interface (interface : Interface) : bool :=
  let name := if_name interface in
  if starts_with name "docker" || starts_with name "br-" || starts_with name "veth" then false
  else if String.eqb name "tailscale0" || starts_with name "ts" then false
  else if match get_interface_mtu name with Some mtu => (mtu <? MIN_ENDPOINT_MTU)%N | None => false end then false
  else if is_loopback (if_ip interface) then false
  else match if_ip interface with
       | V6 v6 =>
           let s0 := first_segment v6 in
           if (N.land s0 65472 =? 65152)%N then false       (* fe80::/10 *)
           else if (N.shiftr s0 8 =? 253)%N then false      (* fd00::/8 *)
           else true
       | V4 _ => true
       end.

Definition list_routable_ips (interfaces : result string (list Interface)) : list IpAddr :=
  match interfaces with
  | Ok interfaces => if_ip <$> filter (fun i => routable_interface i = true) interfaces
  | Err _ => []
  end.

Definition detect_endpoints (interfaces : result string (list Interface)) (listen_port : N) : list string :=
  (fun ip => match ip with
             | V6 v6 => "[" +:+ ipv6_to_string v6 +:+ "]:" +:+ dec listen_port
             | V4 v4 => ipv4_to_string v4 +:+ ":" +:+ dec listen_port
             end) <$> list_routable_ips interfaces.

Lemma detect_endpoints_print interfaces listen_port :
  detect_endpoints interfaces listen_port =
  (fun ip => socket_addr_to_string {| sa_ip := ip; sa_port := listen_port |}) <$> list_routable_ips interfaces.
Proof. apply list_fmap_ext. intros _ [a|a] _; done. Qed.

(** An overlay address is in [fd00::/8]. *)
Lemma routable_no_overlay i key :
  routable_interface i = true -> is_bytes key -> length key = 32 -> if_ip i <> V6 (management_ip_from_key key).
Proof.
  intros Hr Hb Hl E.
  assert ((N.shiftr (first_segment (management_ip_from_key key)) 8 =? 253)%N = true) as Hs.
  { destruct key as [|k key]; [done|]. apply Forall_cons in Hb as [Hk _]. apply N.eqb_eq.
    change (first_segment _) with (253 * 256 + k)%N.
    rewrite N.shiftr_div_pow2. change (2 ^ 8)%N with 256%N. rewrite N.div_add_l, N.div_small by lia. lia. }
  unfold routable_interface in Hr. rewrite E, Hs in Hr. repeat (case_match; try done).
Qed.

(** The endpoints a machine advertises are addresses other machines can
    use.  Each is the text of an address of the host and the port, which the
    peers' parser reads back exactly, IPv6 in brackets; and none is a loopback
    address or an overlay address of any machine, so that no tunnel is asked to
    run through itself. *)
Theorem endpoints_usable interfaces listen_port :
  (listen_port <= 65535)%N -> Forall (fun i => ip_wf (if_ip i)) interfaces ->
  parse_socket_addr <$> detect_endpoints (Ok interfaces) listen_port =
    (fun i => Some ({| sa_ip := if_ip i; sa_port := listen_port |}, 0%N)) <$> filter (fun i => routable_interface i = true) interfaces /\
  Forall (fun i => is_loopback (if_ip i) = false /\
                   forall key, is_bytes key -> length key = 32 -> if_ip i <> V6 (management_ip_from_key key))
    (filter (fun i => routable_interface i = true) interfaces).
Proof.
  intros Hp Hwf. rewrite detect_endpoints_print. cbn [list_routable_ips]. split.
  - rewrite <- !list_fmap_compose. apply list_fmap_ext. intros n i Hi. cbn. apply parse_socket_addr_print; [|done].
    apply list_elem_of_lookup_2, list_elem_of_filter in Hi as [_ Hi]. rewrite Forall_forall in Hwf. by apply Hwf.
  - apply Forall_forall. intros i [Hr _]%list_elem_of_filter. split.
    + unfold routable_interface in Hr. repeat (case_match; try done).
    + intros key Hb Hl. by apply routable_no_overlay.
Qed.
End endpoints.

(** ** Instances and witnesses *)

(** A Docker daemon with one network. *)
Section ref_docker.
Context (name : string).
Definition ref_net_event (v : option NetView) (e : BridgeCall) : option NetView :=
  match e with
  | BcCreateNetwork request (Ok _) =>
      if String.eqb (ncr_name request) name
      then Some {| nv_subnet := ncr_subnet request; nv_gateway := ncr_gateway request; nv_attached := ∅ |} else v
  | BcConnectNetwork n c a (Ok _) => if String.eqb n name then net_attach c a <$> v else v
  | BcDisconnectNetwork n c _ (Ok _) => if String.eqb n name then net_detach c <$> v else v
  | BcRemoveNetwork n (Ok _) => if String.eqb n name then None else v
  | _ => v
  end.
Definition ref_net (log : list BridgeCall) : option NetView := foldl ref_net_event None log.
Definition docker_error (status : N) (message : string) : DockerError := {| de_status := Some status; de_message := message |}.
Definition attached_to (container : string) (log : list BridgeCall) : option (option string) :=
  n ← ref_net log; nv_attached n !! container.
Definition not_found {A} : result DockerError A := Err (docker_error 404 "not found").
Definition ref_bridge_env : BridgeEnv := {|
  be_connect _ := Ok tt;
  be_inspect_network _ log := match ref_net log with Some _ => Ok (Some "0123456789abcdef") | None => not_found end;
  be_create_network _ log := match ref_net log with Some _ => Err (docker_error 409 "network exists") | None => Ok tt end;
  be_inspect_container c log := Ok (Some (match attached_to c log with Some a => {[ name := a ]} | None => ∅ end));
  be_connect_network _ c _ log :=
    match ref_net log, attached_to c log with
    | None, _ => not_found
    | Some _, Some _ => Err (docker_error 403 "endpoint already exists in network")
    | Some _, None => Ok tt
    end;
  be_disconnect_network _ c _ log := match attached_to c log with Some _ => Ok tt | None => not_found end;
  be_remove_network _ log :=
    match ref_net log with
    | None => not_found
    | Some n => if decide (nv_attached n = ∅) then Ok tt else Err (docker_error 403 "network has active endpoints")
    end |}.

Lemma attached_to_spec c log : is_Some (attached_to c log) <-> is_attached c (ref_net log).
Proof. unfold attached_to, is_attached. destruct (ref_net log) as [n|]; simpl; naive_solver. Qed.
Lemma not_attached_to c log : attached_to c log = None -> ~ is_attached c (ref_net log).
Proof. intros E H%attached_to_spec. rewrite E in H. by destruct H. Qed.
Lemma ref_net_snoc log e : ref_net (log ++ [e])%list = ref_net_event (ref_net log) e.
Proof. unfold ref_net. by rewrite foldl_app. Qed.

#[export] Instance ref_network_laws : NetworkLaws ref_bridge_env name ref_net.
Proof.
  split.
  - intros log. simpl. by destruct (ref_net log).
  - intros log n. by rewrite ref_net_snoc.
  - intros log request Hn. simpl. destruct (ref_net log) eqn:E; rewrite ref_net_snoc; simpl; [done|].
    by rewrite Hn, String.eqb_refl.
  - intros log c. simpl. rewrite <- attached_to_spec. destruct (attached_to c log) as [a|]; cbn.
    + by rewrite lookup_singleton_eq.
    + by rewrite lookup_empty.
  - intros log c. by rewrite ref_net_snoc.
  - intros log c a. simpl. destruct (ref_net log) as [n|] eqn:E.
    + destruct (attached_to c log) as [b|] eqn:Ha; rewrite ref_net_snoc; simpl; rewrite E.
      * split; [done|]. intros _. rewrite <- E. apply attached_to_spec. by rewrite Ha.
      * exists n, a. by rewrite String.eqb_refl.
    + destruct (attached_to c log); cbn; split; try done; intros; by rewrite ?ref_net_snoc.
  - intros log c force. simpl. destruct (attached_to c log) as [b|] eqn:Ha; cbn; rewrite ref_net_snoc; simpl.
    + by rewrite String.eqb_refl.
    + split; [done|]. intros _. by apply not_attached_to.
  - intros log. simpl. destruct (ref_net log) as [n|] eqn:E; [|cbn; by rewrite ref_net_snoc].
    case_decide; rewrite ref_net_snoc; simpl; rewrite ?String.eqb_refl, ?E; done.
Qed.
End ref_docker.

Definition bridge_of (base : N) : DockerBridgeNetwork := {|
  bn_name := "ployz-alpha"; bn_subnet_v4 := mkNet base 24; bn_gateway_v4 := base + 1; bn_container_v4 := base + 2 |}.
Definition old_bridge : DockerBridgeNetwork := bridge_of 181534720.
Definition new_bridge : DockerBridgeNetwork := bridge_of 181535744.
(** The network of the old subnet, with nothing and with a gateway attached. *)
Definition old_network_log : list BridgeCall := [BcCreateNetwork (@create_request ref_ipnet old_bridge) (Ok tt)].
Definition busy_network_log : list BridgeCall := (old_network_log ++ [BcConnectNetwork "ployz-alpha" "gateway-alpha" None (Ok tt)])%list.
Definition sample_change (log : list BridgeCall) :=
  @change_subnet ref_ipnet (ref_bridge_env "ployz-alpha") old_bridge new_bridge (tt, log).


Definition sample_interfaces : list Interface :=
  [{| if_name := "lo"; if_ip := V4 2130706433 |}; {| if_name := "eth0"; if_ip := V4 3232235786 |};
   {| if_name := "eth0"; if_ip := V6 [32;1;13;184;0;0;0;0;0;0;0;0;0;0;0;1]%N |};
   {| if_name := "wg0"; if_ip := V6 (management_ip_from_key (replicate 32 6%N)) |}].
Lemma endpoints_usable_witness :
  parse_socket_addr <$> detect_endpoints (fun _ => None) (Ok sample_interfaces) 51820 =
    [Some ({| sa_ip := V4 3232235786; sa_port := 51820 |}, 0%N);
     Some ({| sa_ip := V6 [32;1;13;184;0;0;0;0;0;0;0;0;0;0;0;1]%N; sa_port := 51820 |}, 0%N)].
Proof.
  refine (proj1 (endpoints_usable (fun _ => None) sample_interfaces 51820 _ _)); [done|].
  repeat (apply Forall_cons; split); cbn; unfold u32_max, octets_wf; try lia; try done; split; try done; repeat constructor.
Defined.
