(* ===== verification/Relay.v ===== *)
(** * The relay between host and overlay

    [runtime-backends/src/mesh/wireguard/bridge.rs]: the event loop that carries
    TCP connections of the host into the overlay when WireGuard runs in a
    container.  Each connection accepted on the host gets a socket of a user-space
    TCP stack ([smoltcp]); the stack's packets go through a user-space WireGuard
    tunnel ([boringtun]) to the container, over UDP.

    The stack, the tunnel, the UDP socket and the host's streams answer each call
    by the log so far.  A run of the loop is a sequence of wake-ups: the timer, a
    datagram, an accepted connection. *)

From S2P Require Import Prelude Order Effect Text Types Addr.
Local Open Scope eff_scope.

Abbreviation Packet := (list N) (only parsing).

(** [boringtun]'s answers. *)
Inductive TunnResult :=
| TrDone | TrErr (e : string) | TrWriteToNetwork (data : list N) | TrWriteToTunnelV4 (data : list N) | TrWriteToTunnelV6 (data : list N).
(** [try_read] and [try_write] of a host stream. *)
Inductive HostIo (A : Type) := HostOk (a : A) | HostWouldBlock | HostErr (e : string).
Arguments HostOk {A}. Arguments HostWouldBlock {A}. Arguments HostErr {A}.

Inductive RelayEvent :=
| ReHandshake (r : TunnResult)
| ReTimers (r : TunnResult)
| ReEncapsulate (packet : Packet) (r : TunnResult)
| ReDecapsulate (packet : Packet) (r : TunnResult)
| ReSendTo (data : list N)
| ReRead (stream : N) (r : HostIo (list N))
| ReWrite (stream : N) (data : list N) (r : HostIo nat)
| ReSendSlice (handle : N) (data : list N) (r : result string nat)
| ReRecvSlice (handle : N) (r : result string (list N))
| ReClose (handle : N)
| ReAbort (handle : N)
| RePoll (rx : list Packet) (r : list Packet * list Packet)   (* what is left to read, what to send *)
| ReConnect (stream : N) (dest : SocketAddr) (local_port : N) (r : result string N).

Abbreviation Log := (list RelayEvent) (only parsing).
Record RelayEnv := {
  rv_handshake : Log -> TunnResult; rv_timers : Log -> TunnResult;
  rv_encapsulate : Packet -> Log -> TunnResult; rv_decapsulate : Packet -> Log -> TunnResult;
  rv_held : Log -> nat;                                       (* packets the tunnel still holds *)
  rv_read : N -> Log -> HostIo (list N); rv_write : N -> list N -> Log -> HostIo nat;
  rv_may_send : N -> Log -> bool; rv_can_send : N -> Log -> bool; rv_may_recv : N -> Log -> bool; rv_can_recv : N -> Log -> bool;
  rv_is_open : N -> Log -> bool;
  rv_send_slice : N -> list N -> Log -> result string nat; rv_recv_slice : N -> Log -> result string (list N);
  rv_poll : list Packet -> Log -> list Packet * list Packet;
  rv_connect : SocketAddr -> N -> Log -> result string N      (* [connect], then the handle of [SocketSet::add] *)
}.

Record OutboundRelay := { or_stream : N; or_handle : N; or_overlay_dest : SocketAddr; or_connected : bool }.
(** [VirtualDevice] and the relays. *)
Record RelayState := { rs_relays : list OutboundRelay; rs_rx_queue : list Packet; rs_tx_queue : list Packet }.
Definition relay_init : RelayState := {| rs_relays := []; rs_rx_queue := []; rs_tx_queue := [] |}.

Definition push_rx (packet : Packet) (s : RelayState) : RelayState :=
  {| rs_relays := rs_relays s; rs_rx_queue := rs_rx_queue s ++ [packet]; rs_tx_queue := rs_tx_queue s |}.
Definition set_queues (rx tx : list Packet) (s : RelayState) : RelayState :=
  {| rs_relays := rs_relays s; rs_rx_queue := rx; rs_tx_queue := tx |}.
Definition set_relays (relays : list OutboundRelay) (s : RelayState) : RelayState :=
  {| rs_relays := relays; rs_rx_queue := rs_rx_queue s; rs_tx_queue := rs_tx_queue s |}.

Inductive Wakeup :=
| WTick
| WRecv (r : result string (Packet * SocketAddr))
| WAccept (r : option (N * SocketAddr * SocketAddr)).         (* stream, destination, local address *)

#[local] Instance SocketAddr_decision : EqDecision SocketAddr.
Proof. solve_decision. Defined.

Section relay.
Context (env : RelayEnv) (peer_endpoint : SocketAddr).
Abbreviation B A := (eff RelayState RelayEvent string A) (only parsing).

(** What the stack says of a socket, without changing it. *)
Definition peek {A} (f : Log -> A) : B A := fun '(s, log) => (Ok (f log), (s, log)).
Definition send_to (data : list N) : B unit := mobserve (fun _ => tt) (fun _ => ReSendTo data).

(** [iface.poll]: takes packets from the receive queue, adds to the send queue. *)
Definition poll : B unit :=
  rx <-! mget rs_rx_queue ;;
  tx <-! mget rs_tx_queue ;;
  answer <-! mobserve (rv_poll env rx) (RePoll rx) ;;
  mput (set_queues answer.1 (tx ++ answer.2)).
Definition send_packet (packet : Packet) : B unit :=
  r <-! mobserve (rv_encapsulate env packet) (ReEncapsulate packet) ;;
  match r with
  | TrWriteToNetwork data => send_to data
  | TrErr _ | TrDone | TrWriteToTunnelV4 _ | TrWriteToTunnelV6 _ => mret tt
  end.
(** [while let Some(packet) = device.pop_tx()]. *)
Definition drain_tx : B unit :=
  tx <-! mget rs_tx_queue ;;
  _ <-! mput (fun s => set_queues (rs_rx_queue s) [] s) ;;
  mfor tx send_packet.

Definition host_to_overlay (relay : OutboundRelay) : B unit :=
  can_send <-! peek (rv_can_send env (or_handle relay)) ;;
  if can_send then
    r <-! mobserve (rv_read env (or_stream relay)) (ReRead (or_stream relay)) ;;
    match r with
    | HostOk [] => mobserve (fun _ => tt) (fun _ => ReClose (or_handle relay))
    | HostOk data =>
        _ <-! mobserve (rv_send_slice env (or_handle relay) data) (ReSendSlice (or_handle relay) data) ;; mret tt
    | HostWouldBlock => mret tt
    | HostErr _ => mobserve (fun _ => tt) (fun _ => ReAbort (or_handle relay))
    end
  else mret tt.
Definition overlay_to_host (relay : OutboundRelay) : B unit :=
  can_recv <-! peek (rv_can_recv env (or_handle relay)) ;;
  if can_recv then
    r <-! mobserve (rv_recv_slice env (or_handle relay)) (ReRecvSlice (or_handle relay)) ;;
    match r with
    | Ok (b :: data) =>
        w <-! mobserve (rv_write env (or_stream relay) (b :: data)) (ReWrite (or_stream relay) (b :: data)) ;;
        match w with
        | HostOk _ | HostWouldBlock => mret tt
        | HostErr _ => mobserve (fun _ => tt) (fun _ => ReAbort (or_handle relay))
        end
    | Ok [] | Err _ => mret tt
    end
  else mret tt.
Definition relay_data (relay : OutboundRelay) : B OutboundRelay :=
  may_send <-! peek (rv_may_send env (or_handle relay)) ;;
  let relay := {| or_stream := or_stream relay; or_handle := or_handle relay; or_overlay_dest := or_overlay_dest relay;
                  or_connected := or_connected relay || may_send |} in
  _ <-! host_to_overlay relay ;;
  _ <-! overlay_to_host relay ;;
  mret relay.
Definition is_live (log : Log) (relay : OutboundRelay) : bool :=
  rv_is_open env (or_handle relay) log || rv_may_recv env (or_handle relay) log || rv_may_send env (or_handle relay) log.

Definition on_tick : B unit :=
  timers <-! mobserve (rv_timers env) ReTimers ;;
  _ <-! match timers with
        | TrWriteToNetwork data => send_to data
        | TrErr _ | TrDone | TrWriteToTunnelV4 _ | TrWriteToTunnelV6 _ => mret tt
        end ;;
  relays <-! mget rs_relays ;;
  relays <-! mmap relay_data relays ;;
  relays <-! peek (fun log => filter (fun r => is_live log r = true) relays) ;;
  _ <-! mput (set_relays relays) ;;
  _ <-! poll ;;
  drain_tx.

(** After a handshake the tunnel is asked for the packets it held back. *)
Fixpoint drain_held (fuel : nat) : B unit :=
  match fuel with
  | O => mfail "out of fuel"%string
  | S fuel =>
      r <-! mobserve (rv_decapsulate env []) (ReDecapsulate []) ;;
      match r with
      | TrWriteToNetwork data => _ <-! send_to data ;; drain_held fuel
      | TrWriteToTunnelV6 data => _ <-! mput (push_rx data) ;; drain_held fuel
      | TrDone | TrErr _ | TrWriteToTunnelV4 _ => mret tt
      end
  end.
Definition on_datagram (packet : Packet) : B unit :=
  r <-! mobserve (rv_decapsulate env packet) (ReDecapsulate packet) ;;
  _ <-! match r with
        | TrWriteToNetwork data =>
            _ <-! send_to data ;;
            held <-! peek (rv_held env) ;;
            drain_held (S held)
        | TrWriteToTunnelV6 data => mput (push_rx data)
        | TrErr _ | TrDone | TrWriteToTunnelV4 _ => mret tt
        end ;;
  _ <-! poll ;;
  drain_tx.
Definition on_recv (r : result string (Packet * SocketAddr)) : B unit :=
  match r with
  | Err _ => mret tt
  | Ok (packet, src) => if bool_decide (src = peer_endpoint) then on_datagram packet else mret tt
  end.

(** [49152 + (relays.len() as u16 % 16000)]. *)
Definition local_port (relays : list OutboundRelay) : N := 49152 + (N.of_nat (length relays) mod 65536) mod 16000.
Definition on_accept (r : option (N * SocketAddr * SocketAddr)) : B unit :=
  match r with
  | None => mret tt
  | Some (stream, overlay_dest, _) =>
      match sa_ip overlay_dest with
      | V4 _ => mret tt
      | V6 _ =>
          relays <-! mget rs_relays ;;
          let port := local_port relays in
          connected <-! mobserve (rv_connect env overlay_dest port) (ReConnect stream overlay_dest port) ;;
          match connected with
          | Err _ => mret tt
          | Ok handle =>
              _ <-! mput (set_relays (relays ++ [{| or_stream := stream; or_handle := handle; or_overlay_dest := overlay_dest;
                                                    or_connected := false |}])) ;;
              _ <-! poll ;;
              drain_tx
          end
      end
  end.

Definition relay_step (w : Wakeup) : B unit :=
  match w with
  | WTick => on_tick
  | WRecv r => on_recv r
  | WAccept r => on_accept r
  end.
(** The loop, over the wake-ups so far. *)
Definition bridge_event_loop (wakeups : list Wakeup) : B unit :=
  r <-! mobserve (rv_handshake env) ReHandshake ;;
  _ <-! match r with TrWriteToNetwork data => send_to data | _ => mret tt end ;;
  mfor wakeups relay_step.
End relay.

(** ** What went through *)

(** The chunks read from a host stream, offered to a socket, taken from a socket
    and offered to a host stream. *)
Definition reads (stream : N) : Log -> list (list N) := omap (fun e =>
  match e with ReRead i (HostOk (b :: data)) => if decide (i = stream) then Some (b :: data) else None | _ => None end).
Definition sends (handle : N) : Log -> list (list N) := omap (fun e =>
  match e with ReSendSlice i data _ => if decide (i = handle) then Some data else None | _ => None end).
Definition recvs (handle : N) : Log -> list (list N) := omap (fun e =>
  match e with ReRecvSlice i (Ok (b :: data)) => if decide (i = handle) then Some (b :: data) else None | _ => None end).
Definition writes (stream : N) : Log -> list (list N) := omap (fun e =>
  match e with ReWrite i data _ => if decide (i = stream) then Some data else None | _ => None end).
(** The connections opened so far: the host's stream and the overlay's socket. *)
Definition opened : Log -> list (N * N) := omap (fun e =>
  match e with ReConnect stream _ _ (Ok handle) => Some (stream, handle) | _ => None end).
(** The datagrams given to the tunnel. *)
Definition decapsulated : Log -> list Packet := omap (fun e =>
  match e with ReDecapsulate (b :: packet) _ => Some (b :: packet) | _ => None end).
(** The packets that the stack produced, and those given to the tunnel. *)
Definition produced (log : Log) : list Packet := concat (omap (fun e => match e with RePoll _ r => Some r.2 | _ => None end) log).
Definition encapsulated : Log -> list Packet := omap (fun e => match e with ReEncapsulate packet _ => Some packet | _ => None end).

(** The events of one relay: its own stream and socket, nothing else. *)
Definition own_event (stream handle : N) (e : RelayEvent) : Prop :=
  match e with
  | ReRead i _ | ReWrite i _ _ => i = stream
  | ReSendSlice i _ _ | ReRecvSlice i _ | ReClose i | ReAbort i => i = handle
  | _ => False
  end.
(** The events that carry no data of a connection. *)
Definition carries_none (e : RelayEvent) : Prop :=
  match e with
  | ReRead _ _ | ReWrite _ _ _ | ReSendSlice _ _ _ | ReRecvSlice _ _ | ReConnect _ _ _ _ => False
  | _ => True
  end.
Definition in_step (stream handle : N) (new : Log) : Prop :=
  sends handle new = reads stream new /\ writes stream new = recvs handle new.

Ltac log_simpl := unfold in_step, reads, sends, recvs, writes, opened, decapsulated, produced, encapsulated in *; rewrite ?omap_app, ?concat_app.
Lemma in_step_app stream handle a b : in_step stream handle a -> in_step stream handle b -> in_step stream handle (a ++ b).
Proof. log_simpl. intros [-> ->] [-> ->]. done. Qed.
Lemma in_step_nil stream handle : in_step stream handle [].
Proof. done. Qed.

Lemma omap_none {A B} (f : A -> option B) l : Forall (fun x => f x = None) l -> omap f l = [].
Proof. induction 1 as [|x l Hx _ IH]; [done|]. cbn. by rewrite Hx. Qed.
(** A stream and a socket that no event is about. *)
Definition off_stream (stream : N) (e : RelayEvent) : Prop :=
  match e with ReRead i _ | ReWrite i _ _ => i <> stream | _ => True end.
Definition off_handle (handle : N) (e : RelayEvent) : Prop :=
  match e with ReSendSlice i _ _ | ReRecvSlice i _ => i <> handle | _ => True end.
Lemma off_stream_none stream new : Forall (off_stream stream) new -> reads stream new = [] /\ writes stream new = [].
Proof.
  intros H. split; apply omap_none; eapply Forall_impl; try exact H; intros [] He; cbn in *; repeat case_match; try done; by destruct He.
Qed.
Lemma off_handle_none handle new : Forall (off_handle handle) new -> sends handle new = [] /\ recvs handle new = [].
Proof.
  intros H. split; apply omap_none; eapply Forall_impl; try exact H; intros [] He; cbn in *; repeat case_match; try done; by destruct He.
Qed.
Lemma off_in_step stream handle new : Forall (off_stream stream) new -> Forall (off_handle handle) new -> in_step stream handle new.
Proof. intros [Hr Hw]%off_stream_none [Hs Hc]%off_handle_none. unfold in_step. by rewrite Hs, Hw, Hr, Hc. Qed.

Lemma fmap_nodup_inj {A B} (f : A -> B) l x y : NoDup (f <$> l) -> x ∈ l -> y ∈ l -> f x = f y -> x = y.
Proof.
  induction l as [|a l IH]; [intros _ Hx; by apply elem_of_nil in Hx|]. rewrite fmap_cons, NoDup_cons. intros [Ha Hl] Hx Hy E.
  apply elem_of_cons in Hx as [->|Hx], Hy as [->|Hy]; [done| | |by apply IH]; exfalso; apply Ha; [rewrite E|rewrite <- E]; by apply list_elem_of_fmap_2.
Qed.

(** ** One relay *)

Section one.
Context (env : RelayEnv) (peer_endpoint : SocketAddr).

Lemma dspec_peek {A} (f : Log -> A) s (P : result string A -> RelayState -> Log -> Prop) :
  (forall a, P (Ok a) s []) -> dspec (peek f) s P.
Proof. intros HP. apply dspec_pure. intros log. split; [done|]. apply HP. Qed.
Lemma dspec_peek_at {A} (f : Log -> A) s (P : result string A -> RelayState -> Log -> Prop) :
  (forall log, P (Ok (f log)) s []) -> dspec (peek f) s P.
Proof. intros HP. apply dspec_pure. intros log. split; [done|]. apply HP. Qed.
Lemma dspec_unit (e : RelayEvent) s (P : result string unit -> RelayState -> Log -> Prop) :
  P (Ok tt) s [e] -> dspec (mobserve (fun _ => tt) (fun _ => e)) s P.
Proof. intros HP. apply dspec_observe. by intros []. Qed.

Definition relay_part (relay : OutboundRelay) (c : eff RelayState RelayEvent string unit) : Prop := forall s,
  dspec c s (fun r s' new => r = Ok tt /\ s' = s /\ Forall (own_event (or_stream relay) (or_handle relay)) new /\
    in_step (or_stream relay) (or_handle relay) new).
Lemma host_to_overlay_part relay : relay_part relay (host_to_overlay env relay).
Proof.
  intros s. unfold host_to_overlay. apply dspec_bind, dspec_peek. intros [|]; [|by apply dspec_ret].
  apply dspec_bind, dspec_observe. intros [[|b data]| |e].
  - apply dspec_unit. log_simpl. cbn. split_and!; try done. by repeat constructor.
  - apply dspec_bind, dspec_observe. intros n. apply dspec_ret. log_simpl. cbn. rewrite !decide_True by done. split_and!; try done. by repeat constructor.
  - apply dspec_ret. log_simpl. cbn. split_and!; try done. by repeat constructor.
  - apply dspec_unit. log_simpl. cbn. split_and!; try done. by repeat constructor.
Qed.
Lemma overlay_to_host_part relay : relay_part relay (overlay_to_host env relay).
Proof.
  intros s. unfold overlay_to_host. apply dspec_bind, dspec_peek. intros [|]; [|by apply dspec_ret].
  apply dspec_bind, dspec_observe. intros [[|b data]|e].
  - apply dspec_ret. log_simpl. cbn. split_and!; try done. by repeat constructor.
  - apply dspec_bind, dspec_observe. intros [n| |e]; [apply dspec_ret|apply dspec_ret|apply dspec_unit]; log_simpl; cbn;
      rewrite !decide_True by done; (split_and!; try done; by repeat constructor).
  - apply dspec_ret. log_simpl. cbn. split_and!; try done. by repeat constructor.
Qed.
Lemma relay_data_spec relay s :
  dspec (relay_data env relay) s (fun r s' new => s' = s /\
    (exists relay', r = Ok relay' /\ or_stream relay' = or_stream relay /\ or_handle relay' = or_handle relay) /\
    Forall (own_event (or_stream relay) (or_handle relay)) new /\ in_step (or_stream relay) (or_handle relay) new).
Proof.
  unfold relay_data. apply dspec_bind, dspec_peek. intros may. set (relay' := {| or_connected := _ |}).
  apply dspec_bind. eapply dspec_mono; [apply (host_to_overlay_part relay')|]. intros r1 s1 new1 (-> & -> & Ho1 & Hs1).
  apply dspec_bind. eapply dspec_mono; [apply (overlay_to_host_part relay')|]. intros r2 s2 new2 (-> & -> & Ho2 & Hs2).
  apply dspec_ret. split_and!; [done|by exists relay'|..]; cbn; rewrite app_nil_r; [by apply Forall_app|by apply in_step_app].
Qed.

(** ** All relays *)

Definition ids (relays : list OutboundRelay) : list (N * N) := (fun r => (or_stream r, or_handle r)) <$> relays.
Definition apart (l : list (N * N)) : Prop := NoDup l.*1 /\ NoDup l.*2.
(** The events of a step: each connection of [l] is in step, and nothing else is
    touched. *)
Definition step_ok (l : list (N * N)) (new : Log) : Prop :=
  Forall (fun p => in_step p.1 p.2 new) l /\
  (forall stream, stream ∉ l.*1 -> Forall (off_stream stream) new) /\ (forall handle, handle ∉ l.*2 -> Forall (off_handle handle) new).

Lemma own_off stream handle new : Forall (own_event stream handle) new ->
  (forall i, i <> stream -> Forall (off_stream i) new) /\ (forall i, i <> handle -> Forall (off_handle i) new).
Proof. intros H. split; intros i Hi; eapply Forall_impl; try exact H; intros [] He; cbn in *; naive_solver. Qed.
Lemma step_ok_app l a b : step_ok l a -> step_ok l b -> step_ok l (a ++ b).
Proof.
  intros (H1 & H2 & H3) (K1 & K2 & K3). split_and!.
  - apply Forall_forall. intros p Hp. rewrite Forall_forall in H1, K1. apply in_step_app; auto.
  - intros i Hi. apply Forall_app. auto.
  - intros i Hi. apply Forall_app. auto.
Qed.
Lemma step_ok_mono l k new : l ⊆ k -> apart k -> step_ok l new -> step_ok k new.
Proof.
  intros Hlk [Hn1 Hn2] (H1 & H2 & H3). split_and!.
  - apply Forall_forall. intros p Hp. destruct (decide (p ∈ l)) as [Hl|Hl]; [by rewrite Forall_forall in H1; apply H1|].
    apply off_in_step; [apply H2|apply H3]; intros Hin; apply list_elem_of_fmap in Hin as (q & Hq & Hin); apply Hl.
    + rewrite (fmap_nodup_inj fst k p q); auto.
    + rewrite (fmap_nodup_inj snd k p q); auto.
  - intros i Hi. apply H2. intros Hin. apply Hi. apply list_elem_of_fmap in Hin as (q & -> & Hin). apply list_elem_of_fmap_2. auto.
  - intros i Hi. apply H3. intros Hin. apply Hi. apply list_elem_of_fmap in Hin as (q & -> & Hin). apply list_elem_of_fmap_2. auto.
Qed.

Lemma step_ok_nil l : step_ok l [].
Proof. split_and!; [apply Forall_true; intros; apply in_step_nil|by intros; constructor..]. Qed.
Lemma step_ok_quiet l new : Forall carries_none new -> step_ok l new.
Proof.
  intros H. assert (forall i, Forall (off_stream i) new /\ Forall (off_handle i) new) as Hoff.
  { intros i. split; eapply Forall_impl; try exact H; by intros []. }
  split_and!; [apply Forall_true; intros p; apply off_in_step; apply Hoff|intros i _; apply Hoff..].
Qed.

(** Packets of the stack that were not given to the tunnel yet wait in the queue. *)
Definition flow (s s' : RelayState) (new : Log) : Prop := rs_tx_queue s ++ produced new = encapsulated new ++ rs_tx_queue s'.
Lemma flow_app s1 s2 s3 a b : flow s1 s2 a -> flow s2 s3 b -> flow s1 s3 (a ++ b).
Proof. unfold flow. log_simpl. intros H1 H2. rewrite app_assoc, H1, <- app_assoc, H2. by rewrite app_assoc. Qed.
Lemma own_no_flow stream handle s new : Forall (own_event stream handle) new -> flow s s new /\ opened new = [] /\ decapsulated new = [].
Proof.
  intros H. unfold flow, produced, encapsulated. rewrite !(omap_none _ new); [cbn; rewrite app_nil_r; split_and!; [done|..]|..];
    try apply omap_none; eapply Forall_impl; try exact H; by intros [].
Qed.

Lemma relays_data_spec relays s : apart (ids relays) ->
  dspec (mmap (relay_data env) relays) s (fun r s' new => s' = s /\ (exists relays', r = Ok relays' /\ ids relays' = ids relays) /\
    step_ok (ids relays) new /\ flow s s new /\ opened new = [] /\ decapsulated new = []).
Proof.
  intros Hap. assert (forall k, apart k -> ids relays ⊆ k -> dspec (mmap (relay_data env) relays) s (fun r s' new => s' = s /\
    (exists relays', r = Ok relays' /\ ids relays' = ids relays) /\ step_ok k new /\ flow s s new /\ opened new = [] /\ decapsulated new = [])) as H;
    [|by apply H].
  clear Hap. induction relays as [|x relays IH]; intros k Hk Hsub; cbn [mmap].
  { apply dspec_ret. split_and!; [done|by exists []|apply step_ok_nil|by unfold flow; cbn; rewrite app_nil_r|done|done]. }
  apply dspec_bind. eapply dspec_mono; [apply relay_data_spec|]. intros r s1 new1 (-> & (x' & -> & Hxs & Hxh) & Hown & Hin).
  destruct (own_no_flow _ _ s _ Hown) as (Hf1 & Ho1 & Hd1). destruct (own_off _ _ _ Hown) as [Hoff1 Hoff2].
  apply dspec_bind. eapply dspec_mono; [apply (IH k Hk); set_solver|]. intros r s2 new2 (-> & (rs & -> & Hrs) & Hok & Hf2 & Ho2 & Hd2).
  apply dspec_ret. rewrite app_nil_r. split_and!; [done| | |by eapply flow_app| |].
  - exists (x' :: rs). split; [done|]. unfold ids in *. rewrite !fmap_cons. by rewrite Hrs, Hxs, Hxh.
  - apply step_ok_app; [|done]. apply (step_ok_mono [(or_stream x, or_handle x)]); [set_solver|done|]. split_and!.
    + by constructor.
    + intros i Hi. apply Hoff1. set_solver.
    + intros i Hi. apply Hoff2. set_solver.
  - log_simpl. by rewrite Ho1, Ho2.
  - log_simpl. by rewrite Hd1, Hd2.
Qed.

(** A part of a step that carries no data. *)
Definition quiet_part {A} (c : eff RelayState RelayEvent string A) (s : RelayState) : Prop :=
  dspec c s (fun r s' new => is_ok r = true /\ rs_relays s' = rs_relays s /\ Forall carries_none new /\ flow s s' new /\
    opened new = [] /\ decapsulated new = []).
Lemma send_to_quiet data s : quiet_part (send_to data) s.
Proof. apply dspec_unit. unfold flow. log_simpl. cbn. rewrite app_nil_r. split_and!; try done. by repeat constructor. Qed.
Lemma poll_quiet s : quiet_part (poll env) s.
Proof.
  unfold poll. apply dspec_bind, dspec_get, dspec_bind, dspec_get, dspec_bind, dspec_observe. intros [rx tx]. apply dspec_put.
  unfold flow. log_simpl. cbn. split_and!; try done; first [by repeat constructor|by rewrite !app_nil_r].
Qed.
Lemma send_packet_spec packet s :
  dspec (send_packet env packet) s (fun r s' new => r = Ok tt /\ s' = s /\ Forall carries_none new /\ encapsulated new = [packet] /\
    produced new = [] /\ opened new = [] /\ decapsulated new = []).
Proof.
  unfold send_packet. apply dspec_bind, dspec_observe. intros r.
  destruct r; first [apply dspec_ret|apply dspec_unit]; log_simpl; cbn; (split_and!; try done; by repeat constructor).
Qed.
Lemma send_packets_spec tx s :
  dspec (mfor tx (send_packet env)) s (fun r s' new => r = Ok tt /\ s' = s /\ Forall carries_none new /\ encapsulated new = tx /\
    produced new = [] /\ opened new = [] /\ decapsulated new = []).
Proof.
  induction tx as [|packet tx IH]; cbn [mfor]; [by apply dspec_ret|]. apply dspec_bind. eapply dspec_mono; [apply send_packet_spec|].
  intros r1 s1 new1 (-> & -> & Hc1 & He1 & Hp1 & Ho1 & Hd1). eapply dspec_mono; [apply IH|].
  intros r2 s2 new2 (-> & -> & Hc2 & He2 & Hp2 & Ho2 & Hd2). log_simpl. rewrite He1, He2, Hp1, Hp2, Ho1, Ho2, Hd1, Hd2.
  split_and!; try done. by apply Forall_app.
Qed.
Lemma drain_tx_quiet s : dspec (drain_tx env) s (fun r s' new => r = Ok tt /\ rs_relays s' = rs_relays s /\ rs_tx_queue s' = [] /\
    Forall carries_none new /\ flow s s' new /\ opened new = [] /\ decapsulated new = []).
Proof.
  unfold drain_tx. apply dspec_bind, dspec_get, dspec_bind, dspec_put. eapply dspec_mono; [apply send_packets_spec|].
  intros r s' new (-> & -> & Hc & He & Hp & Ho & Hd). split_and!; try done. unfold flow. cbn [app]. rewrite He, Hp. cbn. by rewrite !app_nil_r.
Qed.
End one.

(** ** The loop *)

(** What the tunnel and the stack document: the tunnel gives the packets it held
    back one by one, and a socket that is added gets a handle of its own. *)
Class RelayLaws (env : RelayEnv) := {
  relay_handle_new log dest port handle : rv_connect env dest port log = Ok handle -> handle ∉ (opened log).*2;
  relay_held_less log :
    match rv_decapsulate env [] log with
    | TrWriteToNetwork _ | TrWriteToTunnelV6 _ => rv_held env (log ++ [ReDecapsulate [] (rv_decapsulate env [] log)]) < rv_held env log
    | TrDone | TrErr _ | TrWriteToTunnelV4 _ => True
    end;
  relay_held_send log data : rv_held env (log ++ [ReSendTo data]) <= rv_held env log
}.

Definition from_peer (peer_endpoint : SocketAddr) : list Wakeup -> list Packet := omap (fun w =>
  match w with
  | WRecv (Ok (b :: packet, src)) => if bool_decide (src = peer_endpoint) then Some (b :: packet) else None
  | _ => None
  end).
Definition accepted : list Wakeup -> list N := omap (fun w => match w with WAccept (Some (stream, _, _)) => Some stream | _ => None end).

Section loop.
Context (env : RelayEnv) `{!RelayLaws env} (peer_endpoint : SocketAddr).

(** A part of an iteration, with the datagrams it gave to the tunnel. *)
Definition qstep (D : list Packet) (s s' : RelayState) (new : Log) : Prop :=
  rs_relays s' = rs_relays s /\ Forall carries_none new /\ flow s s' new /\ opened new = [] /\ decapsulated new = D.
Lemma qstep_app D D' s1 s2 s3 a b : qstep D s1 s2 a -> qstep D' s2 s3 b -> qstep (D ++ D') s1 s3 (a ++ b).
Proof.
  intros (H1 & H2 & H3 & H4 & H5) (K1 & K2 & K3 & K4 & K5). split_and!; [congruence|by apply Forall_app|by eapply flow_app|..]; log_simpl; [by rewrite H4, K4|by rewrite H5, K5].
Qed.
Lemma qstep_nil s : qstep [] s s [].
Proof. split_and!; try done. unfold flow. cbn. by rewrite app_nil_r. Qed.
Lemma qstep_send s data : qstep [] s s [ReSendTo data].
Proof. split_and!; try done; [by repeat constructor|]. unfold flow. cbn. by rewrite app_nil_r. Qed.
Lemma qstep_push s data : qstep [] s (push_rx data s) [].
Proof. split_and!; try done. unfold flow. cbn. by rewrite app_nil_r. Qed.
Lemma qstep_decapsulate s packet r : qstep (match packet with [] => [] | _ => [packet] end) s s [ReDecapsulate packet r].
Proof. split_and!; try done; [by repeat constructor| |by destruct packet]. unfold flow. cbn. by rewrite app_nil_r. Qed.

Lemma drain_held_spec fuel s log : rv_held env log < fuel ->
  wp (drain_held env fuel) (fun r s' log' => r = Ok tt /\ exists new, log' = log ++ new /\ qstep [] s s' new) s log.
Proof.
  revert s log. induction fuel as [|fuel IH]; intros s log Hf; [lia|]. cbn [drain_held]. apply wp_bind. unfold wp at 1. cbn.
  pose proof (relay_held_less log) as Hl. set (r := rv_decapsulate env [] log) in *. pose proof (qstep_decapsulate s [] r) as Hd. cbn in Hd.
  destruct r as [|e|data|data|data] eqn:Er.
  1, 2, 4: apply wp_ret; split; [done|by eexists].
  - apply wp_bind. unfold wp at 1. cbn. pose proof (relay_held_send (log ++ [ReDecapsulate [] (TrWriteToNetwork data)]) data) as Hs.
    eapply wp_mono; [apply IH; lia|]. intros r' s' log' (-> & new & -> & Hq). split; [done|]. eexists. split; [by rewrite <- !app_assoc|].
    eapply (qstep_app [] []); [exact Hd|]. eapply (qstep_app [] []); [apply qstep_send|done].
  - apply wp_bind, wp_put. eapply wp_mono; [apply IH; lia|]. intros r' s' log' (-> & new & -> & Hq). split; [done|].
    eexists. split; [by rewrite <- !app_assoc|]. eapply (qstep_app [] []); [exact Hd|]. by eapply (qstep_app [] [] _ _ _ []); [apply qstep_push|].
Qed.

(** A part of an iteration in which the connections of [l] may carry data. *)
Definition lstep (l : list (N * N)) (D : list Packet) (s s' : RelayState) (new : Log) : Prop :=
  step_ok l new /\ flow s s' new /\ opened new = [] /\ decapsulated new = D.
Lemma qstep_lstep l D s s' new : qstep D s s' new -> lstep l D s s' new.
Proof. intros (_ & Hc & Hf & Ho & Hd). split_and!; try done. by apply step_ok_quiet. Qed.
Lemma lstep_app l D D' s1 s2 s3 a b : lstep l D s1 s2 a -> lstep l D' s2 s3 b -> lstep l (D ++ D') s1 s3 (a ++ b).
Proof.
  intros (H1 & H2 & H3 & H4) (K1 & K2 & K3 & K4). split_and!; [by apply step_ok_app|by eapply flow_app|..]; log_simpl; [by rewrite H3, K3|by rewrite H4, K4].
Qed.

(** Polling the stack and sending what it produced. *)
Lemma poll_drain_spec s :
  dspec (_ <-! poll env ;; drain_tx env) s (fun r s' new => r = Ok tt /\ rs_tx_queue s' = [] /\ qstep [] s s' new).
Proof.
  apply dspec_bind. eapply dspec_mono; [apply poll_quiet|]. intros [[]|e] s1 new1 (Hok & Hr1 & Hc1 & Hf1 & Ho1 & Hd1); [|done].
  eapply dspec_mono; [apply drain_tx_quiet|]. intros r s2 new2 (-> & Hr2 & Ht2 & Hc2 & Hf2 & Ho2 & Hd2). split_and!; [done|done|].
  by apply (qstep_app [] [] s s1 s2).
Qed.
Lemma maybe_send_spec r s :
  dspec (match r with TrWriteToNetwork data => send_to data | TrErr _ | TrDone | TrWriteToTunnelV4 _ | TrWriteToTunnelV6 _ => mret tt end) s
    (fun res s' new => res = Ok tt /\ s' = s /\ qstep [] s s' new).
Proof. destruct r; first [apply dspec_ret|apply dspec_unit]; (split_and!; [done|done|]); first [apply qstep_nil|apply qstep_send]. Qed.

Lemma on_tick_spec s : apart (ids (rs_relays s)) ->
  dspec (on_tick env) s (fun r s' new => r = Ok tt /\ rs_tx_queue s' = [] /\ ids (rs_relays s') `sublist_of` ids (rs_relays s) /\
    lstep (ids (rs_relays s)) [] s s' new).
Proof.
  intros Hap. unfold on_tick. apply dspec_bind, dspec_observe. intros timers. apply dspec_bind. eapply dspec_mono; [apply maybe_send_spec|].
  intros r0 s0 new0 (-> & -> & Hq0). apply dspec_bind, dspec_get, dspec_bind. eapply dspec_mono; [by apply relays_data_spec|].
  intros r1 s1 new1 (-> & (relays & -> & Hids) & Hok1 & Hf1 & Ho1 & Hd1). apply dspec_bind, dspec_peek_at. intros log.
  set (kept := filter _ relays). apply dspec_bind, dspec_put. eapply dspec_mono; [apply poll_drain_spec|].
  intros r2 s2 new2 (-> & Ht & Hq). destruct Hq as (Hr2 & Hq). split_and!; [done|done| |].
  - rewrite Hr2. cbn. rewrite <- Hids. apply fmap_sublist, sublist_filter.
  - cbn [app]. change (ReTimers timers :: ?x) with ([ReTimers timers] ++ x).
    eapply (lstep_app _ [] [] _ s); [|eapply (lstep_app _ [] [] _ s); [|eapply (lstep_app _ [] [] _ s)]].
    + apply qstep_lstep. split_and!; [done|by repeat constructor| |done|done]. unfold flow. cbn. by rewrite app_nil_r.
    + by apply qstep_lstep.
    + by split_and!.
    + destruct Hq as (Hc & Hf & Ho & Hd). split_and!; [by apply step_ok_quiet|exact Hf|done|done].
Qed.

Lemma on_datagram_spec packet s log :
  wp (on_datagram env packet) (fun r s' log' => r = Ok tt /\ rs_tx_queue s' = [] /\
    exists new, log' = log ++ new /\ qstep (match packet with [] => [] | _ => [packet] end) s s' new) s log.
Proof.
  unfold on_datagram. apply wp_bind. unfold wp at 1. cbn -[drain_held]. set (r := rv_decapsulate env packet log). pose proof (qstep_decapsulate s packet r) as Hd.
  set (D := match packet with [] => _ | _ => _ end) in *.
  assert (forall c, wp c (fun res s' log' => res = Ok tt /\ exists new, log' = log ++ [ReDecapsulate packet r] ++ new /\ qstep [] s s' new)
    s (log ++ [ReDecapsulate packet r]) -> wp (_ <-! c ;; _ <-! poll env ;; drain_tx env) (fun r0 s' log' => r0 = Ok tt /\ rs_tx_queue s' = [] /\
      exists new, log' = log ++ new /\ qstep D s s' new) s (log ++ [ReDecapsulate packet r])) as Hc.
  { intros c Hc. apply wp_bind. eapply wp_mono; [apply Hc|].
    intros res s1 log1 (-> & new1 & -> & Hq1). eapply wp_mono; [apply (poll_drain_spec s1)|].
    intros res s2 log2 (new2 & -> & -> & Ht & Hq2). split_and!; [done|done|]. exists ([ReDecapsulate packet r] ++ new1 ++ new2).
    split; [by rewrite <- !app_assoc|]. rewrite <- (app_nil_r D). eapply qstep_app; [exact Hd|]. by apply (qstep_app [] [] s s1 s2). }
  apply Hc. destruct r as [|e|data|data|data].
  1, 2, 4: apply wp_ret; split; [done|exists []; split; [done|apply qstep_nil]].
  - apply wp_bind. unfold wp at 1. cbn -[drain_held]. apply wp_bind. unfold wp at 1. cbn -[drain_held].
    eapply wp_mono; [apply drain_held_spec; lia|].
    intros res s' log' (-> & new & -> & Hq). split; [done|]. eexists. split; [by rewrite <- !app_assoc|].
    eapply (qstep_app [] []); [apply qstep_send|done].
  - apply wp_put. split; [done|]. exists []. split; [done|apply qstep_push].
Qed.

(** The invariant of the loop: connections are apart, the relays are among them,
    each connection is in step, nothing else was touched, every packet of the
    stack went to the tunnel, and every datagram in the tunnel came from the
    peer. *)
Record relay_inv (ws : list Wakeup) (s : RelayState) (log : Log) : Prop := {
  ri_apart : apart (opened log);
  ri_relays : ids (rs_relays s) ⊆ opened log;
  ri_relays_apart : apart (ids (rs_relays s));
  ri_step : step_ok (opened log) log;
  ri_flow : rs_tx_queue s = [] /\ produced log = encapsulated log;
  ri_peer : decapsulated log = from_peer peer_endpoint ws;
  ri_accepted : (opened log).*1 ⊆ accepted ws
}.

Lemma relay_inv_step ws w s s' log new : relay_inv ws s log ->
  lstep (ids (rs_relays s)) (from_peer peer_endpoint [w]) s s' new -> rs_tx_queue s' = [] -> ids (rs_relays s') `sublist_of` ids (rs_relays s) ->
  relay_inv (ws ++ [w]) s' (log ++ new).
Proof.
  intros [Ha Hr Hra Hs [Ht Hp] Hd Hacc] (Hok & Hf & Ho & Hdn) Ht' Hsub.
  assert (opened (log ++ new) = opened log) as Eo by (log_simpl; by rewrite Ho, app_nil_r).
  split; rewrite ?Eo.
  - done.
  - transitivity (ids (rs_relays s)); [by apply sublist_subseteq|done].
  - destruct Hra as [H1 H2]. split; (eapply sublist_NoDup; [|by apply fmap_sublist]); done.
  - apply step_ok_app; [done|]. by apply (step_ok_mono (ids (rs_relays s))).
  - split; [done|]. unfold flow in Hf. rewrite Ht, Ht', app_nil_r in Hf. cbn in Hf. log_simpl. by rewrite Hp, Hf.
  - unfold from_peer in *. rewrite omap_app, <- Hd, <- Hdn. by log_simpl.
  - intros i Hi. unfold accepted in *. rewrite omap_app. apply elem_of_app. left. by apply Hacc.
Qed.

Lemma ids_snoc relays r : ids (relays ++ [r]) = ids relays ++ [(or_stream r, or_handle r)].
Proof. unfold ids. by rewrite fmap_app. Qed.
Lemma apart_snoc l p : apart l -> p.1 ∉ l.*1 -> p.2 ∉ l.*2 -> apart (l ++ [p]).
Proof.
  intros [H1 H2] Hs Hh. split; rewrite fmap_app; apply NoDup_app; (split_and!; [done| |apply NoDup_singleton]); intros x Hx Hp;
    apply list_elem_of_singleton in Hp as ->; done.
Qed.
(** A connection that was just opened has carried nothing. *)
Lemma step_ok_open l log p : step_ok l log -> p.1 ∉ l.*1 -> p.2 ∉ l.*2 -> step_ok (l ++ [p]) log.
Proof.
  intros (H1 & H2 & H3) Hs Hh. split_and!.
  - apply Forall_app. split; [done|]. apply Forall_singleton. apply off_in_step; auto.
  - intros i Hi. apply H2. rewrite fmap_app in Hi. set_solver.
  - intros i Hi. apply H3. rewrite fmap_app in Hi. set_solver.
Qed.
Lemma step_ok_connect l stream dest port r : step_ok l [ReConnect stream dest port r].
Proof. split_and!; [apply Forall_true; intros p; apply off_in_step|intros i _..]; by repeat constructor. Qed.

Lemma relay_inv_open ws s s' log new stream dest addr port handle :
  relay_inv ws s log -> stream ∉ accepted ws -> rv_connect env dest port log = Ok handle ->
  let relay := {| or_stream := stream; or_handle := handle; or_overlay_dest := dest; or_connected := false |} in
  qstep [] (set_relays (rs_relays s ++ [relay]) s) s' new -> rs_tx_queue s' = [] ->
  relay_inv (ws ++ [WAccept (Some (stream, dest, addr))]) s' (log ++ [ReConnect stream dest port (Ok handle)] ++ new).
Proof.
  intros [Ha Hr Hra Hs [Ht Hp] Hd Hacc] Hfresh Hc%relay_handle_new relay (Hr' & Hcn & Hf & Ho & Hdn) Ht'. cbn in Hr'.
  assert (opened (log ++ [ReConnect stream dest port (Ok handle)] ++ new) = opened log ++ [(stream, handle)]) as Eo.
  { log_simpl. rewrite Ho. cbn. done. }
  assert (decapsulated (log ++ [ReConnect stream dest port (Ok handle)] ++ new) = decapsulated log) as Ed.
  { log_simpl. rewrite Hdn. cbn. by rewrite app_nil_r. }
  assert (stream ∉ (opened log).*1) as Hst by (intros Hin; by apply Hfresh, Hacc).
  split; rewrite ?Eo, ?Hr', ?ids_snoc; cbn [or_stream or_handle relay].
  - by apply apart_snoc.
  - set_solver.
  - apply apart_snoc; [done|..]; intros Hin; apply list_elem_of_fmap in Hin as (q & Hq & Hin%Hr); [apply Hst|apply Hc]; cbn in *; subst;
      by apply list_elem_of_fmap_2.
  - apply step_ok_app; [by apply step_ok_open|]. apply step_ok_app; [apply step_ok_connect|by apply step_ok_quiet].
  - split; [done|]. unfold flow in Hf. cbn in Hf. rewrite Ht, Ht', app_nil_r in Hf. cbn in Hf. log_simpl. rewrite Hp, Hf. done.
  - rewrite Ed, Hd. unfold from_peer. rewrite omap_app. cbn. by rewrite app_nil_r.
  - rewrite fmap_app. unfold accepted in *. rewrite omap_app. cbn. set_solver.
Qed.

(** An iteration goes on and keeps the invariant. *)
Lemma relay_step_inv ws w s log : relay_inv ws s log -> NoDup (accepted (ws ++ [w])) ->
  wp (relay_step env peer_endpoint w) (fun r s' log' => r = Ok tt /\ relay_inv (ws ++ [w]) s' log') s log.
Proof.
  intros Hinv Hnd. pose proof (ri_flow _ _ _ Hinv) as [Ht _].
  assert (from_peer peer_endpoint [w] = [] -> relay_inv (ws ++ [w]) s log) as Hskip.
  { intros Hw. rewrite <- (app_nil_r log). apply (relay_inv_step ws w s s log []); [done| |done|done]. rewrite Hw. apply qstep_lstep, qstep_nil. }
  destruct w as [|[[packet src]|e]|[[[stream dest] addr]|]]; cbn [relay_step].
  - eapply wp_mono; [apply (on_tick_spec s); by apply Hinv|]. intros r s' log' (new & -> & -> & Ht' & Hsub & Hl). split; [done|].
    by apply (relay_inv_step ws WTick s).
  - unfold on_recv. case_bool_decide as Hsrc.
    + eapply wp_mono; [apply on_datagram_spec|]. intros r s' log' (-> & Ht' & new & -> & Hq). split; [done|].
      apply (relay_inv_step ws _ s); [done| |done|by rewrite (proj1 Hq)].
      apply qstep_lstep. replace (from_peer _ _) with (match packet with [] => [] | _ => [packet] end); [done|].
      destruct packet; cbn; [done|]. by rewrite bool_decide_eq_true_2.
    + apply wp_ret. split; [done|]. apply Hskip. destruct packet; cbn; [done|]. by rewrite bool_decide_eq_false_2.
  - apply wp_ret. split; [done|]. by apply Hskip.
  - unfold on_accept. destruct (sa_ip dest) eqn:Eip; [apply wp_ret; split; [done|]; by apply Hskip|].
    apply wp_bind, wp_get, wp_bind. unfold wp at 1. cbn -[poll drain_tx local_port].
    set (port := local_port (rs_relays s)). destruct (rv_connect env dest port log) as [handle|e] eqn:Ec.
    + apply wp_bind, wp_put. eapply wp_mono; [apply poll_drain_spec|]. intros r s' log' (new & -> & -> & Ht' & Hq). split; [done|].
      rewrite <- app_assoc. eapply relay_inv_open; try done.
      unfold accepted in Hnd. rewrite omap_app in Hnd. cbn in Hnd. apply NoDup_app in Hnd as (_ & Hno & _). intros Hin. apply (Hno stream Hin). by left.
    + apply wp_ret. split; [done|]. apply (relay_inv_step ws _ s); [done| |done|done]. split_and!; [|unfold flow; cbn; by rewrite app_nil_r|done|done].
      apply step_ok_connect.
  - apply wp_ret. split; [done|]. by apply Hskip.
Qed.

Lemma relay_run_inv ws : NoDup (accepted ws) ->
  wp (bridge_event_loop env peer_endpoint ws) (fun r s log => r = Ok tt /\ relay_inv ws s log) relay_init [].
Proof.
  intros Hnd. unfold bridge_event_loop. apply wp_bind. unfold wp at 1. cbn -[mfor]. set (r := rv_handshake env []).
  assert (forall log, Forall carries_none log -> opened log = [] -> decapsulated log = [] -> produced log = encapsulated log ->
    wp (mfor ws (relay_step env peer_endpoint)) (fun r s log => r = Ok tt /\ relay_inv ws s log) relay_init log) as Hloop.
  { intros log Hc Ho Hd Hp. apply (wp_for (fun dn s1 log1 => relay_inv dn s1 log1)).
    - split; rewrite ?Ho; try done; [split; constructor|split; constructor|by apply step_ok_quiet].
    - intros dn w rest s1 log1 E Hinv. eapply wp_mono; [apply relay_step_inv; [done|]|].
      + rewrite E in Hnd. replace (dn ++ w :: rest) with ((dn ++ [w]) ++ rest) in Hnd by by rewrite <- app_assoc.
        unfold accepted in Hnd. rewrite (omap_app _ (dn ++ [w])) in Hnd. by apply NoDup_app in Hnd as [? _].
      + by intros r1 s2 log2 [-> H2].
    - done. }
  apply wp_bind. destruct r; first [apply wp_ret|unfold wp at 1; cbn -[mfor]]; apply Hloop; try done; by repeat constructor.
Qed.
End loop.

(** The bytes that the socket took, and those that the host's stream took. *)
Definition delivered (handle : N) (log : Log) : list N := concat (omap (fun e =>
  match e with ReSendSlice i data (Ok n) => if decide (i = handle) then Some (take n data) else None | _ => None end) log).
Definition returned (stream : N) (log : Log) : list N := concat (omap (fun e =>
  match e with ReWrite i data (HostOk n) => if decide (i = stream) then Some (take n data) else None | _ => None end) log).
Definition sends_whole (handle : N) (log : Log) : Prop :=
  Forall (fun e => match e with ReSendSlice i data r => i = handle -> r = Ok (length data) | _ => True end) log.
Definition writes_whole (stream : N) (log : Log) : Prop :=
  Forall (fun e => match e with ReWrite i data r => i = stream -> r = HostOk (length data) | _ => True end) log.
Lemma delivered_whole handle log : sends_whole handle log -> delivered handle log = concat (sends handle log).
Proof.
  unfold delivered. induction 1 as [|e log He _ IH]; [done|]. destruct e as [| | | | | | |i data r| | | | |]; try exact IH. cbn.
  destruct (decide (i = handle)) as [->|Hne].
  - rewrite (He eq_refl), firstn_all. cbn. by rewrite IH.
  - destruct r; exact IH.
Qed.
Lemma returned_whole stream log : writes_whole stream log -> returned stream log = concat (writes stream log).
Proof.
  unfold returned. induction 1 as [|e log He _ IH]; [done|]. destruct e as [| | | | | |i data r| | | | | |]; try exact IH. cbn.
  destruct (decide (i = stream)) as [->|Hne].
  - rewrite (He eq_refl), firstn_all. cbn. by rewrite IH.
  - destruct r; exact IH.
Qed.

(** C24: the relay never stops by itself and keeps connections apart.  Over any
    wake-ups, each stream of the host belongs to one socket of the overlay and
    the other way round; what is read from one is offered to the other, chunk by
    chunk in order and nothing else, so when the socket (or the stream) takes
    every chunk whole, the bytes that arrive are the bytes read.  Every packet
    that the TCP stack produces is given to the tunnel in order, and the tunnel
    is given exactly the datagrams that came from the peer. *)
Theorem relay_streams_exact env `{!RelayLaws env} peer_endpoint ws : NoDup (accepted ws) ->
  let '(r, (s, log)) := bridge_event_loop env peer_endpoint ws (relay_init, []) in
  r = Ok tt /\ apart (opened log) /\
  (forall stream handle, (stream, handle) ∈ opened log ->
     sends handle log = reads stream log /\ writes stream log = recvs handle log /\
     (sends_whole handle log -> delivered handle log = concat (reads stream log)) /\
     (writes_whole stream log -> returned stream log = concat (recvs handle log))) /\
  produced log = encapsulated log /\ decapsulated log = from_peer peer_endpoint ws.
Proof.
  intros Hnd. pose proof (relay_run_inv env peer_endpoint ws Hnd) as Hw. unfold wp in Hw.
  destruct (bridge_event_loop env peer_endpoint ws (relay_init, [])) as [r [s log]]. destruct Hw as [-> [Ha _ _ (Hs & _) [_ Hp] Hd _]].
  split_and!; try done. intros stream handle Hin. rewrite Forall_forall in Hs. destruct (Hs _ Hin) as [H1 H2]. cbn in H1, H2.
  split_and!; [done|done|..]; intros Hwh; [rewrite delivered_whole by done|rewrite returned_whole by done]; by f_equal.
Qed.

(** ** Runs *)

Definition closed (handle : N) (log : Log) : bool := existsb (fun e => match e with ReClose i => N.eqb i handle | _ => false end) log.
(** A stack whose sockets take at most [room] bytes at a time. *)
Definition sample_relay (room : nat) (eof : N) : RelayEnv := {|
  rv_handshake := fun _ => TrWriteToNetwork [1%N]; rv_timers := fun _ => TrDone;
  rv_encapsulate := fun packet _ => TrWriteToNetwork packet;
  rv_decapsulate := fun packet _ => match packet with [] => TrDone | _ => TrWriteToTunnelV6 packet end;
  rv_held := fun _ => 0;
  rv_read := fun stream log => if (stream =? eof)%N then HostOk []
                               else match reads stream log with [] => HostOk [1; 2; 3; 4]%N | _ => HostWouldBlock end;
  rv_write := fun _ data _ => HostOk (length data);
  rv_may_send := fun h log => negb (closed h log); rv_can_send := fun h log => negb (closed h log);
  rv_may_recv := fun h log => negb (closed h log); rv_can_recv := fun _ _ => false; rv_is_open := fun h log => negb (closed h log);
  rv_send_slice := fun _ data _ => Ok (Nat.min room (length data)); rv_recv_slice := fun _ _ => Ok [];
  rv_poll := fun rx _ => ([], [[9%N]]); rv_connect := fun _ _ log => Ok (foldr N.max 0%N ((N.succ) <$> (opened log).*2)) |}.
#[export] Instance sample_relay_laws room eof : RelayLaws (sample_relay room eof).
Proof.
  split; [|done|done]. intros log dest port handle [=<-]. cbn. generalize ((opened log).*2). intros l.
  assert (forall x, x ∈ l -> (x < foldr N.max 0 (N.succ <$> l))%N) as H; [|intros Hin%H; lia].
  induction l as [|y l IH]; intros x; [by intros Hx%elem_of_nil|]. intros [->|Hx]%elem_of_cons; cbn; [lia|]. specialize (IH x Hx). lia.
Qed.
Definition sample_dest : SocketAddr := {| sa_ip := V6 (replicate 16 1%N); sa_port := 51002%N |}.
Definition sample_peer : SocketAddr := {| sa_ip := V4 2130706433%N; sa_port := 51820%N |}.
Definition accept (stream : N) : Wakeup := WAccept (Some (stream, sample_dest, sample_peer)).

Lemma relay_streams_exact_witness :
  let '(_, (_, log)) := bridge_event_loop (sample_relay 4096 99) sample_peer [accept 7; WTick; WRecv (Ok ([5%N], sample_dest)); WTick] (relay_init, []) in
  delivered 0 log = [1; 2; 3; 4]%N /\ decapsulated log = [].
Proof.
  pose proof (relay_streams_exact (sample_relay 4096 99) sample_peer [accept 7; WTick; WRecv (Ok ([5%N], sample_dest)); WTick]) as H.
  specialize (H (NoDup_singleton 7%N)). set (run := bridge_event_loop _ _ _ _) in *.
  assert (opened run.2.2 = [(7%N, 0%N)] /\ sends_whole 0 run.2.2 /\ concat (reads 7 run.2.2) = [1; 2; 3; 4]%N) as (Ho & Hw & Hr).
  { split_and!; [vm_compute; reflexivity| |vm_compute; reflexivity]. vm_compute. by repeat constructor. }
  clearbody run. destruct run as [r [s log]]. cbn in Ho, Hw, Hr. destruct H as (_ & _ & Hs & _ & Hd).
  destruct (Hs 7%N 0%N) as (_ & _ & Hdel & _); [rewrite Ho; by left|]. rewrite Hdel, Hr, Hd by done. split; [done|]. vm_compute. reflexivity.
Defined.

(** A socket with room for a part of what was read gets that part; the rest is
    gone, although the socket takes more later. *)
Example relay_drops_bytes :
  let '(_, (_, log)) := bridge_event_loop (sample_relay 3 99) sample_peer [accept 7; WTick; WTick; WTick] (relay_init, []) in
  concat (reads 7 log) = [1; 2; 3; 4]%N /\ delivered 0 log = [1; 2; 3]%N.
Proof. vm_compute. done. Qed.
(** After an earlier connection ended, a new one gets the local port of one that
    is still open, to the same destination. *)
Example relay_port_reused :
  let '(_, (s, log)) := bridge_event_loop (sample_relay 4096 7) sample_peer [accept 7; accept 8; WTick; accept 9] (relay_init, []) in
  omap (fun e => match e with ReConnect stream dest port (Ok _) => Some (stream, dest, port) | _ => None end) log =
    [(7, sample_dest, 49152); (8, sample_dest, 49153); (9, sample_dest, 49153)]%N /\
  or_stream <$> rs_relays s = [8; 9]%N.
Proof. vm_compute. done. Qed.
