(* ===== verification/Api.v ===== *)
(** * The daemon's requests and responses

    [ployz-api/src/lib.rs], and the dispatch of requests to the shared and the
    exclusive handlers ([daemon/handlers/mod.rs]). *)

From S2P Require Import Prelude Order Text Types.
Local Open Scope string_scope.

Record DeployOptions := { do_project_dir : option string; do_env_files : list string; do_prune : bool }.

Inductive InstallRuntimeTarget := InstallDocker | InstallHost.
Inductive InstallServiceMode := InstallUser | InstallSystem.
Inductive InstallSource := InstallRelease | InstallGit.
Record MachineInstallOptions := {
  mi_runtime_target : option InstallRuntimeTarget; mi_service_mode : option InstallServiceMode;
  mi_source : option InstallSource; mi_version : option string; mi_git_url : option string; mi_git_ref : option string
}.
Definition default_install : MachineInstallOptions := {|
  mi_runtime_target := None; mi_service_mode := None; mi_source := None; mi_version := None; mi_git_url := None;
  mi_git_ref := None |}.
Record MachineAddOptions := { ma_ssh_identity_private_key : option string; ma_install : option MachineInstallOptions }.

Inductive DebugTickTask := TickPeerSync | TickHeartbeat | TickHeal | TickAll.
Inductive MeshReadyOutput := ReadyText | ReadyJson.
Inductive BootstrapWaitMode := BootstrapWait | BootstrapSkip.
Inductive MachineRemoveMode := DisabledOnly | Force.
#[export] Instance MachineRemoveMode_eq_dec : EqDecision MachineRemoveMode.
Proof. solve_decision. Defined.

Inductive DaemonRequest :=
| RqStatus
| RqDoctor
| RqDebugTick (task : DebugTickTask) (repeat : N)
| RqMeshList
| RqMeshStatus (network : string)
| RqMeshJoin (token : string)
| RqMeshReady (output : MeshReadyOutput)
| RqMeshCreate (network : string)
| RqMeshInit (network : string)
| RqMeshUp (network : string) (bootstrap_wait : BootstrapWaitMode)
| RqMeshDown
| RqMeshDestroy (network : string)
| RqMachineList
| RqMachineInit (target network : string) (install : MachineInstallOptions)
| RqMachineAdd (targets : list string) (options : MachineAddOptions)
| RqMachineRemove (id : string) (mode : MachineRemoveMode)
| RqMachineOperationList
| RqMachineOperationGet (id : string)
| RqMachineInviteCreate (ttl_secs : N)
| RqMachineInviteImport (token : string)
| RqMeshSelfRecord
| RqMeshAccept (response : string)
| RqDeployPreview (manifest_json : string) (options : DeployOptions)
| RqDeployApply (manifest_json : string) (options : DeployOptions)
| RqDeployExport (namespace : string).

Record MachineListRow := {
  lr_id : string; lr_status : string; lr_participation : string; lr_liveness : string; lr_overlay_ip : string;
  lr_subnet : option string; lr_last_heartbeat : N; lr_heartbeat_display : string; lr_created_at : N;
  lr_created_display : string
}.
Record MachineAwaitingSelfPublication := { aw_target : string; aw_joiner_id : string }.
Record MachineAddPayload := {
  ap_warnings : list string; ap_awaiting_self_publication : list MachineAwaitingSelfPublication;
  ap_failed_preflight : list string; ap_failed_join : list string; ap_failed_self_record : list string;
  ap_failed_ready : list string
}.
Record MeshReadyPayload := {
  rp_ready : bool; rp_phase : string; rp_store_healthy : bool; rp_sync_connected : bool; rp_heartbeat_started : bool
}.
Record MachineOperationInfo := {
  oi_id : string; oi_kind : string; oi_network_name : option string; oi_targets : list string; oi_status : string;
  oi_stage : string; oi_started_at : N; oi_updated_at : N; oi_last_error : option string;
  oi_machine_id : option MachineId; oi_invite_id : option string; oi_allocated_subnet : option string
}.
Inductive DaemonPayload :=
| PlMachineList (rows : list MachineListRow)
| PlMachineAdd (payload : MachineAddPayload)
| PlMachineRemove (id : string) (mode : MachineRemoveMode)
| PlMeshReady (payload : MeshReadyPayload)
| PlMeshSelfRecord (encoded : string) (record : MachineRecord)
| PlMachineOperationList (operations : list MachineOperationInfo)
| PlMachineOperation (operation : MachineOperationInfo).

Record DaemonResponse := { rs_ok : bool; rs_code : string; rs_message : string; rs_payload : option DaemonPayload }.

(** [DaemonState::ok], [ok_with_payload], [err], [err_with_payload]. *)
Definition ok_with_payload (message : string) (payload : option DaemonPayload) : DaemonResponse := {|
  rs_ok := true; rs_code := "OK"; rs_message := message; rs_payload := payload |}.
Definition ok_response (message : string) : DaemonResponse := ok_with_payload message None.
Definition err_with_payload (code message : string) (payload : option DaemonPayload) : DaemonResponse := {|
  rs_ok := false; rs_code := code; rs_message := message; rs_payload := payload |}.
Definition err_response (code message : string) : DaemonResponse := err_with_payload code message None.

Inductive RequestLane := Shared | Exclusive.
Definition request_lane (req : DaemonRequest) : RequestLane :=
  match req with
  | RqDebugTick _ _ | RqMeshJoin _ | RqMeshInit _ | RqMeshUp _ _ | RqMeshDown | RqMeshDestroy _ => Exclusive
  | RqStatus | RqDoctor | RqDeployPreview _ _ | RqDeployApply _ _ | RqDeployExport _ | RqMeshList | RqMeshStatus _
  | RqMeshReady _ | RqMeshCreate _ | RqMachineList | RqMachineInit _ _ _ | RqMachineAdd _ _ | RqMachineRemove _ _
  | RqMachineOperationList | RqMachineOperationGet _ | RqMachineInviteCreate _ | RqMachineInviteImport _
  | RqMeshSelfRecord | RqMeshAccept _ => Shared
  end.
