(* ===== verification/Daemon.v ===== *)
(** * The daemon: starting and stopping a network

    [ployzd/src/daemon]: the daemon's state ([mod.rs]), the start of a network as a
    transaction over its components ([setup.rs]), and the handlers of the mesh and
    invite requests ([handlers/mesh.rs], [handlers/invite.rs]).  The mesh
    ([Mesh]), the stores and the remote control listener answer through the
    environment [DaemonEnv]; every call is logged with its answer.  The gateway
    and the DNS server are the services of [Services], files those of [Files]. *)

From S2P Require Import Prelude Order Effect Text Types Addr RefCodec Spec Base64 Files Invite Ipam Mesh Container.
From S2P Require Import Services Api.
Local Open Scope string_scope.
Local Open Scope eff_scope.

(** ** Runtime profile ([runtime_profile.rs]) *)

Inductive RuntimeTarget := TargetDocker | TargetHost.
Inductive ServiceMode := ModeUser | ModeSystem.
Inductive ExecutionBackend := BackendMemory | BackendDocker | BackendHost.
Inductive ControlPlaneBinding := BindLoopback | BindOverlay.
#[export] Instance RuntimeTarget_eq_dec : EqDecision RuntimeTarget.
Proof. solve_decision. Defined.
#[export] Instance ExecutionBackend_eq_dec : EqDecision ExecutionBackend.
Proof. solve_decision. Defined.

(** The built-in images that are used here. *)
Record BuiltInImages := { bi_networking : string; bi_corrosion : string; bi_dns : string; bi_gateway : string }.
Record RuntimeProfile := {
  pf_execution_backend : ExecutionBackend; pf_runtime_target : RuntimeTarget; pf_service_mode : ServiceMode;
  pf_control_plane_binding : ControlPlaneBinding; pf_sidecar_supervision : option ServiceSupervision;
  pf_built_in_images : BuiltInImages
}.
Definition from_runtime (target : RuntimeTarget) (mode : ServiceMode) (images : BuiltInImages) : RuntimeProfile :=
  match target with
  | TargetDocker => {|
      pf_execution_backend := BackendDocker; pf_runtime_target := target; pf_service_mode := mode;
      pf_control_plane_binding := BindLoopback; pf_sidecar_supervision := Some DockerContainer;
      pf_built_in_images := images |}
  | TargetHost => {|
      pf_execution_backend := BackendHost; pf_runtime_target := target; pf_service_mode := mode;
      pf_control_plane_binding := BindOverlay;
      pf_sidecar_supervision := Some (match mode with ModeUser => ChildProcess | ModeSystem => Systemd end);
      pf_built_in_images := images |}
  end.
Definition is_memory_test (self : RuntimeProfile) : bool := bool_decide (pf_execution_backend self = BackendMemory).
Definition profile_overlay_network_name (self : RuntimeProfile) (network_name : string) : option string :=
  if is_memory_test self then None else Some ("ployz-" +:+ network_name).

Definition remote_control_bind_addr (self : RuntimeProfile) (remote_control_port : N) (overlay_ip : OverlayIp) : SocketAddr :=
  match pf_control_plane_binding self with
  | BindLoopback => {| sa_ip := V4 2130706433; sa_port := remote_control_port |}
  | BindOverlay => {| sa_ip := V6 overlay_ip; sa_port := remote_control_port |}
  end.

(** ** State ([mod.rs]) *)

(** A running mesh and its remote control listener are known by the numbers
    the environment gave them; [None] is the handle that does nothing. *)
Record ActiveMesh := {
  am_config : NetworkConfig; am_mesh : N; am_remote_control : option N; am_gateway : option SidecarHandle;
  am_dns : option SidecarHandle
}.
Record DaemonState := {
  ds_data_dir : PathBuf; ds_identity : Identity; ds_runtime_target : RuntimeTarget; ds_profile : RuntimeProfile;
  ds_cluster_cidr : string; ds_subnet_prefix_len : N; ds_remote_control_port : N; ds_gateway_listen_addr : string;
  ds_gateway_threads : N; ds_active : option ActiveMesh; ds_fs : Fs
}.
Definition set_active (a : option ActiveMesh) (s : DaemonState) : DaemonState := {|
  ds_data_dir := ds_data_dir s; ds_identity := ds_identity s; ds_runtime_target := ds_runtime_target s;
  ds_profile := ds_profile s; ds_cluster_cidr := ds_cluster_cidr s; ds_subnet_prefix_len := ds_subnet_prefix_len s;
  ds_remote_control_port := ds_remote_control_port s; ds_gateway_listen_addr := ds_gateway_listen_addr s;
  ds_gateway_threads := ds_gateway_threads s; ds_active := a; ds_fs := ds_fs s |}.
Definition set_fs (fs : Fs) (s : DaemonState) : DaemonState := {|
  ds_data_dir := ds_data_dir s; ds_identity := ds_identity s; ds_runtime_target := ds_runtime_target s;
  ds_profile := ds_profile s; ds_cluster_cidr := ds_cluster_cidr s; ds_subnet_prefix_len := ds_subnet_prefix_len s;
  ds_remote_control_port := ds_remote_control_port s; ds_gateway_listen_addr := ds_gateway_listen_addr s;
  ds_gateway_threads := ds_gateway_threads s; ds_active := ds_active s; ds_fs := fs |}.
#[export] Instance daemon_files : HasFiles DaemonState := {| get_files := ds_fs; set_files := set_fs |}.

(** ** Errors and plans ([setup.rs]) *)

Inductive StartMeshError :=
| BootstrapResolve (e : string)
| GatewayListenAddr (e : string)
| NetworkDriver (e : string)
| MeshUp (e : string)
| RemoteControl (bind : SocketAddr) (error : string)
| GatewayStart (e : string)
| DnsStart (e : string)
| ActiveMarkerPersist (e : string).
Definition start_error_to_string (e : StartMeshError) : string :=
  match e with
  | BootstrapResolve e => "bootstrap resolve failed: " +:+ e
  | GatewayListenAddr e => "invalid gateway listen addr '" +:+ e +:+ "'"
  | NetworkDriver e => "network driver failed: " +:+ e
  | MeshUp e => "mesh up failed: " +:+ e
  | RemoteControl bind error => "remote control start failed on " +:+ socket_addr_to_string bind +:+ ": " +:+ error
  | GatewayStart e => "gateway start failed: " +:+ e
  | DnsStart e => "dns start failed: " +:+ e
  | ActiveMarkerPersist e => "active marker persist failed: " +:+ e
  end.

Record StartPlan := {
  sp_network_dir : PathBuf; sp_bootstrap : option BootstrapInfo; sp_bootstrap_addrs : list string; sp_gateway_port : N;
  sp_remote_control_bind_addr : SocketAddr; sp_gateway_config : GatewayConfig; sp_dns_config : DnsConfig;
  sp_overlay_network_name : option string
}.
Record MeshStartTx := {
  tx_config : NetworkConfig; tx_mesh : option N; tx_store : bool; tx_remote_control : option N;
  tx_gateway : option SidecarHandle; tx_dns : option SidecarHandle
}.
Definition tx_new (config : NetworkConfig) : MeshStartTx := {|
  tx_config := config; tx_mesh := None; tx_store := false; tx_remote_control := None; tx_gateway := None; tx_dns := None |}.

Definition DEFAULT_GOSSIP_PORT : N := 51001.
Definition parse_u16 (s : string) : option N := n ← parse_u64 s; if (n <=? 65535)%N then Some n else None.
Definition gateway_port (gateway_listen_addr : string) : result StartMeshError N :=
  match rsplit_once ":" gateway_listen_addr with
  | None => Err (GatewayListenAddr gateway_listen_addr)
  | Some (_, port) => ok_or (parse_u16 port) (GatewayListenAddr gateway_listen_addr)
  end.
Definition dns_bridge_listen_addr (self : DaemonState) : option string :=
  if decide (ds_runtime_target self = TargetDocker) then Some "0.0.0.0:53" else None.

(** ** The environment *)

Inductive DaemonEvent :=
| DeService (e : ServiceEvent)
| DeNow
| DeRandom
| DeBootstrapAddrs (r : result string (list string))                (* [bootstrap_addrs] of the state on disk *)
| DeComponents (config : NetworkConfig) (bootstrap_addrs : list string) (r : result string unit)
| DeSeedRecords (r : result string (list MachineRecord))            (* [seed_machine_records] *)
| DeEndpoints (r : result string (list string))                     (* [detect_endpoints] *)
| DeMeshUp (seed_records : list MachineRecord) (allow_disconnected : bool) (r : result string N)
| DeMeshDetach (mesh : N) (r : result string unit)
| DeMeshDestroy (mesh : N) (r : result string unit)
| DeMeshUpdateSelf (mesh : N) (overlay_ip : OverlayIp) (subnet : Ipv4Net) (r : result string unit)
| DeMeshRestart (mesh : N) (r : result string unit)                 (* [restart_runtime_for_subnet_change] *)
| DeReadyStatus (r : result string MeshReadyStatus)
| DeRemoteStart (bind : SocketAddr) (r : result string N)
| DeRemoteStop (id : N) (r : result string unit)
| DeListMachines (r : result string (list MachineRecord))
| DeCreateInvite (invite : InviteRecord) (r : result string (result Error unit))
| DePeerSync (r : result string bool)                               (* whether the task runs *)
| DeUpsertTransient (record : MachineRecord) (r : result string unit).
#[export] Instance daemon_services : HasServices DaemonEvent := {| service_event := DeService |}.

Abbreviation Answer A := (list DaemonEvent -> result string A) (only parsing).
Record DaemonEnv := {
  dv_services : ServiceEnv DaemonEvent;
  dv_now : list DaemonEvent -> N;
  dv_random_bytes : list DaemonEvent -> list N;
  dv_random_id : list DaemonEvent -> string;
  dv_bootstrap_addrs : Answer (list string);
  dv_components : Answer unit;
  dv_seed_records : Answer (list MachineRecord);
  dv_endpoints : Answer (list string);
  dv_mesh_up : Answer N;
  dv_mesh_detach : Answer unit;
  dv_mesh_destroy : Answer unit;
  dv_mesh_update_self : Answer unit;
  dv_mesh_restart : Answer unit;
  dv_ready_status : Answer MeshReadyStatus;
  dv_remote_start : Answer N;
  dv_remote_stop : Answer unit;
  dv_list_machines : Answer (list MachineRecord);
  dv_create_invite : Answer (result Error unit);
  dv_peer_sync : Answer bool;
  dv_upsert_transient : Answer unit
}.

Section daemon.
Context `{Keys} `{Base64} `{Build} `{Ipnet} `{RecordCodec InviteClaims} `{RecordCodec NetworkConfig}
  `{RecordCodec (list BootstrapPeerRecord)} `{RecordCodec JoinResponse} `{RecordCodec MeshReadyPayload}.
Context (env : DaemonEnv).
Abbreviation D A := (eff DaemonState DaemonEvent string A) (only parsing).
Abbreviation DX A := (eff DaemonState DaemonEvent StartMeshError A) (only parsing).

Definition now_unix_secs : D N := mcall (fun log => Ok (dv_now env log)) DeNow.
Definition on_fs {E A} (c : fs_eff E A) : eff DaemonState DaemonEvent E A := fun '(s, log) =>
  let '(r, fs) := c (ds_fs s) in (r, (set_fs fs s, log)).

(** ** Starting ([setup.rs]) *)

Definition write_active_marker (network : string) : D unit :=
  data_dir <-! mget ds_data_dir ;;
  _ <-! on_fs (create_dir_all data_dir) ;;
  on_fs (write_file (active_marker_path data_dir) network).
Definition clear_active_marker : D unit :=
  data_dir <-! mget ds_data_dir ;;
  _ <-! mtry (on_fs (remove_file (active_marker_path data_dir))) ;;
  mret tt.

Definition plan_mesh_start (net_config : NetworkConfig) (bootstrap : option BootstrapInfo) : DX StartPlan :=
  s <-! mget id ;;
  fallback_bootstrap_addrs <-! mmap_err BootstrapResolve (mask (dv_bootstrap_addrs env) DeBootstrapAddrs) ;;
  let bootstrap_addrs := resolve_bootstrap_addrs bootstrap DEFAULT_GOSSIP_PORT fallback_bootstrap_addrs in
  gateway_port <-! mlift (gateway_port (ds_gateway_listen_addr s)) ;;
  mret {| sp_network_dir := network_dir (ds_data_dir s) (nc_name net_config); sp_bootstrap := bootstrap;
          sp_bootstrap_addrs := bootstrap_addrs; sp_gateway_port := gateway_port;
          sp_remote_control_bind_addr :=
            remote_control_bind_addr (ds_profile s) (ds_remote_control_port s) (nc_overlay_ip net_config);
          sp_gateway_config :=
            gateway_for_network (ds_data_dir s) (nc_name net_config) (ds_gateway_listen_addr s) (ds_gateway_threads s);
          sp_dns_config :=
            dns_for_network (ds_data_dir s) (nc_name net_config) (nc_overlay_ip net_config) (dns_bridge_listen_addr s);
          sp_overlay_network_name := profile_overlay_network_name (ds_profile s) (nc_name net_config) |}.

Definition build_mesh (tx : MeshStartTx) (plan : StartPlan) (allow_disconnected : bool) : DX MeshStartTx :=
  s <-! mget id ;;
  _ <-! mmap_err NetworkDriver
          (mask (dv_components env) (DeComponents (tx_config tx) (sp_bootstrap_addrs plan))) ;;
  db_records <-! mtry (mmap_err NetworkDriver (mask (dv_seed_records env) DeSeedRecords)) ;;
  self_endpoints <-! mmap_err NetworkDriver (mask (dv_endpoints env) DeEndpoints) ;;
  seed_records <-! (fun '(st, log) =>
    let '(records, fs) := build_seed_records (sp_network_dir plan) (ds_identity s) (tx_config tx) (sp_bootstrap plan)
                            self_endpoints (ok_list db_records) (ds_fs st) in
    (Ok records, (set_fs fs st, log))) ;;
  mesh <-! mmap_err MeshUp (mask (dv_mesh_up env) (DeMeshUp seed_records allow_disconnected)) ;;
  mret {| tx_config := tx_config tx; tx_mesh := Some mesh; tx_store := true; tx_remote_control := tx_remote_control tx;
          tx_gateway := tx_gateway tx; tx_dns := tx_dns tx |}.

(** [RuntimeProfile::start_remote_control]. *)
Definition profile_start_remote_control (profile : RuntimeProfile) (bind : SocketAddr) : D (option N) :=
  if is_memory_test profile then mret None
  else id <-! mask (dv_remote_start env) (DeRemoteStart bind) ;; mret (Some id).
Definition start_remote_control (plan : StartPlan) (tx : MeshStartTx) : DX MeshStartTx :=
  match tx_mesh tx with
  | None => mfail (MeshUp "startup transaction missing mesh before remote control start")
  | Some _ =>
      if tx_store tx then
        profile <-! mget ds_profile ;;
        handle <-! mmap_err (RemoteControl (sp_remote_control_bind_addr plan))
                     (profile_start_remote_control profile (sp_remote_control_bind_addr plan)) ;;
        mret {| tx_config := tx_config tx; tx_mesh := tx_mesh tx; tx_store := tx_store tx; tx_remote_control := handle;
                tx_gateway := tx_gateway tx; tx_dns := tx_dns tx |}
      else mfail (MeshUp "startup transaction missing store before remote control start")
  end.
Definition start_gateway (plan : StartPlan) (tx : MeshStartTx) : DX MeshStartTx :=
  profile <-! mget ds_profile ;;
  handle <-! mmap_err GatewayStart
    (start_managed_gateway (dv_services env) (pf_sidecar_supervision profile) (sp_gateway_config plan)
       (bi_gateway (pf_built_in_images profile))) ;;
  mret {| tx_config := tx_config tx; tx_mesh := tx_mesh tx; tx_store := tx_store tx;
          tx_remote_control := tx_remote_control tx; tx_gateway := handle; tx_dns := tx_dns tx |}.
Definition start_dns (plan : StartPlan) (tx : MeshStartTx) : DX MeshStartTx :=
  profile <-! mget ds_profile ;;
  handle <-! mmap_err DnsStart
    (start_managed_dns (dv_services env) (pf_sidecar_supervision profile) (sp_dns_config plan)
       (bi_dns (pf_built_in_images profile))) ;;
  mret {| tx_config := tx_config tx; tx_mesh := tx_mesh tx; tx_store := tx_store tx;
          tx_remote_control := tx_remote_control tx; tx_gateway := tx_gateway tx; tx_dns := handle |}.
Definition publish_active (tx : MeshStartTx) : DX MeshStartTx :=
  _ <-! mmap_err ActiveMarkerPersist (write_active_marker (nc_name (tx_config tx))) ;;
  match tx_mesh tx with
  | None => mfail (MeshUp "startup transaction missing mesh at commit")
  | Some mesh =>
      if tx_store tx then
        _ <-! mput (set_active (Some {| am_config := tx_config tx; am_mesh := mesh;
                                        am_remote_control := tx_remote_control tx; am_gateway := tx_gateway tx;
                                        am_dns := tx_dns tx |})) ;;
        mret (tx_new (tx_config tx))
      else mfail (MeshUp "startup transaction missing store at commit")
  end.

(** [RuntimeHandle::shutdown] of the three kinds of handles. *)
Definition dns_shutdown (h : option SidecarHandle) : D unit := managed_shutdown (dv_services env) dns_process_error h.
Definition gateway_shutdown (h : option SidecarHandle) : D unit := managed_shutdown (dv_services env) gateway_process_error h.
Definition remote_shutdown (h : option N) : D unit :=
  match h with None => mret tt | Some id => mask (dv_remote_stop env) (DeRemoteStop id) end.
Definition mesh_detach (mesh : N) : D unit := mask (dv_mesh_detach env) (DeMeshDetach mesh).
Definition mesh_destroy (mesh : N) : D unit := mask (dv_mesh_destroy env) (DeMeshDestroy mesh).
Definition rollback_startup (tx : MeshStartTx) : DX unit :=
  _ <-! ignore (dns_shutdown (tx_dns tx)) ;;
  _ <-! ignore (gateway_shutdown (tx_gateway tx)) ;;
  _ <-! ignore (remote_shutdown (tx_remote_control tx)) ;;
  match tx_mesh tx with Some mesh => ignore (mesh_detach mesh) | None => mret tt end.

(** A step of the transaction: its failure rolls back what was started before. *)
Definition or_rollback (tx : MeshStartTx) (step : MeshStartTx -> DX MeshStartTx) : DX MeshStartTx :=
  r <-! mtry (step tx) ;;
  match r with Ok tx => mret tx | Err error => _ <-! rollback_startup tx ;; mfail error end.

Definition start_mesh (net_config : NetworkConfig) (bootstrap : option BootstrapInfo) (allow_disconnected : bool)
    : DX string :=
  plan <-! plan_mesh_start net_config bootstrap ;;
  tx <-! build_mesh (tx_new net_config) plan allow_disconnected ;;
  tx <-! or_rollback tx (start_remote_control plan) ;;
  tx <-! or_rollback tx (start_gateway plan) ;;
  tx <-! or_rollback tx (start_dns plan) ;;
  tx <-! or_rollback tx publish_active ;;
  mret (nc_name (tx_config tx)).

Definition start_mesh_by_name (network : string) : D string :=
  data_dir <-! mget ds_data_dir ;;
  net_config <-! on_fs (io_map_err (fun e => "load network config: " +:+ network_error_to_string e)
                          (network_config_load (network_config_path data_dir network))) ;;
  mmap_err start_error_to_string (start_mesh net_config None false).

(** Healing a subnet conflict restarts the services and the mesh's runtime on the
    new subnet, which is in the configuration on disk. *)
Definition restart_active_runtime_for_subnet_heal (network : string) : D unit :=
  s <-! mget id ;;
  net_config <-! on_fs (io_map_err (fun e => "load network config: " +:+ network_error_to_string e)
                          (network_config_load (network_config_path (ds_data_dir s) network))) ;;
  _ <-! mlift (map_err start_error_to_string (gateway_port (ds_gateway_listen_addr s))) ;;
  match ds_active s with
  | None => mfail "no running network"
  | Some active =>
      _ <-! mmap_err (fun error => "runtime components failed: " +:+ error)
              (mask (dv_components env) (DeComponents net_config [])) ;;
      let profile := ds_profile s in
      let gateway_config := gateway_for_network (ds_data_dir s) (nc_name net_config) (ds_gateway_listen_addr s)
                              (ds_gateway_threads s) in
      let dns_config := dns_for_network (ds_data_dir s) (nc_name net_config) (nc_overlay_ip net_config)
                          (dns_bridge_listen_addr s) in
      new_gateway <-! mmap_err (fun error => "gateway start failed: " +:+ error)
        (start_managed_gateway (dv_services env) (pf_sidecar_supervision profile) gateway_config
           (bi_gateway (pf_built_in_images profile))) ;;
      started_dns <-! mtry (start_managed_dns (dv_services env) (pf_sidecar_supervision profile) dns_config
                             (bi_dns (pf_built_in_images profile))) ;;
      match started_dns with
      | Err error => _ <-! ignore (gateway_shutdown new_gateway) ;; mfail ("dns start failed: " +:+ error)
      | Ok new_dns =>
          _ <-! ignore (dns_shutdown (am_dns active)) ;;
          _ <-! ignore (gateway_shutdown (am_gateway active)) ;;
          let stopped := {| am_config := am_config active; am_mesh := am_mesh active;
                            am_remote_control := am_remote_control active; am_gateway := None; am_dns := None |} in
          _ <-! mput (set_active (Some stopped)) ;;
          let update := mask (dv_mesh_update_self env)
                          (DeMeshUpdateSelf (am_mesh active) (nc_overlay_ip net_config) (nc_subnet net_config)) in
          _ <-! ignore update ;;
          _ <-! mmap_err (fun error => "mesh runtime restart failed: " +:+ error)
                  (mask (dv_mesh_restart env) (DeMeshRestart (am_mesh active))) ;;
          _ <-! ignore update ;;
          mput (set_active (Some {| am_config := net_config; am_mesh := am_mesh active;
                                    am_remote_control := am_remote_control active; am_gateway := new_gateway;
                                    am_dns := new_dns |}))
      end
  end.

(** ** Mesh requests ([handlers/mesh.rs]) *)

Definition running_name (s : DaemonState) : option string := (fun a => nc_name (am_config a)) <$> ds_active s.
Definition already_running (active : ActiveMesh) : DaemonResponse :=
  err_response "NETWORK_ALREADY_RUNNING"
    ("network '" +:+ nc_name (am_config active) +:+ "' is already running -- run `mesh down` first").
Definition no_mesh : DaemonResponse := err_response "NO_RUNNING_NETWORK" "no mesh running".

Definition handle_mesh_list : D DaemonResponse :=
  s <-! mget id ;;
  listed <-! mtry (on_fs (read_dir (path_join (ds_data_dir s) "networks"))) ;;
  match listed with
  | Err err => mret (err_response "IO_ERROR" ("failed to read networks dir: " +:+ err))
  | Ok None => mret (ok_response "no networks found")
  | Ok (Some entries) =>
      let names := sort_strings (path_file_name <$> filter (fun p => p ∈ fs_dirs (ds_fs s)) entries) in
      match names with
      | [] => mret (ok_response "no networks found")
      | _ => mret (ok_response (join_with newline ((fun name => name +:+ ": " +:+
               (if decide (running_name s = Some name) then "running" else "created")) <$> names)))
      end
  end.

Definition handle_mesh_status (network : string) : D DaemonResponse :=
  s <-! mget id ;;
  let config_path := network_config_path (ds_data_dir s) network in
  if negb (exists_path config_path (ds_fs s)) then
    mret (err_response "NETWORK_NOT_FOUND" ("network '" +:+ network +:+ "' does not exist"))
  else
    loaded <-! (fun '(st, log) => let '(r, fs) := network_config_load config_path (ds_fs st) in
                                   (Ok r, (set_fs fs st, log))) ;;
    match loaded with
    | Err err => mret (err_response "IO_ERROR" ("failed to load network config: " +:+ network_error_to_string err))
    | Ok config =>
        let state := if decide (running_name s = Some network) then "running" else "created" in
        mret (ok_response ("network: " +:+ nc_name config +:+ newline +:+ "overlay: " +:+ ipv6_to_string (nc_overlay_ip config)
                           +:+ newline +:+ "state:   " +:+ state))
    end.

Definition mesh_ready_payload (value : MeshReadyStatus) : MeshReadyPayload := {|
  rp_ready := mrs_ready value; rp_phase := phase_to_string (mrs_phase value); rp_store_healthy := mrs_store_healthy value;
  rp_sync_connected := mrs_sync_connected value; rp_heartbeat_started := mrs_heartbeat_started value |}.
Definition bool_to_string (b : bool) : string := if b then "true" else "false".
Definition handle_mesh_ready (output : MeshReadyOutput) : D DaemonResponse :=
  active <-! mget ds_active ;;
  match active with
  | None => mret no_mesh
  | Some _ =>
      value <-! mask (dv_ready_status env) DeReadyStatus ;;
      let status := mesh_ready_payload value in
      match output with
      | ReadyJson =>
          match to_json status with
          | Ok body => mret (ok_with_payload body (Some (PlMeshReady status)))
          | Err err => mret (err_response "ENCODE_FAILED" ("failed to encode readiness payload: " +:+ err))
          end
      | ReadyText =>
          mret (ok_with_payload ("ready:            " +:+ bool_to_string (rp_ready status) +:+ newline +:+
            "phase:            " +:+ rp_phase status +:+ newline +:+
            "store healthy:    " +:+ bool_to_string (rp_store_healthy status) +:+ newline +:+
            "sync connected:   " +:+ bool_to_string (rp_sync_connected status) +:+ newline +:+
            "heartbeat ready:  " +:+ bool_to_string (rp_heartbeat_started status)) (Some (PlMeshReady status)))
      end
  end.

(** [ipnet]'s parse error is printed after the value. *)
Context (addr_parse_error : string -> string).

(** [Err] is a response that ends the request early. *)
Abbreviation step A := (result DaemonResponse A) (only parsing).

Definition handle_mesh_join (token : string) : D DaemonResponse :=
  s <-! mget id ;;
  match ds_active s with
  | Some active => mret (already_running active)
  | None =>
  match parse_and_verify_invite_token token with
  | Err err => mret (err_response "INVALID_INVITE_TOKEN" err)
  | Ok invite =>
  now <-! now_unix_secs ;;
  if (ic_expires_at invite <? now)%N then mret (err_response "INVITE_EXPIRED" "invite token has expired")
  else
  let network := trim (ic_network_name invite) in
  if is_empty network then mret (err_response "INVALID_INVITE_TOKEN" "invite token network name is empty")
  else
  let config_path := network_config_path (ds_data_dir s) network in
  if exists_path config_path (ds_fs s) then
    mret (err_response "NETWORK_ALREADY_EXISTS" ("network '" +:+ network +:+ "' already exists -- destroy it first"))
  else
  match ipnet_parse (ic_allocated_subnet invite) with
  | None => mret (err_response "INVALID_INVITE_TOKEN"
              ("invite allocated subnet is invalid: " +:+ addr_parse_error (ic_allocated_subnet invite)))
  | Some subnet =>
  let net_config := network_config_new (ic_network_id invite) network (idn_public_key (ds_identity s))
                      (ds_cluster_cidr s) subnet in
  saved <-! mtry (on_fs (io_map_err network_error_to_string (network_config_save net_config config_path))) ;;
  match saved with
  | Err e => mret (err_response "IO_ERROR" ("failed to save network config: " +:+ e))
  | Ok _ =>
  persisted <-! match from_invite invite with
    | Some bootstrap_peer =>
        mtry (on_fs (write_bootstrap_peer_record (network_dir (ds_data_dir s) network) bootstrap_peer))
    | None => mret (Ok tt)
    end ;;
  match persisted with
  | Err error => mret (err_response "IO_ERROR" ("failed to persist bootstrap founder peer: " +:+ error))
  | Ok _ =>
  let bootstrap := extract_bootstrap invite in
  started <-! mtry (mmap_err start_error_to_string
                      (start_mesh net_config bootstrap (bool_decide (is_Some bootstrap)))) ;;
  match started with
  | Err e => mret (err_response "NETWORK_START_FAILED" ("join failed to start mesh: " +:+ e))
  | Ok _ => mret (ok_response ("joined and started network '" +:+ network +:+ "'"))
  end end end end end end.

Definition create_network_config (network : string) : D NetworkConfig :=
  s <-! mget id ;;
  let config_path := network_config_path (ds_data_dir s) network in
  if exists_path config_path (ds_fs s) then
    mfail ("network '" +:+ network +:+ "' already exists -- use `mesh up " +:+ network +:+ "` or `mesh destroy "
           +:+ network +:+ "`")
  else
    cluster <-! mlift (ok_or (ipnet_parse (ds_cluster_cidr s))
                 ("invalid cluster CIDR '" +:+ ds_cluster_cidr s +:+ "': " +:+ addr_parse_error (ds_cluster_cidr s))) ;;
    subnet <-! mlift match ipam_allocate (ipam_new cluster (ds_subnet_prefix_len s)) with
                     | Done (Some subnet, _) => Ok subnet
                     | Done (None, _) => Err "no available subnets in cluster CIDR"
                     | Panic | OutOfFuel => Err "panic"
                     end ;;
    id <-! mcall (fun log => Ok (dv_random_id env log)) DeRandom ;;
    let net_config := network_config_new id network (idn_public_key (ds_identity s)) (ds_cluster_cidr s) subnet in
    _ <-! on_fs (io_map_err (fun e => "failed to save network config: " +:+ network_error_to_string e)
                   (network_config_save net_config config_path)) ;;
    mret net_config.

Definition handle_mesh_create (network : string) : D DaemonResponse :=
  created <-! mtry (create_network_config network) ;;
  match created with
  | Err message => mret (err_response "NETWORK_ALREADY_EXISTS" message)
  | Ok net_config =>
      mret (ok_response ("created network '" +:+ nc_name net_config +:+ "'" +:+ newline +:+ "  overlay: "
                         +:+ ipv6_to_string (nc_overlay_ip net_config) +:+ newline +:+ "  state:   created"))
  end.

Definition handle_mesh_init (network : string) : D DaemonResponse :=
  active <-! mget ds_active ;;
  match active with
  | Some active => mret (already_running active)
  | None =>
  created <-! mtry (create_network_config network) ;;
  match created with
  | Err message => mret (err_response "NETWORK_ALREADY_EXISTS" message)
  | Ok net_config =>
  started <-! mtry (mmap_err start_error_to_string (start_mesh net_config None false)) ;;
  match started with
  | Err e => mret (err_response "NETWORK_START_FAILED"
      ("initialized network '" +:+ nc_name net_config +:+ "' but failed to start: " +:+ e +:+ newline +:+ "  state:   created"))
  | Ok _ => mret (ok_response ("initialized and started network '" +:+ nc_name net_config +:+ "'" +:+ newline +:+
      "  overlay: " +:+ ipv6_to_string (nc_overlay_ip net_config) +:+ newline +:+ "  state:   running"))
  end end end.

Definition handle_mesh_up (network : string) (bootstrap_wait : BootstrapWaitMode) : D DaemonResponse :=
  s <-! mget id ;;
  match ds_active s with
  | Some active => mret (already_running active)
  | None =>
  let config_path := network_config_path (ds_data_dir s) network in
  if negb (exists_path config_path (ds_fs s)) then
    mret (err_response "NETWORK_NOT_FOUND" ("network '" +:+ network +:+ "' does not exist -- run `mesh create " +:+ network
                                            +:+ "` or `mesh init " +:+ network +:+ "`"))
  else
  loaded <-! mtry (on_fs (io_map_err network_error_to_string (network_config_load config_path))) ;;
  match loaded with
  | Err e => mret (err_response "IO_ERROR" ("failed to load network config: " +:+ e))
  | Ok net_config =>
  let allow := match bootstrap_wait with BootstrapSkip => true | BootstrapWait => false end in
  started <-! mtry (mmap_err start_error_to_string (start_mesh net_config None allow)) ;;
  match started with
  | Err e => mret (err_response "NETWORK_START_FAILED" e)
  | Ok _ => mret (ok_response ("mesh '" +:+ nc_name net_config +:+ "' started"))
  end end end.

(** Stopping the components of an active mesh, in [mesh down] and [mesh destroy]. *)
Definition stop_active (active : ActiveMesh) (code prefix : string) : D (step unit) :=
  _ <-! mput (set_active None) ;;
  destroyed <-! mtry (mesh_destroy (am_mesh active)) ;;
  match destroyed with
  | Err e => _ <-! mput (set_active (Some active)) ;; mret (Err (err_response code (prefix +:+ e)))
  | Ok _ =>
      _ <-! ignore (remote_shutdown (am_remote_control active)) ;;
      _ <-! ignore (dns_shutdown (am_dns active)) ;;
      stopped <-! mtry (gateway_shutdown (am_gateway active)) ;;
      match stopped with
      | Err e => mret (Err (err_response code ("gateway stop failed: " +:+ e)))
      | Ok _ => mret (Ok tt)
      end
  end.

Definition handle_mesh_down : D DaemonResponse :=
  active <-! mget ds_active ;;
  match active with
  | None => mret no_mesh
  | Some active =>
      stopped <-! stop_active active "NETWORK_STOP_FAILED" "mesh down failed: " ;;
      match stopped with
      | Err response => mret response
      | Ok _ => _ <-! clear_active_marker ;; mret (ok_response "mesh stopped (config kept)")
      end
  end.

Definition handle_mesh_destroy (network : string) : D DaemonResponse :=
  s <-! mget id ;;
  let running_target := bool_decide (running_name s = Some network) in
  let config_path := network_config_path (ds_data_dir s) network in
  if negb running_target && negb (exists_path config_path (ds_fs s)) then
    mret (err_response "NETWORK_NOT_FOUND" ("network '" +:+ network +:+ "' does not exist"))
  else
    stopped <-! match ds_active s with
                | Some active => if running_target then stop_active active "NETWORK_DESTROY_FAILED" "destroy failed: "
                                 else mret (Ok tt)
                | None => mret (Ok tt)
                end ;;
    match stopped with
    | Err response => mret response
    | Ok _ =>
        deleted <-! mtry (on_fs (network_config_delete (ds_data_dir s) network)) ;;
        match deleted with
        | Err e => mret (err_response "IO_ERROR" ("failed to delete network config: " +:+ e))
        | Ok _ => _ <-! clear_active_marker ;; mret (ok_response ("mesh '" +:+ network +:+ "' destroyed"))
        end
    end.

Definition handle_mesh_self_record : D DaemonResponse :=
  s <-! mget id ;;
  match ds_active s with
  | None => mret no_mesh
  | Some active =>
  detected <-! mtry (mask (dv_endpoints env) DeEndpoints) ;;
  match detected with
  | Err error => mret (err_response "ENDPOINT_DISCOVERY_FAILED" ("failed to detect mesh endpoints: " +:+ error))
  | Ok endpoints =>
  let resp := {| jr_machine_id := idn_machine_id (ds_identity s); jr_public_key := idn_public_key (ds_identity s);
                 jr_overlay_ip := nc_overlay_ip (am_config active); jr_subnet := Some (nc_subnet (am_config active));
                 jr_endpoints := endpoints |} in
  match join_response_encode resp with
  | Ok encoded => mret (ok_with_payload encoded (Some (PlMeshSelfRecord encoded (into_seed_machine_record resp))))
  | Err e => mret (err_response "ENCODE_FAILED" ("failed to encode self-record: " +:+ e))
  end end end.

Definition handle_mesh_accept (response : string) : D DaemonResponse :=
  active <-! mget ds_active ;;
  match active with
  | None => mret no_mesh
  | Some _ =>
  match join_response_decode response with
  | Err e => mret (err_response "INVALID_JOIN_RESPONSE" ("decode failed: " +:+ e))
  | Ok join_resp =>
  peer_sync <-! mask (dv_peer_sync env) DePeerSync ;;
  if peer_sync : bool then
    let record := into_seed_machine_record join_resp in
    sent <-! mtry (mask (dv_upsert_transient env) (DeUpsertTransient record)) ;;
    match sent with
    | Ok _ => mret (ok_response ("accepted transient peer '" +:+ mr_id record +:+ "' (awaiting self-publication)"))
    | Err e => mret (err_response "PEER_SYNC_UNAVAILABLE" ("failed to install transient peer: " +:+ e))
    end
  else mret (err_response "PEER_SYNC_UNAVAILABLE" "peer sync task is not running")
  end end.

(** ** Invite requests ([handlers/invite.rs], [handlers/machine/join.rs]) *)

Fixpoint allocate_subnets (count : nat) (ipam : Ipam) : result string (list Ipv4Net) :=
  match count with
  | O => Ok []
  | S count =>
      match ipam_allocate ipam with
      | Done (Some subnet, ipam) => subnets <-? allocate_subnets count ipam ;; Ok (subnet :: subnets)
      | Done (None, _) => Err "no available subnets"
      | Panic | OutOfFuel => Err "panic"
      end
  end.
Definition allocate_machine_subnets (count : nat) : D (list Ipv4Net) :=
  s <-! mget id ;;
  match ds_active s with
  | None => mfail "no running network"
  | Some _ =>
      machines <-! mmap_err (fun err => "failed to list machines for subnet allocation: " +:+ err)
                     (mask (dv_list_machines env) DeListMachines) ;;
      cluster <-! mlift (ok_or (ipnet_parse (ds_cluster_cidr s))
                   ("invalid cluster CIDR '" +:+ ds_cluster_cidr s +:+ "': " +:+ addr_parse_error (ds_cluster_cidr s))) ;;
      mlift (allocate_subnets count (ipam_with_allocated cluster (ds_subnet_prefix_len s) (omap mr_subnet machines)))
  end.

Definition do_issue_invite_token (network : NetworkConfig) (ttl_secs : N) (allocated_subnet : Ipv4Net) : D string :=
  s <-! mget id ;;
  match ds_active s with
  | None => mfail "no running network"
  | Some _ =>
      endpoints <-! mmap_err (fun error => "detect mesh endpoints: " +:+ error) (mask (dv_endpoints env) DeEndpoints) ;;
      now <-! now_unix_secs ;;
      nonce <-! mcall (fun log => Ok (dv_random_bytes env log)) DeRandom ;;
      invite_id <-! mcall (fun log => Ok (dv_random_bytes env log)) DeRandom ;;
      issued <-! mlift (issue_invite_token nonce invite_id (ds_identity s) network ttl_secs now
        {| tc_issuer_endpoints := endpoints; tc_issuer_overlay_ip := Some (ipv6_to_string (nc_overlay_ip network));
           tc_issuer_wg_public_key := Some (b64_encode (x25519_public (idn_private_key (ds_identity s))));
           tc_issuer_subnet := Some (ipnet_to_string (nc_subnet network));
           tc_allocated_subnet := ipnet_to_string allocated_subnet |}) ;;
      let '(token, claims) := issued in
      let record := {| inv_id := ic_invite_id claims; inv_expires_at := ic_expires_at claims |} in
      created <-! mask (dv_create_invite env) (DeCreateInvite record) ;;
      _ <-! mlift (map_err (fun e => "store invite: " +:+ error_to_string e) created) ;;
      mret token
  end.

Definition handle_machine_invite_create (ttl_secs : N) : D DaemonResponse :=
  active <-! mget ds_active ;;
  match active with
  | None => mret (err_response "NO_RUNNING_NETWORK" "machine invite create requires a running network")
  | Some active =>
  let config := am_config active in
  if (ttl_secs =? 0)%N then mret (err_response "INVALID_ARGUMENT" "ttl_secs must be greater than zero")
  else
  allocated <-! mtry (allocate_machine_subnets 1) ;;
  match allocated with
  | Err err => mret (err_response "SUBNET_EXHAUSTION" err)
  | Ok [subnet] =>
      issued <-! mtry (do_issue_invite_token config ttl_secs subnet) ;;
      match issued with
      | Err err => mret (err_response "INVITE_CREATE_FAILED" err)
      | Ok token => mret (ok_response ("invite token created" +:+ newline +:+ "  network: " +:+ nc_name config +:+ newline
                            +:+ "  ttl:     " +:+ dec ttl_secs +:+ "s" +:+ newline +:+ "  token:   " +:+ token))
      end
  | Ok _ => mret (err_response "SUBNET_EXHAUSTION" "failed to allocate exactly one subnet for invite")
  end end.

Definition handle_machine_invite_import (token : string) : D DaemonResponse :=
  active <-! mget ds_active ;;
  match active with
  | None => mret (err_response "NO_RUNNING_NETWORK" "invite import requires a running network")
  | Some _ =>
  match parse_and_verify_invite_token token with
  | Err err => mret (err_response "INVALID_INVITE_TOKEN" err)
  | Ok invite =>
  now <-! now_unix_secs ;;
  if (ic_expires_at invite <? now)%N then mret (err_response "INVITE_EXPIRED" "invite token has expired")
  else
  let record := {| inv_id := ic_invite_id invite; inv_expires_at := ic_expires_at invite |} in
  created <-! mask (dv_create_invite env) (DeCreateInvite record) ;;
  match created with
  | Ok _ => mret (ok_response ("invite imported" +:+ newline +:+ "  network: " +:+ ic_network_name invite +:+ newline
                   +:+ "  invite:  " +:+ inv_id record))
  | Err (Operation op message) =>
      if decide (op = "invite_exists") then
        mret (ok_response ("invite already present" +:+ newline +:+ "  network: " +:+ ic_network_name invite +:+ newline
                +:+ "  invite:  " +:+ inv_id record))
      else mret (err_response "INVITE_IMPORT_FAILED"
                   ("failed to import invite: " +:+ error_to_string (Operation op message)))
  end end end.

(** ** Start-up and shutdown of the process ([app.rs]) *)

Definition resume_active_network : D unit :=
  s <-! mget id ;;
  let '(marker, fs) := read_active_network (ds_data_dir s) (ds_fs s) in
  _ <-! mput (set_fs fs) ;;
  match marker with
  | None => mret tt
  | Some network =>
      started <-! mtry (start_mesh_by_name network) ;;
      match started with Ok _ => mret tt | Err _ => clear_active_marker end
  end.

Definition shutdown_active_mesh : D unit :=
  active <-! mget ds_active ;;
  match active with
  | None => mret tt
  | Some active =>
      _ <-! mput (set_active None) ;;
      _ <-! ignore (managed_detach (dv_services env) dns_process_error (am_dns active)) ;;
      _ <-! ignore (managed_detach (dv_services env) gateway_process_error (am_gateway active)) ;;
      _ <-! ignore (remote_shutdown (am_remote_control active)) ;;
      ignore (mesh_detach (am_mesh active))
  end.

(** ** Dispatch ([handlers/mod.rs])

    The requests whose handlers are above, in the lane [request_lane] gives them. *)
Definition handle_shared (req : DaemonRequest) : option (D DaemonResponse) :=
  match req with
  | RqMeshList => Some handle_mesh_list
  | RqMeshStatus network => Some (handle_mesh_status network)
  | RqMeshReady output => Some (handle_mesh_ready output)
  | RqMeshCreate network => Some (handle_mesh_create network)
  | RqMachineInviteCreate ttl_secs => Some (handle_machine_invite_create ttl_secs)
  | RqMachineInviteImport token => Some (handle_machine_invite_import token)
  | RqMeshSelfRecord => Some handle_mesh_self_record
  | RqMeshAccept response => Some (handle_mesh_accept response)
  | RqDebugTick _ _ | RqMeshJoin _ | RqMeshInit _ | RqMeshUp _ _ | RqMeshDown | RqMeshDestroy _ =>
      Some (mret (err_response "INTERNAL" "exclusive request routed to shared handler"))
  | RqStatus | RqDoctor | RqDeployPreview _ _ | RqDeployApply _ _ | RqDeployExport _ | RqMachineList | RqMachineInit _ _ _
  | RqMachineAdd _ _ | RqMachineRemove _ _ | RqMachineOperationList | RqMachineOperationGet _ => None
  end.
Definition handle_exclusive (req : DaemonRequest) : option (D DaemonResponse) :=
  match req with
  | RqDebugTick _ _ => None
  | RqMeshJoin token => Some (handle_mesh_join token)
  | RqMeshInit network => Some (handle_mesh_init network)
  | RqMeshUp network bootstrap_wait => Some (handle_mesh_up network bootstrap_wait)
  | RqMeshDown => Some handle_mesh_down
  | RqMeshDestroy network => Some (handle_mesh_destroy network)
  | _ => Some (mret (err_response "INTERNAL" "shared request routed to exclusive handler"))
  end.
Definition dispatch_request (req : DaemonRequest) : option (D DaemonResponse) :=
  match request_lane req with Shared => handle_shared req | Exclusive => handle_exclusive req end.
End daemon.
