(* ===== verification/Startup.v ===== *)
(** * Which components run

    The components a daemon holds — the mesh, the remote control listener, the
    gateway and the DNS server — read off the log of calls, and the theorems about
    starting, stopping and restarting a network ([Daemon]). *)

From S2P Require Import Prelude Order Effect Text Types Addr RefCodec Spec Base64 Files Invite IpnetRef Ipam Mesh Container.
From S2P Require Import Services Api Daemon.
Local Open Scope string_scope.
Local Open Scope eff_scope.

(** ** What is running *)

Inductive Component := CService (i : ServiceInstance) | CMesh (mesh : N) | CRemote (id : N).
#[export] Instance Component_eq_dec : EqDecision Component.
Proof. solve_decision. Defined.
#[export] Instance Component_countable : Countable Component.
Proof.
  refine (inj_countable' (fun c => match c with CService i => inl i | CMesh m => inr (inl m) | CRemote r => inr (inr r) end)
    (fun s => match s with inl i => CService i | inr (inl m) => CMesh m | inr (inr r) => CRemote r end) _).
  by intros [].
Defined.

Definition as_service (c : Component) : option ServiceInstance := match c with CService i => Some i | _ => None end.
(** What an event says about the components. *)
Definition apply_daemon_event (s : gset Component) (e : DaemonEvent) : gset Component :=
  match e with
  | DeService e => set_map CService (apply_service_event (set_omap as_service s) e) ∪ filter (fun c => as_service c = None) s
  | DeMeshUp _ _ (Ok mesh) => {[CMesh mesh]} ∪ s
  | DeMeshDetach mesh (Ok _) | DeMeshDestroy mesh (Ok _) => s ∖ {[CMesh mesh]}
  | DeRemoteStart _ (Ok id) => {[CRemote id]} ∪ s
  | DeRemoteStop id (Ok _) => s ∖ {[CRemote id]}
  | _ => s
  end.
Definition running_after (s : gset Component) (log : list DaemonEvent) : gset Component := foldl apply_daemon_event s log.

(** The components that were told to stop and did not confirm it. *)
Definition failed_event (e : DaemonEvent) : option Component :=
  match e with
  | DeService e => CService <$> failed_stop e
  | DeMeshDetach mesh (Err _) => Some (CMesh mesh)
  | DeRemoteStop id (Err _) => Some (CRemote id)
  | _ => None
  end.
Definition failed_events (log : list DaemonEvent) : gset Component := list_to_set (omap failed_event log).

Definition service_part (h : option SidecarHandle) : gset Component := set_map CService (managed_instances h).
Definition remote_part (r : option N) : gset Component := match r with Some id => {[CRemote id]} | None => ∅ end.
(** The components an active mesh holds. *)
Definition active_components (a : ActiveMesh) : gset Component :=
  {[CMesh (am_mesh a)]} ∪ remote_part (am_remote_control a) ∪ service_part (am_gateway a) ∪ service_part (am_dns a).
Definition owned (s : DaemonState) : gset Component := match ds_active s with Some a => active_components a | None => ∅ end.

Lemma running_after_app s l1 l2 : running_after s (l1 ++ l2)%list = running_after (running_after s l1) l2.
Proof. apply foldl_app. Qed.
Lemma failed_events_app l1 l2 : failed_events (l1 ++ l2)%list = failed_events l1 ∪ failed_events l2.
Proof. unfold failed_events. by rewrite omap_app, list_to_set_app_L. Qed.

Lemma as_service_Some c i : as_service c = Some i <-> c = CService i.
Proof. destruct c; simpl; naive_solver. Qed.

Lemma services_of_update (x : gset ServiceInstance) (s : gset Component) :
  set_omap as_service (set_map CService x ∪ filter (fun c => as_service c = None) s) = x.
Proof.
  apply set_eq. intros j. rewrite elem_of_set_omap. setoid_rewrite as_service_Some.
  split; [|intros Hj; exists (CService j); set_solver].
  intros (c & Hc & ->). rewrite elem_of_union, elem_of_map, elem_of_filter in Hc. naive_solver.
Qed.

Lemma running_after_services s new c :
  c ∈ running_after s (DeService <$> new) <->
  match c with CService i => i ∈ instances_after (set_omap as_service s) new | _ => c ∈ s end.
Proof.
  revert s. induction new as [|e new IH]; intros s; csimpl.
  - destruct c as [i| |]; [|done|done]. rewrite elem_of_set_omap. setoid_rewrite as_service_Some. naive_solver.
  - unfold running_after in IH. simpl. rewrite IH. clear IH. rewrite services_of_update.
    destruct c as [i| |]; [done| |]; rewrite elem_of_union, elem_of_map, elem_of_filter; naive_solver.
Qed.
Lemma failed_events_services new : failed_events (DeService <$> new) = set_map CService (failed_stops new).
Proof.
  unfold failed_events, failed_stops. induction new as [|e new IH]; csimpl; [done|].
  destruct (failed_stop e); simpl; [|done]. rewrite IH. set_solver.
Qed.

(** ** Reasoning about handlers *)

Lemma dspec_fs {E A} (c : fs_eff E A) s (P : result E A -> DaemonState -> list DaemonEvent -> Prop) :
  P (c (ds_fs s)).1 (set_fs (c (ds_fs s)).2 s) [] -> dspec (on_fs c) s P.
Proof. intros HP. apply dspec_pure. intros log. unfold wp, on_fs. destruct (c (ds_fs s)) as [r fs]. done. Qed.

(** Computations that change no part of the state but the files. *)
Definition fs_only {E A} (c : eff DaemonState DaemonEvent E A) : Prop :=
  forall s log, wp c (fun _ s' _ => exists fs, s' = set_fs fs s) s log.
Lemma set_fs_id s : set_fs (ds_fs s) s = s.
Proof. by destruct s. Qed.
Lemma fs_only_same {E A} (c : eff DaemonState DaemonEvent E A) :
  (forall s log, wp c (fun _ s' _ => s' = s) s log) -> fs_only c.
Proof. intros Hc s log. eapply wp_mono; [apply Hc|]. simpl. intros _ s' _ ->. exists (ds_fs s). by rewrite set_fs_id. Qed.
Lemma fs_only_bind {E A B} (c : eff DaemonState DaemonEvent E A) (k : A -> eff DaemonState DaemonEvent E B) :
  fs_only c -> (forall a, fs_only (k a)) -> fs_only (mbind c k).
Proof.
  intros Hc Hk s log. apply wp_bind. eapply wp_mono; [apply Hc|]. simpl. intros [a|e] s1 log1 [fs1 ->]; [|eauto].
  eapply wp_mono; [apply Hk|]. simpl. intros _ s2 _ [fs2 ->]. by exists fs2.
Qed.
Lemma fs_only_with_fs {A} (c : io A) : fs_only (with_fs c).
Proof. intros s log. unfold wp, with_fs. simpl. destruct (c (ds_fs s)) as [r fs]. by exists fs. Qed.
Lemma fs_only_try {E A} (c : eff DaemonState DaemonEvent E A) : fs_only c -> fs_only (mtry c).
Proof. intros Hc s log. apply wp_try. apply Hc. Qed.
Lemma fs_only_map_err {E F A} (f : E -> F) (c : eff DaemonState DaemonEvent E A) : fs_only c -> fs_only (mmap_err f c).
Proof. intros Hc s log. apply wp_map_err. apply Hc. Qed.
Ltac fs_only_step :=
  match goal with
  | |- fs_only (mbind _ _) => apply fs_only_bind; [|intros ?]
  | |- fs_only (mtry _) => apply fs_only_try
  | |- fs_only (mmap_err _ _) => apply fs_only_map_err
  | |- fs_only (with_fs _) => apply fs_only_with_fs
  | |- fs_only (if ?b then _ else _) => destruct b
  | |- fs_only (match ?x with _ => _ end) => destruct x
  | |- fs_only _ => apply fs_only_same; intros ? ?; done
  end.

Section services_only.
Context (sv : ServiceEnv DaemonEvent).
Lemma first_existing_fs_only l : fs_only (first_existing l).
Proof. induction l; simpl; repeat (done || fs_only_step). Qed.
Lemma find_binary_fs_only name : fs_only (find_binary sv name).
Proof. unfold find_binary. repeat (apply first_existing_fs_only || fs_only_step). Qed.
Lemma sidecar_ensure_fs_only supervision spec : fs_only (sidecar_ensure sv supervision spec).
Proof.
  unfold sidecar_ensure, ensure_docker, start_child, ensure_systemd, run_systemctl.
  repeat (apply find_binary_fs_only || fs_only_step).
Qed.
Lemma start_gateway_fs_only supervision config image : fs_only (start_managed_gateway sv supervision config image).
Proof.
  unfold start_managed_gateway, build_gateway_sidecar_spec, gateway_systemd_extra.
  repeat (apply find_binary_fs_only || apply sidecar_ensure_fs_only || fs_only_step).
Qed.
Lemma start_dns_fs_only supervision config image : fs_only (start_managed_dns sv supervision config image).
Proof. unfold start_managed_dns. repeat (apply sidecar_ensure_fs_only || fs_only_step). Qed.
Lemma managed_shutdown_fs_only wrap h : fs_only (managed_shutdown sv wrap h).
Proof.
  unfold managed_shutdown, sidecar_shutdown, child_shutdown, docker_shutdown, systemd_shutdown, run_systemctl.
  repeat fs_only_step.
Qed.

Lemma dspec_service {A} (c : eff DaemonState DaemonEvent string A) s P (Q : result string A -> DaemonState -> list DaemonEvent -> Prop) :
  service_spec c P -> fs_only c ->
  (forall r fs new, P r new -> Q r (set_fs fs s) (DeService <$> new)) -> dspec c s Q.
Proof.
  intros HP Hf HQ log. eapply wp_mono; [apply (wp_and _ _ _ _ _ (HP s log) (Hf s log))|].
  simpl. intros r s' log' [(new & -> & Hn) [fs ->]]. exists (DeService <$> new). auto.
Qed.

(** Starting and stopping the managed services. *)
Lemma elem_of_services (S : gset Component) i : i ∈ (set_omap as_service S : gset ServiceInstance) <-> CService i ∈ S.
Proof. rewrite elem_of_set_omap. setoid_rewrite as_service_Some. naive_solver. Qed.
Lemma elem_of_service_part h c : c ∈ service_part h <-> exists i, c = CService i /\ i ∈ managed_instances h.
Proof. unfold service_part. rewrite elem_of_map. naive_solver. Qed.
Lemma running_services_eq (S T : gset Component) new :
  (forall i, CService i ∈ T <-> i ∈ instances_after (set_omap as_service S) new) ->
  (forall c, as_service c = None -> c ∈ T <-> c ∈ S) -> running_after S (DeService <$> new) = T.
Proof.
  intros Hs Ho. apply set_eq. intros c. rewrite running_after_services.
  destruct c as [i| |]; [by rewrite Hs|symmetry; by apply Ho..].
Qed.
End services_only.

(** Events that start exactly [X]. *)
Definition starts (X : gset Component) (new : list DaemonEvent) : Prop := forall S, running_after S new = X ∪ S.
(** Events that stop at most [X], and all of it but what the log says did not stop. *)
Definition stops (X : gset Component) (new : list DaemonEvent) : Prop :=
  forall S, S ∖ X ⊆ running_after S new /\ running_after S new ⊆ (S ∖ X) ∪ failed_events new.

Lemma starts_app X Y l1 l2 : starts X l1 -> starts Y l2 -> starts (X ∪ Y) (l1 ++ l2)%list.
Proof. intros H1 H2 S. rewrite running_after_app, H1, H2. set_solver. Qed.
Lemma stops_app X Y l1 l2 : stops X l1 -> stops Y l2 -> stops (X ∪ Y) (l1 ++ l2)%list.
Proof.
  intros H1 H2 S. rewrite running_after_app, failed_events_app. specialize (H1 S). specialize (H2 (running_after S l1)).
  set_solver.
Qed.
Lemma starts_eq X Y new : starts X new -> X = Y -> starts Y new.
Proof. by intros ? <-. Qed.
Lemma stops_eq X Y new : stops X new -> X = Y -> stops Y new.
Proof. by intros ? <-. Qed.
Lemma starts_nil : starts ∅ [].
Proof. intros S. cbn. set_solver. Qed.
Lemma stops_nil : stops ∅ [].
Proof. intros S. cbn. set_solver. Qed.

Lemma managed_starts h new : managed_started (Ok h) new -> starts (service_part h) (DeService <$> new).
Proof.
  intros Hn S. apply running_services_eq.
  - intros i. rewrite (Hn _), !elem_of_union, elem_of_services, elem_of_service_part. naive_solver.
  - intros [] Hc; try done; rewrite elem_of_union, elem_of_service_part; naive_solver.
Qed.
Lemma managed_unstarted e new : managed_started (Err e) new -> starts ∅ (DeService <$> new).
Proof. intros Hn S. apply running_services_eq; [|set_solver]. intros i. rewrite (Hn _), elem_of_services. set_solver. Qed.
Lemma managed_stops h r new : managed_shut h r new -> stops (service_part h) (DeService <$> new).
Proof.
  intros Hn S. destruct (Hn (set_omap as_service S)) as [E|(E & Hr & Hf)].
  - assert (running_after S (DeService <$> new) = S ∖ service_part h) as ->; [|set_solver]. apply running_services_eq.
    + intros i. rewrite E, !elem_of_difference, elem_of_services, elem_of_service_part. naive_solver.
    + intros [] Hc; try done; rewrite elem_of_difference, elem_of_service_part; naive_solver.
  - assert (running_after S (DeService <$> new) = S) as ->
      by (apply running_services_eq; [intros i; by rewrite E, elem_of_services|done]).
    assert (service_part h ⊆ failed_events (DeService <$> new)) by (rewrite failed_events_services; unfold service_part; set_solver).
    split; [set_solver|]. intros c Hc. destruct (decide (c ∈ service_part h)); set_solver.
Qed.

Section transaction.
Context `{Keys} `{Base64} `{Build} `{Ipnet} `{RecordCodec InviteClaims} `{RecordCodec NetworkConfig}
  `{RecordCodec (list BootstrapPeerRecord)} `{RecordCodec JoinResponse} `{RecordCodec MeshReadyPayload}.
Context (env : DaemonEnv).

(** ** The steps of a start *)

Lemma dspec_gateway s supervision config image Q :
  (forall r fs new, starts (match r with Ok h => service_part h | Err _ => ∅ end) new -> Q r (set_fs fs s) new) ->
  dspec (start_managed_gateway (dv_services env) supervision config image) s Q.
Proof.
  intros HQ. eapply dspec_service; [apply start_managed_gateway_spec|apply start_gateway_fs_only|].
  intros r fs new Hn. apply HQ. destruct r; [by apply managed_starts|by eapply managed_unstarted].
Qed.
Lemma dspec_dns s supervision config image Q :
  (forall r fs new, starts (match r with Ok h => service_part h | Err _ => ∅ end) new -> Q r (set_fs fs s) new) ->
  dspec (start_managed_dns (dv_services env) supervision config image) s Q.
Proof.
  intros HQ. eapply dspec_service; [apply start_managed_dns_spec|apply start_dns_fs_only|].
  intros r fs new Hn. apply HQ. destruct r; [by apply managed_starts|by eapply managed_unstarted].
Qed.
Lemma dspec_shutdown s wrap h Q :
  (forall r fs new, stops (service_part h) new -> Q r (set_fs fs s) new) ->
  dspec (managed_shutdown (dv_services env) wrap h) s Q.
Proof.
  intros HQ. eapply dspec_service; [apply managed_shutdown_spec|apply managed_shutdown_fs_only|].
  intros r fs new Hn. by eapply HQ, managed_stops.
Qed.
Lemma dspec_remote_shutdown s r Q :
  (forall res new, stops (remote_part r) new -> Q res s new) -> dspec (remote_shutdown env r) s Q.
Proof.
  intros HQ. unfold remote_shutdown. destruct r as [id|]; [apply dspec_ask; intros res|apply dspec_ret]; apply HQ; [|apply stops_nil].
  intros S. cbn. destruct res; [set_solver|]. split; [set_solver|]. intros c Hc. destruct (decide (c = CRemote id)); set_solver.
Qed.
Lemma dspec_mesh_detach s mesh Q :
  (forall res new, stops {[CMesh mesh]} new -> Q res s new) -> dspec (mesh_detach env mesh) s Q.
Proof.
  intros HQ. apply dspec_ask. intros res. apply HQ. intros S. cbn. destruct res; [set_solver|].
  split; [set_solver|]. intros c Hc. destruct (decide (c = CMesh mesh)); set_solver.
Qed.

(** The components a transaction holds. *)
Definition tx_components (tx : MeshStartTx) : gset Component :=
  match tx_mesh tx with Some m => {[CMesh m]} | None => ∅ end ∪ remote_part (tx_remote_control tx)
  ∪ service_part (tx_gateway tx) ∪ service_part (tx_dns tx).

(** Rolling back stops all of them, or the log names what did not stop. *)
Lemma dspec_rollback tx s Q :
  (forall fs new, stops (tx_components tx) new -> Q (Ok tt) (set_fs fs s) new) -> dspec (rollback_startup env tx) s Q.
Proof.
  intros HQ. unfold rollback_startup, dns_shutdown, gateway_shutdown.
  apply dspec_bind, dspec_ignore, dspec_shutdown. intros _ fs1 new1 Hd.
  apply dspec_bind, dspec_ignore, dspec_shutdown. intros _ fs2 new2 Hg.
  apply dspec_bind, dspec_ignore, dspec_remote_shutdown. intros _ new3 Hr.
  assert (forall X new4, stops X new4 -> stops (service_part (tx_dns tx) ∪ (service_part (tx_gateway tx) ∪
    (remote_part (tx_remote_control tx) ∪ X))) (new1 ++ new2 ++ new3 ++ new4)%list) as Hall
    by (intros; by repeat apply stops_app).
  unfold tx_components in HQ. destruct (tx_mesh tx) as [mesh|].
  - apply dspec_ignore, dspec_mesh_detach. intros _ new4 Hm. apply (HQ fs2). eapply stops_eq; [by apply Hall|]. set_solver.
  - apply dspec_ret. apply (HQ fs2). eapply stops_eq; [apply Hall, stops_nil|]. set_solver.
Qed.

(** The transaction failed: nothing but files of the state changed, and nothing
    more runs than before, except what did not stop when told to. *)
Definition rolled_back (s s' : DaemonState) (new : list DaemonEvent) : Prop :=
  (exists fs, s' = set_fs fs s) /\ forall S, running_after S new ⊆ S ∪ failed_events new.

Lemma rolled_back_quiet s fs new : starts ∅ new -> rolled_back s (set_fs fs s) new.
Proof. intros Hn. split; [by exists fs|]. intros S. rewrite Hn. set_solver. Qed.

(** A step of the transaction: [old] are the events that started what [tx] holds. *)
Lemma dspec_or_rollback tx step s old Q :
  starts (tx_components tx) old ->
  dspec (step tx) s (fun r s' new => match r with
    | Ok tx' => Q (Ok tx') s' new
    | Err _ => (exists fs, s' = set_fs fs s) /\ starts ∅ new
    end) ->
  (forall e fs new, rolled_back s (set_fs fs s) (old ++ new)%list -> Q (Err e) (set_fs fs s) new) ->
  dspec (or_rollback env tx step) s Q.
Proof.
  intros Hold Hstep Herr. apply dspec_bind, dspec_try. eapply dspec_mono; [exact Hstep|].
  intros r s1 new1 Hr. destruct r as [tx'|e]; simpl in Hr; [apply dspec_ret; by rewrite app_nil_r|].
  destruct Hr as [[fs1 ->] Hn1]. apply dspec_bind, dspec_rollback. intros fs2 new2 Hn2. apply dspec_fail.
  rewrite app_nil_r. apply (Herr e fs2). split; [by exists fs2|]. intros S.
  rewrite !running_after_app, !failed_events_app, Hold, Hn1. destruct (Hn2 (∅ ∪ (tx_components tx ∪ S))) as [_ Hsub].
  set_solver.
Qed.

Lemma set_fs_set_fs fs fs' s : set_fs fs (set_fs fs' s) = set_fs fs s.
Proof. done. Qed.

Lemma dspec_plan net bootstrap s (Q : result StartMeshError StartPlan -> DaemonState -> list DaemonEvent -> Prop) :
  (forall r new, starts ∅ new -> Q r s new) -> dspec (plan_mesh_start env net bootstrap) s Q.
Proof.
  intros HQ. apply dspec_bind, dspec_get, dspec_bind, dspec_map_err, dspec_ask. intros [addrs|e]; simpl.
  2: { apply HQ. intros S. cbn. set_solver. }
  apply dspec_bind, dspec_lift. destruct (gateway_port _) as [port|e]; [apply dspec_ret|]; apply HQ; intros S; cbn; set_solver.
Qed.

(** A new mesh runs, or nothing was started. *)
Lemma dspec_build_mesh net plan allow s (Q : result StartMeshError MeshStartTx -> DaemonState -> list DaemonEvent -> Prop) :
  (forall mesh fs new, starts {[CMesh mesh]} new ->
     Q (Ok {| tx_config := net; tx_mesh := Some mesh; tx_store := true; tx_remote_control := None; tx_gateway := None;
              tx_dns := None |}) (set_fs fs s) new) ->
  (forall e fs new, starts ∅ new -> Q (Err e) (set_fs fs s) new) ->
  dspec (build_mesh env (tx_new net) plan allow) s Q.
Proof.
  intros Hok Herr. apply dspec_bind, dspec_get, dspec_bind, dspec_map_err, dspec_ask. intros [u|e]; simpl.
  2: { rewrite <- (set_fs_id s). apply Herr. intros S. cbn. set_solver. }
  apply dspec_bind, dspec_try, dspec_map_err, dspec_ask. intros records; simpl.
  apply dspec_bind, dspec_map_err, dspec_ask. intros [endpoints|e]; simpl.
  2: { rewrite <- (set_fs_id s). apply Herr. intros S. cbn. set_solver. }
  apply dspec_bind, dspec_pure. intros log. unfold wp.
  destruct (build_seed_records _ _ _ _ _ _ _) as [seeds fs]. simpl. split; [done|].
  apply dspec_bind, dspec_map_err, dspec_ask. intros [mesh|e]; simpl.
  - apply dspec_ret. apply Hok. intros S. cbn. set_solver.
  - apply Herr. intros S. cbn. set_solver.
Qed.

Definition with_remote (h : option N) (tx : MeshStartTx) : MeshStartTx := {|
  tx_config := tx_config tx; tx_mesh := tx_mesh tx; tx_store := tx_store tx; tx_remote_control := h;
  tx_gateway := tx_gateway tx; tx_dns := tx_dns tx |}.

Lemma dspec_start_remote plan tx s (Q : result StartMeshError MeshStartTx -> DaemonState -> list DaemonEvent -> Prop) :
  is_Some (tx_mesh tx) -> tx_store tx = true ->
  (forall h new, starts (remote_part h) new -> Q (Ok (with_remote h tx)) s new) ->
  (forall e new, starts ∅ new -> Q (Err e) s new) ->
  dspec (start_remote_control env plan tx) s Q.
Proof.
  intros [m Hm] Hst Hok Herr. unfold start_remote_control, with_remote in *. rewrite Hm, Hst in *.
  apply dspec_bind, dspec_get, dspec_bind, dspec_map_err. unfold profile_start_remote_control.
  destruct (is_memory_test _); [|apply dspec_bind, dspec_ask; intros [id|e]]; simpl.
  - apply dspec_ret, dspec_ret. simpl. apply Hok, starts_nil.
  - apply dspec_ret. simpl. apply dspec_ret, Hok. intros S. cbn. set_solver.
  - apply Herr. intros S. cbn. set_solver.
Qed.

Lemma dspec_write_marker name s (Q : result string unit -> DaemonState -> list DaemonEvent -> Prop) :
  (forall fs, fs_files fs !! active_marker_path (ds_data_dir s) = Some name -> Q (Ok tt) (set_fs fs s) []) ->
  (forall e fs, Q (Err e) (set_fs fs s) []) ->
  dspec (write_active_marker name) s Q.
Proof.
  intros Hok Herr. apply dspec_bind, dspec_get, dspec_bind, dspec_fs. destruct (create_dir_all _ _) as [[u|e] fs1]; simpl; [|apply Herr].
  apply dspec_fs. simpl. pose proof (write_file_ok (active_marker_path (ds_data_dir s)) name fs1) as Hw.
  destruct (write_file _ _ _) as [[[]|e] fs2]; simpl in *; [apply Hok; auto|apply Herr].
Qed.

Definition active_of (tx : MeshStartTx) (mesh : N) : ActiveMesh := {|
  am_config := tx_config tx; am_mesh := mesh; am_remote_control := tx_remote_control tx; am_gateway := tx_gateway tx;
  am_dns := tx_dns tx |}.
Lemma dspec_publish tx mesh s (Q : result StartMeshError MeshStartTx -> DaemonState -> list DaemonEvent -> Prop) :
  tx_mesh tx = Some mesh -> tx_store tx = true ->
  (forall fs, fs_files fs !! active_marker_path (ds_data_dir s) = Some (nc_name (tx_config tx)) ->
     Q (Ok (tx_new (tx_config tx))) (set_active (Some (active_of tx mesh)) (set_fs fs s)) []) ->
  (forall e fs, Q (Err e) (set_fs fs s) []) ->
  dspec (publish_active tx) s Q.
Proof.
  intros Hm Hst Hok Herr. apply dspec_bind, dspec_map_err, dspec_write_marker; simpl; [|by intros].
  intros fs Hfs. rewrite Hm, Hst. apply dspec_bind, dspec_put, dspec_ret. by apply Hok.
Qed.

(** What a start of a network ends with. *)
Definition started (net : NetworkConfig) (s : DaemonState) (r : result StartMeshError string) (s' : DaemonState)
    (new : list DaemonEvent) : Prop :=
  match r with
  | Ok name => name = nc_name net /\ exists a fs, s' = set_active (Some a) (set_fs fs s) /\ am_config a = net /\
      fs_files fs !! active_marker_path (ds_data_dir s) = Some name /\ starts (active_components a) new
  | Err _ => rolled_back s s' new
  end.

(** The events so far, collected. *)
Lemma dspec_assoc {E A} (c : eff DaemonState DaemonEvent E A) s (Q : result E A -> DaemonState -> list DaemonEvent -> Prop) l1 l2 :
  dspec c s (fun r s' l => Q r s' ((l1 ++ l2) ++ l)%list) -> dspec c s (fun r s' l => Q r s' (l1 ++ l2 ++ l)%list).
Proof. intros Hc. eapply dspec_mono; [exact Hc|]. simpl. intros r s' l. by rewrite app_assoc. Qed.

(** A stage that starts a part of the network. *)
Lemma dspec_stage {B} tx step (k : MeshStartTx -> eff DaemonState DaemonEvent StartMeshError B) s s0 old Q :
  starts (tx_components tx) old -> (exists fs, s = set_fs fs s0) ->
  dspec (step tx) s (fun r s' new => match r with
    | Ok tx' => dspec (k tx') s' (fun r s2 later => Q r s2 ((old ++ new) ++ later)%list)
    | Err _ => (exists fs, s' = set_fs fs s) /\ starts ∅ new
    end) ->
  (forall e s' new, rolled_back s0 s' new -> Q (Err e) s' new) ->
  dspec (mbind (or_rollback env tx step) k) s (fun r s' later => Q r s' (old ++ later)%list).
Proof.
  intros Hold [fs0 ->] Hstep Herr. apply dspec_bind, (dspec_or_rollback _ _ _ old); [done| |].
  - eapply dspec_mono; [exact Hstep|]. simpl. intros r s' new. destruct r; [apply dspec_assoc|done].
  - intros e fs new [_ Hr]. apply Herr. split; [by exists fs|done].
Qed.

(** The events so far start what the transaction holds. *)
Ltac collected := eapply starts_eq; [apply starts_app; eassumption|unfold tx_components, active_components; cbn; set_solver].

Lemma start_mesh_spec net bootstrap allow s : dspec (start_mesh env net bootstrap allow) s (started net s).
Proof.
  apply dspec_bind, dspec_plan. intros [plan|e] n0 Hn0.
  2: { rewrite <- (set_fs_id s) at 2. by apply rolled_back_quiet. }
  apply dspec_bind, dspec_build_mesh; [|intros e fs n1 Hn1; apply rolled_back_quiet; collected].
  intros mesh fs1 n1 Hn1. apply dspec_assoc. apply (dspec_stage _ _ _ _ s); [collected|by exists fs1| |done].
  apply dspec_start_remote; [done..| |by eauto using set_fs_id]. intros rc n2 Hn2.
  pose proof (starts_app _ _ _ _ Hn0 Hn1) as Hold1. pose proof (starts_app _ _ _ _ Hold1 Hn2) as Hold2.
  apply (dspec_stage _ _ _ _ s); [collected|by exists fs1| |done].
  apply dspec_bind, dspec_get, dspec_bind, dspec_map_err, dspec_gateway. intros [g|e] fs3 n3 Hn3; [|split; [by exists fs3|done]].
  apply dspec_ret. cbn [app map_err]. rewrite app_nil_r. pose proof (starts_app _ _ _ _ Hold2 Hn3) as Hold3.
  apply (dspec_stage _ _ _ _ s); [collected|by exists fs3| |done].
  apply dspec_bind, dspec_get, dspec_bind, dspec_map_err, dspec_dns. intros [d|e] fs4 n4 Hn4; [|split; [by exists fs4|done]].
  apply dspec_ret. cbn [app map_err]. rewrite app_nil_r. pose proof (starts_app _ _ _ _ Hold3 Hn4) as Hold4.
  apply (dspec_stage _ _ _ _ s); [collected|by exists fs4| |done].
  apply (dspec_publish _ mesh); [done..| |]; [|intros e fs5; split; [by exists fs5|apply starts_nil]].
  intros fs5 Hfs5. apply dspec_ret. rewrite !app_nil_r. split; [done|]. eexists _, fs5. split_and!; [done..|]. collected.
Qed.

(** ** The components and the daemon's state *)

(** What runs is what ran at first, what the state holds and what did not stop
    when told to; what the state holds runs. *)
Definition holds (S0 : gset Component) (s : DaemonState) (log : list DaemonEvent) : Prop :=
  owned s ⊆ running_after S0 log /\ running_after S0 log ⊆ S0 ∪ owned s ∪ failed_events log.
Definition keeps (s s' : DaemonState) (new : list DaemonEvent) : Prop :=
  forall S0 log, holds S0 s log -> holds S0 s' (log ++ new)%list.

(** A computation that touches files and no component. *)
Definition quiet {E A} (c : eff DaemonState DaemonEvent E A) : Prop :=
  forall s, dspec c s (fun _ s' new => (exists fs, s' = set_fs fs s) /\ starts ∅ new /\ failed_events new = ∅).

Lemma quiet_keeps {E A} (c : eff DaemonState DaemonEvent E A) s : quiet c -> dspec c s (fun _ s' new => keeps s s' new).
Proof.
  intros Hc. eapply dspec_mono; [apply Hc|]. simpl. intros _ s' new ([fs ->] & Hn & Hf) S0 log Hh.
  unfold holds, owned in *. rewrite running_after_app, failed_events_app, Hn, Hf. simpl. set_solver.
Qed.
Lemma quiet_same {E A} (c : eff DaemonState DaemonEvent E A) :
  (forall s log, exists r, c (s, log) = (r, (s, log))) -> quiet c.
Proof.
  intros Hc s. apply dspec_pure. intros log. destruct (Hc s log) as [r Hr]. unfold wp. rewrite Hr.
  split; [done|]. split; [exists (ds_fs s); by rewrite set_fs_id|]. split; [apply starts_nil|done].
Qed.
Lemma quiet_bind {E A B} (c : eff DaemonState DaemonEvent E A) (k : A -> eff DaemonState DaemonEvent E B) :
  quiet c -> (forall a, quiet (k a)) -> quiet (mbind c k).
Proof.
  intros Hc Hk s. apply dspec_bind. eapply dspec_mono; [apply Hc|]. simpl. intros r s1 new ([fs ->] & Hn & Hf).
  destruct r as [a|e]; [|eauto]. eapply dspec_mono; [apply Hk|]. simpl. intros r s2 later ([fs2 ->] & Hn2 & Hf2).
  split; [by exists fs2|]. split; [eapply starts_eq; [by apply starts_app|set_solver]|].
  rewrite failed_events_app, Hf, Hf2. set_solver.
Qed.
Lemma quiet_try {E A} (c : eff DaemonState DaemonEvent E A) : quiet c -> quiet (mtry c).
Proof. intros Hc s. apply dspec_try. apply Hc. Qed.
Lemma quiet_map_err {E F A} (f : E -> F) (c : eff DaemonState DaemonEvent E A) : quiet c -> quiet (mmap_err f c).
Proof. intros Hc s. apply dspec_map_err. apply Hc. Qed.
Lemma quiet_on_fs {E A} (c : fs_eff E A) : quiet (on_fs c).
Proof. intros s. apply dspec_fs. split; [by eexists|]. split; [apply starts_nil|done]. Qed.
Lemma quiet_ask {E A} (answer : list DaemonEvent -> result E A) event :
  (forall r s, apply_daemon_event s (event r) = s /\ failed_event (event r) = None) -> quiet (mask answer event).
Proof.
  intros He s. apply dspec_ask. intros r. destruct (He r ∅) as [_ Hf]. split; [exists (ds_fs s); by rewrite set_fs_id|].
  split; [intros S; cbn; destruct (He r S) as [-> _]; set_solver|]. unfold failed_events. cbn. by rewrite Hf.
Qed.
Lemma quiet_call {E A} (answer : list DaemonEvent -> result E A) event :
  (forall s, apply_daemon_event s event = s) -> failed_event event = None -> quiet (mcall answer event).
Proof.
  intros He Hf s log. apply wp_call. exists [event]. split; [done|]. split; [exists (ds_fs s); by rewrite set_fs_id|].
  split; [intros S; cbn; rewrite He; set_solver|]. unfold failed_events. cbn. by rewrite Hf.
Qed.
Ltac quiet_step :=
  match goal with
  | |- quiet (mbind _ _) => apply quiet_bind; [|intros ?]
  | |- quiet (mtry _) => apply quiet_try
  | |- quiet (mmap_err _ _) => apply quiet_map_err
  | |- quiet (on_fs _) => apply quiet_on_fs
  | |- quiet (mask _ _) => apply quiet_ask; done
  | |- quiet (mcall _ _) => apply quiet_call; done
  | |- quiet (mget _) => apply quiet_same; by eexists
  | |- quiet (mret _) => apply quiet_same; by eexists
  | |- quiet (mfail _) => apply quiet_same; by eexists
  | |- quiet (mlift _) => apply quiet_same; by eexists
  | |- quiet (match ?x with _ => _ end) => destruct x
  end.

Lemma quiet_load path :
  quiet (fun '(st, log) => let '(r, fs) := network_config_load path (ds_fs st) in
    (Ok r, (set_fs fs st, log)) : result string _ * (DaemonState * list DaemonEvent)).
Proof.
  intros s. apply dspec_pure. intros log. unfold wp. destruct (network_config_load path (ds_fs s)) as [r fs].
  split; [done|]. split; [by exists fs|]. split; [apply starts_nil|done].
Qed.

Context (addr_parse_error : string -> string).
(** Shared requests leave the components alone. *)
Lemma handle_shared_quiet req c : handle_shared env addr_parse_error req = Some c -> quiet c.
Proof.
  destruct req; simpl; intros [= <-]; unfold handle_mesh_list, handle_mesh_status, handle_mesh_ready, handle_mesh_create,
    create_network_config, handle_machine_invite_create, allocate_machine_subnets, do_issue_invite_token,
    handle_machine_invite_import, handle_mesh_self_record, handle_mesh_accept, now_unix_secs;
    repeat (apply quiet_load || quiet_step).
Qed.
Lemma quiet_clear_marker : quiet clear_active_marker.
Proof. unfold clear_active_marker. repeat quiet_step. Qed.

Lemma keeps_components_trans s1 s2 s3 l1 l2 : keeps s1 s2 l1 -> keeps s2 s3 l2 -> keeps s1 s3 (l1 ++ l2)%list.
Proof. intros Hk1 Hk2 S0 log Hh. rewrite app_assoc. by apply Hk2, Hk1. Qed.
(** The rule for a sequence of computations that keep the components. *)
Lemma keeps_bind {E A B} (c : eff DaemonState DaemonEvent E A) (k : A -> eff DaemonState DaemonEvent E B) s :
  dspec c s (fun r s1 new => keeps s s1 new /\ forall a, r = Ok a -> dspec (k a) s1 (fun _ s2 later => keeps s1 s2 later)) ->
  dspec (mbind c k) s (fun _ s' new => keeps s s' new).
Proof.
  intros Hc. apply dspec_bind. eapply dspec_mono; [exact Hc|]. simpl. intros r s1 new [Hk Hr].
  destruct r as [a|e]; [|done]. eapply dspec_mono; [by apply Hr|]. simpl. intros _ s2 later. by apply keeps_components_trans.
Qed.
(** Starting a network when none runs. *)
Lemma started_keeps net s r s' new : ds_active s = None -> started net s r s' new -> keeps s s' new.
Proof.
  intros Ha Hs S0 log [_ Hh]. unfold holds, owned in *. rewrite Ha in Hh. rewrite running_after_app, failed_events_app.
  destruct r as [name|e]; simpl in Hs.
  - destruct Hs as (-> & a & fs & -> & _ & _ & Hn). rewrite Hn. simpl. set_solver.
  - destruct Hs as [[fs ->] Hr]. simpl. rewrite Ha. specialize (Hr (running_after S0 log)). set_solver.
Qed.
(** Stopping it. *)
Lemma stopped_keeps a s s' new : ds_active s = Some a -> ds_active s' = None -> stops (active_components a) new -> keeps s s' new.
Proof.
  intros Ha Ha' Hn S0 log [_ Hh]. unfold holds, owned in *. rewrite Ha in Hh. rewrite Ha', running_after_app, failed_events_app.
  destruct (Hn (running_after S0 log)) as [_ Hsub]. set_solver.
Qed.

(** Stopping a network ends with nothing held, unless the mesh refused. *)
Lemma stop_active_spec a code prefix s : ds_active s = Some a ->
  dspec (stop_active env a code prefix) s (fun r s' new =>
    (s' = s /\ starts ∅ new /\ failed_events new = ∅ /\ (exists e, r = Ok (Err e))) \/
    ((exists fs, s' = set_active None (set_fs fs s)) /\ stops (active_components a) new)).
Proof.
  intros Ha. apply dspec_bind, dspec_put, dspec_bind, dspec_try, dspec_ask. intros [u|e].
  2: { apply dspec_bind, dspec_put, dspec_ret. left. split_and!; [destruct s; simpl in *; by subst|intros S; cbn; set_solver|done|by eexists]. }
  assert (stops {[CMesh (am_mesh a)]} [DeMeshDestroy (am_mesh a) (Ok u)]) as Hm by (intros S; cbn; set_solver).
  apply dspec_bind, dspec_ignore, dspec_remote_shutdown. intros _ n2 Hr.
  apply dspec_bind, dspec_ignore. unfold dns_shutdown. apply dspec_shutdown. intros _ fs3 n3 Hd.
  apply dspec_bind, dspec_try. unfold gateway_shutdown. apply dspec_shutdown. intros r fs4 n4 Hg.
  pose proof (stops_app _ _ _ _ Hm (stops_app _ _ _ _ Hr (stops_app _ _ _ _ Hd Hg))) as Hall.
  destruct r; apply dspec_ret; right; (split; [by exists fs4|]); rewrite ?app_nil_r; (eapply stops_eq; [exact Hall|]);
    unfold active_components; set_solver.
Qed.
Lemma stop_active_keeps a code prefix s : ds_active s = Some a ->
  dspec (stop_active env a code prefix) s (fun _ s' new => keeps s s' new).
Proof.
  intros Ha. eapply dspec_mono; [by apply stop_active_spec|]. simpl. intros r s' new [(-> & Hn & Hf & _)|([fs ->] & Hn)].
  - intros S0 log Hh. unfold holds in *. rewrite running_after_app, failed_events_app, Hn, Hf. set_solver.
  - by eapply stopped_keeps.
Qed.

(** A computation that starts a network when none runs, then reports. *)
Lemma keeps_start_then {B} (f : StartMeshError -> string) net bootstrap allow s (k : result string string -> eff DaemonState DaemonEvent string B) :
  ds_active s = None -> (forall r, quiet (k r)) ->
  dspec (mbind (mtry (mmap_err f (start_mesh env net bootstrap allow))) k) s (fun _ s' new => keeps s s' new).
Proof.
  intros Ha Hk. apply keeps_bind, dspec_try, dspec_map_err. eapply dspec_mono; [apply start_mesh_spec|].
  intros r s' new Hs. split; [by eapply started_keeps|]. intros r' _. by apply quiet_keeps.
Qed.
(** A quiet computation first: what the state holds is as before. *)
Lemma keeps_quiet_then {A B} (c : eff DaemonState DaemonEvent string A) (k : A -> eff DaemonState DaemonEvent string B) s :
  quiet c -> (forall a s', ds_active s' = ds_active s -> dspec (k a) s' (fun _ s2 new => keeps s' s2 new)) ->
  dspec (mbind c k) s (fun _ s' new => keeps s s' new).
Proof.
  intros Hc Hk. apply keeps_bind. eapply dspec_mono; [apply Hc|]. simpl. intros r s1 new ([fs ->] & Hn & Hf). split.
  - intros S0 log Hh. unfold holds, owned in *. rewrite running_after_app, failed_events_app, Hn, Hf. simpl. set_solver.
  - intros a _. by apply Hk.
Qed.

Lemma mesh_join_keeps token s : dspec (handle_mesh_join env addr_parse_error token) s (fun _ s' new => keeps s s' new).
Proof.
  apply keeps_bind, dspec_get. split; [intros S0 log; by rewrite app_nil_r|]. intros ? [= <-].
  unfold id; destruct (ds_active s) as [a|] eqn:Ea; [apply quiet_keeps; quiet_step|].
  destruct (parse_and_verify_invite_token token) as [invite|e]; [|apply quiet_keeps; quiet_step].
  apply keeps_quiet_then; [unfold now_unix_secs; quiet_step|]. intros now s1 Ea1.
  destruct (_ <? _)%N; [apply quiet_keeps; quiet_step|]. simpl.
  destruct (is_empty _); [apply quiet_keeps; quiet_step|]. destruct (exists_path _ _); [apply quiet_keeps; quiet_step|].
  destruct (ipnet_parse _) as [subnet|]; [|apply quiet_keeps; quiet_step].
  apply keeps_quiet_then; [repeat quiet_step|]. intros saved s2 Ea2.
  destruct saved as [u|e]; [|apply quiet_keeps; quiet_step].
  apply keeps_quiet_then; [repeat quiet_step|]. intros persisted s3 Ea3.
  destruct persisted as [u'|e]; [|apply quiet_keeps; quiet_step].
  apply keeps_start_then; [congruence|intros []; quiet_step].
Qed.
Lemma mesh_init_keeps network s : dspec (handle_mesh_init env addr_parse_error network) s (fun _ s' new => keeps s s' new).
Proof.
  apply keeps_bind, dspec_get. split; [intros S0 log; by rewrite app_nil_r|]. intros ? [= <-].
  destruct (ds_active s) as [a|] eqn:Ea; [apply quiet_keeps; quiet_step|].
  apply keeps_quiet_then; [unfold create_network_config; repeat quiet_step|]. intros created s1 Ea1.
  destruct created as [net|e]; [|apply quiet_keeps; quiet_step].
  apply keeps_start_then; [congruence|intros []; quiet_step].
Qed.
Lemma mesh_up_keeps network wait s : dspec (handle_mesh_up env network wait) s (fun _ s' new => keeps s s' new).
Proof.
  apply keeps_bind, dspec_get. split; [intros S0 log; by rewrite app_nil_r|]. intros ? [= <-].
  unfold id; destruct (ds_active s) as [a|] eqn:Ea; [apply quiet_keeps; quiet_step|]. simpl.
  destruct (negb _); [apply quiet_keeps; quiet_step|].
  apply keeps_quiet_then; [repeat quiet_step|]. intros loaded s1 Ea1.
  destruct loaded as [net|e]; [|apply quiet_keeps; quiet_step]. simpl.
  apply keeps_start_then; [congruence|intros []; quiet_step].
Qed.
Lemma mesh_down_keeps s : dspec (handle_mesh_down env) s (fun _ s' new => keeps s s' new).
Proof.
  apply keeps_bind, dspec_get. split; [intros S0 log; by rewrite app_nil_r|]. intros ? [= <-].
  destruct (ds_active s) as [a|] eqn:Ea; [|apply quiet_keeps; quiet_step].
  apply keeps_bind. eapply dspec_mono; [by apply stop_active_keeps|]. simpl. intros r s1 new Hk. split; [done|].
  intros [u|e] _; apply quiet_keeps; unfold clear_active_marker; repeat quiet_step.
Qed.
Lemma mesh_destroy_keeps network s : dspec (handle_mesh_destroy env network) s (fun _ s' new => keeps s s' new).
Proof.
  apply keeps_bind, dspec_get. split; [intros S0 log; by rewrite app_nil_r|]. intros ? [= <-]. simpl.
  destruct (negb _ && negb _); [apply quiet_keeps; quiet_step|].
  apply keeps_bind. eapply (dspec_mono _ _ (fun _ s' new => keeps s s' new)).
  - destruct (ds_active s) as [a|] eqn:Ea; [|apply quiet_keeps; quiet_step].
    destruct (bool_decide _); [by apply stop_active_keeps|apply quiet_keeps; quiet_step].
  - intros r s1 new Hk. split; [done|]. intros [u|e] _; apply quiet_keeps; unfold clear_active_marker; repeat quiet_step.
Qed.

Lemma dispatch_keeps req c s : dispatch_request env addr_parse_error req = Some c ->
  dspec c s (fun _ s' new => keeps s s' new).
Proof.
  unfold dispatch_request. destruct (request_lane req); [intros Hc; by eapply quiet_keeps, handle_shared_quiet|].
  destruct req; simpl; intros [= <-]; try (apply quiet_keeps; quiet_step).
  - apply mesh_join_keeps.
  - apply mesh_init_keeps.
  - apply mesh_up_keeps.
  - apply mesh_down_keeps.
  - apply mesh_destroy_keeps.
Qed.

(** Requests one after another. *)
Fixpoint serve (requests : list DaemonRequest) (st : DaemonState * list DaemonEvent) : DaemonState * list DaemonEvent :=
  match requests with
  | [] => st
  | req :: requests =>
      serve requests (match dispatch_request env addr_parse_error req with Some c => (c st).2 | None => st end)
  end.
Lemma serve_holds S0 requests s log : holds S0 s log ->
  holds S0 (serve requests (s, log)).1 (serve requests (s, log)).2.
Proof.
  revert s log. induction requests as [|req requests IH]; intros s log Hh; simpl; [done|].
  destruct (dispatch_request env addr_parse_error req) as [c|] eqn:Ec; [|by apply IH].
  pose proof (dispatch_keeps req c s Ec log) as Hk. unfold wp in Hk. destruct (c (s, log)) as [r [s1 log1]]. simpl.
  destruct Hk as (new & -> & Hk). apply IH. by apply Hk.
Qed.

(** ** Restarting for a new subnet *)

(** A fact about the services' handles, with what runs. *)
Lemma dspec_named {A} (c : eff DaemonState DaemonEvent string A) R s P Q :
  service_spec c (fun r _ => R r) -> dspec c s P -> (forall r s' new, R r -> P r s' new -> Q r s' new) -> dspec c s Q.
Proof.
  intros HR HP HQ log. eapply wp_mono; [exact (wp_and _ _ _ _ _ (HR s log) (HP log))|].
  simpl. intros r s' log' [(? & _ & Hr) (new & -> & Hn)]. exists new. auto.
Qed.
Definition service_started (s : DaemonState) (r : result string (option SidecarHandle)) (s' : DaemonState)
    (new : list DaemonEvent) : Prop :=
  (exists fs, s' = set_fs fs s) /\ starts (match r with Ok h => service_part h | Err _ => ∅ end) new.
Lemma dspec_docker_gateway s config image :
  dspec (start_managed_gateway (dv_services env) (Some DockerContainer) config image) s
    (fun r s' new => service_started s r s' new /\ named "ployz-gateway" r).
Proof.
  eapply dspec_named; [apply docker_gateway_named|apply (dspec_gateway s _ _ _ (service_started s))|auto].
  intros r fs new Hn. split; [by exists fs|done].
Qed.
Lemma dspec_docker_dns s config image :
  dspec (start_managed_dns (dv_services env) (Some DockerContainer) config image) s
    (fun r s' new => service_started s r s' new /\ named "ployz-dns" r).
Proof.
  eapply dspec_named; [apply docker_dns_named|apply (dspec_dns s _ _ _ (service_started s))|auto].
  intros r fs new Hn. split; [by exists fs|done].
Qed.

(** The components that a call of the restart leaves alone. *)
Lemma stops_none new : Forall (fun e => forall S, apply_daemon_event S e = S) new -> stops ∅ new.
Proof.
  intros Hn. assert (forall S, running_after S new = S) as Hr; [|intros S; rewrite Hr; set_solver].
  induction Hn as [|e new He _ IH]; intros S; [done|]. unfold running_after in *. simpl. by rewrite He.
Qed.

Definition gateway_container : Component := CService (IContainer "ployz-gateway").
Definition dns_container : Component := CService (IContainer "ployz-dns").
(** A successful restart ends with the services it holds stopped. *)
Lemma heal_restart_spec network s a gs ds :
  pf_sidecar_supervision (ds_profile s) = Some DockerContainer -> ds_active s = Some a ->
  am_gateway a = Some (DockerHandle "ployz-gateway" gs) -> am_dns a = Some (DockerHandle "ployz-dns" ds) ->
  dspec (restart_active_runtime_for_subnet_heal env network) s (fun r s' new => match r with
    | Err _ => True
    | Ok _ => exists a', ds_active s' = Some a' /\
        service_part (am_gateway a') = {[gateway_container]} /\ service_part (am_dns a') = {[dns_container]} /\
        exists started stopped, new = (started ++ stopped)%list /\ stops {[gateway_container; dns_container]} stopped
    end).
Proof.
  intros Hsup Ha Hg Hd. apply dspec_bind, dspec_get, dspec_bind, dspec_fs.
  destruct (io_map_err _ _ _) as [[net|e] fs1]; simpl; [|done].
  apply dspec_bind, dspec_lift. destruct (map_err _ _); simpl; [|done]. rewrite Ha.
  apply dspec_bind, dspec_map_err, dspec_ask. intros [u|e]; simpl; [|done]. rewrite Hsup.
  apply dspec_bind, dspec_map_err. eapply dspec_mono; [apply dspec_docker_gateway|].
  intros rg s2 n2 [[[fs2 ->] _] Hg2]. destruct rg as [g2|e]; simpl; [|done].
  apply dspec_bind, dspec_try. eapply dspec_mono; [apply dspec_docker_dns|].
  intros rd s3 n3 [[[fs3 ->] _] Hd3]. destruct rd as [d3|e]; simpl.
  2: { apply dspec_bind, dspec_ignore. unfold gateway_shutdown. apply dspec_shutdown. intros. by apply dspec_fail. }
  destruct Hg2 as [gs2 ->], Hd3 as [ds3 ->]. rewrite Hg, Hd.
  apply dspec_bind, dspec_ignore. unfold dns_shutdown. apply dspec_shutdown. intros _ fs4 n4 Hn4.
  apply dspec_bind, dspec_ignore. unfold gateway_shutdown. apply dspec_shutdown. intros _ fs5 n5 Hn5.
  apply dspec_bind, dspec_put, dspec_bind, dspec_ignore, dspec_ask. intros up1.
  apply dspec_bind, dspec_map_err, dspec_ask. intros [restarted|e]; simpl; [|done].
  apply dspec_bind, dspec_ignore, dspec_ask. intros up2. apply dspec_put. rewrite app_nil_r.
  eexists. split; [done|]. split; [unfold service_part; cbn; set_solver|]. split; [unfold service_part; cbn; set_solver|].
  eexists (_ :: n2 ++ n3)%list, (n4 ++ n5 ++ _)%list. split; [by rewrite <- !app_comm_cons, <- !app_assoc|].
  eapply stops_eq; [apply stops_app; [exact Hn4|]; apply stops_app; [exact Hn5|];
    apply stops_none; by repeat constructor|].
  unfold service_part, gateway_container, dns_container. cbn. set_solver.
Qed.

(** ** Joining with a token *)

Definition join_codes : list string := ["OK"; "INVITE_EXPIRED"; "NETWORK_ALREADY_EXISTS"; "IO_ERROR"; "NETWORK_START_FAILED"].
(** What a join with a valid token answers, and what it runs when it succeeds. *)
Definition joined (invite : InviteClaims) (subnet : Ipv4Net) (s : DaemonState) (r : result string DaemonResponse)
    (s' : DaemonState) : Prop :=
  exists response, r = Ok response /\ rs_code response ∈ join_codes /\
  if rs_ok response
  then exists a, ds_active s' = Some a /\ am_config a =
    network_config_new (ic_network_id invite) (trim (ic_network_name invite)) (idn_public_key (ds_identity s))
      (ds_cluster_cidr s) subnet
  else ds_active s' = None.

Lemma joined_error invite subnet s s' code message :
  code ∈ join_codes -> ds_active s' = None -> joined invite subnet s (Ok (err_response code message)) s'.
Proof. intros Hc Ha. by eexists. Qed.

Lemma mesh_join_spec token invite subnet s :
  parse_and_verify_invite_token token = Ok invite -> ipnet_parse (ic_allocated_subnet invite) = Some subnet ->
  is_empty (trim (ic_network_name invite)) = false -> ds_active s = None ->
  dspec (handle_mesh_join env addr_parse_error token) s (fun r s' _ => joined invite subnet s r s').
Proof.
  intros Hp Hsub Hname Ha. apply dspec_bind, dspec_get. unfold id. rewrite Ha, Hp.
  apply dspec_bind, dspec_call. intros now. destruct (_ <? _)%N; [apply dspec_ret, joined_error; [set_solver|done]|].
  simpl. rewrite Hname. destruct (exists_path _ _); [apply dspec_ret, joined_error; [set_solver|done]|]. rewrite Hsub.
  apply dspec_bind, dspec_try, dspec_fs. destruct (io_map_err _ _ _) as [[u|e] fs1]; simpl;
    [|apply dspec_ret, joined_error; [set_solver|done]].
  apply dspec_bind. eapply (dspec_mono _ _ (fun r s1 _ => exists p fs2, r = Ok p /\ s1 = set_fs fs2 s)).
  { destruct (from_invite invite); [apply dspec_try, dspec_fs; eauto|apply dspec_ret; eauto]. }
  intros r s1 new1 (p & fs2 & -> & ->). destruct p as [u'|e]; [|apply dspec_ret, joined_error; [set_solver|done]].
  apply dspec_bind, dspec_try, dspec_map_err. eapply dspec_mono; [apply start_mesh_spec|].
  intros r s' new2 Hs. destruct r as [name|e]; apply dspec_ret; simpl in Hs.
  - destruct Hs as (_ & a & fs & -> & Hc & _). eexists. split; [done|]. split; [set_solver|]. by exists a.
  - destruct Hs as [[fs ->] _]. apply joined_error; [set_solver|done].
Qed.

(** The claims of an issued token. *)
Lemma do_issue_spec network ttl subnet s log token st :
  do_issue_invite_token env network ttl subnet (s, log) = (Ok token, st) ->
  exists nonce id endpoints now context claims,
    issue_invite_token nonce id (ds_identity s) network ttl now context = Ok (token, claims) /\
    tc_issuer_endpoints context = endpoints /\ tc_allocated_subnet context = ipnet_to_string subnet.
Proof.
  unfold do_issue_invite_token. unfold mbind at 1, mget at 1. cbn [fst id]. destruct (ds_active s) as [a|]; [|done].
  unfold now_unix_secs, mbind, mmap_err, mask, mcall, mlift. cbn [fst snd]. destruct (dv_endpoints env log) as [eps|e]; [|done].
  cbn [map_err]. destruct (issue_invite_token _ _ _ _ _ _ _) as [[tok claims]|e] eqn:E; [|done].
  destruct (dv_create_invite _ _) as [[u|e]|e]; cbn [map_err]; intros [=]; subst. naive_solver.
Qed.
End transaction.

(** ** The theorems *)

Section theorems.
Context `{Keys} `{Base64} `{Build} `{Ipnet} `{RecordCodec InviteClaims} `{RecordCodec NetworkConfig}
  `{RecordCodec (list BootstrapPeerRecord)} `{RecordCodec JoinResponse} `{RecordCodec MeshReadyPayload}.



(** Healing a subnet conflict stops the gateway and the DNS server.  In Docker
    both have fixed container names, so the restart first adopts the running
    containers and then removes them through the old handles: after a successful
    restart whose stops all succeeded the active mesh holds handles of the two
    containers and neither runs. *)
Theorem heal_restart_stops_services (env : DaemonEnv) network s a gateway_service dns_service log :
  pf_sidecar_supervision (ds_profile s) = Some DockerContainer -> ds_active s = Some a ->
  am_gateway a = Some (DockerHandle "ployz-gateway" gateway_service) ->
  am_dns a = Some (DockerHandle "ployz-dns" dns_service) ->
  let '(r, (s', log')) := restart_active_runtime_for_subnet_heal env network (s, log) in
  exists new, log' = (log ++ new)%list /\
  (r = Ok tt -> failed_events new = ∅ -> exists a', ds_active s' = Some a' /\
     service_part (am_gateway a') = {[gateway_container]} /\ service_part (am_dns a') = {[dns_container]} /\
     forall S, gateway_container ∉ running_after S new /\ dns_container ∉ running_after S new).
Proof.
  intros Hsup Ha Hg Hd. pose proof (heal_restart_spec env network s a _ _ Hsup Ha Hg Hd log) as Hs. unfold wp in Hs.
  destruct (restart_active_runtime_for_subnet_heal env network (s, log)) as [r [s' log']]. destruct Hs as (new & -> & Hs).
  exists new. split; [done|]. intros -> Hf. destruct Hs as (a' & Ha' & Hg' & Hd' & started & stopped & -> & Hst).
  exists a'. split_and!; [done..|]. intros S. rewrite running_after_app.
  rewrite failed_events_app in Hf. destruct (Hst (running_after S started)) as [_ Hsub]. set_solver.
Qed.

(** C14: A token that a founder issued is accepted: a machine with no network that
    joins with it is never told that the token is invalid, and when the join succeeds
    it runs the founder's network (same id) on exactly the subnet allocated in
    the token; when it fails no network runs. *)
Theorem invite_join_subnet `{!KeysLaws H} `{!Base64Laws H0} `{!JsonRoundTrip InviteClaims} `{!IpnetLaws H2}
    (founder joiner : DaemonEnv) addr_parse_error network ttl subnet sf logf token st sj logj :
  do_issue_invite_token founder network ttl subnet (sf, logf) = (Ok token, st) -> net_wf subnet ->
  is_empty (trim (nc_name network)) = false -> ds_active sj = None ->
  let '(r, (s', _)) := handle_mesh_join joiner addr_parse_error token (sj, logj) in
  exists response, r = Ok response /\ rs_code response ∈ join_codes /\
  if rs_ok response
  then exists a, ds_active s' = Some a /\ nc_id (am_config a) = nc_id network /\ nc_subnet (am_config a) = subnet /\
    nc_name (am_config a) = trim (nc_name network)
  else ds_active s' = None.
Proof.
  intros Hi Hwf Hname Ha.
  apply (do_issue_spec founder addr_parse_error) in Hi as (nonce & id & endpoints & now & context & claims & Hi & _ & Hsub).
  pose proof (parse_issued _ _ _ _ _ _ _ _ _ Hi) as Hp.
  unfold issue_invite_token in Hi. apply rbind_Ok in Hi as (x & Hx & (p & _ & [= _ <-])%rbind_Ok).
  pose proof (mesh_join_spec joiner addr_parse_error token _ subnet sj Hp) as Hj. cbn in Hj.
  rewrite Hsub, ipnet_parse_to_string in Hj by done. specialize (Hj eq_refl Hname Ha logj). unfold wp in Hj.
  destruct (handle_mesh_join joiner addr_parse_error token (sj, logj)) as [r [s' log']].
  destruct Hj as (new & _ & response & -> & Hc & Hr). exists response. split_and!; [done..|].
  destruct (rs_ok response); [|done]. destruct Hr as (a & Ha' & Hcfg). exists a. by rewrite Hcfg.
Qed.

(** The network that a restart of the daemon would resume. *)
Definition resumed_network (s : DaemonState) : option string := (read_active_network (ds_data_dir s) (ds_fs s)).1.

(** Destroying a network that is not the running one clears the active marker:
    the running network goes on, but after a restart of the daemon nothing is
    resumed. *)
Theorem destroy_other_clears_marker (env : DaemonEnv) network s a log :
  ds_active s = Some a -> nc_name (am_config a) <> network -> fs_faults (ds_fs s) = [] ->
  let '(r, (s', log')) := handle_mesh_destroy env network (s, log) in
  exists response, r = Ok response /\
  (rs_ok response = true -> ds_active s' = Some a /\ log' = log /\
     resumed_network s' = None).
Proof.
  intros Ha Hname Hf. unfold handle_mesh_destroy, running_name. unfold mbind at 1, mget at 1. cbn [fst id].
  rewrite Ha. cbn [fmap option_fmap option_map]. rewrite (bool_decide_eq_false_2 (Some _ = Some _)) by congruence. cbn [negb andb].
  destruct (negb (exists_path _ _)); [eexists; split; [done|]; discriminate|].
  unfold mbind at 1, mret at 1. unfold mbind at 1, mtry at 1, on_fs at 1.
  destruct (network_config_delete (ds_data_dir s) network (ds_fs s)) as [r fs1] eqn:E.
  assert (fs_faults fs1 = []) as Hf1.
  { revert E. unfold network_config_delete, remove_dir_all, operation. rewrite Hf. simpl. repeat case_match; intros [= <- <-]; done. }
  destruct r as [u|e]; [|eexists; split; [done|]; discriminate].
  unfold clear_active_marker, mbind, mget, mtry, on_fs, mret, remove_file, operation. cbn [fst snd ds_fs set_fs ds_data_dir]. rewrite Hf1. simpl.
  destruct (fs_files fs1 !! active_marker_path (ds_data_dir s)) as [c|] eqn:Em; cbn.
  all: eexists; split; [done|]; intros _; split_and!; [done..|]; unfold resumed_network, read_active_network, read_file, operation; simpl.
  - by rewrite lookup_delete_eq.
  - by rewrite Em.
Qed.
End theorems.

(** ** Witnesses *)

Definition ok_services : ServiceEnv DaemonEvent := {|
  sv_current_exe := Ok "/usr/bin/ployzd"; sv_connect _ := Ok tt; sv_ensure _ _ := Ok tt; sv_remove _ _ := Ok tt;
  sv_spawn _ := Ok 1%N; sv_terminate _ _ := Ok tt; sv_kill _ _ := Ok tt; sv_wait _ _ := Ok tt;
  sv_is_active _ _ := Ok true; sv_systemctl _ _ := Ok tt |}.
Definition ok_env : DaemonEnv := {|
  dv_services := ok_services; dv_now _ := 1000%N; dv_random_bytes _ := [7%N]; dv_random_id _ := "net";
  dv_bootstrap_addrs _ := Ok []; dv_components _ := Ok tt; dv_seed_records _ := Ok []; dv_endpoints _ := Ok [];
  dv_mesh_up _ := Ok 1%N; dv_mesh_detach _ := Ok tt; dv_mesh_destroy _ := Ok tt; dv_mesh_update_self _ := Ok tt;
  dv_mesh_restart _ := Ok tt; dv_ready_status _ := Err "no status"; dv_remote_start _ := Ok 1%N;
  dv_remote_stop _ := Ok tt; dv_list_machines _ := Ok []; dv_create_invite _ := Ok (Ok tt); dv_peer_sync _ := Ok true;
  dv_upsert_transient _ := Ok tt |}.

(** A codec of one value. *)
Definition const_codec {T} (x : T) : RecordCodec T := {| to_json _ := Ok "{}"; from_json _ := Ok x |}.
Definition sample_fs : Fs := {|
  fs_files := {[ "/d/networks/alpha/network.json" := "{}"; "/d/networks/old/network.json" := "{}"; "/d/active_network" := "alpha" ]};
  fs_dirs := {[ "/"; "/d"; "/d/networks"; "/d/networks/alpha"; "/d/networks/old" ]}; fs_faults := [] |}.
Definition sample_active : ActiveMesh := {|
  am_config := sample_config; am_mesh := 1; am_remote_control := Some 1%N;
  am_gateway := Some (DockerHandle "ployz-gateway" "gateway-alpha"); am_dns := Some (DockerHandle "ployz-dns" "dns-alpha") |}.
Definition sample_state : DaemonState := {|
  ds_data_dir := "/d"; ds_identity := sample_identity; ds_runtime_target := TargetDocker;
  ds_profile := from_runtime TargetDocker ModeSystem {| bi_networking := "n"; bi_corrosion := "c"; bi_dns := "d"; bi_gateway := "g" |};
  ds_cluster_cidr := "10.210.0.0/16"; ds_subnet_prefix_len := 24; ds_remote_control_port := 4317;
  ds_gateway_listen_addr := "0.0.0.0:80"; ds_gateway_threads := 2; ds_active := Some sample_active; ds_fs := sample_fs |}.

Lemma heal_restart_stops_services_witness :
  let '(r, (s', log')) := @restart_active_runtime_for_subnet_heal (const_codec sample_config) ok_env "alpha"
                            (sample_state, []) in
  r = Ok tt /\ exists a', ds_active s' = Some a' /\ service_part (am_gateway a') = {[gateway_container]} /\
  gateway_container ∉ running_after {[gateway_container]} log'.
Proof.
  pose proof (@heal_restart_stops_services (const_codec sample_config) ok_env "alpha" sample_state sample_active
    _ _ [] eq_refl eq_refl eq_refl eq_refl) as Hh.
  assert ((@restart_active_runtime_for_subnet_heal (const_codec sample_config) ok_env "alpha" (sample_state, [])).1 = Ok tt) as Hr
    by (vm_compute; reflexivity).
  assert (failed_events (@restart_active_runtime_for_subnet_heal (const_codec sample_config) ok_env "alpha" (sample_state, [])).2.2
          = ∅) as Hf by (vm_compute; reflexivity).
  destruct (restart_active_runtime_for_subnet_heal _ _ _) as [r [s' log']]. simpl in *.
  destruct Hh as (new & -> & Hh). simpl in *. split; [done|].
  destruct (Hh Hr Hf) as (a' & ? & ? & _ & Hn). exists a'. split_and!; [done..|apply Hn].
Defined.

Lemma destroy_other_clears_marker_witness :
  let '(r, (s', _)) := handle_mesh_destroy ok_env "old" (sample_state, []) in
  (exists message, r = Ok (ok_response message)) /\ ds_active s' = Some sample_active /\
  resumed_network s' = None.
Proof.
  pose proof (destroy_other_clears_marker ok_env "old" sample_state sample_active [] eq_refl
    ltac:(vm_compute; discriminate) eq_refl) as Hd.
  assert ((handle_mesh_destroy ok_env "old" (sample_state, [])).1 = Ok (ok_response "mesh 'old' destroyed")) as Hr
    by (vm_compute; reflexivity).
  destruct (handle_mesh_destroy _ _ _) as [r [s' log']]. simpl in *. destruct Hd as (response & -> & Hd).
  injection Hr as ->. destruct (Hd eq_refl) as (? & _ & Hm). split; [by eexists|done].
Defined.

Definition joiner_state : DaemonState :=
  set_active None (set_fs {| fs_files := ∅; fs_dirs := ∅; fs_faults := [] |} sample_state).
Definition sample_issue := @do_issue_invite_token ref_keys ref_base64 ref_ipnet (ref_record_codec _) ok_env sample_config 600
  (mkNet 181536768 24) (sample_state, []).
Definition sample_token : string := match sample_issue.1 with Ok token => token | Err _ => "" end.
Lemma sample_issue_ok : sample_issue = (Ok sample_token, sample_issue.2).
Proof.
  assert (is_ok sample_issue.1 = true) as Hi by (vm_compute; reflexivity). unfold sample_token.
  by destruct sample_issue as [[token|e] st].
Qed.
Definition sample_join := @handle_mesh_join ref_keys ref_base64 ref_ipnet (ref_record_codec _) (const_codec sample_config)
  (const_codec []) ok_env (fun _ => "") sample_token (joiner_state, []).
Lemma invite_join_subnet_witness :
  (exists message, sample_join.1 = Ok (ok_response message)) /\
  exists a, ds_active sample_join.2.1 = Some a /\ nc_id (am_config a) = "net" /\ nc_subnet (am_config a) = mkNet 181536768 24.
Proof.
  pose proof (@invite_join_subnet ref_keys ref_base64 ref_ipnet (ref_record_codec _) (const_codec sample_config) (const_codec [])
    ref_keys_laws ref_base64_laws (ref_json_round_trip _) ref_ipnet_laws ok_env ok_env (fun _ => "") sample_config 600
    (mkNet 181536768 24) sample_state [] sample_token sample_issue.2 joiner_state []
    sample_issue_ok ltac:(split; vm_compute; congruence) ltac:(vm_compute; reflexivity) eq_refl) as Hj.
  change (handle_mesh_join _ _ _ _) with sample_join in Hj.
  assert (sample_join.1 = Ok (ok_response "joined and started network 'alpha'")) as Hr by (vm_compute; reflexivity).
  destruct sample_join as [r [s' log']]. simpl in *. destruct Hj as (response & -> & _ & Hj). injection Hr as ->.
  split; [by eexists|]. destruct Hj as (a & ? & ? & ? & _). by exists a.
Defined.
