(* ===== verification/Operations.v ===== *)
(** * Machine operations

    [ployzd/src/daemon/handlers/machine/operations.rs] and the stages, failures and
    reports of [types.rs]: every operation on another machine keeps a record in a
    file of its own under the data directory, from which a restarted daemon tells
    what was interrupted. *)

From S2P Require Import Prelude Order Effect Text Types RefCodec Spec Container Files Invite Services Api.
Local Open Scope string_scope.

Definition OPERATIONS_DIR_NAME : string := "machine-operations".

Inductive MachineOperationKind := OpInit | OpAdd | OpHeal.
#[export] Instance MachineOperationKind_eq_dec : EqDecision MachineOperationKind.
Proof. solve_decision. Defined.
Definition kind_as_str (self : MachineOperationKind) : string :=
  match self with OpInit => "init" | OpAdd => "add" | OpHeal => "heal" end.
Inductive MachineOperationStatus := OpRunning | OpSucceeded | OpFailed | OpInterrupted.
#[export] Instance MachineOperationStatus_eq_dec : EqDecision MachineOperationStatus.
Proof. solve_decision. Defined.
Definition status_as_str (self : MachineOperationStatus) : string :=
  match self with
  | OpRunning => "running" | OpSucceeded => "succeeded" | OpFailed => "failed" | OpInterrupted => "interrupted"
  end.
Record MachineOperationArtifacts := {
  oa_machine_id : option MachineId; oa_invite_id : option string; oa_allocated_subnet : option string;
  oa_uses_operation_identity : bool
}.
Definition no_artifacts : MachineOperationArtifacts := {|
  oa_machine_id := None; oa_invite_id := None; oa_allocated_subnet := None; oa_uses_operation_identity := false |}.
#[export] Instance MachineOperationArtifacts_eq_dec : EqDecision MachineOperationArtifacts.
Proof. solve_decision. Defined.
Record MachineOperationRecord := {
  op_id : string; op_kind : MachineOperationKind; op_network_name : option string; op_targets : list string;
  op_status : MachineOperationStatus; op_stage : string; op_started_at : N; op_updated_at : N;
  op_last_error : option string; op_artifacts : MachineOperationArtifacts
}.
Definition operation_info (self : MachineOperationRecord) : MachineOperationInfo := {|
  oi_id := op_id self; oi_kind := kind_as_str (op_kind self); oi_network_name := op_network_name self;
  oi_targets := op_targets self; oi_status := status_as_str (op_status self); oi_stage := op_stage self;
  oi_started_at := op_started_at self; oi_updated_at := op_updated_at self; oi_last_error := op_last_error self;
  oi_machine_id := oa_machine_id (op_artifacts self); oi_invite_id := oa_invite_id (op_artifacts self);
  oi_allocated_subnet := oa_allocated_subnet (op_artifacts self) |}.

Definition set_stage (stage : string) (now : N) (r : MachineOperationRecord) : MachineOperationRecord := {|
  op_id := op_id r; op_kind := op_kind r; op_network_name := op_network_name r; op_targets := op_targets r;
  op_status := op_status r; op_stage := stage; op_started_at := op_started_at r; op_updated_at := now;
  op_last_error := op_last_error r; op_artifacts := op_artifacts r |}.
(** An error is kept until another replaces it. *)
Definition set_status (status : MachineOperationStatus) (last_error : option string) (now : N)
    (r : MachineOperationRecord) : MachineOperationRecord := {|
  op_id := op_id r; op_kind := op_kind r; op_network_name := op_network_name r; op_targets := op_targets r;
  op_status := status; op_stage := op_stage r; op_started_at := op_started_at r; op_updated_at := now;
  op_last_error := match last_error with Some e => Some e | None => op_last_error r end; op_artifacts := op_artifacts r |}.
Definition set_machine_id (id : MachineId) (r : MachineOperationRecord) : MachineOperationRecord := {|
  op_id := op_id r; op_kind := op_kind r; op_network_name := op_network_name r; op_targets := op_targets r;
  op_status := op_status r; op_stage := op_stage r; op_started_at := op_started_at r; op_updated_at := op_updated_at r;
  op_last_error := op_last_error r;
  op_artifacts := {| oa_machine_id := Some id; oa_invite_id := oa_invite_id (op_artifacts r);
                     oa_allocated_subnet := oa_allocated_subnet (op_artifacts r);
                     oa_uses_operation_identity := oa_uses_operation_identity (op_artifacts r) |} |}.

#[export] Instance MachineOperationRecord_eq_dec : EqDecision MachineOperationRecord.
Proof. solve_decision. Defined.
#[export] Instance MachineOperationRecord_countable : Countable MachineOperationRecord.
Proof.
  refine (inj_countable' (fun r => (op_id r, match op_kind r with OpInit => 0 | OpAdd => 1 | OpHeal => 2 end, op_network_name r,
      op_targets r, match op_status r with OpRunning => 0 | OpSucceeded => 1 | OpFailed => 2 | OpInterrupted => 3 end,
      (op_stage r, op_started_at r, op_updated_at r, op_last_error r),
      (oa_machine_id (op_artifacts r), oa_invite_id (op_artifacts r), oa_allocated_subnet (op_artifacts r),
       oa_uses_operation_identity (op_artifacts r))))
    (fun '(a, k, n, t, st, (stage, sa, ua, e), (m, i, al, u)) => Build_MachineOperationRecord a
       (match k with 0 => OpInit | 1 => OpAdd | _ => OpHeal end) n t
       (match st with 0 => OpRunning | 1 => OpSucceeded | 2 => OpFailed | _ => OpInterrupted end) stage sa ua e
       (Build_MachineOperationArtifacts m i al u)) _).
  by intros [? [] ? ? [] ? ? ? ? []].
Defined.

(** ** The store of operations *)

Definition operations_dir (root : PathBuf) : PathBuf := path_join root OPERATIONS_DIR_NAME.
Definition path_for (root : PathBuf) (id : string) : PathBuf := path_join (operations_dir root) (id +:+ ".json").
Definition unique_operation_id (kind : MachineOperationKind) (now nanos : N) : string :=
  "machine-" +:+ kind_as_str kind +:+ "-" +:+ dec now +:+ "-" +:+ dec nanos.

Fixpoint io_map {E A B} (f : A -> fs_eff E B) (l : list A) : fs_eff E (list B) :=
  match l with
  | [] => io_ret []
  | x :: l => y <-/ f x ;; ys <-/ io_map f l ;; io_ret (y :: ys)
  end.

Section store.
Context `{RecordCodec MachineOperationRecord}.

Definition read_machine_operation (path : PathBuf) : io MachineOperationRecord :=
  body <-/ io_map_err (fun err => "read machine operation '" +:+ path +:+ "': " +:+ err) (read_file path) ;;
  io_lift (map_err (fun err => "decode machine operation '" +:+ path +:+ "': " +:+ err) (from_json body)).
Definition op_save (root : PathBuf) (record : MachineOperationRecord) : io unit :=
  let path := path_for root (op_id record) in
  _ <-/ match path_parent path with
        | Some parent =>
            io_map_err (fun err => "create machine operations dir '" +:+ parent +:+ "': " +:+ err) (create_dir_all parent)
        | None => io_ret tt
        end ;;
  body <-/ io_lift (map_err (fun err => "encode machine operation '" +:+ op_id record +:+ "': " +:+ err) (to_json record)) ;;
  io_map_err (fun err => "write machine operation '" +:+ path +:+ "': " +:+ err) (write_file path body).
Definition op_begin (root : PathBuf) (kind : MachineOperationKind) (network_name : option string) (targets : list string)
    (stage : string) (artifacts : MachineOperationArtifacts) (now nanos : N) : io MachineOperationRecord :=
  let record := {|
    op_id := unique_operation_id kind now nanos; op_kind := kind; op_network_name := network_name; op_targets := targets;
    op_status := OpRunning; op_stage := stage; op_started_at := now; op_updated_at := now; op_last_error := None;
    op_artifacts := artifacts |} in
  _ <-/ op_save root record ;;
  io_ret record.
Definition op_load (root : PathBuf) (id : string) : io (option MachineOperationRecord) := fun fs =>
  let path := path_for root id in
  if exists_path path fs then (r <-/ read_machine_operation path ;; io_ret (Some r)) fs else (Ok None, fs).

(** Latest first. *)
Definition operation_cmp (left right : MachineOperationRecord) : comparison :=
  match (op_started_at right ?= op_started_at left)%N with Eq => str_cmp (op_id left) (op_id right) | c => c end.
Definition op_list (root : PathBuf) : io (list MachineOperationRecord) :=
  let dir := operations_dir root in
  entries <-/ io_map_err (fun err => "read machine operations dir '" +:+ dir +:+ "': " +:+ err) (read_dir dir) ;;
  match entries with
  | None => io_ret []
  | Some entries =>
      records <-/ io_map read_machine_operation (filter (fun p => path_extension p = Some "json") entries) ;;
      io_ret (sort_by operation_cmp records)
  end.
End store.

(** A [BTreeMap] of the two notes: sorted, and one when they are equal. *)
Definition merge_operation_notes (existing : option string) (next : string) : string :=
  match existing with
  | None => next
  | Some e => match str_cmp e next with
              | Lt => e +:+ "; " +:+ next
              | Gt => next +:+ "; " +:+ e
              | Eq => next
              end
  end.

(** ** Stages and reports of adding machines ([types.rs]) *)

Inductive MachineAddStage :=
  Preflight | Bootstrapped | Joined | SelfRecorded | TransientPeerInstalled | Ready | Finalized.
#[export] Instance MachineAddStage_eq_dec : EqDecision MachineAddStage.
Proof. solve_decision. Defined.
Definition stage_to_string (self : MachineAddStage) : string :=
  match self with
  | Preflight => "preflight" | Bootstrapped => "bootstrapped" | Joined => "joined" | SelfRecorded => "self-recorded"
  | TransientPeerInstalled => "transient-peer-installed" | Ready => "ready" | Finalized => "finalized"
  end.
Definition stage_from_str (value : string) : result string MachineAddStage :=
  if decide (value = "preflight") then Ok Preflight
  else if decide (value = "bootstrapped") then Ok Bootstrapped
  else if decide (value = "joined") then Ok Joined
  else if decide (value = "self-recorded") then Ok SelfRecorded
  else if decide (value = "transient-peer-installed") then Ok TransientPeerInstalled
  else if decide (value = "ready") then Ok Ready
  else if decide (value = "finalized") then Ok Finalized
  else Err ("unknown machine add stage '" +:+ value +:+ "'").

Inductive MachineAddFailure :=
| FailPreflight (reason : string) | FailJoin (reason : string) | FailSelfRecord (reason : string) | FailReady (reason : string).
Definition failure_reason (self : MachineAddFailure) : string :=
  match self with FailPreflight reason | FailJoin reason | FailSelfRecord reason | FailReady reason => reason end.
Inductive MachineAddTargetResult :=
| AwaitingSelfPublication (target : string) (joiner_id : MachineId)
| TargetFailed (target : string) (failure : MachineAddFailure).

Record MachineAddReport := {
  ar_warnings : list string; ar_awaiting_self_publication : list string; ar_failed_preflight : list string;
  ar_failed_join : list string; ar_failed_self_record : list string; ar_failed_ready : list string;
  ar_awaiting_payload : list MachineAwaitingSelfPublication
}.
Definition report_with_warnings (warnings : list string) : MachineAddReport := {|
  ar_warnings := warnings; ar_awaiting_self_publication := []; ar_failed_preflight := []; ar_failed_join := [];
  ar_failed_self_record := []; ar_failed_ready := []; ar_awaiting_payload := [] |}.
Definition report_push (self : MachineAddReport) (outcome : MachineAddTargetResult) : MachineAddReport :=
  let add (x : string) (b : bool) (l : list string) := if b then (l ++ [x])%list else l in
  match outcome with
  | AwaitingSelfPublication target joiner_id => {|
      ar_warnings := ar_warnings self;
      ar_awaiting_self_publication := (ar_awaiting_self_publication self ++ [target +:+ " -> " +:+ joiner_id])%list;
      ar_failed_preflight := ar_failed_preflight self; ar_failed_join := ar_failed_join self;
      ar_failed_self_record := ar_failed_self_record self; ar_failed_ready := ar_failed_ready self;
      ar_awaiting_payload := (ar_awaiting_payload self ++ [{| aw_target := target; aw_joiner_id := joiner_id |}])%list |}
  | TargetFailed target failure =>
      let line := target +:+ ": " +:+ failure_reason failure in {|
      ar_warnings := ar_warnings self; ar_awaiting_self_publication := ar_awaiting_self_publication self;
      ar_failed_preflight := add line (match failure with FailPreflight _ => true | _ => false end) (ar_failed_preflight self);
      ar_failed_join := add line (match failure with FailJoin _ => true | _ => false end) (ar_failed_join self);
      ar_failed_self_record := add line (match failure with FailSelfRecord _ => true | _ => false end) (ar_failed_self_record self);
      ar_failed_ready := add line (match failure with FailReady _ => true | _ => false end) (ar_failed_ready self);
      ar_awaiting_payload := ar_awaiting_payload self |}
  end.
Definition is_nil {A} (l : list A) : bool := match l with [] => true | _ => false end.
Definition has_failures (self : MachineAddReport) : bool :=
  negb (is_nil (ar_failed_preflight self)) || negb (is_nil (ar_failed_join self))
  || negb (is_nil (ar_failed_self_record self)) || negb (is_nil (ar_failed_ready self)).
Definition report_payload (self : MachineAddReport) : MachineAddPayload := {|
  ap_warnings := ar_warnings self; ap_awaiting_self_publication := ar_awaiting_payload self;
  ap_failed_preflight := ar_failed_preflight self; ap_failed_join := ar_failed_join self;
  ap_failed_self_record := ar_failed_self_record self; ap_failed_ready := ar_failed_ready self |}.

(** ** Well-formed operation directories *)

Section wf.
Context `{RecordCodec MachineOperationRecord} `{!JsonRoundTrip MachineOperationRecord}.
Context (root : PathBuf).

(** The file [p] holds the record [r] under the name that [r] has. *)
Definition stored_at (fs : Fs) (p : PathBuf) (r : MachineOperationRecord) : Prop :=
  (exists body, fs_files fs !! p = Some body /\ from_json body = Ok r) /\ p = path_for root (op_id r) /\
  path_parent p = Some (operations_dir root).
Definition stored (fs : Fs) (r : MachineOperationRecord) : Prop := stored_at fs (path_for root (op_id r)) r.
(** No operation fails, the directory exists, and each of its [.json] entries holds a record. *)
Record ops_wf (fs : Fs) : Prop := {
  wf_faults : fs_faults fs = [];
  wf_dirs : Forall (fun d => d ∈ fs_dirs fs /\ fs_files fs !! d = None) (ancestors "" (operations_dir root));
  wf_self : operations_dir root ∈ fs_dirs fs;
  wf_entries : forall p, is_child (operations_dir root) p = true -> path_extension p = Some "json" ->
    (is_Some (fs_files fs !! p) \/ p ∈ fs_dirs fs) -> p ∉ fs_dirs fs /\ exists r, stored_at fs p r
}.

(** [fs'] is [fs] with record [r] in its file. *)
Definition saved (fs fs' : Fs) (r : MachineOperationRecord) : Prop :=
  ops_wf fs' /\ stored fs' r /\ forall p, p <> path_for root (op_id r) -> fs_files fs' !! p = fs_files fs !! p.

(** The directory is created again without a change. *)
Lemma create_operations_dir fs : ops_wf fs -> exists fs1,
  create_dir_all (operations_dir root) fs = (Ok tt, fs1) /\
  fs_files fs1 = fs_files fs /\ fs_dirs fs1 = fs_dirs fs /\ fs_faults fs1 = [].
Proof.
  intros Hwf. pose proof (wf_dirs fs Hwf) as Hdirs. rewrite Forall_forall in Hdirs.
  unfold create_dir_all, operation. rewrite (wf_faults fs Hwf). simpl. rewrite decide_False.
  - eexists. split_and!; [done|done| |done]. simpl. apply set_eq. intros d. rewrite elem_of_union, elem_of_list_to_set. naive_solver.
  - rewrite Exists_exists. intros (d & Hd & [c Hc]). destruct (Hdirs d Hd). congruence.
Qed.
(** Replacing the file of one record by another record of the same name. *)
Lemma ops_wf_insert fs fs' p r :
  ops_wf fs -> is_Some (fs_files fs !! p) -> (forall q, q <> p -> fs_files fs' !! q = fs_files fs !! q) ->
  fs_dirs fs' = fs_dirs fs -> fs_faults fs' = [] -> p ∉ fs_dirs fs -> stored_at fs' p r -> ops_wf fs'.
Proof.
  intros Hwf [c Hp] Hother Hdirs Hf Hnd Hst. split; [done| | |]; rewrite ?Hdirs; [|apply (wf_self fs Hwf)|].
  - eapply Forall_impl; [apply (wf_dirs fs Hwf)|]. simpl. intros d [Hd Hn]. split; [done|]. rewrite Hother; [done|].
    intros ->. congruence.
  - intros q Hq He Hor. destruct (decide (q = p)) as [->|Hne]; [by eauto|]. rewrite Hother in Hor by done.
    destruct (wf_entries fs Hwf q Hq He Hor) as [Hd (r' & (b & Hbq & Hr') & Hpq)]. split; [done|].
    exists r'. split; [exists b; by rewrite Hother|done].
Qed.

Lemma op_save_stored fs old r :
  ops_wf fs -> stored fs old -> path_extension (path_for root (op_id old)) = Some "json" -> op_id r = op_id old ->
  exists fs', op_save root r fs = (Ok tt, fs') /\ saved fs fs' r.
Proof.
  intros Hwf Hold Hext Hid. destruct Hold as [(body & Hb & Hdec) [_ Hpar]].
  destruct (json_round_trip r) as (text & Htext & Hread).
  assert (is_child (operations_dir root) (path_for root (op_id old)) = true) as Hchild by by apply bool_decide_eq_true.
  destruct (wf_entries fs Hwf _ Hchild Hext (or_introl (ex_intro _ _ Hb))) as [Hnd _].
  destruct (create_operations_dir fs Hwf) as (fs1 & Hcreate & Hfiles & Hdirs & Hf).
  set (p := path_for root (op_id old)) in *.
  assert (write_file p text fs1 = (Ok tt, with_files (insert p text) fs1)) as Hwrite.
  { destruct fs1 as [files dirs faults]. simpl in Hfiles, Hdirs, Hf. subst. unfold write_file, operation. simpl.
    rewrite decide_False by done. rewrite Hpar. by rewrite decide_True by apply (wf_self fs Hwf). }
  exists (with_files (insert p text) fs1). unfold op_save. rewrite Hid. fold p. rewrite Hpar, Htext.
  unfold io_bind, io_map_err, io_lift. rewrite Hcreate. simpl. rewrite Hwrite. split; [done|].
  assert (stored_at (with_files (insert p text) fs1) p r) as Hst
    by (split; [exists text; simpl; by rewrite lookup_insert_eq|by rewrite Hid]).
  assert (forall q, q <> p -> fs_files (with_files (insert p text) fs1) !! q = fs_files fs !! q) as Hother
    by (intros q Hq; simpl; by rewrite lookup_insert_ne, Hfiles).
  split_and!; [|unfold stored; by rewrite Hid|by rewrite Hid].
  by eapply ops_wf_insert.
Qed.

(** ** Listing *)

Definition json_entry (p : PathBuf) : Prop := path_extension p = Some "json".
Lemma io_map_read fs (ps : list PathBuf) (rs : list MachineOperationRecord) :
  fs_faults fs = [] -> Forall2 (stored_at fs) ps rs -> io_map read_machine_operation ps fs = (Ok rs, fs).
Proof.
  intros Hf Hrs. induction Hrs as [|p r ps rs [(b & Hb & Hr) _] Hrs IH]; [done|]. cbn [io_map].
  assert (read_machine_operation p fs = (Ok r, fs)) as Hread.
  { unfold read_machine_operation, io_bind, io_map_err, io_lift, read_file, operation.
    destruct fs as [files dirs faults]. simpl in *. subst. simpl. rewrite Hb. simpl. by rewrite Hr. }
  unfold io_bind at 1. rewrite Hread. unfold io_bind. by rewrite IH.
Qed.
Lemma stored_at_unique fs p r r' : stored_at fs p r -> stored_at fs p r' -> r = r'.
Proof. intros [(b & Hb & Hr) _] [(b' & Hb' & Hr') _]. congruence. Qed.
Lemma stored_all fs ps : Forall (fun p => exists r, stored_at fs p r) ps -> exists rs, Forall2 (stored_at fs) ps rs.
Proof.
  induction 1 as [|p ps [r Hr] _ [rs IH]]; [by exists []|]. exists (r :: rs). by constructor.
Qed.
Lemma stored_paths fs ps rs : Forall2 (stored_at fs) ps rs -> path_for root <$> (op_id <$> rs) = ps.
Proof. induction 1 as [|p r ps rs [_ [-> _]] _ IH]; [done|]. cbn. f_equal. exact IH. Qed.

(** The entries that are read. *)
Definition entry_paths (fs : Fs) : list PathBuf :=
  filter json_entry (filter (fun p => is_child (operations_dir root) p = true) (map_to_list (fs_files fs)).*1).
Lemma elem_of_entry_paths fs p : p ∈ entry_paths fs <->
  json_entry p /\ is_child (operations_dir root) p = true /\ is_Some (fs_files fs !! p).
Proof.
  unfold entry_paths. rewrite !list_elem_of_filter, list_elem_of_fmap. split.
  - intros (? & ? & [q c] & -> & Hq%elem_of_map_to_list). eauto.
  - intros (? & ? & c & Hc). split_and!; [done..|]. exists (p, c). by rewrite elem_of_map_to_list.
Qed.
Lemma read_entries fs : ops_wf fs -> exists entries,
  read_dir (operations_dir root) fs = (Ok (Some entries), fs) /\ filter json_entry entries = entry_paths fs.
Proof.
  intros Hwf. pose proof (wf_faults fs Hwf) as Hf. pose proof (wf_self fs Hwf) as Hself. unfold read_dir, operation. rewrite Hf. simpl.
  rewrite decide_True by done.
  assert ({| fs_files := fs_files fs; fs_dirs := fs_dirs fs; fs_faults := [] |} = fs) as -> by (destruct fs; simpl in *; by subst).
  eexists. split; [done|].
  rewrite filter_app. unfold entry_paths. rewrite <- (app_nil_r (filter json_entry (filter _ (map_to_list _).*1))) at 2. f_equal.
  apply elem_of_nil_inv. intros p [Hj [Hp Hd%elem_of_elements]%list_elem_of_filter]%list_elem_of_filter.
  by destruct (wf_entries fs Hwf p Hp Hj (or_intror Hd)).
Qed.

Lemma op_list_spec fs : ops_wf fs -> exists records,
  op_list root fs = (Ok records, fs) /\ NoDup (op_id <$> records) /\
  forall r, r ∈ records <-> stored fs r /\ json_entry (path_for root (op_id r)).
Proof.
  intros Hwf. destruct (read_entries fs Hwf) as (entries & Hread & Hentries).
  destruct (stored_all fs (entry_paths fs)) as [rs Hrs].
  { apply Forall_forall. intros p (Hj & Hc & Hs)%elem_of_entry_paths. by destruct (wf_entries fs Hwf p Hc Hj (or_introl Hs)). }
  exists (sort_by operation_cmp rs). split_and!.
  - unfold op_list, io_bind at 1, io_map_err. rewrite Hread. simpl.
    change (filter (fun p => path_extension p = Some "json") entries) with (filter json_entry entries). rewrite Hentries.
    unfold io_bind. by rewrite (io_map_read fs _ rs (wf_faults fs Hwf) Hrs).
  - rewrite (fmap_Permutation op_id _ _ (sort_by_perm operation_cmp rs)).
    apply (NoDup_fmap_1 (path_for root)). rewrite (stored_paths fs _ rs Hrs). unfold entry_paths.
    apply NoDup_filter, NoDup_filter, NoDup_fst_map_to_list.
  - intros r. rewrite (sort_by_perm operation_cmp rs). split.
    + intros Hr. apply list_elem_of_lookup in Hr as [i Hi]. destruct (Forall2_lookup_r _ _ _ _ _ Hrs Hi) as (p & Hp & Hst).
      apply list_elem_of_lookup_2, elem_of_entry_paths in Hp as (Hj & _). pose proof Hst as [_ [-> _]]. done.
    + intros [Hst Hj]. assert (path_for root (op_id r) ∈ entry_paths fs) as Hin.
      { apply elem_of_entry_paths. destruct Hst as [(b & Hb & _) [_ Hpar]]. split_and!; [done|by apply bool_decide_eq_true|by exists b]. }
      apply list_elem_of_lookup in Hin as [i Hi]. destruct (Forall2_lookup_l _ _ _ _ _ Hrs Hi) as (r' & Hr' & Hst').
      rewrite (stored_at_unique _ _ _ _ Hst Hst'). by apply list_elem_of_lookup_2 in Hr'.
Qed.
End wf.
