(* ===== verification/Machines.v ===== *)
(** * Adding, listing and removing machines

    [ployzd/src/daemon/handlers/machine] ([join.rs], [list.rs], [render.rs], the
    handlers of [operations.rs]), the commands of [ssh.rs] and the client of
    [ployz-sdk].  SSH, the daemons it reaches, the stores and the clock answer
    through [MachineEnv]; every call is logged with its answer. *)

From S2P Require Import Prelude Order Effect Text Types Addr RefCodec Spec Base64 Files Invite IpnetRef Ipam Liveness Mesh Container.
From S2P Require Import Services Api Daemon Startup Operations.
Local Open Scope string_scope.
Local Open Scope eff_scope.

(** ** Shell words ([shell_quote] of [join.rs], [shell_render] of [transport/stdio.rs]) *)

Definition apostrophe : string := String (ascii_of_N 39) "".
Definition quoted_apostrophe : string := apostrophe +:+ quote +:+ apostrophe +:+ quote +:+ apostrophe.
Definition shell_quote (value : string) : string :=
  apostrophe +:+ replace_char (ascii_of_N 39) quoted_apostrophe value +:+ apostrophe.
Definition shell_safe_char (c : ascii) : bool :=
  is_ascii_alphanumeric c || contains_char c "-_./:".
Definition shell_render (value : string) : string :=
  if all_chars shell_safe_char value then value else shell_quote value.

Definition install_args (install : MachineInstallOptions) : list string :=
  (["install"] ++
   match mi_runtime_target install with
   | Some t => ["--runtime"; match t with InstallDocker => "docker" | InstallHost => "host" end] | None => [] end ++
   match mi_service_mode install with
   | Some m => ["--service-mode"; match m with InstallUser => "user" | InstallSystem => "system" end] | None => [] end ++
   match mi_source install with
   | Some s => ["--source"; match s with InstallRelease => "release" | InstallGit => "git" end] | None => [] end ++
   match mi_version install with Some v => ["--version"; shell_quote v] | None => [] end ++
   match mi_git_url install with Some u => ["--git-url"; shell_quote u] | None => [] end ++
   match mi_git_ref install with Some r => ["--git-ref"; shell_quote r] | None => [] end)%list.
Definition install_script_args (install : MachineInstallOptions) : string := join_with " " (install_args install).
Definition install_command (install : MachineInstallOptions) : string :=
  "bash -s -- " +:+ install_script_args install.

(** ** SSH ([ssh.rs]) and the client ([ployz-sdk]) *)

Definition SshOptions : Type := option PathBuf.
Definition ssh_args (target remote_script : string) (options : SshOptions) : list string :=
  (["-o"; "BatchMode=yes"; "-o"; "StrictHostKeyChecking=accept-new"; "-o"; "ConnectTimeout=10"] ++
   match options with Some identity_file => ["-i"; identity_file; "-o"; "IdentitiesOnly=yes"] | None => [] end ++
   [target; remote_script])%list.
Definition command_display (target remote_script : string) (options : SshOptions) : string :=
  join_with " " (shell_render <$> ("ssh" :: ssh_args target remote_script options)).

(** [DaemonClient::request_ok] and [extract_payload], on the transport's answer. *)
Definition client_request_ok (answer : result string DaemonResponse) : result string DaemonResponse :=
  response <-? answer ;;
  if rs_ok response then Ok response
  else Err ("daemon error [" +:+ rs_code response +:+ "]: " +:+ rs_message response).
Definition extract_payload {T} (response : DaemonResponse) (expected : string) (extract : DaemonPayload -> option T)
    : result string T :=
  match rs_payload response with
  | None => Err ("missing " +:+ expected +:+ " payload")
  | Some payload => ok_or (extract payload) ("unexpected payload for " +:+ expected)
  end.
Definition client_mesh_ready (answer : result string DaemonResponse) : result string MeshReadyPayload :=
  response <-? client_request_ok answer ;;
  extract_payload response "mesh ready" (fun payload => match payload with PlMeshReady payload => Some payload | _ => None end).
Definition client_mesh_self_record (answer : result string DaemonResponse) : result string MachineRecord :=
  response <-? client_request_ok answer ;;
  extract_payload response "mesh self record"
    (fun payload => match payload with PlMeshSelfRecord _ record => Some record | _ => None end).
Definition client_machine_list (answer : result string DaemonResponse) : result string (list MachineListRow) :=
  response <-? client_request_ok answer ;;
  extract_payload response "machine list" (fun payload => match payload with PlMachineList rows => Some rows | _ => None end).

Definition remote_ployz : string := quote +:+ "$HOME/.local/bin/ployz" +:+ quote.
Definition REMOTE_STATUS_COMMAND : string := "set -eu; " +:+ remote_ployz +:+ " status >/dev/null".
Definition REMOTE_PLOYZ_VERSION_COMMAND : string := "set -eu; " +:+ remote_ployz +:+ " --version".
Definition REMOTE_RPC_COMMAND : string := "set -eu; " +:+ remote_ployz +:+ " rpc-stdio".
Definition INVITE_TTL_SECS : N := 600.
(** Times in milliseconds. *)
Definition REMOTE_READY_TIMEOUT : N := 30000.
Definition REMOTE_READY_POLL_INTERVAL : N := 1000.

(** ** The environment *)

(** A finished process; a process ended by a signal has no code. *)
Record ProcessOutput := { po_code : option N; po_stdout : string; po_stderr : string }.
Inductive RemoteEvent :=
| MeDaemon (e : DaemonEvent)
| MeNow
| MeNanos
| MeClock (ms : N)                                                       (* [Instant::now] *)
| MeSleep (ms : N)
| MeVersion (path : PathBuf) (r : result string ProcessOutput)           (* [ployz --version] here *)
| MeIdentity (r : result string PathBuf)                                 (* [EphemeralSshIdentityFile::write] *)
| MeInstaller (r : result string PathBuf)                                (* [find_installer_script] *)
| MeSsh (target script : string) (stdin : option string) (options : SshOptions) (r : result string string)
| MeRpc (target : string) (request : DaemonRequest) (options : SshOptions) (r : result string DaemonResponse)
| MeTimedRpc (target : string) (request : DaemonRequest) (options : SshOptions)
    (r : option (result string DaemonResponse))                          (* [None]: the time ran out *)
| MeUpsertTransient (record : MachineRecord) (r : result string unit)
| MeRemoveTransient (id : MachineId) (r : result string unit)
| MeConsumeInvite (invite_id : string) (now : N) (r : result string unit)
| MeListMachines (r : result string (list MachineRecord))
| MeDeleteMachine (id : MachineId) (r : result string unit).

Abbreviation Log := (list RemoteEvent) (only parsing).
Record MachineEnv := {
  mv_daemon : DaemonEnv;
  mv_now : Log -> N;
  mv_nanos : Log -> N;
  mv_clock : Log -> N;
  mv_version : PathBuf -> Log -> result string ProcessOutput;
  mv_identity : Log -> result string PathBuf;
  mv_installer : Log -> result string PathBuf;
  mv_ssh : string -> string -> Log -> result string string;
  mv_rpc : string -> DaemonRequest -> Log -> result string DaemonResponse;
  mv_timed_rpc : string -> DaemonRequest -> Log -> option (result string DaemonResponse);
  mv_peer_sync : Log -> bool;
  mv_upsert_transient : Log -> result string unit;
  mv_remove_transient : MachineId -> Log -> result string unit;
  mv_consume_invite : string -> Log -> result string unit;
  mv_list_machines : Log -> result string (list MachineRecord);
  mv_delete_machine : MachineId -> Log -> result string unit
}.
Definition as_daemon_event (e : RemoteEvent) : option DaemonEvent := match e with MeDaemon e => Some e | _ => None end.

(** A [Duration] in seconds is printed with its unit. *)
Definition duration_debug (ms : N) : string := dec (ms / 1000) +:+ "s".
Definition has_substring (needle s : string) : bool := match String.index 0 needle s with Some _ => true | None => false end.

Section machines.
Context `{Keys} `{Base64} `{Build} `{Ipnet} `{RecordCodec InviteClaims} `{RecordCodec MachineOperationRecord}.
Context (env : MachineEnv) (addr_parse_error : string -> string).
Abbreviation M A := (eff DaemonState RemoteEvent string A) (only parsing).

(** The daemon's own operations. *)
Definition on_daemon {A} (c : eff DaemonState DaemonEvent string A) : M A := fun '(s, log) =>
  let before := omap as_daemon_event log in
  let '(r, (s', after)) := c (s, before) in
  (r, (s', (log ++ (MeDaemon <$> drop (length before) after))%list)).

Definition machine_now : M N := mobserve (mv_now env) (fun _ => MeNow).
Definition clock : M N := mobserve (mv_clock env) MeClock.
Definition sleep (ms : N) : M unit := mobserve (fun _ => tt) (fun _ => MeSleep ms).

(** ** Operation records *)

Definition begin_operation (kind : MachineOperationKind) (network_name : option string) (targets : list string)
    (stage : string) (artifacts : MachineOperationArtifacts) : M MachineOperationRecord :=
  root <-! mget ds_data_dir ;;
  now <-! machine_now ;;
  nanos <-! mobserve (mv_nanos env) (fun _ => MeNanos) ;;
  with_fs (op_begin root kind network_name targets stage artifacts now nanos).
Definition save_operation (record : MachineOperationRecord) : M unit :=
  root <-! mget ds_data_dir ;; with_fs (op_save root record).
(** The record changes even when the file could not be written. *)
Definition update_stage (record : MachineOperationRecord) (stage : string) : M MachineOperationRecord :=
  now <-! machine_now ;;
  let record := set_stage stage now record in
  _ <-! mtry (save_operation record) ;;
  mret record.
Definition update_status (record : MachineOperationRecord) (status : MachineOperationStatus) (last_error : option string)
    : M (result string unit * MachineOperationRecord) :=
  now <-! machine_now ;;
  let record := set_status status last_error now record in
  saved <-! mtry (save_operation record) ;;
  mret (saved, record).

(** ** Remote calls *)

Definition run_ssh (target script : string) (options : SshOptions) : M string :=
  mask (mv_ssh env target script) (MeSsh target script None options).
Definition run_ssh_with_stdin (target script stdin : string) (options : SshOptions) : M string :=
  mask (mv_ssh env target script) (MeSsh target script (Some stdin) options).
Definition rpc_failed (target : string) (options : SshOptions) (error : string) : string :=
  "remote rpc via '" +:+ command_display target REMOTE_RPC_COMMAND options +:+ "' failed: " +:+ error.
Definition remote_rpc (target : string) (request : DaemonRequest) (options : SshOptions) : M DaemonResponse :=
  mmap_err (rpc_failed target options) (mask (mv_rpc env target request) (MeRpc target request options)).
(** A call with a time limit. *)
Definition timed_rpc (target : string) (request : DaemonRequest) (options : SshOptions)
    : M (option (result string DaemonResponse)) :=
  mobserve (mv_timed_rpc env target request) (MeTimedRpc target request options).

Definition remote_response_error (response : DaemonResponse) : string :=
  "remote daemon error [" +:+ rs_code response +:+ "]: " +:+ rs_message response.
Definition remote_rpc_expect_ok (target : string) (request : DaemonRequest) (options : SshOptions) : M unit :=
  response <-! remote_rpc target request options ;;
  if rs_ok response then mret tt else mfail (remote_response_error response).
Definition remote_self_record (target : string) (options : SshOptions) : M MachineRecord :=
  answer <-! mtry (mask (mv_rpc env target RqMeshSelfRecord) (MeRpc target RqMeshSelfRecord options)) ;;
  mlift (map_err (rpc_failed target options) (client_mesh_self_record answer)).

Definition cleanup_error (label : string) (target : string) (options : SshOptions)
    (answer : option (result string DaemonResponse)) : option string :=
  match answer with
  | Some (Ok response) => if rs_ok response then None else Some (remote_response_error response)
  | Some (Err err) => Some (rpc_failed target options err)
  | None => Some (label +:+ " rpc exceeded " +:+ duration_debug 10000)
  end.
Definition labelled (label : string) (e : option string) : list string :=
  match e with Some err => [label +:+ ": " +:+ err] | None => [] end.
Definition best_effort_remote_cleanup (target network_name : string) (options : SshOptions) : M unit :=
  down <-! timed_rpc target RqMeshDown options ;;
  destroyed <-! timed_rpc target (RqMeshDestroy network_name) options ;;
  match (labelled "mesh down" (cleanup_error "mesh down" target options down) ++
         labelled "mesh destroy" (cleanup_error "mesh destroy" target options destroyed))%list with
  | [] => mret tt
  | errors => mfail (join_with "; " errors)
  end.

(** ** Waiting for a machine ([wait_for_remote_ready]) *)

Definition remote_join_ready (payload : MeshReadyPayload) : bool :=
  rp_ready payload || (bool_decide (rp_phase payload = "running") && rp_store_healthy payload && rp_heartbeat_started payload).
Definition ready_error (target : string) (options : SshOptions) (answer : option (result string DaemonResponse))
    : option string :=
  match answer with
  | Some answer =>
      match map_err (rpc_failed target options) (client_mesh_ready answer) with
      | Ok payload =>
          if remote_join_ready payload then None
          else Some ("mesh reported not ready yet: ready=" +:+ bool_to_string (rp_ready payload) +:+ ", phase="
            +:+ rp_phase payload +:+ ", store_healthy=" +:+ bool_to_string (rp_store_healthy payload) +:+ ", sync_connected="
            +:+ bool_to_string (rp_sync_connected payload) +:+ ", heartbeat_started="
            +:+ bool_to_string (rp_heartbeat_started payload))
      | Err err => Some err
      end
  | None => Some ("rpc readiness probe exceeded " +:+ duration_debug 10000)
  end.
(** [None]: out of fuel. *)
Fixpoint ready_loop (fuel : nat) (target : string) (options : SshOptions) (deadline : N) : M (option (result string unit)) :=
  match fuel with
  | O => mret None
  | S fuel =>
      answer <-! timed_rpc target (RqMeshReady ReadyJson) options ;;
      match ready_error target options answer with
      | None => mret (Some (Ok tt))
      | Some last_error =>
          now <-! clock ;;
          if (deadline <=? now)%N then
            mret (Some (Err ("timed out waiting for remote mesh readiness after " +:+ duration_debug REMOTE_READY_TIMEOUT
                             +:+ ": " +:+ last_error)))
          else _ <-! sleep REMOTE_READY_POLL_INTERVAL ;; ready_loop fuel target options deadline
      end
  end.
(** Every round but the last sleeps a second. *)
Definition READY_FUEL : nat := 32.
Definition wait_for_remote_ready (target : string) (options : SshOptions) : M unit :=
  start <-! clock ;;
  waited <-! ready_loop READY_FUEL target options (start + REMOTE_READY_TIMEOUT) ;;
  mlift (match waited with Some r => r | None => Err "out of fuel" end).

(** ** Installing ployz on a machine *)

Definition local_ployz_path : M PathBuf :=
  current_exe <-! mlift (map_err (fun error => "current_exe failed: " +:+ error) (sv_current_exe (dv_services (mv_daemon env)))) ;;
  found <-! first_existing [with_file_name current_exe "ployz";
              match path_parent current_exe with Some parent => path_join parent "ployz" | None => "ployz" end;
              "/usr/local/bin/ployz"; "/usr/bin/ployz"] ;;
  match found with Some path => mret path | None => mfail "ployz binary not found next to current daemon" end.
Definition exit_code (output : ProcessOutput) : string := match po_code output with Some code => dec code | None => "signal" end.
Definition local_ployz_version : M string :=
  ployz_path <-! local_ployz_path ;;
  output <-! mmap_err (fun error => "run '" +:+ ployz_path +:+ "' --version: " +:+ error)
               (mask (mv_version env ployz_path) (MeVersion ployz_path)) ;;
  if bool_decide (po_code output = Some 0%N) then mret (trim (po_stdout output))
  else
    let stderr := trim (po_stderr output) in
    mfail ("'" +:+ ployz_path +:+ "' --version failed (status: " +:+ exit_code output +:+ ")"
           +:+ (if is_empty stderr then "" else ": " +:+ stderr)).
Definition check_status (target : string) (options : SshOptions) : M unit :=
  _ <-! run_ssh target REMOTE_STATUS_COMMAND options ;; mret tt.
Definition bootstrap_remote_machine (target : string) (install : MachineInstallOptions) (options : SshOptions) : M unit :=
  local_version <-! local_ployz_version ;;
  remote_version <-! mtry (run_ssh target REMOTE_PLOYZ_VERSION_COMMAND options) ;;
  let same := match remote_version with Ok v => bool_decide (trim v = trim local_version) | Err _ => false end in
  if same then check_status target options
  else
    installer_path <-! mask (mv_installer env) MeInstaller ;;
    installer <-! mmap_err (fun error => "read installer '" +:+ installer_path +:+ "': " +:+ error)
                    (with_fs (read_file installer_path)) ;;
    _ <-! run_ssh_with_stdin target (install_command install) installer options ;;
    check_status target options.

(** ** Adding one machine *)

Record MachineAddContext := { ac_network_name : string; ac_ssh_options : SshOptions; ac_install : MachineInstallOptions }.
Definition upsert_transient_peer (record : MachineRecord) : M unit :=
  mmap_err (fun err => "failed to install founder-local transient peer: " +:+ err)
    (mask (mv_upsert_transient env) (MeUpsertTransient record)).
Definition remove_transient_peer (id : MachineId) : M unit :=
  mmap_err (fun err => "failed to clear founder-local transient peer: " +:+ err)
    (mask (mv_remove_transient env id) (MeRemoveTransient id)).

Definition stage_rank (stage : MachineAddStage) : nat :=
  match stage with
  | Preflight => 0 | Bootstrapped => 1 | Joined => 2 | SelfRecorded => 3 | TransientPeerInstalled => 4 | Ready => 5 | Finalized => 6
  end.
Definition peer_installed (stage : MachineAddStage) : bool :=
  match stage with TransientPeerInstalled | Ready | Finalized => true | _ => false end.
Definition remote_joined (stage : MachineAddStage) : bool :=
  match stage with Joined | SelfRecorded | TransientPeerInstalled | Ready | Finalized => true | _ => false end.
Definition err_list {A} (r : result string A) : list string := match r with Ok _ => [] | Err e => [e] end.
Definition rollback_machine_add_target (context : MachineAddContext) (target : string) (stage : MachineAddStage)
    (joiner_id : option MachineId) : M unit :=
  removed <-! match joiner_id with
              | Some id => if peer_installed stage then mtry (remove_transient_peer id) else mret (Ok tt)
              | None => mret (Ok tt)
              end ;;
  cleaned <-! (if remote_joined stage
               then mtry (best_effort_remote_cleanup target (ac_network_name context) (ac_ssh_options context))
               else mret (Ok tt)) ;;
  match (err_list removed ++ err_list cleaned)%list with
  | [] => mret tt
  | errors => mfail (join_with "; " errors)
  end.

(** Record the failure and report it. *)
Definition fail_target (operation : MachineOperationRecord) (target : string) (failure : MachineAddFailure)
    : M MachineAddTargetResult :=
  _ <-! update_status operation OpFailed (Some (failure_reason failure)) ;;
  mret (TargetFailed target failure).
Definition rollback_and_fail (context : MachineAddContext) (operation : MachineOperationRecord) (target : string)
    (stage : MachineAddStage) (joiner_id : option MachineId) (failure : MachineAddFailure) : M MachineAddTargetResult :=
  _ <-! ignore (rollback_machine_add_target context target stage joiner_id) ;;
  fail_target operation target failure.

Definition already_joined (err : string) : bool := has_substring "already exists" err || has_substring "already running" err.

Definition run_machine_add_target (context : MachineAddContext) (operation : MachineOperationRecord) (target : string)
    (allocated_subnet : Ipv4Net) (token invite_id : string) : M MachineAddTargetResult :=
  let options := ac_ssh_options context in
  bootstrapped <-! mtry (bootstrap_remote_machine target (ac_install context) options) ;;
  match bootstrapped with
  | Err err => fail_target operation target (FailPreflight err)
  | Ok _ =>
  operation <-! update_stage operation (stage_to_string Bootstrapped) ;;
  joined <-! mtry (remote_rpc_expect_ok target (RqMeshJoin token) options) ;;
  match (match joined with Ok _ => None | Err err => if already_joined err then None else Some err end) with
  | Some err => fail_target operation target (FailJoin err)
  | None =>
  operation <-! update_stage operation (stage_to_string Joined) ;;
  recorded <-! mtry (remote_self_record target options) ;;
  match recorded with
  | Err err => rollback_and_fail context operation target Joined None (FailSelfRecord err)
  | Ok record =>
  operation <-! update_stage operation (stage_to_string SelfRecorded) ;;
  if negb (bool_decide (mr_subnet record = Some allocated_subnet)) then
    let actual_subnet := match mr_subnet record with Some subnet => ipnet_to_string subnet | None => "—" end in
    rollback_and_fail context operation target SelfRecorded None
      (FailSelfRecord ("joiner self-record subnet '" +:+ actual_subnet +:+ "' did not match allocated subnet '"
                       +:+ ipnet_to_string allocated_subnet +:+ "'"))
  else
  let machine_id := mr_id record in
  let operation := set_machine_id machine_id operation in
  _ <-! mtry (save_operation operation) ;;
  installed <-! mtry (upsert_transient_peer record) ;;
  match installed with
  | Err err => rollback_and_fail context operation target SelfRecorded (Some machine_id) (FailPreflight err)
  | Ok _ =>
  operation <-! update_stage operation (stage_to_string TransientPeerInstalled) ;;
  ready <-! mtry (wait_for_remote_ready target options) ;;
  match ready with
  | Err err => rollback_and_fail context operation target TransientPeerInstalled (Some machine_id) (FailReady err)
  | Ok _ =>
  operation <-! update_stage operation (stage_to_string Ready) ;;
  now <-! machine_now ;;
  _ <-! ignore (mask (mv_consume_invite env invite_id) (MeConsumeInvite invite_id now)) ;;
  operation <-! update_stage operation (stage_to_string Finalized) ;;
  _ <-! update_status operation OpSucceeded None ;;
  mret (AwaitingSelfPublication target machine_id)
  end end end end end.

(** ** Listing and removing machines ([list.rs], [render.rs]) *)

(** [chrono]'s [%Y-%m-%d %H:%M] of a number of seconds. *)
Context (format_utc : N -> option string).

Definition format_status (machine : MachineRecord) : string :=
  match mr_status machine with MsUp => "up" | MsDown => "down" | MsUnknown => "—" end.
Definition format_liveness (machine : MachineRecord) (now : N) : string :=
  match machine_liveness machine now with Fresh => "fresh" | Stale => "stale" | Down => "down" end.
Definition format_heartbeat (ts now : N) : string :=
  if (ts =? 0)%N then "never"
  else
    let ago := (now - ts)%N in
    if (ago <? 60)%N then dec ago +:+ "s ago"
    else if (ago <? 3600)%N then dec (ago / 60) +:+ "m ago"
    else if (ago <? 86400)%N then dec (ago / 3600) +:+ "h ago"
    else dec (ago / 86400) +:+ "d ago".
Definition format_timestamp (ts : N) : string :=
  if (ts =? 0)%N then "—" else match format_utc ts with Some s => s | None => "—" end.

Record MachineListReportRow := {
  rr_id : string; rr_status : string; rr_participation : string; rr_liveness : string; rr_overlay : string;
  rr_subnet : option Ipv4Net; rr_subnet_display : string; rr_last_heartbeat : N; rr_heartbeat_display : string;
  rr_created_at : N; rr_created_display : string
}.
Definition report_row (machine : MachineRecord) (now : N) : MachineListReportRow := {|
  rr_id := mr_id machine; rr_status := format_status machine; rr_participation := participation_to_string (mr_participation machine);
  rr_liveness := format_liveness machine now; rr_overlay := ipv6_to_string (mr_overlay_ip machine);
  rr_subnet := mr_subnet machine;
  rr_subnet_display := match mr_subnet machine with Some subnet => ipnet_to_string subnet | None => "—" end;
  rr_last_heartbeat := mr_last_heartbeat machine; rr_heartbeat_display := format_heartbeat (mr_last_heartbeat machine) now;
  rr_created_at := mr_created_at machine; rr_created_display := format_timestamp (mr_created_at machine) |}.
Definition row_payload (self : MachineListReportRow) : MachineListRow := {|
  lr_id := rr_id self; lr_status := rr_status self; lr_participation := rr_participation self;
  lr_liveness := rr_liveness self; lr_overlay_ip := rr_overlay self; lr_subnet := ipnet_to_string <$> rr_subnet self;
  lr_last_heartbeat := rr_last_heartbeat self; lr_heartbeat_display := rr_heartbeat_display self;
  lr_created_at := rr_created_at self; lr_created_display := rr_created_display self |}.

(** A column is as wide as its longest value, in bytes, and at least [least]; it is padded by characters. *)
Definition column_width (least : nat) (values : list string) : nat := foldr Nat.max 0 (String.length <$> values) `max` least.
Fixpoint char_count (s : string) : nat :=
  match s with
  | "" => 0
  | String c s => (if ((128 <=? code c) && (code c <? 192))%N then 0 else 1) + char_count s
  end.
Fixpoint spaces (n : nat) : string := match n with O => "" | S n => String " " (spaces n) end.
Definition pad (width : nat) (s : string) : string := s +:+ spaces (width - char_count s).
Definition table_line (w_id w_part w_live w_ov w_sub w_hb : nat) (a b c d e f g h : string) : string :=
  pad w_id a +:+ "  " +:+ pad 6 b +:+ "  " +:+ pad w_part c +:+ "  " +:+ pad w_live d +:+ "  " +:+ pad w_ov e +:+ "  "
  +:+ pad w_sub f +:+ "  " +:+ pad w_hb g +:+ "  " +:+ h.
Definition render_machine_list_report (rows : list MachineListReportRow) : string :=
  let line := table_line (column_width 2 (rr_id <$> rows)) (column_width 13 (rr_participation <$> rows))
    (column_width 8 (rr_liveness <$> rows)) (column_width 10 (rr_overlay <$> rows))
    (column_width 6 (rr_subnet_display <$> rows)) (column_width 9 (rr_heartbeat_display <$> rows)) in
  join_with newline
    (line "ID" "STATUS" "PARTICIPATION" "LIVENESS" "OVERLAY IP" "SUBNET" "HEARTBEAT" "CREATED" ::
     ((fun row => line (rr_id row) (rr_status row) (rr_participation row) (rr_liveness row) (rr_overlay row)
                    (rr_subnet_display row) (rr_heartbeat_display row) (rr_created_display row)) <$> rows)).

Definition list_machines (prefix : string) : M (list MachineRecord) :=
  mmap_err (fun err => prefix +:+ err) (mask (mv_list_machines env) MeListMachines).
Definition machine_list_report : M (list MachineListReportRow) :=
  machines <-! list_machines "failed to list machines: " ;;
  now <-! machine_now ;;
  mret ((fun machine => report_row machine now) <$> machines).
Definition handle_machine_list : M DaemonResponse :=
  active <-! mget ds_active ;;
  match active with
  | None => mret no_mesh
  | Some _ =>
      report <-! mtry machine_list_report ;;
      match report with
      | Err err => mret (err_response "LIST_FAILED" err)
      | Ok [] => mret (ok_with_payload "no machines" (Some (PlMachineList [])))
      | Ok rows => mret (ok_with_payload (render_machine_list_report rows) (Some (PlMachineList (row_payload <$> rows))))
      end
  end.

Definition find_machine_record (id : MachineId) : M (option MachineRecord) :=
  machines <-! list_machines "" ;;
  mret (snd <$> list_find (fun machine => mr_id machine = id) machines).
Definition handle_machine_remove (id : string) (mode : MachineRemoveMode) : M DaemonResponse :=
  active <-! mget ds_active ;;
  match active with
  | None => mret no_mesh
  | Some _ =>
      found <-! mtry (find_machine_record id) ;;
      match found with
      | Err err => mret (err_response "LIST_FAILED" ("failed to read machines: " +:+ err))
      | Ok None => mret (err_response "MACHINE_NOT_FOUND" ("machine '" +:+ id +:+ "' not found"))
      | Ok (Some record) =>
          if bool_decide (mode <> Force) && bool_decide (mr_participation record <> Disabled) then
            mret (err_response "MACHINE_NOT_DISABLED" ("machine '" +:+ id +:+
              "' must be disabled before removal (current participation: " +:+ participation_to_string (mr_participation record) +:+ ")"))
          else
            deleted <-! mtry (mask (mv_delete_machine env id) (MeDeleteMachine id)) ;;
            match deleted with
            | Ok _ => mret (ok_with_payload ("machine '" +:+ id +:+ "' removed") (Some (PlMachineRemove id mode)))
            | Err err => mret (err_response "DELETE_FAILED" ("failed to remove machine: " +:+ err))
            end
      end
  end.

(** [render_now] is the time when the warning is written. *)
Definition degraded_mesh_warning (machine : MachineRecord) (render_now : N) : string :=
  "warning: " +:+ participation_to_string (mr_participation machine) +:+ " peer '" +:+ mr_id machine +:+
  "' has a stale heartbeat (" +:+ format_heartbeat (mr_last_heartbeat machine) render_now +:+ ")".
Definition degraded_mesh_warnings : M (list string) :=
  s <-! mget id ;;
  match ds_active s with
  | None => mfail "no running network"
  | Some _ =>
      machines <-! list_machines "failed to list machines: " ;;
      now <-! machine_now ;;
      let stale := filter (fun machine => mr_id machine <> idn_machine_id (ds_identity s) /\
                             mr_participation machine <> Disabled /\ machine_liveness machine now = Stale) machines in
      mmap (fun machine => render_now <-! machine_now ;; mret (degraded_mesh_warning machine render_now)) stale
  end.

Definition push_summary_section (label : string) (values : list string) : list string :=
  (label +:+ ": " +:+ dec (N.of_nat (length values))) :: ((fun value => "  " +:+ value) <$> values).
Definition render_machine_add_report (report : MachineAddReport) : string :=
  join_with newline (
    (if is_nil (ar_warnings report) then [] else ar_warnings report ++ [""]) ++ ["machine add summary"] ++
    push_summary_section "awaiting_self_publication" (ar_awaiting_self_publication report) ++
    push_summary_section "failed_preflight" (ar_failed_preflight report) ++
    push_summary_section "failed_join" (ar_failed_join report) ++
    push_summary_section "failed_self_record" (ar_failed_self_record report) ++
    push_summary_section "failed_ready" (ar_failed_ready report))%list.

(** ** The requests *)

Definition handle_machine_init (target network : string) (install : MachineInstallOptions) : M DaemonResponse :=
  active <-! mget ds_active ;;
  match active with
  | Some _ => mret (err_response "NETWORK_ALREADY_RUNNING"
      "machine init requires no local running network; switch context or run `mesh down` first")
  | None =>
  begun <-! mtry (begin_operation OpInit (Some network) [target] "bootstrapping" no_artifacts) ;;
  match begun with
  | Err err => mret (err_response "MACHINE_OPERATION_START_FAILED" err)
  | Ok operation =>
  bootstrapped <-! mtry (bootstrap_remote_machine target install None) ;;
  match bootstrapped with
  | Err err => _ <-! update_status operation OpFailed (Some err) ;; mret (err_response "SSH_BOOTSTRAP_FAILED" err)
  | Ok _ =>
  operation <-! update_stage operation "remote-init" ;;
  initialized <-! mtry (remote_rpc_expect_ok target (RqMeshInit network) None) ;;
  match initialized with
  | Err err => _ <-! update_status operation OpFailed (Some err) ;; mret (err_response "REMOTE_INIT_FAILED" err)
  | Ok _ =>
  operation <-! update_stage operation "complete" ;;
  _ <-! update_status operation OpSucceeded None ;;
  mret (ok_response ("remote founder initialized" +:+ newline +:+ "  target:  " +:+ target +:+ newline +:+ "  network: " +:+ network))
  end end end end.

(** A target that is ready to be added: its operation, subnet, token and invite. *)
Record PreparedTarget := {
  pt_operation : MachineOperationRecord; pt_target : string; pt_subnet : Ipv4Net; pt_token : string; pt_invite_id : string
}.
Definition prepare_target (running : NetworkConfig) (uses_identity : bool) (target : string) (allocated_subnet : Ipv4Net)
    : M (result string PreparedTarget) :=
  issued <-! mtry (on_daemon (do_issue_invite_token (mv_daemon env) running INVITE_TTL_SECS allocated_subnet)) ;;
  match issued with
  | Err err => mret (Err ("failed to issue invite token for subnet " +:+ ipnet_to_string allocated_subnet +:+ ": " +:+ err))
  | Ok token =>
  match parse_and_verify_invite_token token with
  | Err err => mret (Err ("issued invite token could not be re-read for finalization: " +:+ err))
  | Ok invite =>
  begun <-! mtry (begin_operation OpAdd (Some (nc_name running)) [target] (stage_to_string Preflight)
              {| oa_machine_id := None; oa_invite_id := Some (ic_invite_id invite);
                 oa_allocated_subnet := Some (ipnet_to_string allocated_subnet); oa_uses_operation_identity := uses_identity |}) ;;
  mret (operation <-? begun ;;
        Ok {| pt_operation := operation; pt_target := target; pt_subnet := allocated_subnet; pt_token := token;
              pt_invite_id := ic_invite_id invite |})
  end end.
(** The targets that could not be prepared are reported, the others are added. *)
Fixpoint prepare_targets (running : NetworkConfig) (uses_identity : bool) (targets : list (string * Ipv4Net))
    (report : MachineAddReport) : M (MachineAddReport * list PreparedTarget) :=
  match targets with
  | [] => mret (report, [])
  | (target, subnet) :: targets =>
      prepared <-! prepare_target running uses_identity target subnet ;;
      let report := match prepared with Ok _ => report | Err reason => report_push report (TargetFailed target (FailPreflight reason)) end in
      rest <-! prepare_targets running uses_identity targets report ;;
      mret (rest.1, ((match prepared with Ok p => [p] | Err _ => [] end) ++ rest.2)%list)
  end.

Definition handle_machine_add (targets : list string) (options : MachineAddOptions) : M DaemonResponse :=
  match targets with
  | [] => mret (err_response "INVALID_ARGUMENT" "machine add requires at least one target")
  | _ =>
  identity <-! match ma_ssh_identity_private_key options with
               | Some _ => mtry (path <-! mask (mv_identity env) MeIdentity ;; mret (Some path))
               | None => mret (Ok None)
               end ;;
  match identity with
  | Err err => mret (err_response "INVALID_IDENTITY" err)
  | Ok ssh_options =>
  active <-! mget ds_active ;;
  match active with
  | None => mret (err_response "NO_RUNNING_NETWORK" "machine add requires a running network on this daemon")
  | Some active =>
  peer_sync <-! mobserve (mv_peer_sync env) (fun r => MeDaemon (DePeerSync (Ok r))) ;;
  if negb peer_sync then mret (err_response "PEER_SYNC_UNAVAILABLE" "peer sync task is not running")
  else
  let running := am_config active in
  let context := {| ac_network_name := nc_name running; ac_ssh_options := ssh_options;
                    ac_install := match ma_install options with Some i => i | None => default_install end |} in
  warned <-! mtry degraded_mesh_warnings ;;
  match warned with
  | Err err => mret (err_response "LIST_FAILED" err)
  | Ok warnings =>
  allocated <-! mtry (on_daemon (allocate_machine_subnets (mv_daemon env) addr_parse_error (length targets))) ;;
  match allocated with
  | Err err => mret (err_response "SUBNET_EXHAUSTION" err)
  | Ok allocated_subnets =>
  prepared <-! prepare_targets running (bool_decide (is_Some (ma_ssh_identity_private_key options)))
                 (zip targets allocated_subnets) (report_with_warnings warnings) ;;
  outcomes <-! mmap (fun p => run_machine_add_target context (pt_operation p) (pt_target p) (pt_subnet p) (pt_token p)
                       (pt_invite_id p)) prepared.2 ;;
  let report := foldl report_push prepared.1 outcomes in
  let message := render_machine_add_report report in
  let payload := Some (PlMachineAdd (report_payload report)) in
  mret (if has_failures report then err_with_payload "MACHINE_ADD_FAILED" message payload else ok_with_payload message payload)
  end end end end end.

(** ** Operations ([operations.rs]) *)

Definition operation_line (record : MachineOperationRecord) : string :=
  op_id record +:+ "  " +:+ kind_as_str (op_kind record) +:+ "  " +:+ status_as_str (op_status record) +:+ "  " +:+
  (match op_network_name record with Some n => n | None => "—" end) +:+ "  " +:+ op_stage record.
Definition handle_machine_operation_list : M DaemonResponse :=
  root <-! mget ds_data_dir ;;
  listed <-! mtry (with_fs (op_list root)) ;;
  match listed with
  | Err err => mret (err_response "MACHINE_OPERATION_LIST_FAILED" err)
  | Ok records =>
      let payload := Some (PlMachineOperationList (operation_info <$> records)) in
      match records with
      | [] => mret (ok_with_payload "no machine operations" payload)
      | _ => mret (ok_with_payload (join_with newline (operation_line <$> records)) payload)
      end
  end.
Definition handle_machine_operation_get (id : string) : M DaemonResponse :=
  root <-! mget ds_data_dir ;;
  loaded <-! mtry (with_fs (op_load root id)) ;;
  match loaded with
  | Err err => mret (err_response "MACHINE_OPERATION_GET_FAILED" err)
  | Ok None => mret (err_response "MACHINE_OPERATION_NOT_FOUND" ("machine operation '" +:+ id +:+ "' not found"))
  | Ok (Some record) =>
      match to_json record with
      | Ok body => mret (ok_with_payload body (Some (PlMachineOperation (operation_info record))))
      | Err err => mret (err_response "ENCODE_FAILED" ("failed to encode machine operation: " +:+ err))
      end
  end.

(** What a restarted daemon does about an interrupted addition: [Ok None] is no note. *)
Definition reconcile_machine_add_operation (record : MachineOperationRecord) : M (option string) :=
  s <-! mget id ;;
  peer_notes <-! match oa_machine_id (op_artifacts record) with
    | None => mret (Ok [])
    | Some machine_id =>
        match ds_active s with
        | None => mret (Err "transient peer cleanup skipped: no running network")
        | Some _ =>
            peer_sync <-! mobserve (mv_peer_sync env) (fun r => MeDaemon (DePeerSync (Ok r))) ;;
            if negb peer_sync then mret (Err "transient peer cleanup skipped: peer sync unavailable")
            else
              removed <-! mtry (remove_transient_peer machine_id) ;;
              mret (Ok [match removed with
                        | Err err => "transient peer cleanup failed: " +:+ err
                        | Ok _ => "transient peer '" +:+ machine_id +:+ "' removed"
                        end])
        end
    end ;;
  match peer_notes with
  | Err note => mret (Some note)
  | Ok notes =>
  let with_note (note : string) := mret (Some (join_with "; " (notes ++ [note])%list)) in
  match stage_from_str (op_stage record) with
  | Err err => with_note ("remote cleanup skipped: " +:+ err)
  | Ok add_stage =>
  if negb (remote_joined add_stage) then mret (match notes with [] => None | _ => Some (join_with "; " notes) end)
  else if oa_uses_operation_identity (op_artifacts record) then
    with_note "remote cleanup skipped: operation-scoped ssh identity is unavailable after restart"
  else
  match op_network_name record with
  | None => with_note "remote cleanup skipped: network name missing"
  | Some network_name =>
  match op_targets record with
  | [target] =>
      cleaned <-! mtry (best_effort_remote_cleanup target network_name None) ;;
      with_note (match cleaned with
                 | Ok _ => "remote cleanup attempted for '" +:+ target +:+ "'"
                 | Err err => "remote cleanup failed for '" +:+ target +:+ "': " +:+ err
                 end)
  | _ => with_note "remote cleanup skipped: operation targets were not single-target"
  end end end end.
Definition reconcile_machine_operation (record : MachineOperationRecord) : M (option string) :=
  match op_kind record with OpInit | OpHeal => mret None | OpAdd => reconcile_machine_add_operation record end.

Definition interrupted_note : string := "daemon restarted before operation completed".
Definition reconcile_record (record : MachineOperationRecord) : M unit :=
  if bool_decide (op_status record <> OpRunning) then mret tt
  else
    interrupted <-! update_status record OpInterrupted (Some interrupted_note) ;;
    let '(saved, record) := interrupted in
    match saved with
    | Err _ => mret tt
    | Ok _ =>
        reconciled <-! mtry (reconcile_machine_operation record) ;;
        match (match reconciled with Ok note => note | Err err => Some err end) with
        | None => mret tt
        | Some note =>
            _ <-! update_status record OpInterrupted (Some (merge_operation_notes (op_last_error record) note)) ;; mret tt
        end
    end.
Definition reconcile_machine_operations_on_startup : M unit :=
  root <-! mget ds_data_dir ;;
  listed <-! mtry (with_fs (op_list root)) ;;
  match listed with
  | Err _ => mret tt
  | Ok records => mfor records reconcile_record
  end.
End machines.

(** ** Words of a POSIX shell

    The part of the shell's grammar that quoting relies on: blanks separate words,
    text in single quotes is literal, text in double quotes is literal but for
    three characters.  Any other character with a meaning is refused. *)

Inductive ShellMode := Plain | SingleQuoted | DoubleQuoted.
Definition shell_plain_char (c : ascii) : bool := is_ascii_alphanumeric c || contains_char c "-_./:=,@%+".
Definition shell_expands (c : ascii) : bool := contains_char c "$`" || (code c =? 92)%N.
Fixpoint shell_words (mode : ShellMode) (word : option string) (s : string) : option (list string) :=
  match s with
  | "" => match mode, word with
          | Plain, None => Some []
          | Plain, Some w => Some [w]
          | _, _ => None
          end
  | String c s =>
      let w := default "" word in
      match mode with
      | Plain =>
          if (code c =? 32)%N then match word with Some w => cons w <$> shell_words Plain None s | None => shell_words Plain None s end
          else if (code c =? 39)%N then shell_words SingleQuoted (Some w) s
          else if (code c =? 34)%N then shell_words DoubleQuoted (Some w) s
          else if shell_plain_char c then shell_words Plain (Some (w +:+ String c "")) s else None
      | SingleQuoted =>
          if (code c =? 39)%N then shell_words Plain (Some w) s else shell_words SingleQuoted (Some (w +:+ String c "")) s
      | DoubleQuoted =>
          if (code c =? 34)%N then shell_words Plain (Some w) s
          else if shell_expands c then None else shell_words DoubleQuoted (Some (w +:+ String c "")) s
      end
  end.
(** The arguments the installer is meant to get. *)
Definition install_argv (install : MachineInstallOptions) : list string :=
  let flag {A} (name : string) (value : A -> string) (o : option A) := match o with Some x => [name; value x] | None => [] end in
  (["install"] ++
   flag "--runtime" (fun t => match t with InstallDocker => "docker" | InstallHost => "host" end) (mi_runtime_target install) ++
   flag "--service-mode" (fun m => match m with InstallUser => "user" | InstallSystem => "system" end) (mi_service_mode install) ++
   flag "--source" (fun s => match s with InstallRelease => "release" | InstallGit => "git" end) (mi_source install) ++
   flag "--version" id (mi_version install) ++ flag "--git-url" id (mi_git_url install) ++
   flag "--git-ref" id (mi_git_ref install))%list.

Lemma shell_apostrophe w x :
  shell_words SingleQuoted (Some w) (quoted_apostrophe +:+ x) = shell_words SingleQuoted (Some (w +:+ apostrophe)) x.
Proof. reflexivity. Qed.
Lemma shell_single_quoted v w rest :
  shell_words SingleQuoted (Some w) (replace_char (ascii_of_N 39) quoted_apostrophe v +:+ apostrophe +:+ rest)
  = shell_words Plain (Some (w +:+ v)) rest.
Proof.
  revert w. induction v as [|c v IH]; intros w; cbn [replace_char].
  - cbn. by rewrite append_empty_r.
  - destruct (ascii_dec (ascii_of_N 39) c) as [<-|Hc].
    + rewrite append_assoc, shell_apostrophe, IH. by rewrite append_assoc.
    + change (String c ?x +:+ ?y) with (String c (x +:+ y)). cbn [shell_words]. rewrite (proj2 (N.eqb_neq (code c) 39)).
      * rewrite IH. by rewrite append_assoc.
      * intros E. apply Hc. rewrite <- (ascii_N_embedding c). unfold code in E. by rewrite E.
Qed.
Lemma shell_quote_word v rest : shell_words Plain None (shell_quote v +:+ rest) = shell_words Plain (Some v) rest.
Proof.
  unfold shell_quote. rewrite !append_assoc.
  change (shell_words Plain None (apostrophe +:+ ?x)) with (shell_words SingleQuoted (Some "") x). apply shell_single_quoted.
Qed.

(** [a] is read as the word [w], whatever follows. *)
Definition reads_as (a w : string) : Prop := forall rest, shell_words Plain None (a +:+ rest) = shell_words Plain (Some w) rest.
Lemma reads_join args argv : Forall2 reads_as args argv -> shell_words Plain None (join_with " " args) = Some argv.
Proof.
  induction 1 as [|a w args argv Ha Hl IH]; [done|].
  destruct Hl as [|b x args argv Hb Hl].
  - cbn. rewrite <- (append_empty_r a), Ha. done.
  - cbn [join_with] in *. rewrite Ha. by change (" " +:+ ?x) with (String " " x); cbn [shell_words]; rewrite IH.
Qed.

(** The installer gets exactly the arguments that were asked for: whatever the
    version, the repository and the reference contain, a shell reads the remote
    command as [bash -s --] followed by them, one word each. *)
Theorem install_command_words install :
  shell_words Plain None (install_command install) = Some (["bash"; "-s"; "--"] ++ install_argv install)%list.
Proof.
  change (shell_words Plain None (install_command install))
    with (cons "bash" <$> (cons "-s" <$> (cons "--" <$> shell_words Plain None (install_script_args install)))).
  unfold install_script_args. rewrite (reads_join _ (install_argv install)); [done|].
  assert (forall s, reads_as (shell_quote s) s) as Hq by (intros s rest; apply shell_quote_word).
  unfold install_args, install_argv. destruct install as [rt sm so ve gu gr]. simpl.
  repeat first
    [ apply Forall2_cons; split; [first [apply Hq|intros rest; reflexivity]|]
    | apply Forall2_nil_2
    | apply Forall2_app
    | match goal with |- context [match ?x with _ => _ end] => destruct x end ].
Qed.

(** ** What adding a machine leaves behind *)

(** What the target was told: to join, and since then to stop and to forget the network. *)
Inductive RemoteState := RemoteAbsent | RemoteJoined | RemoteStopped.
Record Progress := { pg_remote : RemoteState; pg_peer : option MachineId }.

Section progress.
Context (target network token : string) (options : SshOptions).
Definition join_accepted (r : result string DaemonResponse) : bool :=
  match r with
  | Ok response => rs_ok response || already_joined (remote_response_error response)
  | Err e => already_joined (rpc_failed target options e)
  end.
Definition progress_event (p : Progress) (e : RemoteEvent) : Progress :=
  match e with
  | MeRpc t (RqMeshJoin tok) _ r =>
      if bool_decide (t = target) && bool_decide (tok = token) && join_accepted r
      then {| pg_remote := RemoteJoined; pg_peer := pg_peer p |} else p
  | MeTimedRpc t RqMeshDown _ _ =>
      if bool_decide (t = target) && (match pg_remote p with RemoteJoined => true | _ => false end)
      then {| pg_remote := RemoteStopped; pg_peer := pg_peer p |} else p
  | MeTimedRpc t (RqMeshDestroy n) _ _ =>
      if bool_decide (t = target) && bool_decide (n = network) && (match pg_remote p with RemoteStopped => true | _ => false end)
      then {| pg_remote := RemoteAbsent; pg_peer := pg_peer p |} else p
  | MeUpsertTransient record (Ok _) => {| pg_remote := pg_remote p; pg_peer := Some (mr_id record) |}
  | MeRemoveTransient id _ => {| pg_remote := pg_remote p; pg_peer := if decide (pg_peer p = Some id) then None else pg_peer p |}
  | _ => p
  end.
Definition progress (p : Progress) (log : list RemoteEvent) : Progress := foldl progress_event p log.
Definition neutral (e : RemoteEvent) : Prop := forall p, progress_event p e = p.
Lemma progress_neutral p log : Forall neutral log -> progress p log = p.
Proof. intros Hl. revert p. induction Hl as [|e log He _ IH]; intros p; [done|]. unfold progress in *. simpl. by rewrite He. Qed.
Lemma progress_app p l1 l2 : progress p (l1 ++ l2)%list = progress (progress p l1) l2.
Proof. apply foldl_app. Qed.
End progress.

Lemma emits_ask {St Call E A} (P : Call -> Prop) (answer : list Call -> result E A) (event : result E A -> Call) :
  (forall r, P (event r)) -> emits (St:=St) P (mask answer event).
Proof. intros HP m log. apply wp_ask. intros r. exists [event r]. auto. Qed.
Lemma emits_observe {St Call E A} (P : Call -> Prop) (answer : list Call -> A) (event : A -> Call) :
  (forall a, P (event a)) -> emits (St:=St) (E:=E) P (mobserve answer event).
Proof. intros HP m log. exists [event (answer log)]. auto. Qed.
Lemma emits_map_err {St Call E F A} (P : Call -> Prop) (f : E -> F) (c : eff St Call E A) : emits P c -> emits P (mmap_err f c).
Proof. intros Hc m log. apply wp_map_err. apply Hc. Qed.
Lemma emits_with_fs {A} (P : RemoteEvent -> Prop) (c : io A) : emits P (with_fs c : eff DaemonState RemoteEvent string A).
Proof. apply emits_pure. intros m log. unfold with_fs. by destruct (c (get_files m)). Qed.
Lemma dspec_emits {St Call E A} (P : Call -> Prop) (c : eff St Call E A) s :
  emits P c -> dspec c s (fun _ _ new => Forall P new).
Proof. intros Hc log. apply Hc. Qed.
(** One step of showing which calls a computation makes. *)
Ltac emits_step :=
  match goal with
  | |- emits _ (mbind _ _) => apply emits_bind; [|intros ?]
  | |- emits _ (mtry _) => apply emits_try
  | |- emits _ (mmap_err _ _) => apply emits_map_err
  | |- emits _ (mask _ _) => apply emits_ask; first [done|intros ? ?; done]
  | |- emits _ (mobserve _ _) => apply emits_observe; first [done|intros ? ?; done]
  | |- emits _ (with_fs _) => apply emits_with_fs
  | |- emits _ (match ?x with _ => _ end) => destruct x
  | |- emits _ _ => apply emits_pure; done
  end.

Section add_target.
Context `{Keys} `{Base64} `{Build} `{Ipnet} `{RecordCodec InviteClaims} `{RecordCodec MachineOperationRecord}.
Context (env : MachineEnv) (context : MachineAddContext) (target token : string).
Abbreviation options := (ac_ssh_options context) (only parsing).
Abbreviation network := (ac_network_name context) (only parsing).
Abbreviation calm := (emits (neutral target network token options)) (only parsing).

Lemma update_stage_calm record stage : calm (update_stage env record stage).
Proof. unfold update_stage, machine_now, save_operation. repeat emits_step. Qed.
Lemma update_status_calm record status e : calm (update_status env record status e).
Proof. unfold update_status, machine_now, save_operation. repeat emits_step. Qed.
Lemma first_existing_calm l : calm (first_existing l : eff DaemonState RemoteEvent string _).
Proof. induction l as [|c l IH]; simpl; [by apply emits_pure|]. apply emits_bind; [by apply emits_pure|]. intros []; [by apply emits_pure|done]. Qed.
Lemma bootstrap_calm install : calm (bootstrap_remote_machine env target install options).
Proof.
  unfold bootstrap_remote_machine, local_ployz_version, local_ployz_path, check_status, run_ssh, run_ssh_with_stdin.
  repeat (apply first_existing_calm || emits_step).
Qed.
Lemma self_record_calm : calm (remote_self_record env target options).
Proof. unfold remote_self_record. repeat emits_step. Qed.
Lemma ready_loop_calm fuel deadline : calm (ready_loop env fuel target options deadline).
Proof. induction fuel as [|fuel IH]; simpl; unfold timed_rpc, clock, sleep; repeat (apply IH || emits_step). Qed.
Lemma wait_ready_calm : calm (wait_for_remote_ready env target options).
Proof. unfold wait_for_remote_ready, clock. repeat (apply ready_loop_calm || emits_step). Qed.

(** After a calm computation the progress is as before. *)
Lemma dspec_calm {A} (c : eff DaemonState RemoteEvent string A) s (Q : result string A -> DaemonState -> list RemoteEvent -> Prop) :
  calm c -> (forall r s' new, Forall (neutral target network token options) new -> Q r s' new) -> dspec c s Q.
Proof. intros Hc HQ. eapply dspec_mono; [by eapply dspec_emits|]. simpl. eauto. Qed.

Abbreviation prog := (progress target network token options) (only parsing).
(** The computation takes progress [p] to [Q result]. *)
Definition makes {A} (c : eff DaemonState RemoteEvent string A) (p : Progress) (Q : result string A -> Progress -> Prop) : Prop :=
  forall s, dspec c s (fun r _ new => Q r (prog p new)).
Lemma makes_calm {A} (c : eff DaemonState RemoteEvent string A) p (Q : result string A -> Progress -> Prop) :
  calm c -> (forall r, Q r p) -> makes c p Q.
Proof. intros Hc HQ s. apply dspec_calm; [done|]. intros r _ new Hn. by rewrite progress_neutral. Qed.
Lemma makes_bind {A B} (c : eff DaemonState RemoteEvent string A) (k : A -> eff DaemonState RemoteEvent string B) p Q :
  makes c p (fun r p' => match r with Ok a => makes (k a) p' Q | Err e => Q (Err e) p' end) -> makes (mbind c k) p Q.
Proof.
  intros Hc s. apply dspec_bind. eapply dspec_mono; [apply Hc|]. simpl. intros r s' new Hr. destruct r as [a|e]; [|done].
  eapply dspec_mono; [apply Hr|]. simpl. intros r s2 later. by rewrite progress_app.
Qed.
Lemma makes_try {A} (c : eff DaemonState RemoteEvent string A) p Q : makes c p (fun r => Q (Ok r)) -> makes (mtry c) p Q.
Proof. intros Hc s. apply dspec_try, Hc. Qed.
Lemma makes_map_err {A} f (c : eff DaemonState RemoteEvent string A) p Q : makes c p (fun r => Q (map_err f r)) -> makes (mmap_err f c) p Q.
Proof. intros Hc s. apply dspec_map_err, Hc. Qed.
Lemma makes_ret {A} (a : A) p (Q : result string A -> Progress -> Prop) : Q (Ok a) p -> makes (mret a) p Q.
Proof. intros HQ s. by apply dspec_ret. Qed.
Lemma makes_ignore {A} (c : eff DaemonState RemoteEvent string A) p (Q : Progress -> Prop) :
  makes c p (fun _ p' => Q p') -> makes (ignore c : eff _ _ string unit) p (fun r p' => r = Ok tt /\ Q p').
Proof. intros Hc s. apply dspec_ignore. eapply dspec_mono; [apply Hc|]. simpl. auto. Qed.
Lemma makes_mono {A} (c : eff DaemonState RemoteEvent string A) p (P Q : result string A -> Progress -> Prop) :
  makes c p P -> (forall r p', P r p' -> Q r p') -> makes c p Q.
Proof. intros Hc HPQ s. eapply dspec_mono; [apply Hc|]. simpl. auto. Qed.

Lemma makes_join p (Q : result string unit -> Progress -> Prop) :
  (forall r, (match r with Ok _ => true | Err e => already_joined e end) = true ->
     Q r {| pg_remote := RemoteJoined; pg_peer := pg_peer p |}) ->
  (forall e, already_joined e = false -> Q (Err e) p) ->
  makes (remote_rpc_expect_ok env target (RqMeshJoin token) options) p Q.
Proof.
  intros Hok Herr s. apply dspec_bind, dspec_map_err, dspec_ask. intros a.
  assert (forall l, prog p (MeRpc target (RqMeshJoin token) options a :: l) =
    prog (if join_accepted target options a then {| pg_remote := RemoteJoined; pg_peer := pg_peer p |} else p) l) as Hp.
  { intros l. unfold progress. cbn. rewrite !bool_decide_eq_true_2 by done. done. }
  destruct a as [response|e]; cbn [map_err].
  - cbn [join_accepted] in Hp. destruct (rs_ok response) eqn:Eo; cbn [orb] in Hp;
      [apply dspec_ret; cbn [app]; rewrite Hp; by apply Hok|apply dspec_fail]. cbn [app]. rewrite Hp.
    destruct (already_joined (remote_response_error response)) eqn:Ea; [by apply Hok|by apply Herr].
  - rewrite Hp. cbn [join_accepted]. destruct (already_joined _) eqn:Ea; [by apply Hok|by apply Herr].
Qed.
Lemma makes_upsert record p (Q : result string unit -> Progress -> Prop) :
  Q (Ok tt) {| pg_remote := pg_remote p; pg_peer := Some (mr_id record) |} -> (forall e, Q (Err e) p) ->
  makes (upsert_transient_peer env record) p Q.
Proof. intros Hok Herr s. apply dspec_map_err, dspec_ask. intros [[]|e]; [exact Hok|apply Herr]. Qed.

(** Cleaning up tells the target to stop and to forget the network. *)
Lemma makes_cleanup peer :
  makes (best_effort_remote_cleanup env target network options) {| pg_remote := RemoteJoined; pg_peer := peer |}
    (fun _ p => p = {| pg_remote := RemoteAbsent; pg_peer := peer |}).
Proof.
  intros s. apply dspec_bind, dspec_observe. intros down. apply dspec_bind, dspec_observe. intros destroyed.
  assert (forall r l, progress target network token options {| pg_remote := RemoteJoined; pg_peer := peer |}
    ([MeTimedRpc target RqMeshDown options r] ++ [MeTimedRpc target (RqMeshDestroy network) options l] ++ [])%list
    = {| pg_remote := RemoteAbsent; pg_peer := peer |}) as Hp.
  { intros r l. unfold progress. cbn. repeat (rewrite bool_decide_eq_true_2 by done; cbn). done. }
  destruct (labelled _ _ ++ labelled _ _)%list; [apply dspec_ret|apply dspec_fail]; apply Hp.
Qed.
Definition nothing_left : Progress := {| pg_remote := RemoteAbsent; pg_peer := None |}.
Lemma makes_rollback stage jid peer :
  remote_joined stage = true -> (if peer_installed stage then jid else None) = peer ->
  makes (rollback_machine_add_target env context target stage jid) {| pg_remote := RemoteJoined; pg_peer := peer |}
    (fun _ p => p = nothing_left).
Proof.
  intros Hj Hp. apply makes_bind.
  apply (makes_mono _ _ (fun r p => is_ok r = true /\ p = {| pg_remote := RemoteJoined; pg_peer := None |})).
  - destruct (peer_installed stage).
    + destruct jid as [id|]; subst peer; [|by apply makes_ret]. apply makes_try, makes_map_err. intros s. apply dspec_ask.
      intros r. split; [done|]. unfold progress. cbn. by rewrite decide_True.
    + subst peer. destruct jid; by apply makes_ret.
  - intros r p [Hr ->]. destruct r as [removed|]; [|done]. rewrite Hj. apply makes_bind, makes_try.
    eapply makes_mono; [apply makes_cleanup|]. simpl. intros cleaned p ->.
    destruct (err_list removed ++ err_list cleaned)%list; [by apply makes_ret|intros s0; by apply dspec_fail].
Qed.

(** What is left when adding the target ended. *)
Definition add_outcome (r : result string MachineAddTargetResult) (p : Progress) : Prop :=
  exists outcome, r = Ok outcome /\
  p = match outcome with
      | AwaitingSelfPublication _ id => {| pg_remote := RemoteJoined; pg_peer := Some id |}
      | TargetFailed _ _ => nothing_left
      end.
(** A calm step that does not fail. *)
Lemma makes_step {A B} (c : eff DaemonState RemoteEvent string A) (k : A -> eff DaemonState RemoteEvent string B) p Q :
  calm c -> (forall st, is_ok (c st).1 = true) -> (forall a, makes (k a) p Q) -> makes (mbind c k) p Q.
Proof.
  intros Hc Hs Hk s. apply dspec_bind. intros log. pose proof (Hs (s, log)) as Hok. pose proof (Hc s log) as Hw.
  unfold wp in *. destruct (c (s, log)) as [[a|e] [s' log']]; [|done]. destruct Hw as (new & -> & Hn). exists new. split; [done|].
  eapply dspec_mono; [apply Hk|]. simpl. intros r s2 later. by rewrite progress_app, (progress_neutral _ _ _ _ p new).
Qed.
Lemma update_stage_ok record stage st : is_ok (update_stage env record stage st).1 = true.
Proof.
  destruct st as [s log]. unfold update_stage, machine_now, save_operation, mobserve, mbind, mtry, mget, mret, with_fs.
  destruct (op_save _ _ _). done.
Qed.
Lemma update_status_ok record status e st : is_ok (update_status env record status e st).1 = true.
Proof.
  destruct st as [s log]. unfold update_status, machine_now, save_operation, mobserve, mbind, mtry, mget, mret, with_fs.
  destruct (op_save _ _ _). done.
Qed.
Lemma makes_fail operation failure p : p = nothing_left -> makes (fail_target env operation target failure) p add_outcome.
Proof.
  intros ->. apply makes_step; [apply update_status_calm|apply update_status_ok|]. intros a. apply makes_ret. by eexists.
Qed.
Lemma makes_rollback_fail operation stage jid peer failure :
  remote_joined stage = true -> (if peer_installed stage then jid else None) = peer ->
  makes (rollback_and_fail env context operation target stage jid failure) {| pg_remote := RemoteJoined; pg_peer := peer |} add_outcome.
Proof.
  intros Hj Hp. apply makes_bind. eapply makes_mono; [apply makes_ignore; by apply makes_rollback|].
  simpl. intros r p [-> ->]. by apply makes_fail.
Qed.
Lemma run_add_makes operation allocated_subnet invite_id :
  makes (run_machine_add_target env context operation target allocated_subnet token invite_id) nothing_left add_outcome.
Proof.
  apply makes_bind, makes_try, makes_calm; [apply bootstrap_calm|]. intros [u|err]; [|by apply makes_fail].
  apply makes_step; [apply update_stage_calm|apply update_stage_ok|]. intros op1.
  apply makes_bind, makes_try, makes_join; [|intros e He; rewrite He; by apply makes_fail].
  intros r Hr. assert ((match r with Ok _ => None | Err err => if already_joined err then None else Some err end) = None) as ->
    by (destruct r; [done|by rewrite Hr]). cbn [pg_peer nothing_left].
  apply makes_step; [apply update_stage_calm|apply update_stage_ok|]. intros op2.
  apply makes_bind, makes_try, makes_calm; [apply self_record_calm|]. intros [record|err]; [|by apply makes_rollback_fail].
  apply makes_step; [apply update_stage_calm|apply update_stage_ok|]. intros op3.
  destruct (negb _); [by apply makes_rollback_fail|].
  apply makes_bind, makes_try, makes_calm; [unfold save_operation; repeat emits_step|]. intros saved.
  apply makes_bind, makes_try, makes_upsert; [|intros err; by apply makes_rollback_fail]. cbn [pg_remote].
  apply makes_step; [apply update_stage_calm|apply update_stage_ok|]. intros op4.
  apply makes_bind, makes_try, makes_calm; [apply wait_ready_calm|]. intros [u'|err]; [|by apply makes_rollback_fail].
  apply makes_step; [apply update_stage_calm|apply update_stage_ok|]. intros op5.
  apply makes_step; [unfold machine_now; emits_step|by intros []|]. intros now.
  apply makes_bind. eapply makes_mono; [apply (makes_ignore _ _ (fun p => p = {| pg_remote := RemoteJoined; pg_peer := Some (mr_id record) |})),
    makes_calm; [emits_step|done]|].
  simpl. intros r' p [-> ->].
  apply makes_step; [apply update_stage_calm|apply update_stage_ok|]. intros op6.
  apply makes_step; [apply update_status_calm|apply update_status_ok|]. intros op7. apply makes_ret. by eexists.
Qed.

(** Computations of which only the log matters. *)
Abbreviation logs := (emits (fun _ : RemoteEvent => True)) (only parsing).
Lemma calm_logs {A} (c : eff DaemonState RemoteEvent string A) : calm c -> logs c.
Proof. by apply emits_impl. Qed.
Ltac logs_step := first [apply calm_logs, update_stage_calm|apply calm_logs, update_status_calm|emits_step].
Lemma ignore_logs {A} (c : eff DaemonState RemoteEvent string A) : logs c -> logs (ignore c : eff _ _ string unit).
Proof. intros Hc m log. specialize (Hc m log). unfold wp, ignore in *. by destruct (c (m, log)) as [r [s' log']]. Qed.
Lemma rollback_fail_logs operation stage jid failure : logs (rollback_and_fail env context operation target stage jid failure).
Proof.
  apply emits_bind; [apply ignore_logs|intros _].
  - unfold rollback_machine_add_target, remove_transient_peer, best_effort_remote_cleanup, timed_rpc. repeat logs_step.
  - unfold fail_target. repeat logs_step.
Qed.

(** The step whose answer matters: the self record. *)
Lemma self_record_spec s (Q : result string MachineRecord -> DaemonState -> list RemoteEvent -> Prop) :
  (forall a, Q (map_err (rpc_failed target options) (client_mesh_self_record a)) s [MeRpc target RqMeshSelfRecord options a]) ->
  dspec (remote_self_record env target options) s Q.
Proof. intros HQ. apply dspec_bind, dspec_try, dspec_ask. intros a. apply dspec_lift. apply HQ. Qed.

(** A target that awaits publication said that it has the allocated subnet. *)
Definition subnet_confirmed (subnet : Ipv4Net) (id : MachineId) (log : list RemoteEvent) : Prop :=
  exists a record, MeRpc target RqMeshSelfRecord options a ∈ log /\ client_mesh_self_record a = Ok record /\
    mr_subnet record = Some subnet /\ mr_id record = id.
Definition confirmed_if_added (subnet : Ipv4Net) (r : result string MachineAddTargetResult) (log : list RemoteEvent) : Prop :=
  forall t id, r = Ok (AwaitingSelfPublication t id) -> subnet_confirmed subnet id log.
Lemma dspec_logs {A B} (c : eff DaemonState RemoteEvent string A) (k : A -> eff DaemonState RemoteEvent string B) s Q :
  logs c -> (forall a s' new, dspec (k a) s' (fun r s2 later => Q r s2 (new ++ later)%list)) ->
  (forall e s' new, Q (Err e) s' new) -> dspec (mbind c k) s Q.
Proof.
  intros Hc Hk He. apply dspec_bind. eapply dspec_mono; [by eapply dspec_emits|]. simpl. intros [a|e] s' new _; auto.
Qed.
Lemma fail_target_result operation failure s :
  dspec (fail_target env operation target failure) s (fun r _ _ => exists f, r = Ok (TargetFailed target f)).
Proof.
  apply dspec_bind. intros log. pose proof (update_status_ok operation OpFailed (Some (failure_reason failure)) (s, log)) as Hok.
  pose proof (update_status_calm operation OpFailed (Some (failure_reason failure)) s log) as Hw. unfold wp in *.
  destruct (update_status _ _ _ _ _) as [[a|e] [s' log']]; [|done]. destruct Hw as (new & -> & _). exists new. split; [done|].
  apply dspec_ret. by eexists.
Qed.
Lemma rollback_fail_result operation stage jid failure s :
  dspec (rollback_and_fail env context operation target stage jid failure) s (fun r _ _ => exists f, r = Ok (TargetFailed target f)).
Proof.
  apply dspec_bind, dspec_ignore. eapply dspec_mono; [apply (dspec_emits (fun _ => True))|simpl; intros; apply fail_target_result].
  unfold rollback_machine_add_target, remove_transient_peer, best_effort_remote_cleanup, timed_rpc. repeat logs_step.
Qed.
Lemma failed_unconfirmed (c : eff DaemonState RemoteEvent string MachineAddTargetResult) s
    (Q : result string MachineAddTargetResult -> DaemonState -> list RemoteEvent -> Prop) :
  dspec c s (fun r _ _ => exists f, r = Ok (TargetFailed target f)) -> (forall f s' new, Q (Ok (TargetFailed target f)) s' new) -> dspec c s Q.
Proof. intros Hc HQ. eapply dspec_mono; [exact Hc|]. simpl. intros r s' new [f ->]. apply HQ. Qed.

Ltac next := apply dspec_logs; [repeat logs_step| |by intros ? ? ? ?].
Ltac failed := eapply failed_unconfirmed; [apply fail_target_result || apply rollback_fail_result|by intros ? ? ? ?].
Lemma run_add_confirmed operation subnet invite_id s :
  dspec (run_machine_add_target env context operation target subnet token invite_id) s
    (fun r _ new => confirmed_if_added subnet r new).
Proof.
  apply dspec_logs; [apply emits_try, calm_logs, bootstrap_calm| |by intros ? ? ? ?]. intros [u|err] s1 n1; [|failed].
  next. intros op1 s2 n2. unfold remote_rpc_expect_ok, remote_rpc. next. intros joined s3 n3.
  destruct (match joined with Ok _ => None | Err _ => _ end); [failed|]. next. intros op2 s4 n4.
  apply dspec_bind, dspec_try, self_record_spec. intros a.
  destruct (client_mesh_self_record a) as [record|err] eqn:Ea; cbn [map_err]; [|failed].
  next. intros op3 s5 n5. destruct (negb _) eqn:Es; [failed|]. apply negb_false_iff, bool_decide_eq_true in Es.
  unfold save_operation. next. intros saved s6 n6. unfold upsert_transient_peer. next. intros [u'|err] s7 n7; [|failed].
  next. intros op4 s8 n8. apply dspec_logs; [apply emits_try, calm_logs, wait_ready_calm| |by intros ? ? ? ?].
  intros [u''|err] s9 n9; [|failed]. next. intros op5 s10 n10. unfold machine_now. next. intros now s11 n11.
  apply dspec_logs; [apply ignore_logs; logs_step| |by intros ? ? ? ?]. intros _ s12 n12.
  next. intros op6 s13 n13. next. intros op7 s14 n14. apply dspec_ret. intros t id [= <- <-].
  exists a, record. split_and!; [|done..]. set_solver.
Qed.
End add_target.


(** A target that joined and is gone again was told to forget the network. *)
Section destroyed.
Context (target network token : string) (options : SshOptions).
Definition is_destroy (e : RemoteEvent) : bool :=
  match e with MeTimedRpc t (RqMeshDestroy n) _ _ => bool_decide (t = target) && bool_decide (n = network) | _ => false end.
Lemma progress_stays p log : pg_remote p <> RemoteAbsent -> Forall (fun e => is_destroy e = false) log ->
  pg_remote (progress target network token options p log) <> RemoteAbsent.
Proof.
  intros Hp Hl. revert p Hp. induction Hl as [|e log He Hl IH]; intros p Hp; [done|]. unfold progress in *. simpl. apply IH.
  destruct e as [| | | | | | | | |? [] ? ?|? [] ? ?|? []| | | |]; simpl in *; try done; rewrite ?He; repeat case_match; simpl in *; congruence.
Qed.
Lemma joined_then_gone log o a :
  MeRpc target (RqMeshJoin token) o a ∈ log -> join_accepted target options a = true ->
  pg_remote (progress target network token options nothing_left log) = RemoteAbsent ->
  exists o' r, MeTimedRpc target (RqMeshDestroy network) o' r ∈ log.
Proof.
  intros Hin Ha Hp. destruct (decide (Forall (fun e => is_destroy e = false) log)) as [Hno|Hyes].
  - apply list_elem_of_split in Hin as (l1 & l2 & ->). rewrite progress_app in Hp. apply Forall_app in Hno as [_ Hno].
    apply Forall_cons in Hno as [_ Hno]. exfalso. revert Hp. change (MeRpc ?t ?r ?o ?x :: l2) with ([MeRpc t r o x] ++ l2)%list.
    rewrite progress_app. apply progress_stays; [|done]. unfold progress at 1. cbn. rewrite !bool_decide_eq_true_2, Ha by done. done.
  - apply not_Forall_Exists in Hyes; [|intros e; apply _]. apply Exists_exists in Hyes as (e & He & Hd). simpl in Hd.
    destruct e as [| | | | | | | | | |t [] o' r| | | | |]; simpl in Hd; try done. apply not_false_iff_true in Hd.
    apply andb_true_iff in Hd as [->%bool_decide_eq_true ->%bool_decide_eq_true]. by exists o', r.
Qed.
End destroyed.

(** ** The theorems *)

Section machine_theorems.
Context `{Keys} `{Base64} `{Build} `{Ipnet} `{RecordCodec InviteClaims} `{RecordCodec MachineOperationRecord}.
Context (env : MachineEnv).


(** Adding a machine that is a member already takes it out of its network.  When
    the target answers the join with an error that counts as joined (it says
    "already running" or "already exists") and its self record does not have the
    newly allocated subnet, the addition fails and the target is told to destroy
    the network. *)
Theorem add_member_destroys_it context operation target subnet token invite_id s log :
  let '(r, (_, log')) := run_machine_add_target env context operation target subnet token invite_id (s, log) in
  exists new, log' = (log ++ new)%list /\
  forall o response,
    MeRpc target (RqMeshJoin token) o (Ok response) ∈ new -> rs_ok response = false ->
    already_joined (remote_response_error response) = true ->
    (forall o a record, MeRpc target RqMeshSelfRecord o a ∈ new -> client_mesh_self_record a = Ok record ->
       mr_subnet record <> Some subnet) ->
    (exists t f, r = Ok (TargetFailed t f)) /\
    exists o r, MeTimedRpc target (RqMeshDestroy (ac_network_name context)) o r ∈ new.
Proof.
  pose proof (run_add_makes env context target token operation subnet invite_id s log) as Hm.
  pose proof (run_add_confirmed env context target token operation subnet invite_id s log) as Hc. unfold wp in *.
  destruct (run_machine_add_target _ _ _ _ _ _ _ _) as [r [s' log']]. destruct Hm as (new & -> & outcome & -> & Hp).
  destruct Hc as (new' & Hn & Hc). apply app_inv_head in Hn as <-. exists new. split; [done|].
  intros o response Hin Hno Hal Hsub. destruct outcome as [t id|t f].
  - destruct (Hc t id eq_refl) as (a & record & Ha & Hr & Hs & _). by destruct (Hsub _ _ _ Ha Hr).
  - split; [by eexists _, _|]. eapply joined_then_gone; [exact Hin|simpl; by rewrite Hal, orb_true_r|by rewrite Hp].
Qed.

(** The clock does not go back, and a sleep takes its time. *)
Definition slept (e : RemoteEvent) : N := match e with MeSleep ms => ms | _ => 0 end.
Definition clock_runs : Prop := forall log e, (mv_clock env log + slept e <= mv_clock env (log ++ [e])%list)%N.
Lemma ready_loop_bounded (Hclock : clock_runs) target options deadline fuel s log :
  (deadline <= mv_clock env log + N.of_nat fuel * REMOTE_READY_POLL_INTERVAL)%N ->
  exists r, (ready_loop env (S fuel) target options deadline (s, log)).1 = Ok (Some r).
Proof.
  revert s log. induction fuel as [|fuel IH]; intros s log Hd;
    cbn [ready_loop]; unfold timed_rpc, clock, sleep, mbind, mobserve, mret;
    (destruct (ready_error _ _ _); [|by eexists]);
    match goal with |- context [(deadline <=? mv_clock env (log ++ [?e])%list)%N] =>
      pose proof (Hclock log e) as Hc1; cbn [slept] in Hc1;
      destruct (N.leb_spec deadline (mv_clock env (log ++ [e])%list)) end; [by eexists|lia|by eexists|].
  apply IH. match goal with |- context [((?l ++ [?e1]) ++ [?e2])%list] =>
    pose proof (Hclock l e1) as Hc2; pose proof (Hclock (l ++ [e1])%list e2) as Hc3; cbn [slept] in Hc2, Hc3 end.
  unfold REMOTE_READY_POLL_INTERVAL in *. lia.
Qed.

(** Waiting for a machine ends: with a clock that runs, the loop returns within
    its rounds (the machine is ready, or the time is up), never out of fuel. *)
Theorem ready_wait_terminates target options s log :
  clock_runs ->
  let '(r, _) := clock env (s, log) in
  exists start, r = Ok start /\
  exists answer, (ready_loop env READY_FUEL target options (start + REMOTE_READY_TIMEOUT) (clock env (s, log)).2).1 = Ok (Some answer).
Proof.
  intros Hclock. unfold clock, mobserve. eexists. split; [done|]. apply (ready_loop_bounded Hclock).
  pose proof (Hclock log (MeClock (mv_clock env log))) as Hc. cbn [slept] in Hc.
  unfold REMOTE_READY_TIMEOUT, REMOTE_READY_POLL_INTERVAL. lia.
Qed.

(** The subnets a run of allocations hands out. *)
Lemma allocate_loop_inserts fuel self cluster_end step addr subnet self' :
  allocate_loop fuel self cluster_end step addr = Done (Some subnet, self') -> self' = ipam_insert self subnet.
Proof.
  revert addr. induction fuel as [|fuel IH]; intros addr; simpl; [done|]. destruct (addr <? cluster_end)%N; [|done].
  destruct (ipnet_new _ _); [case_decide|]; try by intros [= <- <-]. all: destruct (add_u32 addr step); [apply IH|done].
Qed.
Lemma ipam_allocate_inserts (self self' : Ipam) (subnet : Ipv4Net) :
  ipam_allocate self = Done (Some subnet, self') -> subnet ∉ ipam_allocated self /\ self' = ipam_insert self subnet.
Proof.
  intros Ha. split; [by eapply ipam_allocate_fresh|]. revert Ha. unfold ipam_allocate.
  destruct (ipam_step _); [apply allocate_loop_inserts|done].
Qed.
Lemma allocate_subnets_fresh count ipam subnets : allocate_subnets count ipam = Ok subnets ->
  length subnets = count /\ NoDup subnets /\ Forall (fun subnet => subnet ∉ ipam_allocated ipam) subnets.
Proof.
  revert ipam subnets. induction count as [|count IH]; intros ipam subnets; simpl; [intros [= <-]; repeat constructor|].
  destruct (ipam_allocate ipam) as [[[subnet|] ipam']| |] eqn:E; [|done..].
  apply ipam_allocate_inserts in E as [Hfresh ->]. intros (rest & Hr & [= <-])%rbind_Ok.
  apply IH in Hr as (Hl & Hnd & Hf). split_and!; [simpl; by rewrite Hl| |].
  - constructor; [|done]. intros Hin. rewrite Forall_forall in Hf. apply (Hf _ Hin). simpl. set_solver.
  - constructor; [done|]. eapply Forall_impl; [exact Hf|]. simpl. set_solver.
Qed.

(** The subnets the listed machines claim. *)
Definition claimed_subnets (machines : list MachineRecord) : list Ipv4Net := omap mr_subnet machines.
(** The subnets for new machines are new: as many as asked for, pairwise
    different, and none claimed by a machine in the list the store answered with. *)
Theorem machine_subnets_fresh (denv : DaemonEnv) addr_parse_error count s log :
  let '(r, (s', log')) := allocate_machine_subnets denv addr_parse_error count (s, log) in
  s' = s /\ forall subnets, r = Ok subnets -> exists machines,
    log' = (log ++ [DeListMachines (Ok machines)])%list /\ length subnets = count /\ NoDup subnets /\
    Forall (fun subnet => subnet ∉ claimed_subnets machines) subnets.
Proof.
  unfold allocate_machine_subnets. unfold mbind at 1, mget at 1. cbn [fst id]. destruct (ds_active s) as [a|]; [|done].
  unfold mbind at 1, mmap_err, mask. destruct (dv_list_machines denv log) as [machines|e]; cbn [map_err]; [|done].
  unfold mbind, mlift. destruct (ok_or _ _) as [cluster|e]; [|done]. split; [done|]. intros subnets Hs. exists machines. split; [done|].
  destruct (allocate_subnets_fresh _ _ _ Hs) as (Hl & Hnd & Hf). split_and!; [done..|].
  eapply Forall_impl; [exact Hf|]. simpl. intros subnet Hn Hin. apply Hn. unfold ipam_with_allocated. simpl.
  by apply elem_of_list_to_set.
Qed.
End machine_theorems.
(** ** Operations after a restart *)

Section reconcile.
Context `{RecordCodec MachineOperationRecord} `{!JsonRoundTrip MachineOperationRecord}.
Context (env : MachineEnv).

(** What a restart makes of a record: a running one is interrupted, with a note; others stay. *)
Definition settled (r r' : MachineOperationRecord) : Prop :=
  op_id r' = op_id r /\
  if bool_decide (op_status r = OpRunning)
  then op_status r' = OpInterrupted /\ is_Some (op_last_error r') /\ op_kind r' = op_kind r /\ op_targets r' = op_targets r /\
       op_stage r' = op_stage r /\ op_started_at r' = op_started_at r /\ op_artifacts r' = op_artifacts r
  else r' = r.
(** From [s] to [s'] only the file of [r] changed, and it holds [r']. *)
Definition rewrote (s s' : DaemonState) (r r' : MachineOperationRecord) : Prop :=
  exists fs', s' = set_fs fs' s /\ ops_wf (ds_data_dir s) fs' /\ stored (ds_data_dir s) fs' r' /\
  forall p, p <> path_for (ds_data_dir s) (op_id r) -> fs_files fs' !! p = fs_files (ds_fs s) !! p.

Lemma dspec_update_status record status e old s (Q : result string (result string unit * MachineOperationRecord) -> DaemonState -> list RemoteEvent -> Prop) :
  ops_wf (ds_data_dir s) (ds_fs s) -> stored (ds_data_dir s) (ds_fs s) old ->
  json_entry (path_for (ds_data_dir s) (op_id old)) -> op_id record = op_id old ->
  (forall now s' new, rewrote s s' old (set_status status e now record) -> Q (Ok (Ok tt, set_status status e now record)) s' new) ->
  dspec (update_status env record status e) s Q.
Proof.
  intros Hwf Hst Hj Hid HQ. apply dspec_bind, dspec_observe. intros now. apply dspec_bind, dspec_try, dspec_bind, dspec_get, dspec_pure.
  intros log. unfold wp, with_fs. cbn [get_files daemon_files ds_fs].
  destruct (op_save_stored (ds_data_dir s) (ds_fs s) old (set_status status e now record) Hwf Hst Hj Hid) as (fs' & -> & Hwf' & Hst' & Ho).
  split; [done|]. apply dspec_ret. apply HQ. exists fs'. split_and!; [done..|]. intros p Hp. apply Ho. simpl. by rewrite Hid.
Qed.

(** Reconciling one operation leaves the state alone. *)
Lemma reconcile_operation_state record s :
  dspec (reconcile_machine_operation env record) s (fun _ s' _ => s' = s).
Proof.
  intros log. eapply wp_mono; [apply wp_and|].
  - assert (emits (fun _ => True) (reconcile_machine_operation env record)) as Hl; [|apply (Hl s log)].
    unfold reconcile_machine_operation, reconcile_machine_add_operation, remove_transient_peer, best_effort_remote_cleanup, timed_rpc.
    repeat emits_step.
  - assert (preserves id (reconcile_machine_operation env record)) as Hl; [|apply (Hl s log)].
    unfold reconcile_machine_operation, reconcile_machine_add_operation, remove_transient_peer, best_effort_remote_cleanup, timed_rpc.
    repeat preserves_step.
  - simpl. intros _ s' log' [(new & -> & _) ->]. by exists new.
Qed.

Lemma reconcile_record_spec r s :
  ops_wf (ds_data_dir s) (ds_fs s) -> stored (ds_data_dir s) (ds_fs s) r -> json_entry (path_for (ds_data_dir s) (op_id r)) ->
  dspec (reconcile_record env r) s (fun res s' _ => res = Ok tt /\ exists r', rewrote s s' r r' /\ settled r r').
Proof.
  intros Hwf Hst Hj. unfold reconcile_record, settled. destruct (decide (op_status r = OpRunning)) as [Hrun|Hnot].
  2: { rewrite bool_decide_eq_true_2 by done. apply dspec_ret. split; [done|]. exists r.
       rewrite bool_decide_eq_false_2 by done. split; [|done]. exists (ds_fs s). by destruct s. }
  rewrite bool_decide_eq_false_2 by naive_solver. apply dspec_bind.
  apply (dspec_update_status _ _ _ r); [done..|]. intros now s1 n1 (fs1 & -> & Hwf1 & Hst1 & Ho1).
  apply dspec_bind, dspec_try. eapply dspec_mono; [apply reconcile_operation_state|].
  intros reconciled s2 n2 ->. destruct (match reconciled with Ok note => note | Err err => Some err end) as [note|].
  - apply dspec_bind. apply (dspec_update_status _ _ _ (set_status OpInterrupted (Some interrupted_note) now r)); [done..|].
    intros now2 s3 n3 (fs3 & -> & Hwf3 & Hst3 & Ho3). apply dspec_ret. split; [done|]. eexists. split.
    + exists fs3. split_and!; [done|exact Hwf3|exact Hst3|]. intros p Hp. rewrite (Ho3 p Hp). by apply Ho1.
    + split; [done|]. rewrite bool_decide_eq_true_2 by done. simpl. eauto 10.
  - apply dspec_ret. split; [done|]. eexists. split; [by exists fs1|]. split; [done|].
    rewrite bool_decide_eq_true_2 by done. simpl. eauto 10.
Qed.

(** The records processed one after another. *)
Lemma reconcile_records_spec records s :
  ops_wf (ds_data_dir s) (ds_fs s) -> NoDup (op_id <$> records) ->
  Forall (fun r => stored (ds_data_dir s) (ds_fs s) r /\ json_entry (path_for (ds_data_dir s) (op_id r))) records ->
  dspec (mfor records (reconcile_record env)) s (fun _ s' _ => exists fs', s' = set_fs fs' s /\ ops_wf (ds_data_dir s) fs' /\
    Forall (fun r => exists r', stored (ds_data_dir s) fs' r' /\ settled r r') records /\
    forall p, p ∉ path_for (ds_data_dir s) <$> (op_id <$> records) -> fs_files fs' !! p = fs_files (ds_fs s) !! p).
Proof.
  revert s. induction records as [|r records IH]; intros s Hwf Hnd Hall; cbn [mfor].
  { apply dspec_ret. exists (ds_fs s). split_and!; [by destruct s|done..]. }
  apply Forall_cons in Hall as [[Hst Hj] Hall]. apply NoDup_cons in Hnd as [Hr Hnd].
  apply dspec_bind. eapply dspec_mono; [by apply reconcile_record_spec|].
  simpl. intros res s1 n1 [-> (r' & (fs1 & -> & Hwf1 & Hst1 & Ho1) & Hset)].
  assert (forall q, q ∈ records -> path_for (ds_data_dir s) (op_id q) <> path_for (ds_data_dir s) (op_id r)) as Hne.
  { intros q Hq Heq. apply Hr. rewrite Forall_forall in Hall. destruct (Hall q Hq) as [Hstq _]. unfold stored in Hstq.
    rewrite Heq in Hstq. rewrite (stored_at_unique _ _ _ _ _ Hst Hstq). by apply list_elem_of_fmap_2. }
  eapply dspec_mono; [apply (IH (set_fs fs1 s)); [done|done|]|].
  - rewrite Forall_forall in Hall |- *. intros q Hq. destruct (Hall q Hq) as [[(b & Hb & Hd) Hp] Hjq]. split; [|done].
    split; [|done]. exists b. split; [|done]. cbn [ds_fs set_fs]. rewrite Ho1 by auto. done.
  - simpl. intros _ s2 n2 (fs2 & -> & Hwf2 & Hall2 & Ho2). exists fs2. split_and!; [done..| |].
    + constructor; [|done]. exists r'. split; [|done]. destruct Hst1 as [(b & Hb & Hd) Hp]. split; [|done]. exists b.
      split; [|done]. rewrite Ho2; [done|]. destruct Hset as [-> _]. intros (q & Hq & (r2 & -> & Hr2)%list_elem_of_fmap)%list_elem_of_fmap.
      by apply (Hne r2).
    + intros p Hp. rewrite Ho2 by set_solver. apply Ho1. set_solver.
Qed.

End reconcile.

(** ** Witnesses *)

Definition ok_machine_env (rpc : DaemonRequest -> result string DaemonResponse) : MachineEnv := {|
  mv_daemon := ok_env; mv_now _ := 2000%N; mv_nanos _ := 5%N; mv_clock log := foldr (fun e n => slept e + n)%N 0%N log;
  mv_version _ _ := Ok {| po_code := Some 0%N; po_stdout := "ployz 1"; po_stderr := "" |}; mv_identity _ := Ok "/tmp/key";
  mv_installer _ := Err "no installer"; mv_ssh _ _ _ := Ok "ployz 1"; mv_rpc _ request _ := rpc request;
  mv_timed_rpc _ request _ := Some (rpc request); mv_peer_sync _ := true; mv_upsert_transient _ := Ok tt;
  mv_remove_transient _ _ := Ok tt; mv_consume_invite _ _ := Ok tt; mv_list_machines _ := Ok [];
  mv_delete_machine _ _ := Ok tt |}.
Definition idle_rpc (request : DaemonRequest) : result string DaemonResponse := Ok (err_response "NO_RUNNING_NETWORK" "no mesh running").

Lemma ready_wait_terminates_witness :
  clock_runs (ok_machine_env idle_rpc) /\
  exists answer, (ready_loop (ok_machine_env idle_rpc) READY_FUEL "host" None (0 + REMOTE_READY_TIMEOUT)
                    (sample_state, [MeClock 0])).1 = Ok (Some answer).
Proof.
  assert (clock_runs (ok_machine_env idle_rpc)) as Hc.
  { intros log e. simpl. induction log as [|e' log IH]; simpl; lia. }
  split; [done|]. destruct (ready_wait_terminates (ok_machine_env idle_rpc) "host" None sample_state [] Hc) as (start & [= <-] & Ha).
  exact Ha.
Defined.

(** A machine that runs the network already, on its own subnet. *)
Definition member_record : MachineRecord := into_seed_machine_record {|
  jr_machine_id := "member"; jr_public_key := []; jr_overlay_ip := []; jr_subnet := Some (mkNet 181535232 24); jr_endpoints := [] |}.
Definition member_rpc (request : DaemonRequest) : result string DaemonResponse :=
  match request with
  | RqMeshJoin _ => Ok (already_running sample_active)
  | RqMeshSelfRecord => Ok (ok_with_payload "" (Some (PlMeshSelfRecord "" member_record)))
  | _ => Ok (ok_response "")
  end.
Definition sample_operation (status : MachineOperationStatus) (nanos : N) : MachineOperationRecord := {|
  op_id := unique_operation_id OpAdd 1000 nanos; op_kind := OpAdd; op_network_name := Some "alpha"; op_targets := ["host"];
  op_status := status; op_stage := "joined"; op_started_at := 1000; op_updated_at := 1000; op_last_error := None;
  op_artifacts := no_artifacts |}.
Definition operations_fs : Fs := {|
  fs_files := {[ "/d/machine-operations/machine-add-1000-1.json" := ref_text (sample_operation OpRunning 1);
                 "/d/machine-operations/machine-add-1000-2.json" := ref_text (sample_operation OpSucceeded 2);
                 "/usr/bin/ployz" := "" ]};
  fs_dirs := {[ "/"; "/d"; "/d/machine-operations" ]}; fs_faults := [] |}.
Definition sample_context_add : MachineAddContext := {| ac_network_name := "alpha"; ac_ssh_options := None; ac_install := default_install |}.
Definition member_run := @run_machine_add_target ref_ipnet (ref_record_codec _) (ok_machine_env member_rpc) sample_context_add
  (sample_operation OpRunning 1) "host" (mkNet 181536768 24) "token" "invite" (set_fs operations_fs sample_state, []).
(** The hypotheses of [add_member_destroys_it] hold of this run. *)
Lemma add_member_destroys_it_witness :
  exists o r, MeTimedRpc "host" (RqMeshDestroy "alpha") o r ∈ member_run.2.2.
Proof.
  pose proof (@add_member_destroys_it ref_ipnet (ref_record_codec _) (ok_machine_env member_rpc) sample_context_add
    (sample_operation OpRunning 1) "host" (mkNet 181536768 24) "token" "invite" (set_fs operations_fs sample_state) []) as Hd.
  fold member_run in Hd.
  assert (member_run.2.2 !! 4 = Some (MeRpc "host" (RqMeshJoin "token") None (Ok (already_running sample_active)))) as Hj
    by (vm_compute; reflexivity).
  assert (forallb (fun e => match e with
    | MeRpc _ RqMeshSelfRecord _ a => match client_mesh_self_record a with
        | Ok record => bool_decide (mr_subnet record <> Some (mkNet 181536768 24)) | Err _ => true end
    | _ => true end) member_run.2.2 = true) as Hs by (vm_compute; reflexivity).
  destruct member_run as [r [s' log']]. destruct Hd as (new & Hn & Hd). simpl in *. subst log'.
  apply list_elem_of_lookup_2 in Hj. rewrite forallb_forall in Hs.
  apply (Hd _ _ Hj eq_refl); [vm_compute; reflexivity|]. intros o a record Ha Hr. apply list_elem_of_In, Hs in Ha.
  rewrite Hr in Ha. by apply bool_decide_eq_true in Ha.
Defined.

Lemma operations_fs_stored status nanos :
  fs_files operations_fs !! path_for "/d" (op_id (sample_operation status nanos)) = Some (ref_text (sample_operation status nanos)) ->
  path_parent (path_for "/d" (op_id (sample_operation status nanos))) = Some "/d/machine-operations" ->
  @stored (ref_record_codec _) "/d" operations_fs (sample_operation status nanos).
Proof. intros Hl Hp. split; [|done]. eexists. split; [exact Hl|]. apply ref_read_text. Qed.
Lemma operations_fs_wf : @ops_wf (ref_record_codec _) "/d" operations_fs.
Proof.
  split; [done|vm_compute; repeat constructor; set_solver|set_solver|].
  intros p Hc Hj [[c Hl]|Hd].
  - apply elem_of_dom_2 in Hl. assert (p ∈ ({[ "/d/machine-operations/machine-add-1000-1.json";
      "/d/machine-operations/machine-add-1000-2.json"; "/usr/bin/ployz" ]} : gset string)) as Hp by (revert Hl; vm_compute; done).
    rewrite !elem_of_union, !elem_of_singleton in Hp. destruct Hp as [[->| ->]| ->]; [split; [vm_compute; set_solver|]..|done].
    + exists (sample_operation OpRunning 1). apply (operations_fs_stored OpRunning 1); vm_compute; reflexivity.
    + exists (sample_operation OpSucceeded 2). apply (operations_fs_stored OpSucceeded 2); vm_compute; reflexivity.
  - cbn in Hd. rewrite !elem_of_union, !elem_of_singleton in Hd. destruct Hd as [[->| ->]| ->]; done.
Qed.
