(* ===== verification/Ssh.v ===== *)
(** * SSH

    [ployzd/src/daemon/ssh.rs]: the private key of one operation, written to a
    file that only its owner can read and removed when the operation ends, and
    the commands run on another machine.

    The clock, the files and the processes answer each call by the log so far; a
    write that fails may have written a part of the key. *)

From S2P Require Import Prelude Order Effect Text Types Files Machines.
Local Open Scope string_scope.
Local Open Scope eff_scope.

(** ** The identity file of an operation *)

Inductive IoError := AlreadyExists | OtherIo (e : string).
Definition io_error_to_string (e : IoError) : string :=
  match e with AlreadyExists => "File exists (os error 17)" | OtherIo e => e end.

Inductive IdEvent :=
| IdClock (r : result string N)
| IdCreate (path : PathBuf) (r : result IoError unit)                      (* [create_new] *)
| IdChmod (path : PathBuf) (mode : N) (r : result IoError unit)
| IdWrite (path : PathBuf) (written : string) (r : result IoError unit)    (* what the file has got *)
| IdFlush (path : PathBuf) (r : result IoError unit)
| IdRemove (path : PathBuf) (r : result IoError unit).
Record IdEnv := {
  iv_clock : list IdEvent -> result string N;
  iv_create : PathBuf -> list IdEvent -> result IoError unit;
  iv_chmod : PathBuf -> N -> list IdEvent -> result IoError unit;
  iv_write : PathBuf -> string -> list IdEvent -> string * result IoError unit;
  iv_flush : PathBuf -> list IdEvent -> result IoError unit;
  iv_remove : PathBuf -> list IdEvent -> result IoError unit
}.
Definition OWNER_ONLY : N := 384.                                          (* [0o600] *)

Record EphemeralSshIdentityFile := { ei_path : PathBuf }.

Section identity.
Context (env : IdEnv).

Definition write_identity_file (path : PathBuf) (private_key : string) : eff unit IdEvent IoError unit :=
  _ <-! mask (iv_create env path) (IdCreate path) ;;
  _ <-! mask (iv_chmod env path OWNER_ONLY) (IdChmod path OWNER_ONLY) ;;
  w <-! mobserve (iv_write env path private_key) (fun w => IdWrite path w.1 w.2) ;;
  _ <-! mlift w.2 ;;
  mask (iv_flush env path) (IdFlush path).
Definition identity_path (base_dir : PathBuf) (pid nanos attempt : N) : PathBuf :=
  path_join base_dir ("ployz-ssh-" +:+ dec pid +:+ "-" +:+ dec nanos +:+ "-" +:+ dec attempt +:+ ".key").
Fixpoint identity_attempts (base_dir : PathBuf) (pid : N) (private_key : string) (attempt : N) (remaining : nat)
    : eff unit IdEvent string EphemeralSshIdentityFile :=
  match remaining with
  | O => mfail "failed to allocate a unique path for operation-scoped ssh identity"
  | S remaining =>
      nanos <-! mmap_err (fun e => "system clock error: " +:+ e) (mask (iv_clock env) IdClock) ;;
      let path := identity_path base_dir pid nanos attempt in
      r <-! mmap_err io_error_to_string (mtry (write_identity_file path private_key)) ;;
      match r with
      | Ok _ => mret {| ei_path := path |}
      | Err AlreadyExists => identity_attempts base_dir pid private_key (attempt + 1) remaining
      | Err e => mfail ("failed to write operation-scoped ssh identity '" +:+ path +:+ "': " +:+ io_error_to_string e)
      end
  end.
Definition identity_write (base_dir : PathBuf) (pid : N) (private_key : string) : eff unit IdEvent string EphemeralSshIdentityFile :=
  identity_attempts base_dir pid private_key 0 16.
Definition identity_drop (self : EphemeralSshIdentityFile) : eff unit IdEvent string unit :=
  _ <-! ignore (mask (iv_remove env (ei_path self)) (IdRemove (ei_path self))) ;; mret tt.
End identity.

Definition identity_ssh_options (self : EphemeralSshIdentityFile) : SshOptions := Some (ei_path self).

(** ** Commands on another machine *)

Inductive SshEvent :=
| SshSpawn (args : list string) (r : result string unit)
| SshStdin (bytes : string) (r : result string unit)
| SshShutdown (r : result string unit)
| SshWait (r : result string ProcessOutput).
Record SshEnv := {
  sv_spawn : list string -> list SshEvent -> result string unit;
  sv_stdin : string -> list SshEvent -> result string unit;
  sv_shutdown : list SshEvent -> result string unit;
  sv_wait : list SshEvent -> result string ProcessOutput
}.
Section run.
Context (env : SshEnv).
Definition run_ssh_inner (target remote_script : string) (stdin_bytes : option string) (options : SshOptions)
    : eff unit SshEvent string string :=
  let args := ssh_args target remote_script options in
  _ <-! mmap_err (fun e => "ssh execution failed: " +:+ e) (mask (sv_spawn env args) (SshSpawn args)) ;;
  _ <-! match stdin_bytes with
        | Some bytes =>
            _ <-! mmap_err (fun e => "ssh stdin write failed: " +:+ e) (mask (sv_stdin env bytes) (SshStdin bytes)) ;;
            mmap_err (fun e => "ssh stdin shutdown failed: " +:+ e) (mask (sv_shutdown env) SshShutdown)
        | None => mret tt
        end ;;
  output <-! mmap_err (fun e => "ssh execution failed: " +:+ e) (mask (sv_wait env) SshWait) ;;
  let stdout := trim (po_stdout output) in
  if bool_decide (po_code output = Some 0%N) then mret stdout
  else
    let stderr := trim (po_stderr output) in
    let detail := if is_empty stderr then stdout else stderr in
    mfail ("ssh to '" +:+ target +:+ "' failed (status: " +:+ exit_code output +:+ ")"
           +:+ (if is_empty detail then "" else ": " +:+ detail)).
End run.

(** ** Who can read the key *)

(** The files after a sequence of calls: contents and mode. *)
Abbreviation Files := (gmap string (string * N)) (only parsing).
Definition apply_id (new_mode : N) (fs : Files) (e : IdEvent) : Files :=
  match e with
  | IdCreate path (Ok _) => <[path := ("", new_mode)]> fs
  | IdChmod path mode (Ok _) => match fs !! path with Some f => <[path := (f.1, mode)]> fs | None => fs end
  | IdWrite path written _ => match fs !! path with Some f => <[path := (f.1 +:+ written, f.2)]> fs | None => fs end
  | IdRemove path (Ok _) => delete path fs
  | _ => fs
  end.
Definition replay (new_mode : N) (fs : Files) (log : list IdEvent) : Files := foldl (apply_id new_mode) fs log.

(** What the system documents: a file is created anew or not at all, only
    creating says that it exists, and a write that succeeds is complete. *)
Class IdLaws (env : IdEnv) (new_mode : N) (fs : Files) := {
  id_create_new log path : iv_create env path log = Ok tt -> replay new_mode fs log !! path = None;
  id_chmod_error log path mode : iv_chmod env path mode log <> Err AlreadyExists;
  id_write_error log path key : (iv_write env path key log).2 <> Err AlreadyExists;
  id_flush_error log path : iv_flush env path log <> Err AlreadyExists;
  id_write_whole log path key : (iv_write env path key log).2 = Ok tt -> (iv_write env path key log).1 = key
}.

Section private.
Context (env : IdEnv) (new_mode : N) (fs : Files) `{!IdLaws env new_mode fs}.

(** The files that were there are as they were, and a file that has anything in
    it is its owner's only. *)
Definition private_fs (now : Files) : Prop := forall p,
  match fs !! p with
  | Some f => now !! p = Some f
  | None => forall content mode, now !! p = Some (content, mode) -> content = "" \/ mode = OWNER_ONLY
  end.
Definition always_private (log : list IdEvent) : Prop := forall n, private_fs (replay new_mode fs (take n log)).
Lemma id_replay_snoc log e : replay new_mode fs (log ++ [e]) = apply_id new_mode (replay new_mode fs log) e.
Proof. unfold replay. by rewrite foldl_app. Qed.
Lemma always_snoc log e : always_private log -> private_fs (replay new_mode fs (log ++ [e])) -> always_private (log ++ [e]).
Proof.
  intros Hl He n. destruct (decide (n <= length log)) as [Hn|Hn].
  - rewrite take_app_le by done. apply Hl.
  - rewrite take_ge; [done|]. rewrite length_app. cbn. lia.
Qed.
Lemma private_new path content mode : fs !! path = None -> content = "" \/ mode = OWNER_ONLY -> private_fs (<[path := (content, mode)]> fs).
Proof.
  intros Hp Hc q. destruct (decide (q = path)) as [->|Hne].
  - rewrite Hp. intros ? ? Hl. rewrite lookup_insert_eq in Hl. by simplify_eq.
  - rewrite lookup_insert_ne by done. destruct (fs !! q); [done|]. by intros ? ? [=].
Qed.
Lemma private_same : private_fs fs.
Proof. intros q. destruct (fs !! q); [done|]. by intros ? ? [=]. Qed.

Definition file_written (path : PathBuf) (key : string) (log : list IdEvent) : Prop :=
  fs !! path = None /\ replay new_mode fs log = <[path := (key, OWNER_ONLY)]> fs.
Lemma write_identity_file_spec path key log : always_private log -> replay new_mode fs log = fs ->
  wp (write_identity_file env path key) (fun r _ log' => always_private log' /\
    match r with Ok _ => file_written path key log' | Err AlreadyExists => replay new_mode fs log' = fs | Err _ => True end) tt log.
Proof.
  intros Ha Hr. unfold write_identity_file. apply wp_bind. unfold wp at 1. cbn.
  pose proof (id_create_new log path) as Hnew. destruct (iv_create env path log) as [[]|e] eqn:Ec.
  2:{ assert (replay new_mode fs (log ++ [IdCreate path (Err e)])%list = fs) as Hr1 by (rewrite id_replay_snoc, Hr; done).
      split; [apply always_snoc; [done|]; rewrite Hr1; apply private_same|by destruct e]. }
  specialize (Hnew eq_refl). rewrite Hr in Hnew. set (log1 := (log ++ [IdCreate path (Ok tt)])%list).
  assert (replay new_mode fs log1 = <[path := ("", new_mode)]> fs) as Hr1 by (unfold log1; rewrite id_replay_snoc, Hr; done).
  assert (always_private log1) as Ha1 by (apply always_snoc; [done|]; fold log1; rewrite Hr1; apply private_new; auto).
  apply wp_bind. unfold wp at 1. cbn. pose proof (id_chmod_error log1 path OWNER_ONLY) as He2.
  destruct (iv_chmod env path OWNER_ONLY log1) as [[]|e] eqn:Em.
  2:{ split; [|by destruct e]. apply always_snoc; [done|]. rewrite id_replay_snoc, Hr1. cbn. by apply private_new; auto. }
  set (log2 := (log1 ++ [IdChmod path OWNER_ONLY (Ok tt)])%list).
  assert (replay new_mode fs log2 = <[path := ("", OWNER_ONLY)]> fs) as Hr2.
  { unfold log2. rewrite id_replay_snoc, Hr1. cbn. rewrite lookup_insert_eq. cbn. by rewrite insert_insert_eq. }
  assert (always_private log2) as Ha2 by (apply always_snoc; [done|]; fold log2; rewrite Hr2; apply private_new; auto).
  apply wp_bind. unfold wp at 1. cbn. pose proof (id_write_whole log2 path key) as Hw. pose proof (id_write_error log2 path key) as He3.
  destruct (iv_write env path key log2) as [written r3]. cbn [fst snd] in *. set (log3 := (log2 ++ [IdWrite path written r3])%list).
  assert (replay new_mode fs log3 = <[path := (written, OWNER_ONLY)]> fs) as Hr3.
  { unfold log3. rewrite id_replay_snoc, Hr2. cbn. rewrite lookup_insert_eq. cbn. by rewrite insert_insert_eq. }
  assert (always_private log3) as Ha3 by (apply always_snoc; [done|]; fold log3; rewrite Hr3; apply private_new; auto).
  apply wp_bind, wp_lift. destruct r3 as [[]|e]; [|split; [done|by destruct e]]. rewrite (Hw eq_refl) in Hr3.
  unfold wp. cbn. pose proof (id_flush_error log3 path) as He4.
  assert (forall r, replay new_mode fs (log3 ++ [IdFlush path r])%list = <[path := (key, OWNER_ONLY)]> fs) as Hr4 by (intros r; rewrite id_replay_snoc, Hr3; done).
  split.
  - apply always_snoc; [done|]. rewrite Hr4. apply private_new; auto.
  - destruct (iv_flush env path log3) as [[]|[]]; [|done|done]. split; [done|]. apply Hr4.
Qed.

Lemma identity_attempts_spec base_dir pid key attempt remaining log : always_private log -> replay new_mode fs log = fs ->
  wp (identity_attempts env base_dir pid key attempt remaining) (fun r _ log' => always_private log' /\
    match r with Ok self => file_written (ei_path self) key log' | Err _ => True end) tt log.
Proof.
  revert attempt log. induction remaining as [|remaining IH]; intros attempt log Ha Hr; cbn [identity_attempts]; [done|].
  apply wp_bind, wp_map_err. unfold wp at 1. cbn. set (log1 := (log ++ [IdClock _])%list).
  assert (replay new_mode fs log1 = fs) as Hr1 by (unfold log1; rewrite id_replay_snoc, Hr; done).
  assert (always_private log1) as Ha1 by (apply always_snoc; [done|]; fold log1; rewrite Hr1; apply private_same).
  destruct (iv_clock env log) as [nanos|e]; cbn; [|done]. apply wp_bind, wp_map_err, wp_try.
  eapply wp_mono; [by apply write_identity_file_spec|]. intros [[]|[|e]] [] log2 [Ha2 H2]; cbn.
  - by split.
  - by apply IH.
  - by split.
Qed.

(** C27: the private key of an operation is never readable by others.  After any
    number of the calls that write it, whichever of them fail, the files that were
    there are unchanged, and a new file that has anything in it has the mode of
    its owner only.  When writing succeeds exactly one file was added, at a path
    that was free, with the whole key; and dropping it leaves the files as they
    were. *)
Theorem identity_private base_dir pid key :
  let '(r, (_, log)) := identity_write env base_dir pid key (tt, []) in
  always_private log /\
  forall self, r = Ok self -> file_written (ei_path self) key log /\
    (iv_remove env (ei_path self) log = Ok tt ->
     let '(_, (_, log')) := identity_drop env self (tt, log) in always_private log' /\ replay new_mode fs log' = fs).
Proof.
  assert (always_private []) as Ha by (intros n; rewrite take_nil; apply private_same).
  pose proof (identity_attempts_spec base_dir pid key 0 16 [] Ha eq_refl) as Hw. unfold wp in Hw. unfold identity_write.
  destruct (identity_attempts env base_dir pid key 0 16 (tt, [])) as [r [[] log]]. destruct Hw as [Hp Hr]. split; [done|]. intros self ->.
  split; [done|]. destruct Hr as [Hn Hr]. intros Hrm. cbn. rewrite Hrm.
  assert (replay new_mode fs (log ++ [IdRemove (ei_path self) (Ok tt)])%list = fs) as Hr' by (rewrite id_replay_snoc, Hr; cbn; by rewrite delete_insert_id).
  split; [|done]. apply always_snoc; [done|]. rewrite Hr'. apply private_same.
Qed.
End private.

(** ** Runs *)

Definition sample_files : Files := {["/tmp/ployz-ssh-7-1000-0.key" := ("other", 420%N)]}.
(** A clock that stands still; the first path is taken; [cut] of the key's write
    fails after three bytes. *)
Definition sample_id (cut : bool) : IdEnv := {|
  iv_clock := fun _ => Ok 1000%N;
  iv_create := fun path log => match replay 420 sample_files log !! path with Some _ => Err AlreadyExists | None => Ok tt end;
  iv_chmod := fun _ _ _ => Ok tt;
  iv_write := fun _ key _ => if cut then (String.substring 0 3 key, Err (OtherIo "No space left on device")) else (key, Ok tt);
  iv_flush := fun _ _ => Ok tt; iv_remove := fun _ _ => Ok tt |}.
#[export] Instance sample_id_laws cut : IdLaws (sample_id cut) 420 sample_files.
Proof.
  split; cbn; try done.
  - intros log path. by destruct (replay 420 sample_files log !! path).
  - by destruct cut.
  - by destruct cut.
Qed.
Example identity_second_path :
  (identity_write (sample_id false) "/tmp" 7 "secret" (tt, [])).1 = Ok {| ei_path := "/tmp/ployz-ssh-7-1000-1.key" |}.
Proof. vm_compute. reflexivity. Qed.
Lemma identity_private_witness :
  exists self log, identity_write (sample_id false) "/tmp" 7 "secret" (tt, []) = (Ok self, (tt, log)) /\
    always_private 420 sample_files log /\ file_written 420 sample_files (ei_path self) "secret" log.
Proof.
  pose proof (identity_private (sample_id false) 420 sample_files "/tmp" 7 "secret") as H.
  assert (ok (identity_write (sample_id false) "/tmp" 7 "secret" (tt, [])).1 <> None) as Hok by (vm_compute; discriminate).
  destruct (identity_write _ _ _ _ _) as [[self|e] [[] log]]; [|done]. destruct H as [Ha Hw]. exists self, log. split_and!; [done|done|by apply Hw].
Defined.
(** A write that fails leaves the part of the key that was written: there is no
    object whose end would remove it. *)
Example identity_left_behind :
  let '(r, (_, log)) := identity_write (sample_id true) "/tmp" 7 "secret" (tt, []) in
  ok r = None /\ replay 420 sample_files log !! "/tmp/ployz-ssh-7-1000-1.key" = Some ("sec", OWNER_ONLY).
Proof. vm_compute. done. Qed.
