(* ===== verification/Settings.v ===== *)
(** * Settings of the host

    Where the daemon and its clients look for their files and how their settings
    are put together ([ployz-config/src/lib.rs]), the platform they run on
    ([ployzd/src/platform.rs]) and the images of the built-in services
    ([ployzd/src/built_in_images.rs]).

    [figment] and [toml] are arguments: a layer is a map from keys to values, and
    merging a layer replaces the values it has.  The directories of the user come
    from [HostDirs]. *)

From S2P Require Import Prelude Order Text Types Files Invite Services Daemon.
Local Open Scope string_scope.

(** ** Platforms *)

Inductive Os := Linux | Darwin | OtherOs.
#[export] Instance Os_eq_dec : EqDecision Os.
Proof. solve_decision. Defined.
Record HostPathsContext := { hx_os : Os; hx_is_root : bool }.
Record HostPlatform := { hp_os : Os; hp_is_root : bool }.
Definition paths_context (self : HostPlatform) : HostPathsContext := {| hx_os := hp_os self; hx_is_root := hp_is_root self |}.

Definition validate_runtime (runtime_target : RuntimeTarget) (service_mode : ServiceMode) (platform : HostPlatform)
    : result string unit :=
  match runtime_target, service_mode, hp_os platform with
  | TargetDocker, ModeSystem, _ => Err "system service mode requires host runtime"
  | TargetHost, ModeSystem, Linux => Ok tt
  | TargetHost, ModeSystem, (Darwin | OtherOs) => Err "system service mode requires Linux host runtime"
  | TargetHost, ModeUser, OtherOs => Err "host runtime is not supported on this platform"
  | TargetHost, ModeUser, (Linux | Darwin) => Ok tt
  | TargetDocker, ModeUser, _ => Ok tt
  end.

(** ** Directories *)

(** The [directories] crate and the environment. *)
Record HostDirs := {
  hd_project : option (PathBuf * PathBuf);          (* [data_local_dir], [config_dir] *)
  hd_base : option (PathBuf * option PathBuf);      (* [home_dir], [runtime_dir] *)
  hd_temp : PathBuf; hd_home_var : option string; hd_config_var : option string;
  hd_sudo_home : result string (option PathBuf)     (* the home of [SUDO_USER] *)
}.

Section dirs.
Context (dirs : HostDirs).
Definition home_dir : PathBuf :=
  match hd_base dirs with
  | Some (home, _) => home
  | None => default "/tmp" (hd_home_var dirs)
  end.
Definition default_data_dir (context : HostPathsContext) : PathBuf :=
  let of_user := match hd_project dirs with Some (data, _) => data | None => path_join home_dir ".ployz" end in
  match hx_os context with
  | Linux => if hx_is_root context then "/var/lib/ployz" else of_user
  | Darwin | OtherOs => of_user
  end.
Definition default_socket_path (context : HostPathsContext) : string :=
  match hx_os context with
  | Linux => if hx_is_root context then "/run/ployz/ployzd.sock"
             else match hd_base dirs with
                  | Some (_, Some runtime) => path_join runtime "ployz/ployzd.sock"
                  | _ => "/tmp/ployz/ployzd.sock"
                  end
  | Darwin => path_join (hd_temp dirs) "ployz/ployzd.sock"
  | OtherOs => "/tmp/ployz/ployzd.sock"
  end.
Definition default_config_path : PathBuf :=
  match hd_project dirs with
  | Some (_, config) => path_join config "config.toml"
  | None => path_join home_dir ".config/ployz/config.toml"
  end.
Definition resolve_config_path (cli_config_path : option PathBuf) : PathBuf :=
  match cli_config_path with
  | Some p => p
  | None => match hd_config_var dirs with Some p => p | None => default_config_path end
  end.
End dirs.

(** ** Layers of settings *)

Inductive Setting := StText (s : string) | StNumber (n : N).
Abbreviation Layer := (gmap string Setting) (only parsing).
(** [Figment::merge]: what the later layer has replaces what is there. *)
Definition merge_layer (figment layer : Layer) : Layer := layer ∪ figment.

Record DaemonConfig := {
  dcf_data_dir : PathBuf; dcf_socket : string; dcf_builtin_images_manifest : option PathBuf; dcf_cluster_cidr : string;
  dcf_subnet_prefix_len : N; dcf_remote_control_port : N; dcf_gateway_listen_addr : string; dcf_gateway_threads : N
}.
Record ClientConfig := { ccf_socket : string }.

Definition default_cluster_cidr : string := "10.101.0.0/16".
Definition default_subnet_prefix_len : N := 24.
Definition default_remote_control_port : N := 4317.
Definition default_gateway_listen_addr : string := "0.0.0.0:80".
Definition default_gateway_threads : N := 2.

(** A layer from the fields that are present. *)
Definition layer_of (fields : list (string * option Setting)) : Layer :=
  list_to_map (omap (fun f => match f.2 with Some v => Some (f.1, v) | None => None end) fields).
Definition runtime_defaults (dirs : HostDirs) (context : HostPathsContext) : Layer := layer_of [
  ("data_dir", Some (StText (default_data_dir dirs context))); ("socket", Some (StText (default_socket_path dirs context)));
  ("builtin_images_manifest", None); ("cluster_cidr", Some (StText default_cluster_cidr));
  ("subnet_prefix_len", Some (StNumber default_subnet_prefix_len));
  ("remote_control_port", Some (StNumber default_remote_control_port));
  ("gateway_listen_addr", Some (StText default_gateway_listen_addr));
  ("gateway_threads", Some (StNumber default_gateway_threads))].
Definition client_overrides (socket : option string) : Layer := layer_of [("socket", StText <$> socket)].
Definition daemon_overrides (data_dir : option PathBuf) (socket : option string) (remote_control_port : option N) : Layer :=
  layer_of [("data_dir", StText <$> data_dir); ("socket", StText <$> socket); ("builtin_images_manifest", None);
            ("cluster_cidr", None); ("subnet_prefix_len", None); ("remote_control_port", StNumber <$> remote_control_port);
            ("gateway_listen_addr", None); ("gateway_threads", None)].

(** [Toml::file], [Env::prefixed] and [extract]. *)
Class Figment := {
  toml_layer : string -> result string (gmap string Setting);
  env_layer : gmap string Setting;
  extract_daemon : gmap string Setting -> result string DaemonConfig;
  extract_client : gmap string Setting -> result string ClientConfig
}.

Section load.
Context `{Figment} (dirs : HostDirs).

(** A file that cannot be read or parsed fails the extraction. *)
Definition file_layer (cli_config_path : option PathBuf) (fs : Fs) : result string Layer :=
  let config_path := resolve_config_path dirs cli_config_path in
  if exists_path config_path fs then
    match fs_files fs !! config_path with Some text => toml_layer text | None => Err eisdir end
  else Ok ∅.
Definition build_figment (cli_config_path : option PathBuf) (context : HostPathsContext) (fs : Fs) : result string Layer :=
  file <-? file_layer cli_config_path fs ;;
  Ok (merge_layer (merge_layer (merge_layer ∅ (runtime_defaults dirs context)) file) env_layer).
Definition config_error (e : string) : string := "failed to load configuration: " +:+ e.
Definition load_client_config (cli_config_path : option PathBuf) (cli_socket : option string) (context : HostPathsContext)
    (fs : Fs) : result string ClientConfig :=
  map_err config_error (figment <-? build_figment cli_config_path context fs ;;
                        extract_client (merge_layer figment (client_overrides cli_socket))).
Definition load_daemon_config (cli_config_path cli_data_dir : option PathBuf) (cli_socket : option string)
    (cli_remote_control_port : option N) (context : HostPathsContext) (fs : Fs) : result string DaemonConfig :=
  map_err config_error (figment <-? build_figment cli_config_path context fs ;;
                        extract_daemon (merge_layer figment (daemon_overrides cli_data_dir cli_socket cli_remote_control_port))).

(** The value each key ends up with: the command line's, else the
    environment's, else the file's, else the default. *)
Lemma settings_precedence cli_config_path context fs file overrides key :
  file_layer cli_config_path fs = Ok file ->
  exists figment, build_figment cli_config_path context fs = Ok figment /\
    merge_layer figment overrides !! key =
      match overrides !! key, env_layer !! key, file !! key with
      | Some v, _, _ => Some v
      | None, Some v, _ => Some v
      | None, None, Some v => Some v
      | None, None, None => runtime_defaults dirs context !! key
      end.
Proof.
  intros Hf. unfold build_figment. rewrite Hf. eexists. split; [reflexivity|]. unfold merge_layer. rewrite !lookup_union, lookup_empty.
  by destruct (overrides !! key), (env_layer !! key), (file !! key), (runtime_defaults dirs context !! key).
Qed.

(** Every setting the daemon requires has a value. *)
Lemma settings_complete cli_config_path context fs file overrides key :
  file_layer cli_config_path fs = Ok file ->
  key ∈ ["data_dir"; "socket"; "cluster_cidr"; "subnet_prefix_len"; "remote_control_port"; "gateway_listen_addr"; "gateway_threads"] ->
  exists figment v, build_figment cli_config_path context fs = Ok figment /\ merge_layer figment overrides !! key = Some v.
Proof.
  intros Hf Hk. destruct (settings_precedence cli_config_path context fs file overrides key Hf) as (figment & Hb & He).
  exists figment. rewrite Hb, He. assert (is_Some (runtime_defaults dirs context !! key)) as [v Hv].
  { repeat (apply elem_of_cons in Hk as [->|Hk]); [..|by apply elem_of_nil in Hk]; eexists; reflexivity. }
  destruct (overrides !! key), (env_layer !! key), (file !! key); eauto.
Qed.
End load.

(** ** Built-in images *)

Inductive BuiltInImage := ImNetworking | ImCorrosion | ImDns | ImGateway.
Record PartialBuiltInImages := {
  pi_networking : option string; pi_corrosion : option string; pi_dns : option string; pi_gateway : option string
}.
Definition images_resolve (self : BuiltInImages) (image : BuiltInImage) : string :=
  match image with
  | ImNetworking => bi_networking self
  | ImCorrosion => bi_corrosion self
  | ImDns => bi_dns self
  | ImGateway => bi_gateway self
  end.
Definition images_apply (self : BuiltInImages) (partial : PartialBuiltInImages) : BuiltInImages := {|
  bi_networking := default (bi_networking self) (pi_networking partial);
  bi_corrosion := default (bi_corrosion self) (pi_corrosion partial);
  bi_dns := default (bi_dns self) (pi_dns partial); bi_gateway := default (bi_gateway self) (pi_gateway partial) |}.
Definition images_load (parse_embedded : result string BuiltInImages) (parse : string -> result string PartialBuiltInImages)
    (manifest_path : option PathBuf) : io BuiltInImages :=
  images <-/ io_lift (map_err (fun e => "parse embedded built-in images manifest: " +:+ e) parse_embedded) ;;
  match manifest_path with
  | None => io_ret images
  | Some path =>
      raw <-/ io_map_err (fun e => "read built-in images manifest '" +:+ path +:+ "': " +:+ e) (read_file path) ;;
      partial <-/ io_lift (map_err (fun e => "parse built-in images manifest '" +:+ path +:+ "': " +:+ e) (parse raw)) ;;
      io_ret (images_apply images partial)
  end.
