(* ===== verification/Install.v ===== *)
(** * Installing the daemon

    [ployzd/src/install.rs]: the manifest of an installation (a file of shell
    assignments that the installer script sources), the client's configuration,
    and the daemon as a service of the user or of the system.

    Files are those of [Files], with copying and renaming; commands and the
    change of a file's mode answer through [InstallEnv]. *)

From S2P Require Import Prelude Order Effect Text Types Files Invite Services Wireguard Daemon Machines Settings.
Local Open Scope string_scope.
Local Open Scope eff_scope.
#[local] Arguments String.append !_ _ : simpl nomatch.

Definition SERVICE_LABEL : string := "dev.ployz.ployzd".
Definition INSTALL_DIR_NAME : string := "install".
Definition MANIFEST_FILE_NAME : string := "manifest.env".

(** ** The manifest *)

Inductive ServiceBackend := SystemdUser | SystemdSystem | LaunchAgent.
Definition backend_as_str (b : ServiceBackend) : string :=
  match b with SystemdUser => "systemd-user" | SystemdSystem => "systemd-system" | LaunchAgent => "launch-agent" end.
Definition backend_parse (value : string) : result string ServiceBackend :=
  if String.eqb value "systemd-user" then Ok SystemdUser
  else if String.eqb value "systemd-system" then Ok SystemdSystem
  else if String.eqb value "launch-agent" then Ok LaunchAgent
  else Err ("unsupported service backend '" +:+ value +:+ "'").
Definition runtime_target_name (t : RuntimeTarget) : string := match t with TargetDocker => "docker" | TargetHost => "host" end.
Definition parse_runtime_target (value : string) : result string RuntimeTarget :=
  if String.eqb value "docker" then Ok TargetDocker else if String.eqb value "host" then Ok TargetHost
  else Err ("unsupported runtime target '" +:+ value +:+ "'").
Definition service_mode_name (m : ServiceMode) : string := match m with ModeUser => "user" | ModeSystem => "system" end.
Definition parse_service_mode (value : string) : result string ServiceMode :=
  if String.eqb value "user" then Ok ModeUser else if String.eqb value "system" then Ok ModeSystem
  else Err ("unsupported service mode '" +:+ value +:+ "'").

Record InstallManifest := {
  im_source_kind : string; im_source_version : option string; im_source_git_url : option string;
  im_source_git_ref : option string; im_bin_dir : PathBuf; im_assets_dir : PathBuf; im_config_path : PathBuf;
  im_data_dir : PathBuf; im_socket_path : string; im_installer_path : PathBuf; im_ployz_path : PathBuf;
  im_ployzd_path : PathBuf; im_gateway_path : PathBuf; im_dns_path : PathBuf; im_corrosion_path : PathBuf;
  im_runtime_target : RuntimeTarget; im_service_mode : ServiceMode; im_service_backend : option ServiceBackend
}.

(** [str::replace] of a longer text: leftmost occurrences that do not overlap. *)
Fixpoint replace_str (pat by_ : string) (skip : nat) (s : string) : string :=
  match s with
  | "" => ""
  | String c rest =>
      match skip with
      | S skip => replace_str pat by_ skip rest
      | O => if starts_with s pat then by_ +:+ replace_str pat by_ (len pat - 1) rest
             else String c (replace_str pat by_ 0 rest)
      end
  end.
(** [single_quote]: the same text as [shell_quote]. *)
Definition single_quote (value : string) : string :=
  apostrophe +:+ replace_char (ascii_of_N 39) quoted_apostrophe value +:+ apostrophe.
Definition env_line (key value : string) : string := key +:+ "=" +:+ single_quote value.
Definition env_line_opt (key : string) (value : option string) : string := env_line key (default "" value).
Definition non_empty (value : string) : option string := if is_empty value then None else Some value.

Definition parse_shell_value (raw : string) : result string string :=
  let trimmed := trim raw in
  match strip_prefix apostrophe trimmed with
  | Some rest => match strip_suffix apostrophe rest with
                 | Some inner => Ok (replace_str quoted_apostrophe apostrophe 0 inner)
                 | None => if contains_char " " trimmed then Err ("unquoted install manifest value '" +:+ trimmed +:+ "'") else Ok trimmed
                 end
  | None => if contains_char " " trimmed then Err ("unquoted install manifest value '" +:+ trimmed +:+ "'") else Ok trimmed
  end.

(** The variables of [load_from_path], before the required ones are checked. *)
Record PartialManifest := {
  pm_text : gmap string string; pm_runtime_target : option RuntimeTarget; pm_service_mode : option ServiceMode;
  pm_service_backend : option ServiceBackend
}.
Definition pm_empty : PartialManifest :=
  {| pm_text := ∅; pm_runtime_target := None; pm_service_mode := None; pm_service_backend := None |}.
Definition text_keys : list string :=
  ["SOURCE_KIND"; "SOURCE_VERSION"; "SOURCE_GIT_URL"; "SOURCE_GIT_REF"; "BIN_DIR"; "ASSETS_DIR"; "CONFIG_PATH"; "DATA_DIR"; "SOCKET_PATH";
   "INSTALLER_PATH"; "PLOYZ_PATH"; "PLOYZD_PATH"; "PLOYZ_GATEWAY_PATH"; "PLOYZ_DNS_PATH"; "CORROSION_PATH"].
Definition set_text (key value : string) (pm : PartialManifest) : PartialManifest :=
  {| pm_text := <[key := value]> (pm_text pm); pm_runtime_target := pm_runtime_target pm; pm_service_mode := pm_service_mode pm;
     pm_service_backend := pm_service_backend pm |}.
Definition assign (key value : string) (pm : PartialManifest) : result string PartialManifest :=
  if bool_decide (key ∈ text_keys) then Ok (set_text key value pm)
  else if String.eqb key "RUNTIME_TARGET" then
    t <-? parse_runtime_target value ;;
    Ok {| pm_text := pm_text pm; pm_runtime_target := Some t; pm_service_mode := pm_service_mode pm; pm_service_backend := pm_service_backend pm |}
  else if String.eqb key "SERVICE_MODE" then
    m <-? parse_service_mode value ;;
    Ok {| pm_text := pm_text pm; pm_runtime_target := pm_runtime_target pm; pm_service_mode := Some m; pm_service_backend := pm_service_backend pm |}
  else if String.eqb key "SERVICE_BACKEND" then
    b <-? match non_empty value with Some backend => b <-? backend_parse backend ;; Ok (Some b) | None => Ok None end ;;
    Ok {| pm_text := pm_text pm; pm_runtime_target := pm_runtime_target pm; pm_service_mode := pm_service_mode pm; pm_service_backend := b |}
  else Ok pm.
Definition manifest_line (path : PathBuf) (pm : PartialManifest) (line : string) : result string PartialManifest :=
  let trimmed := trim line in
  if is_empty trimmed || starts_with trimmed "#" then Ok pm
  else match split_once "=" trimmed with
       | None => Err ("invalid install manifest line in '" +:+ path +:+ "': " +:+ trimmed)
       | Some (key, raw_value) => value <-? parse_shell_value raw_value ;; assign key value pm
       end.
Definition required_value {T} (value : option T) (key : string) (path : PathBuf) : result string T :=
  ok_or value ("missing " +:+ key +:+ " in install manifest '" +:+ path +:+ "'").
Definition finish_manifest (path : PathBuf) (pm : PartialManifest) : result string InstallManifest :=
  let text key := required_value (pm_text pm !! key) key path in
  let optional key := match pm_text pm !! key with Some v => non_empty v | None => None end in
  source_kind <-? text "SOURCE_KIND" ;;
  bin_dir <-? text "BIN_DIR" ;;
  assets_dir <-? text "ASSETS_DIR" ;;
  config_path <-? text "CONFIG_PATH" ;;
  data_dir <-? text "DATA_DIR" ;;
  socket_path <-? text "SOCKET_PATH" ;;
  installer_path <-? text "INSTALLER_PATH" ;;
  ployz_path <-? text "PLOYZ_PATH" ;;
  ployzd_path <-? text "PLOYZD_PATH" ;;
  gateway_path <-? text "PLOYZ_GATEWAY_PATH" ;;
  dns_path <-? text "PLOYZ_DNS_PATH" ;;
  corrosion_path <-? text "CORROSION_PATH" ;;
  runtime_target <-? required_value (pm_runtime_target pm) "RUNTIME_TARGET" path ;;
  service_mode <-? required_value (pm_service_mode pm) "SERVICE_MODE" path ;;
  Ok {| im_source_kind := source_kind; im_source_version := optional "SOURCE_VERSION";
        im_source_git_url := optional "SOURCE_GIT_URL"; im_source_git_ref := optional "SOURCE_GIT_REF";
        im_bin_dir := bin_dir; im_assets_dir := assets_dir; im_config_path := config_path; im_data_dir := data_dir;
        im_socket_path := socket_path; im_installer_path := installer_path; im_ployz_path := ployz_path;
        im_ployzd_path := ployzd_path; im_gateway_path := gateway_path; im_dns_path := dns_path;
        im_corrosion_path := corrosion_path; im_runtime_target := runtime_target; im_service_mode := service_mode;
        im_service_backend := pm_service_backend pm |}.
Definition parse_manifest (path : PathBuf) (raw : string) : result string InstallManifest :=
  pm <-? try_fold (manifest_line path) pm_empty (lines raw) ;; finish_manifest path pm.
Definition load_from_path (path : PathBuf) : io InstallManifest :=
  raw <-/ io_map_err (fun e => "read install manifest '" +:+ path +:+ "': " +:+ e) (read_file path) ;;
  io_lift (parse_manifest path raw).

Definition manifest_lines (self : InstallManifest) : list string :=
  [env_line "SOURCE_KIND" (im_source_kind self);
   env_line_opt "SOURCE_VERSION" (im_source_version self);
   env_line_opt "SOURCE_GIT_URL" (im_source_git_url self);
   env_line_opt "SOURCE_GIT_REF" (im_source_git_ref self);
   env_line "BIN_DIR" (im_bin_dir self); env_line "ASSETS_DIR" (im_assets_dir self);
   env_line "CONFIG_PATH" (im_config_path self); env_line "DATA_DIR" (im_data_dir self);
   env_line "SOCKET_PATH" (im_socket_path self); env_line "INSTALLER_PATH" (im_installer_path self);
   env_line "PLOYZ_PATH" (im_ployz_path self); env_line "PLOYZD_PATH" (im_ployzd_path self);
   env_line "PLOYZ_GATEWAY_PATH" (im_gateway_path self); env_line "PLOYZ_DNS_PATH" (im_dns_path self);
   env_line "CORROSION_PATH" (im_corrosion_path self);
   env_line "RUNTIME_TARGET" (runtime_target_name (im_runtime_target self));
   env_line "SERVICE_MODE" (service_mode_name (im_service_mode self));
   env_line_opt "SERVICE_BACKEND" (backend_as_str <$> im_service_backend self)].
Definition manifest_content (self : InstallManifest) : string := join_with newline (manifest_lines self) +:+ newline.
Definition store_to_path (self : InstallManifest) (path : PathBuf) : io unit :=
  match path_parent path with
  | None => io_fail ("invalid install manifest path '" +:+ path +:+ "'")
  | Some parent =>
      _ <-/ io_map_err (fun e => "create install manifest dir '" +:+ parent +:+ "': " +:+ e) (create_dir_all parent) ;;
      io_map_err (fun e => "write install manifest '" +:+ path +:+ "': " +:+ e) (write_file path (manifest_content self))
  end.

(** ** Files, modes and commands of the host *)

(** Which files are executable, besides their contents. *)
Record InstallState := { is_fs : Fs; is_exec : gset string }.
Record InstallEnv := {
  ie_platform : HostPlatform; ie_dirs : HostDirs; ie_pid : N; ie_uid : N;
  ie_command : string * list string -> list (string * list string) -> result string Wireguard.ProcessOutput
}.
Abbreviation Inst A := (eff InstallState (string * list string) string A) (only parsing).

Definition on_fs {A} (c : io A) : Inst A := fun '(s, log) =>
  let '(r, fs) := c (is_fs s) in (r, ({| is_fs := fs; is_exec := is_exec s |}, log)).
Definition edit_exec (f : gset string -> gset string) : Inst unit :=
  mput (fun s => {| is_fs := is_fs s; is_exec := f (is_exec s) |}).
(** A file that is put in place: its mode is that of [src]. *)
Definition mode_of (src dest : PathBuf) (exec : gset string) : gset string :=
  if decide (src ∈ exec) then {[dest]} ∪ exec else exec ∖ {[dest]}.

(** [fs::copy]: the contents and the mode; opening the destination truncates
    it, and a failure may leave a part of the contents. *)
Definition enofile : string := "the source path is neither a regular file nor a symlink to a regular file".
Definition copy_content (src dest : PathBuf) : io unit :=
  operation (fun fs =>
      match fs_files fs !! src with
      | None => (Err (if decide (src ∈ fs_dirs fs) then enofile else enoent), fs)
      | Some c =>
          if decide (dest ∈ fs_dirs fs) then (Err eisdir, fs)
          else match path_parent dest with
               | Some d => if decide (d ∈ fs_dirs fs) then (Ok tt, with_files (insert dest (if decide (src = dest) then "" else c)) fs)
                           else (Err enoent, fs)
               | None => (Ok tt, with_files (insert dest (if decide (src = dest) then "" else c)) fs)
               end
      end)
    (fun f fs => match fault_content f with
                 | Some c => if decide (dest ∈ fs_dirs fs) then fs else with_files (insert dest c) fs
                 | None => fs
                 end).
Definition copy (src dest : PathBuf) : Inst unit :=
  fault <-! mget (fun s => mjoin (head (fs_faults (is_fs s)))) ;;
  r <-! mtry (on_fs (copy_content src dest)) ;;
  _ <-! match r, fault with
        | Ok _, _ | Err _, Some {| fault_content := Some _ |} => edit_exec (mode_of src dest)
        | Err _, _ => mret tt
        end ;;
  mlift r.
(** [fs::rename] of a file: at once, or not at all. *)
Definition rename_content (from to : PathBuf) : io unit :=
  operation (fun fs =>
      match fs_files fs !! from with
      | None => (Err enoent, fs)
      | Some c => if decide (to ∈ fs_dirs fs) then (Err eisdir, fs)
                  else (Ok tt, with_files (fun files => insert to c (delete from files)) fs)
      end) (fun _ fs => fs).
Definition rename (from to : PathBuf) : Inst unit :=
  _ <-! on_fs (rename_content from to) ;; edit_exec (fun exec => if decide (from = to) then exec else mode_of from to exec ∖ {[from]}).
(** [fs::remove_file]. *)
Definition remove (p : PathBuf) : Inst unit :=
  _ <-! on_fs (remove_file p) ;; edit_exec (fun exec => exec ∖ {[p]}).
(** [fs::metadata] and [fs::set_permissions]. *)
Definition metadata (p : PathBuf) : io unit :=
  operation (fun fs => if exists_path p fs then (Ok tt, fs) else (Err enoent, fs)) (fun _ fs => fs).
Definition set_executable (p : PathBuf) : Inst unit :=
  _ <-! mmap_err (fun e => "stat '" +:+ p +:+ "': " +:+ e) (on_fs (metadata p)) ;;
  _ <-! mmap_err (fun e => "chmod '" +:+ p +:+ "': " +:+ e) (on_fs (metadata p)) ;;
  edit_exec (union {[p]}).

Section install.
Context (env : InstallEnv).

Definition run_command (program : string) (args : list string) : Inst unit :=
  output <-! mmap_err (fun e => "start " +:+ program +:+ ": " +:+ e) (mcall (ie_command env (program, args)) (program, args)) ;;
  if Wireguard.po_success output then mret tt
  else
    let stderr := trim (Wireguard.po_stderr output) in
    let detail := if is_empty stderr then trim (Wireguard.po_stdout output) else stderr in
    mfail (program +:+ " " +:+ join_with " " args +:+ " failed: " +:+ detail).

(** ** Paths of an installation *)

Record ClientPaths := { cp_config_path : PathBuf; cp_data_dir : PathBuf; cp_socket_path : string }.
Definition linux_user_data_dir (home_dir : PathBuf) : PathBuf := path_join home_dir ".local/share/ployz".
Definition linux_user_config_path (home_dir : PathBuf) : PathBuf := path_join home_dir ".config/ployz/config.toml".
Definition linux_user_manifest_path (home_dir : PathBuf) : PathBuf :=
  path_join (path_join (linux_user_data_dir home_dir) INSTALL_DIR_NAME) MANIFEST_FILE_NAME.
Definition default_manifest_path (platform : HostPlatform) : PathBuf :=
  path_join (path_join (default_data_dir (ie_dirs env) (paths_context platform)) INSTALL_DIR_NAME) MANIFEST_FILE_NAME.
Definition home_dir_for_current_user : result string PathBuf := ok_or (hd_home_var (ie_dirs env)) "HOME is not set".
Definition sudo_user_home_dir : result string (option PathBuf) := hd_sudo_home (ie_dirs env).

Definition is_system (runtime_target : RuntimeTarget) (service_mode : ServiceMode) : bool :=
  match runtime_target, service_mode with TargetHost, ModeSystem => true | _, _ => false end.
Definition resolve_manifest_path (runtime_target : RuntimeTarget) (service_mode : ServiceMode) (explicit : option PathBuf)
    : result string PathBuf :=
  match explicit with
  | Some path => Ok path
  | None =>
      let platform := ie_platform env in
      sudo <-? (if hp_is_root platform && is_system runtime_target service_mode then sudo_user_home_dir else Ok None) ;;
      match sudo with
      | Some home => Ok (linux_user_manifest_path home)
      | None => Ok (default_manifest_path platform)
      end
  end.
Definition resolve_config_target (platform : HostPlatform) : result string PathBuf :=
  sudo <-? (if hp_is_root platform && bool_decide (hp_os platform = Linux) then sudo_user_home_dir else Ok None) ;;
  match sudo with Some home => Ok home | None => home_dir_for_current_user end.
Definition client_paths (runtime_target : RuntimeTarget) (service_mode : ServiceMode) (home_dir : PathBuf) : ClientPaths :=
  let platform := ie_platform env in
  let defaults := {| cp_config_path := default_config_path (ie_dirs env);
                     cp_data_dir := default_data_dir (ie_dirs env) (paths_context platform);
                     cp_socket_path := default_socket_path (ie_dirs env) (paths_context platform) |} in
  if is_system runtime_target service_mode then
    {| cp_config_path := linux_user_config_path home_dir; cp_data_dir := "/var/lib/ployz"; cp_socket_path := "/run/ployz/ployzd.sock" |}
  else if hp_is_root platform then defaults
  else match hp_os platform with
       | Linux => {| cp_config_path := linux_user_config_path home_dir; cp_data_dir := linux_user_data_dir home_dir;
                     cp_socket_path := default_socket_path (ie_dirs env) (paths_context platform) |}
       | Darwin => {| cp_config_path := path_join home_dir "Library/Application Support/ployz/config.toml";
                      cp_data_dir := path_join home_dir "Library/Application Support/ployz";
                      cp_socket_path := default_socket_path (ie_dirs env) (paths_context platform) |}
       | OtherOs => defaults
       end.

(** ** Texts that are written *)

Definition backslash : string := "\".
Definition systemd_quote (value : string) : string :=
  quote +:+ replace_char (ascii_of_N 34) (backslash +:+ quote) (replace_char "\" (backslash +:+ backslash) value) +:+ quote.
Definition toml_string (value : string) : string :=
  quote +:+ replace_char (ascii_of_N 10) "\n"
              (replace_char (ascii_of_N 34) (backslash +:+ quote) (replace_char "\" (backslash +:+ backslash) value)) +:+ quote.
Definition xml_escape (value : string) : string :=
  replace_char (ascii_of_N 39) "&apos;" (replace_char (ascii_of_N 34) "&quot;"
    (replace_char ">" "&gt;" (replace_char "<" "&lt;" (replace_char "&" "&amp;" value)))).
Definition client_config_text (data_dir : PathBuf) (socket_path : string) : string :=
  unlines ["data_dir = " +:+ toml_string data_dir; "socket = " +:+ toml_string socket_path].
Definition user_unit (ployzd_path data_dir : PathBuf) (socket_path : string) (t : RuntimeTarget) (m : ServiceMode) : string :=
  unlines ["[Unit]"; "Description=Ployz control plane daemon"; "After=default.target"; ""; "[Service]"; "Type=simple";
           "ExecStart=" +:+ systemd_quote ployzd_path +:+ " --data-dir " +:+ systemd_quote data_dir +:+ " --socket "
             +:+ systemd_quote socket_path +:+ " run --runtime " +:+ runtime_target_name t +:+ " --service-mode " +:+ service_mode_name m;
           "Restart=always"; "RestartSec=2"; ""; "[Install]"; "WantedBy=default.target"].
Definition in_quotes (s : string) : string := quote +:+ s +:+ quote.
Definition xml_item (s : string) : string := "    <string>" +:+ s +:+ "</string>".
Definition launch_plist (ployzd_path data_dir : PathBuf) (socket_path : string) (t : RuntimeTarget) (m : ServiceMode) : string :=
  unlines ["<?xml version=" +:+ in_quotes "1.0" +:+ " encoding=" +:+ in_quotes "UTF-8" +:+ "?>";
           "<!DOCTYPE plist PUBLIC " +:+ in_quotes "-//Apple//DTD PLIST 1.0//EN" +:+ " "
             +:+ in_quotes "http://www.apple.com/DTDs/PropertyList-1.0.dtd" +:+ ">";
           "<plist version=" +:+ in_quotes "1.0" +:+ ">"; "<dict>"; "  <key>Label</key>"; "  <string>" +:+ SERVICE_LABEL +:+ "</string>";
           "  <key>ProgramArguments</key>"; "  <array>"; xml_item (xml_escape ployzd_path); xml_item "--data-dir"; xml_item (xml_escape data_dir);
           xml_item "--socket"; xml_item (xml_escape socket_path); xml_item "run"; xml_item "--runtime"; xml_item (runtime_target_name t);
           xml_item "--service-mode"; xml_item (service_mode_name m); "  </array>"; "  <key>KeepAlive</key>"; "  <true/>";
           "  <key>RunAtLoad</key>"; "  <true/>"; "</dict>"; "</plist>"].

(** ** The steps of an installation *)

Definition write_client_config (path data_dir : PathBuf) (socket_path : string) : Inst unit :=
  match path_parent path with
  | None => mfail ("invalid config path '" +:+ path +:+ "'")
  | Some parent =>
      _ <-! mmap_err (fun e => "create config dir '" +:+ parent +:+ "': " +:+ e) (on_fs (create_dir_all parent)) ;;
      mmap_err (fun e => "write config '" +:+ path +:+ "': " +:+ e) (on_fs (write_file path (client_config_text data_dir socket_path)))
  end.
Fixpoint first_missing (paths : list PathBuf) (fs : Fs) : option PathBuf :=
  match paths with
  | [] => None
  | p :: paths => if exists_path p fs then first_missing paths fs else Some p
  end.
Definition validate_install_manifest (m : InstallManifest) : Inst unit :=
  missing <-! mget (fun s => first_missing [im_installer_path m; im_ployz_path m; im_ployzd_path m; im_gateway_path m; im_dns_path m;
                                            im_corrosion_path m] (is_fs s)) ;;
  match missing with
  | Some path => mfail ("install manifest references missing file '" +:+ path +:+ "'")
  | None => mret tt
  end.

Definition install_systemd_user_service (ployzd_path data_dir : PathBuf) (socket_path : string) (t : RuntimeTarget) (m : ServiceMode)
    : Inst unit :=
  home <-! mlift home_dir_for_current_user ;;
  let unit_dir := path_join home ".config/systemd/user" in
  _ <-! mmap_err (fun e => "create systemd user dir '" +:+ unit_dir +:+ "': " +:+ e) (on_fs (create_dir_all unit_dir)) ;;
  let unit_path := path_join unit_dir "ployzd.service" in
  _ <-! mmap_err (fun e => "write systemd user unit '" +:+ unit_path +:+ "': " +:+ e)
          (on_fs (write_file unit_path (user_unit ployzd_path data_dir socket_path t m))) ;;
  _ <-! run_command "systemctl" ["--user"; "daemon-reload"] ;;
  run_command "systemctl" ["--user"; "enable"; "--now"; "ployzd.service"].
Definition install_launch_agent (ployzd_path data_dir : PathBuf) (socket_path : string) (t : RuntimeTarget) (m : ServiceMode) : Inst unit :=
  home <-! mlift home_dir_for_current_user ;;
  let agents_dir := path_join home "Library/LaunchAgents" in
  _ <-! mmap_err (fun e => "create LaunchAgents dir '" +:+ agents_dir +:+ "': " +:+ e) (on_fs (create_dir_all agents_dir)) ;;
  let plist_path := path_join agents_dir (SERVICE_LABEL +:+ ".plist") in
  _ <-! mmap_err (fun e => "write LaunchAgent '" +:+ plist_path +:+ "': " +:+ e)
          (on_fs (write_file plist_path (launch_plist ployzd_path data_dir socket_path t m))) ;;
  let domain := "gui/" +:+ dec (ie_uid env) in
  _ <-! mtry (run_command "launchctl" ["bootout"; domain; plist_path]) ;;
  _ <-! run_command "launchctl" ["bootstrap"; domain; plist_path] ;;
  run_command "launchctl" ["kickstart"; "-k"; domain +:+ "/" +:+ SERVICE_LABEL].
Definition unsupported_user_services : string := "user services are not supported on this platform".
Definition ensure_user_service (platform : HostPlatform) (ployzd_path data_dir : PathBuf) (socket_path : string) (t : RuntimeTarget)
    (m : ServiceMode) : Inst unit :=
  match hp_os platform with
  | Linux => install_systemd_user_service ployzd_path data_dir socket_path t m
  | Darwin => install_launch_agent ployzd_path data_dir socket_path t m
  | OtherOs => mfail unsupported_user_services
  end.
Definition user_backend (platform : HostPlatform) : result string ServiceBackend :=
  match hp_os platform with
  | Linux => Ok SystemdUser
  | Darwin => Ok LaunchAgent
  | OtherOs => Err unsupported_user_services
  end.

Definition system_bin_dir : PathBuf := "/usr/local/bin".
(** The files to promote, with the names they get. *)
Definition copies (m : InstallManifest) : list (PathBuf * string) :=
  [(im_installer_path m, "ployz.sh"); (im_ployz_path m, "ployz"); (im_ployzd_path m, "ployzd"); (im_gateway_path m, "ployz-gateway");
   (im_dns_path m, "ployz-dns"); (im_corrosion_path m, "corrosion")].
Definition temp_dest (file_name : string) : PathBuf := path_join system_bin_dir ("." +:+ file_name +:+ ".tmp-" +:+ dec (ie_pid env)).
Definition promote_one (c : PathBuf * string) : Inst unit :=
  let '(src, file_name) := c in
  let dest := path_join system_bin_dir file_name in
  let temp := temp_dest file_name in
  _ <-! mmap_err (fun e => "copy '" +:+ src +:+ "' to temporary '" +:+ temp +:+ "': " +:+ e) (copy src temp) ;;
  _ <-! set_executable temp ;;
  renamed <-! mtry (rename temp dest) ;;
  match renamed with
  | Ok _ => mret tt
  | Err e => _ <-! mtry (remove temp) ;;
             mfail ("rename temporary '" +:+ temp +:+ "' to '" +:+ dest +:+ "': " +:+ e)
  end.
Definition promote_system_binaries (m : InstallManifest) : Inst unit :=
  _ <-! mmap_err (fun e => "create system bin dir '" +:+ system_bin_dir +:+ "': " +:+ e) (on_fs (create_dir_all system_bin_dir)) ;;
  mfor (copies m) promote_one.

Definition system_unit_path : PathBuf := "/etc/systemd/system/ployzd.service".
Definition install_system_service (assets_dir : PathBuf) (t : RuntimeTarget) (m : ServiceMode) : Inst unit :=
  if is_system t m then
    let source_unit := path_join assets_dir "systemd/ployzd.service" in
    match path_parent system_unit_path with
    | None => mfail ("invalid systemd unit path '" +:+ system_unit_path +:+ "'")
    | Some parent =>
        _ <-! mmap_err (fun e => "create systemd dir '" +:+ parent +:+ "': " +:+ e) (on_fs (create_dir_all parent)) ;;
        _ <-! mmap_err (fun e => "copy systemd unit '" +:+ source_unit +:+ "' to '" +:+ system_unit_path +:+ "': " +:+ e)
                (copy source_unit system_unit_path) ;;
        _ <-! run_command "systemctl" ["daemon-reload"] ;;
        run_command "systemctl" ["enable"; "--now"; "ployzd.service"]
    end
  else mfail "system service install requires host runtime with system service mode".

(** What the installation records of itself. *)
Definition recorded (m : InstallManifest) (paths : ClientPaths) (t : RuntimeTarget) (mode : ServiceMode) (b : ServiceBackend) : InstallManifest := {|
  im_source_kind := im_source_kind m; im_source_version := im_source_version m; im_source_git_url := im_source_git_url m;
  im_source_git_ref := im_source_git_ref m; im_bin_dir := im_bin_dir m; im_assets_dir := im_assets_dir m;
  im_config_path := cp_config_path paths; im_data_dir := cp_data_dir paths; im_socket_path := cp_socket_path paths;
  im_installer_path := im_installer_path m; im_ployz_path := im_ployz_path m; im_ployzd_path := im_ployzd_path m;
  im_gateway_path := im_gateway_path m; im_dns_path := im_dns_path m; im_corrosion_path := im_corrosion_path m;
  im_runtime_target := t; im_service_mode := mode; im_service_backend := Some b |}.
(** The service of the mode, and its backend. *)
Definition install_service (manifest : InstallManifest) (paths : ClientPaths) (t : RuntimeTarget) (mode : ServiceMode) : Inst ServiceBackend :=
  let platform := ie_platform env in
  match mode with
  | ModeUser =>
      _ <-! ensure_user_service platform (im_ployzd_path manifest) (cp_data_dir paths) (cp_socket_path paths) t mode ;;
      mlift (user_backend platform)
  | ModeSystem =>
      _ <-! promote_system_binaries manifest ;;
      _ <-! install_system_service (im_assets_dir manifest) t mode ;;
      mret SystemdSystem
  end.
Definition daemon_install (t : RuntimeTarget) (mode : ServiceMode) (explicit : option PathBuf) : Inst InstallManifest :=
  let platform := ie_platform env in
  _ <-! mlift (validate_runtime t mode platform) ;;
  manifest_path <-! mlift (resolve_manifest_path t mode explicit) ;;
  manifest <-! on_fs (load_from_path manifest_path) ;;
  config_target <-! mlift (resolve_config_target platform) ;;
  let paths := client_paths t mode config_target in
  _ <-! validate_install_manifest manifest ;;
  _ <-! write_client_config (cp_config_path paths) (cp_data_dir paths) (cp_socket_path paths) ;;
  backend <-! install_service manifest paths t mode ;;
  let manifest := recorded manifest paths t mode backend in
  _ <-! on_fs (store_to_path manifest manifest_path) ;;
  mret manifest.

(** The installer script: the first candidate there is. *)
Definition installer_candidates (current_exe : PathBuf) (current_dir : result string PathBuf) (workspace_root : option PathBuf)
    : list PathBuf :=
  [match path_parent current_exe with Some d => path_join d "ployz.sh" | None => "ployz.sh" end;
   match path_parent current_exe with Some d => path_join d "ployz.sh" | None => "ployz.sh" end;
   match current_dir with Ok d => path_join d "ployz.sh" | Err _ => "ployz.sh" end;
   match workspace_root with Some d => path_join d "ployz.sh" | None => "ployz.sh" end;
   "/usr/local/bin/ployz.sh"; "/usr/bin/ployz.sh"].
Definition find_installer_script (current_exe current_dir : result string PathBuf) (workspace_root : option PathBuf) (fs : Fs)
    : result string PathBuf :=
  current_exe <-? map_err (fun e => "current_exe failed: " +:+ e) current_exe ;;
  ok_or (head (filter (fun p => exists_path p fs = true) (installer_candidates current_exe current_dir workspace_root)))
    "ployz.sh installer script not found".
End install.

(** ** Reading the manifest back *)

Lemma contains_replace_char c d by_ v :
  contains_char d by_ = false -> contains_char d v = false -> contains_char d (replace_char c by_ v) = false.
Proof.
  intros Hb. induction v as [|e v IH]; [done|]. cbn [contains_char replace_char].
  destruct (ascii_dec d e) as [|Hde]; [done|]. intros Hv. destruct (ascii_dec c e).
  - by rewrite contains_char_app, Hb, IH.
  - cbn [contains_char]. destruct (ascii_dec d e); [done|]. by apply IH.
Qed.
Lemma replace_str_quoted v rest :
  replace_str quoted_apostrophe apostrophe 0 (replace_char (ascii_of_N 39) quoted_apostrophe v +:+ rest) =
  v +:+ replace_str quoted_apostrophe apostrophe 0 rest.
Proof.
  induction v as [|c v IH]; [done|]. cbn [replace_char]. destruct (ascii_dec (ascii_of_N 39) c) as [<-|Hc].
  - rewrite append_assoc. change (String (ascii_of_N 39) v +:+ ?x) with (apostrophe +:+ (v +:+ x)). rewrite <- IH. reflexivity.
  - change (String c ?x +:+ ?y) with (String c (x +:+ y)). cbn [replace_str].
    replace (starts_with _ _) with false; [by rewrite IH|]. symmetry. apply not_true_iff_false.
    intros [r Hr]%starts_with_spec. unfold quoted_apostrophe, apostrophe in Hr. change (String ?d "" +:+ ?x) with (String d x) in Hr.
    cbn in Hr. injection Hr as Hr _. by apply Hc.
Qed.
Lemma trim_quoted c s t : plain c = true -> String c s = t +:+ apostrophe -> trim (String c s) = String c s.
Proof.
  intros Hc E. apply (trim_plain c s (ascii_of_N 39) (rev_str t)); [done|done|]. rewrite E, rev_str_app. reflexivity.
Qed.
Lemma single_quote_trim v : trim (single_quote v) = single_quote v.
Proof.
  unfold single_quote. change (apostrophe +:+ ?x) with (String (ascii_of_N 39) x).
  apply (trim_quoted _ _ (String (ascii_of_N 39) (replace_char (ascii_of_N 39) quoted_apostrophe v))); reflexivity.
Qed.
Lemma single_quote_parse v : parse_shell_value (single_quote v) = Ok v.
Proof.
  unfold parse_shell_value. rewrite single_quote_trim. unfold single_quote.
  replace (strip_prefix _ _) with (Some (replace_char (ascii_of_N 39) quoted_apostrophe v +:+ apostrophe))
    by (symmetry; by apply strip_prefix_Some).
  replace (strip_suffix _ _) with (Some (replace_char (ascii_of_N 39) quoted_apostrophe v)) by (symmetry; by apply strip_suffix_Some).
  pose proof (replace_str_quoted v "") as E. rewrite append_empty_r in E. rewrite E. cbn [replace_str]. by rewrite append_empty_r.
Qed.

(** A key of the manifest: a word that is not a comment. *)
Definition key_ok (key : string) : bool :=
  match key with "" => false | String c _ => plain c && negb (contains_char "=" key) && negb (Ascii.eqb c "#") end.
Lemma manifest_line_env path pm key v : key_ok key = true -> manifest_line path pm (env_line key v) = assign key v pm.
Proof.
  destruct key as [|c k]; [done|]. cbn [key_ok]. intros [[Hc He%negb_true_iff]%andb_true_iff Hh%negb_true_iff]%andb_true_iff.
  unfold manifest_line, env_line. change (String c k +:+ ?x) with (String c (k +:+ x)).
  rewrite (trim_quoted c _ (String c k +:+ "=" +:+ apostrophe +:+ replace_char (ascii_of_N 39) quoted_apostrophe v) Hc).
  2:{ unfold single_quote. by rewrite !append_assoc. }
  replace (is_empty _ || starts_with _ "#") with false.
  2:{ unfold starts_with. cbn [is_empty strip_prefix orb]. destruct (ascii_dec "#" c) as [<-|]; [done|reflexivity]. }
  change (String c (k +:+ "=" +:+ single_quote v)) with (String c k +:+ String "=" (single_quote v)).
  rewrite split_once_app by done. by rewrite single_quote_parse.
Qed.

Lemma unlines_join l : l <> [] -> join_with newline l +:+ newline = unlines l.
Proof.
  induction l as [|x [|y l] IH]; [done| |]; intros _; unfold unlines in *.
  - cbn. by rewrite append_empty_r.
  - change (join_with newline (x :: y :: l)) with (x +:+ newline +:+ join_with newline (y :: l)).
    rewrite fmap_cons. cbn [concat_str]. rewrite <- IH by done. unfold writeln at 1. by rewrite !append_assoc.
Qed.
Lemma env_line_one_line key v : one_line key -> one_line v -> one_line (env_line key v) /\ strip_cr_end (env_line key v) = env_line key v.
Proof.
  intros Hk Hv. unfold one_line, env_line, single_quote in *. rewrite !contains_char_app, Hk. cbn [contains_char orb].
  rewrite contains_replace_char by done. split; [done|]. unfold strip_cr_end.
  destruct (strip_suffix _ _) as [r|] eqn:E; [|done]. apply strip_suffix_Some in E. rewrite <- !append_assoc in E.
  apply (f_equal rev_str) in E. rewrite !rev_str_app in E. done.
Qed.

(** What can be written in the manifest: single lines, and versions that are not empty. *)
Definition manifest_ok (m : InstallManifest) : Prop :=
  Forall one_line [im_source_kind m; im_bin_dir m; im_assets_dir m; im_config_path m; im_data_dir m; im_socket_path m;
                   im_installer_path m; im_ployz_path m; im_ployzd_path m; im_gateway_path m; im_dns_path m; im_corrosion_path m] /\
  Forall (fun o => forall v, o = Some v -> one_line v /\ v <> "") [im_source_version m; im_source_git_url m; im_source_git_ref m].

Lemma manifest_lines_ok m : manifest_ok m -> Forall (fun s => one_line s /\ strip_cr_end s = s) (manifest_lines m).
Proof.
  intros [Ht Ho]. rewrite !Forall_cons in Ht. rewrite !Forall_cons in Ho. destruct Ht as (? & ? & ? & ? & ? & ? & ? & ? & ? & ? & ? & ? & _).
  destruct Ho as (Hv & Hu & Hr & _).
  assert (forall key o, one_line key -> (forall v, o = Some v -> one_line v) ->
    one_line (env_line_opt key o) /\ strip_cr_end (env_line_opt key o) = env_line_opt key o) as Hopt.
  { intros key o Hk Hone. apply env_line_one_line; [done|]. destruct o; [by apply Hone|done]. }
  unfold manifest_lines. repeat (apply Forall_cons; split); [..|done];
    first [apply Hopt; [reflexivity|]; intros v Hs | apply env_line_one_line; [reflexivity|]];
    first [done | by apply Hv | by apply Hu | by apply Hr | by destruct (im_runtime_target m) | by destruct (im_service_mode m) | idtac].
  destruct (im_service_backend m) as [[]|]; by simplify_eq/=.
Qed.

Lemma non_empty_default o : (forall v, o = Some v -> one_line v /\ v <> "") -> non_empty (default "" o) = o.
Proof. intros Ho. destruct o as [v|]; [|done]. destruct (Ho v eq_refl) as [_ Hne]. cbn. unfold non_empty. by destruct v. Qed.

Lemma assign_text key v pm : key ∈ text_keys -> assign key v pm = Ok (set_text key v pm).
Proof. intros Hk. unfold assign. by rewrite bool_decide_eq_true_2. Qed.

Lemma assign_target t pm : assign "RUNTIME_TARGET" (runtime_target_name t) pm =
  Ok {| pm_text := pm_text pm; pm_runtime_target := Some t; pm_service_mode := pm_service_mode pm; pm_service_backend := pm_service_backend pm |}.
Proof. by destruct t. Qed.
Lemma assign_mode m pm : assign "SERVICE_MODE" (service_mode_name m) pm =
  Ok {| pm_text := pm_text pm; pm_runtime_target := pm_runtime_target pm; pm_service_mode := Some m; pm_service_backend := pm_service_backend pm |}.
Proof. by destruct m. Qed.
Lemma assign_backend b pm : assign "SERVICE_BACKEND" (default "" (backend_as_str <$> b)) pm =
  Ok {| pm_text := pm_text pm; pm_runtime_target := pm_runtime_target pm; pm_service_mode := pm_service_mode pm; pm_service_backend := b |}.
Proof. by destruct b as [[]|]. Qed.

Definition pm_with_text (texts : gmap string string) : PartialManifest :=
  {| pm_text := texts; pm_runtime_target := None; pm_service_mode := None; pm_service_backend := None |}.
Lemma fold_text path (kvs : list (string * string)) texts :
  Forall (fun kv => key_ok kv.1 = true /\ kv.1 ∈ text_keys) kvs ->
  try_fold (manifest_line path) (pm_with_text texts) ((fun kv => env_line kv.1 kv.2) <$> kvs) =
    Ok (pm_with_text (foldl (fun m kv => <[kv.1 := kv.2]> m) texts kvs)).
Proof.
  intros Hk. revert texts. induction Hk as [|[k v] kvs [Hk Hin] _ IH]; intros texts; [done|].
  rewrite fmap_cons. cbn [try_fold fst snd]. rewrite manifest_line_env, assign_text by done. cbn [rbind foldl fst snd]. apply (IH (<[k := v]> texts)).
Qed.
Definition manifest_texts (m : InstallManifest) : list (string * string) :=
  zip text_keys [im_source_kind m; default "" (im_source_version m); default "" (im_source_git_url m); default "" (im_source_git_ref m);
    im_bin_dir m; im_assets_dir m; im_config_path m; im_data_dir m; im_socket_path m; im_installer_path m; im_ployz_path m;
    im_ployzd_path m; im_gateway_path m; im_dns_path m; im_corrosion_path m].
Definition manifest_rest (m : InstallManifest) : list string :=
  [env_line "RUNTIME_TARGET" (runtime_target_name (im_runtime_target m)); env_line "SERVICE_MODE" (service_mode_name (im_service_mode m));
   env_line_opt "SERVICE_BACKEND" (backend_as_str <$> im_service_backend m)].
Lemma manifest_lines_split m : manifest_lines m = (((fun kv => env_line kv.1 kv.2) <$> manifest_texts m) ++ manifest_rest m)%list.
Proof. reflexivity. Qed.

Lemma manifest_keys_ok m : Forall (fun kv => key_ok kv.1 = true /\ kv.1 ∈ text_keys) (manifest_texts m).
Proof.
  unfold manifest_texts, text_keys at 1. cbn [zip zip_with]. repeat constructor; cbn [fst]; apply (bool_decide_unpack _); vm_compute; reflexivity.
Qed.

(** The values of the keys in the map that was read. *)
Lemma manifest_text_lookup m i key value :
  manifest_texts m !! i = Some (key, value) ->
  foldl (fun (t : gmap string string) kv => <[kv.1 := kv.2]> t) ∅ (manifest_texts m) !! key = Some value.
Proof.
  intros Hi. assert (NoDup (manifest_texts m).*1) as Hnd by (vm_compute; repeat constructor; set_solver).
  assert (forall l (t : gmap string string), NoDup l.*1 -> (key, value) ∈ l ->
    foldl (fun t kv => <[kv.1 := kv.2]> t) t l !! key = Some value) as H.
  { clear. intros l. induction l as [|[k v] l IH] using rev_ind; [set_solver|]. intros t Hnd Hin.
    rewrite foldl_app. cbn [foldl fst snd]. rewrite fmap_app in Hnd. apply NoDup_app in Hnd as (Hnd & Hno & _).
    apply elem_of_app in Hin as [Hin|Hin].
    - rewrite lookup_insert_ne; [by apply IH|]. intros ->. apply (Hno key); [|by left]. apply list_elem_of_fmap. by exists (key, value).
    - apply list_elem_of_singleton in Hin. simplify_eq. by rewrite lookup_insert_eq. }
  apply H; [done|]. by apply list_elem_of_lookup_2 in Hi.
Qed.

Lemma parse_manifest_content path m : manifest_ok m -> parse_manifest path (manifest_content m) = Ok m.
Proof.
  intros Hm. unfold parse_manifest, manifest_content. rewrite unlines_join by done. rewrite lines_unlines by by apply manifest_lines_ok.
  destruct Hm as [_ Ho]. rewrite !Forall_cons in Ho. destruct Ho as (Hv & Hu & Hr & _).
  rewrite manifest_lines_split, try_fold_app. change pm_empty with (pm_with_text ∅). rewrite fold_text by apply manifest_keys_ok.
  pose proof (manifest_text_lookup m) as Hl. revert Hl. generalize (foldl (fun (t : gmap string string) kv => <[kv.1 := kv.2]> t) ∅ (manifest_texts m)).
  intros texts Hl. cbn [rbind]. unfold manifest_rest. cbn [try_fold].
  rewrite manifest_line_env by reflexivity. rewrite assign_target. cbn [rbind].
  rewrite manifest_line_env by reflexivity. rewrite assign_mode. cbn [rbind]. unfold env_line_opt.
  rewrite manifest_line_env by reflexivity. rewrite assign_backend. cbn [rbind].
  unfold finish_manifest, pm_with_text. cbn [pm_text pm_runtime_target pm_service_mode pm_service_backend].
  rewrite (Hl 0 _ _ eq_refl), (Hl 1 _ _ eq_refl), (Hl 2 _ _ eq_refl), (Hl 3 _ _ eq_refl), (Hl 4 _ _ eq_refl), (Hl 5 _ _ eq_refl),
    (Hl 6 _ _ eq_refl), (Hl 7 _ _ eq_refl), (Hl 8 _ _ eq_refl), (Hl 9 _ _ eq_refl), (Hl 10 _ _ eq_refl), (Hl 11 _ _ eq_refl),
    (Hl 12 _ _ eq_refl), (Hl 13 _ _ eq_refl), (Hl 14 _ _ eq_refl).
  cbn [required_value ok_or rbind]. rewrite (non_empty_default _ Hv), (non_empty_default _ Hu), (non_empty_default _ Hr). by destruct m.
Qed.

(** ** What was read can be written *)

Lemma drop_ws_suffix w2 w3 s : exists p, s = p +:+ drop_ws w2 w3 s.
Proof.
  remember (String.length s) as n eqn:Hn. revert s Hn.
  induction n as [n IH] using lt_wf_ind. intros s ->. destruct s as [|c s1]; [by exists ""|]. cbn [drop_ws].
  assert (forall p s', String c s1 = p +:+ s' -> String.length s' < String.length (String c s1) ->
    exists q, String c s1 = q +:+ drop_ws w2 w3 s') as Hrec.
  { intros p s' E Hlt. destruct (IH _ Hlt s' eq_refl) as [q Hq]. exists (p +:+ q). by rewrite append_assoc, <- Hq. }
  destruct (ws1 c); [apply (Hrec (String c "")); [reflexivity|cbn; lia]|]. destruct s1 as [|d s2]; [by exists ""|].
  destruct (w2 c d); [apply (Hrec (String c (String d ""))); [reflexivity|cbn; lia]|]. destruct s2 as [|e s3]; [by exists ""|].
  destruct (w3 c d e); [|by exists ""]. apply (Hrec (String c (String d (String e "")))); [reflexivity|cbn; lia].
Qed.
Lemma trim_one_line s : one_line s -> one_line (trim s).
Proof.
  intros Hs. unfold trim, trim_end, trim_start, one_line in *. destruct (drop_ws_suffix ws2 ws3 s) as [p Hp].
  rewrite Hp, contains_char_app, orb_false_iff in Hs. destruct Hs as [_ Hs]. rewrite <- contains_char_rev in Hs.
  destruct (drop_ws_suffix (fun c d => ws2 d c) (fun c d e => ws3 e d c) (rev_str (drop_ws ws2 ws3 s))) as [q Hq].
  rewrite Hq, contains_char_app, orb_false_iff in Hs. rewrite contains_char_rev. by destruct Hs.
Qed.
Lemma replace_str_one_line pat by_ skip s : one_line by_ -> one_line s -> one_line (replace_str pat by_ skip s).
Proof.
  unfold one_line. intros Hb. revert skip. induction s as [|c s IH]; intros skip; [done|]. intros Hs. cbn [replace_str].
  assert (contains_char "010" s = false) as Ht by (cbn [contains_char] in Hs; by destruct (ascii_dec "010" c)).
  destruct skip as [|skip]; [|by apply IH]. destruct (starts_with _ _).
  - by rewrite contains_char_app, Hb, IH.
  - cbn [contains_char] in *. destruct (ascii_dec "010" c); [done|]. by apply IH.
Qed.
Lemma parse_value_one_line raw v : one_line raw -> parse_shell_value raw = Ok v -> one_line v.
Proof.
  intros Hr%trim_one_line. unfold parse_shell_value. destruct (strip_prefix _ _) as [rest|] eqn:Ep.
  - apply strip_prefix_Some in Ep. destruct (strip_suffix _ _) as [inner|] eqn:Es.
    + apply strip_suffix_Some in Es. intros [=<-]. subst. rewrite Ep, !one_line_app in Hr. destruct Hr as (_ & Hr & _). by apply replace_str_one_line.
    + case_match; congruence.
  - case_match; congruence.
Qed.
Lemma lines_one_line raw : Forall one_line (lines raw).
Proof.
  unfold lines. assert (Forall one_line (split "010" raw)) as Hs by (apply Forall_forall; intros p; apply split_no_sep).
  induction Hs as [|p l Hp _ IH]; [constructor|]. cbn [lines_of].
  assert (one_line (strip_cr_end p)) as Hc.
  { unfold strip_cr_end. destruct (strip_suffix _ _) as [r|] eqn:E; [|done]. apply strip_suffix_Some in E. subst. by apply one_line_app in Hp as [? _]. }
  destruct l as [|q l]; [destruct p; repeat constructor; done|by constructor].
Qed.

(** The values read so far are single lines. *)
Definition pm_one_line (pm : PartialManifest) : Prop := map_Forall (fun _ v => one_line v) (pm_text pm).
Lemma assign_one_line key v pm pm' : one_line v -> pm_one_line pm -> assign key v pm = Ok pm' -> pm_one_line pm'.
Proof.
  intros Hv Hp. unfold assign. case_bool_decide.
  { intros [=<-]. by apply map_Forall_insert_2. }
  repeat case_match; unfold rbind; repeat case_match; naive_solver.
Qed.
Lemma split_once_Some c s a b : split_once c s = Some (a, b) -> s = a +:+ String c b.
Proof.
  revert a b. induction s as [|d s IH]; intros a b; [done|]. cbn [split_once]. destruct (ascii_dec c d) as [->|].
  - by intros [=<- <-].
  - destruct (split_once c s) as [[x y]|]; [|done]. intros [=<- <-]. by rewrite (IH x y eq_refl).
Qed.
Lemma manifest_line_one_line path pm line pm' :
  one_line line -> pm_one_line pm -> manifest_line path pm line = Ok pm' -> pm_one_line pm'.
Proof.
  intros Hl%trim_one_line Hp. unfold manifest_line. destruct (_ || _); [by intros [=<-]|].
  destruct (split_once _ _) as [[key raw]|] eqn:Es; [|done]. apply split_once_Some in Es. rewrite Es in Hl.
  change (String "=" raw) with ("=" +:+ raw) in Hl. apply one_line_app in Hl as [_ Hl]. apply one_line_app in Hl as [_ Hl].
  destruct (parse_shell_value raw) as [v|] eqn:Ev; [|done]. apply parse_value_one_line in Ev; [|done]. by apply assign_one_line.
Qed.
Lemma fold_one_line path l pm pm' : Forall one_line l -> pm_one_line pm -> try_fold (manifest_line path) pm l = Ok pm' -> pm_one_line pm'.
Proof.
  intros Hl. revert pm. induction Hl as [|x l Hx _ IH]; intros pm Hp; [by intros [=<-]|]. cbn [try_fold].
  destruct (manifest_line path pm x) as [pm1|] eqn:E; [|done]. cbn [rbind]. apply IH. by eapply manifest_line_one_line.
Qed.
Lemma required_lookup pm key path v : pm_one_line pm -> required_value (pm_text pm !! key) key path = Ok v -> one_line v.
Proof. intros Hp. unfold required_value. destruct (pm_text pm !! key) eqn:E; [|done]. intros [=<-]. exact (Hp _ _ E). Qed.
Lemma optional_lookup pm key v :
  pm_one_line pm -> match pm_text pm !! key with Some x => non_empty x | None => None end = Some v -> one_line v /\ v <> "".
Proof.
  intros Hp. destruct (pm_text pm !! key) as [x|] eqn:E; [|done]. unfold non_empty. destruct (is_empty x) eqn:Ee; [done|].
  intros [=<-]. split; [exact (Hp _ _ E)|]. by intros ->.
Qed.
(** What is read from any manifest can be written and read back. *)
Lemma parsed_manifest_ok path raw m : parse_manifest path raw = Ok m -> manifest_ok m.
Proof.
  unfold parse_manifest. destruct (try_fold _ _ _) as [pm|] eqn:Ef; [|done]. cbn [rbind].
  apply fold_one_line in Ef; [|apply lines_one_line|apply map_Forall_empty]. unfold finish_manifest.
  repeat (match goal with |- rbind ?x _ = _ -> _ => destruct x eqn:?; [cbn [rbind]|done] end). intros [=<-].
  repeat match goal with H : required_value (pm_text pm !! _) _ _ = Ok _ |- _ => apply (required_lookup _ _ _ _ Ef) in H end.
  split; cbn [im_source_kind im_bin_dir im_assets_dir im_config_path im_data_dir im_socket_path im_installer_path im_ployz_path
    im_ployzd_path im_gateway_path im_dns_path im_corrosion_path im_source_version im_source_git_url im_source_git_ref].
  - by repeat constructor.
  - repeat constructor; intros; by eapply optional_lookup.
Qed.

(** ** Binaries of the system *)

Lemma wp_on_fs {A} (c : io A) (Q : result string A -> InstallState -> list (string * list string) -> Prop) s log :
  Q (c (is_fs s)).1 {| is_fs := (c (is_fs s)).2; is_exec := is_exec s |} log -> wp (on_fs c) Q s log.
Proof. unfold wp, on_fs. by destruct (c (is_fs s)) as [r fs]. Qed.

Abbreviation files s := (fs_files (is_fs s)) (only parsing).

Lemma copy_content_spec src dest fs : src <> dest ->
  only_file dest fs (copy_content src dest fs).2 /\
  ((copy_content src dest fs).1 = Ok tt ->
   exists c, fs_files fs !! src = Some c /\ fs_files (copy_content src dest fs).2 !! dest = Some c).
Proof.
  intros Hne. unfold copy_content, operation, only_file.
  repeat case_match; try done; (split; [intros q Hq|intros [=]]); cbn in *; rewrite ?lookup_insert_ne, ?lookup_insert_eq by done; eauto.
Qed.
Lemma mode_of_other src dest p exec : p <> dest -> p ∈ mode_of src dest exec <-> p ∈ exec.
Proof. intros Hp. unfold mode_of. case_decide; set_solver. Qed.
Lemma rename_content_spec from to fs : from <> to ->
  match (rename_content from to fs).1 with
  | Ok _ => exists c, fs_files fs !! from = Some c /\ fs_files (rename_content from to fs).2 = <[to := c]> (delete from (fs_files fs))
  | Err _ => fs_files (rename_content from to fs).2 = fs_files fs
  end.
Proof. intros Hne. unfold rename_content, operation. repeat case_match; simplify_eq/=; eauto. Qed.
Lemma metadata_files p fs : fs_files (metadata p fs).2 = fs_files fs.
Proof. unfold metadata, operation. repeat case_match; done. Qed.

(** Copying touches the destination only. *)
Lemma copy_spec src dest s log : src <> dest ->
  wp (copy src dest) (fun r s' log' => log' = log /\
    (forall p, p <> dest -> files s' !! p = files s !! p /\ (p ∈ is_exec s' <-> p ∈ is_exec s)) /\
    (r = Ok tt -> exists c, files s !! src = Some c /\ files s' !! dest = Some c)) s log.
Proof.
  intros Hne. unfold copy, edit_exec. do 4 wp_step. apply wp_on_fs. destruct (copy_content_spec src dest (is_fs s) Hne) as [Ho Hok].
  destruct (copy_content src dest (is_fs s)) as [[[]|e] fs] eqn:E; cbn [fst snd] in *; wp_steps; (split; [done|]);
    (split; [intros p Hp; split; [by apply Ho|cbn [is_exec]; first [done|by apply mode_of_other]]|done]).
Qed.
Lemma set_executable_spec p s log :
  wp (set_executable p) (fun r s' log' => log' = log /\ files s' = files s /\
    (forall q, q <> p -> q ∈ is_exec s' <-> q ∈ is_exec s) /\ (r = Ok tt -> p ∈ is_exec s')) s log.
Proof.
  unfold set_executable, edit_exec. do 2 wp_step. apply wp_on_fs. pose proof (metadata_files p (is_fs s)) as H1.
  destruct (metadata p (is_fs s)) as [[[]|e] fs1]; cbn [fst snd map_err] in *; [|by split_and!].
  do 2 wp_step. apply wp_on_fs. cbn [is_fs]. pose proof (metadata_files p fs1) as H2.
  destruct (metadata p fs1) as [[[]|e] fs2]; cbn [fst snd map_err] in *.
  - wp_steps. cbn. rewrite H2, H1. split_and!; [done|done|set_solver|set_solver].
  - split_and!; [done|by cbn; rewrite H2, H1|done|done].
Qed.

Definition dest_of (file_name : string) : PathBuf := path_join system_bin_dir file_name.
(** The file and the mode it is meant to have. *)
Definition promoted (s s' : InstallState) (c : PathBuf * string) : Prop :=
  is_Some (files s !! c.1) /\ files s' !! dest_of c.2 = files s !! c.1 /\ dest_of c.2 ∈ is_exec s'.

(** One binary is replaced as a whole or not at all. *)
Lemma promote_one_spec env src name s log : src <> temp_dest env name -> dest_of name <> temp_dest env name ->
  wp (promote_one env (src, name)) (fun r s' log' => log' = log /\
    (forall p, p <> dest_of name -> p <> temp_dest env name ->
       files s' !! p = files s !! p /\ (p ∈ is_exec s' <-> p ∈ is_exec s)) /\
    match r with
    | Ok _ => promoted s s' (src, name) /\ files s' !! temp_dest env name = None
    | Err _ => files s' !! dest_of name = files s !! dest_of name
    end) s log.
Proof.
  intros Hs Hd. unfold promote_one, promoted. fold (dest_of name). cbn [fst snd]. set (temp := temp_dest env name) in *.
  set (dest := dest_of name) in *. do 2 wp_step. eapply wp_mono; [by apply copy_spec|]. intros [[]|e] s1 log1 (-> & Ho1 & Hc); cbn [map_err].
  2:{ split_and!; [done|by intros; apply Ho1|]. by apply Ho1. }
  destruct (Hc eq_refl) as (c & Hsrc & Htemp). clear Hc. wp_step. eapply wp_mono; [apply set_executable_spec|].
  intros [[]|e] s2 log2 (-> & Hf2 & Hx2 & Hexec); rewrite ?Hf2.
  2:{ split_and!; [done|intros p Hp Hp'; rewrite Hx2 by done; by apply Ho1|]. by apply Ho1. }
  specialize (Hexec eq_refl). do 2 wp_step. unfold rename, edit_exec. wp_step. apply wp_on_fs.
  pose proof (rename_content_spec temp dest (is_fs s2) (not_eq_sym Hd)) as Hr. rewrite Hf2, Htemp in Hr.
  destruct (rename_content temp dest (is_fs s2)) as [[[]|e] fs3]; cbn [fst snd] in *.
  - wp_steps. destruct Hr as (c' & [=<-] & Hf3). cbn. rewrite Hf3, Hsrc. split_and!; [done| |by eexists| | |].
    + intros p Hp Hp'. rewrite lookup_insert_ne, lookup_delete_ne by done. split; [by apply Ho1|].
      rewrite decide_False by done. rewrite elem_of_difference, mode_of_other, Hx2 by done. rewrite (proj2 (Ho1 p Hp')). set_solver.
    + by rewrite lookup_insert_eq.
    + rewrite decide_False by done. unfold mode_of. rewrite decide_True by done. set_solver.
    + rewrite lookup_insert_ne by done. by rewrite lookup_delete_eq.
  - unfold remove, edit_exec. do 3 wp_step. apply wp_on_fs. cbn [is_fs is_exec]. pose proof (remove_file_only temp fs3) as Ho4.
    assert (forall p, p <> temp -> fs_files (remove_file temp fs3).2 !! p = files s !! p) as Hrest.
    { intros p Hp. rewrite Ho4, Hr by done. by apply Ho1. }
    destruct (remove_file temp fs3) as [[[]|e'] fs4]; cbn [fst snd] in *; wp_steps; cbn;
      (split_and!; [done| |by apply Hrest]); intros p Hp Hp'; (split; [by apply Hrest|]); rewrite <- (proj2 (Ho1 p Hp')), <- (Hx2 p Hp');
      set_solver.
Qed.

(** No source is a temporary file, or the place of another binary. *)
Definition sources_apart (env : InstallEnv) (m : InstallManifest) : Prop :=
  Forall (fun c => Forall (fun c' => c.1 <> temp_dest env c'.2 /\ (c.1 = dest_of c'.2 -> c.2 = c'.2)) (copies m)) (copies m).

Lemma copy_name m c : c ∈ copies m -> c.2 ∈ ["ployz.sh"; "ployz"; "ployzd"; "ployz-gateway"; "ployz-dns"; "corrosion"].
Proof. intros Hc. apply (list_elem_of_fmap_2 snd) in Hc. exact Hc. Qed.
Lemma dest_apart env m c c' : c ∈ copies m -> c' ∈ copies m -> dest_of c.2 <> temp_dest env c'.2.
Proof.
  intros Hc%copy_name _. unfold temp_dest. repeat (apply elem_of_cons in Hc as [->|Hc]); [..|by apply elem_of_nil in Hc]; done.
Qed.
Lemma dest_of_inj m c c' : c ∈ copies m -> c' ∈ copies m -> dest_of c.2 = dest_of c'.2 -> c.2 = c'.2.
Proof.
  intros Hc%copy_name Hc'%copy_name. repeat (apply elem_of_cons in Hc as [->|Hc]); [..|by apply elem_of_nil in Hc];
    (repeat (apply elem_of_cons in Hc' as [->|Hc']); [..|by apply elem_of_nil in Hc']); done.
Qed.
Lemma temp_dest_inj env m c c' : c ∈ copies m -> c' ∈ copies m -> temp_dest env c.2 = temp_dest env c'.2 -> c.2 = c'.2.
Proof.
  intros Hc%copy_name Hc'%copy_name. unfold temp_dest.
  repeat (apply elem_of_cons in Hc as [->|Hc]); [..|by apply elem_of_nil in Hc];
    (repeat (apply elem_of_cons in Hc' as [->|Hc']); [..|by apply elem_of_nil in Hc']); done.
Qed.
Lemma copies_names_nodup m : NoDup (copies m).*2.
Proof. apply (bool_decide_unpack _). vm_compute. reflexivity. Qed.

(** Outside the binaries [l] nothing changed. *)
Definition only_binaries (env : InstallEnv) (l : list (PathBuf * string)) (s s' : InstallState) : Prop :=
  forall p, Forall (fun c => p <> dest_of c.2 /\ p <> temp_dest env c.2) l ->
    files s' !! p = files s !! p /\ (p ∈ is_exec s' <-> p ∈ is_exec s).
Definition promoted_all (env : InstallEnv) (l : list (PathBuf * string)) (s s' : InstallState) : Prop :=
  Forall (fun c => promoted s s' c /\ files s' !! temp_dest env c.2 = None) l.

Lemma copies_split m done x rest : copies m = (done ++ x :: rest)%list ->
  (forall c, c ∈ done -> c ∈ copies m /\ c.2 <> x.2) /\ x ∈ copies m.
Proof.
  intros E. pose proof (copies_names_nodup m) as Hnd. rewrite E in *. rewrite fmap_app, fmap_cons in Hnd.
  apply NoDup_app in Hnd as (_ & Hno & _). split; [|set_solver]. intros c Hc. split; [set_solver|]. intros Heq.
  apply (Hno c.2); [by apply list_elem_of_fmap_2|]. rewrite Heq. by left.
Qed.

(** The promotion of one more binary. *)
Lemma promote_step env m dn x rest s s1 s2 : sources_apart env m -> copies m = (dn ++ x :: rest)%list ->
  only_binaries env dn s s1 ->
  (forall p, p <> dest_of x.2 -> p <> temp_dest env x.2 -> files s2 !! p = files s1 !! p /\ (p ∈ is_exec s2 <-> p ∈ is_exec s1)) ->
  only_binaries env (dn ++ [x]) s s2 /\
  (promoted_all env dn s s1 -> promoted_all env dn s s2) /\
  (promoted s1 s2 x -> promoted s s2 x) /\
  (files s2 !! dest_of x.2 = files s1 !! dest_of x.2 -> files s2 !! dest_of x.2 = files s !! dest_of x.2).
Proof.
  intros Hsrc E Ho Hx. destruct (copies_split _ _ _ _ E) as [Hdn Hin].
  assert (Forall (fun c => x.1 <> dest_of c.2 /\ x.1 <> temp_dest env c.2) dn) as Hs.
  { apply Forall_forall. intros c Hc. destruct (Hdn c Hc) as [Hc' Hne]. unfold sources_apart in Hsrc. rewrite Forall_forall in Hsrc.
    specialize (Hsrc x Hin). rewrite Forall_forall in Hsrc. destruct (Hsrc c Hc') as [Ht Hd]. split; [|done]. intros He. by apply Hne, eq_sym, Hd. }
  assert (Forall (fun c => dest_of x.2 <> dest_of c.2 /\ dest_of x.2 <> temp_dest env c.2) dn) as Hd.
  { apply Forall_forall. intros c Hc. destruct (Hdn c Hc) as [Hc' Hne]. split; [|by apply (dest_apart env m)].
    intros He. apply Hne. symmetry. by apply (dest_of_inj m). }
  split_and!.
  - intros p [Hp Hpx]%Forall_app. rewrite Forall_singleton in Hpx. destruct Hpx as [Hpd Hpt].
    destruct (Hx p Hpd Hpt) as [-> ->]. by apply Ho.
  - intros Hall. apply Forall_forall. intros c Hc. destruct (Hdn c Hc) as [Hc' Hne]. unfold promoted_all in Hall. rewrite Forall_forall in Hall.
    destruct (Hall c Hc) as [(H1 & H2 & H3) H4].
    assert (dest_of c.2 <> dest_of x.2) as Hne1 by (intros He; apply Hne; by apply (dest_of_inj m)).
    assert (temp_dest env c.2 <> temp_dest env x.2) as Hne2 by (intros He; apply Hne; by apply (temp_dest_inj env m)).
    destruct (Hx (dest_of c.2) Hne1) as [Hf Hm]; [by apply (dest_apart env m)|].
    destruct (Hx (temp_dest env c.2)) as [Hf' _]; [apply not_eq_sym; by apply (dest_apart env m)|done|].
    unfold promoted. by rewrite Hf, Hm, Hf'.
  - intros (H1 & H2 & H3). destruct (Ho _ Hs) as [Hfs _]. unfold promoted. by rewrite <- Hfs.
  - intros ->. by apply Ho.
Qed.

Definition binaries_whole (m : InstallManifest) (s s' : InstallState) : Prop :=
  Forall (fun c => promoted s s' c \/ files s' !! dest_of c.2 = files s !! dest_of c.2) (copies m).
Lemma promote_failed env m dn x rest s s2 : sources_apart env m -> copies m = (dn ++ x :: rest)%list ->
  only_binaries env (dn ++ [x]) s s2 -> promoted_all env dn s s2 -> files s2 !! dest_of x.2 = files s !! dest_of x.2 ->
  only_binaries env (copies m) s s2 /\ binaries_whole m s s2.
Proof.
  intros Hsrc E Ho Hall Hx. split.
  - intros p Hp. apply Ho. rewrite E in Hp. apply Forall_app in Hp as [Hp1 [Hp2 _]%Forall_cons]. apply Forall_app. split; [done|by constructor].
  - unfold binaries_whole. rewrite E. apply Forall_app. split; [|constructor; [by right|]].
    + eapply Forall_impl; [exact Hall|]. intros c [Hc _]. by left.
    + apply Forall_forall. intros c Hc. right. apply Ho. apply Forall_forall. intros c' Hc'.
      assert (c ∈ copies m) as Hcm by (rewrite E; set_solver). assert (c' ∈ copies m) as Hcm' by (rewrite E; set_solver).
      split; [|by apply (dest_apart env m)]. intros He. apply (dest_of_inj m) in He; [|done|done].
      pose proof (copies_names_nodup m) as Hnd. rewrite E in Hnd.
      replace (dn ++ x :: rest)%list with ((dn ++ [x]) ++ rest)%list in Hnd by by rewrite <- app_assoc.
      rewrite fmap_app in Hnd. apply NoDup_app in Hnd as (_ & Hno & _). apply (Hno c'.2); [by apply list_elem_of_fmap_2|].
      rewrite <- He. by apply list_elem_of_fmap_2.
Qed.

Lemma promote_loop env m s log : sources_apart env m ->
  wp (mfor (copies m) (promote_one env)) (fun r s' log' => log' = log /\ only_binaries env (copies m) s s' /\ binaries_whole m s s' /\
    (r = Ok tt -> promoted_all env (copies m) s s')) s log.
Proof.
  intros Hsrc. apply (wp_for (fun dn s1 log1 => log1 = log /\ only_binaries env dn s s1 /\ promoted_all env dn s s1)).
  - split_and!; [done|done|constructor].
  - intros dn [src name] rest s1 log1 E (-> & Ho & Hall). destruct (copies_split _ _ _ _ E) as [Hdn Hin].
    unfold sources_apart in Hsrc. pose proof Hsrc as Hs. rewrite Forall_forall in Hs. specialize (Hs _ Hin). rewrite Forall_forall in Hs.
    eapply wp_mono; [apply promote_one_spec|].
    + by apply (Hs _ Hin).
    + by apply (dest_apart env m (src, name) (src, name)).
    + intros r s2 log2 (-> & Hx & Hr). destruct (promote_step env m dn (src, name) rest s s1 s2 Hsrc E Ho Hx) as (Ho2 & Hall2 & Hp & Hd).
      destruct r as [[]|e].
      * destruct Hr as [Hr Ht]. split_and!; [done|done|]. apply Forall_app. split; [by apply Hall2|]. apply Forall_singleton. by split; [apply Hp|].
      * destruct (promote_failed env m dn (src, name) rest s s2 Hsrc E Ho2 (Hall2 Hall) (Hd Hr)) as [H1 H2]. by split_and!.
  - intros s1 log1 (-> & Ho & Hall). split_and!; [done|done| |done]. eapply Forall_impl; [exact Hall|]. intros c [Hc _]. by left.
Qed.

(** C28: promoting the binaries of a release runs no command and touches nothing
    but the six binaries under [/usr/local/bin] and their temporary files.
    Whatever fails, and after however many of them, each binary is the one that
    was there before or the complete new one with its executable mode, never a
    part of it; after a success all six are new and no temporary file is left. *)
Theorem promote_atomic env m s log : sources_apart env m ->
  let '(r, (s', log')) := promote_system_binaries env m (s, log) in
  log' = log /\ only_binaries env (copies m) s s' /\ binaries_whole m s s' /\
  (r = Ok tt -> promoted_all env (copies m) s s').
Proof.
  intros Hs. change (wp (promote_system_binaries env m) (fun r s' log' => log' = log /\ only_binaries env (copies m) s s' /\
    binaries_whole m s s' /\ (r = Ok tt -> promoted_all env (copies m) s s')) s log).
  unfold promote_system_binaries. do 2 wp_step. apply wp_on_fs. pose proof (create_dir_all_files system_bin_dir (is_fs s)) as Hf.
  destruct (create_dir_all system_bin_dir (is_fs s)) as [[[]|e] fs]; cbn [fst snd map_err] in *.
  - eapply wp_mono; [by apply promote_loop|]. unfold only_binaries, binaries_whole, promoted_all, promoted. cbn [is_fs is_exec]. by rewrite Hf.
  - split_and!; [done| |apply Forall_true; intros c; right|done]; unfold only_binaries; cbn; by rewrite Hf.
Qed.

(** ** An installation *)

Lemma run_command_spec env program args s log :
  wp (run_command env program args) (fun r s' log' => s' = s /\ log' = (log ++ [(program, args)])%list) s log.
Proof. unfold run_command. wp_steps; done. Qed.
Lemma store_to_path_ok m path fs : (store_to_path m path fs).1 = Ok tt -> fs_files (store_to_path m path fs).2 !! path = Some (manifest_content m).
Proof.
  unfold store_to_path. destruct (path_parent path) as [parent|]; [|done]. unfold io_bind, io_map_err at 1 3.
  destruct (create_dir_all parent fs) as [[[]|e] fs1]; cbn [fst snd map_err]; [|done]. unfold io_map_err. cbn [fst snd].
  intros Hw. apply write_file_ok. by destruct (write_file path (manifest_content m) fs1) as [[[]|e] fs2].
Qed.
Lemma store_to_path_only m path fs : only_file path fs (store_to_path m path fs).2.
Proof.
  unfold store_to_path. destruct (path_parent path) as [parent|]; [|done]. unfold io_bind, io_map_err at 1.
  pose proof (create_dir_all_files parent fs) as Hf. intros q Hq. rewrite <- Hf.
  destruct (create_dir_all parent fs) as [[[]|e] fs1]; cbn [fst snd map_err]; [|done]. by apply write_file_only.
Qed.
Lemma load_from_path_spec path fs :
  fs_files (load_from_path path fs).2 = fs_files fs /\
  forall m, (load_from_path path fs).1 = Ok m -> exists raw, fs_files fs !! path = Some raw /\ parse_manifest path raw = Ok m.
Proof.
  unfold load_from_path, io_bind, io_map_err, io_lift. pose proof (read_file_files path fs) as Hf. pose proof (read_file_ok path fs) as Hok.
  destruct (read_file path fs) as [[raw|e] fs1]; cbn [fst snd map_err] in *; split; try done. intros m Hm. exists raw. split; [by apply Hok|done].
Qed.

Definition systemctl (args : list string) : string * list string := ("systemctl", args).
Definition expected_backend (os : Os) (mode : ServiceMode) : option ServiceBackend :=
  match mode, os with
  | ModeSystem, _ => Some SystemdSystem
  | ModeUser, Linux => Some SystemdUser
  | ModeUser, Darwin => Some LaunchAgent
  | ModeUser, OtherOs => None
  end.
(** The commands that make the service manager know and start the daemon. *)
Definition service_commands (env : InstallEnv) (mode : ServiceMode) : list (string * list string) :=
  match mode, hp_os (ie_platform env) with
  | ModeSystem, _ => [systemctl ["daemon-reload"]; systemctl ["enable"; "--now"; "ployzd.service"]]
  | ModeUser, Linux => [systemctl ["--user"; "daemon-reload"]; systemctl ["--user"; "enable"; "--now"; "ployzd.service"]]
  | ModeUser, _ =>
      let plist := path_join (path_join (default "" (hd_home_var (ie_dirs env))) "Library/LaunchAgents") "dev.ployz.ployzd.plist" in
      let domain := "gui/" +:+ dec (ie_uid env) in
      [("launchctl", ["bootout"; domain; plist]); ("launchctl", ["bootstrap"; domain; plist]);
       ("launchctl", ["kickstart"; "-k"; domain +:+ "/dev.ployz.ployzd"])]
  end.

Lemma user_service_log env ployzd data_dir socket t mode s log :
  wp (ensure_user_service env (ie_platform env) ployzd data_dir socket t mode)
    (fun r s' log' => r = Ok tt -> log' = (log ++ service_commands env ModeUser)%list) s log.
Proof.
  unfold ensure_user_service, service_commands, install_systemd_user_service, install_launch_agent, home_dir_for_current_user.
  destruct (hp_os (ie_platform env)) eqn:Eo; [| |wp_steps; done].
  - destruct (hd_home_var (ie_dirs env)) as [home|]; wp_steps; try done; cbn [ok_or] in *; simplify_eq.
    apply wp_on_fs. destruct (create_dir_all _ _) as [[[]|e] fs]; cbn [fst snd map_err]; [|done]. do 2 wp_step.
    apply wp_on_fs. destruct (write_file _ _ _) as [[[]|e] fs']; cbn [fst snd map_err]; [|done].
    wp_step. eapply wp_mono; [apply run_command_spec|]. intros [[]|e] s2 log2 [-> ->]; [|done].
    eapply wp_mono; [apply run_command_spec|]. intros r s3 log3 [-> ->] _. by rewrite <- app_assoc.
  - destruct (hd_home_var (ie_dirs env)) as [home|]; wp_steps; try done; cbn [ok_or] in *; simplify_eq.
    apply wp_on_fs. destruct (create_dir_all _ _) as [[[]|e] fs]; cbn [fst snd map_err]; [|done]. do 2 wp_step.
    apply wp_on_fs. destruct (write_file _ _ _) as [[[]|e] fs']; cbn [fst snd map_err]; [|done].
    do 2 wp_step. eapply wp_mono; [apply run_command_spec|]. intros r s2 log2 [-> ->].
    wp_step. eapply wp_mono; [apply run_command_spec|]. intros [[]|e] s3 log3 [-> ->]; [|done].
    eapply wp_mono; [apply run_command_spec|]. intros r' s4 log4 [-> ->] _. by rewrite <- !app_assoc.
Qed.

(** Putting files in place runs no command. *)
Abbreviation quiet c := (emits (fun _ => False) c) (only parsing).
Lemma quiet_log {A} (c : Inst A) s log : quiet c -> wp c (fun _ _ log' => log' = log) s log.
Proof. intros Hc. eapply wp_mono; [apply Hc|]. intros r s' log' ([|x new] & -> & Hn); [by rewrite app_nil_r|by apply Forall_cons in Hn as [[] _]]. Qed.
Lemma inst_fs_quiet {A} (c : io A) : quiet (on_fs c).
Proof. apply emits_pure. intros s log. cbn. by destruct (c (is_fs s)). Qed.
#[local] Hint Resolve inst_fs_quiet emits_map_err : core.
Lemma quiet_copy src dest : quiet (copy src dest).
Proof. unfold copy, edit_exec. repeat emits_step; auto. Qed.
Lemma quiet_promote env m : quiet (promote_system_binaries env m).
Proof.
  unfold promote_system_binaries, promote_one, set_executable, rename, remove, edit_exec. pose proof quiet_copy.
  emits_step; [auto|]. apply emits_for. intros [src name]. repeat emits_step; auto.
Qed.
Lemma quiet_client_config path data_dir socket : quiet (write_client_config path data_dir socket).
Proof. unfold write_client_config. repeat emits_step; auto. Qed.
Lemma system_service_log env assets t mode s log :
  wp (install_system_service env assets t mode) (fun r s' log' => r = Ok tt -> log' = (log ++ service_commands env ModeSystem)%list) s log.
Proof.
  unfold install_system_service. wp_step; [|done]. destruct (path_parent _); [|done]. wp_step.
  eapply wp_mono; [by apply quiet_log; auto|]. intros [[]|e] s1 log1 ->; [|done]. wp_step.
  eapply wp_mono; [apply quiet_log; pose proof quiet_copy; auto|]. intros [[]|e] s2 log2 ->; [|done]. wp_step.
  eapply wp_mono; [apply run_command_spec|]. intros [[]|e] s3 log3 [-> ->]; [|done].
  eapply wp_mono; [apply run_command_spec|]. intros r s4 log4 [-> ->] _. unfold service_commands. by rewrite <- app_assoc.
Qed.

Lemma install_service_spec env manifest paths t mode s log :
  wp (install_service env manifest paths t mode) (fun r s' log' => forall b, r = Ok b ->
    expected_backend (hp_os (ie_platform env)) mode = Some b /\ log' = (log ++ service_commands env mode)%list) s log.
Proof.
  unfold install_service. destruct mode; wp_step.
  - eapply wp_mono; [apply user_service_log|]. intros [[]|e] s1 log1 Hl; [|done]. wp_step. intros b Hb. rewrite (Hl eq_refl). split; [|done].
    unfold user_backend in Hb. unfold expected_backend. destruct (hp_os (ie_platform env)); congruence.
  - eapply wp_mono; [apply quiet_log, quiet_promote|]. intros [[]|e] s1 log1 ->; [|done]. wp_step.
    eapply wp_mono; [apply system_service_log|]. intros [[]|e] s2 log2 Hl; [|done]. wp_step. intros b [=<-]. by rewrite (Hl eq_refl).
Qed.

(** The manifest as it is recorded can be read again. *)
Lemma recorded_ok m paths t mode b : manifest_ok m ->
  one_line (cp_config_path paths) -> one_line (cp_data_dir paths) -> one_line (cp_socket_path paths) ->
  manifest_ok (recorded m paths t mode b).
Proof.
  intros [Ht Ho] Hc Hd Hs. rewrite !Forall_cons in Ht. destruct Ht as (? & ? & ? & _ & _ & _ & ? & ? & ? & ? & ? & ? & _).
  split; [|done]. cbn. by repeat constructor.
Qed.

(** What an installation that succeeded leaves behind. *)
Definition install_done (env : InstallEnv) (t : RuntimeTarget) (mode : ServiceMode) (explicit : option PathBuf) (log : list (string * list string))
    (m : InstallManifest) (s' : InstallState) (log' : list (string * list string)) : Prop :=
  exists path home text, resolve_manifest_path env t mode explicit = Ok path /\ resolve_config_target env (ie_platform env) = Ok home /\
    files s' !! path = Some text /\ parse_manifest path text = Ok m /\
    im_runtime_target m = t /\ im_service_mode m = mode /\
    is_Some (im_service_backend m) /\ im_service_backend m = expected_backend (hp_os (ie_platform env)) mode /\
    (im_config_path m, im_data_dir m, im_socket_path m) =
      (let p := client_paths env t mode home in (cp_config_path p, cp_data_dir p, cp_socket_path p)) /\
    validate_runtime t mode (ie_platform env) = Ok tt /\
    log' = (log ++ service_commands env mode)%list.

(** The paths of the client can be written in a manifest. *)
Definition client_paths_ok (env : InstallEnv) (t : RuntimeTarget) (mode : ServiceMode) : Prop :=
  forall home, resolve_config_target env (ie_platform env) = Ok home ->
    let p := client_paths env t mode home in one_line (cp_config_path p) /\ one_line (cp_data_dir p) /\ one_line (cp_socket_path p).

(** C40: an installation that succeeds was of a mode that its platform supports,
    and it ran exactly the commands that make the service manager of that
    platform know and start the daemon, in order.  The manifest it leaves,
    whatever the one it found held, reads back as the manifest it returns: the
    target, the mode, the backend, and the client's paths as they are now. *)
Theorem install_recorded env t mode explicit s log : client_paths_ok env t mode ->
  let '(r, (s', log')) := daemon_install env t mode explicit (s, log) in
  forall m, r = Ok m -> install_done env t mode explicit log m s' log'.
Proof.
  intros Hpaths. change (wp (daemon_install env t mode explicit)
    (fun r s' log' => forall m, r = Ok m -> install_done env t mode explicit log m s' log') s log).
  unfold daemon_install. wp_step. wp_step. destruct (validate_runtime t mode (ie_platform env)) as [[]|e] eqn:Hv; [|done].
  wp_step. wp_step. destruct (resolve_manifest_path env t mode explicit) as [path|e] eqn:Hp; [|done].
  wp_step. apply wp_on_fs. destruct (load_from_path_spec path (is_fs s)) as [_ Hload].
  destruct (load_from_path path (is_fs s)) as [[m0|e] fs1]; cbn [fst snd] in *; [|done].
  destruct (Hload m0 eq_refl) as (raw & _ & Hm0%parsed_manifest_ok).
  wp_step. wp_step. destruct (resolve_config_target env (ie_platform env)) as [home|e] eqn:Hh; [|done].
  destruct (Hpaths home Hh) as (Hc & Hd & Hs). wp_step.
  eapply wp_mono; [apply quiet_log; unfold validate_install_manifest; repeat emits_step|]. intros [[]|e] s2 log2 ->; [|done].
  wp_step. eapply wp_mono; [apply quiet_log, quiet_client_config|]. intros [[]|e] s3 log3 ->; [|done].
  wp_step. eapply wp_mono; [apply install_service_spec|]. intros [b|e] s4 log4 Hb; [|done]. destruct (Hb b eq_refl) as [Hbe ->].
  wp_step. apply wp_on_fs. cbv zeta. set (m := recorded m0 (client_paths env t mode home) t mode b).
  pose proof (store_to_path_ok m path (is_fs s4)) as Hst.
  destruct (store_to_path m path (is_fs s4)) as [[[]|e] fs5]; cbn [fst snd] in *; [|done].
  wp_step. intros m' [=<-]. exists path, home, (manifest_content m). rewrite (parse_manifest_content path m) by by apply recorded_ok.
  split_and!; try done; by apply Hst.
Qed.

(** The clients of a system installation use the directory and the socket that
    the daemon chooses by itself when root starts it on Linux. *)
Lemma system_paths_agree env home :
  let p := client_paths env TargetHost ModeSystem home in
  let root := {| hx_os := Linux; hx_is_root := true |} in
  cp_data_dir p = default_data_dir (ie_dirs env) root /\ cp_socket_path p = default_socket_path (ie_dirs env) root.
Proof. done. Qed.

(** The assignments of the manifest. *)
Definition manifest_assignments (m : InstallManifest) : list (string * string) :=
  (manifest_texts m ++ [("RUNTIME_TARGET", runtime_target_name (im_runtime_target m)); ("SERVICE_MODE", service_mode_name (im_service_mode m));
                        ("SERVICE_BACKEND", default "" (backend_as_str <$> im_service_backend m))])%list.
(** A line of the manifest is one word of the shell, [KEY=value]. *)
Lemma env_line_shell key value : key ∈ (text_keys ++ ["RUNTIME_TARGET"; "SERVICE_MODE"; "SERVICE_BACKEND"])%list ->
  shell_words Plain None (env_line key value) = Some [key +:+ "=" +:+ value].
Proof.
  intros Hk. replace (key +:+ "=" +:+ value) with ((key +:+ "=") +:+ value) by by rewrite append_assoc.
  change (Some [(key +:+ "=") +:+ value]) with (shell_words Plain (Some ((key +:+ "=") +:+ value)) ""). rewrite <- shell_single_quoted.
  rewrite append_empty_r.
  repeat (apply elem_of_cons in Hk as [->|Hk]); [..|by apply elem_of_nil in Hk]; reflexivity.
Qed.
Lemma manifest_shell m :
  Forall2 (fun line kv => shell_words Plain None line = Some [kv.1 +:+ "=" +:+ kv.2]) (manifest_lines m) (manifest_assignments m).
Proof.
  replace (manifest_lines m) with ((fun kv => env_line kv.1 kv.2) <$> manifest_assignments m) by reflexivity.
  apply Forall2_fmap_l, Forall_Forall2_diag, Forall_forall. intros [key v] Hin. apply env_line_shell.
  apply (list_elem_of_fmap_2 fst) in Hin. exact Hin.
Qed.

(** A manifest that was stored reads back as it is, with any apostrophes,
    blanks or equal signs in its values and with the absent ones absent; storing
    it changes no other file, and the shell that sources it reads each line as
    one word, the assignment of the value to its key. *)
Theorem manifest_roundtrip m path fs : manifest_ok m -> (store_to_path m path fs).1 = Ok tt ->
  only_file path fs (store_to_path m path fs).2 /\
  exists text, fs_files (store_to_path m path fs).2 !! path = Some text /\ parse_manifest path text = Ok m /\
    Forall2 (fun line kv => shell_words Plain None line = Some [kv.1 +:+ "=" +:+ kv.2]) (lines text) (manifest_assignments m).
Proof.
  intros Hm Hok. split; [apply store_to_path_only|]. exists (manifest_content m).
  split_and!; [by apply store_to_path_ok|by apply parse_manifest_content|].
  unfold manifest_content. rewrite unlines_join, lines_unlines by first [done|by apply manifest_lines_ok]. apply manifest_shell.
Qed.

(** ** Runs *)

Definition sample_manifest : InstallManifest := {|
  im_source_kind := "release"; im_source_version := Some "v1.2.3"; im_source_git_url := None; im_source_git_ref := None;
  im_bin_dir := "/home/u/it" +:+ apostrophe +:+ "s bin"; im_assets_dir := "/home/u/rel"; im_config_path := "/home/u/.config/ployz/config.toml";
  im_data_dir := "/home/u/data"; im_socket_path := "/tmp/ployzd.sock"; im_installer_path := "/home/u/rel/ployz.sh";
  im_ployz_path := "/home/u/rel/ployz"; im_ployzd_path := "/home/u/rel/ployzd"; im_gateway_path := "/home/u/rel/ployz-gateway";
  im_dns_path := "/home/u/rel/ployz-dns"; im_corrosion_path := "/home/u/rel/corrosion"; im_runtime_target := TargetDocker;
  im_service_mode := ModeUser; im_service_backend := None |}.
Definition sample_manifest_path : PathBuf := "/home/u/.local/share/ployz/install/manifest.env".
Definition sample_release (faults : list (option Fault)) : Fs := {|
  fs_files := list_to_map [(sample_manifest_path, manifest_content sample_manifest); ("/home/u/rel/ployz.sh", "script");
    ("/home/u/rel/ployz", "client 2"); ("/home/u/rel/ployzd", "daemon 2"); ("/home/u/rel/ployz-gateway", "gateway 2");
    ("/home/u/rel/ployz-dns", "dns 2"); ("/home/u/rel/corrosion", "agent 2"); ("/home/u/rel/systemd/ployzd.service", "[Service]");
    ("/usr/local/bin/ployzd", "daemon 1"); ("/usr/local/bin/ployz", "client 1")];
  fs_dirs := {["/usr/local/bin"; "/home/u/rel"]}; fs_faults := faults |}.
Definition sample_install (root : bool) : InstallEnv := {|
  ie_platform := {| hp_os := Linux; hp_is_root := root |};
  ie_dirs := {| hd_project := Some ("/home/u/.local/share/ployz", "/home/u/.config/ployz"); hd_base := Some ("/home/u", None); hd_temp := "/tmp";
                hd_home_var := Some (if root then "/root" else "/home/u"); hd_config_var := None;
                hd_sudo_home := Ok (if root then Some "/home/u" else None) |};
  ie_pid := 7; ie_uid := if root then 0%N else 1000%N;
  ie_command := fun _ _ => Ok {| Wireguard.po_success := true; Wireguard.po_stdout := ""; Wireguard.po_stderr := "" |} |}.
Definition sample_host (faults : list (option Fault)) : InstallState := {| is_fs := sample_release faults; is_exec := ∅ |}.

Lemma sample_manifest_ok : manifest_ok sample_manifest.
Proof. split; repeat (apply Forall_cons; split); try done; intros ? [=<-]; done. Qed.
Lemma manifest_roundtrip_witness :
  exists text, fs_files (store_to_path sample_manifest "/etc/ployz/manifest.env" (sample_release [])).2 !! "/etc/ployz/manifest.env" = Some text /\
    parse_manifest "/etc/ployz/manifest.env" text = Ok sample_manifest.
Proof.
  destruct (manifest_roundtrip sample_manifest "/etc/ployz/manifest.env" (sample_release []) sample_manifest_ok) as (_ & text & Ht & Hp & _).
  - vm_compute. reflexivity.
  - exists text. by split.
Defined.

Lemma sample_apart : sources_apart (sample_install true) sample_manifest.
Proof. apply (bool_decide_unpack _). vm_compute. reflexivity. Qed.
Lemma promote_atomic_witness :
  let '(r, (s', log')) := promote_system_binaries (sample_install true) sample_manifest (sample_host [], []) in
  r = Ok tt /\ log' = [] /\ promoted_all (sample_install true) (copies sample_manifest) (sample_host []) s'.
Proof.
  pose proof (promote_atomic (sample_install true) sample_manifest (sample_host []) [] sample_apart) as H.
  assert ((promote_system_binaries (sample_install true) sample_manifest (sample_host [], [])).1 = Ok tt) as Hr by (vm_compute; reflexivity).
  destruct (promote_system_binaries _ _ _) as [r [s' log']]. destruct H as (Hl & _ & _ & Hall). cbn [fst] in Hr. split_and!; auto.
Defined.

(** A copy that fails leaves its temporary file in the directory of the
    binaries: only a failed renaming removes it. *)
Definition disk_full : Fault := {| fault_error := "No space left on device"; fault_content := Some "dae"; fault_kept := [] |}.
Definition full_disk : list (option Fault) := (replicate 9 None ++ [Some disk_full])%list.
Example temporary_left :
  let '(r, (s', _)) := promote_system_binaries (sample_install true) sample_manifest (sample_host full_disk, []) in
  ok r = None /\ files s' !! "/usr/local/bin/.ployzd.tmp-7" = Some "dae" /\
  files s' !! "/usr/local/bin/ployzd" = Some "daemon 1" /\ files s' !! "/usr/local/bin/ployz" = Some "client 2".
Proof. vm_compute. by split_and!. Qed.

Lemma sample_paths_ok root t mode : client_paths_ok (sample_install root) t mode.
Proof. intros home Hh. destruct root, t, mode; vm_compute in Hh; injection Hh as <-; vm_compute; by split_and!. Qed.
Lemma install_recorded_witness :
  exists m s' log', daemon_install (sample_install true) TargetHost ModeSystem None (sample_host [], []) = (Ok m, (s', log')) /\
    install_done (sample_install true) TargetHost ModeSystem None [] m s' log'.
Proof.
  pose proof (install_recorded (sample_install true) TargetHost ModeSystem None (sample_host []) [] (sample_paths_ok true TargetHost ModeSystem)) as H.
  destruct (daemon_install _ _ _ _ _) as [[m|e] [s' log']] eqn:E; [|exfalso; vm_compute in E; discriminate]. exists m, s', log'. auto.
Defined.
