(* ===== verification/Workload.v ===== *)
(** * Workload instances on one machine

    [deploy/local.rs] and [runtime/probe.rs] of [ployz-runtime-backends]: the
    container a service specification turns into, starting and removing
    instances through the container engine, and the readiness loop. *)

From S2P Require Import Prelude Order Effect Text Types Addr Spec IpnetRef Ipam Container.
Local Open Scope string_scope.
Local Open Scope eff_scope.

(** ** Readiness probes ([probe.rs]) *)

Inductive Probe :=
| ProbeTcp (host : IpAddr) (port : N)
| ProbeHttp (host : IpAddr) (port : N) (path : string)
| ProbeExec (container_id : string) (command : list string).

(** The outcome of one check: a connection, a response status, or the exit code
    of a command in the container, whose API calls can fail. *)
Inductive CheckOutcome :=
| CoTcp (connected : bool)
| CoHttp (status : option N)
| CoExec (exit_code : Res (option Z)).
Definition probe_check (o : CheckOutcome) : Res bool :=
  match o with
  | CoTcp connected => Ok connected
  | CoHttp (Some status) => Ok (status =? 200)%N
  | CoHttp None => Ok false
  | CoExec r => exit_code <-? r ;; Ok (bool_decide (exit_code = Some 0%Z))
  end.

(** [check_with_timeout]: no outcome in time counts as not ready. *)
Definition check_with_timeout (o : option CheckOutcome) : Res bool :=
  match o with Some o => probe_check o | None => Ok false end.

Section wait_ready.
(** The outcome of each attempt, the clock after it, and the configuration. *)
Context (outcome : nat -> option CheckOutcome) (now : nat -> Instant) (start_deadline : Instant) (retries : N).

Definition not_ready : Error :=
  Operation "wait_ready" "probe did not become ready before retries were exhausted".

(** The second loop; the result comes with the number of attempts made. *)
Fixpoint retry_loop (fuel : nat) (failures : N) (i : nat) : option (Res unit * nat) :=
  match fuel with
  | O => None
  | S fuel =>
      match check_with_timeout (outcome i) with
      | Err e => Some (Err e, S i)
      | Ok true => Some (Ok tt, S i)
      | Ok false =>
          let failures := (failures + 1)%N in
          if (retries <=? failures)%N then Some (Err not_ready, S i)
          else retry_loop fuel failures (S i)
      end
  end.

(** The first loop, until the start period is over; then the second. *)
Fixpoint start_loop (fuel : nat) (i : nat) : option (Res unit * nat) :=
  match fuel with
  | O => None
  | S fuel =>
      match check_with_timeout (outcome i) with
      | Err e => Some (Err e, S i)
      | Ok true => Some (Ok tt, S i)
      | Ok false => if (start_deadline <=? now i)%N then retry_loop fuel 0 (S i) else start_loop fuel (S i)
      end
  end.
Definition probe_wait_ready (fuel : nat) : option (Res unit * nat) := start_loop fuel 0.

(** The first attempt among [n], counted from [i], that settles the question. *)
Fixpoint first_answer (n i : nat) : Res unit * nat :=
  match n with
  | O => (Err not_ready, i)
  | S n => match check_with_timeout (outcome i) with
           | Err e => (Err e, S i)
           | Ok true => (Ok tt, S i)
           | Ok false => first_answer n (S i)
           end
  end.

Lemma retry_loop_spec fuel failures i n :
  (failures + N.of_nat n = N.max 1 retries)%N -> (0 < n)%nat -> n <= fuel ->
  (failures < N.max 1 retries)%N ->
  retry_loop fuel failures i = Some (first_answer n i).
Proof.
  revert failures i n. induction fuel as [|fuel IH]; intros failures i n Hn Hpos Hf Hlt; [lia|].
  destruct n as [|n]; [lia|]. simpl.
  destruct (check_with_timeout (outcome i)) as [[]|e]; try done.
  destruct (N.leb_spec retries (failures + 1)) as [Hle|Hgt].
  - assert (n = 0) as -> by lia. done.
  - apply IH; lia.
Qed.

Lemma start_loop_spec fuel i k :
  (forall j, i <= j < i + k -> (now j < start_deadline)%N) -> (start_deadline <= now (i + k))%N ->
  S k + N.to_nat (N.max 1 retries) <= fuel ->
  start_loop fuel i = Some (first_answer (S k + N.to_nat (N.max 1 retries)) i).
Proof.
  revert i k. induction fuel as [|fuel IH]; intros i k Hb Hd Hf; [lia|]. simpl.
  destruct (check_with_timeout (outcome i)) as [[]|e]; try done.
  destruct k as [|k].
  - rewrite Nat.add_0_r in Hd. apply N.leb_le in Hd as ->. apply retry_loop_spec; lia.
  - destruct (N.leb_spec start_deadline (now i)) as [Hle|_]; [specialize (Hb i); lia|].
    rewrite IH with (k := k); [done| |by rewrite Nat.add_succ_comm|lia]. intros j Hj. apply Hb. lia.
Qed.
End wait_ready.

(** C38: Waiting for readiness terminates and is exact.  Let [k] be the number of
    attempts that fall into the start period.  The wait makes at most
    [k + 1 + max(1, retries)] attempts; its answer is that of the first attempt
    that succeeds or cannot be carried out, and it gives up only after all of
    them found the instance not ready. *)
Theorem wait_ready_exact (outcome : nat -> option CheckOutcome) (now : nat -> Instant) (start_deadline : Instant)
    (retries : N) (k fuel : nat) :
  (forall j, j < k -> (now j < start_deadline)%N) -> (start_deadline <= now k)%N ->
  let n := S k + N.to_nat (N.max 1 retries) in
  n <= fuel ->
  exists r m, probe_wait_ready outcome now start_deadline retries fuel = Some (r, m) /\ m <= n /\
    (forall j, S j < m -> check_with_timeout (outcome j) = Ok false) /\
    match r with
    | Ok _ => exists j, m = S j /\ check_with_timeout (outcome j) = Ok true
    | Err e => (exists j, m = S j /\ check_with_timeout (outcome j) = Err e) \/
               (e = not_ready /\ m = n /\ forall j, j < n -> check_with_timeout (outcome j) = Ok false)
    end.
Proof.
  intros Hb Hd n Hf. unfold probe_wait_ready.
  rewrite start_loop_spec with (k := k); [|intros j Hj; apply Hb; lia|done|done]. fold n.
  destruct (first_answer outcome n 0) as [r m] eqn:E. exists r, m. split; [done|].
  assert (forall c i r m, first_answer outcome c i = (r, m) ->
    (i <= m <= i + c) /\ (forall j, i <= j -> S j < m -> check_with_timeout (outcome j) = Ok false) /\
    match r with
    | Ok _ => exists j, m = S j /\ check_with_timeout (outcome j) = Ok true
    | Err e => (exists j, m = S j /\ check_with_timeout (outcome j) = Err e) \/
               (e = not_ready /\ m = i + c /\ forall j, i <= j < i + c -> check_with_timeout (outcome j) = Ok false)
    end) as Hfa.
  { clear. induction c as [|c IH]; intros i r m; simpl.
    - intros [= <- <-]. split_and!; [lia..|intros; lia|]. right. split_and!; [done|lia|intros; lia].
    - destruct (check_with_timeout (outcome i)) as [[]|e] eqn:Hc.
      + intros [= <- <-]. split_and!; [lia..|intros; lia|]. eauto.
      + intros (Hm & Hj & Hr)%IH.
        assert (forall P : nat -> Prop, P i -> (forall j, S i <= j -> P j) -> forall j, i <= j -> P j) as Hsplit.
        { intros P Hi HS j Hj'. destruct (decide (j = i)) as [->|]; [done|]. apply HS. lia. }
        split_and!; [lia..| |].
        * apply (Hsplit (fun j => S j < m -> _)); [done|]. auto.
        * destruct r; [done|]. destruct Hr as [?|(-> & -> & Ha)]; [by left|]. right. split_and!; [done|lia|].
          intros j [H1 H2]. revert j H1 H2. apply (Hsplit (fun j => j < _ -> _)); [done|]. intros j ? ?. apply Ha. lia.
      + intros [= <- <-]. split_and!; [lia..|intros; lia|]. left. eauto. }
  destruct (Hfa _ _ _ _ E) as (Hm & Hj & Hr). simpl in *. split_and!; [lia| |].
  - intros j. apply Hj. lia.
  - destruct r; [done|]. destruct Hr as [?|(-> & -> & Ha)]; [by left|]. right. split_and!; [done..|].
    intros j Hj'. apply Ha. lia.
Qed.

Lemma wait_ready_exact_witness :
  exists r m, probe_wait_ready (fun i => Some (CoHttp (Some (if Nat.ltb i 3 then 503 else 200)%N)))
                (fun i => N.of_nat i) 2 3 9 = Some (r, m) /\ m <= 6.
Proof.
  destruct (wait_ready_exact (fun i => Some (CoHttp (Some (if Nat.ltb i 3 then 503 else 200)%N)))
              (fun i => N.of_nat i) 2 3 2 9 ltac:(intros; cbv beta; lia) ltac:(vm_compute; done)
              ltac:(vm_compute; lia)) as (r & m & E & Hm & _).
  exists r, m. split; [exact E|exact Hm].
Defined.

(** ** From a service to a container ([local.rs]) *)

(** Iteration over a [BTreeMap] of strings, in the order of the keys. *)
Definition btree_iter (m : gmap string string) : list (string * string) := sort_by pair_cmp (map_to_list m).

Definition STOP_GRACE_PERIOD : Duration := from_secs 10.

Record ManagedInstance := {
  mi_instance_id : InstanceId; mi_service : string; mi_slot_id : SlotId; mi_machine_id : MachineId;
  mi_revision_hash : string; mi_deploy_id : DeployId; mi_docker_container_id : string;
  mi_ip_address : option IpAddr; mi_backend_ports : gmap string N
}.

Definition to_status_record (self : ManagedInstance) (namespace : Namespace) (phase : InstancePhase) (ready : bool)
    (drain_state : DrainState) (error : option string) (started_at updated_at : N) : InstanceStatusRecord := {|
  is_instance_id := mi_instance_id self; is_namespace := namespace; is_service := mi_service self;
  is_slot_id := mi_slot_id self; is_machine_id := mi_machine_id self; is_revision_hash := mi_revision_hash self;
  is_deploy_id := mi_deploy_id self; is_docker_container_id := mi_docker_container_id self;
  is_overlay_ip := match mi_ip_address self with Some (V4 v4) => Some v4 | _ => None end;
  is_backend_ports := mi_backend_ports self; is_phase := phase; is_ready := ready; is_drain_state := drain_state;
  is_error := error; is_started_at := started_at; is_updated_at := updated_at |}.

Record StartCandidate := {
  sc_namespace : Namespace; sc_spec : ServiceSpec; sc_deploy_id : DeployId; sc_instance_id : InstanceId;
  sc_slot_id : SlotId; sc_machine_id : MachineId; sc_revision_hash : string
}.

Definition service_port_map (service_ports : list ServicePort) : gmap string N :=
  foldl (fun m p => <[port_name p := port_container_port p]> m) ∅ service_ports.

Definition find_port (spec : ServiceSpec) (name : string) : option ServicePort :=
  snd <$> list_find (fun p => port_name p = name) (ss_service_ports spec).

Definition resolve_service_port (spec : ServiceSpec) (name : string) : Res N :=
  ok_or (port_container_port <$> find_port spec name)
    (Operation "resolve_service_port" ("service '" +:+ ss_name spec +:+ "' has no service port named '" +:+ name +:+ "'")).

Definition build_binds (container : ContainerSpec) : list string :=
  omap (fun mount =>
    let ro := if vm_readonly mount then ":ro" else "" in
    match vm_source mount with
    | Bind source => Some (source +:+ ":" +:+ vm_target mount +:+ ro)
    | Managed volume => Some (mv_name volume +:+ ":" +:+ vm_target mount +:+ ro)
    | Tmpfs => None
    end) (cs_volumes container).

Definition is_tmpfs (m : VolumeMount) : bool := match vm_source m with Tmpfs => true | _ => false end.
Definition build_tmpfs (container : ContainerSpec) : gmap string string :=
  foldl (fun m mount => <[vm_target mount := ""]> m) ∅ (List.filter is_tmpfs (cs_volumes container)).

Definition protocol_name (p : PortProtocol) : string := match p with Tcp => "tcp" | Udp => "udp" end.

Definition add_port_binding (spec : ServiceSpec) (bindings : PortMap) (published : PublishedPort) : Res PortMap :=
  service_port <-? ok_or (find_port spec (pub_service_port published))
    (Operation "build_port_bindings" ("service '" +:+ ss_name spec +:+ "' publishes unknown port '" +:+
                                      pub_service_port published +:+ "'")) ;;
  let key := dec (port_container_port service_port) +:+ "/" +:+ protocol_name (port_protocol service_port) in
  let binding := {| pb_host_ip := pub_host_ip published; pb_host_port := Some (dec (pub_host_port published)) |} in
  match default (Some []) (bindings !! key) with
  | Some items => Ok (<[key := Some (items ++ [binding])%list]> bindings)
  | None => Err (Operation "build_port_bindings" "port binding entry did not contain a binding list")
  end.
Definition build_port_bindings (spec : ServiceSpec) : Res (option PortMap) :=
  match ss_publish spec with
  | [] => Ok None
  | publish => bindings <-? try_fold (add_port_binding spec) ∅ publish ;; Ok (Some bindings)
  end.

Definition workload_dns_servers (network : NetworkMode) (overlay_dns_server : option Ipv4Addr) : list string :=
  match network with
  | NmOverlay => match overlay_dns_server with Some ip => [ipv4_to_string ip] | None => [] end
  | NmHost | NmNone | NmService _ => []
  end.

Definition build_restart_policy (policy : RestartPolicy) : DockerRestartPolicy :=
  let name := match policy with
              | RestartNo => RpNo | RestartAlways => RpAlways
              | OnFailure => RpOnFailure | UnlessStopped => RpUnlessStopped
              end in
  {| rp_name := Some name; rp_maximum_retry_count := Some 0%Z |}.

(** [str::parse::<i64>]: an optional sign, at least one digit, in range. *)
Definition parse_i64 (s : string) : option Z :=
  let '(negative, digits) := match s with String "-" r => (true, r) | String "+" r => (false, r) | _ => (false, s) end in
  if is_empty digits || negb (all_chars is_ascii_digit digits) then None
  else
    let '(n, _, _) := read_digits 10 0 0 digits in
    let z := if negative then (- Z.of_N n)%Z else Z.of_N n in
    if ((i64_min <=? z) && (z <=? i64_max))%Z then Some z else None.


Section workload.
Context `{Build}.

Definition mul_i64 (a b : Z) : run Z :=
  let p := (a * b)%Z in
  if ((i64_min <=? p) && (p <=? i64_max))%Z then Done p
  else if overflow_checks then Panic else Done (wrap_i64 p).

Definition parse_duration_secs (value : string) : run (option Z) :=
  let trimmed := trim value in
  match strip_suffix "s" trimmed with
  | Some rest => Done (parse_i64 (trim rest))
  | None =>
      match strip_suffix "m" trimmed with
      | Some rest => match parse_i64 (trim rest) with
                     | None => Done None
                     | Some minutes => match mul_i64 minutes 60 with
                                       | Done secs => Done (Some secs)
                                       | Panic => Panic
                                       | OutOfFuel => OutOfFuel
                                       end
                     end
      | None => Done (parse_i64 trimmed)
      end
  end.

Definition cpu_nano (r : Resources) : option Z := (fun m => Z.of_N m * 1000000)%Z <$> res_cpu_millicores r.

Definition instance_container_name (namespace : Namespace) (service : string) (instance_id : InstanceId) : string :=
  "ployz-" +:+ namespace +:+ "-" +:+ service +:+ "-" +:+ instance_id.

Definition workload_network_mode (namespace : Namespace) (network : NetworkMode) (overlay_network : option string)
    : option string :=
  match network with
  | NmHost => Some "host"
  | NmNone => Some "none"
  | NmService service => Some ("container:ployz-" +:+ namespace +:+ "-" +:+ service)
  | NmOverlay => overlay_network
  end.

Record LocalDeployRuntime := { lr_overlay_network : option string; lr_overlay_dns_server : option Ipv4Addr }.

(** The container specification [start_candidate] builds; a panic of the
    duration arithmetic is an error here. *)
Definition workload_spec (self : LocalDeployRuntime) (request : StartCandidate) : Res RuntimeContainerSpec :=
  let namespace := sc_namespace request in
  let spec := sc_spec request in
  let container := ss_template spec in
  let key := namespace +:+ "/" +:+ ss_name spec +:+ "/" +:+ sc_slot_id request +:+ "/" +:+ sc_instance_id request in
  let meta := {| wm_namespace := namespace; wm_service := ss_name spec; wm_revision := sc_revision_hash request;
                 wm_deploy_id := sc_deploy_id request; wm_instance_id := sc_instance_id request;
                 wm_slot_id := sc_slot_id request; wm_machine_id := sc_machine_id request |} in
  port_bindings <-? build_port_bindings spec ;;
  stop_timeout <-? match ss_stop_grace_period spec with
                   | None => Ok None
                   | Some v => match parse_duration_secs v with
                               | Done secs => Ok secs
                               | Panic | OutOfFuel => Err (Operation "panic" "attempt to multiply with overflow")
                               end
                   end ;;
  Ok {| rc_key := key;
        rc_container_name := instance_container_name namespace (ss_name spec) (sc_instance_id request);
        rc_image := cs_image container; rc_pull_policy := cs_pull_policy container; rc_cmd := cs_command container;
        rc_entrypoint := cs_entrypoint container; rc_env := btree_iter (cs_env container);
        rc_labels := build_workload_labels key meta (ss_labels spec);
        rc_binds := build_binds container; rc_tmpfs := build_tmpfs container;
        rc_dns_servers := workload_dns_servers (ss_network spec) (lr_overlay_dns_server self);
        rc_network_mode := workload_network_mode namespace (ss_network spec) (lr_overlay_network self);
        rc_port_bindings := port_bindings; rc_exposed_ports := None;
        rc_cap_add := cs_cap_add container; rc_cap_drop := cs_cap_drop container;
        rc_privileged := cs_privileged container; rc_user := cs_user container;
        rc_restart_policy := Some (build_restart_policy (ss_restart spec));
        rc_memory_bytes := as_i64 <$> res_memory_bytes (cs_resources container);
        rc_nano_cpus := cpu_nano (cs_resources container);
        rc_sysctls := cs_sysctls container; rc_stop_timeout := stop_timeout; rc_pid_mode := None |}.
End workload.

Section runtime.
Context `{Build} {D : Type} `{Docker D} (self : LocalDeployRuntime).
Abbreviation M := (eff D DockerCall Error).

(** The instance an observed container stands for, if it has the labels. *)
Definition managed_instance (obs : ObservedContainer) : option ManagedInstance :=
  wl ← extract_workload_labels (oc_labels obs);
  Some {| mi_instance_id := wl_instance_id wl; mi_service := wl_service wl; mi_slot_id := wl_slot_id wl;
          mi_machine_id := wl_machine_id wl; mi_revision_hash := wl_revision_hash wl;
          mi_deploy_id := wl_deploy_id wl; mi_docker_container_id := oc_container_id obs;
          mi_ip_address := oc_ip_address obs; mi_backend_ports := ∅ |}.

Definition list_instances (namespace : Namespace) : M (list ManagedInstance) :=
  observed <-! list_by_labels [(LABEL_MANAGED, "true"); (LABEL_NAMESPACE, namespace)] ;;
  mret (omap managed_instance observed).

Definition runtime_start_candidate (request : StartCandidate) : M ManagedInstance :=
  runtime_spec <-! mlift (workload_spec self request) ;;
  result <-! ensure runtime_spec ;;
  let spec := sc_spec request in
  mret {| mi_instance_id := sc_instance_id request; mi_service := ss_name spec; mi_slot_id := sc_slot_id request;
          mi_machine_id := sc_machine_id request; mi_revision_hash := sc_revision_hash request;
          mi_deploy_id := sc_deploy_id request; mi_docker_container_id := er_container_id result;
          mi_ip_address := er_ip_address result; mi_backend_ports := service_port_map (ss_service_ports spec) |}.

(** The probe a service asks for, with its timing; [None] if it has none. *)
Record ProbePlan := {
  pp_probe : Probe; pp_start_period : Duration; pp_interval : Duration; pp_timeout : Duration; pp_retries : N
}.
Definition readiness_plan (spec : ServiceSpec) (instance : ManagedInstance) : Res (option ProbePlan) :=
  match ss_readiness spec with
  | None => Ok None
  | Some readiness =>
      ip_address <-? ok_or (mi_ip_address instance)
        (Operation "wait_ready" ("instance '" +:+ mi_instance_id instance +:+ "' for service '" +:+ ss_name spec +:+
                                 "' has no reachable IP address")) ;;
      probe <-? match rp_check readiness with
                | CheckTcp service_port =>
                    port <-? resolve_service_port spec service_port ;; Ok (ProbeTcp ip_address port)
                | CheckHttp service_port path =>
                    port <-? resolve_service_port spec service_port ;; Ok (ProbeHttp ip_address port path)
                | CheckExec command => Ok (ProbeExec (mi_docker_container_id instance) command)
                end ;;
      interval <-? map_err (Operation "wait_ready") (interval_duration readiness) ;;
      timeout <-? map_err (Operation "wait_ready") (timeout_duration readiness) ;;
      start_period <-? map_err (Operation "wait_ready") (start_period_duration readiness) ;;
      Ok (Some {| pp_probe := probe; pp_start_period := start_period; pp_interval := interval;
                  pp_timeout := timeout; pp_retries := retries readiness |})
  end.

Definition runtime_remove_instance (instance_id : InstanceId) (namespace : Namespace) (service : string) : M unit :=
  engine_remove (instance_container_name namespace service instance_id) STOP_GRACE_PERIOD.
End runtime.

(** ** What validation guarantees at start *)

Lemma find_port_Some (spec : ServiceSpec) n : n ∈ port_names spec -> exists p, find_port spec n = Some p.
Proof.
  intros (p & Hp & Hin)%list_elem_of_fmap. unfold find_port.
  destruct (list_find_elem_of (fun p => port_name p = n) (ss_service_ports spec) p Hin (eq_sym Hp)) as [[i q] ->].
  by exists q.
Qed.

(** Every entry of a port map under construction has a binding list. *)
Definition lists_bindings (m : PortMap) : Prop := map_Forall (fun _ v => v <> None) m.

Lemma add_port_binding_ok (spec : ServiceSpec) (m : PortMap) p :
  lists_bindings m -> pub_service_port p ∈ port_names spec ->
  exists m', add_port_binding spec m p = Ok m' /\ lists_bindings m'.
Proof.
  intros Hm [sp Hp]%find_port_Some. unfold add_port_binding. rewrite Hp. simpl.
  set (key := _ +:+ _). destruct (m !! key) as [v|] eqn:E; simpl.
  - destruct v as [items|]; [|by apply Hm in E]. eexists. split; [done|]. by apply map_Forall_insert_2.
  - eexists. split; [done|]. by apply map_Forall_insert_2.
Qed.

Lemma build_port_bindings_ok (spec : ServiceSpec) :
  Forall (fun p => pub_service_port p ∈ port_names spec) (ss_publish spec) ->
  exists b, build_port_bindings spec = Ok b.
Proof.
  intros Hp. unfold build_port_bindings. destruct (ss_publish spec) as [|p0 l]; [eauto|].
  assert (forall m, lists_bindings m -> Forall (fun p => pub_service_port p ∈ port_names spec) (p0 :: l) ->
    exists m', try_fold (add_port_binding spec) m (p0 :: l) = Ok m') as Hfold.
  { clear Hp. generalize (p0 :: l) as ps. induction ps as [|p ps IH]; intros m Hm Hps; simpl; [eauto|].
    apply Forall_cons in Hps as [Hp Hps]. destruct (add_port_binding_ok spec m p Hm Hp) as (m' & -> & Hm'). by apply IH. }
  destruct (Hfold ∅ ltac:(by apply map_Forall_empty) Hp) as [m' ->]. eauto.
Qed.

Lemma parse_duration_secs_panic `{Build} v :
  match parse_duration_secs v with Done _ => True | _ => overflow_checks = true end.
Proof.
  unfold parse_duration_secs, mul_i64. destruct (strip_suffix "s" (trim v)); [done|].
  destruct (strip_suffix "m" (trim v)) as [rest|]; [|done]. destruct (parse_i64 (trim rest)) as [z|]; [|done].
  destruct (_ && _); [done|]. by destruct overflow_checks eqn:E.
Qed.

(** What validation accepts can be started.  For a service that passes
    validation, building its container fails in one case only, an overflow of
    the stop grace period in a build with overflow checks; and for an instance
    with an address the readiness check always resolves to a probe: the service
    port it names exists and the durations parse. *)
Theorem validated_service_starts `{Build} (self : LocalDeployRuntime) (request : StartCandidate)
    (instance : ManagedInstance) (ip : IpAddr) :
  service_validate (sc_spec request) = Ok tt ->
  mi_ip_address instance = Some ip ->
  (match workload_spec self request with
   | Ok spec => rc_image spec = cs_image (ss_template (sc_spec request))
   | Err e => err_operation e = "panic" /\ overflow_checks = true
   end) /\
  exists plan, readiness_plan (sc_spec request) instance = Ok plan /\
    (plan = None <-> ss_readiness (sc_spec request) = None).
Proof.
  intros Hv%service_validate_iff Hip. split.
  - unfold workload_spec. destruct (build_port_bindings_ok _ (swf_publish _ Hv)) as [b ->]. simpl.
    destruct (ss_stop_grace_period (sc_spec request)) as [v|]; simpl; [|done].
    pose proof (parse_duration_secs_panic v) as Hp. by destruct (parse_duration_secs v); [|naive_solver..].
  - unfold readiness_plan. destruct (ss_readiness (sc_spec request)) as [p|] eqn:Hr; [|by exists None].
    destruct (swf_readiness _ Hv p Hr) as [Hc ((i & Hi & _) & (t & Ht & _) & (s & Hs) & _)].
    rewrite Hip, Hi, Ht, Hs. simpl. unfold resolve_service_port.
    destruct (rp_check p) as [port path|port|command]; simpl in Hc |- *.
    + apply find_port_Some in Hc as [sp ->]. simpl. eexists. split; [done|]. done.
    + apply find_port_Some in Hc as [sp ->]. simpl. eexists. split; [done|]. done.
    + eexists. split; [done|]. done.
Qed.

(** The identity of an instance is read back from its labels.  Reading the
    labels of a container built for an instance gives the instance, service,
    slot, machine, revision and deploy it was built for, except where the
    service's own labels use one of these keys: those win. *)
Theorem workload_labels_identity (key : string) (meta : WorkloadMeta) (extra : gmap string string) :
  extract_workload_labels (build_workload_labels key meta extra) = Some {|
    wl_instance_id := default (wm_instance_id meta) (extra !! LABEL_INSTANCE);
    wl_service := default (wm_service meta) (extra !! LABEL_SERVICE);
    wl_slot_id := default (wm_slot_id meta) (extra !! LABEL_SLOT);
    wl_machine_id := default (wm_machine_id meta) (extra !! LABEL_MACHINE);
    wl_revision_hash := default (wm_revision meta) (extra !! LABEL_REVISION);
    wl_deploy_id := default (wm_deploy_id meta) (extra !! LABEL_DEPLOY) |}.
Proof.
  assert (forall k v, workload_identity key meta !! k = Some v ->
    build_workload_labels key meta extra !! k = Some (default v (extra !! k))) as Hl.
  { intros k v Hk. unfold build_workload_labels. rewrite lookup_union, Hk. by destruct (extra !! k). }
  unfold extract_workload_labels.
  rewrite (Hl LABEL_INSTANCE (wm_instance_id meta)), (Hl LABEL_SERVICE (wm_service meta)),
    (Hl LABEL_SLOT (wm_slot_id meta)), (Hl LABEL_MACHINE (wm_machine_id meta)),
    (Hl LABEL_REVISION (wm_revision meta)), (Hl LABEL_DEPLOY (wm_deploy_id meta)); [done|..];
    unfold workload_identity; by simplify_map_eq.
Qed.

Lemma normalize_restart_policy_Some o name :
  normalize_restart_policy o = Some {| rp_name := Some name; rp_maximum_retry_count := Some 0%Z |} <->
  name <> RpNo /\ o = Some {| rp_name := Some name; rp_maximum_retry_count := Some 0%Z |}.
Proof.
  unfold normalize_restart_policy. destruct o as [q|]; [|naive_solver].
  destruct (bool_decide_reflect (rp_name q = Some RpNo)) as [Hq|Hq]; simpl.
  - destruct (Z.eqb_spec (default 0%Z (rp_maximum_retry_count q)) 0) as [E|E].
    + split; [done|]. intros [Hn [= ->]]. naive_solver.
    + split; intros Hx; [|destruct Hx as [_ Hx]]; injection Hx as ->; simpl in E; lia.
  - split; [|by intros [_ ->]]. intros [= ->]. simpl in Hq. split; [congruence|done].
Qed.

(** A service with restart policy [no] is never kept.  Its container is
    created with the policy [no]; when it is compared again the observed policy
    [no] is taken as none but the desired one is not, so the policies agree only
    for the other three policies, and for [no] every running container counts as
    drifted and is recreated. *)
Theorem restart_no_never_kept `{Build} (self : LocalDeployRuntime) (request : StartCandidate) spec obs :
  workload_spec self request = Ok spec ->
  (agrees CfRestartPolicy obs spec <->
     ss_restart (sc_spec request) <> RestartNo /\ oc_restart_policy obs = rc_restart_policy spec) /\
  (ss_restart (sc_spec request) = RestartNo -> eval_spec_change (Some obs) spec <> InSync).
Proof.
  intros Hs.
  assert (rc_restart_policy spec = Some (build_restart_policy (ss_restart (sc_spec request)))) as Hr.
  { unfold workload_spec in Hs. apply rbind_Ok in Hs as (b & _ & Hs). apply rbind_Ok in Hs as (t & _ & Hs).
    by simplify_eq. }
  assert (agrees CfRestartPolicy obs spec <->
     ss_restart (sc_spec request) <> RestartNo /\ oc_restart_policy obs = rc_restart_policy spec) as Ha.
  { simpl. rewrite Hr. unfold build_restart_policy. rewrite normalize_restart_policy_Some.
    destruct (ss_restart (sc_spec request)); naive_solver. }
  split; [done|]. intros Hno Hsync. pose proof (eval_spec_change_cases (Some obs) spec) as Hc. rewrite Hsync in Hc.
  destruct Hc as (o & [= <-] & _ & Hall). by apply Ha in Hall as [? _].
Qed.

Lemma string_length_app a b : String.length (a +:+ b) = String.length a + String.length b.
Proof. induction a as [|c a IH]; simpl; [done|]. by rewrite <- IH. Qed.

(** A service that shares another service's network names a container that
    no instance of it has: the parent is called [ployz-<namespace>-<service>],
    an instance's container has the instance id after that. *)
Theorem service_network_dangling (namespace : Namespace) (service : string) (overlay : option string) :
  exists parent, workload_network_mode namespace (NmService service) overlay = Some ("container:" +:+ parent) /\
    forall instance_id, instance_container_name namespace service instance_id <> parent.
Proof.
  exists ("ployz-" +:+ namespace +:+ "-" +:+ service). split; [done|]. intros instance_id E.
  unfold instance_container_name in E. apply (f_equal String.length) in E.
  rewrite !string_length_app in E. cbn [String.length] in E. lia.
Qed.

(** ** Examples *)

Definition sample_service : ServiceSpec := {|
  ss_name := "api"; ss_placement := Replicated 1;
  ss_template := {| cs_image := "api:v1"; cs_command := Some ["serve"]; cs_entrypoint := None;
                    cs_env := {["MODE" := "prod"]}; cs_volumes := []; cs_cap_add := []; cs_cap_drop := [];
                    cs_privileged := false; cs_user := None; cs_pull_policy := IfNotPresent;
                    cs_resources := {| res_cpu_millicores := Some 500%N; res_memory_bytes := Some 1048576%N |};
                    cs_sysctls := ∅ |};
  ss_network := NmOverlay;
  ss_service_ports := [{| port_name := "http"; port_container_port := 8080; port_protocol := Tcp |}];
  ss_publish := [{| pub_service_port := "http"; pub_host_port := 80; pub_host_ip := None |}];
  ss_routes := [];
  ss_readiness := Some {| rp_check := CheckTcp "http"; rp_interval := Some "5s"; rp_timeout := None;
                          rp_retries := Some 3%N; rp_start_period := None |};
  ss_rollout := Recreate; ss_labels := ∅; ss_stop_grace_period := Some "2m"; ss_restart := RestartNo |}.
Definition sample_request : StartCandidate := {|
  sc_namespace := "prod"; sc_spec := sample_service; sc_deploy_id := "d1"; sc_instance_id := "i1";
  sc_slot_id := "slot-0001"; sc_machine_id := "m1"; sc_revision_hash := "r1" |}.
Definition sample_instance : ManagedInstance := {|
  mi_instance_id := "i1"; mi_service := "api"; mi_slot_id := "slot-0001"; mi_machine_id := "m1";
  mi_revision_hash := "r1"; mi_deploy_id := "d1"; mi_docker_container_id := "c1";
  mi_ip_address := Some (V4 181534725); mi_backend_ports := ∅ |}.
Definition sample_runtime : LocalDeployRuntime :=
  {| lr_overlay_network := Some "ployz-alpha"; lr_overlay_dns_server := Some 181534722%N |}.
#[local] Instance sample_build : Build := {| overflow_checks := true |}.

Lemma validated_service_starts_witness :
  exists plan, readiness_plan sample_service sample_instance = Ok plan /\ (plan = None <-> ss_readiness sample_service = None).
Proof.
  exact (proj2 (validated_service_starts sample_runtime sample_request sample_instance (V4 181534725)
                  ltac:(vm_compute; reflexivity) eq_refl)).
Defined.

Definition sample_workload : RuntimeContainerSpec :=
  match workload_spec sample_runtime sample_request with Ok s => s | Err _ => sample_container end.

Lemma restart_no_never_kept_witness :
  eval_spec_change (Some (observe (ref_info "c1" (create_config sample_workload None, create_host_config sample_workload, true))))
    sample_workload <> InSync.
Proof.
  exact (proj2 (restart_no_never_kept sample_runtime sample_request sample_workload _ ltac:(vm_compute; reflexivity)) eq_refl).
Defined.
