(* ===== verification/Agent.v ===== *)
(** * Deploy sessions on a machine

    [deploy_control/] of [ployzd]: the namespace locks ([locks.rs]), the agent
    that starts, drains and removes instances for a deploy, the frames it
    exchanges with a remote coordinator ([remote.rs]) and the two kinds of
    session ([session.rs]), in the coordinator's process or over TCP.  The agent
    runs on the in-memory store and on the container engine; a store call, the
    connection to Docker and a probe can fail at any time. *)

From stdpp Require Import relations.
From S2P Require Import Prelude Order Effect Text Types Addr RefCodec Spec IpnetRef Ipam Store Container Workload.
Local Open Scope string_scope.
Local Open Scope eff_scope.

(** ** Namespace locks ([locks.rs]) *)

Abbreviation Locks := (gmap string DeployId) (only parsing).

Definition try_acquire (namespace : Namespace) (deploy_id : DeployId) (held : Locks) : Res unit * Locks :=
  match held !! namespace with
  | Some current => (Err (Operation "namespace_lock" ("namespace '" +:+ namespace +:+
                            "' is already locked by deploy '" +:+ current +:+ "'")), held)
  | None => (Ok tt, <[namespace := deploy_id]> held)
  end.
(** [Drop for NamespaceLock]. *)
Definition lock_drop (namespace : Namespace) (held : Locks) : Locks := delete namespace held.

(** ** The agent ([remote.rs]) *)

Record SessionState := { se_namespace : Namespace; se_deploy_id : DeployId }.

Inductive AgentCall :=
| ALock (namespace : Namespace) | AUnlock (namespace : Namespace)
| AListInstances (namespace : Namespace) | AUpsertInstance (r : InstanceStatusRecord) | ADeleteInstance (id : InstanceId)
| AConnect | ADocker (c : DockerCall) | AProbe (plan : ProbePlan) | ANow.

(** The world the agent acts on. *)
Record World (D : Type) := { aw_store : MemoryStore; aw_docker : D; aw_locks : Locks }.
Arguments aw_store {D}.
Arguments aw_docker {D}.
Arguments aw_locks {D}.

(** Which calls fail, what probes answer, and the clock. *)
Record AgentEnv := {
  ae_store : list AgentCall -> AgentCall -> option Error;
  ae_connect : list AgentCall -> option Error;
  ae_probe : list AgentCall -> ProbePlan -> Res unit;
  ae_now : list AgentCall -> N
}.

Record DeployAgent := {
  ag_local_machine_id : MachineId; ag_overlay_network_name : option string; ag_overlay_dns_server : option Ipv4Addr
}.

Section agent.
Context `{Build} `{SpecCodec} {D : Type} `{Docker D} (env : AgentEnv) (self : DeployAgent).
Abbreviation A := (eff (World D) AgentCall Error).

Definition with_store (s : MemoryStore) (w : World D) : World D :=
  {| aw_store := s; aw_docker := aw_docker w; aw_locks := aw_locks w |}.
Definition with_docker (d : D) (w : World D) : World D :=
  {| aw_store := aw_store w; aw_docker := d; aw_locks := aw_locks w |}.
Definition with_locks (l : Locks) (w : World D) : World D :=
  {| aw_store := aw_store w; aw_docker := aw_docker w; aw_locks := l |}.

(** A store call: it fails without effect, or takes effect. *)
Definition store_call {X} (c : AgentCall) (op : MemoryStore -> X * MemoryStore) : A X :=
  fun '(w, log) => match ae_store env log c with
                   | Some e => (Err e, (w, log ++ [c])%list)
                   | None => let '(x, s) := op (aw_store w) in (Ok x, (with_store s w, log ++ [c])%list)
                   end.
Definition in_docker {X} (c : eff D DockerCall Error X) : A X :=
  fun '(w, log) => let '(r, (d, calls)) := c (aw_docker w, []) in
                   (r, (with_docker d w, log ++ map ADocker calls)%list).
Definition agent_now : A N := mcall (fun log => Ok (ae_now env log)) ANow.

Definition store_list_instances (namespace : Namespace) : A (list InstanceStatusRecord) :=
  store_call (AListInstances namespace) (fun s => (mem_list_instance_status namespace s, s)).
Definition store_upsert_instance (r : InstanceStatusRecord) : A unit :=
  store_call (AUpsertInstance r) (fun s => (tt, mem_upsert_instance_status r s)).
Definition store_delete_instance (id : InstanceId) : A unit :=
  store_call (ADeleteInstance id) (fun s => (tt, mem_delete_instance_status id s)).

Definition new_runtime : A LocalDeployRuntime :=
  connected <-! mcall (fun log => Ok (ae_connect env log)) AConnect ;;
  match connected with
  | Some e => mfail e
  | None => mret {| lr_overlay_network := ag_overlay_network_name self;
                    lr_overlay_dns_server := ag_overlay_dns_server self |}
  end.

Definition build_instance_status_record (namespace : Namespace) (instance : ManagedInstance) : A InstanceStatusRecord :=
  started_at <-! agent_now ;;
  updated_at <-! agent_now ;;
  mret (to_status_record instance namespace IpReady true DsNone None started_at updated_at).

Definition adopt_instance (namespace : Namespace) (known : gset string) (instance : ManagedInstance) : A unit :=
  if decide (mi_instance_id instance ∈ known) then mret tt else
  record <-! build_instance_status_record namespace instance ;;
  store_upsert_instance record.
Definition adopt_instances (namespace : Namespace) : A unit :=
  existing <-! store_list_instances namespace ;;
  let known : gset string := list_to_set (is_instance_id <$> existing) in
  instances <-! in_docker (list_instances namespace) ;;
  mfor instances (adopt_instance namespace known).

Definition list_local_instance_status (namespace : Namespace) : A (list InstanceStatusRecord) :=
  records <-! store_list_instances namespace ;;
  mret (filter (fun r => is_machine_id r = ag_local_machine_id self) records).

Definition find_local_instance_status (namespace : Namespace) (instance_id : InstanceId)
    : A (option InstanceStatusRecord) :=
  records <-! list_local_instance_status namespace ;;
  mret (snd <$> list_find (fun r => is_instance_id r = instance_id) records).

(** Adoption, skipped when Docker cannot be reached. *)
Definition adopt_if_connected (namespace : Namespace) : A unit :=
  runtime <-! mtry new_runtime ;;
  match runtime with
  | Ok _ => adopt_instances namespace
  | Err _ => mret tt
  end.

Definition agent_inspect_namespace (session : SessionState) : A (list InstanceStatusRecord) :=
  _ <-! adopt_if_connected (se_namespace session) ;;
  list_local_instance_status (se_namespace session).

(** The lock is released when opening fails after it was acquired. *)
Definition acquire_lock (namespace : Namespace) (deploy_id : DeployId) : A unit :=
  fun '(w, log) => let '(r, held) := try_acquire namespace deploy_id (aw_locks w) in
                   (r, (with_locks held w, log ++ [ALock namespace])%list).
Definition release_lock (namespace : Namespace) : A unit :=
  fun '(w, log) => (Ok tt, (with_locks (lock_drop namespace (aw_locks w)) w, log ++ [AUnlock namespace])%list).

Definition agent_open_session (namespace : Namespace) (deploy_id : DeployId)
    : A (SessionState * list InstanceStatusRecord) :=
  _ <-! acquire_lock namespace deploy_id ;;
  let session := {| se_namespace := namespace; se_deploy_id := deploy_id |} in
  opened <-! mtry (agent_inspect_namespace session) ;;
  match opened with
  | Err e => _ <-! release_lock namespace ;; mfail e
  | Ok instances => mret (session, instances)
  end.

(** [LocalDeployRuntime::wait_ready]; the probe loop is one call. *)
Definition runtime_wait_ready (spec : ServiceSpec) (instance : ManagedInstance) : A unit :=
  plan <-! mlift (readiness_plan spec instance) ;;
  match plan with
  | None => mret tt
  | Some plan =>
      ready <-! mtry (mcall (fun log => ae_probe env log plan) (AProbe plan)) ;;
      match ready with
      | Ok _ => mret tt
      | Err _ => mfail (Operation "wait_ready" ("instance '" +:+ mi_instance_id instance +:+ "' for service '" +:+
                          ss_name spec +:+ "' did not become ready before timeout"))
      end
  end.

Definition start_request (session : SessionState) (spec : ServiceSpec) (slot_id : SlotId) (instance_id : InstanceId)
    (deploy_id : DeployId) (revision_hash : string) : StartCandidate := {|
  sc_namespace := se_namespace session; sc_spec := spec; sc_deploy_id := deploy_id; sc_instance_id := instance_id;
  sc_slot_id := slot_id; sc_machine_id := ag_local_machine_id self; sc_revision_hash := revision_hash |}.

Definition agent_start_candidate (session : SessionState) (service : string) (slot_id : SlotId)
    (instance_id : InstanceId) (deploy_id : DeployId) (spec_json : string) : A InstanceStatusRecord :=
  existing <-! find_local_instance_status (se_namespace session) instance_id ;;
  match existing with
  | Some existing => mret existing
  | None =>
      spec <-! mlift (map_err (fun e => Operation "start_candidate" ("decode spec: " +:+ e)) (spec_from_json spec_json)) ;;
      if decide (ss_name spec <> service) then
        mfail (Operation "start_candidate" ("spec service '" +:+ ss_name spec +:+
                 "' did not match request service '" +:+ service +:+ "'"))
      else
      hash <-! mlift (map_err (Operation "start_candidate") (revision_hash spec)) ;;
      runtime <-! new_runtime ;;
      instance <-! in_docker (runtime_start_candidate runtime
                     (start_request session spec slot_id instance_id deploy_id hash)) ;;
      _ <-! runtime_wait_ready spec instance ;;
      status <-! build_instance_status_record (se_namespace session) instance ;;
      _ <-! store_upsert_instance status ;;
      mret status
  end.

Definition drained (status : InstanceStatusRecord) (now : N) : InstanceStatusRecord := {|
  is_instance_id := is_instance_id status; is_namespace := is_namespace status; is_service := is_service status;
  is_slot_id := is_slot_id status; is_machine_id := is_machine_id status; is_revision_hash := is_revision_hash status;
  is_deploy_id := is_deploy_id status; is_docker_container_id := is_docker_container_id status;
  is_overlay_ip := is_overlay_ip status; is_backend_ports := is_backend_ports status; is_phase := IpDraining;
  is_ready := false; is_drain_state := DsRequested; is_error := is_error status;
  is_started_at := is_started_at status; is_updated_at := now |}.

Definition agent_drain_instance (session : SessionState) (instance_id : InstanceId) : A unit :=
  found <-! find_local_instance_status (se_namespace session) instance_id ;;
  match found with
  | None => mret tt
  | Some status =>
      if decide (is_phase status = IpDraining) then mret tt else
      now <-! agent_now ;;
      store_upsert_instance (drained status now)
  end.

Definition agent_remove_instance (session : SessionState) (instance_id : InstanceId) : A unit :=
  found <-! find_local_instance_status (se_namespace session) instance_id ;;
  match found with
  | None => mret tt
  | Some status =>
      _ <-! new_runtime ;;
      _ <-! in_docker (runtime_remove_instance (is_instance_id status) (se_namespace session) (is_service status)) ;;
      store_delete_instance (is_instance_id status)
  end.
End agent.

(** ** Frames *)

Inductive DeployFrame :=
| FOpen (namespace deploy_id coordinator_id : string)
| FInspectNamespace
| FStartCandidate (service slot_id instance_id spec_json : string)
| FDrainInstance (instance_id : string)
| FRemoveInstance (instance_id : string)
| FClose
| FOpened (instances : list InstanceStatusRecord)
| FNamespaceSnapshot (instances : list InstanceStatusRecord)
| FCandidateStarted (status : InstanceStatusRecord)
| FAck (message : string)
| FError (code message : string).

(** [serde_json] on frames and the derived [Debug]. *)
Class FrameCodec := {
  frame_to_string : DeployFrame -> result string string;
  frame_from_str : string -> result string DeployFrame;
  frame_debug : DeployFrame -> string
}.
Definition newline : ascii := ascii_of_N 10.

(** A frame is printed on one line and read back from it. *)
Class FrameCodecLaws (C : FrameCodec) : Prop := {
  frame_print : forall f, exists s, frame_to_string f = Ok s /\ contains_char newline s = false /\
    frame_from_str (s +:+ String newline "") = Ok f
}.

(** [read_line]: the bytes up to and including the first newline, and the rest. *)
Fixpoint read_line (buf : string) : string * string :=
  match buf with
  | EmptyString => ("", "")
  | String c r => if ascii_dec c newline then (String c "", r)
                  else let '(l, rest) := read_line r in (String c l, rest)
  end.

Section frames.
Context `{Build} `{SpecCodec} `{FrameCodec} {D : Type} `{Docker D} (env : AgentEnv) (self : DeployAgent).
Abbreviation A := (eff (World D) AgentCall Error).

(** [write_frame] puts the line on the connection; [read_frame] takes the next
    one off it, [None] at the end of the stream. *)
Definition write_frame (f : DeployFrame) : Res string :=
  line <-? map_err (fun e => Operation "deploy_session" ("encode frame: " +:+ e)) (frame_to_string f) ;;
  Ok (line +:+ String newline "").
Definition read_frame (buf : string) : Res (option (DeployFrame * string)) :=
  let '(line, rest) := read_line buf in
  if is_empty line then Ok None else
  f <-? map_err (fun e => Operation "deploy_session" ("decode frame: " +:+ e)) (frame_from_str line) ;;
  Ok (Some (f, rest)).

(** *** The server side *)

Definition handle_session_frame_inner (session : SessionState) (frame : DeployFrame) : A DeployFrame :=
  match frame with
  | FOpen _ _ _ => mfail (Operation "deploy_session" "duplicate Open frame on an already-open session")
  | FInspectNamespace =>
      instances <-! agent_inspect_namespace env self session ;; mret (FNamespaceSnapshot instances)
  | FStartCandidate service slot_id instance_id spec_json =>
      status <-! agent_start_candidate env self session service slot_id instance_id (se_deploy_id session) spec_json ;;
      mret (FCandidateStarted status)
  | FDrainInstance instance_id =>
      _ <-! agent_drain_instance env self session instance_id ;; mret (FAck "drained")
  | FRemoveInstance instance_id =>
      _ <-! agent_remove_instance env self session instance_id ;; mret (FAck "removed")
  | FClose => mret (FAck "session closed")
  | FOpened _ | FNamespaceSnapshot _ | FCandidateStarted _ | FAck _ | FError _ _ =>
      mfail (Operation "deploy_session" ("unexpected frame from client: " +:+ frame_debug frame))
  end.

Definition handle_session_frame (session : SessionState) (frame : DeployFrame) : A DeployFrame :=
  r <-! mtry (handle_session_frame_inner session frame) ;;
  match r with
  | Ok response => mret response
  | Err e => mret (FError "DEPLOY_FAILED" (error_to_string e))
  end.

Definition is_session_closed (response : DeployFrame) : bool :=
  match response with FAck message => starts_with message "session closed" | _ => false end.

(** The session loop on the frames a client sends before it closes the
    connection; [None] stands for a frame that cannot be decoded.  The result is
    the frames sent back; the session, and with it the lock, is dropped at the
    end in every case. *)
Fixpoint session_loop (session : SessionState) (frames : list (option DeployFrame)) : A (list DeployFrame) :=
  match frames with
  | [] => mret []
  | None :: _ => mfail (Operation "deploy_session" "decode frame")
  | Some frame :: frames =>
      response <-! handle_session_frame session frame ;;
      if is_session_closed response then mret [response]
      else rest <-! session_loop session frames ;; mret (response :: rest)
  end.

Definition handle_connection (frames : list (option DeployFrame)) : A (list DeployFrame) :=
  match frames with
  | [] => mret []
  | None :: _ => mfail (Operation "deploy_session" "decode frame")
  | Some (FOpen namespace deploy_id coordinator_id) :: frames =>
      opened <-! mtry (agent_open_session env self namespace deploy_id) ;;
      match opened with
      | Err e => mret [FError "LOCK_FAILED" ("failed to acquire lock for '" +:+ namespace +:+ "' from coordinator '" +:+
                         coordinator_id +:+ "': " +:+ error_to_string e)]
      | Ok (session, instances) =>
          responses <-! mtry (session_loop session frames) ;;
          _ <-! release_lock namespace ;;
          rest <-! mlift responses ;;
          mret (FOpened instances :: rest)
      end
  | Some _ :: _ => mret [FError "PROTOCOL_ERROR" "first frame must be Open"]
  end.

(** *** The client side: one request and its response over the connection *)

Definition closed_error : Error := Operation "deploy_session" "connection closed while waiting for response".

Definition send_and_recv (session : SessionState) (frame : DeployFrame) : A DeployFrame :=
  request <-! mlift (write_frame frame) ;;
  match read_frame request with
  | Ok (Some (received, _)) =>
      response <-! handle_session_frame session received ;;
      match write_frame response with
      | Err _ => mfail closed_error
      | Ok line =>
          answer <-! mlift (read_frame line) ;;
          match answer with
          | None => mfail closed_error
          | Some (FError code message, _) => mfail (Operation "deploy_session" (code +:+ ": " +:+ message))
          | Some (response, _) => mret response
          end
      end
  | _ => mfail closed_error                    (* the server gives up on the connection *)
  end.

Definition unexpected_response {X} (operation : string) (response : DeployFrame) : A X :=
  mfail (Operation operation ("unexpected response: " +:+ frame_debug response)).
Definition expect_ack (operation : string) (response : DeployFrame) : A unit :=
  match response with FAck _ => mret tt | _ => unexpected_response operation response end.

(** ** Sessions ([session.rs]) *)

Record DeploySession := {
  se_inspect : A (list InstanceStatusRecord);
  se_start : string -> SlotId -> InstanceId -> string -> A InstanceStatusRecord;
  se_drain : InstanceId -> A unit;
  se_remove : InstanceId -> A unit;
  se_close : A unit
}.

(** Closing drops the session state, which releases the lock. *)
Definition in_process_session (state : SessionState) : DeploySession := {|
  se_inspect := agent_inspect_namespace env self state;
  se_start service slot_id instance_id spec_json :=
    agent_start_candidate env self state service slot_id instance_id (se_deploy_id state) spec_json;
  se_drain instance_id := agent_drain_instance env self state instance_id;
  se_remove instance_id := agent_remove_instance env self state instance_id;
  se_close := release_lock (se_namespace state)
|}.

(** Over TCP the server drops the session after it answered a close. *)
Definition tcp_session (state : SessionState) : DeploySession := {|
  se_inspect :=
    response <-! send_and_recv state FInspectNamespace ;;
    match response with
    | FNamespaceSnapshot instances => mret instances
    | _ => unexpected_response "inspect_namespace" response
    end;
  se_start service slot_id instance_id spec_json :=
    response <-! send_and_recv state (FStartCandidate service slot_id instance_id spec_json) ;;
    match response with
    | FCandidateStarted status => mret status
    | _ => unexpected_response "start_candidate" response
    end;
  se_drain instance_id :=
    response <-! send_and_recv state (FDrainInstance instance_id) ;; expect_ack "drain_instance" response;
  se_remove instance_id :=
    response <-! send_and_recv state (FRemoveInstance instance_id) ;; expect_ack "remove_instance" response;
  se_close :=
    _ <-! mtry (send_and_recv state FClose) ;; release_lock (se_namespace state)
|}.
End frames.

(** ** A session over TCP is a session in the process *)

Lemma read_line_one s : contains_char newline s = false -> read_line (s +:+ String newline "") = (s +:+ String newline "", "").
Proof.
  induction s as [|c s IH]; [done|]. cbn [contains_char]. intros Hc.
  destruct (ascii_dec newline c) as [|Hne]; [done|]. simpl.
  destruct (ascii_dec c newline) as [->|_]; [done|]. by rewrite IH.
Qed.

Lemma read_written `{FrameCodec} `{!FrameCodecLaws _} f :
  exists line, write_frame f = Ok line /\ read_frame line = Ok (Some (f, "")).
Proof.
  destruct (frame_print f) as (s & Hs & Hn & Hf). exists (s +:+ String newline "").
  unfold write_frame, read_frame. rewrite Hs, (read_line_one s Hn). split; [done|].
  destruct (s +:+ String newline "") as [|c r] eqn:E; [by destruct s|]. simpl. by rewrite Hf.
Qed.

(** How a result of the agent reaches the client. *)
Definition over_wire {X} (r : Res X) : Res X :=
  match r with
  | Ok x => Ok x
  | Err e => Err (Operation "deploy_session" ("DEPLOY_FAILED: " +:+ error_to_string e))
  end.

Section tcp.
Context `{Build} `{SpecCodec} `{FrameCodec} `{!FrameCodecLaws _} {D : Type} `{Docker D} (env : AgentEnv) (self : DeployAgent).
Abbreviation A := (eff (World D) AgentCall Error).

Lemma send_and_recv_spec (state : SessionState) f st :
  send_and_recv env self state f st =
  (let '(r, st') := handle_session_frame_inner env self state f st in
   (match r with
    | Ok (FError code message) => Err (Operation "deploy_session" (code +:+ ": " +:+ message))
    | Ok response => Ok response
    | Err e => Err (Operation "deploy_session" ("DEPLOY_FAILED: " +:+ error_to_string e))
    end, st')).
Proof.
  unfold send_and_recv, mbind at 1, mlift at 1. destruct (read_written f) as (line & -> & ->).
  unfold mbind at 1, handle_session_frame, mbind at 1, mtry.
  destruct (handle_session_frame_inner env self state f st) as [[resp|e] st']; cbv iota beta; unfold mret at 1; cbv iota beta.
  - destruct (read_written resp) as (l & -> & Hl). unfold mbind, mlift. rewrite Hl. by destruct resp.
  - destruct (read_written (FError "DEPLOY_FAILED" (error_to_string e))) as (l & -> & Hl).
    unfold mbind, mlift. by rewrite Hl.
Qed.

(** Mapping the answer frame of a request gives back the agent's result. *)
Lemma send_and_recv_result {X} (state : SessionState) f (op : A X) (wrap : X -> DeployFrame)
    (unwrap : DeployFrame -> A X) st :
  handle_session_frame_inner env self state f = (x <-! op ;; mret (wrap x)) ->
  (forall x code message, wrap x <> FError code message) ->
  (forall x st, unwrap (wrap x) st = (Ok x, st)) ->
  mbind (send_and_recv env self state f) unwrap st = (over_wire (op st).1, (op st).2).
Proof.
  intros Hf Hw Hu. unfold mbind at 1. rewrite send_and_recv_spec, Hf. unfold mbind.
  destruct (op st) as [[x|e] st']; simpl; [|done].
  specialize (Hw x). specialize (Hu x). destruct (wrap x) eqn:E; try (by rewrite Hu). by destruct (Hw code message).
Qed.
End tcp.


(** A concrete frame codec: frames are numbered and printed in decimal. *)
#[export] Instance DeployFrame_eq_dec : EqDecision DeployFrame.
Proof. solve_decision. Defined.
#[export] Instance DeployFrame_countable : Countable DeployFrame.
Proof.
  refine (inj_countable'
    (fun f => match f with
       | FOpen a b c => (0, [a; b; c], []) | FInspectNamespace => (1, [], [])
       | FStartCandidate a b c d => (2, [a; b; c; d], []) | FDrainInstance a => (3, [a], [])
       | FRemoveInstance a => (4, [a], []) | FClose => (5, [], []) | FOpened l => (6, [], l)
       | FNamespaceSnapshot l => (7, [], l) | FCandidateStarted r => (8, [], [r]) | FAck a => (9, [a], [])
       | FError a b => (10, [a; b], [])
       end)
    (fun x => match x with
       | (0, [a; b; c], _) => FOpen a b c | (1, _, _) => FInspectNamespace
       | (2, [a; b; c; d], _) => FStartCandidate a b c d | (3, [a], _) => FDrainInstance a
       | (4, [a], _) => FRemoveInstance a | (5, _, _) => FClose | (6, _, l) => FOpened l
       | (7, _, l) => FNamespaceSnapshot l | (8, _, [r]) => FCandidateStarted r | (9, [a], _) => FAck a
       | (10, [a; b], _) => FError a b | _ => FClose
       end) _). by intros [].
Defined.

Definition strip_newline (s : string) : string := default s (strip_suffix (String newline "") s).
#[export] Instance ref_frame_codec : FrameCodec := {|
  frame_to_string f := Ok (ref_text f);
  frame_from_str s := ref_read (strip_newline s);
  frame_debug _ := ""
|}.
#[export] Instance ref_frame_codec_laws : FrameCodecLaws ref_frame_codec.
Proof.
  split. intros f. exists (ref_text f). split_and!; [done| |].
  - apply dec_no_char. reflexivity.
  - cbn [frame_from_str ref_frame_codec]. unfold strip_newline.
    rewrite (proj2 (strip_suffix_Some _ _ _) eq_refl). apply ref_read_text.
Qed.


(** ** Locks *)

(** Sessions of any number of coordinators: a session is open while its lock
    value lives. *)
Record LockSystem := { lk_held : Locks; lk_sessions : gmap nat SessionState }.
Inductive lock_step (sys : LockSystem) : LockSystem -> Prop :=
| lock_open i ns id held :
    lk_sessions sys !! i = None -> try_acquire ns id (lk_held sys) = (Ok tt, held) ->
    lock_step sys {| lk_held := held; lk_sessions := <[i := {| se_namespace := ns; se_deploy_id := id |}]> (lk_sessions sys) |}
| lock_refused ns id e held :
    try_acquire ns id (lk_held sys) = (Err e, held) ->
    lock_step sys {| lk_held := held; lk_sessions := lk_sessions sys |}
| lock_close i s :
    lk_sessions sys !! i = Some s ->
    lock_step sys {| lk_held := lock_drop (se_namespace s) (lk_held sys); lk_sessions := delete i (lk_sessions sys) |}.

(** The table lists the open sessions, one per namespace. *)
Definition locks_match (sys : LockSystem) : Prop :=
  (forall i j s t, lk_sessions sys !! i = Some s -> lk_sessions sys !! j = Some t ->
     se_namespace s = se_namespace t -> i = j) /\
  (forall ns id, lk_held sys !! ns = Some id <->
     exists i, lk_sessions sys !! i = Some {| se_namespace := ns; se_deploy_id := id |}).

Lemma lock_step_match sys sys' : locks_match sys -> lock_step sys sys' -> locks_match sys'.
Proof.
  intros [Huniq Htab] Hstep. destruct Hstep as [i ns id held Hi Hacq|ns id e held Hacq|i s Hi].
  - unfold try_acquire in Hacq. destruct (lk_held sys !! ns) as [c|] eqn:Hns; [done|]. simplify_eq.
    assert (forall k s, lk_sessions sys !! k = Some s -> se_namespace s <> ns) as Hfree.
    { intros k [ns' id'] Hk Heq. simpl in Heq. subst ns'.
      assert (lk_held sys !! ns = Some id') as H1 by (apply Htab; eauto). congruence. }
    split; simpl.
    + intros k l s t. destruct (decide (k = i)) as [->|Hk], (decide (l = i)) as [->|Hl];
        rewrite ?lookup_insert_eq, ?(lookup_insert_ne _ i k), ?(lookup_insert_ne _ i l) by done; [done|..].
      * intros [= <-] Ht Heq. simpl in Heq. by destruct (Hfree l t Ht).
      * intros Hs [= <-] Heq. by destruct (Hfree k s Hs).
      * by apply Huniq.
    + intros ns' id'. destruct (decide (ns' = ns)) as [->|Hne].
      * rewrite lookup_insert_eq. split.
        -- intros [= <-]. exists i. by rewrite lookup_insert_eq.
        -- intros (k & Hk). destruct (decide (k = i)) as [->|Hki]; [rewrite lookup_insert_eq in Hk; by simplify_eq|].
           rewrite lookup_insert_ne in Hk by done. by destruct (Hfree k _ Hk).
      * rewrite lookup_insert_ne, Htab by done. split; intros (k & Hk).
        -- exists k. rewrite lookup_insert_ne; [done|]. intros ->. congruence.
        -- destruct (decide (k = i)) as [->|Hki]; [rewrite lookup_insert_eq in Hk; by simplify_eq|].
           rewrite lookup_insert_ne in Hk by done. eauto.
  - unfold try_acquire in Hacq. destruct (lk_held sys !! ns); simplify_eq. done.
  - split; simpl.
    + intros k l s' t. rewrite !lookup_delete_Some. intros [_ Hs] [_ Ht]. by apply (Huniq k l).
    + intros ns id. unfold lock_drop. rewrite lookup_delete_Some, Htab. setoid_rewrite lookup_delete_Some. split.
      * intros [Hne (k & Hk)]. exists k. split; [|done]. intros ->. simplify_eq.
      * intros (k & Hki & Hk). split; [|eauto]. intros Heq. apply Hki. by apply (Huniq i k s _ Hi Hk).
Qed.

(** Namespace locks exclude each other.  In every state reachable by opening
    and closing sessions in any order, at most one session is open per
    namespace, the lock table names exactly the deploys whose sessions are open,
    and acquiring a lock succeeds if and only if no open session has the
    namespace. *)
Theorem namespace_lock_exclusive (sys : LockSystem) :
  rtc lock_step {| lk_held := ∅; lk_sessions := ∅ |} sys ->
  (forall i j s t, lk_sessions sys !! i = Some s -> lk_sessions sys !! j = Some t ->
     se_namespace s = se_namespace t -> i = j) /\
  (forall ns id, lk_held sys !! ns = Some id <->
     exists i, lk_sessions sys !! i = Some {| se_namespace := ns; se_deploy_id := id |}) /\
  (forall ns id, is_ok (try_acquire ns id (lk_held sys)).1 = true <->
     forall i s, lk_sessions sys !! i = Some s -> se_namespace s <> ns).
Proof.
  intros Hr. assert (locks_match sys) as [Huniq Htab].
  { eapply rtc_ind_r with (P := locks_match); [| |exact Hr].
    - split; simpl; [done|]. intros ns id. rewrite lookup_empty. split; [done|]. by intros [i Hi].
    - intros s1 s2 _ Hs Hm. by eapply lock_step_match. }
  split_and!; [done..|]. intros ns id. unfold try_acquire. destruct (lk_held sys !! ns) as [c|] eqn:Hns; simpl.
  - split; [done|]. intros Hno. apply Htab in Hns as (i & Hi). by destruct (Hno i _ Hi).
  - split; [|done]. intros _ i [ns' id'] Hi Heq. simpl in Heq. subst ns'.
    assert (lk_held sys !! ns = Some id') as H1 by (apply Htab; eauto). congruence.
Qed.

Lemma namespace_lock_exclusive_witness :
  is_ok (try_acquire "prod" "d2" {["prod" := "d1"]}).1 <> true.
Proof.
  pose (s := {| se_namespace := "prod"; se_deploy_id := "d1" |}).
  assert (rtc lock_step {| lk_held := ∅; lk_sessions := ∅ |} {| lk_held := {["prod" := "d1"]}; lk_sessions := <[0 := s]> ∅ |}) as Hr.
  { apply rtc_once. by apply (lock_open {| lk_held := ∅; lk_sessions := ∅ |} 0 "prod" "d1"). }
  destruct (namespace_lock_exclusive _ Hr) as (_ & _ & Hacq). intros Hok.
  apply (proj1 (Hacq "prod" "d2") Hok 0 s); [apply lookup_insert_eq|reflexivity].
Defined.

Section lock_scope.
Context `{Build} `{SpecCodec} `{FrameCodec} {D : Type} `{Docker D} (env : AgentEnv) (self : DeployAgent).
Abbreviation A := (eff (World D) AgentCall Error).

Lemma store_call_locks {X} c (op : MemoryStore -> X * MemoryStore) : preserves aw_locks (store_call (D := D) env c op).
Proof. intros w log. unfold wp, store_call. destruct (ae_store env log c); [done|]. by destruct (op (aw_store w)). Qed.
Lemma in_docker_locks {X} (c : eff D DockerCall Error X) : preserves aw_locks (in_docker c).
Proof. intros w log. unfold wp, in_docker. by destruct (c (aw_docker w, [])) as [r [d calls]]. Qed.
#[local] Hint Resolve store_call_locks in_docker_locks : locks.

Ltac locks := repeat first [solve [eauto with locks] | preserves_step].

Lemma new_runtime_locks : preserves aw_locks (new_runtime (D := D) env self).
Proof. unfold new_runtime. locks. Qed.
Lemma status_record_locks ns i : preserves aw_locks (build_instance_status_record (D := D) env ns i).
Proof. unfold build_instance_status_record. locks. Qed.
#[local] Hint Resolve new_runtime_locks status_record_locks : locks.
Lemma find_local_locks ns id : preserves aw_locks (find_local_instance_status (D := D) env self ns id).
Proof. unfold find_local_instance_status, list_local_instance_status, store_list_instances. locks. Qed.
#[local] Hint Resolve find_local_locks : locks.
Lemma inspect_locks s : preserves aw_locks (agent_inspect_namespace (D := D) env self s).
Proof.
  unfold agent_inspect_namespace, adopt_if_connected, adopt_instances, list_local_instance_status,
    store_list_instances, adopt_instance, store_upsert_instance. locks.
Qed.
Lemma start_locks s service slot id d json :
  preserves aw_locks (agent_start_candidate (D := D) env self s service slot id d json).
Proof. unfold agent_start_candidate, runtime_wait_ready, store_upsert_instance. locks. Qed.
Lemma drain_locks s id : preserves aw_locks (agent_drain_instance (D := D) env self s id).
Proof. unfold agent_drain_instance, store_upsert_instance, agent_now. locks. Qed.
Lemma remove_locks s id : preserves aw_locks (agent_remove_instance (D := D) env self s id).
Proof. unfold agent_remove_instance, store_delete_instance. locks. Qed.
#[local] Hint Resolve inspect_locks start_locks drain_locks remove_locks : locks.

Lemma session_frame_locks s f : preserves aw_locks (handle_session_frame (D := D) env self s f).
Proof. unfold handle_session_frame, handle_session_frame_inner. locks. Qed.
#[local] Hint Resolve session_frame_locks : locks.
Lemma session_loop_locks s frames : preserves aw_locks (session_loop (D := D) env self s frames).
Proof. induction frames as [|[f|] frames IH]; simpl; locks. Qed.

(** Opening a session takes the lock if it succeeds and leaves the table alone if not. *)
Lemma open_session_locks ns id w log :
  wp (agent_open_session (D := D) env self ns id) (fun r w' _ =>
    match r with
    | Ok (s, _) => s = {| se_namespace := ns; se_deploy_id := id |} /\ aw_locks w !! ns = None /\
                   aw_locks w' = <[ns := id]> (aw_locks w)
    | Err _ => aw_locks w' = aw_locks w
    end) w log.
Proof.
  unfold agent_open_session. apply wp_bind. unfold wp at 1, acquire_lock, try_acquire.
  destruct (aw_locks w !! ns) as [c|] eqn:Hns; [done|].
  apply wp_bind, wp_try. eapply wp_mono; [apply inspect_locks|]. intros [instances|e] w' log' Hl; simpl in Hl.
  - by apply wp_ret.
  - apply wp_bind. unfold wp at 1, release_lock. apply wp_fail. simpl. rewrite Hl. unfold lock_drop.
    by rewrite delete_insert_id.
Qed.
End lock_scope.

(** The namespace lock is held exactly for a session.  Opening a session
    succeeds only if the namespace was free and then holds its lock for the
    deploy; a failed opening leaves the table as it was; no operation of a
    session touches it; and however a connection goes - a wrong first frame, a
    frame that cannot be decoded, failing operations, a close or a broken
    connection - the table is as before when it is over. *)
Theorem session_lock_scope `{Build} `{SpecCodec} `{FrameCodec} {D : Type} `{Docker D} (env : AgentEnv) (self : DeployAgent)
    (w : World D) (log : list AgentCall) :
  (forall ns id, wp (agent_open_session env self ns id) (fun r w' _ =>
     match r with
     | Ok (s, _) => s = {| se_namespace := ns; se_deploy_id := id |} /\ aw_locks w !! ns = None /\
                    aw_locks w' = <[ns := id]> (aw_locks w)
     | Err _ => aw_locks w' = aw_locks w
     end) w log) /\
  (forall s f, wp (handle_session_frame env self s f) (fun _ w' _ => aw_locks w' = aw_locks w) w log) /\
  (forall frames, wp (handle_connection env self frames) (fun _ w' _ => aw_locks w' = aw_locks w) w log).
Proof.
  split_and!.
  - intros ns id. apply open_session_locks.
  - intros s f. apply session_frame_locks.
  - intros frames. destruct frames as [|[f|] frames]; [done| |done].
    destruct f as [ns id co| | | | | | | | | |]; try done. simpl.
    apply wp_bind, wp_try. eapply wp_mono; [apply open_session_locks|].
    intros [[s instances]|e] w1 log1 Hopen; [|by apply wp_ret]. destruct Hopen as (-> & Hns & Hl).
    apply wp_bind, wp_try. eapply wp_mono; [apply session_loop_locks|]. intros r w2 log2 Hl2. simpl in Hl2.
    assert (aw_locks (with_locks (lock_drop ns (aw_locks w2)) w2) = aw_locks w) as Hend.
    { simpl. rewrite Hl2, Hl. unfold lock_drop. by rewrite delete_insert_id. }
    apply wp_bind. unfold wp at 1, release_lock. apply wp_bind, wp_lift. destruct r; [by apply wp_ret|done].
Qed.

(** ** Starting, draining and removing instances *)

Section outcomes.
Context `{Build} `{SpecCodec} {D : Type} `{Docker D} (env : AgentEnv) (self : DeployAgent).
Abbreviation A := (eff (World D) AgentCall Error).

(** The record of an instance of this machine in a namespace. *)
Definition local_instance (ns : Namespace) (id : InstanceId) (s : MemoryStore) : option InstanceStatusRecord :=
  snd <$> list_find (fun r => is_instance_id r = id)
            (filter (fun r => is_machine_id r = ag_local_machine_id self) (mem_list_instance_status ns s)).

Lemma local_instance_Some ns id s r :
  local_instance ns id s = Some r ->
  is_instance_id r = id /\ is_machine_id r = ag_local_machine_id self /\ is_namespace r = ns.
Proof.
  unfold local_instance. intros (Hr & Hid)%list_find_elem. apply list_elem_of_filter in Hr as [Hm Hr].
  unfold mem_list_instance_status in Hr. by apply list_elem_of_filter in Hr as [Hns _].
Qed.

(** A store call that succeeds, or fails and changes nothing. *)
Lemma wp_store_call {X} c (op : MemoryStore -> X * MemoryStore) (Q : Res X -> World D -> list AgentCall -> Prop) w log :
  (forall e, Q (Err e) w (log ++ [c])%list) ->
  (forall x s, op (aw_store w) = (x, s) -> Q (Ok x) (with_store s w) (log ++ [c])%list) ->
  wp (store_call env c op) Q w log.
Proof.
  intros He Ho. unfold wp, store_call. destruct (ae_store env log c) as [e|]; [by apply He|].
  destruct (op (aw_store w)) as [x s] eqn:E. by apply Ho.
Qed.

Lemma with_store_same (w : World D) : with_store (aw_store w) w = w.
Proof. by destruct w. Qed.

Lemma find_local_spec ns id (Q : Res (option InstanceStatusRecord) -> World D -> list AgentCall -> Prop) w log :
  (forall e log', Q (Err e) w log') -> (forall log', Q (Ok (local_instance ns id (aw_store w))) w log') ->
  wp (find_local_instance_status env self ns id) Q w log.
Proof.
  intros He Ho. unfold find_local_instance_status, list_local_instance_status, store_list_instances.
  apply wp_bind, wp_bind, wp_store_call; [done|]. intros x s [= <- <-]. rewrite with_store_same.
  apply wp_ret, wp_ret, Ho.
Qed.

Lemma new_runtime_spec (Q : Res LocalDeployRuntime -> World D -> list AgentCall -> Prop) w log :
  (forall e log', Q (Err e) w log') -> (forall rt log', Q (Ok rt) w log') -> wp (new_runtime env self) Q w log.
Proof. intros He Ho. unfold new_runtime. apply wp_bind, wp_call_ok. intros [e|]; [by apply wp_fail|by apply wp_ret]. Qed.

Lemma wp_in_docker {X} (c : eff D DockerCall Error X) (Q : Res X -> World D -> list AgentCall -> Prop) w log :
  (forall r d calls log', c (aw_docker w, []) = (r, (d, calls)) -> Q r (with_docker d w) log') ->
  wp (in_docker c) Q w log.
Proof. intros HQ. unfold wp, in_docker. destruct (c (aw_docker w, [])) as [r [d calls]] eqn:E. by eapply HQ. Qed.

Lemma wait_ready_spec spec inst (Q : Res unit -> World D -> list AgentCall -> Prop) w log :
  (forall e log', Q (Err e) w log') ->
  (forall log', (readiness_plan spec inst = Ok None \/
                 exists plan log0, readiness_plan spec inst = Ok (Some plan) /\ ae_probe env log0 plan = Ok tt) ->
                Q (Ok tt) w log') ->
  wp (runtime_wait_ready env spec inst) Q w log.
Proof.
  intros He Ho. unfold runtime_wait_ready. apply wp_bind, wp_lift.
  destruct (readiness_plan spec inst) as [[plan|]|e] eqn:Hp; [|by apply wp_ret, Ho; left|done].
  apply wp_bind, wp_try, wp_call. destruct (ae_probe env log plan) as [[]|e] eqn:E; [|by apply wp_fail].
  apply wp_ret, Ho. right. eauto.
Qed.

Lemma status_record_spec ns inst (Q : Res InstanceStatusRecord -> World D -> list AgentCall -> Prop) w log :
  (forall t1 t2 log', Q (Ok (to_status_record inst ns IpReady true DsNone None t1 t2)) w log') ->
  wp (build_instance_status_record env ns inst) Q w log.
Proof.
  intros HQ. unfold build_instance_status_record, agent_now.
  apply wp_bind, wp_call_ok. intros t1. apply wp_bind, wp_call_ok. intros t2. apply wp_ret, HQ.
Qed.
End outcomes.


(** Draining and removing touch only an instance of this machine.  Both
    act on the record this machine has of the instance in the session's
    namespace, and do nothing if it has none.  Draining marks it as draining and
    not ready, once; removing deletes the record only after the engine removed
    the container.  Every failure leaves the store as it was. *)
Theorem drain_remove_outcome `{Build} {D : Type} `{Docker D} (env : AgentEnv) (self : DeployAgent)
    (session : SessionState) instance_id (w : World D) log :
  let found := local_instance self (se_namespace session) instance_id (aw_store w) in
  (forall r, found = Some r -> is_instance_id r = instance_id /\
     is_machine_id r = ag_local_machine_id self /\ is_namespace r = se_namespace session) /\
  wp (agent_drain_instance env self session instance_id) (fun r w' _ =>
    aw_docker w' = aw_docker w /\
    match r, found with
    | Ok _, Some status => if decide (is_phase status = IpDraining) then w' = w
                           else exists now, aw_store w' = mem_upsert_instance_status (drained status now) (aw_store w)
    | _, _ => aw_store w' = aw_store w
    end) w log /\
  wp (agent_remove_instance env self session instance_id) (fun r w' _ =>
    match r, found with
    | Ok _, Some status =>
        aw_store w' = mem_delete_instance_status instance_id (aw_store w) /\
        exists calls, runtime_remove_instance instance_id (se_namespace session) (is_service status) (aw_docker w, []) =
                      (Ok tt, (aw_docker w', calls))
    | Ok _, None => w' = w
    | Err _, _ => aw_store w' = aw_store w
    end) w log.
Proof.
  intros found. split_and!.
  - intros r Hr. by apply local_instance_Some in Hr.
  - unfold agent_drain_instance. apply wp_bind, find_local_spec; [done|]. intros log1. fold found.
    destruct found as [st|]; [|by apply wp_ret]. destruct (decide (is_phase st = IpDraining)); [by apply wp_ret|].
    apply wp_bind. unfold agent_now. apply wp_call_ok. intros now. apply wp_store_call; [done|].
    intros x s [= <- <-]. split; [done|]. by exists now.
  - unfold agent_remove_instance. apply wp_bind, find_local_spec; [done|]. intros log1.
    pose proof (local_instance_Some self (se_namespace session) instance_id (aw_store w)) as Hs. fold found in Hs |- *.
    destruct found as [st|]; [|by apply wp_ret]. destruct (Hs st eq_refl) as (Hid & _).
    apply wp_bind, new_runtime_spec; [done|]. intros rt log2. apply wp_bind, wp_in_docker.
    intros [[]|e] d calls log3 Hd; [|done]. apply wp_store_call; [done|]. intros x s [= <- <-].
    rewrite Hid in *. split; [done|]. eauto.
Qed.

(** ** A candidate that failed is adopted *)

Definition sample_env : AgentEnv := {|
  ae_store := fun _ _ => None; ae_connect := fun _ => None;
  ae_probe := fun _ _ => Err not_ready; ae_now := fun _ => 5%N |}.
Definition sample_agent : DeployAgent := {|
  ag_local_machine_id := "m1"; ag_overlay_network_name := Some "ployz-alpha"; ag_overlay_dns_server := None |}.
Definition sample_codec : SpecCodec := {|
  spec_to_json := fun s => Ok (ss_name s); spec_from_json := fun _ => Ok sample_service |}.
Definition sample_world : World ref_docker := {| aw_store := memory_new; aw_docker := ∅; aw_locks := ∅ |}.
Definition sample_session : SessionState := {| se_namespace := "prod"; se_deploy_id := "d1" |}.

(** A candidate that did not become ready is adopted as ready.  Starting
    it fails and writes no record, but its container stays; the next time the
    namespace is inspected, also when the next deploy opens its session, the
    container is taken over with phase ready, without a probe. *)
Theorem failed_candidate_adopted :
  let start := agent_start_candidate (H := {| overflow_checks := true |}) (H0 := sample_codec) sample_env sample_agent
                 sample_session "api" "slot-0001" "i1" "d1" "json" (sample_world, []) in
  is_ok start.1 = false /\ mem_list_instance_status "prod" (aw_store start.2.1) = [] /\
  exists r, (agent_inspect_namespace sample_env sample_agent sample_session start.2).1 = Ok [r] /\
    is_instance_id r = "i1" /\ is_phase r = IpReady /\ is_ready r = true.
Proof.
  vm_compute. split_and!; [done..|]. eexists. split_and!; reflexivity.
Qed.
