(* ===== verification/Client.v ===== *)
(** * The Corrosion client

    [ployz-corrosion/src/client.rs]: how a reply of the Corrosion service is cut
    into lines ([LinesBytesCodec]), how queries and statements are sent and their
    replies classified ([CorrClient]), and the subscription stream that reconnects
    after a broken connection ([SubscriptionStream]).  The HTTP client, the JSON
    decoders and the service itself are parameters: a reply body is the list of
    the chunks that arrive, ended by an I/O error or by the end of the body. *)

From S2P Require Import Prelude Order Text Types Addr.
Local Open Scope string_scope.

(** ** Values and events of the service ([corro_api_types]) *)

Inductive SqliteValue :=
| SvNull | SvInteger (i : Z) | SvReal (bits : N) | SvText (s : string) | SvBlob (b : list N).
#[global] Instance SqliteValue_eq_dec : EqDecision SqliteValue.
Proof. solve_decision. Defined.
Inductive ChangeType := CtInsert | CtUpdate | CtDelete.
Inductive QueryEvent :=
| EvColumns (columns : list string)
| EvRow (rowid : N) (cells : list SqliteValue)
| EvEndOfQuery (change_id : option N)
| EvChange (change_type : ChangeType) (rowid : N) (cells : list SqliteValue) (change_id : N)
| EvError (e : string).
Inductive Statement := Simple (sql : string) | WithParams (sql : string) (params : list SqliteValue).
Inductive ExecResult := ExecExecute (rows_affected : N) | ExecError (error : string).

(** ** Cutting a body into lines ([LinesBytesCodec]) *)

Abbreviation bytes := (list ascii) (only parsing).
Definition lf : ascii := ascii_of_N 10.
Definition cr : ascii := ascii_of_N 13.
Definition usize_max : N := u64_max.
Definition saturating_add_usize (a b : N) : N := N.min (a + b) usize_max.

Record LinesBytesCodec := { next_index : nat; max_length : N; is_discarding : bool }.
Inductive LinesCodecError := MaxLineLengthExceeded | LcIo (e : string).
Definition codec_default : LinesBytesCodec :=
  {| next_index := 0; max_length := usize_max; is_discarding := false |}.

(** [if let Some(&b'\r') = line.last() { line.truncate(line.len() - 1) }]. *)
Definition strip_cr (line : bytes) : bytes :=
  match last line with
  | Some c => if decide (c = cr) then take (length line - 1) line else line
  | None => line
  end.

(** [decode]; it loops while it discards the rest of a line that is too long. *)
Fixpoint decode_loop (fuel : nat) (self : LinesBytesCodec) (buf : bytes)
    : option (result LinesCodecError (option bytes) * LinesBytesCodec * bytes) :=
  match fuel with
  | O => None
  | S fuel =>
      let read_to := N.to_nat (N.min (saturating_add_usize (max_length self) 1) (N.of_nat (length buf))) in
      if (read_to <? next_index self)%nat
      then Some (Err (LcIo "line codec cursor exceeded buffer bounds"), self, buf)
      else
      let search_window := take (read_to - next_index self) (drop (next_index self) buf) in
      let newline_offset := fst <$> list_find (fun b => b = lf) search_window in
      let at_start discarding := {| next_index := 0; max_length := max_length self; is_discarding := discarding |} in
      match is_discarding self, newline_offset with
      | true, Some offset => decode_loop fuel (at_start false) (drop (offset + next_index self + 1) buf)
      | true, None =>
          let buf := drop read_to buf in
          match buf with
          | [] => Some (Ok None, at_start true, buf)
          | _ => decode_loop fuel (at_start true) buf
          end
      | false, Some offset =>
          let newline_index := (offset + next_index self)%nat in
          Some (Ok (Some (strip_cr (take newline_index buf))), at_start false, drop (newline_index + 1) buf)
      | false, None =>
          if (max_length self <? N.of_nat (length buf))%N
          then Some (Err MaxLineLengthExceeded,
                     {| next_index := next_index self; max_length := max_length self; is_discarding := true |}, buf)
          else Some (Ok None, {| next_index := read_to; max_length := max_length self; is_discarding := false |}, buf)
      end
  end.
Definition decode (self : LinesBytesCodec) (buf : bytes) := decode_loop (length buf + 2) self buf.

(** [decode_eof], for what is left when the body has ended. *)
Definition decode_eof (self : LinesBytesCodec) (buf : bytes)
    : option (result LinesCodecError (option bytes) * LinesBytesCodec * bytes) :=
  match decode self buf with
  | Some (Ok None, self, buf) =>
      if decide (buf = [] \/ buf = [cr]) then Some (Ok None, self, buf)
      else Some (Ok (Some (strip_cr (take (length buf - 1) buf))),
                 {| next_index := 0; max_length := max_length self; is_discarding := is_discarding self |}, [])
  | r => r
  end.

(** [FramedRead]: decode as often as a line is found, then read on; decode what
    is left at the end of the body; stop at an error. *)
Definition CodecStep := (LinesBytesCodec -> bytes -> option (result LinesCodecError (option bytes) * LinesBytesCodec * bytes)).
Fixpoint drain (step : CodecStep) (fuel : nat) (self : LinesBytesCodec) (buf : bytes)
    : list (result LinesCodecError bytes) * option (LinesBytesCodec * bytes) :=
  match fuel with
  | O => ([], None)
  | S fuel =>
      match step self buf with
      | Some (Ok (Some line), self, buf) => let '(items, rest) := drain step fuel self buf in (Ok line :: items, rest)
      | Some (Ok None, self, buf) => ([], Some (self, buf))
      | Some (Err e, _, _) => ([Err e], None)
      | None => ([], None)
      end
  end.
Abbreviation Body := (list (result string bytes)) (only parsing).
Abbreviation Lines := (list (result LinesCodecError bytes)) (only parsing).
Fixpoint framed (self : LinesBytesCodec) (buf : bytes) (body : Body) : Lines :=
  match body with
  | [] => (drain decode_eof (length buf + 1) self buf).1
  | Err e :: _ => [Err (LcIo e)]
  | Ok chunk :: body =>
      let buf := (buf ++ chunk)%list in
      let '(items, rest) := drain decode (length buf + 1) self buf in
      match rest with
      | Some (self, buf) => (items ++ framed self buf body)%list
      | None => items
      end
  end.
Definition framed_body (body : Body) : Lines := framed codec_default [] body.

(** *** The lines of a body, whatever its chunks *)

(** The complete lines, and what follows the last line end. *)
Fixpoint split_lines (body : bytes) : list bytes * bytes :=
  match body with
  | [] => ([], [])
  | b :: body =>
      let '(lines, rest) := split_lines body in
      if decide (b = lf) then ([] :: lines, rest)
      else match lines with [] => ([], b :: rest) | l :: lines => ((b :: l) :: lines, rest) end
  end.

Lemma split_lines_none buf : lf ∉ buf -> split_lines buf = ([], buf).
Proof.
  induction buf as [|b buf IH]; intros Hn; simpl; [done|]. rewrite IH by set_solver.
  rewrite decide_False; [done|]. set_solver.
Qed.
Lemma split_lines_app l rest : lf ∉ l ->
  split_lines (l ++ lf :: rest)%list = (l :: (split_lines rest).1, (split_lines rest).2).
Proof.
  induction l as [|b l IH]; intros Hn; simpl.
  - by destruct (split_lines rest).
  - rewrite IH by set_solver. cbn. rewrite decide_False; [done|]. set_solver.
Qed.
Lemma split_lines_rest_free buf : lf ∉ (split_lines buf).2.
Proof.
  induction buf as [|b buf IH]; simpl; [set_solver|]. destruct (split_lines buf) as [lines rest].
  case_decide; [done|]. destruct lines; [set_solver|done].
Qed.
Lemma first_lf buf : lf ∉ buf \/ exists l rest, buf = (l ++ lf :: rest)%list /\ lf ∉ l.
Proof.
  induction buf as [|b buf IH]; [left; set_solver|]. destruct (decide (b = lf)) as [->|Hb].
  - right. exists [], buf. split; [done|set_solver].
  - destruct IH as [Hn|(l & rest & -> & Hl)]; [left; set_solver|].
    right. exists (b :: l), rest. split; [done|set_solver].
Qed.

Lemma drop_elem {A} (x : A) n l : x ∈ drop n l -> x ∈ l.
Proof. intros H. rewrite <- (take_drop n l). apply elem_of_app. by right. Qed.
Lemma take_elem {A} (x : A) n l : x ∈ take n l -> x ∈ l.
Proof. intros H. rewrite <- (take_drop n l). apply elem_of_app. by left. Qed.

(** A codec that is not discarding and has searched a prefix without line end. *)
Definition searched (self : LinesBytesCodec) (buf : bytes) : Prop :=
  is_discarding self = false /\ (N.of_nat (length buf) <= max_length self)%N /\
  (next_index self <= length buf)%nat /\ lf ∉ take (next_index self) buf.

Lemma read_to_all self (buf : bytes) : (max_length self <= usize_max)%N -> (N.of_nat (length buf) <= max_length self)%N ->
  N.to_nat (N.min (saturating_add_usize (max_length self) 1) (N.of_nat (length buf))) = length buf.
Proof. unfold saturating_add_usize. lia. Qed.

Lemma decode_line self l rest : (max_length self <= usize_max)%N -> searched self (l ++ lf :: rest)%list -> lf ∉ l ->
  decode self (l ++ lf :: rest)%list =
  Some (Ok (Some (strip_cr l)), {| next_index := 0; max_length := max_length self; is_discarding := false |}, rest).
Proof.
  intros Hmax (Hd & Hlen & Hni & Hfree) Hl. unfold decode. rewrite Nat.add_comm. cbn [decode_loop Nat.add].
  rewrite read_to_all by done. rewrite (proj2 (Nat.ltb_ge _ _)) by done. rewrite Hd.
  assert (next_index self <= length l)%nat as Hle.
  { destruct (decide (next_index self <= length l)%nat) as [|Hgt]; [done|exfalso]. apply Hfree.
    rewrite take_app_ge by lia. destruct (next_index self - length l)%nat eqn:E; [lia|]. simpl. set_solver. }
  rewrite drop_app_le by done.
  assert (list_find (fun b => b = lf) (take (length (l ++ lf :: rest)%list - next_index self)
    (drop (next_index self) l ++ lf :: rest)%list) = Some ((length l - next_index self)%nat, lf)) as ->.
  { rewrite take_ge by (rewrite !length_app, length_drop; simpl; lia).
    apply list_find_Some. rewrite lookup_app_r by (rewrite length_drop; lia).
    rewrite length_drop, Nat.sub_diag. split_and!; [done..|]. intros j y Hj Hjl ->.
    rewrite lookup_app_l in Hj by (rewrite length_drop; lia). apply list_elem_of_lookup_2 in Hj.
    apply Hl. by eapply drop_elem. }
  simpl. rewrite Nat.sub_add by done. rewrite take_app_length, <- Nat.add_1_r.
  by rewrite drop_app_ge, Nat.add_comm, Nat.add_sub by lia.
Qed.

Lemma decode_none self buf : (max_length self <= usize_max)%N -> searched self buf -> lf ∉ buf ->
  decode self buf =
  Some (Ok None, {| next_index := length buf; max_length := max_length self; is_discarding := false |}, buf).
Proof.
  intros Hmax (Hd & Hlen & Hni & Hfree) Hn. unfold decode. rewrite Nat.add_comm. cbn [decode_loop Nat.add].
  rewrite read_to_all by done. rewrite (proj2 (Nat.ltb_ge _ _)) by done. rewrite Hd.
  rewrite (proj2 (list_find_None _ _)).
  - simpl. by rewrite (proj2 (N.ltb_ge _ _)) by done.
  - apply Forall_forall. intros x Hx ->. apply Hn. by eapply drop_elem, take_elem.
Qed.

Lemma split_lines_more buf more :
  split_lines (buf ++ more)%list =
  (((split_lines buf).1 ++ (split_lines ((split_lines buf).2 ++ more)%list).1)%list,
   (split_lines ((split_lines buf).2 ++ more)%list).2).
Proof.
  induction buf as [|b buf IH]; simpl; [by destruct (split_lines more)|]. rewrite IH.
  destruct (split_lines buf) as [[|l lines] rest]; simpl; case_decide; simpl; try done.
  all: destruct (split_lines (rest ++ more)) as [[|??] ?]; simpl; by rewrite ?decide_False by done.
Qed.

Lemma drain_decode fuel self buf :
  (max_length self <= usize_max)%N -> searched self buf -> (length buf < fuel)%nat ->
  drain decode fuel self buf =
  ((fun l => Ok (strip_cr l)) <$> (split_lines buf).1,
   Some ({| next_index := length (split_lines buf).2; max_length := max_length self; is_discarding := false |},
         (split_lines buf).2)).
Proof.
  revert self buf. induction fuel as [|fuel IH]; intros self buf Hmax Hs Hf; [lia|]. cbn [drain].
  destruct (first_lf buf) as [Hn|(l & rest & -> & Hl)].
  - by rewrite decode_none, split_lines_none by done.
  - rewrite decode_line, split_lines_app by done. rewrite length_app in Hf. simpl in Hf.
    destruct Hs as (_ & Hlen & _). rewrite length_app in Hlen. simpl in Hlen.
    rewrite IH; [done|done| |lia]. split_and!; simpl; [done|lia|lia|set_solver].
Qed.

(** What the codec makes of the bytes after the last line end. *)
Definition tail_line (rest : bytes) : Lines :=
  if decide (rest = [] \/ rest = [cr]) then [] else [Ok (strip_cr (take (length rest - 1) rest))].

Lemma drain_eof self buf :
  (max_length self <= usize_max)%N -> searched self buf -> lf ∉ buf ->
  (drain decode_eof (length buf + 1) self buf).1 = tail_line buf.
Proof.
  intros Hmax Hs Hn. rewrite Nat.add_comm. cbn [drain Nat.add]. unfold decode_eof at 1, tail_line.
  rewrite decode_none by done. case_decide as Hb; [done|]. destruct buf as [|b buf]; [tauto|].
  cbn [length drain]. unfold decode_eof. rewrite decode_none; [by rewrite decide_True by auto|done| |set_solver].
  split_and!; simpl; [done|lia|lia|set_solver].
Qed.

Lemma framed_chunks self buf chunks :
  (max_length self <= usize_max)%N -> searched self buf -> lf ∉ buf ->
  (N.of_nat (length (buf ++ concat chunks)) <= max_length self)%N ->
  framed self buf (Ok <$> chunks) =
  (((fun l => Ok (strip_cr l)) <$> (split_lines (buf ++ concat chunks)%list).1) ++
   tail_line (split_lines (buf ++ concat chunks)%list).2)%list.
Proof.
  revert self buf. induction chunks as [|c chunks IH]; intros self buf Hmax (Hd & Hlen & Hni & Hfree) Hn Hall.
  - simpl. rewrite app_nil_r, drain_eof, split_lines_none by done. done.
  - cbn [framed fmap list_fmap concat] in Hall |- *. rewrite app_assoc in Hall |- *. rewrite length_app in Hall.
    assert (searched self (buf ++ c)) as Hs.
    { split_and!; [done|lia|rewrite length_app; lia|]. rewrite take_app_le by done. intros H. by apply take_elem in H. }
    rewrite drain_decode by (done || lia).
    rewrite (split_lines_more (buf ++ c)%list). cbn [fst snd]. rewrite fmap_app, <- app_assoc. f_equal. clear Hs Hni Hfree Hlen.
    pose proof (split_lines_rest_free (buf ++ c)) as Hrest.
    assert (length (split_lines (buf ++ c)%list).2 <= length (buf ++ c))%nat as Hlen.
    { generalize (buf ++ c)%list. intros l. induction l as [|b l IHl]; simpl; [done|].
      destruct (split_lines l) as [[|??] ?]; case_decide; simpl in *; lia. }
    apply IH; simpl; [done| |done|].
    + split_and!; simpl; [done|lia|lia|]. intros H. by apply take_elem in H.
    + rewrite length_app. lia.
Qed.

(** C37: The lines of a reply do not depend on how it is cut into chunks.
    However the bytes of a body arrive, the client's line codec gives exactly the
    body's complete lines, in order and without their line ends, provided the body
    is shorter than the largest [usize]; the bytes after the last line end become
    a line only at the end of the body, and that line lacks its last byte. *)
Theorem lines_any_chunks (chunks : list bytes) :
  (N.of_nat (length (concat chunks)) <= usize_max)%N ->
  framed_body (Ok <$> chunks) =
  (((fun l => Ok (strip_cr l)) <$> (split_lines (concat chunks)).1) ++ tail_line (split_lines (concat chunks)).2)%list.
Proof.
  intros Hlen. unfold framed_body. rewrite framed_chunks; simpl; [done|done| |set_solver|done].
  split_and!; simpl; [done|lia|lia|set_solver].
Qed.

Lemma lines_any_chunks_witness :
  framed_body (Ok <$> [bytes_of "ab"; bytes_of ("c" +:+ of_bytes [cr; lf] +:+ "d"); lf :: bytes_of "xyz"]) =
  [Ok (bytes_of "abc"); Ok (bytes_of "d"); Ok (bytes_of "xy")].
Proof.
  rewrite (lines_any_chunks [bytes_of "ab"; bytes_of ("c" +:+ of_bytes [cr; lf] +:+ "d"); lf :: bytes_of "xyz"])
    by (vm_compute; discriminate).
  vm_compute. reflexivity.
Defined.

(** Decoding always ends, also while it discards a line that is too long. *)
Lemma decode_loop_total fuel self buf :
  (length buf + (if is_discarding self then 1 else 0) < fuel)%nat -> is_Some (decode_loop fuel self buf).
Proof.
  revert self buf. induction fuel as [|fuel IH]; intros self buf Hf; [lia|]. cbn [decode_loop].
  destruct (_ <? next_index self)%nat; [done|]. destruct (is_discarding self).
  - destruct (fst <$> _) as [offset|]; [apply IH; simpl; rewrite length_drop; lia|].
    destruct (drop _ buf) as [|b rest] eqn:E; [done|]. apply IH. simpl.
    apply (f_equal length) in E. rewrite length_drop in E. simpl in E.
    destruct buf as [|b' buf]; [simpl in E; lia|]. 
    assert (1 <= saturating_add_usize (max_length self) 1)%N as Hsat
      by (unfold saturating_add_usize, usize_max, u64_max; lia).
    revert E Hsat. generalize (saturating_add_usize (max_length self) 1). simpl length in *. lia.
  - destruct (fst <$> _) as [offset|]; [done|]. by destruct (_ <? _)%N.
Qed.
Lemma decode_total self buf : is_Some (decode self buf).
Proof. apply decode_loop_total. destruct (is_discarding self); lia. Qed.

(** ** Requests and replies ([CorrClient]) *)

Inductive ClientError :=
| CeTransport (e : string)            (* Hyper, HyperHttp, InvalidUri, Io, BodyCollect *)
| CeJson (e : string)
| CeUnexpectedStatusCode (status : N)
| CeResponseError (e : string)
| CeExpectedQueryId.

Record Request := { rq_method : string; rq_url : string; rq_body : option string }.
Record Response := { rs_status : N; rs_query_id : option string; rs_body : Body }.
Definition is_success (status : N) : bool := ((200 <=? status) && (status <? 300))%N.

(** [hyper], [serde_json] and the texts of their errors. *)
Class HttpEnv := {
  http_send : Request -> result string Response;
  statements_json : list Statement -> result string string;
  statement_json : Statement -> result string string;
  exec_response_from : bytes -> result string (list ExecResult);
  exec_result_from : bytes -> result string ExecResult;
  health_from : bytes -> result string (Z * Z);       (* gaps and members *)
  status_display : N -> string
}.
Definition client_error_to_string `{HttpEnv} (e : ClientError) : string :=
  match e with
  | CeTransport e | CeJson e | CeResponseError e => e
  | CeUnexpectedStatusCode status => "unexpected status code: " +:+ status_display status
  | CeExpectedQueryId => "could not retrieve subscription id from headers"
  end.

(** [body.collect().await?.to_bytes()]. *)
Fixpoint collect_body (body : Body) : result ClientError bytes :=
  match body with
  | [] => Ok []
  | Err e :: _ => Err (CeTransport e)
  | Ok chunk :: body => rest <-? collect_body body ;; Ok (chunk ++ rest)%list
  end.
Definition is_exec_error (r : ExecResult) : bool := match r with ExecError _ => true | _ => false end.

Section corr_client.
Context `{HttpEnv} (base_url : string).

Definition post (path body : string) : Request :=
  {| rq_method := "POST"; rq_url := base_url +:+ path; rq_body := Some body |}.
Definition get (path : string) : Request := {| rq_method := "GET"; rq_url := base_url +:+ path; rq_body := None |}.
Definition send (r : Request) : result ClientError Response := map_err CeTransport (http_send r).
Definition with_timeout (path : string) (timeout : option N) : string :=
  match timeout with Some t => path +:+ "?timeout=" +:+ dec t | None => path end.

Definition client_schema (statements : list Statement) : result ClientError (list ExecResult) :=
  body <-? map_err CeJson (statements_json statements) ;;
  resp <-? send (post "/v1/migrations" body) ;;
  reply <-? collect_body (rs_body resp) ;;
  if is_success (rs_status resp) then map_err CeJson (exec_response_from reply)
  else Err (CeUnexpectedStatusCode (rs_status resp)).

(** A failed statement answered with an error status keeps its message. *)
Definition client_execute (statements : list Statement) (timeout : option N) : result ClientError (list ExecResult) :=
  body <-? map_err CeJson (statements_json statements) ;;
  resp <-? send (post (with_timeout "/v1/transactions" timeout) body) ;;
  reply <-? collect_body (rs_body resp) ;;
  if is_success (rs_status resp) then map_err CeJson (exec_response_from reply)
  else match exec_response_from reply with
       | Ok results =>
           match snd <$> list_find (fun r => is_exec_error r = true) results with
           | Some (ExecError error) => Err (CeResponseError error)
           | _ => Err (CeUnexpectedStatusCode (rs_status resp))
           end
       | Err _ => Err (CeUnexpectedStatusCode (rs_status resp))
       end.

Definition client_query (statement : Statement) (timeout : option N) : result ClientError Lines :=
  body <-? map_err CeJson (statement_json statement) ;;
  resp <-? send (post (with_timeout "/v1/queries" timeout) body) ;;
  if is_success (rs_status resp) then Ok (framed_body (rs_body resp))
  else
  reply <-? collect_body (rs_body resp) ;;
  match exec_result_from reply with
  | Ok (ExecError error) => Err (CeResponseError error)
  | _ => Err (CeUnexpectedStatusCode (rs_status resp))
  end.

Definition subscribe_request (statement : Statement) (skip_rows : bool) (from : option N)
    : result ClientError (string * Lines) :=
  let url := "/v1/subscriptions?skip_rows=" +:+ (if skip_rows then "true" else "false") +:+
             match from with Some change_id => "&from=" +:+ dec change_id | None => "" end in
  body <-? map_err CeJson (statement_json statement) ;;
  resp <-? send (post url body) ;;
  if is_success (rs_status resp) then
    id <-? ok_or (rs_query_id resp) CeExpectedQueryId ;; Ok (id, framed_body (rs_body resp))
  else Err (CeUnexpectedStatusCode (rs_status resp)).

Definition resubscribe (id : string) (from : option N) : result ClientError Lines :=
  resp <-? send (get ("/v1/subscriptions/" +:+ id +:+ "?from=" +:+ dec (default 0%N from))) ;;
  if is_success (rs_status resp) then Ok (framed_body (rs_body resp))
  else Err (CeUnexpectedStatusCode (rs_status resp)).

Definition client_health : result ClientError (Z * Z) :=
  resp <-? send (get "/v1/health?gaps=0") ;;
  reply <-? collect_body (rs_body resp) ;;
  if is_success (rs_status resp) then map_err CeJson (health_from reply)
  else Err (CeUnexpectedStatusCode (rs_status resp)).
End corr_client.

(** ** Query and subscription streams *)

(** [serde_json] on the lines of a stream: with typed rows, and without. *)
Class EventCodec := {
  event_from_slice : bytes -> result string QueryEvent;
  untyped_from_slice : bytes -> result string QueryEvent
}.

Inductive QueryError := QeIo (e : string) | QeDeserialize (e : string) | QeMaxLineLengthExceeded.

(** [QueryStream::poll_next] on each line. *)
Definition query_item `{EventCodec} (item : result LinesCodecError bytes) : result QueryError QueryEvent :=
  match item with
  | Ok b => map_err QeDeserialize (event_from_slice b)
  | Err MaxLineLengthExceeded => Err QeMaxLineLengthExceeded
  | Err (LcIo e) => Err (QeIo e)
  end.

Inductive SubscriptionError :=
| SeIo (e : string) | SeDeserialize (e : string) | SeMissedChange (expected got : N)
| SeMaxLineLengthExceeded | SeUnfinishedQuery | SeMaxRetryAttempts.

(** The stream: its connection is what is left to read of the current reply. *)
Record SubscriptionStream := {
  observed_eoq : bool; last_change_id : option N; connection : option Lines; backoff_count : N
}.
Definition subscription_new (body : Lines) (change_id : option N) : SubscriptionStream := {|
  observed_eoq := bool_decide (is_Some change_id); last_change_id := change_id;
  connection := Some body; backoff_count := 0 |}.

Definition handle_eoq (change_id : option N) (self : SubscriptionStream) : SubscriptionStream := {|
  observed_eoq := true; last_change_id := change_id; connection := connection self; backoff_count := backoff_count self |}.
Definition handle_change (change_id : N) (self : SubscriptionStream)
    : result SubscriptionError unit * SubscriptionStream :=
  match last_change_id self with
  | Some id =>
      if decide (id + 1 <> change_id)%N then (Err (SeMissedChange (id + 1) change_id), self)
      else (Ok tt, {| observed_eoq := observed_eoq self; last_change_id := Some change_id;
                      connection := connection self; backoff_count := backoff_count self |})
  | None => (Ok tt, {| observed_eoq := observed_eoq self; last_change_id := Some change_id;
                       connection := connection self; backoff_count := backoff_count self |})
  end.
Definition with_connection (c : option Lines) (self : SubscriptionStream) : SubscriptionStream := {|
  observed_eoq := observed_eoq self; last_change_id := last_change_id self; connection := c;
  backoff_count := backoff_count self |}.
Definition with_backoff (n : N) (self : SubscriptionStream) : SubscriptionStream := {|
  observed_eoq := observed_eoq self; last_change_id := last_change_id self; connection := connection self;
  backoff_count := n |}.

Inductive Poll (A : Type) := Pending | Ready (a : A).
Arguments Pending {A}.
Arguments Ready {A} a.

Section subscription.
Context `{EventCodec}.
(** What the service answers to the next reconnection, given those before. *)
Variable reconnect : list (option N) -> option N -> result string Lines.
Abbreviation Item := (option (result SubscriptionError QueryEvent)).
Abbreviation State := (SubscriptionStream * list (option N))%type.

Definition poll_reconnect (st : State) : result SubscriptionError Lines * State :=
  let '(self, log) := st in
  if observed_eoq self
  then (map_err SeIo (reconnect log (last_change_id self)), (self, (log ++ [last_change_id self])%list))
  else (Err SeUnfinishedQuery, st).

(** The metadata of an event that was received. *)
Definition observe_event (evt : QueryEvent) (self : SubscriptionStream)
    : result SubscriptionError unit * SubscriptionStream :=
  match evt with
  | EvEndOfQuery change_id => (Ok tt, handle_eoq change_id self)
  | EvChange _ _ _ change_id => handle_change change_id self
  | _ => (Ok tt, self)
  end.

Definition poll_connection (lines : Lines) (self : SubscriptionStream) : Item * SubscriptionStream :=
  match lines with
  | [] => (None, self)
  | Ok b :: rest =>
      let self := with_connection (Some rest) self in
      match event_from_slice b with
      | Ok evt =>
          let '(r, self) := observe_event evt self in
          (Some (match r with Ok _ => Ok evt | Err e => Err e end), self)
      | Err deser_err =>
          let self := match untyped_from_slice b with Ok evt => (observe_event evt self).2 | Err _ => self end in
          (Some (Err (SeDeserialize deser_err)), self)
      end
  | Err MaxLineLengthExceeded :: rest => (Some (Err SeMaxLineLengthExceeded), with_connection (Some rest) self)
  | Err (LcIo e) :: rest => (Some (Err (SeIo e)), with_connection (Some rest) self)
  end.

Definition poll_stream (st : State) : Item * State :=
  let '(self, log) := st in
  match connection self with
  | Some lines => let '(item, self) := poll_connection lines self in (item, (self, log))
  | None =>
      match poll_reconnect st with
      | (Err e, st) => (Some (Err e), st)
      | (Ok lines, (self, log)) =>
          let '(item, self) := poll_connection lines (with_connection (Some lines) self) in (item, (self, log))
      end
  end.

(** [poll_next]: an I/O error drops the connection and is retried after a
    second, at most ten times in a row. *)
Definition retry_io (item : Item) (st : State) : Poll Item * State :=
  let '(self, log) := st in
  match item with
  | Some (Err (SeIo _)) =>
      let self := with_connection None self in
      if (10 <=? backoff_count self)%N then (Ready (Some (Err SeMaxRetryAttempts)), (self, log))
      else (Pending, (with_backoff (backoff_count self + 1) self, log))
  | _ => (Ready item, (with_backoff 0 self, log))
  end.
Definition poll_next (st : State) : Poll Item * State :=
  let '(item, st) := poll_stream st in retry_io item st.

(** [stream.next().await]: polled again whenever the wait is over. *)
Fixpoint sub_next (fuel : nat) (st : State) : option (Item * State) :=
  match fuel with
  | O => None
  | S fuel =>
      match poll_next st with
      | (Ready item, st) => Some (item, st)
      | (Pending, st) => sub_next fuel st
      end
  end.
Definition RETRY_FUEL : nat := 11.

(** The items of [n] calls of [next]. *)
Fixpoint sub_run (n : nat) (st : State) : list Item * State :=
  match n with
  | O => ([], st)
  | S n => match sub_next RETRY_FUEL st with
           | Some (item, st) => let '(items, st) := sub_run n st in (item :: items, st)
           | None => ([], st)
           end
  end.
End subscription.

(** *** A call of [next] ends *)

Section next_total.
Context `{EventCodec} (reconnect : list (option N) -> option N -> result string Lines).

Lemma observe_event_backoff evt self : backoff_count (observe_event evt self).2 = backoff_count self.
Proof. destruct evt; simpl; try done. unfold handle_change. repeat case_match; done. Qed.
Lemma poll_connection_backoff lines self : backoff_count (poll_connection lines self).2 = backoff_count self.
Proof.
  unfold poll_connection. destruct lines as [|[b|[|e]] rest]; try done.
  destruct (event_from_slice b) as [evt|e].
  - pose proof (observe_event_backoff evt (with_connection (Some rest) self)) as Ho. by destruct (observe_event _ _).
  - simpl. destruct (untyped_from_slice b) as [evt|]; [|done].
    apply (observe_event_backoff evt (with_connection (Some rest) self)).
Qed.
Lemma poll_stream_backoff st : backoff_count (poll_stream reconnect st).2.1 = backoff_count st.1.
Proof.
  destruct st as [self log]. unfold poll_stream, poll_reconnect. destruct (connection self) as [lines|].
  - pose proof (poll_connection_backoff lines self) as Hb. by destruct (poll_connection lines self).
  - destruct (observed_eoq self); [|done]. destruct (reconnect log _) as [lines|e]; [|done]. simpl.
    pose proof (poll_connection_backoff lines (with_connection (Some lines) self)) as Hb.
    by destruct (poll_connection _ _).
Qed.

(** A poll that has to wait used up one of ten attempts. *)
Lemma poll_next_backoff st st' p : (backoff_count st.1 <= 10)%N -> poll_next reconnect st = (p, st') ->
  (backoff_count st'.1 <= 10)%N /\ (p = Pending -> backoff_count st'.1 = (backoff_count st.1 + 1)%N).
Proof.
  intros Hb. unfold poll_next. pose proof (poll_stream_backoff st) as Hp.
  destruct (poll_stream reconnect st) as [item [self log]]. simpl in Hp.
  destruct item as [[evt|[]]|]; simpl; try (intros [= <- <-]; simpl; split; [lia|done]).
  destruct (N.leb_spec 10 (backoff_count self)); intros [= <- <-]; simpl; split; (done || lia).
Qed.

Lemma sub_next_total st : (backoff_count st.1 <= 10)%N -> is_Some (sub_next reconnect RETRY_FUEL st).
Proof.
  intros Hb. unfold RETRY_FUEL.
  assert (forall fuel st, (backoff_count st.1 <= 10)%N -> (10 - N.to_nat (backoff_count st.1) < fuel)%nat ->
    is_Some (sub_next reconnect fuel st)) as Hgen; [|apply Hgen; [done|lia]].
  clear. induction fuel as [|fuel IH]; intros st Hb Hf; [lia|]. simpl.
  destruct (poll_next reconnect st) as [[|item] st'] eqn:E; [|done].
  destruct (poll_next_backoff st st' _ Hb E) as [Hb' Hinc]. specialize (Hinc eq_refl). apply IH; [done|]. lia.
Qed.
Lemma sub_next_backoff fuel st st' item : (backoff_count st.1 <= 10)%N ->
  sub_next reconnect fuel st = Some (item, st') -> (backoff_count st'.1 <= 10)%N.
Proof.
  revert st. induction fuel as [|fuel IH]; intros st Hb; simpl; [done|].
  destruct (poll_next reconnect st) as [[|i] st1] eqn:E.
  - apply IH. by eapply poll_next_backoff.
  - intros [= <- <-]. by eapply poll_next_backoff.
Qed.
End next_total.

(** *** Every change once, in order *)

Section exactly_once.
Context `{EventCodec} (reconnect : list (option N) -> option N -> result string Lines).
(** The changes of the query's result, numbered by the service. *)
Variable change : N -> ChangeType * N * list SqliteValue.
Definition change_event (n : N) : QueryEvent := let '(t, rowid, cells) := change n in EvChange t rowid cells n.

(** A reply that delivers the changes after [f] in order, and ends or breaks off
    anywhere. *)
Inductive serves : N -> Lines -> Prop :=
| serves_end f : serves f []
| serves_io f e rest : serves f (Err (LcIo e) :: rest)
| serves_change f b rest :
    event_from_slice b = Ok (change_event (f + 1)) -> serves (f + 1) rest -> serves f (Ok b :: rest).
Hypothesis reconnect_serves : forall log f lines, reconnect log (Some f) = Ok lines -> serves f lines.

Definition at_change (f : N) (self : SubscriptionStream) : Prop :=
  observed_eoq self = true /\ last_change_id self = Some f /\ (backoff_count self <= 10)%N /\
  match connection self with Some lines => serves f lines | None => True end.

Inductive next_result (f : N) : option (result SubscriptionError QueryEvent) -> SubscriptionStream -> Prop :=
| nr_change self : at_change (f + 1) self -> next_result f (Some (Ok (change_event (f + 1)))) self
| nr_end self : at_change f self -> next_result f None self
| nr_retry self : at_change f self -> next_result f (Some (Err SeMaxRetryAttempts)) self.

Lemma poll_connection_serves f lines self :
  at_change f (with_connection (Some lines) self) ->
  let '(item, self') := poll_connection lines (with_connection (Some lines) self) in
  match item with
  | Some (Ok evt) => evt = change_event (f + 1) /\ at_change (f + 1) self'
  | None => at_change f self'
  | Some (Err e) => exists m, e = SeIo m /\ at_change f (with_connection None self')
  end.
Proof.
  intros (Ho & Hl & Hb & Hc). simpl in *. inversion Hc as [|? e rest|? b rest Hev Hrest]; subst; simpl.
  - by split_and!.
  - exists e. by split_and!.
  - rewrite Hev. unfold change_event. destruct (change (f + 1)) as [[t rowid] cells]. simpl. unfold handle_change.
    simpl. rewrite Hl, decide_False by (intros ?; done). simpl. split; [done|]. by split_and!.
Qed.

Definition poll_result (f : N) (log : list (option N)) (p : Poll (option (result SubscriptionError QueryEvent)))
    (st : SubscriptionStream * list (option N)) : Prop :=
  match p with Pending => at_change f st.1 | Ready item => next_result f item st.1 end /\
  (st.2 = log \/ st.2 = (log ++ [Some f])%list).

Lemma poll_lines_serves f lines self log log' :
  at_change f (with_connection (Some lines) self) -> (log' = log \/ log' = (log ++ [Some f])%list) ->
  let '(item, self') := poll_connection lines (with_connection (Some lines) self) in
  let '(p, st) := retry_io item (self', log') in poll_result f log p st.
Proof.
  intros Hs Hlog. pose proof (poll_connection_serves f lines self Hs) as Hp.
  destruct (poll_connection lines _) as [[[evt|e]|] self']; unfold poll_result; simpl.
  - destruct Hp as [-> (? & ? & ? & ?)]. split; [|done]. constructor. split_and!; simpl; (done || lia).
  - destruct Hp as (m & -> & Hn). simpl. destruct (N.leb_spec 10 (backoff_count self')); split; try done; [by constructor|].
    destruct Hn as (? & ? & ? & ?). split_and!; simpl in *; (done || lia).
  - split; [|done]. constructor. destruct Hp as (? & ? & ? & ?). split_and!; simpl; (done || lia).
Qed.

Lemma poll_next_serves f self log :
  at_change f self ->
  let '(p, st) := poll_next reconnect (self, log) in poll_result f log p st.
Proof.
  intros Ha. unfold poll_next, poll_stream. destruct (connection self) as [lines|] eqn:Hc.
  - assert (self = with_connection (Some lines) self) as Hself by (destruct self; simpl in *; by subst).
    rewrite Hself in Ha. pose proof (poll_lines_serves f lines self log log Ha (or_introl eq_refl)) as Hq.
    rewrite <- Hself in Hq. by destruct (poll_connection lines self).
  - unfold poll_reconnect. destruct Ha as (Ho & Hl & Hb & _). rewrite Ho, Hl.
    destruct (reconnect log (Some f)) as [lines|e] eqn:Hr; simpl.
    + assert (at_change f (with_connection (Some lines) self)) as Hs
        by (split_and!; simpl; try done; by eapply reconnect_serves).
      pose proof (poll_lines_serves f lines self log _ Hs (or_intror eq_refl)) as Hq.
      by destruct (poll_connection lines _).
    + unfold poll_result.
      destruct (N.leb_spec 10 (backoff_count self)); split; auto; [constructor|]; split_and!; simpl; (done || lia).
Qed.

(** Reconnections ask for what follows the last change delivered. *)
Lemma sub_next_serves fuel f st item st' :
  at_change f st.1 -> sub_next reconnect fuel st = Some (item, st') ->
  next_result f item st'.1 /\ exists asked, st'.2 = (st.2 ++ asked)%list /\ Forall (fun r => r = Some f) asked.
Proof.
  revert st. induction fuel as [|fuel IH]; intros [self log] Ha; simpl; [done|].
  pose proof (poll_next_serves f self log Ha) as Hp.
  destruct (poll_next reconnect (self, log)) as [[|i] [self1 log1]]; destruct Hp as [Hr Hlog]; simpl in *.
  - intros Hn. destruct (IH (self1, log1) Hr Hn) as [Hi (asked & Hl & Hf)]. split; [done|]. simpl in Hl.
    destruct Hlog as [-> | ->]; [by exists asked|]. exists (Some f :: asked). rewrite Hl, <- app_assoc. split; [done|by constructor].
  - intros [= <- <-]. split; [done|]. destruct Hlog as [-> | ->]; [exists []; by rewrite app_nil_r|].
    exists [Some f]. by repeat constructor.
Qed.

(** The changes after [f] among the items delivered. *)
Definition delivered (items : list (option (result SubscriptionError QueryEvent))) : list QueryEvent :=
  omap (fun item => match item with Some (Ok evt) => Some evt | _ => None end) items.
Fixpoint changes_from (f : N) (k : nat) : list QueryEvent :=
  match k with O => [] | S k => change_event (f + 1) :: changes_from (f + 1) k end.

Lemma sub_run_serves n f self log :
  at_change f self ->
  let '(items, (self', log')) := sub_run reconnect n (self, log) in
  length items = n /\
  (forall e, Some (Err e) ∈ items -> e = SeMaxRetryAttempts) /\
  delivered items = changes_from f (length (delivered items)) /\
  at_change (f + N.of_nat (length (delivered items))) self'.
Proof.
  revert f self log. induction n as [|n IH]; intros f self log Ha; cbn [sub_run].
  { simpl. split_and!; [done|set_solver|done|by rewrite N.add_0_r]. }
  destruct (sub_next_total reconnect (self, log)) as [[item [self1 log1]] Hn]; [apply Ha|]. rewrite Hn.
  destruct (sub_next_serves _ f (self, log) _ _ Ha Hn) as [Hi _]. simpl in Hi.
  destruct Hi as [self1 Ha1|self1 Ha1|self1 Ha1]; specialize (IH _ self1 log1 Ha1);
    destruct (sub_run reconnect n (self1, log1)) as [items [self' log']]; destruct IH as (Hlen & Herr & Hd & Hf');
    simpl; split_and!; try (lia || done); try (intros e [?|?]%elem_of_cons; [naive_solver|by apply Herr]).
  - by rewrite Hd at 1.
  - replace (f + _)%N with (f + 1 + N.of_nat (length (delivered items)))%N by lia. done.
Qed.

(** The rows of the initial query. *)
Definition is_snapshot (evt : QueryEvent) : Prop := match evt with EvColumns _ | EvRow _ _ => True | _ => False end.

Lemma sub_next_snapshot evt b rest self log :
  event_from_slice b = Ok evt -> is_snapshot evt -> connection self = Some (Ok b :: rest) ->
  sub_next reconnect RETRY_FUEL (self, log) =
  Some (Some (Ok evt), (with_backoff 0 (with_connection (Some rest) self), log)).
Proof.
  intros Hev Hs Hc. unfold RETRY_FUEL. cbn [sub_next]. unfold poll_next, poll_stream. rewrite Hc.
  cbn [poll_connection]. rewrite Hev. by destruct evt.
Qed.

Lemma sub_next_eoq c0 b rest self log :
  event_from_slice b = Ok (EvEndOfQuery (Some c0)) -> connection self = Some (Ok b :: rest) -> serves c0 rest ->
  exists self', sub_next reconnect RETRY_FUEL (self, log) = Some (Some (Ok (EvEndOfQuery (Some c0))), (self', log)) /\
    at_change c0 self'.
Proof.
  intros Hev Hc Hs. unfold RETRY_FUEL. cbn [sub_next]. unfold poll_next, poll_stream. rewrite Hc.
  cbn [poll_connection]. rewrite Hev. simpl. eexists; split; [done|]. split_and!; simpl; (done || lia).
Qed.

Lemma sub_run_snapshot init_bytes init c0 eoq rest n self log :
  Forall2 (fun b evt => event_from_slice b = Ok evt /\ is_snapshot evt) init_bytes init ->
  event_from_slice eoq = Ok (EvEndOfQuery (Some c0)) -> serves c0 rest ->
  connection self = Some ((Ok <$> init_bytes) ++ Ok eoq :: rest)%list ->
  exists self', at_change c0 self' /\
    (sub_run reconnect (length init + S n) (self, log)).1 =
    (((fun evt => Some (Ok evt)) <$> init ++ [EvEndOfQuery (Some c0)]) ++ (sub_run reconnect n (self', log)).1)%list.
Proof.
  intros Hinit Heoq Hs. revert self. induction Hinit as [|b evt init_bytes init [Hev Hsn] Hinit IH]; intros self Hc.
  - destruct (sub_next_eoq c0 eoq rest self log Heoq Hc Hs) as (self' & Hn & Ha). exists self'. split; [done|].
    cbn [length Nat.add sub_run]. rewrite Hn. by destruct (sub_run reconnect n (self', log)).
  - cbn [length Nat.add sub_run]. rewrite (sub_next_snapshot evt b _ self log Hev Hsn Hc).
    destruct (IH (with_backoff 0 (with_connection (Some ((Ok <$> init_bytes) ++ Ok eoq :: rest)%list) self)) eq_refl)
      as (self' & Ha & Hr).
    exists self'. split; [done|]. destruct (sub_run reconnect (length init + S n) _). simpl in *. by rewrite Hr.
Qed.
End exactly_once.


Module Sample.
#[local] Instance codec : EventCodec := {|
  event_from_slice b := match b with
    | [c] => if decide (c = "E"%char) then Ok (EvEndOfQuery (Some 5%N))
             else Ok (EvChange CtUpdate 1 [SvText "x"] (code c - 48)%N)
    | _ => Ok (EvRow 1 [])
    end;
  untyped_from_slice b := Err "" |}.
Definition change (n : N) : ChangeType * N * list SqliteValue := (CtUpdate, 1%N, [SvText "x"]).
(** The first attempt to reconnect fails; the second gets change 7. *)
Definition reconnect (log : list (option N)) (from : option N) : result string Lines :=
  if decide (length log = 0)%nat then Err "refused"
  else if decide (from = Some 6%N) then Ok [Ok (bytes_of "7"); Err (LcIo "reset")] else Ok [].
End Sample.


(** *** After a missed change *)

Section missed.
Context `{EventCodec} (reconnect : list (option N) -> option N -> result string Lines).

(** A line with a change that does not follow [f]. *)
Definition skips (f : N) (line : result LinesCodecError bytes) : Prop :=
  exists b t rowid cells id, line = Ok b /\ event_from_slice b = Ok (EvChange t rowid cells id) /\ id <> (f + 1)%N.

(** The stream does not move past a gap: every later change of the connection
    is an error again. *)
Lemma sub_run_missed f lines self log :
  Forall (skips f) lines -> connection self = Some lines -> last_change_id self = Some f ->
  Forall (fun item => exists id, item = Some (Err (SeMissedChange (f + 1) id)))
    (sub_run reconnect (length lines) (self, log)).1.
Proof.
  intros Hl. revert self. induction Hl as [|line lines (b & t & rowid & cells & id & -> & Hev & Hid) Hl IH];
    intros self Hc Hf; cbn [length sub_run]; [constructor|].
  assert (sub_next reconnect RETRY_FUEL (self, log) = Some (Some (Err (SeMissedChange (f + 1) id)),
    (with_backoff 0 (with_connection (Some lines) self), log))) as ->.
  { unfold RETRY_FUEL. cbn [sub_next]. unfold poll_next, poll_stream. rewrite Hc. cbn [poll_connection].
    rewrite Hev. simpl. unfold handle_change. simpl. rewrite Hf. by rewrite decide_True by done. }
  specialize (IH (with_backoff 0 (with_connection (Some lines) self)) eq_refl Hf).
  destruct (sub_run reconnect (length lines) _) as [items st]. simpl in *. constructor; [by exists id|done].
Qed.

(** Once it has given up, a stream that cannot reconnect fails at once: there is
    no more waiting between its attempts. *)
Lemma gave_up_no_wait self log e :
  connection self = None -> observed_eoq self = true -> (10 <= backoff_count self)%N ->
  reconnect log (last_change_id self) = Err e ->
  poll_next reconnect (self, log) =
  (Ready (Some (Err SeMaxRetryAttempts)), (self, (log ++ [last_change_id self])%list)).
Proof.
  intros Hc Ho Hb Hr. unfold poll_next, poll_stream, poll_reconnect. rewrite Hc, Ho, Hr. simpl.
  rewrite (proj2 (N.leb_le _ _)) by done. destruct self; simpl in *. by subst.
Qed.
End missed.
