(* ===== verification/Sql.v ===== *)
(** * The SQL the store uses

    The statements of [ployz-corrosion/src/store] are SQL texts.  This file gives
    the documented meaning of the fragment they are written in: a lexer and a
    parser for [INSERT] with [ON CONFLICT], [DELETE], and [SELECT] with [WHERE],
    [ORDER BY] and [LIMIT], and what such statements do to tables of rows.  A
    statement outside the fragment, or a comparison of values of different types,
    has no meaning here ([None]).  The store's theorems relate its operations to
    these meanings; the service that executes the statements is a parameter. *)

From S2P Require Import Prelude Order Text Types Client.
Local Open Scope string_scope.

(** ** Lexer *)

Inductive token := TWord (w : string) | TStr (s : string) | TSym (c : ascii) | TParam (n : nat).

Definition word_char (c : ascii) : bool :=
  let n := code c in
  ((48 <=? n) && (n <=? 57) || (65 <=? n) && (n <=? 90) || (97 <=? n) && (n <=? 122) || (n =? 95))%N.

(** Inside nothing, a word or a string literal. *)
Inductive lex_mode := LNone | LWord (w : string) | LStr (s : string).
Fixpoint lex (m : lex_mode) (params : nat) (s : string) : option (list token) :=
  match s with
  | EmptyString => match m with LNone => Some [] | LWord w => Some [TWord w] | LStr _ => None end
  | String c r =>
      let start (_ : unit) :=
        if ws1 c then lex LNone params r
        else if ascii_dec c "'" then lex (LStr "") params r
        else if ascii_dec c "?" then cons (TParam params) <$> lex LNone (S params) r
        else if word_char c then lex (LWord (String c "")) params r
        else cons (TSym c) <$> lex LNone params r in
      match m with
      | LNone => start tt
      | LWord w => if word_char c then lex (LWord (w +:+ String c "")) params r else cons (TWord w) <$> start tt
      | LStr w => if ascii_dec c "'" then cons (TStr w) <$> lex LNone params r
                  else lex (LStr (w +:+ String c "")) params r
      end
  end.

(** ** Syntax and parser *)

Inductive atom :=
| AParam (n : nat) | ALit (s : string) | ACol (c : string) | AExcluded (c : string) | AJson (c path : string).
Inductive op := OpEq | OpNe | OpGe.
Record cond := { cd_left : atom; cd_op : op; cd_right : atom }.
Inductive expr := EAtom (a : atom) | ECase (c : cond) (yes no : atom).
Inductive stmt :=
| SInsert (table : string) (columns : list string) (values : list atom)
    (conflict : option (list string * list (string * expr)))
| SDelete (table : string) (where_ : list cond)
| SSelect (columns : list string) (table : string) (where_ : list cond) (order : list string) (limit : option N).

Abbreviation parser A := (list token -> option (A * list token)) (only parsing).

(** [w, w, ...] *)
Fixpoint p_names (ts : list token) : option (list string * list token) :=
  match ts with
  | TWord w :: TSym "," :: ts => p ← p_names ts; Some (w :: p.1, p.2)
  | TWord w :: ts => Some ([w], ts)
  | _ => None
  end.
(** [(w, w, ...)] *)
Definition p_name_list : parser (list string) := fun ts =>
  match ts with
  | TSym "(" :: ts => p ← p_names ts; match p.2 with TSym ")" :: ts => Some (p.1, ts) | _ => None end
  | _ => None
  end.
Fixpoint p_params (ts : list token) : option (list atom * list token) :=
  match ts with
  | TParam n :: TSym "," :: ts => p ← p_params ts; Some (AParam n :: p.1, p.2)
  | TParam n :: TSym ")" :: ts => Some ([AParam n], ts)
  | _ => None
  end.
(** A column qualified by the table of the statement is that column. *)
Definition p_atom (table : string) : parser atom := fun ts =>
  match ts with
  | TParam n :: ts => Some (AParam n, ts)
  | TStr s :: ts => Some (ALit s, ts)
  | TWord "json_extract" :: TSym "(" :: TWord c :: TSym "," :: TStr path :: TSym ")" :: ts => Some (AJson c path, ts)
  | TWord "excluded" :: TSym "." :: TWord c :: ts => Some (AExcluded c, ts)
  | TWord t :: TSym "." :: TWord c :: ts => if String.eqb t table then Some (ACol c, ts) else None
  | TWord c :: ts => Some (ACol c, ts)
  | _ => None
  end.
Definition p_op : parser op := fun ts =>
  match ts with
  | TSym "=" :: ts => Some (OpEq, ts)
  | TSym "<" :: TSym ">" :: ts => Some (OpNe, ts)
  | TSym ">" :: TSym "=" :: ts => Some (OpGe, ts)
  | _ => None
  end.
Definition p_cond (table : string) : parser cond := fun ts =>
  l ← p_atom table ts; o ← p_op l.2; r ← p_atom table o.2;
  Some ({| cd_left := l.1; cd_op := o.1; cd_right := r.1 |}, r.2).
Fixpoint p_conds (fuel : nat) (table : string) (ts : list token) : option (list cond * list token) :=
  match fuel with
  | O => None
  | S fuel => c ← p_cond table ts;
              match c.2 with
              | TWord "AND" :: ts => p ← p_conds fuel table ts; Some (c.1 :: p.1, p.2)
              | ts => Some ([c.1], ts)
              end
  end.
Definition p_expr (table : string) : parser expr := fun ts =>
  match ts with
  | TWord "CASE" :: TWord "WHEN" :: ts =>
      c ← p_cond table ts;
      match c.2 with
      | TWord "THEN" :: ts =>
          y ← p_atom table ts;
          match y.2 with
          | TWord "ELSE" :: ts =>
              n ← p_atom table ts;
              match n.2 with TWord "END" :: ts => Some (ECase c.1 y.1 n.1, ts) | _ => None end
          | _ => None
          end
      | _ => None
      end
  | ts => a ← p_atom table ts; Some (EAtom a.1, a.2)
  end.
Fixpoint p_sets (fuel : nat) (table : string) (ts : list token) : option (list (string * expr)) :=
  match fuel, ts with
  | S fuel, TWord c :: TSym "=" :: ts =>
      e ← p_expr table ts;
      match e.2 with
      | [] => Some [(c, e.1)]
      | TSym "," :: ts => rest ← p_sets fuel table ts; Some ((c, e.1) :: rest)
      | _ => None
      end
  | _, _ => None
  end.

Definition p_insert (table : string) (ts : list token) : option stmt :=
  cols ← p_name_list ts;
  match cols.2 with
  | TWord "VALUES" :: TSym "(" :: ts =>
      vals ← p_params ts;
      match vals.2 with
      | [] => Some (SInsert table cols.1 vals.1 None)
      | TWord "ON" :: TWord "CONFLICT" :: ts =>
          keys ← p_name_list ts;
          match keys.2 with
          | TWord "DO" :: TWord "UPDATE" :: TWord "SET" :: ts =>
              sets ← p_sets (length ts) table ts; Some (SInsert table cols.1 vals.1 (Some (keys.1, sets)))
          | _ => None
          end
      | _ => None
      end
  | _ => None
  end.
Definition p_limit (ts : list token) : option (option N) :=
  match ts with [] => Some None | [TWord "LIMIT"; TWord n] => Some <$> parse_u64 n | _ => None end.
Definition p_select (ts : list token) : option stmt :=
  cols ← p_names ts;
  match cols.2 with
  | TWord "FROM" :: TWord table :: TWord "WHERE" :: ts =>
      w ← p_conds (length ts) table ts;
      match w.2 with
      | TWord "ORDER" :: TWord "BY" :: ts =>
          order ← p_names ts; limit ← p_limit order.2; Some (SSelect cols.1 table w.1 order.1 limit)
      | ts => limit ← p_limit ts; Some (SSelect cols.1 table w.1 [] limit)
      end
  | TWord "FROM" :: TWord table :: TWord "ORDER" :: TWord "BY" :: ts =>
      order ← p_names ts; limit ← p_limit order.2; Some (SSelect cols.1 table [] order.1 limit)
  | _ => None
  end.
Definition parse_sql (sql : string) : option stmt :=
  ts ← lex LNone 0 sql;
  match ts with
  | TWord "INSERT" :: TWord "INTO" :: TWord table :: ts => p_insert table ts
  | TWord "DELETE" :: TWord "FROM" :: TWord table :: TWord "WHERE" :: ts =>
      w ← p_conds (length ts) table ts; match w.2 with [] => Some (SDelete table w.1) | _ => None end
  | TWord "SELECT" :: ts => p_select ts
  | _ => None
  end.

(** ** Tables *)

Abbreviation Row := (list (string * SqliteValue)) (only parsing).
Abbreviation Db := (gmap string (list (list (string * SqliteValue)))) (only parsing).
Record TableSchema := { ts_columns : list string; ts_key : list string }.

Fixpoint col (c : string) (row : Row) : option SqliteValue :=
  match row with [] => None | (c', v) :: row => if String.eqb c c' then Some v else col c row end.
Definition set_col (c : string) (v : SqliteValue) (row : Row) : Row :=
  (fun p => if String.eqb c p.1 then (p.1, v) else p) <$> row.
Definition row_key (schema : TableSchema) (row : Row) : list (option SqliteValue) := (fun c => col c row) <$> ts_key schema.
Definition rows_of (table : string) (db : Db) : list Row := default [] (db !! table).

(** The JSON functions of SQLite. *)
Class SqliteJson := { json_valid : string -> bool; json_extract : string -> string -> option SqliteValue }.

(** ** Meaning *)

Section meaning.
Context `{SqliteJson} (schema : string -> option TableSchema) (params : list SqliteValue).

Definition eval_atom (row : Row) (excluded : Row) (a : atom) : option SqliteValue :=
  match a with
  | AParam n => params !! n
  | ALit s => Some (SvText s)
  | ACol c => col c row
  | AExcluded c => col c excluded
  | AJson c path => match col c row with Some (SvText s) => json_extract s path | _ => None end
  end.
Definition compare_values (o : op) (v w : SqliteValue) : option bool :=
  match v, w with
  | SvText a, SvText b =>
      Some match o with OpEq => String.eqb a b | OpNe => negb (String.eqb a b)
                      | OpGe => match str_cmp a b with Lt => false | _ => true end end
  | SvInteger a, SvInteger b =>
      Some match o with OpEq => Z.eqb a b | OpNe => negb (Z.eqb a b) | OpGe => Z.leb b a end
  | _, _ => None
  end.
Definition eval_cond (row excluded : Row) (c : cond) : option bool :=
  v ← eval_atom row excluded (cd_left c); w ← eval_atom row excluded (cd_right c); compare_values (cd_op c) v w.
(** The conditions of an [AND], from the left. *)
Fixpoint eval_conds (row : Row) (cs : list cond) : option bool :=
  match cs with
  | [] => Some true
  | c :: cs => b ← eval_cond row [] c; if b : bool then eval_conds row cs else Some false
  end.
Definition eval_expr (row excluded : Row) (e : expr) : option SqliteValue :=
  match e with
  | EAtom a => eval_atom row excluded a
  | ECase c yes no => b ← eval_cond row excluded c; eval_atom row excluded (if b : bool then yes else no)
  end.

(** The rows on which the conditions evaluate to [want]. *)
Fixpoint where_rows (want : bool) (cs : list cond) (rows : list Row) : option (list Row) :=
  match rows with
  | [] => Some []
  | row :: rows => b ← eval_conds row cs; rest ← where_rows want cs rows;
                   Some (if Bool.eqb b want then row :: rest else rest)
  end.

(** [ORDER BY]: text in bytewise order. *)
Definition value_cmp (v w : option SqliteValue) : comparison :=
  match v, w with
  | Some (SvText a), Some (SvText b) => str_cmp a b
  | Some (SvInteger a), Some (SvInteger b) => Z.compare a b
  | _, _ => Eq
  end.
Definition rows_cmp (order : list string) (a b : Row) : comparison :=
  foldr (fun c rest => then_with (value_cmp (col c a) (col c b)) rest) Eq order.
Definition limit_rows {A} (limit : option N) (rows : list A) : list A :=
  match limit with Some n => take (N.to_nat n) rows | None => rows end.

(** The assignments of an update all see the old row. *)
Fixpoint eval_sets (old new : Row) (sets : list (string * expr)) : option (list (string * SqliteValue)) :=
  match sets with
  | [] => Some []
  | (c, e) :: sets => v ← eval_expr old new e; rest ← eval_sets old new sets; Some ((c, v) :: rest)
  end.
Definition update_row (old new : Row) (sets : list (string * expr)) : option Row :=
  vs ← eval_sets old new sets; Some (foldl (fun row p => set_col p.1 p.2 row) old vs).
Definition set_rows (table : string) (rows : list Row) (db : Db) : Db := <[table := rows]> db.

Definition payload_valid (row : Row) : bool :=
  match col "payload_json" row with Some (SvText p) => is_empty p || json_valid p | _ => false end.
Definition is_text (v : SqliteValue) : bool := match v with SvText _ => true | _ => false end.

(** The row with the key of [new], and the rows before and after it. *)
Fixpoint split_key (sc : TableSchema) (new : Row) (rows : list Row) : option (list Row * Row * list Row) :=
  match rows with
  | [] => None
  | row :: rows =>
      if decide (row_key sc row = row_key sc new) then Some ([], row, rows)
      else p ← split_key sc new rows; Some (row :: p.1.1, p.1.2, p.2)
  end.

Definition insert_row (table : string) (sc : TableSchema) (new : Row)
    (conflict : option (list string * list (string * expr))) (db : Db) : option (ExecResult * Db) :=
  if negb (payload_valid new) then Some (ExecError "CHECK constraint failed", db)
  else
  match split_key sc new (rows_of table db) with
  | None => Some (ExecExecute 1, set_rows table (rows_of table db ++ [new])%list db)
  | Some (before, old, after) =>
      match conflict with
      | None => Some (ExecError ("UNIQUE constraint failed: " +:+ table), db)
      | Some (keys, sets) =>
          if decide (keys = ts_key sc) then
            row ← update_row old new sets;
            Some (ExecExecute 1, set_rows table (before ++ row :: after)%list db)
          else None
      end
  end.

Definition exec_stmt (s : stmt) (db : Db) : option (ExecResult * Db) :=
  match s with
  | SInsert table columns values conflict =>
      sc ← schema table; vs ← mapM (eval_atom [] []) values;
      if decide (columns = ts_columns sc) then
        if forallb is_text vs && Nat.eqb (length vs) (length columns)
        then insert_row table sc (zip columns vs) conflict db else None
      else None
  | SDelete table conds =>
      gone ← where_rows true conds (rows_of table db); kept ← where_rows false conds (rows_of table db);
      Some (ExecExecute (N.of_nat (length gone)), set_rows table kept db)
  | SSelect _ _ _ _ _ => None
  end.
Definition select_stmt (s : stmt) (db : Db) : option (list (list SqliteValue)) :=
  match s with
  | SSelect columns table conds order limit =>
      rows ← where_rows true conds (rows_of table db);
      mapM (fun row => mapM (fun c => col c row) columns) (limit_rows limit (sort_by (rows_cmp order) rows))
  | _ => None
  end.
End meaning.

Section statements.
Context `{SqliteJson} (schema : string -> option TableSchema).
Definition statement_parts (s : Statement) : string * list SqliteValue :=
  match s with Simple sql => (sql, []) | WithParams sql params => (sql, params) end.
Definition sql_exec (s : Statement) (db : Db) : option (ExecResult * Db) :=
  let '(sql, params) := statement_parts s in p ← parse_sql sql; exec_stmt schema params p db.
Definition sql_query (s : Statement) (db : Db) : option (list (list SqliteValue)) :=
  let '(sql, params) := statement_parts s in p ← parse_sql sql; select_stmt params p db.
(** A transaction whose statements all succeed. *)
Fixpoint sql_transaction (stmts : list Statement) (db : Db) : option (list ExecResult * Db) :=
  match stmts with
  | [] => Some ([], db)
  | s :: stmts =>
      r ← sql_exec s db;
      match r.1 with
      | ExecExecute _ => rest ← sql_transaction stmts r.2; Some (r.1 :: rest.1, rest.2)
      | ExecError _ => None
      end
  end.
End statements.

(** ** Tables of records

    A table whose published rows, those with a payload, are the rows of records
    stored under their key. *)

Record TableOf (T K : Type) := {
  tb_name : string;
  tb_schema : TableSchema;
  tb_key : T -> K;
  tb_cells : K -> list (option SqliteValue);
  tb_row : T -> Row;
  tb_read : string -> option T;
  tb_row_columns : forall r, (tb_row r).*1 = ts_columns tb_schema;
  tb_row_key : forall r, row_key tb_schema (tb_row r) = tb_cells (tb_key r);
  tb_cells_inj : Inj (=) (=) tb_cells;
  tb_payload : forall r, exists p, col "payload_json" (tb_row r) = Some (SvText p) /\ p <> "" /\ tb_read p = Some r
}.
Arguments tb_name {T K}.
Arguments tb_schema {T K}.
Arguments tb_key {T K}.
Arguments tb_cells {T K}.
Arguments tb_row {T K}.
Arguments tb_read {T K}.

Section typed.
Context {T K : Type} `{Countable K} (tb : TableOf T K).

Definition payload (row : Row) : option string :=
  match col "payload_json" row with Some (SvText p) => if is_empty p then None else Some p | _ => None end.
Definition record_of (row : Row) : option T := payload row ≫= (tb_read tb).

(** Rows are text with the columns of the schema, have distinct keys, and are
    those of records once published. *)
Definition row_ok (row : Row) : Prop :=
  row.*1 = ts_columns (tb_schema tb) /\ Forall (fun v => is_text v = true) row.*2 /\
  (payload row = None \/ exists r, row = (tb_row tb) r).
Definition rows_ok (rows : list Row) : Prop := Forall row_ok rows /\ NoDup (row_key (tb_schema tb) <$> rows).
Definition tb_map (rows : list Row) : gmap K T := index_by (tb_key tb) (omap record_of rows).

Lemma rows_ok_elem rows row : rows_ok rows -> row ∈ rows -> row_ok row.
Proof. intros [Hok _] Hin. rewrite Forall_forall in Hok. by apply Hok. Qed.
Lemma payload_row r : exists p, payload (tb_row tb r) = Some p /\ (tb_read tb) p = Some r.
Proof.
  destruct (tb_payload _ _ tb r) as (p & Hp & Hne & Hr). exists p. unfold payload. rewrite Hp. by destruct p.
Qed.
Lemma record_of_row r : record_of (tb_row tb r) = Some r.
Proof. unfold record_of. destruct (payload_row r) as (p & -> & Hr). done. Qed.
Lemma tb_row_inj r r' : tb_row tb r = tb_row tb r' -> r = r'.
Proof. intros He. pose proof (record_of_row r) as Hr. rewrite He, record_of_row in Hr. by injection Hr. Qed.
Lemma record_of_Some row r : row_ok row -> record_of row = Some r -> row = (tb_row tb) r.
Proof.
  intros (_ & _ & [Hn|[r' ->]]) Hr; [unfold record_of in Hr; by rewrite Hn in Hr|].
  rewrite record_of_row in Hr. by injection Hr as ->.
Qed.

Lemma omap_record_elem rows r : Forall row_ok rows -> r ∈ omap record_of rows <-> (tb_row tb) r ∈ rows.
Proof.
  intros Hok. rewrite list_elem_of_omap. split.
  - intros (row & Hin & Hr). rewrite Forall_forall in Hok. by rewrite <- (record_of_Some row r (Hok _ Hin) Hr).
  - intros Hin. exists (tb_row tb r). by rewrite record_of_row.
Qed.
Lemma omap_record_NoDup rows : rows_ok rows -> NoDup (tb_key tb <$> omap record_of rows).
Proof.
  intros [Hok Hnd]. induction Hok as [|row rows Hrow Hok IH]; [constructor|].
  rewrite fmap_cons, NoDup_cons in Hnd. destruct Hnd as [Hnin Hnd]. simpl.
  destruct (record_of row) as [r|] eqn:Hr; [|by apply IH]. csimpl. apply NoDup_cons. split; [|by apply IH].
  intros (r' & Hk & Hin)%list_elem_of_fmap. apply Hnin.
  rewrite (record_of_Some row r Hrow Hr), (tb_row_key _ _ tb), Hk, <- (tb_row_key _ _ tb).
  apply list_elem_of_fmap_2. by apply omap_record_elem.
Qed.
Lemma tb_map_lookup rows k r : rows_ok rows -> tb_map rows !! k = Some r <-> (tb_row tb) r ∈ rows /\ (tb_key tb) r = k.
Proof.
  intros Hok. unfold tb_map. rewrite index_by_NoDup by (by apply omap_record_NoDup).
  by rewrite omap_record_elem by apply Hok.
Qed.
Lemma tb_map_wf rows : rows_ok rows -> map_Forall (fun k r => (tb_key tb) r = k) (tb_map rows).
Proof. intros Hok k r Hr. by apply tb_map_lookup in Hr as [_ ?]. Qed.

Lemma split_key_Some new rows before old after :
  split_key (tb_schema tb) new rows = Some (before, old, after) ->
  rows = (before ++ old :: after)%list /\ row_key (tb_schema tb) old = row_key (tb_schema tb) new.
Proof.
  revert before. induction rows as [|row rows IH]; intros before; cbn; [done|]. case_decide as Hk; [by intros [= <- <- <-]|].
  destruct (split_key (tb_schema tb) new rows) as [[[b o] a]|]; [|done]. intros [= <- <- <-].
  by destruct (IH b eq_refl) as [-> ?].
Qed.
Lemma split_key_None new rows :
  split_key (tb_schema tb) new rows = None -> row_key (tb_schema tb) new ∉ row_key (tb_schema tb) <$> rows.
Proof.
  induction rows as [|row rows IH]; cbn; [set_solver|]. case_decide as Hk; [done|].
  destruct (split_key (tb_schema tb) new rows) as [p|] eqn:E; [done|]. set_solver.
Qed.

Lemma row_ok_row r : Forall (fun v => is_text v = true) (tb_row tb r).*2 -> row_ok (tb_row tb r).
Proof. intros Ht. split_and!; [apply (tb_row_columns _ _ tb)|done|eauto]. Qed.

(** Storing a record in place of the row with its key, or as a new row. *)
Lemma rows_ok_replace before old after r :
  rows_ok (before ++ old :: after)%list -> row_key (tb_schema tb) old = (tb_cells tb) (tb_key tb r) -> row_ok (tb_row tb r) ->
  rows_ok (before ++ (tb_row tb) r :: after)%list.
Proof.
  intros [Hok Hnd] Hk Hr. split.
  - apply Forall_app in Hok as [? Hok]. apply Forall_cons in Hok as [_ ?]. apply Forall_app. split; [done|by constructor].
  - rewrite fmap_app, fmap_cons in Hnd |- *. by rewrite (tb_row_key _ _ tb), <- Hk.
Qed.
Lemma tb_map_replace before old after r :
  rows_ok (before ++ old :: after)%list -> row_key (tb_schema tb) old = (tb_cells tb) (tb_key tb r) -> row_ok (tb_row tb r) ->
  tb_map (before ++ (tb_row tb) r :: after)%list = <[(tb_key tb) r := r]> (tb_map (before ++ old :: after)%list).
Proof.
  intros Hok Hk Hr. pose proof (rows_ok_replace _ _ _ r Hok Hk Hr) as Hok'.
  apply map_eq. intros k. apply option_eq. intros x. rewrite tb_map_lookup by done.
  destruct (decide (k = (tb_key tb) r)) as [->|Hne].
  - rewrite lookup_insert_eq. split; [|intros [= <-]; set_solver]. intros [Hin Hkx]. f_equal. symmetry.
    assert (tb_row tb x = (tb_row tb) r) as Hx.
    { apply (NoDup_fmap_elem (row_key (tb_schema tb)) _ _ _ (proj2 Hok') Hin); [set_solver|]. by rewrite !(tb_row_key _ _ tb), Hkx. }
    pose proof (record_of_row x) as H1. rewrite Hx, record_of_row in H1. by injection H1.
  - rewrite lookup_insert_ne by done. rewrite tb_map_lookup by done.
    assert (forall x, (tb_key tb) x = k -> (tb_row tb) x <> (tb_row tb) r /\ (tb_row tb) x <> old) as Hx.
    { intros y <-. split; intros Hy; apply Hne.
      - apply (tb_cells_inj _ _ tb). by rewrite <- !(tb_row_key _ _ tb), Hy.
      - apply (tb_cells_inj _ _ tb). by rewrite <- (tb_row_key _ _ tb), Hy, Hk. }
    split; intros [Hin Hkx]; destruct (Hx x Hkx); (split; [set_solver|done]).
Qed.
Lemma rows_ok_append rows r :
  rows_ok rows -> (tb_cells tb) (tb_key tb r) ∉ row_key (tb_schema tb) <$> rows -> row_ok (tb_row tb r) ->
  rows_ok (rows ++ [(tb_row tb) r])%list.
Proof.
  intros [Hok Hnd] Hk Hr. split; [apply Forall_app; split; [done|by apply Forall_singleton]|].
  rewrite fmap_app. apply NoDup_app. split_and!; [done| |apply NoDup_singleton].
  intros x Hx ->%list_elem_of_singleton. apply Hk. by rewrite <- (tb_row_key _ _ tb).
Qed.
Lemma tb_map_append rows r :
  rows_ok rows -> (tb_cells tb) (tb_key tb r) ∉ row_key (tb_schema tb) <$> rows -> row_ok (tb_row tb r) ->
  tb_map (rows ++ [(tb_row tb) r])%list = <[(tb_key tb) r := r]> (tb_map rows).
Proof.
  intros Hok Hk Hr. apply map_eq. intros k. apply option_eq. intros x.
  rewrite tb_map_lookup by (by apply rows_ok_append). destruct (decide (k = (tb_key tb) r)) as [->|Hne].
  - rewrite lookup_insert_eq. split; [|intros [= <-]; set_solver]. intros [[Hin|Hin%list_elem_of_singleton]%elem_of_app Hkx].
    + exfalso. apply Hk. rewrite <- Hkx, <- (tb_row_key _ _ tb). by apply list_elem_of_fmap_2.
    + pose proof (record_of_row x) as H1. by rewrite Hin, record_of_row in H1.
  - rewrite lookup_insert_ne by done. rewrite tb_map_lookup by done.
    split; intros [Hin Hkx]; (split; [|done]); [|set_solver].
    apply elem_of_app in Hin as [?|Hin%list_elem_of_singleton]; [done|]. exfalso. apply Hne. rewrite <- Hkx.
    apply (tb_cells_inj _ _ tb). by rewrite <- !(tb_row_key _ _ tb), Hin.
Qed.

(** Removing rows by a test on their key. *)
Lemma rows_ok_filter (P : Row -> Prop) `{!forall row, Decision (P row)} rows : rows_ok rows -> rows_ok (filter P rows).
Proof.
  intros [Hok Hnd]. split.
  { rewrite Forall_forall in Hok |- *. intros row [_ ?]%list_elem_of_filter. by apply Hok. }
  eapply sublist_NoDup; [exact Hnd|]. apply fmap_sublist, sublist_filter.
Qed.
Lemma tb_map_filter (P : Row -> Prop) `{!forall row, Decision (P row)} rows :
  rows_ok rows -> tb_map (filter P rows) = filter (fun kv => P (tb_row tb kv.2)) (tb_map rows).
Proof.
  intros Hok. apply map_eq. intros k. apply option_eq. intros x.
  rewrite tb_map_lookup by (by apply rows_ok_filter).
  rewrite map_lookup_filter_Some, tb_map_lookup, list_elem_of_filter by done. simpl. tauto.
Qed.

(** *** What the statements do to such a table *)

Context `{SqliteJson}.

Lemma where_rows_filter params (f : Row -> bool) want cs rows :
  (forall row, row ∈ rows -> eval_conds params row cs = Some (f row)) ->
  where_rows params want cs rows = Some (filter (fun row => f row = want) rows).
Proof.
  induction rows as [|row rows IH]; intros He; cbn [where_rows]; [done|].
  rewrite He by (by left). cbn [mbind option_bind].
  rewrite IH by (intros; apply He; by right). cbn [mbind option_bind]. rewrite filter_cons.
  destruct (f row), want; by case_decide.
Qed.

Lemma insert_row_upsert params r sets db :
  rows_ok (rows_of (tb_name tb) db) -> row_ok (tb_row tb r) -> payload_valid (tb_row tb r) = true ->
  (forall old, row_ok old -> row_key (tb_schema tb) old = row_key (tb_schema tb) (tb_row tb r) ->
     update_row params old (tb_row tb r) sets = Some (tb_row tb r)) ->
  exists rows, insert_row params (tb_name tb) (tb_schema tb) (tb_row tb r) (Some (ts_key (tb_schema tb), sets)) db =
    Some (ExecExecute 1, set_rows (tb_name tb) rows db) /\
    rows_ok rows /\ tb_map rows = <[tb_key tb r := r]> (tb_map (rows_of (tb_name tb) db)).
Proof.
  intros Hok Hr Hp Hmerge. unfold insert_row. rewrite Hp. cbn [negb].
  destruct (split_key _ _ _) as [[[before old] after]|] eqn:E.
  - apply split_key_Some in E as [Hrows Hk]. rewrite decide_True by done. rewrite Hrows in Hok.
    rewrite Hmerge; [|eapply rows_ok_elem; [done|set_solver]|done].
    eexists; split; [done|]. rewrite (tb_row_key _ _ tb) in Hk. rewrite Hrows.
    split; [by eapply rows_ok_replace|by apply tb_map_replace].
  - apply split_key_None in E. rewrite (tb_row_key _ _ tb) in E.
    eexists; split; [done|]. split; [by apply rows_ok_append|by apply tb_map_append].
Qed.

(** An insert that keeps a published row. *)
Lemma insert_row_first params r sets db :
  rows_ok (rows_of (tb_name tb) db) -> row_ok (tb_row tb r) -> payload_valid (tb_row tb r) = true ->
  (forall old, row_ok old -> row_key (tb_schema tb) old = row_key (tb_schema tb) (tb_row tb r) ->
     update_row params old (tb_row tb r) sets = Some (if payload old then old else tb_row tb r)) ->
  exists rows, insert_row params (tb_name tb) (tb_schema tb) (tb_row tb r) (Some (ts_key (tb_schema tb), sets)) db =
    Some (ExecExecute 1, set_rows (tb_name tb) rows db) /\
    rows_ok rows /\
    tb_map rows = match tb_map (rows_of (tb_name tb) db) !! tb_key tb r with
                  | Some _ => tb_map (rows_of (tb_name tb) db)
                  | None => <[tb_key tb r := r]> (tb_map (rows_of (tb_name tb) db))
                  end.
Proof.
  intros Hok Hr Hp Hmerge. unfold insert_row. rewrite Hp. cbn [negb].
  destruct (split_key _ _ _) as [[[before old] after]|] eqn:E.
  - apply split_key_Some in E as [Hrows Hk]. rewrite decide_True by done.
    pose proof Hok as Hok'. rewrite Hrows in Hok'.
    assert (row_ok old) as Hold by (eapply rows_ok_elem; [done|set_solver]).
    rewrite Hmerge by done. eexists; split; [done|]. rewrite (tb_row_key _ _ tb) in Hk.
    destruct (payload old) as [p|] eqn:Hpay.
    + destruct Hold as (_ & _ & [?|[r' ->]]); [congruence|]. rewrite <- Hrows. split; [done|].
      rewrite (tb_row_key _ _ tb) in Hk. apply (tb_cells_inj _ _ tb) in Hk.
      rewrite (proj2 (tb_map_lookup _ (tb_key tb r) r' Hok)); [done|]. split; [|done]. rewrite Hrows. set_solver.
    + destruct (tb_map _ !! tb_key tb r) as [x|] eqn:Hx.
      * exfalso. apply tb_map_lookup in Hx as [Hin Hkx]; [|done].
        assert (tb_row tb x = old) as Hxo.
        { apply (NoDup_fmap_elem (row_key (tb_schema tb)) _ _ _ (proj2 Hok) Hin); [rewrite Hrows; set_solver|].
          by rewrite (tb_row_key _ _ tb), Hkx, Hk. }
        destruct (payload_row x) as (p & Hp' & _). by rewrite Hxo, Hpay in Hp'.
      * rewrite Hrows. split; [by eapply rows_ok_replace|by apply tb_map_replace].
  - apply split_key_None in E. rewrite (tb_row_key _ _ tb) in E.
    eexists; split; [done|]. split; [by apply rows_ok_append|].
    destruct (tb_map _ !! tb_key tb r) as [x|] eqn:Hx; [|by apply tb_map_append].
    exfalso. apply tb_map_lookup in Hx as [Hin Hkx]; [|done]. apply E. rewrite <- Hkx, <- (tb_row_key _ _ tb).
    by apply list_elem_of_fmap_2.
Qed.

(** An insert without a conflict clause. *)
Lemma insert_row_new params r db :
  rows_ok (rows_of (tb_name tb) db) -> row_ok (tb_row tb r) -> payload_valid (tb_row tb r) = true ->
  match insert_row params (tb_name tb) (tb_schema tb) (tb_row tb r) None db with
  | Some (ExecExecute 1, db') =>
      tb_cells tb (tb_key tb r) ∉ row_key (tb_schema tb) <$> rows_of (tb_name tb) db /\
      exists rows, db' = set_rows (tb_name tb) rows db /\ rows_ok rows /\
        tb_map rows = <[tb_key tb r := r]> (tb_map (rows_of (tb_name tb) db))
  | Some (ExecError e, db') =>
      tb_cells tb (tb_key tb r) ∈ row_key (tb_schema tb) <$> rows_of (tb_name tb) db /\
      e = "UNIQUE constraint failed: " +:+ tb_name tb /\ db' = db
  | _ => False
  end.
Proof.
  intros Hok Hr Hp. unfold insert_row. rewrite Hp. cbn [negb].
  destruct (split_key _ _ _) as [[[before old] after]|] eqn:E.
  - apply split_key_Some in E as [Hrows Hk]. rewrite (tb_row_key _ _ tb) in Hk. split; [|done].
    rewrite <- Hk. apply list_elem_of_fmap_2. rewrite Hrows. set_solver.
  - apply split_key_None in E. rewrite (tb_row_key _ _ tb) in E. split; [done|].
    eexists; split; [done|]. split; [by apply rows_ok_append|by apply tb_map_append].
Qed.
End typed.
