(* ===== verification/Corrosion.v ===== *)
(** * The Corrosion store

    [ployz-corrosion/src/store]: the statements and row decoders of the tables
    ([tables/]), queries and transactions ([shared/sql.rs]), the deploy commit
    ([workflows/deploy_commit.rs]) and the store's operations on top of them
    ([mod.rs]).  The service is a parameter, with the laws it is relied on for: it
    executes the statements with the meaning of [Sql], a transaction as a whole,
    and any call can fail.  JSON is an interface per record type. *)

From S2P Require Import Prelude Order Text Types RefCodec Store Client Sql.
Local Open Scope string_scope.

(** ** The schema ([schema.sql]) *)

Definition schema (table : string) : option TableSchema :=
  match table with
  | "machines" => Some {| ts_columns := ["machine_id"; "payload_json"]; ts_key := ["machine_id"] |}
  | "invites" => Some {| ts_columns := ["invite_id"; "payload_json"]; ts_key := ["invite_id"] |}
  | "service_revisions" =>
      Some {| ts_columns := ["namespace"; "service"; "revision_hash"; "payload_json"];
              ts_key := ["namespace"; "service"; "revision_hash"] |}
  | "service_releases" =>
      Some {| ts_columns := ["namespace"; "service"; "payload_json"]; ts_key := ["namespace"; "service"] |}
  | "instance_status" =>
      Some {| ts_columns := ["instance_id"; "namespace"; "service"; "machine_id"; "payload_json"];
              ts_key := ["instance_id"] |}
  | "deploys" =>
      Some {| ts_columns := ["deploy_id"; "namespace"; "payload_json"]; ts_key := ["deploy_id"] |}
  | _ => None
  end.

(** ** Rows ([shared/decode.rs]) *)

Definition as_text (v : SqliteValue) : option string := match v with SvText s => Some s | _ => None end.
Definition text (val : SqliteValue) (field : string) : Res string :=
  ok_or (as_text val) (Operation "decode" ("expected text for '" +:+ field +:+ "'")).
Definition wrong_columns {A} (operation expected : string) (row : list SqliteValue) : Res A :=
  Err (Operation operation ("expected " +:+ expected +:+ " columns, got " +:+ dec (N.of_nat (length row)))).
Definition decode_payload {T} `{RecordCodec T} (operation payload_json : string) : Res T :=
  map_err (fun e => Operation operation ("decode payload: " +:+ e)) (from_json payload_json).
Definition serialize {T} `{RecordCodec T} (operation : string) (record : T) : Res string :=
  map_err (fun e => Operation operation ("serialize: " +:+ e)) (to_json record).

(** ** The service *)

(** What a query stream gives: an event, an error, or no answer in time. *)
Abbreviation QueryItem := (option (result string QueryEvent)) (only parsing).

Class CorroService (C : Type) := {
  cr_execute : list Statement -> C -> result string (list ExecResult) * C;
  cr_query : Statement -> C -> option (result string (list QueryItem)) * C
}.

Definition corro (C A : Type) : Type := C -> Res A * C.
Definition cret {C A} (a : A) : corro C A := fun c => (Ok a, c).
Definition clift {C A} (r : Res A) : corro C A := fun c => (r, c).
Definition cbind {C A B} (m : corro C A) (k : A -> corro C B) : corro C B :=
  fun c => match m c with (Ok a, c) => k a c | (Err e, c) => (Err e, c) end.
Declare Scope corro_scope.
Notation "x <-$ e ;; k" := (cbind e (fun x => k)) (at level 100, e at next level, right associativity) : corro_scope.
Local Open Scope corro_scope.

(** *** [shared/sql.rs] *)

Definition QUERY_REQUEST_TIMEOUT_SECS : N := 5.

(** The rows of a query stream. *)
Fixpoint read_query (op : string) (items : list QueryItem) : Res (list (list SqliteValue)) :=
  match items with
  | [] => Ok []
  | None :: _ => Err (Operation op "timed out waiting for query event")
  | Some (Err e) :: _ => Err (Operation op e)
  | Some (Ok event) :: items =>
      match event with
      | EvRow _ cells => rows <-? read_query op items ;; Ok (cells :: rows)
      | EvEndOfQuery _ => Ok []
      | EvError e => Err (Operation op e)
      | EvColumns _ | EvChange _ _ _ _ => read_query op items
      end
  end.

Section sql.
Context {C : Type} `{CorroService C}.

Definition query_rows (stmt : Statement) (op : string) : corro C (list (list SqliteValue)) := fun c =>
  match cr_query stmt c with
  | (None, c) => (Err (Operation op "timed out starting query stream"), c)
  | (Some (Err e), c) => (Err (Operation op e), c)
  | (Some (Ok items), c) => (read_query op items, c)
  end.

Definition execute (stmts : list Statement) (op : string) : corro C (list ExecResult) := fun c =>
  let '(r, c) := cr_execute stmts c in (map_err (Operation op) r, c).

Definition exec_one (stmts : list Statement) (op : string) : corro C unit :=
  results <-$ execute stmts op ;;
  match results with
  | ExecExecute _ :: _ => cret tt
  | ExecError error :: _ => clift (Err (Operation op error))
  | [] => clift (Err (Operation op "no result"))
  end.

Definition exec_all (stmts : list Statement) (op : string) : corro C unit :=
  results <-$ execute stmts op ;;
  match snd <$> list_find (fun r => is_exec_error r = true) results with
  | Some (ExecError error) => clift (Err (Operation op error))
  | _ => cret tt
  end.
End sql.

(** ** Machines ([tables/machines.rs]) *)

Definition SQL_LIST_MACHINES : string :=
  "SELECT machine_id, payload_json FROM machines WHERE payload_json <> '' ORDER BY machine_id".
Definition SQL_UPSERT_MACHINE : string :=
  "INSERT INTO machines (machine_id, payload_json) VALUES (?, ?) " +:+
  "ON CONFLICT(machine_id) DO UPDATE SET payload_json=excluded.payload_json".
Definition SQL_DELETE_MACHINE : string := "DELETE FROM machines WHERE machine_id = ?".

Definition parse_machine_row `{RecordCodec MachineRecord} (row : list SqliteValue) : Res MachineRecord :=
  match row with
  | [machine_id_val; payload_val] =>
      machine_id <-? text machine_id_val "machine_id" ;;
      payload_json <-? text payload_val "payload_json" ;;
      record <-? decode_payload "parse_machine_row" payload_json ;;
      if decide (mr_id record <> machine_id) then
        Err (Operation "parse_machine_row" ("machine_id mismatch between key '" +:+ machine_id +:+
               "' and payload '" +:+ mr_id record +:+ "'"))
      else Ok record
  | _ => wrong_columns "parse_machine_row" "2" row
  end.

Section machines.
Context {C : Type} `{CorroService C} `{RecordCodec MachineRecord}.

Definition cor_list_machines : corro C (list MachineRecord) :=
  rows <-$ query_rows (Simple SQL_LIST_MACHINES) "list_machines" ;; clift (try_map parse_machine_row rows).
Definition cor_upsert_self_machine (record : MachineRecord) : corro C unit :=
  payload_json <-$ clift (serialize "upsert_self_machine" record) ;;
  exec_one [WithParams SQL_UPSERT_MACHINE [SvText (mr_id record); SvText payload_json]] "upsert_self_machine".
Definition cor_delete_machine (id : MachineId) : corro C unit :=
  exec_one [WithParams SQL_DELETE_MACHINE [SvText id]] "delete_machine".
End machines.

(** ** Invites ([tables/invites.rs]) *)

Definition SQL_INSERT_INVITE : string := "INSERT INTO invites (invite_id, payload_json) VALUES (?, ?)".
Definition SQL_CONSUME_INVITE : string :=
  "DELETE FROM invites WHERE invite_id = ? AND payload_json <> '' AND json_extract(payload_json, '$.expires_at') >= ?".
Definition SQL_LOOKUP_INVITE : string :=
  "SELECT invite_id FROM invites WHERE invite_id = ? AND payload_json <> '' LIMIT 1".

Section invites.
Context {C : Type} `{CorroService C} `{RecordCodec InviteRecord}.

Definition cor_create_invite (invite : InviteRecord) : corro C unit :=
  payload_json <-$ clift (serialize "create_invite" invite) ;;
  results <-$ execute [WithParams SQL_INSERT_INVITE [SvText (inv_id invite); SvText payload_json]] "create_invite" ;;
  match results with
  | ExecError error :: _ =>
      if contains_str "UNIQUE" error then clift (Err (Operation "invite_exists" error))
      else clift (Err (Operation "create_invite" error))
  | ExecExecute _ :: _ => cret tt
  | [] => clift (Err (Operation "create_invite" "no result"))
  end.

Definition cor_consume_invite (invite_id : string) (now_unix_secs : N) : corro C unit :=
  results <-$ execute [WithParams SQL_CONSUME_INVITE [SvText invite_id; SvInteger (as_i64 now_unix_secs)]] "consume_invite" ;;
  match results with
  | ExecExecute 1 :: _ => cret tt
  | ExecError error :: _ => clift (Err (Operation "consume_invite" error))
  | _ =>
      rows <-$ query_rows (WithParams SQL_LOOKUP_INVITE [SvText invite_id]) "consume_invite" ;;
      match rows with
      | [] => clift (Err (Operation "invite_not_found" ("invite '" +:+ invite_id +:+ "' not found")))
      | _ => clift (Err (Operation "invite_expired" ("invite '" +:+ invite_id +:+ "' is expired")))
      end
  end.
End invites.

(** ** Service revisions ([tables/service_revisions.rs]) *)

Definition SQL_ALL_SERVICE_REVISIONS : string :=
  "SELECT namespace, service, revision_hash, payload_json FROM service_revisions WHERE payload_json <> '' ORDER BY namespace, service, revision_hash".
Definition SQL_LIST_SERVICE_REVISIONS : string :=
  "SELECT namespace, service, revision_hash, payload_json FROM service_revisions WHERE namespace = ? AND payload_json <> '' ORDER BY service, revision_hash".
Definition SQL_UPSERT_SERVICE_REVISION : string :=
  "INSERT INTO service_revisions (namespace, service, revision_hash, payload_json) VALUES (?, ?, ?, ?) " +:+
  "ON CONFLICT(namespace, service, revision_hash) DO UPDATE SET payload_json = CASE WHEN service_revisions.payload_json = '' THEN excluded.payload_json ELSE service_revisions.payload_json END".

Definition parse_service_revision `{RecordCodec ServiceRevisionRecord} (row : list SqliteValue)
    : Res ServiceRevisionRecord :=
  match row with
  | [namespace_val; service_val; revision_val; payload_val] =>
      namespace <-? text namespace_val "namespace" ;;
      service <-? text service_val "service" ;;
      revision_hash <-? text revision_val "revision_hash" ;;
      payload_json <-? text payload_val "payload_json" ;;
      record <-? decode_payload "parse_service_revision" payload_json ;;
      if decide (srv_namespace record <> namespace \/ srv_service record <> service \/
                 srv_revision_hash record <> revision_hash) then
        Err (Operation "parse_service_revision" "revision key mismatch between row and payload")
      else Ok record
  | _ => wrong_columns "parse_service_revision" "4" row
  end.

Section service_revisions.
Context {C : Type} `{CorroService C} `{RecordCodec ServiceRevisionRecord}.

Definition revisions_all_statement : Statement := Simple SQL_ALL_SERVICE_REVISIONS.
Definition load_all_service_revisions : corro C (list ServiceRevisionRecord) :=
  rows <-$ query_rows revisions_all_statement "load_all_service_revisions" ;; clift (try_map parse_service_revision rows).
Definition cor_list_service_revisions (namespace : Namespace) : corro C (list ServiceRevisionRecord) :=
  rows <-$ query_rows (WithParams SQL_LIST_SERVICE_REVISIONS [SvText namespace]) "list_service_revisions" ;;
  clift (try_map parse_service_revision rows).
Definition cor_upsert_service_revision (record : ServiceRevisionRecord) : corro C unit :=
  payload_json <-$ clift (serialize "upsert_service_revision" record) ;;
  exec_one [WithParams SQL_UPSERT_SERVICE_REVISION
              [SvText (srv_namespace record); SvText (srv_service record); SvText (srv_revision_hash record);
               SvText payload_json]] "upsert_service_revision".
End service_revisions.

(** ** Service releases ([tables/service_releases.rs]) *)

Definition SQL_ALL_SERVICE_RELEASES : string :=
  "SELECT namespace, service, payload_json FROM service_releases WHERE payload_json <> '' ORDER BY namespace, service".
Definition SQL_LIST_SERVICE_RELEASES : string :=
  "SELECT namespace, service, payload_json FROM service_releases WHERE namespace = ? AND payload_json <> '' ORDER BY service".
Definition SQL_DELETE_SERVICE_RELEASE : string := "DELETE FROM service_releases WHERE namespace = ? AND service = ?".
Definition SQL_UPSERT_SERVICE_RELEASE : string :=
  "INSERT INTO service_releases (namespace, service, payload_json) VALUES (?, ?, ?) " +:+
  "ON CONFLICT(namespace, service) DO UPDATE SET payload_json=excluded.payload_json".

Definition parse_service_release `{RecordCodec ServiceReleaseRecord} (row : list SqliteValue) : Res ServiceReleaseRecord :=
  match row with
  | [namespace_val; service_val; payload_val] =>
      namespace <-? text namespace_val "namespace" ;;
      service <-? text service_val "service" ;;
      payload_json <-? text payload_val "payload_json" ;;
      record <-? decode_payload "parse_service_release" payload_json ;;
      if decide (rel_namespace record <> namespace \/ rel_service record <> service) then
        Err (Operation "parse_service_release" "service release key mismatch between row and payload")
      else Ok record
  | _ => wrong_columns "parse_service_release" "3" row
  end.

Definition release_delete_statement (namespace : Namespace) (service : string) : Statement :=
  WithParams SQL_DELETE_SERVICE_RELEASE [SvText namespace; SvText service].

Section service_releases.
Context {C : Type} `{CorroService C} `{RecordCodec ServiceReleaseRecord}.

Definition releases_all_statement : Statement := Simple SQL_ALL_SERVICE_RELEASES.
Definition load_all_service_releases : corro C (list ServiceReleaseRecord) :=
  rows <-$ query_rows releases_all_statement "load_all_service_releases" ;; clift (try_map parse_service_release rows).
Definition cor_list_service_releases (namespace : Namespace) : corro C (list ServiceReleaseRecord) :=
  rows <-$ query_rows (WithParams SQL_LIST_SERVICE_RELEASES [SvText namespace]) "list_service_releases" ;;
  clift (try_map parse_service_release rows).
Definition release_upsert_statement (record : ServiceReleaseRecord) : Res Statement :=
  payload_json <-? serialize "upsert_service_release" record ;;
  Ok (WithParams SQL_UPSERT_SERVICE_RELEASE [SvText (rel_namespace record); SvText (rel_service record); SvText payload_json]).
Definition cor_upsert_service_release (record : ServiceReleaseRecord) : corro C unit :=
  stmt <-$ clift (release_upsert_statement record) ;; exec_one [stmt] "upsert_service_release".
Definition cor_delete_service_release (namespace : Namespace) (service : string) : corro C unit :=
  exec_one [release_delete_statement namespace service] "delete_service_release".
End service_releases.

(** ** Instances ([tables/instance_status.rs]) *)

Definition SQL_ALL_INSTANCE_STATUS : string :=
  "SELECT instance_id, namespace, service, machine_id, payload_json FROM instance_status WHERE payload_json <> '' ORDER BY namespace, service, machine_id, instance_id".
Definition SQL_LIST_INSTANCE_STATUS : string :=
  "SELECT instance_id, namespace, service, machine_id, payload_json FROM instance_status WHERE namespace = ? AND payload_json <> '' ORDER BY service, machine_id, instance_id".
Definition SQL_UPSERT_INSTANCE_STATUS : string :=
  "INSERT INTO instance_status (instance_id, namespace, service, machine_id, payload_json) VALUES (?, ?, ?, ?, ?) " +:+
  "ON CONFLICT(instance_id) DO UPDATE SET namespace=excluded.namespace, service=excluded.service, machine_id=excluded.machine_id, payload_json=excluded.payload_json".
Definition SQL_DELETE_INSTANCE_STATUS : string := "DELETE FROM instance_status WHERE instance_id = ?".

Definition parse_instance_status `{RecordCodec InstanceStatusRecord} (row : list SqliteValue) : Res InstanceStatusRecord :=
  match row with
  | [instance_val; namespace_val; service_val; machine_val; payload_val] =>
      instance_id <-? text instance_val "instance_id" ;;
      namespace <-? text namespace_val "namespace" ;;
      service <-? text service_val "service" ;;
      machine_id <-? text machine_val "machine_id" ;;
      payload_json <-? text payload_val "payload_json" ;;
      record <-? decode_payload "parse_instance_status" payload_json ;;
      if decide (is_instance_id record <> instance_id \/ is_namespace record <> namespace \/
                 is_service record <> service \/ is_machine_id record <> machine_id) then
        Err (Operation "parse_instance_status" "instance status key mismatch between row and payload")
      else Ok record
  | _ => wrong_columns "parse_instance_status" "5" row
  end.

Section instance_status.
Context {C : Type} `{CorroService C} `{RecordCodec InstanceStatusRecord}.

Definition instances_all_statement : Statement := Simple SQL_ALL_INSTANCE_STATUS.
Definition load_all_instance_status : corro C (list InstanceStatusRecord) :=
  rows <-$ query_rows instances_all_statement "load_all_instance_status" ;; clift (try_map parse_instance_status rows).
Definition cor_list_instance_status (namespace : Namespace) : corro C (list InstanceStatusRecord) :=
  rows <-$ query_rows (WithParams SQL_LIST_INSTANCE_STATUS [SvText namespace]) "list_instance_status" ;;
  clift (try_map parse_instance_status rows).
Definition cor_upsert_instance_status (record : InstanceStatusRecord) : corro C unit :=
  payload_json <-$ clift (serialize "upsert_instance_status" record) ;;
  exec_one [WithParams SQL_UPSERT_INSTANCE_STATUS
              [SvText (is_instance_id record); SvText (is_namespace record); SvText (is_service record);
               SvText (is_machine_id record); SvText payload_json]] "upsert_instance_status".
Definition cor_delete_instance_status (instance_id : InstanceId) : corro C unit :=
  exec_one [WithParams SQL_DELETE_INSTANCE_STATUS [SvText instance_id]] "delete_instance_status".
End instance_status.

(** ** Deploys ([tables/deploys.rs]) *)

Definition SQL_GET_DEPLOY : string :=
  "SELECT deploy_id, namespace, payload_json FROM deploys WHERE deploy_id = ? AND payload_json <> '' LIMIT 1".
Definition SQL_UPSERT_DEPLOY : string :=
  "INSERT INTO deploys (deploy_id, namespace, payload_json) VALUES (?, ?, ?) " +:+
  "ON CONFLICT(deploy_id) DO UPDATE SET namespace=excluded.namespace, payload_json=excluded.payload_json".

Definition parse_deploy `{RecordCodec DeployRecord} (row : list SqliteValue) : Res DeployRecord :=
  match row with
  | [deploy_val; namespace_val; payload_val] =>
      deploy_id <-? text deploy_val "deploy_id" ;;
      namespace <-? text namespace_val "namespace" ;;
      payload_json <-? text payload_val "payload_json" ;;
      record <-? decode_payload "parse_deploy" payload_json ;;
      if decide (dr_deploy_id record <> deploy_id \/ dr_namespace record <> namespace) then
        Err (Operation "parse_deploy" "deploy key mismatch between row and payload")
      else Ok record
  | _ => wrong_columns "parse_deploy" "3" row
  end.

Section deploys.
Context {C : Type} `{CorroService C} `{RecordCodec DeployRecord}.

Definition deploy_upsert_statement (record : DeployRecord) : Res Statement :=
  payload_json <-? serialize "upsert_deploy" record ;;
  Ok (WithParams SQL_UPSERT_DEPLOY [SvText (dr_deploy_id record); SvText (dr_namespace record); SvText payload_json]).
Definition cor_upsert_deploy (record : DeployRecord) : corro C unit :=
  stmt <-$ clift (deploy_upsert_statement record) ;; exec_one [stmt] "upsert_deploy".
Definition cor_get_deploy (deploy_id : DeployId) : corro C (option DeployRecord) :=
  rows <-$ query_rows (WithParams SQL_GET_DEPLOY [SvText deploy_id]) "get_deploy" ;;
  match rows with
  | [] => cret None
  | row :: _ => record <-$ clift (parse_deploy row) ;; cret (Some record)
  end.
End deploys.

(** ** The deploy commit ([workflows/deploy_commit.rs]) *)

Section commit.
Context {C : Type} `{CorroService C} `{RecordCodec ServiceReleaseRecord} `{RecordCodec DeployRecord}.

(** The services to clear: those removed, then those released that were not seen. *)
Fixpoint unseen_services (seen : gset string) (releases : list ServiceReleaseRecord) : list string :=
  match releases with
  | [] => []
  | r :: releases =>
      if decide (rel_service r ∈ seen) then unseen_services seen releases
      else rel_service r :: unseen_services ({[rel_service r]} ∪ seen) releases
  end.
Definition cor_touched_services (commit : DeployCommit) : list string :=
  (dc_removed_services commit ++ unseen_services (list_to_set (dc_removed_services commit)) (dc_releases commit))%list.

Definition build_commit_statements (commit : DeployCommit) : Res (list Statement) :=
  upserts <-? try_map release_upsert_statement (dc_releases commit) ;;
  deploy <-? deploy_upsert_statement (dc_deploy commit) ;;
  Ok ((release_delete_statement (dc_namespace commit) <$> cor_touched_services commit) ++ upserts ++ [deploy])%list.

Definition cor_apply_deploy_commit (commit : DeployCommit) : corro C unit :=
  statements <-$ clift (build_commit_statements commit) ;; exec_all statements "apply_deploy_commit".
End commit.

(** ** The routing tables ([workflows/routing_state.rs]) *)

(** Three queries; all of them run, and the first error in this order is kept. *)
Definition cor_load_routing_state {C} `{CorroService C} `{RecordCodec ServiceRevisionRecord}
    `{RecordCodec ServiceReleaseRecord} `{RecordCodec InstanceStatusRecord} : corro C RoutingState := fun c =>
  let '(revisions, c) := load_all_service_revisions c in
  let '(releases, c) := load_all_service_releases c in
  let '(instances, c) := load_all_instance_status c in
  (revisions <-? revisions ;; releases <-? releases ;; instances <-? instances ;;
   Ok {| rs_revisions := revisions; rs_releases := releases; rs_instances := instances |}, c).

(** ** What is relied on *)

(** A record is written as non-empty, valid JSON and read back from it. *)
Class CodecLaws (T : Type) `{RecordCodec T} `{SqliteJson} : Prop :=
  codec_ok : forall r : T, exists p, to_json r = Ok p /\ p <> "" /\ json_valid p = true /\ from_json p = Ok r.
(** The expiry of an invite is a field of its JSON; SQLite integers are 64-bit. *)
Class InviteJson `{RecordCodec InviteRecord} `{SqliteJson} : Prop :=
  invite_expiry : forall i p, to_json i = Ok p -> (Z.of_N (inv_expires_at i) <= i64_max)%Z ->
    json_extract p "$.expires_at" = Some (SvInteger (Z.of_N (inv_expires_at i))).

(** A query stream: the rows, then the end; or it breaks off with an error. *)
Inductive query_answer : list (list SqliteValue) -> list QueryItem -> Prop :=
| qa_columns cols rows items : query_answer rows items -> query_answer rows (Some (Ok (EvColumns cols)) :: items)
| qa_row id cells rows items :
    query_answer rows items -> query_answer (cells :: rows) (Some (Ok (EvRow id cells)) :: items)
| qa_end id items : query_answer [] (Some (Ok (EvEndOfQuery id)) :: items)
| qa_timeout rows items : query_answer rows (None :: items)
| qa_error rows e items : query_answer rows (Some (Err e) :: items)
| qa_event_error rows e items : query_answer rows (Some (Ok (EvError e)) :: items).

(** The service executes a transaction as a whole or not at all, with the
    meaning of its statements; when the reply is an error it may still have been
    executed.  A statement that fails changes nothing. *)
Class CorroLaws (C : Type) `{CorroService C} `{SqliteJson} := {
  cr_db : C -> Db;
  cr_execute_ok : forall stmts c rs c' rs' db, cr_execute stmts c = (Ok rs, c') ->
    sql_transaction schema stmts (cr_db c) = Some (rs', db) -> rs = rs' /\ cr_db c' = db;
  cr_execute_err : forall stmts c e c', cr_execute stmts c = (Err e, c') ->
    cr_db c' = cr_db c \/ exists rs, sql_transaction schema stmts (cr_db c) = Some (rs, cr_db c');
  cr_execute_fail : forall s c e r c', sql_exec schema s (cr_db c) = Some (ExecError e, cr_db c) ->
    cr_execute [s] c = (r, c') -> cr_db c' = cr_db c /\ (r = Ok [ExecError e] \/ exists e', r = Err e');
  cr_query_db : forall s c r c', cr_query s c = (r, c') -> cr_db c' = cr_db c;
  cr_query_rows : forall s c items c' rows, cr_query s c = (Some (Ok items), c') ->
    sql_query s (cr_db c) = Some rows -> query_answer rows items
}.

(** ** The tables as maps of records *)

Definition payload_of {T} `{RecordCodec T} (r : T) : string := match to_json r with Ok p => p | Err _ => "" end.

Section tables.
Context `{SqliteJson}.
Context `{RecordCodec MachineRecord} `{!CodecLaws MachineRecord}.
Context `{RecordCodec InviteRecord} `{!CodecLaws InviteRecord}.
Context `{RecordCodec ServiceRevisionRecord} `{!CodecLaws ServiceRevisionRecord}.
Context `{RecordCodec ServiceReleaseRecord} `{!CodecLaws ServiceReleaseRecord}.
Context `{RecordCodec InstanceStatusRecord} `{!CodecLaws InstanceStatusRecord}.
Context `{RecordCodec DeployRecord} `{!CodecLaws DeployRecord}.

Lemma payload_of_ok {T} `{RecordCodec T} `{!CodecLaws T} (r : T) :
  to_json r = Ok (payload_of r) /\ payload_of r <> "" /\ json_valid (payload_of r) = true /\
  ok (from_json (payload_of r)) = Some r.
Proof. destruct (codec_ok r) as (p & Hp & Hne & Hv & Hr). unfold payload_of. rewrite Hp, Hr. done. Qed.

#[local] Obligation Tactic := idtac.
Program Definition machines_tb : TableOf MachineRecord string := {|
  tb_name := "machines";
  tb_schema := {| ts_columns := ["machine_id"; "payload_json"]; ts_key := ["machine_id"] |};
  tb_key := mr_id; tb_cells k := [Some (SvText k)];
  tb_row r := [("machine_id", SvText (mr_id r)); ("payload_json", SvText (payload_of r))];
  tb_read p := ok (from_json p) |}.
Next Obligation. done. Qed.
Next Obligation. done. Qed.
Next Obligation. by intros ?? [= ->]. Qed.
Next Obligation. intros r. exists (payload_of r). destruct (payload_of_ok r) as (_ & ? & _ & ?). done. Qed.

Program Definition invites_tb : TableOf InviteRecord string := {|
  tb_name := "invites";
  tb_schema := {| ts_columns := ["invite_id"; "payload_json"]; ts_key := ["invite_id"] |};
  tb_key := inv_id; tb_cells k := [Some (SvText k)];
  tb_row r := [("invite_id", SvText (inv_id r)); ("payload_json", SvText (payload_of r))];
  tb_read p := ok (from_json p) |}.
Next Obligation. done. Qed.
Next Obligation. done. Qed.
Next Obligation. by intros ?? [= ->]. Qed.
Next Obligation. intros r. exists (payload_of r). destruct (payload_of_ok r) as (_ & ? & _ & ?). done. Qed.

Program Definition revisions_tb : TableOf ServiceRevisionRecord (Namespace * string * string) := {|
  tb_name := "service_revisions";
  tb_schema := {| ts_columns := ["namespace"; "service"; "revision_hash"; "payload_json"];
                  ts_key := ["namespace"; "service"; "revision_hash"] |};
  tb_key := revision_key; tb_cells k := [Some (SvText k.1.1); Some (SvText k.1.2); Some (SvText k.2)];
  tb_row r := [("namespace", SvText (srv_namespace r)); ("service", SvText (srv_service r));
               ("revision_hash", SvText (srv_revision_hash r)); ("payload_json", SvText (payload_of r))];
  tb_read p := ok (from_json p) |}.
Next Obligation. done. Qed.
Next Obligation. done. Qed.
Next Obligation. by intros [[??] ?] [[??] ?] [= -> -> ->]. Qed.
Next Obligation. intros r. exists (payload_of r). destruct (payload_of_ok r) as (_ & ? & _ & ?). done. Qed.

Program Definition releases_tb : TableOf ServiceReleaseRecord (Namespace * string) := {|
  tb_name := "service_releases";
  tb_schema := {| ts_columns := ["namespace"; "service"; "payload_json"]; ts_key := ["namespace"; "service"] |};
  tb_key := release_key; tb_cells k := [Some (SvText k.1); Some (SvText k.2)];
  tb_row r := [("namespace", SvText (rel_namespace r)); ("service", SvText (rel_service r));
               ("payload_json", SvText (payload_of r))];
  tb_read p := ok (from_json p) |}.
Next Obligation. done. Qed.
Next Obligation. done. Qed.
Next Obligation. by intros [??] [??] [= -> ->]. Qed.
Next Obligation. intros r. exists (payload_of r). destruct (payload_of_ok r) as (_ & ? & _ & ?). done. Qed.

Program Definition instances_tb : TableOf InstanceStatusRecord string := {|
  tb_name := "instance_status";
  tb_schema := {| ts_columns := ["instance_id"; "namespace"; "service"; "machine_id"; "payload_json"];
                  ts_key := ["instance_id"] |};
  tb_key := is_instance_id; tb_cells k := [Some (SvText k)];
  tb_row r := [("instance_id", SvText (is_instance_id r)); ("namespace", SvText (is_namespace r));
               ("service", SvText (is_service r)); ("machine_id", SvText (is_machine_id r));
               ("payload_json", SvText (payload_of r))];
  tb_read p := ok (from_json p) |}.
Next Obligation. done. Qed.
Next Obligation. done. Qed.
Next Obligation. by intros ?? [= ->]. Qed.
Next Obligation. intros r. exists (payload_of r). destruct (payload_of_ok r) as (_ & ? & _ & ?). done. Qed.

Program Definition deploys_tb : TableOf DeployRecord string := {|
  tb_name := "deploys";
  tb_schema := {| ts_columns := ["deploy_id"; "namespace"; "payload_json"]; ts_key := ["deploy_id"] |};
  tb_key := dr_deploy_id; tb_cells k := [Some (SvText k)];
  tb_row r := [("deploy_id", SvText (dr_deploy_id r)); ("namespace", SvText (dr_namespace r));
               ("payload_json", SvText (payload_of r))];
  tb_read p := ok (from_json p) |}.
Next Obligation. done. Qed.
Next Obligation. done. Qed.
Next Obligation. by intros ?? [= ->]. Qed.
Next Obligation. intros r. exists (payload_of r). destruct (payload_of_ok r) as (_ & ? & _ & ?). done. Qed.

(** The published records of a database, and a well-formed database. *)
Definition stored {T K} `{Countable K} (tb : TableOf T K) (db : Db) : gmap K T := tb_map tb (rows_of (tb_name tb) db).
Definition table_ok {T K} (tb : TableOf T K) (db : Db) : Prop := rows_ok tb (rows_of (tb_name tb) db).
Definition db_ok (db : Db) : Prop :=
  table_ok machines_tb db /\ table_ok invites_tb db /\ table_ok revisions_tb db /\
  table_ok releases_tb db /\ table_ok instances_tb db /\ table_ok deploys_tb db.
End tables.

(** ** What the statements do *)

(** Replace a statement text by its meaning. *)
Ltac parse_stmt :=
  unfold sql_exec, sql_query; cbn [statement_parts];
  match goal with
  | |- context [parse_sql ?s] =>
      let a := eval vm_compute in (parse_sql s) in
      replace (parse_sql s) with a by (vm_compute; reflexivity)
  end; cbn [mbind option_bind].

Lemma rows_of_set table rows db : rows_of table (set_rows table rows db) = rows.
Proof. unfold rows_of, set_rows. by rewrite lookup_insert_eq. Qed.
Lemma rows_of_set_ne table table' rows db : table' <> table -> rows_of table' (set_rows table rows db) = rows_of table' db.
Proof. intros. unfold rows_of, set_rows. by rewrite lookup_insert_ne. Qed.

Section effects.
Context {T K : Type} `{Countable K} (tb : TableOf T K).

(** A change of one table, leaving it with the records [m]. *)
Definition sets_table (m : gmap K T) (db db' : Db) : Prop :=
  table_ok tb db' /\ stored tb db' = m /\
  forall table, table <> tb_name tb -> rows_of table db' = rows_of table db.

Lemma sets_table_intro rows m db : rows_ok tb rows -> tb_map tb rows = m -> sets_table m db (set_rows (tb_name tb) rows db).
Proof.
  intros Hok Hm. unfold sets_table, table_ok, stored. rewrite rows_of_set. split_and!; [done..|].
  intros table Hne. by apply rows_of_set_ne.
Qed.
Lemma sets_table_refl db : table_ok tb db -> sets_table (stored tb db) db db.
Proof. by intros Hok. Qed.
Lemma sets_table_trans m m' db db1 db2 : sets_table m db db1 -> sets_table m' db1 db2 -> sets_table m' db db2.
Proof.
  intros (_ & _ & Ho1) (Hok & Hm & Ho2). split_and!; [done..|]. intros table Hne. by rewrite Ho2, Ho1.
Qed.
Lemma sets_table_stored m db db' : sets_table m db db' -> stored tb db' = m /\ table_ok tb db'.
Proof. by intros (? & ? & _). Qed.
Lemma sets_table_other {T' K'} (tb' : TableOf T' K') m db db' :
  sets_table m db db' -> tb_name tb' <> tb_name tb -> rows_of (tb_name tb') db' = rows_of (tb_name tb') db.
Proof. intros (_ & _ & Ho) Hne. by apply Ho. Qed.

(** A row of the table is a list of texts. *)
Lemma row_ok_texts row : row_ok tb row ->
  exists ts, row = zip (ts_columns (tb_schema tb)) (SvText <$> ts) /\ length ts = length (ts_columns (tb_schema tb)).
Proof.
  intros (Hc & Ht & _). revert Hc Ht. generalize (ts_columns (tb_schema tb)).
  induction row as [|[c v] row IH]; intros [|c' cols] Hc Ht; try done; [by exists []|].
  injection Hc as <- Hc. apply Forall_cons in Ht as [Hv Ht]. destruct v as [| | |s|]; try done.
  destruct (IH cols Hc Ht) as (ts & -> & Hl). exists (s :: ts). cbn. by rewrite Hl.
Qed.
End effects.

(** *** Deletions and queries in general *)

Lemma col_elem (row : Row) c v : NoDup row.*1 -> (c, v) ∈ row -> col c row = Some v.
Proof.
  induction row as [|[c' v'] row IH]; cbn; [set_solver|]. intros [Hn Hnd]%NoDup_cons.
  destruct (String.eqb_spec c c') as [->|Hne].
  - intros [[= ->]|Hin]%elem_of_cons; [done|]. exfalso. apply Hn. by apply (list_elem_of_fmap_2 fst) in Hin.
  - intros [[= ? ?]|Hin]%elem_of_cons; [done|]. by apply IH.
Qed.
Lemma mapM_col (row : Row) : NoDup row.*1 -> mapM (fun c => col c row) row.*1 = Some row.*2.
Proof.
  intros Hnd. apply mapM_Some. rewrite Forall2_fmap. apply Forall_Forall2_diag, Forall_forall.
  intros [c v] Hin. by apply col_elem.
Qed.

Section general.
Context {T K : Type} `{Countable K} (tb : TableOf T K) `{SqliteJson}.

Lemma delete_effect params conds (f : Row -> bool) db :
  table_ok tb db -> (forall row, row ∈ rows_of (tb_name tb) db -> eval_conds params row conds = Some (f row)) ->
  exists db', exec_stmt schema params (SDelete (tb_name tb) conds) db =
    Some (ExecExecute (N.of_nat (length (filter (fun row => f row = true) (rows_of (tb_name tb) db)))), db') /\
    sets_table tb (filter (fun kv => f (tb_row tb kv.2) = false) (stored tb db)) db db'.
Proof.
  intros Hok Hf. cbn [exec_stmt].
  rewrite !(where_rows_filter params f) by done. eexists; split; [done|].
  apply sets_table_intro; [by apply rows_ok_filter|]. exact (tb_map_filter tb (fun row => f row = false) _ Hok).
Qed.

Lemma filter_key_delete (f : Row -> bool) k db :
  table_ok tb db ->
  (forall r, stored tb db !! tb_key tb r = Some r -> f (tb_row tb r) = bool_decide (tb_key tb r = k)) ->
  filter (fun kv => f (tb_row tb kv.2) = false) (stored tb db) = delete k (stored tb db).
Proof.
  intros Hok Hf. apply map_eq. intros k'. apply option_eq. intros r. rewrite map_lookup_filter_Some, lookup_delete_Some. cbn.
  assert (stored tb db !! k' = Some r -> tb_key tb r = k' /\ f (tb_row tb r) = bool_decide (k' = k)) as Hr.
  { intros Hr. pose proof (tb_map_wf tb _ Hok _ _ Hr) as Hk. cbn in Hk. rewrite <- Hk. split; [done|]. apply Hf. by rewrite Hk. }
  split.
  - intros [Hs Hf0]. destruct (Hr Hs) as [_ Hf1]. split; [|done]. intros ->. rewrite bool_decide_true in Hf1; congruence.
  - intros [Hne Hs]. split; [done|]. destruct (Hr Hs) as [_ ->]. apply bool_decide_eq_false. congruence.
Qed.

Lemma select_effect params conds order (f : Row -> bool) db :
  table_ok tb db -> NoDup (ts_columns (tb_schema tb)) ->
  (forall row, row_ok tb row -> eval_conds params row conds = Some (f row)) ->
  select_stmt params (SSelect (ts_columns (tb_schema tb)) (tb_name tb) conds order None) db =
  Some ((fun row => row.*2) <$> sort_by (rows_cmp order) (filter (fun row => f row = true) (rows_of (tb_name tb) db))).
Proof.
  intros Hok Hnd Hf. cbn [select_stmt].
  rewrite (where_rows_filter params f) by (intros row Hin; by eapply Hf, rows_ok_elem). cbn [mbind option_bind limit_rows].
  apply mapM_Some, Forall2_fmap_r, Forall_Forall2_diag, Forall_forall. intros row Hin.
  apply elem_of_sort_by, list_elem_of_filter in Hin as [_ Hin].
  destruct (rows_ok_elem tb _ _ Hok Hin) as [Hc _]. rewrite <- Hc. apply mapM_col. by rewrite Hc.
Qed.

(** A query for published rows, and the records decoded from it. *)
Lemma read_effect (parse : list SqliteValue -> Res T) params conds order (f : Row -> bool) db :
  table_ok tb db -> NoDup (ts_columns (tb_schema tb)) ->
  (forall row, row_ok tb row -> eval_conds params row conds = Some (f row)) ->
  (forall row, f row = true -> payload row <> None) ->
  (forall r, parse (tb_row tb r).*2 = Ok r) ->
  exists cells l,
    select_stmt params (SSelect (ts_columns (tb_schema tb)) (tb_name tb) conds order None) db = Some cells /\
    try_map parse cells = Ok l /\ NoDup (tb_key tb <$> l) /\
    (forall r, r ∈ l <-> stored tb db !! tb_key tb r = Some r /\ f (tb_row tb r) = true).
Proof.
  intros Hok Hnd Hf Hpub Hparse. rewrite (select_effect params conds order f db Hok Hnd Hf).
  set (rows := sort_by _ _). exists ((fun row => row.*2) <$> rows), (omap (record_of tb) rows). split; [done|].
  assert (rows ≡ₚ filter (fun row => f row = true) (rows_of (tb_name tb) db)) as Hperm by apply sort_by_perm.
  assert (rows_ok tb (filter (fun row => f row = true) (rows_of (tb_name tb) db))) as Hok' by (by apply rows_ok_filter).
  assert (rows_ok tb rows) as Hrows by (split; rewrite Hperm; apply Hok').
  split_and!.
  - assert (Forall (fun row => f row = true) rows) as Hall.
    { rewrite Hperm. apply Forall_forall. intros row Hin. by apply list_elem_of_filter in Hin as [? _]. }
    destruct Hrows as [Hro _]. clear -Hall Hro Hpub Hparse.
    induction rows as [|row rows IH]; [done|]. apply Forall_cons in Hall as [Hfr Hall].
    apply Forall_cons in Hro as [(Hc & Ht & Hp) Hro]. destruct Hp as [Hp|[r ->]]; [by apply Hpub in Hfr|].
    cbn. rewrite Hparse, record_of_row. cbn. by rewrite (IH Hro Hall).
  - by apply omap_record_NoDup.
  - intros r. rewrite omap_record_elem by apply Hrows. rewrite Hperm, list_elem_of_filter.
    unfold stored. rewrite tb_map_lookup by done. tauto.
Qed.
End general.

(** Split a well-formed row into its cells. *)
Ltac explode_row H :=
  let ts := fresh "ts" in let Hl := fresh "Hl" in
  destruct (row_ok_texts _ _ H) as (ts & -> & Hl); cbn in Hl;
  repeat (destruct ts as [|? ts]; try discriminate Hl); clear Hl.
(** An update of the listed columns from the inserted row gives that row. *)
Ltac merge_row :=
  let old := fresh "old" in let Hold := fresh "Hold" in let Hk := fresh "Hk" in
  intros old Hold Hk; explode_row Hold; cbn in Hk; simplify_eq; reflexivity.

Definition excluded_sets (columns : list string) : list (string * expr) := (fun c => (c, EAtom (AExcluded c))) <$> columns.

Section statements.
Context `{SqliteJson}.
Context `{RecordCodec MachineRecord} `{!CodecLaws MachineRecord}.
Context `{RecordCodec InviteRecord} `{!CodecLaws InviteRecord}.
Context `{RecordCodec ServiceRevisionRecord} `{!CodecLaws ServiceRevisionRecord}.
Context `{RecordCodec ServiceReleaseRecord} `{!CodecLaws ServiceReleaseRecord}.
Context `{RecordCodec InstanceStatusRecord} `{!CodecLaws InstanceStatusRecord}.
Context `{RecordCodec DeployRecord} `{!CodecLaws DeployRecord}.

Definition upserts {T K} `{Countable K} (tb : TableOf T K) (s : Statement) (r : T) : Prop :=
  forall db, table_ok tb db -> exists db', sql_exec schema s db = Some (ExecExecute 1, db') /\
    sets_table tb (<[tb_key tb r := r]> (stored tb db)) db db'.

(** A statement that is an insert of the record's row with an update on conflict. *)
Lemma upserts_intro {T K} `{Countable K} (tb : TableOf T K) (s : Statement) (r : T) sets :
  let params := (statement_parts s).2 in
  (forall db, sql_exec schema s db =
     insert_row params (tb_name tb) (tb_schema tb) (tb_row tb r) (Some (ts_key (tb_schema tb), sets)) db) ->
  row_ok tb (tb_row tb r) -> payload_valid (tb_row tb r) = true ->
  (forall old, row_ok tb old -> row_key (tb_schema tb) old = row_key (tb_schema tb) (tb_row tb r) ->
     update_row params old (tb_row tb r) sets = Some (tb_row tb r)) ->
  upserts tb s r.
Proof.
  intros params He Hr Hp Hm db Hok. destruct (insert_row_upsert tb params r sets db Hok Hr Hp Hm) as (rows & Hi & Hok' & Hmap).
  rewrite He, Hi. eexists; split; [done|]. by apply sets_table_intro.
Qed.

Lemma payload_valid_of {T} `{RecordCodec T} `{!CodecLaws T} (r : T) (row : Row) :
  col "payload_json" row = Some (SvText (payload_of r)) -> payload_valid row = true.
Proof.
  intros Hc. unfold payload_valid. rewrite Hc. destruct (payload_of_ok r) as (_ & _ & Hv & _). rewrite Hv. apply orb_true_r.
Qed.

Ltac upsert_row r columns :=
  eapply (upserts_intro _ _ _ (excluded_sets columns));
  [ intros db; parse_stmt; reflexivity
  | apply row_ok_row; by repeat constructor
  | by apply (payload_valid_of r)
  | merge_row ].

Lemma upsert_machine_effect r :
  upserts machines_tb (WithParams SQL_UPSERT_MACHINE [SvText (mr_id r); SvText (payload_of r)]) r.
Proof. upsert_row r ["payload_json"]. Qed.
Lemma upsert_release_effect r :
  upserts releases_tb (WithParams SQL_UPSERT_SERVICE_RELEASE
    [SvText (rel_namespace r); SvText (rel_service r); SvText (payload_of r)]) r.
Proof. upsert_row r ["payload_json"]. Qed.
Lemma upsert_instance_effect r :
  upserts instances_tb (WithParams SQL_UPSERT_INSTANCE_STATUS
    [SvText (is_instance_id r); SvText (is_namespace r); SvText (is_service r); SvText (is_machine_id r);
     SvText (payload_of r)]) r.
Proof. upsert_row r ["namespace"; "service"; "machine_id"; "payload_json"]. Qed.
Lemma upsert_deploy_effect r :
  upserts deploys_tb (WithParams SQL_UPSERT_DEPLOY [SvText (dr_deploy_id r); SvText (dr_namespace r); SvText (payload_of r)]) r.
Proof. upsert_row r ["namespace"; "payload_json"]. Qed.

(** A revision that is published is kept. *)
Lemma upsert_revision_effect r db : table_ok revisions_tb db ->
  exists db', sql_exec schema (WithParams SQL_UPSERT_SERVICE_REVISION
      [SvText (srv_namespace r); SvText (srv_service r); SvText (srv_revision_hash r); SvText (payload_of r)]) db =
    Some (ExecExecute 1, db') /\
    sets_table revisions_tb
      (match stored revisions_tb db !! revision_key r with
       | Some _ => stored revisions_tb db
       | None => <[revision_key r := r]> (stored revisions_tb db)
       end) db db'.
Proof.
  intros Hok. parse_stmt.
  destruct (insert_row_first revisions_tb [SvText (srv_namespace r); SvText (srv_service r); SvText (srv_revision_hash r);
    SvText (payload_of r)] r [("payload_json", ECase {| cd_left := ACol "payload_json"; cd_op := OpEq; cd_right := ALit "" |}
      (AExcluded "payload_json") (ACol "payload_json"))] db Hok) as (rows & Hi & Hrows & Hmap).
  - apply row_ok_row; by repeat constructor.
  - by apply (payload_valid_of r).
  - intros old Hold Hk. explode_row Hold. cbn in Hk. simplify_eq. unfold update_row, payload. cbn.
    match goal with |- context [String.eqb ?s ""] => destruct s end; reflexivity.
  - eexists; split; [exact Hi|]. by apply sets_table_intro.
Qed.

(** A new invite; the id of an existing row is refused. *)
Lemma insert_invite_effect r db : table_ok invites_tb db ->
  match sql_exec schema (WithParams SQL_INSERT_INVITE [SvText (inv_id r); SvText (payload_of r)]) db with
  | Some (ExecExecute 1, db') =>
      [Some (SvText (inv_id r))] ∉ row_key (tb_schema invites_tb) <$> rows_of "invites" db /\
      sets_table invites_tb (<[inv_id r := r]> (stored invites_tb db)) db db'
  | Some (ExecError e, db') =>
      [Some (SvText (inv_id r))] ∈ row_key (tb_schema invites_tb) <$> rows_of "invites" db /\
      e = "UNIQUE constraint failed: invites" /\ db' = db
  | _ => False
  end.
Proof.
  intros Hok. parse_stmt.
  pose proof (insert_row_new invites_tb [SvText (inv_id r); SvText (payload_of r)] r db Hok) as Hi.
  assert (row_ok invites_tb (tb_row invites_tb r)) as Hr by (apply row_ok_row; by repeat constructor).
  assert (payload_valid (tb_row invites_tb r) = true) as Hp by (by apply (payload_valid_of r)).
  specialize (Hi Hr Hp).
  match goal with |- match ?x with _ => _ end => change x with
    (insert_row [SvText (inv_id r); SvText (payload_of r)] (tb_name invites_tb) (tb_schema invites_tb) (tb_row invites_tb r) None db) end.
  destruct (insert_row _ _ _ _ _ _) as [[[[|[]]|e] db']|]; try done.
  destruct Hi as [Hn (rows & -> & Hrows & Hm)]. split; [done|]. by apply sets_table_intro.
Qed.

(** *** Deletions *)

Lemma text_eqb_decide (a b : string) : String.eqb a b = bool_decide (a = b).
Proof. destruct (String.eqb_spec a b); [by rewrite bool_decide_true|by rewrite bool_decide_false]. Qed.

Definition deletes {T K} `{Countable K} (tb : TableOf T K) (s : Statement) (k : K) : Prop :=
  forall db, table_ok tb db -> exists n db', sql_exec schema s db = Some (ExecExecute n, db') /\
    sets_table tb (delete k (stored tb db)) db db'.

(** A statement that deletes the rows with a given key. *)
Lemma deletes_intro {T K} `{Countable K} (tb : TableOf T K) (s : Statement) conds (f : Row -> bool) k :
  (forall db, sql_exec schema s db = exec_stmt schema (statement_parts s).2 (SDelete (tb_name tb) conds) db) ->
  (forall row, row_ok tb row -> eval_conds (statement_parts s).2 row conds = Some (f row)) ->
  (forall r, f (tb_row tb r) = bool_decide (tb_key tb r = k)) ->
  deletes tb s k.
Proof.
  intros He Hf Hk db Hok. destruct (delete_effect tb (statement_parts s).2 conds f db Hok) as (db' & Hd & Hs);
    [intros row Hin; by eapply Hf, rows_ok_elem|].
  rewrite (filter_key_delete tb f k db Hok (fun r _ => Hk r)) in Hs. rewrite He, Hd. eauto.
Qed.

(** The cell of a column, when it is text. *)
Definition cell (c : string) (row : Row) : string := match col c row with Some (SvText s) => s | _ => "" end.

Lemma delete_machine_effect id : deletes machines_tb (WithParams SQL_DELETE_MACHINE [SvText id]) id.
Proof.
  eapply (deletes_intro _ _ _ (fun row => String.eqb (cell "machine_id" row) id)).
  - intros db. parse_stmt. reflexivity.
  - intros row Hrow. explode_row Hrow. cbn. by destruct (String.eqb _ _).
  - intros r. apply text_eqb_decide.
Qed.
Lemma delete_instance_effect id : deletes instances_tb (WithParams SQL_DELETE_INSTANCE_STATUS [SvText id]) id.
Proof.
  eapply (deletes_intro _ _ _ (fun row => String.eqb (cell "instance_id" row) id)).
  - intros db. parse_stmt. reflexivity.
  - intros row Hrow. explode_row Hrow. cbn. by destruct (String.eqb _ _).
  - intros r. apply text_eqb_decide.
Qed.
Lemma delete_release_effect ns service : deletes releases_tb (release_delete_statement ns service) (ns, service).
Proof.
  eapply (deletes_intro _ _ _ (fun row => String.eqb (cell "namespace" row) ns && String.eqb (cell "service" row) service)).
  - intros db. unfold release_delete_statement. parse_stmt. reflexivity.
  - intros row Hrow. explode_row Hrow. cbn. destruct (String.eqb _ ns); cbn; [|done]. by destruct (String.eqb _ service).
  - intros r. cbn. unfold release_key, cell. cbn. rewrite !text_eqb_decide.
    apply eq_true_iff_eq. rewrite andb_true_iff, !bool_decide_eq_true. naive_solver.
Qed.

(** Expiry times that SQLite can hold. *)
Definition invites_in_range (db : Db) : Prop :=
  map_Forall (fun _ r => (Z.of_N (inv_expires_at r) <= i64_max)%Z) (stored invites_tb db).
Definition consumed (id : string) (now : Z) (row : Row) : bool :=
  String.eqb (cell "invite_id" row) id &&
  match record_of invites_tb row with Some r => Z.leb now (Z.of_N (inv_expires_at r)) | None => false end.

Lemma consumed_iff id now row : row_ok invites_tb row ->
  consumed id now row = true <->
  exists r, row = tb_row invites_tb r /\ inv_id r = id /\ (now <= Z.of_N (inv_expires_at r))%Z.
Proof.
  intros Hrow. unfold consumed. rewrite andb_true_iff, String.eqb_eq. split.
  - destruct (record_of invites_tb row) as [r|] eqn:Hr; [|by intros []]. rewrite Z.leb_le.
    pose proof (record_of_Some invites_tb row r Hrow Hr) as ->. naive_solver.
  - intros (r & -> & Hid & Hle). rewrite record_of_row. by rewrite Z.leb_le.
Qed.

Lemma consume_nothing id now db : table_ok invites_tb db ->
  (forall r, stored invites_tb db !! id = Some r -> (Z.of_N (inv_expires_at r) < now)%Z) ->
  filter (fun row => consumed id now row = true) (rows_of "invites" db) = [] /\
  filter (fun kv => consumed id now (tb_row invites_tb kv.2) = false) (stored invites_tb db) = stored invites_tb db.
Proof.
  intros Hok Hlt.
  assert (forall row, row ∈ rows_of "invites" db -> consumed id now row <> true) as Hno.
  { intros row Hin (r & -> & Hk & Hle)%consumed_iff; [|by eapply rows_ok_elem].
    assert (stored invites_tb db !! id = Some r) as Hr by (by apply tb_map_lookup). apply Hlt in Hr. lia. }
  split; [by apply filter_none|]. apply map_filter_id. intros k r Hr. cbn. apply not_true_is_false, Hno.
  by apply tb_map_lookup in Hr as [? _].
Qed.

Lemma consume_invite_effect `{!InviteJson} id now db : table_ok invites_tb db -> invites_in_range db ->
  exists n db', sql_exec schema (WithParams SQL_CONSUME_INVITE [SvText id; SvInteger now]) db = Some (ExecExecute n, db') /\
  match stored invites_tb db !! id with
  | Some r => if (now <=? Z.of_N (inv_expires_at r))%Z
              then n = 1%N /\ sets_table invites_tb (delete id (stored invites_tb db)) db db'
              else n = 0%N /\ sets_table invites_tb (stored invites_tb db) db db'
  | None => n = 0%N /\ sets_table invites_tb (stored invites_tb db) db db'
  end.
Proof.
  intros Hok Hrange. parse_stmt.
  match goal with |- context [SDelete _ ?cs] =>
    destruct (delete_effect invites_tb [SvText id; SvInteger now] cs (consumed id now) db Hok) as (db' & Hd & Hs) end.
  - intros row Hin. pose proof (rows_ok_elem _ _ _ Hok Hin) as (Hc & Ht & [Hp|[r ->]]).
    + assert (row_ok invites_tb row) as Hrow by (split_and!; auto). explode_row Hrow. unfold consumed, record_of.
      rewrite Hp. unfold payload in Hp. cbn in Hp |- *. destruct (String.eqb _ id); [|done]. cbn.
      match goal with H : (if is_empty ?p then _ else _) = None |- _ => destruct p; [done|discriminate H] end.
    + unfold consumed. rewrite record_of_row. cbn. destruct (String.eqb (inv_id r) id); [|done]. cbn.
      destruct (payload_of_ok r) as (Hj & Hne & _). destruct (payload_of r) as [|a p] eqn:Hpay; [done|]. cbn.
      rewrite (invite_expiry r); [|done|].
      * cbn. by destruct (Z.leb now _).
      * apply (Hrange (inv_id r) r). by apply tb_map_lookup.
  - exists (N.of_nat (length (filter (fun row => consumed id now row = true) (rows_of "invites" db)))), db'.
    split; [exact Hd|].
    assert (forall r, stored invites_tb db !! tb_key invites_tb r = Some r -> tb_row invites_tb r ∈ rows_of "invites" db) as Hrow
      by (intros r Hr; by apply tb_map_lookup in Hr as [? _]).
    destruct (stored invites_tb db !! id) as [r|] eqn:Hid; [destruct (Z.leb_spec now (Z.of_N (inv_expires_at r))) as [Hle|Hlt]|].
    + pose proof Hid as Hid'. apply tb_map_lookup in Hid' as [Hin Hkey]; [|done]. split.
      * rewrite (filter_one _ _ (tb_row invites_tb r)); [done|by apply (NoDup_fmap_1 _ _ (proj2 Hok))|done| |].
        -- apply consumed_iff; [by eapply rows_ok_elem|]. eauto.
        -- intros row Hrin (r' & -> & Hk' & _)%consumed_iff; [|by eapply rows_ok_elem].
           apply (NoDup_fmap_elem _ _ _ _ (proj2 Hok) Hrin Hin). cbn in Hkey |- *. by rewrite Hk', Hkey.
      * rewrite (filter_key_delete _ _ id) in Hs; [done|done|]. intros r' Hr'. apply eq_true_iff_eq.
        rewrite consumed_iff, bool_decide_eq_true by (eapply rows_ok_elem; [done|by apply Hrow]). split.
        -- intros (r'' & Heq & Hk & _). apply (tb_row_inj invites_tb) in Heq as ->. done.
        -- intros Hk. rewrite Hk, Hid in Hr'. injection Hr' as <-. eauto.
    + destruct (consume_nothing id now db Hok) as [Hf Hm]; [intros r' Hr'; rewrite Hid in Hr'; by simplify_eq|].
      rewrite Hm in Hs. by rewrite Hf.
    + destruct (consume_nothing id now db Hok) as [Hf Hm]; [intros r' Hr'; by rewrite Hid in Hr'|].
      rewrite Hm in Hs. by rewrite Hf.
Qed.

(** *** Queries *)

Lemma decode_payload_of {T} `{RecordCodec T} `{!CodecLaws T} op (r : T) : decode_payload op (payload_of r) = Ok r.
Proof.
  unfold decode_payload. destruct (payload_of_ok r) as (_ & _ & _ & Hr). destruct (from_json (payload_of r)); [|done].
  by injection Hr as ->.
Qed.

Definition published (row : Row) : bool := negb (String.eqb (cell "payload_json" row) "").
Lemma published_payload row : published row = true -> payload row <> None.
Proof.
  unfold published, payload, cell. destruct (col "payload_json" row) as [[]|]; try done. by destruct (String.eqb_spec s ""); destruct s.
Qed.
Lemma published_row {T K} (tb : TableOf T K) r : published (tb_row tb r) = true.
Proof.
  unfold published, cell. destruct (tb_payload _ _ tb r) as (p & -> & Hne & _). by destruct (String.eqb_spec p "").
Qed.

(** A statement that lists the published records that satisfy [f]. *)
Definition reads {T K} `{Countable K} (tb : TableOf T K) (s : Statement) (parse : list SqliteValue -> Res T) (f : T -> bool) : Prop :=
  forall db, table_ok tb db -> exists cells l,
    sql_query s db = Some cells /\ try_map parse cells = Ok l /\ NoDup (tb_key tb <$> l) /\
    (forall r, r ∈ l <-> stored tb db !! tb_key tb r = Some r /\ f r = true).

Lemma reads_intro {T K} `{Countable K} (tb : TableOf T K) (s : Statement) parse conds order (g : Row -> bool) (f : T -> bool) :
  (forall db, sql_query s db =
     select_stmt (statement_parts s).2 (SSelect (ts_columns (tb_schema tb)) (tb_name tb) conds order None) db) ->
  NoDup (ts_columns (tb_schema tb)) ->
  (forall row, row_ok tb row -> eval_conds (statement_parts s).2 row conds = Some (g row && published row)) ->
  (forall r, parse (tb_row tb r).*2 = Ok r) -> (forall r, g (tb_row tb r) = f r) ->
  reads tb s parse f.
Proof.
  intros Hq Hnd He Hparse Hg db Hok.
  destruct (read_effect tb parse (statement_parts s).2 conds order (fun row => g row && published row) db Hok Hnd He)
    as (cells & l & Hs & Hm & Hl & Hin); [|done|].
  { intros row [_ Hp]%andb_true_iff. by apply published_payload. }
  exists cells, l. rewrite Hq. split_and!; [done..|]. intros r. by rewrite Hin, Hg, published_row, andb_true_r.
Qed.

Ltac read_table g :=
  eapply (reads_intro _ _ _ _ _ g);
  [ intros db; parse_stmt; reflexivity
  | cbn; repeat (apply NoDup_cons; split; [set_solver|]); apply NoDup_nil; done
  | let row := fresh "row" in let Hrow := fresh "Hrow" in
    intros row Hrow; explode_row Hrow; unfold published; cbn; repeat (destruct (String.eqb _ _); cbn; try done)
  | let r := fresh "r" in intros r; cbn; rewrite decode_payload_of; cbn; rewrite decide_False; [done|tauto]
  | let r := fresh "r" in intros r; cbn; try done ].

Definition any_row (row : Row) : bool := true.
Lemma list_machines_effect : reads machines_tb (Simple SQL_LIST_MACHINES) parse_machine_row (fun _ => true).
Proof. read_table any_row. Qed.
Lemma all_revisions_effect : reads revisions_tb revisions_all_statement parse_service_revision (fun _ => true).
Proof. unfold revisions_all_statement. read_table any_row. Qed.
Lemma all_releases_effect : reads releases_tb releases_all_statement parse_service_release (fun _ => true).
Proof. unfold releases_all_statement. read_table any_row. Qed.
Lemma all_instances_effect : reads instances_tb instances_all_statement parse_instance_status (fun _ => true).
Proof. unfold instances_all_statement. read_table any_row. Qed.
Lemma list_revisions_effect ns :
  reads revisions_tb (WithParams SQL_LIST_SERVICE_REVISIONS [SvText ns]) parse_service_revision
    (fun r => bool_decide (srv_namespace r = ns)).
Proof. read_table (fun row => String.eqb (cell "namespace" row) ns). apply text_eqb_decide. Qed.
Lemma list_releases_effect ns :
  reads releases_tb (WithParams SQL_LIST_SERVICE_RELEASES [SvText ns]) parse_service_release
    (fun r => bool_decide (rel_namespace r = ns)).
Proof. read_table (fun row => String.eqb (cell "namespace" row) ns). apply text_eqb_decide. Qed.
Lemma list_instances_effect ns :
  reads instances_tb (WithParams SQL_LIST_INSTANCE_STATUS [SvText ns]) parse_instance_status
    (fun r => bool_decide (is_namespace r = ns)).
Proof. read_table (fun row => String.eqb (cell "namespace" row) ns). apply text_eqb_decide. Qed.

(** *** Queries for one key *)

Lemma filter_key {T K} `{Countable K} (tb : TableOf T K) (g : Row -> bool) k db :
  table_ok tb db -> (forall row, row_ok tb row -> g row = true <-> row_key (tb_schema tb) row = tb_cells tb k) ->
  filter (fun row => g row && published row = true) (rows_of (tb_name tb) db) =
  match stored tb db !! k with Some r => [tb_row tb r] | None => [] end.
Proof.
  intros Hok Hg. destruct (stored tb db !! k) as [r|] eqn:Hk.
  - pose proof Hk as [Hin Hkey]%tb_map_lookup; [|done].
    apply filter_one; [by apply (NoDup_fmap_1 _ _ (proj2 Hok))|done| |].
    + rewrite published_row, andb_true_r. apply Hg; [by eapply rows_ok_elem|]. by rewrite tb_row_key, Hkey.
    + intros row Hrin [Hgr _]%andb_true_iff. apply (NoDup_fmap_elem _ _ _ _ (proj2 Hok) Hrin Hin).
      apply Hg in Hgr; [|by eapply rows_ok_elem]. by rewrite Hgr, tb_row_key, Hkey.
  - apply filter_none. intros row Hrin [Hgr Hp%published_payload]%andb_true_iff.
    pose proof (rows_ok_elem _ _ _ Hok Hrin) as Hrow. apply Hg in Hgr; [|done].
    destruct Hrow as (_ & _ & [?|[r ->]]); [done|]. rewrite tb_row_key in Hgr. apply (tb_cells_inj _ _ tb) in Hgr.
    assert (stored tb db !! k = Some r) by (by apply tb_map_lookup). congruence.
Qed.

Lemma get_deploy_effect id db : table_ok deploys_tb db ->
  sql_query (WithParams SQL_GET_DEPLOY [SvText id]) db =
  Some match stored deploys_tb db !! id with Some r => [(tb_row deploys_tb r).*2] | None => [] end.
Proof.
  intros Hok. parse_stmt. cbn [select_stmt].
  rewrite (where_rows_filter _ (fun row => String.eqb (cell "deploy_id" row) id && published row)).
  - cbn [mbind option_bind]. change "deploys" with (tb_name deploys_tb).
    rewrite (filter_key deploys_tb (fun row => String.eqb (cell "deploy_id" row) id) id db Hok).
    + by destruct (stored deploys_tb db !! id).
    + intros row Hrow. explode_row Hrow. cbn. rewrite String.eqb_eq. split; [by intros ->|by intros [= ->]].
  - intros row Hin. pose proof (rows_ok_elem _ _ _ Hok Hin) as Hrow. explode_row Hrow. unfold published. cbn.
    by repeat (destruct (String.eqb _ _); cbn; try done).
Qed.
Lemma lookup_invite_effect id db : table_ok invites_tb db ->
  sql_query (WithParams SQL_LOOKUP_INVITE [SvText id]) db =
  Some match stored invites_tb db !! id with Some r => [[SvText (inv_id r)]] | None => [] end.
Proof.
  intros Hok. parse_stmt. cbn [select_stmt].
  rewrite (where_rows_filter _ (fun row => String.eqb (cell "invite_id" row) id && published row)).
  - cbn [mbind option_bind]. change "invites" with (tb_name invites_tb).
    rewrite (filter_key invites_tb (fun row => String.eqb (cell "invite_id" row) id) id db Hok).
    + by destruct (stored invites_tb db !! id).
    + intros row Hrow. explode_row Hrow. cbn. rewrite String.eqb_eq. split; [by intros ->|by intros [= ->]].
  - intros row Hin. pose proof (rows_ok_elem _ _ _ Hok Hin) as Hrow. explode_row Hrow. unfold published. cbn.
    by repeat (destruct (String.eqb _ _); cbn; try done).
Qed.
End statements.
