(* ===== verification/StoreRuntime.v ===== *)
(** * The Corrosion service

    The agent that replicates the store runs as a process of the host or as a
    container ([runtime-backends/src/runtime/corrosion.rs]); its configuration is
    a file ([ployz-config/src/corrosion.rs]).  Processes answer through [ProcEnv],
    each call by the whole log so far; [live] reads off a log which processes were
    started and are not known to have ended.  Docker is the interface of
    [Container]. *)

From S2P Require Import Prelude Order Effect Text Types Addr Files Container Invite Daemon.
Local Open Scope string_scope.
Local Open Scope eff_scope.
#[local] Arguments String.append !_ _ : simpl nomatch.

(** ** The configuration ([ployz-config/src/corrosion.rs]) *)

Definition DEFAULT_API_PORT : N := 51002.

Record CorPaths := { cp_dir : PathBuf; cp_config : PathBuf; cp_schema : PathBuf; cp_db : PathBuf; cp_admin : PathBuf }.
Definition CorPaths_new (data_dir : PathBuf) : CorPaths :=
  let dir := path_join data_dir "corrosion" in {|
  cp_config := path_join dir "config.toml"; cp_schema := path_join dir "schema.sql"; cp_db := path_join dir "store.db";
  cp_admin := path_join dir "admin.sock"; cp_dir := dir |}.

Definition default_gossip_addr : SocketAddr := {| sa_ip := V4 0; sa_port := DEFAULT_GOSSIP_PORT |}.
Definition default_api_addr : SocketAddr := {| sa_ip := V4 0; sa_port := DEFAULT_API_PORT |}.

Record DbConfig := { dbc_path : string; dbc_schema_paths : list string }.
Record GossipConfig := { gsc_addr : string; gsc_bootstrap : list string; gsc_plaintext : bool; gsc_member_id : option N }.
Record ApiConfig := { apc_addr : string }.
Record AdminConfig := { adc_path : string }.
Record CorConfig := { cor_db : DbConfig; cor_gossip : GossipConfig; cor_api : ApiConfig; cor_admin : AdminConfig }.

(** FNV-1a of the identifier's bytes in 32 bits, and its low half. *)
Definition network_id_to_member_id (network_id : string) : N :=
  N.land (foldl (fun hash byte => N.lxor hash (code byte) * 0x01000193 mod 2 ^ 32)%N 0x811c9dc5%N (bytes_of network_id))
    0xFFFF.

(** The [toml] crate. *)
Class Toml := { toml_to_string_pretty : CorConfig -> result string string }.

Section config.
Context `{Toml}.
Definition cor_config (content_paths : CorPaths) (gossip_addr api_addr : SocketAddr) (bootstrap : list string)
    (network_id : option string) : CorConfig := {|
  cor_db := {| dbc_path := cp_db content_paths; dbc_schema_paths := [cp_schema content_paths] |};
  cor_gossip := {| gsc_addr := socket_addr_to_string gossip_addr; gsc_bootstrap := bootstrap; gsc_plaintext := true;
                   gsc_member_id := network_id_to_member_id <$> network_id |};
  cor_api := {| apc_addr := socket_addr_to_string api_addr |};
  cor_admin := {| adc_path := cp_admin content_paths |} |}.

Definition write_config (content_paths host_paths : CorPaths) (schema : string) (gossip_addr api_addr : SocketAddr)
    (bootstrap : list string) (network_id : option string) : io unit :=
  _ <-/ create_dir_all (cp_dir host_paths) ;;
  let cfg := cor_config content_paths gossip_addr api_addr bootstrap network_id in
  toml <-/ io_lift (toml_to_string_pretty cfg) ;;
  _ <-/ write_file (cp_config host_paths) toml ;;
  _ <-/ write_file (cp_schema host_paths) schema ;;
  io_ret tt.
End config.

(** ** The agent as a process *)

Definition COR_STOP_GRACE_PERIOD : Duration := 10000000000.

Definition corrosion_candidates : list PathBuf := ["/usr/local/bin/corrosion"; "/usr/bin/corrosion"].
Definition which_corrosion (fs : Fs) : result string PathBuf :=
  match find (fun p => exists_path p fs) corrosion_candidates with
  | Some p => Ok p
  | None => Err "corrosion binary not found (expected at /usr/local/bin/corrosion)"
  end.

(** A [tokio] child.  Once its exit status was read it is reaped: [id] is [None]
    and waiting for it returns the status again. *)
Record Child := { ch_pid : N; ch_reaped : bool }.
Definition child_id (c : Child) : option N := if ch_reaped c then None else Some (ch_pid c).
Definition reap (c : Child) : Child := {| ch_pid := ch_pid c; ch_reaped := true |}.

Record HostCorrosion := {
  ho_binary : PathBuf; ho_config_path : PathBuf; ho_log_path : PathBuf; ho_child : option Child
}.
Definition set_child (child : option Child) (self : HostCorrosion) : HostCorrosion := {|
  ho_binary := ho_binary self; ho_config_path := ho_config_path self; ho_log_path := ho_log_path self;
  ho_child := child |}.

Definition default_log_path (config_path : PathBuf) : PathBuf :=
  match path_parent config_path with Some parent => path_join parent "corrosion.log" | None => "corrosion.log" end.
Definition HostCorrosion_new (binary config_path : PathBuf) : HostCorrosion := {|
  ho_binary := binary; ho_config_path := config_path; ho_log_path := default_log_path config_path; ho_child := None |}.
Definition configured_log_path (var : option string) (default_log_path : PathBuf) : option PathBuf :=
  match var with
  | Some path => if is_empty path then Some default_log_path else Some path
  | None => None
  end.

(** The command spawned: output to the file or nowhere, [RUST_LOG] when asked for. *)
Record AgentCommand := {
  ac_program : PathBuf; ac_args : list string; ac_output : option PathBuf; ac_rust_log : option string
}.
Inductive GraceWait := GwExited | GwFailed (e : string) | GwElapsed.
Inductive ProcEvent :=
| PeTryWait (pid : N) (r : result string bool)          (* whether it has exited *)
| PeOpenLog (path : PathBuf) (r : result string unit)
| PeCloneLog (path : PathBuf) (r : result string unit)
| PeSpawn (command : AgentCommand) (r : result string N)
| PeDrop (pid : N)                                      (* [kill_on_drop] *)
| PeInterrupt (pid : N)                                 (* [SIGINT] *)
| PeGraceWait (pid : N) (r : GraceWait)
| PeKill (child : Child) (r : result string unit)       (* kills and waits *)
| PeWait (pid : N) (r : result string unit).

Record ProcEnv := {
  pv_log_path : option string;                          (* [PLOYZ_CORROSION_LOG_PATH] *)
  pv_rust_log : option string;                          (* [PLOYZ_CORROSION_RUST_LOG] *)
  pv_try_wait : N -> list ProcEvent -> result string bool;
  pv_open_log : PathBuf -> list ProcEvent -> result string unit;
  pv_clone_log : PathBuf -> list ProcEvent -> result string unit;
  pv_spawn : AgentCommand -> list ProcEvent -> result string N;
  pv_grace_wait : N -> list ProcEvent -> GraceWait;
  pv_kill : Child -> list ProcEvent -> result string unit;
  pv_wait : N -> list ProcEvent -> result string unit
}.

Section host.
Context (env : ProcEnv).
Abbreviation M A := (eff HostCorrosion ProcEvent string A) (only parsing).

(** [Child::try_wait]: whether the child has exited. *)
Definition child_try_wait (c : Child) : M (result string bool) :=
  if ch_reaped c then mret (Ok true)
  else
    r <-! mobserve (pv_try_wait env (ch_pid c)) (PeTryWait (ch_pid c)) ;;
    match r with
    | Ok true => _ <-! mput (set_child (Some (reap c))) ;; mret r
    | _ => mret r
    end.
(** [Child::wait]. *)
Definition child_wait (c : Child) : M unit :=
  if ch_reaped c then mret tt
  else
    _ <-! mask (pv_wait env (ch_pid c)) (PeWait (ch_pid c)) ;;
    mput (set_child (Some (reap c))).
(** [Child::kill]: force it to exit and wait for it. *)
Definition child_kill (c : Child) : M unit :=
  _ <-! mask (pv_kill env c) (PeKill c) ;; mput (set_child (Some (reap c))).
(** Replacing the recorded child drops it, which kills it unless it was reaped. *)
Definition replace_child (old : option Child) (pid : N) : M unit :=
  _ <-! match old with
        | Some c => if ch_reaped c then mret tt else mobserve (fun _ => tt) (fun _ => PeDrop (ch_pid c))
        | None => mret tt
        end ;;
  mput (set_child (Some {| ch_pid := pid; ch_reaped := false |})).

Definition start_error (message : string) : string := error_to_string (Operation "corrosion start" message).
Definition stop_error (message : string) : string := error_to_string (Operation "corrosion stop" message).

Definition agent_output (self : HostCorrosion) : M (option PathBuf) :=
  match configured_log_path (pv_log_path env) (ho_log_path self) with
  | Some log_path =>
      _ <-! mmap_err (fun e => start_error ("failed to open log file " +:+ log_path +:+ ": " +:+ e))
              (mask (pv_open_log env log_path) (PeOpenLog log_path)) ;;
      _ <-! mmap_err (fun e => start_error ("failed to clone log file handle " +:+ log_path +:+ ": " +:+ e))
              (mask (pv_clone_log env log_path) (PeCloneLog log_path)) ;;
      mret (Some log_path)
  | None => mret None
  end.
Definition host_spawn : M unit :=
  self <-! mget id ;;
  output <-! agent_output self ;;
  let command := {| ac_program := ho_binary self; ac_args := ["agent"; "-c"; ho_config_path self]; ac_output := output;
                    ac_rust_log := pv_rust_log env |} in
  pid <-! mmap_err (fun e => start_error ("failed to spawn " +:+ ho_binary self +:+ ": " +:+ e))
            (mask (pv_spawn env command) (PeSpawn command)) ;;
  replace_child (ho_child self) pid.
Definition host_start : M unit :=
  child <-! mget ho_child ;;
  match child with
  | Some child =>
      status <-! child_try_wait child ;;
      match status with
      | Ok false => mret tt
      | _ => host_spawn
      end
  | None => host_spawn
  end.

Definition debug_pid (pid : option N) : string :=
  match pid with Some pid => "Some(" +:+ dec pid +:+ ")" | None => "None" end.
Definition force_stop (child : Child) : M unit :=
  let pid := child_id child in
  _ <-! mmap_err (fun e => stop_error ("failed to kill pid " +:+ debug_pid pid +:+ ": " +:+ e)) (child_kill child) ;;
  killed <-! mget ho_child ;;
  _ <-! mmap_err (fun e => stop_error ("failed to wait pid " +:+ debug_pid pid +:+ ": " +:+ e))
          (match killed with Some killed => child_wait killed | None => mret tt end) ;;
  mput (set_child None).
Definition host_stop : M unit :=
  child <-! mget ho_child ;;
  match child with
  | None => mret tt
  | Some child =>
      match child_id child with
      | Some raw_pid =>
          _ <-! mobserve (fun _ => tt) (fun _ => PeInterrupt raw_pid) ;;
          waited <-! mobserve (pv_grace_wait env raw_pid) (PeGraceWait raw_pid) ;;
          match waited with
          | GwExited => mput (set_child None)
          | GwFailed _ | GwElapsed => force_stop child
          end
      | None => force_stop child
      end
  end.

Definition host_healthy : M bool :=
  child <-! mget ho_child ;;
  match child with
  | Some child =>
      status <-! child_try_wait child ;;
      mret (match status with Ok false => true | _ => false end)
  | None => mret false
  end.
End host.

(** *** Which processes run *)

Definition apply_proc (s : gset N) (e : ProcEvent) : gset N :=
  match e with
  | PeSpawn _ (Ok pid) => {[pid]} ∪ s
  | PeTryWait pid (Ok true) | PeDrop pid | PeGraceWait pid GwExited | PeWait pid (Ok _) => s ∖ {[pid]}
  | PeKill c (Ok _) => s ∖ {[ch_pid c]}
  | _ => s
  end.
Definition live (log : list ProcEvent) : gset N := foldl apply_proc ∅ log.

(** The processes the backend knows of. *)
Definition recorded (s : HostCorrosion) : gset N :=
  match ho_child s with
  | Some c => if ch_reaped c then ∅ else {[ch_pid c]}
  | None => ∅
  end.
Definition owned (s : HostCorrosion) (log : list ProcEvent) : Prop := live log = recorded s.

Inductive HostOp := HoStart | HoStop | HoHealthy.
Definition run_host_op (env : ProcEnv) (op : HostOp) : eff HostCorrosion ProcEvent string bool :=
  match op with
  | HoStart => _ <-! host_start env ;; mret true
  | HoStop => _ <-! host_stop env ;; mret true
  | HoHealthy => host_healthy env
  end.
(** Failures are reported to the caller, who goes on. *)
Definition run_host_ops (env : ProcEnv) (ops : list HostOp) : eff HostCorrosion ProcEvent string unit :=
  mfor ops (fun op => ignore (run_host_op env op)).

(** The system gives a new process an identifier that no process it still keeps has. *)
Class ProcLaws (env : ProcEnv) := {
  pl_fresh : forall command log pid, pv_spawn env command log = Ok pid -> pid ∉ live log
}.

Lemma live_app log e : live (log ++ [e])%list = apply_proc (live log) e.
Proof. unfold live. by rewrite foldl_app. Qed.

(** What an operation that returned leaves. *)
Definition host_outcome (op : HostOp) (r : result string bool) (s : HostCorrosion) (log : list ProcEvent) : Prop :=
  match op, r with
  | HoStart, Ok _ => exists pid, recorded s = {[pid]}
  | HoStop, Ok _ => ho_child s = None
  | HoHealthy, Ok healthy => healthy = true ->
      exists pid before, recorded s = {[pid]} /\ log = (before ++ [PeTryWait pid (Ok false)])%list
  | _, Err _ => True
  end.

Section host_laws.
Context (env : ProcEnv) `{!ProcLaws env}.

Lemma wp_ask_answer {St Call E A} (answer : list Call -> result E A) (event : result E A -> Call) Q (m : St) log :
  Q (answer log) m (log ++ [event (answer log)])%list -> wp (mask answer event) Q m log.
Proof. done. Qed.
Lemma wp_observe_answer {St Call E A} (answer : list Call -> A) (event : A -> Call)
    (Q : result E A -> St -> list Call -> Prop) m log :
  Q (Ok (answer log)) m (log ++ [event (answer log)])%list -> wp (mobserve answer event) Q m log.
Proof. done. Qed.

(** Asking whether the recorded child has exited. *)
Lemma try_wait_owned c s log :
  ho_child s = Some c -> owned s log ->
  wp (child_try_wait env c) (fun r s' log' => exists c', ho_child s' = Some c' /\ owned s' log' /\
    match r with
    | Ok (Ok false) => c' = c /\ ch_reaped c = false /\ log' = (log ++ [PeTryWait (ch_pid c) (Ok false)])%list
    | Ok _ => True
    | Err _ => False
    end) s log.
Proof.
  intros Hc Ho. unfold child_try_wait. destruct (ch_reaped c) eqn:Er; [apply wp_ret; by exists c|].
  apply wp_bind, wp_observe_answer. cbv beta iota. unfold owned, recorded in *. rewrite Hc, Er in Ho.
  destruct (pv_try_wait env (ch_pid c) log) as [[]|e].
  - apply wp_bind, wp_put, wp_ret. exists (reap c). rewrite live_app. cbn. split_and!; [done|set_solver|done].
  - apply wp_ret. exists c. rewrite live_app, Hc, Er. by split_and!.
  - apply wp_ret. exists c. rewrite live_app, Hc, Er. by split_and!.
Qed.

(** Spawning replaces the recorded child, which is killed if it may still run. *)
Lemma spawn_owned s log :
  owned s log ->
  wp (host_spawn env) (fun r s' log' => owned s' log' /\
    (r = Ok tt -> exists pid, recorded s' = {[pid]})) s log.
Proof.
  intros Ho. unfold host_spawn. apply wp_bind, wp_get.
  assert (forall log, owned s log -> wp (agent_output env s) (fun r s' log' => s' = s /\ owned s log') s log) as Hout.
  { clear log Ho. intros log Ho. unfold agent_output. destruct configured_log_path; [|by apply wp_ret].
    apply wp_bind, wp_map_err, wp_ask. intros [u|e]; cbn [map_err]; unfold owned; rewrite ?live_app; [|done].
    apply wp_bind, wp_map_err, wp_ask. intros [u'|e]; [apply wp_ret|]; unfold owned; by rewrite !live_app. }
  apply wp_bind. eapply wp_mono; [by apply Hout|]. cbv beta. intros r s' log1 [-> Ho1]. destruct r as [output|e]; [|done].
  set (command := Build_AgentCommand _ _ _ _). apply wp_bind, wp_map_err, wp_ask_answer.
  destruct (pv_spawn env command log1) as [pid|e] eqn:Es; cbn [map_err]; [|by unfold owned; rewrite live_app].
  pose proof (pl_fresh _ _ _ Es) as Hfresh. unfold owned, recorded in *. unfold replace_child, id in *. apply wp_bind.
  destruct (ho_child s) as [c|] eqn:Hc; [destruct (ch_reaped c) eqn:Er|].
  - apply wp_ret, wp_put. rewrite live_app, Ho1. cbn. split; [set_solver|]. intros _. by exists pid.
  - apply wp_observe_answer, wp_put. rewrite !live_app, Ho1. cbn. rewrite Ho1 in Hfresh.
    split; [set_solver|]. intros _. by exists pid.
  - apply wp_ret, wp_put. rewrite live_app, Ho1. cbn. split; [set_solver|]. intros _. by exists pid.
Qed.

Lemma start_owned s log :
  owned s log ->
  wp (host_start env) (fun r s' log' => owned s' log' /\ (r = Ok tt -> exists pid, recorded s' = {[pid]})) s log.
Proof.
  intros Ho. unfold host_start. apply wp_bind, wp_get. destruct (ho_child s) as [c|] eqn:Hc; [|by apply spawn_owned].
  apply wp_bind. eapply wp_mono; [by apply try_wait_owned|]. cbv beta. intros [status|e] s1 log1 (c' & Hc' & Ho1 & Hr); [|done].
  destruct status as [[]|e]; [by apply spawn_owned| |by apply spawn_owned]. destruct Hr as (-> & Er & ->).
  apply wp_ret. split; [done|]. intros _. exists (ch_pid c). unfold recorded. by rewrite Hc', Er.
Qed.

Lemma force_stop_owned c s log :
  ho_child s = Some c -> owned s log ->
  wp (force_stop env c) (fun r s' log' => owned s' log' /\ (r = Ok tt -> ho_child s' = None)) s log.
Proof.
  intros Hc Ho. unfold force_stop. apply wp_bind, wp_map_err. apply wp_bind, wp_ask.
  unfold owned, recorded in *. rewrite Hc in Ho. intros [u|e].
  - apply wp_put. cbn [map_err]. apply wp_bind, wp_get. cbn [ho_child set_child]. apply wp_bind, wp_map_err.
    unfold child_wait. cbn [ch_reaped reap]. apply wp_ret. cbn [map_err]. apply wp_put. rewrite live_app, Ho. cbn.
    split; [|done]. destruct (ch_reaped c); set_solver.
  - by rewrite live_app, Hc.
Qed.

Lemma stop_owned s log :
  owned s log ->
  wp (host_stop env) (fun r s' log' => owned s' log' /\ (r = Ok tt -> ho_child s' = None)) s log.
Proof.
  intros Ho. unfold host_stop. apply wp_bind, wp_get. destruct (ho_child s) as [c|] eqn:Hc; [|by apply wp_ret].
  unfold child_id. destruct (ch_reaped c) eqn:Er; [by apply force_stop_owned|].
  apply wp_bind, wp_observe. intros []. apply wp_bind, wp_observe. intros waited.
  assert (forall w, w <> GwExited -> owned s ((log ++ [PeInterrupt (ch_pid c)]) ++ [PeGraceWait (ch_pid c) w])%list) as Hk.
  { intros w Hw. unfold owned. rewrite !live_app. by destruct w. }
  destruct waited as [|e|]; [|by apply force_stop_owned; [|apply Hk]..].
  apply wp_put. split; [|done]. unfold owned, recorded in *. rewrite !live_app. cbn. rewrite Ho, Hc, Er. set_solver.
Qed.

Lemma healthy_owned s log :
  owned s log ->
  wp (host_healthy env) (fun r s' log' => owned s' log' /\
    (r = Ok true -> exists pid before, recorded s' = {[pid]} /\ log' = (before ++ [PeTryWait pid (Ok false)])%list)) s log.
Proof.
  intros Ho. unfold host_healthy. apply wp_bind, wp_get. destruct (ho_child s) as [c|] eqn:Hc; [|by apply wp_ret].
  apply wp_bind. eapply wp_mono; [by apply try_wait_owned|]. cbv beta. intros [status|e] s1 log1 (c' & Hc' & Ho1 & Hr); [|done].
  apply wp_ret. split; [done|]. destruct status as [[]|e]; try done. destruct Hr as (-> & Er & ->). intros _.
  exists (ch_pid c), log. unfold recorded. by rewrite Hc', Er.
Qed.

Lemma host_op_owned op s log :
  owned s log -> wp (run_host_op env op) (fun r s' log' => owned s' log' /\ host_outcome op r s' log') s log.
Proof.
  intros Ho. destruct op; cbn [run_host_op].
  - apply wp_bind. eapply wp_mono; [by apply start_owned|]. cbv beta. intros [[]|e] s1 log1 [Ho1 Hr]; [apply wp_ret|]; cbn; auto.
  - apply wp_bind. eapply wp_mono; [by apply stop_owned|]. cbv beta. intros [[]|e] s1 log1 [Ho1 Hr]; [apply wp_ret|]; cbn; auto.
  - eapply wp_mono; [by apply healthy_owned|]. cbv beta. intros [b|e] s1 log1 [Ho1 Hr]; cbn; [|done]. split; [done|].
    intros ->. by apply Hr.
Qed.

(** C26: The daemon never loses or doubles the replication agent.  After any
    sequence of starts, stops and health checks, whichever of their calls fail,
    the agent processes that are not known to have ended are exactly the one the
    backend has recorded: at most one.  A start that succeeds leaves one, a stop
    that succeeds leaves none, and a check that says healthy has just seen it
    running. *)
Theorem host_corrosion_owned binary config_path ops op s log r s' log' :
  run_host_ops env ops (HostCorrosion_new binary config_path, []) = (Ok tt, (s, log)) ->
  run_host_op env op (s, log) = (r, (s', log')) ->
  live log' = recorded s' /\ (size (live log') <= 1)%nat /\
  match op, r with
  | HoStart, Ok _ => exists pid, live log' = {[pid]}
  | HoStop, Ok _ => live log' = ∅
  | HoHealthy, Ok healthy => healthy = true ->
      exists pid before, live log' = {[pid]} /\ log' = (before ++ [PeTryWait pid (Ok false)])%list
  | _, Err _ => True
  end.
Proof.
  intros Hops Hop.
  assert (wp (run_host_ops env ops) (fun _ s log => owned s log) (HostCorrosion_new binary config_path) []) as Hr.
  { apply (wp_for (fun _ s log => owned s log)); [done| |done]. intros done x rest m log1 _ Ho. apply wp_ignore.
    eapply wp_mono; [by apply host_op_owned|]. cbv beta. by intros ? ? ? [? _]. }
  unfold wp in Hr. rewrite Hops in Hr. pose proof (host_op_owned op s log Hr) as Ho. unfold wp in Ho. rewrite Hop in Ho.
  destruct Ho as [Ho Hout]. unfold owned in Ho. rewrite Ho. split_and!; [done| |].
  - unfold recorded. destruct (ho_child s') as [c|]; [destruct (ch_reaped c)|]; rewrite ?size_empty, ?size_singleton; lia.
  - destruct op, r as [b|e]; cbn in Hout; try done. unfold recorded. by rewrite Hout.
Qed.
End host_laws.

(** A system that gives each process an unused number, on which the agent has
    exited by the second check. *)
Definition sample_proc : ProcEnv := {|
  pv_log_path := Some ""; pv_rust_log := None;
  pv_try_wait _ log := Ok (Nat.leb 4 (length log)); pv_open_log _ _ := Ok tt; pv_clone_log _ _ := Ok tt;
  pv_spawn _ log := Ok (fresh (live log)); pv_grace_wait _ _ := GwElapsed;
  pv_kill c _ := if ch_reaped c then Err "invalid argument: can't kill an exited process" else Ok tt;
  pv_wait _ _ := Ok tt |}.
#[export] Instance sample_proc_laws : ProcLaws sample_proc.
Proof. split. intros command log pid [= <-]. apply is_fresh. Qed.

Definition sample_ops : list HostOp := [HoStart; HoHealthy].
Lemma host_corrosion_owned_witness :
  exists s log r s' log',
    run_host_op sample_proc HoHealthy (s, log) = (r, (s', log')) /\ r = Ok false /\ live log' = recorded s' /\ ho_child s' <> None.
Proof.
  set (st := (run_host_ops sample_proc sample_ops (HostCorrosion_new "/usr/bin/corrosion" "/n/corrosion/config.toml", [])).2).
  set (st' := (run_host_op sample_proc HoHealthy st).2).
  exists st.1, st.2, (Ok false), st'.1, st'.2. split; [vm_compute; reflexivity|]. split; [done|]. split; [|by vm_compute].
  apply (host_corrosion_owned sample_proc "/usr/bin/corrosion" "/n/corrosion/config.toml" sample_ops HoHealthy st.1 st.2
           (Ok false) st'.1 st'.2); vm_compute; reflexivity.
Defined.

(** Stopping an agent that has exited, once a health check has noticed it: its
    exit status was read, so there is no process to interrupt, and [Child::kill]
    refuses.  The stop fails and so does each later one. *)
Lemma stop_after_exit env c e s log :
  ho_child s = Some c -> ch_reaped c = true -> pv_kill env c log = Err e ->
  host_stop env (s, log) = (Err (stop_error ("failed to kill pid None: " +:+ e)), (s, (log ++ [PeKill c (Err e)])%list)).
Proof.
  intros Hc Hr He. unfold host_stop, mbind, mget. cbn [fst]. rewrite Hc. unfold child_id. rewrite Hr.
  unfold force_stop, mbind, mmap_err, child_kill, mbind, mask. rewrite He. unfold child_id. by rewrite Hr.
Qed.
(** The run: started, healthy, exited, and the stop reports a failure. *)
Example stop_after_exit_run :
  (run_host_op sample_proc HoStop
     (run_host_ops sample_proc [HoStart; HoHealthy; HoHealthy]
        (HostCorrosion_new "/usr/bin/corrosion" "/n/corrosion/config.toml", [])).2).1
  = Err "corrosion stop: failed to kill pid None: invalid argument: can't kill an exited process".
Proof. vm_compute. reflexivity. Qed.

(** ** The agent as a container *)

Record DockerCorrosion := {
  do_container_name : string; do_image : string; do_cmd : option (list string); do_env : list string;
  do_volumes : list string; do_network_mode : option string
}.
(** The builder has the same fields; [build] connects to Docker. *)
Definition DockerCorrosion_new (container_name image : string) : DockerCorrosion := {|
  do_container_name := container_name; do_image := image; do_cmd := None; do_env := []; do_volumes := [];
  do_network_mode := None |}.
Definition dc_cmd (cmd : list string) (self : DockerCorrosion) : DockerCorrosion := {|
  do_container_name := do_container_name self; do_image := do_image self; do_cmd := Some cmd; do_env := do_env self;
  do_volumes := do_volumes self; do_network_mode := do_network_mode self |}.
Definition dc_volume (spec : string) (self : DockerCorrosion) : DockerCorrosion := {|
  do_container_name := do_container_name self; do_image := do_image self; do_cmd := do_cmd self; do_env := do_env self;
  do_volumes := (do_volumes self ++ [spec])%list; do_network_mode := do_network_mode self |}.
Definition dc_network_mode (mode : string) (self : DockerCorrosion) : DockerCorrosion := {|
  do_container_name := do_container_name self; do_image := do_image self; do_cmd := do_cmd self; do_env := do_env self;
  do_volumes := do_volumes self; do_network_mode := Some mode |}.
Definition dc_build (connect : result Error unit) (self : DockerCorrosion) : Res DockerCorrosion :=
  match connect with Ok _ => Ok self | Err e => Err e end.

Definition dc_to_runtime_spec (self : DockerCorrosion) : RuntimeContainerSpec :=
  let key := "system/corrosion" in {|
  rc_key := key; rc_container_name := do_container_name self; rc_image := do_image self; rc_pull_policy := IfNotPresent;
  rc_cmd := do_cmd self; rc_entrypoint := None; rc_env := parse_env_pair <$> do_env self;
  rc_labels := build_system_labels key None; rc_binds := do_volumes self; rc_tmpfs := ∅; rc_dns_servers := [];
  rc_network_mode := do_network_mode self; rc_port_bindings := None; rc_exposed_ports := None; rc_cap_add := [];
  rc_cap_drop := []; rc_privileged := false; rc_user := None; rc_restart_policy := None; rc_memory_bytes := None;
  rc_nano_cpus := None; rc_sysctls := ∅; rc_stop_timeout := None; rc_pid_mode := None |}.

Section docker.
Context {D : Type} `{Docker D}.
Abbreviation M A := (eff D DockerCall string A) (only parsing).
Definition docker_start (self : DockerCorrosion) : M unit :=
  _ <-! mmap_err error_to_string (ensure (dc_to_runtime_spec self)) ;; mret tt.
Definition docker_stop (self : DockerCorrosion) : M unit :=
  mmap_err error_to_string (engine_remove (do_container_name self) COR_STOP_GRACE_PERIOD).
Definition docker_healthy (self : DockerCorrosion) : M bool :=
  r <-! mtry (mmap_err error_to_string (engine_inspect (do_container_name self))) ;;
  mret (match r with Ok (Some observed) => oc_running observed | Ok None | Err _ => false end).
End docker.

(** ** Setting it up *)

Section runtime.
Context `{Toml} (SCHEMA_SQL : string).

Definition overlay_addr (overlay_ip : OverlayIp) (port : N) : SocketAddr := {| sa_ip := V6 overlay_ip; sa_port := port |}.

Definition docker_corrosion_runtime (connect : result Error unit) (overlay_ip : OverlayIp) (network_dir : PathBuf)
    (bootstrap : list string) (network_id image : string) : io DockerCorrosion :=
  let paths := CorPaths_new network_dir in
  let config_paths := {| cp_db := "/data/store.db"; cp_admin := "/data/admin.sock"; cp_schema := "/etc/corrosion/schema.sql";
                         cp_dir := cp_dir paths; cp_config := cp_config paths |} in
  _ <-/ io_map_err (fun e => "write corrosion config: " +:+ e)
          (write_config config_paths paths SCHEMA_SQL (overlay_addr overlay_ip DEFAULT_GOSSIP_PORT)
             (overlay_addr overlay_ip DEFAULT_API_PORT) bootstrap (Some network_id)) ;;
  io_lift (map_err (fun e => "docker service: " +:+ error_to_string e) (dc_build connect
    (dc_network_mode "container:ployz-networking"
    (dc_volume "ployz-corrosion-data:/data"
    (dc_volume (cp_schema paths +:+ ":/etc/corrosion/schema.sql:ro")
    (dc_volume (cp_config paths +:+ ":/etc/corrosion/config.toml:ro")
    (dc_cmd ["agent"; "-c"; "/etc/corrosion/config.toml"] (DockerCorrosion_new "ployz-corrosion" image)))))))).

Definition host_corrosion_runtime (overlay_ip : OverlayIp) (network_dir : PathBuf) (bootstrap : list string)
    (network_id : string) : io HostCorrosion :=
  let paths := CorPaths_new network_dir in
  _ <-/ io_map_err (fun e => "write corrosion config: " +:+ e)
          (write_config paths paths SCHEMA_SQL (overlay_addr overlay_ip DEFAULT_GOSSIP_PORT)
             (overlay_addr overlay_ip DEFAULT_API_PORT) bootstrap (Some network_id)) ;;
  fun fs => (match which_corrosion fs with
             | Ok binary => Ok (HostCorrosion_new binary (cp_config paths))
             | Err e => Err e
             end, fs).
End runtime.

(** ** The container's promise *)

(** Docker says that a container is not there only when it is not. *)
Class DockerRemoveLaws (D : Type) `{DockerLaws D} := {
  law_remove_missing : forall name force d e d', dk_remove_container name force d = (Err e, d') ->
    has_status [404%N] e = true -> dk_view d' name = None
}.

Section docker_laws.
Context {D : Type} `{DockerRemoveLaws D}.

Definition container_runs (d : D) (name : string) : Prop :=
  exists info, dk_view d name = Some info /\ ci_running info = Some true.

Lemma runs_view (d d' : D) name : same_view d d' -> container_runs d name -> container_runs d' name.
Proof. intros Hv (info & Hi & Hr). exists info. by rewrite Hv. Qed.

Lemma wp_any {St Call E A} (c : eff St Call E A) m log : wp c (fun _ _ _ => True) m log.
Proof. unfold wp. by destruct (c (m, log)) as [r [m' log']]. Qed.

Lemma create_runs spec parent_id (d : D) log :
  wp (create_and_start spec parent_id) (fun r d' _ => is_ok r = true -> container_runs d' (rc_container_name spec)) d log.
Proof.
  unfold create_and_start. apply wp_bind. eapply wp_mono; [apply wp_any|].
  intros [u|e] d1 log1 _; [|done]. apply wp_bind, wp_dk. intros r d2 _. apply wp_bind. destruct r as [u'|e]; [|by apply wp_fail].
  apply wp_ret, wp_bind, wp_dk. intros r d3 [_ Hst]%law_start. apply wp_bind. destruct r as [u''|e]; [|by apply wp_fail].
  destruct (Hst eq_refl) as (_ & info & _ & Hv & _ & Hrun & _). apply wp_ret, wp_bind, wp_dk. intros r d4 [Hv4 _]%law_inspect.
  apply wp_bind. destruct r as [info4|e]; [|by apply wp_fail]. apply wp_ret, wp_ret. intros _. exists info. by rewrite Hv4.
Qed.

Lemma ensure_runs spec (d : D) log :
  wp (ensure spec) (fun r d' _ => is_ok r = true -> container_runs d' (rc_container_name spec)) d log.
Proof.
  unfold ensure. apply wp_bind. eapply wp_mono; [apply inspect_spec|]. intros [o|e] d1 log1 (Hv1 & _ & Ho); [|done].
  apply wp_bind. eapply wp_mono; [apply resolve_parent_spec|]. intros [pid|e] d2 log2 (Hv2 & _ & _); [|done].
  assert (forall d3 log3 fields, wp ('(container_id, ip_address, networks) <-! create_and_start spec pid ;;
      mret {| er_container_id := container_id; er_container_name := rc_container_name spec; er_action := fields;
              er_ip_address := ip_address; er_networks := networks |})
      (fun r d' _ => is_ok r = true -> container_runs d' (rc_container_name spec)) d3 log3) as Hcreate.
  { intros d3 log3 fields. apply wp_bind. eapply wp_mono; [apply create_runs|].
    intros [[[cid ip] nets]|e] d4 log4 Hr; [|done]. apply wp_ret. intros _. by apply Hr. }
  match goal with |- wp (match ?x with _ => _ end) _ _ _ => destruct x as [| |fields] eqn:Hch end.
  - destruct (dk_view d (rc_container_name spec)) as [info|] eqn:Hi; subst o; cbn [option_map] in *; [|done].
    apply wp_ret. intros _. destruct (negb _); [done|]. exists info. rewrite Hv2, Hv1. split; [done|].
    unfold eval_spec_change in Hch. destruct (oc_running (observe info)) eqn:Er; [|done]. cbn in Er.
    by destruct (ci_running info) as [[]|].
  - apply wp_bind. eapply wp_mono; [apply pull_spec|]. intros [u|e] d3 log3 _; [|done]. apply Hcreate.
  - apply wp_bind. eapply wp_mono; [apply pull_spec|]. intros [u|e] d3 log3 _; [|done]. apply wp_bind.
    eapply wp_mono; [apply wp_any|]. intros [u'|e] d4 log4 _; [|done]. apply Hcreate.
Qed.

Lemma healthy_spec self (d : D) log :
  wp (docker_healthy self) (fun r d' _ => same_view d d' /\ match r with
    | Ok true => container_runs d (do_container_name self)
    | Ok false => ~ container_runs d (do_container_name self) \/
                  exists e, (dk_inspect_container (do_container_name self) d).1 = Err e
    | Err _ => False
    end) d log.
Proof.
  unfold docker_healthy. apply wp_bind, wp_try, wp_map_err. apply wp_bind, wp_dk. intros r d1 E.
  destruct (law_inspect _ _ _ _ E) as [Hv Hr]. assert (same_view d d1) as Hs by exact Hv. destruct r as [info|e].
  - apply wp_ret. cbn [map_err]. apply wp_ret. split; [done|]. cbn [observe oc_running].
    destruct (ci_running info) as [[]|] eqn:Er; cbn [default]; [by exists info|left|left];
      intros (i & Hi & Hrun); rewrite Hr in Hi; simplify_eq; by rewrite Er in Hrun.
  - assert (exists e0, (dk_inspect_container (do_container_name self) d).1 = Err e0) as He by (rewrite E; by exists e).
    destruct (has_status [404%N] e); [apply wp_ret|apply wp_fail]; cbn [map_err]; apply wp_ret; auto.
Qed.

(** The container keeps the same promise as the process.  A start that
    succeeds, whether it adopted, created or replaced the container, leaves it
    running; a stop that succeeds leaves no container of that name; and a health
    check changes nothing, says healthy only of a running container, and
    unhealthy only when the container does not run or Docker could not be
    asked. *)
Theorem docker_corrosion_service self (d d' : D) log log' :
  (docker_start self (d, log) = (Ok tt, (d', log')) -> container_runs d' (do_container_name self)) /\
  (docker_stop self (d, log) = (Ok tt, (d', log')) -> dk_view d' (do_container_name self) = None) /\
  (forall healthy, docker_healthy self (d, log) = (Ok healthy, (d', log')) -> same_view d d' /\
     (healthy = true -> container_runs d' (do_container_name self)) /\
     (healthy = false -> ~ container_runs d' (do_container_name self) \/
        exists e, (dk_inspect_container (do_container_name self) d).1 = Err e)).
Proof.
  split_and!.
  - intros E. assert (wp (docker_start self) (fun r d' _ => r = Ok tt -> container_runs d' (do_container_name self)) d log) as Hw.
    { apply wp_bind, wp_map_err. eapply wp_mono; [apply ensure_runs|]. intros [res|e] d1 log1 Hr; [|done].
      apply wp_ret. intros _. by apply Hr. }
    unfold wp in Hw. rewrite E in Hw. by apply Hw.
  - intros E. assert (wp (docker_stop self) (fun r d' _ => r = Ok tt -> dk_view d' (do_container_name self) = None) d log) as Hw.
    { apply wp_map_err, wp_bind. eapply wp_mono; [apply wp_any|]. intros [u|e] d1 log1 _; [|done]. apply wp_bind, wp_dk.
      intros r d2 Er. pose proof (law_remove _ _ _ _ _ Er) as [_ Hr]. destruct r as [u'|e]; [by apply wp_ret|].
      destruct (has_status [404%N] e) eqn:E4; [|by apply wp_fail]. apply wp_ret. intros _.
      by apply (law_remove_missing _ _ _ _ _ Er). }
    unfold wp in Hw. rewrite E in Hw. by apply Hw.
  - intros b E. pose proof (healthy_spec self d log) as Hw. unfold wp in Hw. rewrite E in Hw. destruct Hw as [Hv Hr].
    split; [done|]. destruct b; split; try done; intros _.
    + by apply (runs_view d).
    + destruct Hr as [Hn|He]; [left|by right]. intros Hc. apply Hn. apply (runs_view d'); [intros n; by rewrite Hv|done].
Qed.
End docker_laws.

#[export] Instance ref_docker_remove_laws : DockerRemoveLaws ref_docker.
Proof.
  split. intros name force d e d'. cbn. destruct (d !! name) as [x|] eqn:E; [done|]. intros [= <- <-] _. by rewrite E.
Qed.

Definition sample_agent : DockerCorrosion :=
  dc_network_mode "container:ployz-networking" (dc_volume "ployz-corrosion-data:/data"
    (dc_cmd ["agent"; "-c"; "/etc/corrosion/config.toml"] (DockerCorrosion_new "ployz-corrosion" "corrosion:v1"))).
Lemma docker_corrosion_service_witness :
  exists d' log', docker_start sample_agent ((∅ : ref_docker), []) = (Ok tt, (d', log')) /\
    container_runs d' "ployz-corrosion".
Proof.
  set (st := (docker_start sample_agent ((∅ : ref_docker), [])).2). exists st.1, st.2.
  assert (docker_start sample_agent ((∅ : ref_docker), []) = (Ok tt, (st.1, st.2))) as E by (vm_compute; reflexivity).
  split; [exact E|]. apply (docker_corrosion_service sample_agent (∅ : ref_docker) st.1 [] st.2). exact E.
Defined.

(** ** What the agent is given *)

(** A bind of the Docker API: [source:target] or [source:target:options]. *)
Definition parse_bind (bind : string) : option (string * string) :=
  match split ":" bind with [source; target] | [source; target; _] => Some (source, target) | _ => None end.
(** What a path of the container stands for: the source of the bind it lies under. *)
Definition resolve_source (path : string) (bind : string * string) : option string :=
  if decide (path = bind.2) then Some bind.1
  else match strip_prefix (bind.2 +:+ "/") path with Some rest => Some (bind.1 +:+ "/" +:+ rest) | None => None end.
Definition mounted (binds : list string) (path : string) : option string :=
  head (omap (resolve_source path) (omap parse_bind binds)).

Section wiring.
Context `{Toml} (SCHEMA_SQL : string).

Lemma write_config_files content host gossip api bootstrap network_id fs fs' :
  cp_config host <> cp_schema host ->
  write_config content host SCHEMA_SQL gossip api bootstrap network_id fs = (Ok tt, fs') ->
  exists toml, toml_to_string_pretty (cor_config content gossip api bootstrap network_id) = Ok toml /\
    fs_files fs' !! cp_config host = Some toml /\ fs_files fs' !! cp_schema host = Some SCHEMA_SQL.
Proof.
  intros Hne. unfold write_config, io_bind. destruct (create_dir_all _ fs) as [[u|e] fs1]; [|done]. unfold io_lift.
  destruct (toml_to_string_pretty _) as [toml|e]; [|done].
  pose proof (write_file_ok (cp_config host) toml fs1) as Hc. destruct (write_file (cp_config host) toml fs1) as [[u1|e] fs2]; [|done].
  pose proof (write_file_ok (cp_schema host) SCHEMA_SQL fs2) as Hs.
  pose proof (write_file_only (cp_schema host) SCHEMA_SQL fs2) as Ho.
  destruct (write_file (cp_schema host) SCHEMA_SQL fs2) as [[u2|e] fs3]; [|done]. intros [= <-].
  exists toml. destruct u1, u2. split_and!; [done| |by apply Hs]. rewrite Ho by done. by apply Hc.
Qed.

Lemma config_not_schema dir : cp_config (CorPaths_new dir) <> cp_schema (CorPaths_new dir).
Proof. cbn. unfold path_join. cbn. intros E. by apply (inj (String.append _)) in E. Qed.

(** The addresses in the configuration are read back as the overlay address. *)
Lemma overlay_addr_read overlay_ip port :
  ip_wf (V6 overlay_ip) -> (port <= 65535)%N ->
  parse_socket_addr (socket_addr_to_string (overlay_addr overlay_ip port)) = Some (overlay_addr overlay_ip port, 0%N).
Proof. intros Hip Hp. by apply parse_socket_addr_print. Qed.

(** What both backends' agents are told: where to listen, whom to join, and
    which network they belong to. *)
Definition told (cfg : CorConfig) (overlay_ip : OverlayIp) (bootstrap : list string) (network_id : string) : Prop :=
  parse_socket_addr (apc_addr (cor_api cfg)) = Some (overlay_addr overlay_ip DEFAULT_API_PORT, 0%N) /\
  parse_socket_addr (gsc_addr (cor_gossip cfg)) = Some (overlay_addr overlay_ip DEFAULT_GOSSIP_PORT, 0%N) /\
  gsc_bootstrap (cor_gossip cfg) = bootstrap /\
  gsc_member_id (cor_gossip cfg) = Some (network_id_to_member_id network_id).

Lemma told_config content overlay_ip bootstrap network_id :
  ip_wf (V6 overlay_ip) ->
  told (cor_config content (overlay_addr overlay_ip DEFAULT_GOSSIP_PORT) (overlay_addr overlay_ip DEFAULT_API_PORT) bootstrap
          (Some network_id)) overlay_ip bootstrap network_id.
Proof. intros Hip. split; [|split]; [by apply overlay_addr_read..|done]. Qed.

(** The agent on the host gets what was written for it.  When
    [host_corrosion_runtime] succeeds, the file named on the agent's command line
    holds a configuration whose schema path names a file with the schema, whose
    database and admin socket are where the rest of the daemon looks for them,
    and whose addresses are read as the machine's overlay address with the two
    ports, however the text of the address is abbreviated. *)
Lemma host_agent_configured overlay_ip network_dir bootstrap network_id fs self fs' :
  ip_wf (V6 overlay_ip) ->
  host_corrosion_runtime SCHEMA_SQL overlay_ip network_dir bootstrap network_id fs = (Ok self, fs') ->
  exists cfg toml schema_path, fs_files fs' !! ho_config_path self = Some toml /\ toml_to_string_pretty cfg = Ok toml /\
    dbc_schema_paths (cor_db cfg) = [schema_path] /\ fs_files fs' !! schema_path = Some SCHEMA_SQL /\
    dbc_path (cor_db cfg) = cp_db (CorPaths_new network_dir) /\
    adc_path (cor_admin cfg) = cp_admin (CorPaths_new network_dir) /\
    told cfg overlay_ip bootstrap network_id.
Proof.
  intros Hip. unfold host_corrosion_runtime, io_bind, io_map_err.
  set (paths := CorPaths_new network_dir). set (gossip := overlay_addr _ DEFAULT_GOSSIP_PORT).
  set (api := overlay_addr _ DEFAULT_API_PORT).
  destruct (write_config paths paths SCHEMA_SQL gossip api bootstrap (Some network_id) fs) as [[[]|e] fs1] eqn:E; [|done]. cbn.
  destruct (which_corrosion fs1) as [binary|e]; [|done]. intros [= <- <-].
  apply write_config_files in E as (toml & Ht & Hc & Hs); [|apply config_not_schema].
  exists (cor_config paths gossip api bootstrap (Some network_id)), toml, (cp_schema paths). split_and!; try done.
  by apply told_config.
Qed.

(** The binds of the container. *)
Definition agent_binds (paths : CorPaths) : list string :=
  [cp_config paths +:+ ":/etc/corrosion/config.toml:ro"; cp_schema paths +:+ ":/etc/corrosion/schema.sql:ro";
   "ployz-corrosion-data:/data"].
Lemma agent_binds_parse network_dir :
  contains_char ":" network_dir = false ->
  let paths := CorPaths_new network_dir in
  omap parse_bind (agent_binds paths) =
    [(cp_config paths, "/etc/corrosion/config.toml"); (cp_schema paths, "/etc/corrosion/schema.sql");
     ("ployz-corrosion-data", "/data")].
Proof.
  intros Hd paths. unfold agent_binds. cbn [omap list_omap]. unfold parse_bind at 1 2.
  rewrite !(split_app ":") by (unfold paths; cbn; unfold path_join; cbn; by rewrite !contains_char_app, Hd). reflexivity.
Qed.

(** None of the container's paths stands for the file the reader of the database opens. *)
Lemma agent_db_unshared network_dir path :
  contains_char ":" network_dir = false -> starts_with network_dir "/" = true ->
  mounted (agent_binds (CorPaths_new network_dir)) path <> Some (cp_db (CorPaths_new network_dir)).
Proof.
  intros Hd [r ->]%starts_with_spec E. unfold mounted in E. rewrite agent_binds_parse in E by done.
  assert (exists b rest, b ∈ [cp_config (CorPaths_new ("/" +:+ r)); cp_schema (CorPaths_new ("/" +:+ r)); "ployz-corrosion-data"] /\
    cp_db (CorPaths_new ("/" +:+ r)) = b +:+ rest /\ (rest = "" \/ exists q, rest = "/" +:+ q)) as (b & rest & Hb & Hdb & Hrest).
  { apply head_Some_elem_of, list_elem_of_omap in E as ((source & target) & Hin & Hr). unfold resolve_source in Hr. cbn in Hr.
    exists source. destruct (decide _).
    - exists "". rewrite append_empty_r. simplify_eq. split_and!; [set_solver|done|by left].
    - destruct strip_prefix as [q|]; [|done]. exists ("/" +:+ q). simplify_eq. split_and!; [set_solver|done|eauto]. }
  cbn in Hdb, Hb. unfold path_join in Hdb, Hb. cbn in Hdb, Hb.
  repeat (apply elem_of_cons in Hb as [->|Hb]); [..|by apply elem_of_nil in Hb]; [| |done];
    injection Hdb as Hdb; rewrite !append_assoc in Hdb; apply (inj (String.append _)) in Hdb; done.
Qed.

(** The agent in the container gets what was written for it.  When
    [docker_corrosion_runtime] succeeds (and the directory's name has no colon,
    which binds cannot carry), the path on the agent's command line stands for
    the configuration file written on the host, the schema path in it for the
    schema file written on the host, and the addresses in it are read as the
    machine's overlay address.  Its database, though, lies in a volume: no path
    of the container stands for the file the daemon reads seeds from. *)
Lemma docker_agent_configured connect overlay_ip network_dir bootstrap network_id image fs self fs' :
  ip_wf (V6 overlay_ip) -> contains_char ":" network_dir = false ->
  docker_corrosion_runtime SCHEMA_SQL connect overlay_ip network_dir bootstrap network_id image fs = (Ok self, fs') ->
  exists config_path schema_path host_config host_schema cfg toml,
    do_cmd self = Some ["agent"; "-c"; config_path] /\
    mounted (do_volumes self) config_path = Some host_config /\ fs_files fs' !! host_config = Some toml /\
    toml_to_string_pretty cfg = Ok toml /\ dbc_schema_paths (cor_db cfg) = [schema_path] /\
    mounted (do_volumes self) schema_path = Some host_schema /\ fs_files fs' !! host_schema = Some SCHEMA_SQL /\
    told cfg overlay_ip bootstrap network_id /\
    mounted (do_volumes self) (dbc_path (cor_db cfg)) = Some "ployz-corrosion-data/store.db" /\
    (starts_with network_dir "/" = true ->
     forall path, mounted (do_volumes self) path <> Some (cp_db (CorPaths_new network_dir))).
Proof.
  intros Hip Hd. unfold docker_corrosion_runtime, io_bind, io_map_err. set (paths := CorPaths_new network_dir).
  set (content := Build_CorPaths _ _ _ _ _). set (gossip := overlay_addr _ DEFAULT_GOSSIP_PORT).
  set (api := overlay_addr _ DEFAULT_API_PORT).
  destruct (write_config content paths SCHEMA_SQL gossip api bootstrap (Some network_id) fs) as [[[]|e] fs1] eqn:E; [|done].
  cbn [map_err fst snd]. unfold io_lift, dc_build. destruct connect as [u|e]; [|done]. intros [= <- <-].
  apply write_config_files in E as (toml & Ht & Hc & Hs); [|apply config_not_schema].
  change (do_volumes _) with (agent_binds paths). pose proof (agent_binds_parse network_dir Hd) as Hb.
  exists "/etc/corrosion/config.toml", "/etc/corrosion/schema.sql", (cp_config paths), (cp_schema paths),
    (cor_config content gossip api bootstrap (Some network_id)), toml.
  split_and!; try done; try (unfold mounted; fold paths in Hb; by rewrite Hb).
  - by apply told_config.
  - intros Hs' path. by apply agent_db_unshared.
Qed.
End wiring.

(** A printer of configurations, for the examples. *)
#[export] Instance sample_toml : Toml := {| toml_to_string_pretty cfg := Ok (gsc_addr (cor_gossip cfg)) |}.
Definition sample_host : Fs := {| fs_files := {["/usr/bin/corrosion" := ""]}; fs_dirs := ∅; fs_faults := [] |}.
Definition sample_overlay : OverlayIp := 253%N :: replicate 15 0%N.
