(* ===== verification/Membership.v ===== *)
(** * The store's surroundings

    How the daemon reads the replication agent from outside its API: the machines
    in the agent's database before it runs ([ployz-corrosion/src/bootstrap.rs]),
    the members of the cluster through its admin socket ([admin.rs]), and the
    connection and synchronisation status of [store/mod.rs].

    SQLite is [SqliteEnv]: opening a file gives its tables, and statements are
    those of [Sql], with the names checked when a statement is prepared.  JSON
    values and the socket are arguments. *)

From S2P Require Import Prelude Order Effect Text Types Addr RefCodec Files Invite IpnetRef Store Dataplane Services Daemon Startup Client Sql Corrosion StoreRuntime.
Local Open Scope string_scope.
#[local] Arguments String.append !_ _ : simpl nomatch.

(** ** Machines in the database ([bootstrap.rs]) *)

(** An open database; [sq_type_error] is the message for a row whose values do
    not have the types asked for, [sq_step] a failure to read the n-th row. *)
Record SqliteDb := {
  sq_tables : string -> option TableSchema; sq_rows : gmap string (list (list (string * SqliteValue)));
  sq_query : option string; sq_step : nat -> option string; sq_type_error : list SqliteValue -> string
}.
Abbreviation SqliteEnv := (PathBuf -> result string SqliteDb) (only parsing).

(** [Connection::prepare]: the table, then the columns in the order they are
    written, must exist. *)
Definition sqlite_prepare (db : SqliteDb) (sql : string) : result string stmt :=
  match parse_sql sql with
  | Some (SSelect columns table [] order limit) =>
      match sq_tables db table with
      | None => Err ("no such table: " +:+ table)
      | Some ts =>
          match find (fun c => negb (bool_decide (c ∈ ts_columns ts))) (columns ++ order)%list with
          | Some c => Err ("no such column: " +:+ c)
          | None => Ok (SSelect columns table [] order limit)
          end
      end
  | _ => Err "syntax error"
  end.

Definition peer_query : string :=
  "SELECT id, public_key, overlay_ip, subnet, bridge_ip, endpoints FROM machines ORDER BY id".

(** The values of a row, as the types the source asks for. *)
Record RawMachine := {
  rm_id : string; rm_public_key : list N; rm_overlay_ip : string; rm_subnet : string; rm_bridge_ip : string;
  rm_endpoints : string
}.
Definition get_raw (row : list SqliteValue) : option RawMachine :=
  match row with
  | [SvText id; SvBlob public_key; SvText overlay_ip; SvText subnet; SvText bridge_ip; SvText endpoints] =>
      Some {| rm_id := id; rm_public_key := public_key; rm_overlay_ip := overlay_ip; rm_subnet := subnet;
              rm_bridge_ip := bridge_ip; rm_endpoints := endpoints |}
  | _ => None
  end.

Definition with_bridge_ip (bridge_ip : option OverlayIp) (r : MachineRecord) : MachineRecord := {|
  mr_id := mr_id r; mr_public_key := mr_public_key r; mr_overlay_ip := mr_overlay_ip r; mr_subnet := mr_subnet r;
  mr_bridge_ip := bridge_ip; mr_endpoints := mr_endpoints r; mr_status := mr_status r;
  mr_participation := mr_participation r; mr_last_heartbeat := mr_last_heartbeat r; mr_created_at := mr_created_at r;
  mr_updated_at := mr_updated_at r; mr_labels := mr_labels r |}.

Section bootstrap.
Context `{SqliteJson} `{Ipnet} `{RecordCodec (list string)}.

(** The body of the loop: [None] where it continues with the next row. *)
Definition seed_of_raw (r : RawMachine) : option MachineRecord :=
  if is_empty (rm_overlay_ip r) then None
  else if negb (Nat.eqb (length (rm_public_key r)) 32) then None
  else match parse_ipv6 (rm_overlay_ip r) with
       | None => None
       | Some overlay =>
           let subnet_parsed := if is_empty (rm_subnet r) then None else ipnet_parse (rm_subnet r) in
           let bridge_parsed := if is_empty (rm_bridge_ip r) then None else parse_ipv6 (rm_bridge_ip r) in
           let endpoints_parsed := match from_json (rm_endpoints r) with Ok l => l | Err _ => [] end in
           Some (with_bridge_ip bridge_parsed
                   (machine_seed (rm_id r) (rm_public_key r) overlay subnet_parsed endpoints_parsed))
       end.

(** The loop over the rows: the first failure ends it. *)
Fixpoint read_rows (db : SqliteDb) (path : PathBuf) (n : nat) (rows : list (list SqliteValue))
    : result string (list MachineRecord) :=
  match rows with
  | [] => Ok []
  | row :: rows =>
      let failed e := Err ("read machine row from '" +:+ path +:+ "': " +:+ e) in
      match sq_step db n with
      | Some e => failed e
      | None =>
          match get_raw row with
          | None => failed (sq_type_error db row)
          | Some raw =>
              records <-? read_rows db path (S n) rows ;;
              Ok (match seed_of_raw raw with Some r => r :: records | None => records end)
          end
      end
  end.

Definition peer_records_from_db (open : SqliteEnv) (network_dir : PathBuf) (fs : Fs) : result string (list MachineRecord) :=
  let db_path := cp_db (CorPaths_new network_dir) in
  if negb (exists_path db_path fs) then Ok []
  else
    conn <-? map_err (fun e => "open corrosion db '" +:+ db_path +:+ "': " +:+ e) (open db_path) ;;
    match sqlite_prepare conn peer_query with
    | Err message =>
        if contains_str "no such table: machines" message then Ok []
        else Err ("prepare peer_records_from_db query '" +:+ db_path +:+ "': " +:+ message)
    | Ok stmt =>
        match sq_query conn with
        | Some e => Err ("query peer_records_from_db '" +:+ db_path +:+ "': " +:+ e)
        | None => read_rows conn db_path 0 (default [] (select_stmt [] stmt (sq_rows conn)))
        end
    end.

Definition corrosion_bootstrap_from_db (open : SqliteEnv) (network_dir : PathBuf) (local_machine_id : MachineId) (fs : Fs)
    : result string (list string) :=
  records <-? peer_records_from_db open network_dir fs ;;
  Ok ((fun machine => "[" +:+ ipv6_to_string (mr_overlay_ip machine) +:+ "]:" +:+ dec DEFAULT_GOSSIP_PORT) <$>
      filter (fun machine => mr_id machine <> local_machine_id) records).

Definition seed_machine_records (open : SqliteEnv) (network_dir : PathBuf) (fs : Fs) : Res (list MachineRecord) :=
  map_err (fun e => Operation "seed_machine_records" e) (peer_records_from_db open network_dir fs).
Definition bootstrap_addrs (open : SqliteEnv) (network_dir : PathBuf) (local_machine_id : MachineId) (fs : Fs)
    : Res (list string) :=
  map_err (fun e => Operation "bootstrap_addrs" e) (corrosion_bootstrap_from_db open network_dir local_machine_id fs).
End bootstrap.

(** ** The admin socket ([admin.rs]) *)

Inductive MembershipState := Alive | Suspect | Down.
#[export] Instance MembershipState_eq_dec : EqDecision MembershipState.
Proof. solve_decision. Defined.
Definition is_active (s : MembershipState) : bool := match s with Alive | Suspect => true | Down => false end.
(** An IPv6 address carries a scope, which takes part in comparisons. *)
Record ClusterMembershipState := {
  cm_addr : SocketAddr * N; cm_id : string; cm_state : MembershipState; cm_timestamp : N
}.

(** [serde_json::Value]; of a number that is a float, its integral part. *)
Inductive Number := PosInt (n : N) | NegInt (z : Z) | Float (integral : Z).
Inductive Value :=
| VNull | VBool (b : bool) | VNumber (n : Number) | VString (s : string) | VArray (l : list Value)
| VObject (fields : list (string * Value)).
Definition get_field (key : string) (fields : list (string * Value)) : option Value :=
  snd <$> find (fun f => String.eqb f.1 key) fields.
(** [as_u64], or [as_f64] converted, which saturates. *)
Definition as_u64_or_f64 (v : Value) : option N :=
  match v with
  | VNumber (PosInt n) => Some n
  | VNumber (NegInt _) => Some 0%N
  | VNumber (Float z) => Some (N.min (Z.to_N z) u64_max)
  | _ => None
  end.

Inductive AdminError := AeIo (e : string) | AeJson (e : string) | AeResponse (e : string) | AeInvalidPayload (e : string).
Definition admin_error_to_string (e : AdminError) : string :=
  match e with AeIo e | AeJson e | AeResponse e | AeInvalidPayload e => e end.

Class AdminJson := {
  value_from_slice : list N -> result string Value;
  value_to_string : Value -> string;
  addr_parse_error : string -> string                     (* the message of [AddrParseError] *)
}.

(** The socket: connecting, sending a request, and the bytes the agent then
    sends until it closes. *)
Record AdminSocket := {
  ak_connect : result string unit; ak_write : list N -> result string unit; ak_reply : list N -> list N
}.

Definition encode_frame (data : list N) : list N := (reverse (le_bytes 4 (N.of_nat (length data))) ++ data)%list.
Definition read_exact (n : nat) (stream : list N) : result AdminError (list N * list N) :=
  if Nat.ltb (length stream) n then Err (AeIo "early eof") else Ok (take n stream, drop n stream).
Definition read_frame (stream : list N) : result AdminError (list N * list N) :=
  head <-? read_exact 4 stream ;;
  let length := N.to_nat (le_value (reverse head.1)) in
  read_exact length head.2.

Section admin.
Context `{AdminJson}.

Definition parse_error_message (error : Value) : string :=
  let unexpected := "unexpected admin error payload: " +:+ value_to_string error in
  match error with
  | VObject object => match get_field "msg" object with Some (VString message) => message | _ => unexpected end
  | _ => unexpected
  end.

Definition parse_cluster_membership_state (value : Value) : result AdminError ClusterMembershipState :=
  let invalid {A} (message : string) : result AdminError A := Err (AeInvalidPayload (message +:+ ": " +:+ value_to_string value)) in
  match value with
  | VObject object =>
      match get_field "id" object with
      | Some (VObject id_object) =>
          match get_field "id" id_object with
          | Some (VString id) =>
              match get_field "addr" id_object with
              | Some (VString addr) =>
                  addr <-? ok_or (parse_socket_addr addr)
                             (AeInvalidPayload ("invalid membership addr '" +:+ addr +:+ "': " +:+ addr_parse_error addr)) ;;
                  match get_field "ts" id_object ≫= as_u64_or_f64 with
                  | Some timestamp =>
                      match get_field "state" object with
                      | Some (VString state) =>
                          state <-? (if String.eqb state "Alive" then Ok Alive
                                     else if String.eqb state "Suspect" then Ok Suspect
                                     else if String.eqb state "Down" then Ok Down
                                     else Err (AeInvalidPayload ("unknown membership state '" +:+ state +:+ "'"))) ;;
                          Ok {| cm_addr := addr; cm_id := id; cm_state := state; cm_timestamp := timestamp |}
                      | _ => invalid "membership payload missing state"
                      end
                  | None => invalid "membership payload missing timestamp"
                  end
              | _ => invalid "membership payload missing addr"
              end
          | _ => invalid "membership payload missing actor id"
          end
      | _ => invalid "membership payload missing id object"
      end
  | _ => invalid "membership payload is not an object"
  end.

Abbreviation Latest := (gmap string ClusterMembershipState) (only parsing).
(** Keep the newest state of each member. *)
Definition note_state (latest : Latest) (state : ClusterMembershipState) : Latest :=
  match latest !! cm_id state with
  | Some existing => if (cm_timestamp state <=? cm_timestamp existing)%N then latest else <[cm_id state := state]> latest
  | None => <[cm_id state := state]> latest
  end.
(** [into_values] of a [BTreeMap]. *)
Definition into_values (latest : Latest) : list ClusterMembershipState :=
  snd <$> sort_by (fun a b => str_cmp a.1 b.1) (map_to_list latest).

(** One message: the answer, or the states to go on with. *)
Definition membership_message (latest : Latest) (value : Value)
    : result AdminError (list ClusterMembershipState + Latest) :=
  match value with
  | VString success => if String.eqb success "Success" then Ok (inl (into_values latest)) else Ok (inr latest)
  | VObject object =>
      match get_field "Error" object with
      | Some error => Err (AeResponse (parse_error_message error))
      | None =>
          match get_field "Json" object with
          | None => Ok (inr latest)
          | Some json => state <-? parse_cluster_membership_state json ;; Ok (inr (note_state latest state))
          end
      end
  | VNull | VBool _ | VNumber _ | VArray _ => Ok (inr latest)
  end.
(** The loop reads a frame, at least four bytes, in each round. *)
Fixpoint membership_loop (fuel : nat) (stream : list N) (latest : Latest)
    : option (result AdminError (list ClusterMembershipState)) :=
  match fuel with
  | O => None
  | S fuel =>
      match read_frame stream with
      | Err e => Some (Err e)
      | Ok (frame, stream) =>
          match value_from_slice frame with
          | Err e => Some (Err (AeJson e))
          | Ok value =>
              match membership_message latest value with
              | Err e => Some (Err e)
              | Ok (inl states) => Some (Ok states)
              | Ok (inr latest) => membership_loop fuel stream latest
              end
          end
      end
  end.
(** [{"Cluster":"MembershipStates"}]. *)
Definition membership_request : list N :=
  (code <$> bytes_of ("{" +:+ quote +:+ "Cluster" +:+ quote +:+ ":" +:+ quote +:+ "MembershipStates" +:+ quote +:+ "}")).
Definition cluster_membership_states_latest (socket : AdminSocket) : result AdminError (list ClusterMembershipState) :=
  _ <-? map_err AeIo (ak_connect socket) ;;
  let request := encode_frame membership_request in
  _ <-? map_err AeIo (ak_write socket request) ;;
  let stream := ak_reply socket request in
  default (Err (AeIo "early eof")) (membership_loop (S (length stream)) stream ∅).
End admin.

(** ** Connecting and synchronisation ([store/mod.rs]) *)

#[export] Instance SocketAddr_eq_dec : EqDecision SocketAddr.
Proof. solve_decision. Defined.
Inductive Transport := Direct | TransportBridge (local_addr : SocketAddr).
Record CorrosionStore := {
  cs_api_addr : SocketAddr; cs_transport : Transport; cs_admin : option PathBuf; cs_gossip_addr : SocketAddr
}.
Definition CorrosionStore_new (api_addr : SocketAddr) (transport : Transport) (admin_path : option PathBuf) : CorrosionStore := {|
  cs_api_addr := api_addr; cs_transport := transport; cs_admin := admin_path;
  cs_gossip_addr := {| sa_ip := sa_ip api_addr; sa_port := DEFAULT_GOSSIP_PORT |} |}.
(** The client's base URL. *)
Definition cs_base_url (self : CorrosionStore) : string := "http://" +:+ socket_addr_to_string (cs_api_addr self).

Record NetworkConfigMinimal := { ncm_overlay_ip : OverlayIp }.

(** HTTP over each transport. *)
Class Dial := { dial : Transport -> HttpEnv }.

Section store.
Context `{AdminJson} `{Dial} `{RecordCodec NetworkConfigMinimal}.

Definition store_health (self : CorrosionStore) : result ClientError (Z * Z) :=
  @client_health (dial (cs_transport self)) (cs_base_url self).
Definition store_error (self : CorrosionStore) (e : ClientError) : string :=
  @client_error_to_string (dial (cs_transport self)) e.

Definition connect_for_network (data_dir : PathBuf) (network : string) : fs_eff Error CorrosionStore :=
  let network_dir := network_dir data_dir network in
  let admin_path := cp_admin (CorPaths_new network_dir) in
  let network_path := network_config_path data_dir network in
  raw <-/ io_map_err (fun e => Operation "connect_for_network" ("reading network config from " +:+ network_path +:+ ": " +:+ e))
            (read_file network_path) ;;
  network_config <-/ io_lift (map_err (fun e => Operation "connect_for_network" ("parsing network config: " +:+ e))
                                (from_json (T := NetworkConfigMinimal) raw)) ;;
  let api_addr := overlay_addr (ncm_overlay_ip network_config) DEFAULT_API_PORT in
  let bridge_addr := {| sa_ip := V4 2130706433; sa_port := DEFAULT_API_PORT |} in
  let bridge := CorrosionStore_new api_addr (TransportBridge bridge_addr) (Some admin_path) in
  let direct := CorrosionStore_new api_addr Direct (Some admin_path) in
  if is_ok (store_health bridge) then io_ret bridge
  else if is_ok (store_health direct) then io_ret direct
  else io_fail (Operation "connect_for_network" ("failed to reach corrosion via bridge " +:+ socket_addr_to_string bridge_addr
                  +:+ " or direct " +:+ socket_addr_to_string api_addr)).

Definition is_remote_active (self : CorrosionStore) (state : ClusterMembershipState) : bool :=
  negb (bool_decide (cm_addr state = (cs_gossip_addr self, 0%N))) && is_active (cm_state state).
Definition sync_status (self : CorrosionStore) (sockets : PathBuf -> AdminSocket) : Res SyncStatus :=
  let from_health : Res SyncStatus :=
    health <-? map_err (fun e => Operation "sync_status" ("health request: " +:+ store_error self e)) (store_health self) ;;
    Ok (if (0 <? health.1)%Z then Syncing (Z.to_N health.1) else Synced) in
  match cs_admin self with
  | Some sock_path =>
      states <-? map_err (fun e => Operation "sync_status" ("admin membership request: " +:+ admin_error_to_string e))
                   (cluster_membership_states_latest (sockets sock_path)) ;;
      let active_remote_members := length (List.filter (is_remote_active self) states) in
      if Nat.ltb active_remote_members 1 then Ok Disconnected else from_health
  | None => from_health
  end.

(** [MachineStore::init]: the schema is sent to the agent. *)
Definition store_init (self : CorrosionStore) (SCHEMA_SQL : string) : Res unit :=
  results <-? map_err (fun e => Operation "schema" (store_error self e))
                (@client_schema (dial (cs_transport self)) (cs_base_url self) [Simple SCHEMA_SQL]) ;;
  match head results with
  | Some (ExecError error) => Err (Operation "schema" error)
  | _ => Ok tt
  end.
End store.

(** ** Reading the database *)

Section bootstrap_theorems.
Context `{SqliteJson} `{Ipnet} `{RecordCodec (list string)}.

Definition peer_columns : list string := ["id"; "public_key"; "overlay_ip"; "subnet"; "bridge_ip"; "endpoints"].
Definition peer_select : stmt := SSelect peer_columns "machines" [] ["id"] None.
Lemma peer_query_parses : parse_sql peer_query = Some peer_select.
Proof. vm_compute. reflexivity. Qed.

(** The row of the table that has these values. *)
Definition raw_row (r : RawMachine) : list (string * SqliteValue) :=
  [("id", SvText (rm_id r)); ("public_key", SvBlob (rm_public_key r)); ("overlay_ip", SvText (rm_overlay_ip r));
   ("subnet", SvText (rm_subnet r)); ("bridge_ip", SvText (rm_bridge_ip r)); ("endpoints", SvText (rm_endpoints r))].

Lemma peer_records_no_id open network_dir fs db ts :
  exists_path (cp_db (CorPaths_new network_dir)) fs = true ->
  open (cp_db (CorPaths_new network_dir)) = Ok db -> sq_tables db "machines" = Some ts -> "id" ∉ ts_columns ts ->
  peer_records_from_db open network_dir fs =
    Err ("prepare peer_records_from_db query '" +:+ cp_db (CorPaths_new network_dir) +:+ "': no such column: id").
Proof.
  intros He Ho Ht Hid. unfold peer_records_from_db. rewrite He, Ho. cbn [negb map_err rbind]. unfold sqlite_prepare.
  rewrite peer_query_parses. unfold peer_select. rewrite Ht. cbn [app peer_columns find].
  by rewrite (bool_decide_eq_false_2 ("id" ∈ _)).
Qed.

Definition raw_cmp (a b : RawMachine) : comparison := str_cmp (rm_id a) (rm_id b).
#[local] Instance raw_cmp_total : TotalCmp raw_cmp.
Proof. apply (cmp_on_total rm_id str_cmp _). Qed.
Lemma sort_by_fmap {A B} (f : A -> B) (ca : A -> A -> comparison) (cb : B -> B -> comparison) l :
  (forall x y, cb (f x) (f y) = ca x y) -> sort_by cb (f <$> l) = f <$> sort_by ca l.
Proof.
  intros Hc. induction l as [|x l IH]; [done|]. unfold sort_by in *. cbn. rewrite IH. clear IH.
  generalize (foldr (insert_by ca) [] l). clear l. intros l. induction l as [|y l IH]; [done|].
  cbn. rewrite Hc. destruct (ca x y); cbn; [done|done|]. by rewrite <- IH.
Qed.

Definition raw_values (r : RawMachine) : list SqliteValue :=
  [SvText (rm_id r); SvBlob (rm_public_key r); SvText (rm_overlay_ip r); SvText (rm_subnet r); SvText (rm_bridge_ip r);
   SvText (rm_endpoints r)].
Lemma peer_select_rows rows (raws : list RawMachine) :
  rows_of "machines" rows = raw_row <$> raws ->
  select_stmt [] peer_select rows = Some (raw_values <$> sort_by raw_cmp raws).
Proof.
  intros Hr. unfold select_stmt, peer_select. rewrite Hr.
  replace (where_rows [] true [] (raw_row <$> raws)) with (Some (raw_row <$> raws)).
  2:{ clear. induction raws as [|r raws IH]; [done|]. cbn. by rewrite <- IH. }
  cbn [base.mbind option_bind limit_rows]. rewrite (sort_by_fmap raw_row raw_cmp).
  2:{ intros x y. change (rows_cmp _ _ _) with (then_with (raw_cmp x y) Eq). by destruct (raw_cmp x y). }
  induction (sort_by raw_cmp raws) as [|r l IH]; [done|]. rewrite !fmap_cons. cbn [mapM]. rewrite IH. reflexivity.
Qed.

Lemma read_rows_all db path n (raws : list RawMachine) :
  (forall i, sq_step db i = None) -> read_rows db path n (raw_values <$> raws) = Ok (omap seed_of_raw raws).
Proof.
  intros Hs. revert n. induction raws as [|r raws IH]; intros n; [done|]. rewrite fmap_cons. cbn [read_rows]. rewrite Hs.
  destruct r. cbn [get_raw raw_values rm_id rm_public_key rm_overlay_ip rm_subnet rm_bridge_ip rm_endpoints]. rewrite IH.
  reflexivity.
Qed.

Lemma seeds_sorted raws :
  StronglySorted (fun a b => String.le (mr_id a) (mr_id b)) (omap seed_of_raw (sort_by raw_cmp raws)).
Proof.
  pose proof (sort_by_sorted raw_cmp raws) as Hs.
  assert (forall raw r, seed_of_raw raw = Some r -> mr_id r = rm_id raw) as Hid.
  { intros raw r. unfold seed_of_raw. repeat case_match; try done; by intros [= <-]. }
  induction Hs as [|raw l _ IH Hl]; [constructor|]. cbn. destruct (seed_of_raw raw) as [r|] eqn:E; [|done].
  constructor; [done|]. apply Forall_forall. intros r' (raw' & Hin & E')%list_elem_of_omap. rewrite Forall_forall in Hl.
  rewrite (Hid _ _ E), (Hid _ _ E'). by apply str_cmp_le, Hl.
Qed.

(** From a database that has the columns it asks for, the reader takes every
    well-formed machine and nothing else.  It returns the machines whose overlay
    address and key can be read, ordered by identifier, and skips the others
    without failing; the addresses to join are those of the other machines,
    written exactly as each of them has its own gossip address in its
    configuration. *)
Theorem bootstrap_reads_machines open network_dir local_id fs db ts raws :
  exists_path (cp_db (CorPaths_new network_dir)) fs = true ->
  open (cp_db (CorPaths_new network_dir)) = Ok db -> sq_tables db "machines" = Some ts ->
  peer_columns ⊆ ts_columns ts -> rows_of "machines" (sq_rows db) = raw_row <$> raws ->
  sq_query db = None -> (forall i, sq_step db i = None) ->
  exists records addrs,
    seed_machine_records open network_dir fs = Ok records /\
    (forall r, r ∈ records <-> exists raw, raw ∈ raws /\ seed_of_raw raw = Some r) /\
    StronglySorted (fun a b => String.le (mr_id a) (mr_id b)) records /\
    bootstrap_addrs open network_dir local_id fs = Ok addrs /\
    forall a, a ∈ addrs <-> exists r, r ∈ records /\ mr_id r <> local_id /\
      forall content api bootstrap id, a = gsc_addr (cor_gossip
        (cor_config content (overlay_addr (mr_overlay_ip r) DEFAULT_GOSSIP_PORT) api bootstrap id)).
Proof.
  intros He Ho Ht Hcols Hrows Hq Hs. set (records := omap seed_of_raw (sort_by raw_cmp raws)).
  assert (peer_records_from_db open network_dir fs = Ok records) as Hp.
  { unfold peer_records_from_db. rewrite He, Ho. cbn [negb map_err rbind]. unfold sqlite_prepare.
    rewrite peer_query_parses. unfold peer_select. rewrite Ht.
    destruct (find _ _) as [c|] eqn:Hf.
    { apply find_some in Hf as [Hc Hn%negb_true_iff]. apply bool_decide_eq_false_1 in Hn. destruct Hn. apply Hcols.
      apply list_elem_of_In in Hc. unfold peer_columns in *. set_solver. }
    rewrite Hq. fold peer_select. rewrite (peer_select_rows _ raws) by done. by apply read_rows_all. }
  exists records. eexists. split_and!.
  - unfold seed_machine_records. by rewrite Hp.
  - intros r. unfold records. rewrite list_elem_of_omap. by setoid_rewrite elem_of_sort_by.
  - apply seeds_sorted.
  - unfold bootstrap_addrs, corrosion_bootstrap_from_db. rewrite Hp. reflexivity.
  - intros a. rewrite list_elem_of_fmap. setoid_rewrite list_elem_of_filter. split.
    + intros (r & -> & Hne & Hr). by exists r.
    + intros (r & Hr & Hne & Ha). exists r. split; [|done].
      exact (Ha (CorPaths_new "") default_api_addr [] None).
Qed.
End bootstrap_theorems.

Section start.
Context `{SqliteJson} `{Ipnet} `{RecordCodec (list string)}.
Context `{RecordCodec (list BootstrapPeerRecord)} (env : DaemonEnv).

(** C20: A machine whose agent has created its database cannot start its network
    again.  The reader of seeds asks for columns that the store's schema does not
    have (there [machines] has an identifier and a payload), so it fails on every
    database with that schema; and because the addresses to join are resolved
    before anything is started, the start fails, with or without a peer to join
    named explicitly, having started nothing. *)
Theorem restart_finds_no_columns open net_config bootstrap allow s log db :
  let dir := network_dir (ds_data_dir s) (nc_name net_config) in
  exists_path (cp_db (CorPaths_new dir)) (ds_fs s) = true ->
  open (cp_db (CorPaths_new dir)) = Ok db -> sq_tables db "machines" = schema "machines" ->
  dv_bootstrap_addrs env log = map_err error_to_string (bootstrap_addrs open dir (idn_machine_id (ds_identity s)) (ds_fs s)) ->
  exists message, start_mesh env net_config bootstrap allow (s, log) =
    (Err (BootstrapResolve message), (s, (log ++ [DeBootstrapAddrs (Err message)])%list)) /\
    message = "bootstrap_addrs: prepare peer_records_from_db query '" +:+ cp_db (CorPaths_new dir) +:+ "': no such column: id".
Proof.
  intros dir He Ho Ht Hr. eexists. split; [|reflexivity].
  unfold bootstrap_addrs, corrosion_bootstrap_from_db in Hr.
  erewrite peer_records_no_id in Hr; [|done|done|rewrite Ht; reflexivity|by apply (bool_decide_unpack _); vm_compute].
  unfold start_mesh, plan_mesh_start, mbind, mget, mmap_err, mask. cbn [fst]. rewrite Hr. reflexivity.
Qed.
End start.

(** ** The members of the cluster *)

Section membership.
Context `{AdminJson}.

Lemma read_frame_encoded data rest :
  (N.of_nat (length data) < 2 ^ 32)%N -> read_frame (encode_frame data ++ rest)%list = Ok (data, rest).
Proof.
  intros Hl. unfold read_frame, encode_frame, read_exact. rewrite <- app_assoc. set (head := reverse (le_bytes 4 _)).
  assert (length head = 4%nat) as Hh by (unfold head; by rewrite length_reverse, le_bytes_length).
  rewrite !length_app, Hh.
  destruct (Nat.ltb_spec (4 + (length data + length rest)) 4) as [|_]; [lia|]. cbn [rbind fst snd].
  rewrite take_app_length', drop_app_length' by (symmetry; exact Hh). unfold head. rewrite reverse_involutive, le_value_bytes by exact Hl.
  rewrite Nat2N.id, length_app. destruct (Nat.ltb_spec (length data + length rest) (length data)); [lia|].
  by rewrite take_app_length, drop_app_length.
Qed.

(** Each round consumes bytes, so the loop ends within its fuel. *)
Lemma membership_loop_total fuel stream latest :
  (length stream < fuel)%nat -> is_Some (membership_loop fuel stream latest).
Proof.
  revert stream latest. induction fuel as [|fuel IH]; intros stream latest Hf; [lia|]. cbn [membership_loop].
  destruct (read_frame stream) as [[frame rest]|e] eqn:E; [|eauto].
  destruct (value_from_slice frame) as [v|e]; [|eauto]. destruct (membership_message latest v) as [[states|latest']|e]; eauto.
  apply IH. unfold read_frame, read_exact in E. destruct (Nat.ltb_spec (length stream) 4) as [|H4]; [done|]. cbn [rbind] in E.
  destruct (Nat.ltb _ _); [done|]. injection E as _ <-. cbn [snd]. rewrite !length_drop. lia.
Qed.

(** A frame that reports a member's state. *)
Definition reports (frame : list N) (st : ClusterMembershipState) : Prop :=
  (N.of_nat (length frame) < 2 ^ 32)%N /\
  exists object json, value_from_slice frame = Ok (VObject object) /\ get_field "Error" object = None /\
    get_field "Json" object = Some json /\ parse_cluster_membership_state json = Ok st.
(** The bytes of an agent that reports these states and ends. *)
Definition reply_of (frames : list (list N)) (last : list N) : list N :=
  (concat (encode_frame <$> frames) ++ encode_frame last)%list.
Definition ends (last : list N) : Prop :=
  (N.of_nat (length last) < 2 ^ 32)%N /\ value_from_slice last = Ok (VString "Success").

Lemma membership_loop_replay frames states last later latest fuel :
  Forall2 reports frames states -> ends last -> (length frames < fuel)%nat ->
  membership_loop fuel (reply_of frames last ++ later)%list latest = Some (Ok (into_values (foldl note_state latest states))).
Proof.
  intros Hr [Hl Hs]. unfold reply_of. revert latest fuel. induction Hr as [|f st frames states Hf _ IH]; intros latest fuel Hfuel.
  - destruct fuel as [|fuel]; [cbn in Hfuel; lia|]. cbn [membership_loop fmap list_fmap concat app].
    rewrite read_frame_encoded by done. by rewrite Hs.
  - destruct fuel as [|fuel]; [cbn in Hfuel; lia|]. destruct Hf as (Hlen & object & json & Hv & He & Hj & Hp).
    cbn [membership_loop]. rewrite fmap_cons. cbn [concat]. rewrite <- !app_assoc, read_frame_encoded by done.
    rewrite Hv. cbn [membership_message]. rewrite He, Hj, Hp. cbn [rbind].
    rewrite app_assoc. apply IH. cbn in Hfuel. lia.
Qed.

(** ** The newest state of each member *)

Definition newest_in (states : list ClusterMembershipState) (l : list ClusterMembershipState) : Prop :=
  NoDup (cm_id <$> l) /\
  (forall st, st ∈ l -> st ∈ states /\ forall st', st' ∈ states -> cm_id st' = cm_id st -> (cm_timestamp st' <= cm_timestamp st)%N) /\
  (forall st, st ∈ states -> exists st', st' ∈ l /\ cm_id st' = cm_id st).

Lemma note_state_spec (seen : list ClusterMembershipState) (latest : gmap string ClusterMembershipState) st :
  (forall id x, latest !! id = Some x -> cm_id x = id /\ x ∈ seen /\
     forall y, y ∈ seen -> cm_id y = id -> (cm_timestamp y <= cm_timestamp x)%N) ->
  (forall y, y ∈ seen -> is_Some (latest !! cm_id y)) ->
  let latest' := note_state latest st in let seen' := (seen ++ [st])%list in
  (forall id x, latest' !! id = Some x -> cm_id x = id /\ x ∈ seen' /\
     forall y, y ∈ seen' -> cm_id y = id -> (cm_timestamp y <= cm_timestamp x)%N) /\
  (forall y, y ∈ seen' -> is_Some (latest' !! cm_id y)).
Proof.
  intros Hn Hs. cbv zeta.
  assert (forall y, y ∈ (seen ++ [st])%list <-> y ∈ seen \/ y = st) as Hin by (intros y; rewrite elem_of_app, list_elem_of_singleton; done).
  setoid_rewrite Hin. unfold note_state. destruct (latest !! cm_id st) as [old|] eqn:E.
  - destruct (Hn _ _ E) as (Hid & Hold & Hmax). destruct (N.leb_spec (cm_timestamp st) (cm_timestamp old)) as [Hle|Hlt].
    + split.
      * intros id x Hx. destruct (Hn _ _ Hx) as (H1 & H2 & H3). split_and!; [done|by left|]. intros y [Hy| ->] Hyid; [by apply H3|].
        rewrite Hyid, Hx in E. by simplify_eq.
      * intros y [Hy| ->]; [by apply Hs|by rewrite E].
    + split.
      * intros id x. destruct (decide (id = cm_id st)) as [->|Hne].
        -- rewrite lookup_insert_eq. intros [= <-]. split_and!; [done|by right|]. intros y [Hy| ->] Hyid; [|done].
           specialize (Hmax y Hy Hyid). lia.
        -- rewrite lookup_insert_ne by done. intros Hx. destruct (Hn _ _ Hx) as (H1 & H2 & H3). split_and!; [done|by left|].
           intros y [Hy| ->] Hyid; [by apply H3|done].
      * intros y Hy. destruct (decide (cm_id y = cm_id st)) as [->|Hne]; [by rewrite lookup_insert_eq|].
        rewrite lookup_insert_ne by done. destruct Hy as [Hy| ->]; [by apply Hs|done].
  - split.
    + intros id x. destruct (decide (id = cm_id st)) as [->|Hne].
      * rewrite lookup_insert_eq. intros [= <-]. split_and!; [done|by right|]. intros y [Hy| ->] Hyid; [|done].
        destruct (Hs y Hy) as [z Hz]. by rewrite Hyid, E in Hz.
      * rewrite lookup_insert_ne by done. intros Hx. destruct (Hn _ _ Hx) as (H1 & H2 & H3). split_and!; [done|by left|].
        intros y [Hy| ->] Hyid; [by apply H3|done].
    + intros y Hy. destruct (decide (cm_id y = cm_id st)) as [->|Hne]; [by rewrite lookup_insert_eq|].
      rewrite lookup_insert_ne by done. destruct Hy as [Hy| ->]; [by apply Hs|done].
Qed.

Lemma note_states_newest states : newest_in states (into_values (foldl note_state ∅ states)).
Proof.
  assert ((forall id x, foldl note_state ∅ states !! id = Some x -> cm_id x = id /\ x ∈ states /\
     forall y, y ∈ states -> cm_id y = id -> (cm_timestamp y <= cm_timestamp x)%N) /\
    (forall y, y ∈ states -> is_Some (foldl note_state ∅ states !! cm_id y))) as [Hn Hs].
  { induction states as [|st states [IH1 IH2]] using rev_ind.
    - split; [intros id x; cbn [foldl]; by rewrite lookup_empty|intros y; by rewrite elem_of_nil].
    - rewrite foldl_app. cbn [foldl]. by apply note_state_spec. }
  set (latest := foldl note_state ∅ states) in *. unfold into_values. set (l := sort_by _ (map_to_list latest)).
  assert (forall e, e ∈ l <-> latest !! e.1 = Some e.2) as Hl.
  { intros [id x]. unfold l. rewrite elem_of_sort_by. apply elem_of_map_to_list. }
  assert (forall st, st ∈ snd <$> l <-> latest !! cm_id st = Some st) as Hv.
  { intros st. rewrite list_elem_of_fmap. split.
    - intros ([id x] & -> & Hx%Hl). cbn in *. by destruct (Hn _ _ Hx) as [-> _].
    - intros Hst. exists (cm_id st, st). split; [done|]. by apply Hl. }
  split_and!.
  - replace (cm_id <$> (snd <$> l)) with (fst <$> l).
    { unfold l. rewrite (fmap_Permutation fst _ _ (sort_by_perm _ _)). apply NoDup_fst_map_to_list. }
    rewrite <- list_fmap_compose. apply list_fmap_ext. intros i [id x] Hi. cbn. symmetry.
    apply (Hn id x), (Hl (id, x)). by apply list_elem_of_lookup_2 in Hi.
  - intros st Hst%Hv. destruct (Hn _ _ Hst) as (_ & H1 & H2). auto.
  - intros st [x Hx]%Hs. exists x. destruct (Hn _ _ Hx) as [<- _]. split; [|done]. apply Hv.
    destruct (Hn _ _ Hx) as [E _]. by rewrite E in *.
Qed.

Lemma reply_frames_length frames last : (length frames <= length (reply_of frames last))%nat.
Proof.
  unfold reply_of. rewrite length_app. induction frames as [|f frames IH]; [cbn; lia|]. rewrite fmap_cons. cbn [concat].
  rewrite length_app. unfold encode_frame at 1. rewrite length_app, length_reverse, le_bytes_length. cbn [length]. lia.
Qed.

(** The states an agent reported are read back, the newest of each member. *)
Lemma membership_read socket frames states last later :
  ak_connect socket = Ok tt -> ak_write socket (encode_frame membership_request) = Ok tt ->
  ak_reply socket (encode_frame membership_request) = (reply_of frames last ++ later)%list ->
  Forall2 reports frames states -> ends last ->
  exists members, cluster_membership_states_latest socket = Ok members /\ newest_in states members.
Proof.
  intros Hc Hw Hr Hf He. eexists. split; [|apply note_states_newest].
  unfold cluster_membership_states_latest. rewrite Hc. cbn [map_err rbind]. rewrite Hw. cbn [map_err rbind]. rewrite Hr.
  rewrite (membership_loop_replay frames states) by (done || rewrite length_app; pose proof (reply_frames_length frames last); lia).
  reflexivity.
Qed.
End membership.

Section sync.
Context `{AdminJson} `{Dial}.

End sync.

(** ** Witnesses *)

#[local] Instance sample_sqlite_json : SqliteJson := {| json_valid _ := true; json_extract _ _ := None |}.
#[local] Instance sample_strings : RecordCodec (list string) := const_codec [].
#[local] Instance sample_peers : RecordCodec (list BootstrapPeerRecord) := const_codec [].
#[local] Existing Instance ref_ipnet.

(** The agent's database after its first run, and one with the columns asked for. *)
Definition schema_db : SqliteDb := {|
  sq_tables := schema; sq_rows := {["machines" := [[("machine_id", SvText "m1"); ("payload_json", SvText "{}")]]]};
  sq_query := None; sq_step _ := None; sq_type_error _ := "" |}.
Definition raw_m1 : RawMachine := {|
  rm_id := "m1"; rm_public_key := replicate 32 7%N; rm_overlay_ip := "fd00::1"; rm_subnet := ""; rm_bridge_ip := "";
  rm_endpoints := "[]" |}.
Definition raw_bad : RawMachine := {|
  rm_id := "a0"; rm_public_key := [1; 2]%N; rm_overlay_ip := "fd00::9"; rm_subnet := ""; rm_bridge_ip := ""; rm_endpoints := "[]" |}.
Definition columns_db : SqliteDb := {|
  sq_tables t := if String.eqb t "machines" then Some {| ts_columns := peer_columns; ts_key := ["id"] |} else None;
  sq_rows := {["machines" := [raw_row raw_m1; raw_row raw_bad]]}; sq_query := None; sq_step _ := None; sq_type_error _ := "" |}.
Definition db_state : DaemonState :=
  set_active None (set_fs (with_files (insert "/d/networks/alpha/corrosion/store.db" "") (ds_fs sample_state)) sample_state).
Definition db_env : DaemonEnv := {|
  dv_services := ok_services; dv_now _ := 1000%N; dv_random_bytes _ := [7%N]; dv_random_id _ := "net";
  dv_bootstrap_addrs _ := map_err error_to_string (bootstrap_addrs (fun _ => Ok schema_db) "/d/networks/alpha"
                            (idn_machine_id (ds_identity db_state)) (ds_fs db_state));
  dv_components _ := Ok tt; dv_seed_records _ := Ok []; dv_endpoints _ := Ok [];
  dv_mesh_up _ := Ok 1%N; dv_mesh_detach _ := Ok tt; dv_mesh_destroy _ := Ok tt; dv_mesh_update_self _ := Ok tt;
  dv_mesh_restart _ := Ok tt; dv_ready_status _ := Err "no status"; dv_remote_start _ := Ok 1%N;
  dv_remote_stop _ := Ok tt; dv_list_machines _ := Ok []; dv_create_invite _ := Ok (Ok tt); dv_peer_sync _ := Ok true;
  dv_upsert_transient _ := Ok tt |}.
Lemma restart_finds_no_columns_witness :
  exists message log', start_mesh db_env sample_config None false (db_state, []) = (Err (BootstrapResolve message), (db_state, log')).
Proof.
  destruct (restart_finds_no_columns db_env (fun _ => Ok schema_db) sample_config None false db_state [] schema_db
              ltac:(vm_compute; reflexivity) eq_refl eq_refl eq_refl) as (message & E & _).
  exists message, [DeBootstrapAddrs (Err message)]. exact E.
Defined.

Definition db_fs : Fs := ds_fs db_state.
Lemma bootstrap_reads_machines_witness :
  exists records, seed_machine_records (fun _ => Ok columns_db) "/d/networks/alpha" db_fs = Ok records /\
    StronglySorted (fun a b => String.le (mr_id a) (mr_id b)) records.
Proof.
  destruct (bootstrap_reads_machines (fun _ => Ok columns_db) "/d/networks/alpha" "m2" db_fs columns_db
              {| ts_columns := peer_columns; ts_key := ["id"] |} [raw_m1; raw_bad]
              ltac:(vm_compute; reflexivity) eq_refl eq_refl ltac:(done) ltac:(vm_compute; reflexivity) eq_refl
              ltac:(reflexivity)) as (records & addrs & H1 & _ & H3 & _).
  exists records. split; [exact H1|exact H3].
Defined.

(** An agent with one remote member, seen alive and then down. *)
Definition state_value (addr : string) (ts : N) (state : string) : Value :=
  VObject [("id", VObject [("addr", VString addr); ("id", VString addr); ("ts", VNumber (PosInt ts))]); ("state", VString state)].
#[local] Instance sample_admin_json : AdminJson := {|
  value_from_slice f := match f with
    | [1%N] => Ok (VObject [("Json", state_value "[fd00::2]:51001" 5 "Alive")])
    | [2%N] => Ok (VObject [("Json", state_value "[fd00::2]:51001" 7 "Down")])
    | _ => Ok (VString "Success") end;
  value_to_string _ := ""; addr_parse_error _ := "" |}.
#[local] Instance sample_dial : Dial := {| dial _ := {|
  http_send _ := Err "refused"; statements_json _ := Ok ""; statement_json _ := Ok ""; exec_response_from _ := Ok [];
  exec_result_from _ := Err ""; health_from _ := Err ""; status_display _ := "" |} |}.
Definition sample_store : CorrosionStore := CorrosionStore_new (overlay_addr sample_overlay DEFAULT_API_PORT) Direct (Some "/n/admin.sock").
Definition sample_socket : AdminSocket := {|
  ak_connect := Ok tt; ak_write _ := Ok tt; ak_reply _ := (reply_of [[2%N]; [1%N]] [3%N] ++ [])%list |}.
Definition member (ts : N) (state : MembershipState) : ClusterMembershipState := {|
  cm_addr := (overlay_addr [253;0;0;0;0;0;0;0;0;0;0;0;0;0;0;2]%N 51001, 0%N); cm_id := "[fd00::2]:51001"; cm_state := state;
  cm_timestamp := ts |}.
Lemma sample_reports : Forall2 reports [[2%N]; [1%N]] [member 7 Down; member 5 Alive].
Proof.
  assert (forall f ts state st, (N.of_nat (length f) < 2 ^ 32)%N ->
    value_from_slice f = Ok (VObject [("Json", state_value "[fd00::2]:51001" ts state)]) ->
    parse_cluster_membership_state (state_value "[fd00::2]:51001" ts state) = Ok st -> reports f st) as Hrep.
  { intros f ts state st Hl Hv Hp. split; [done|]. by eexists _, (state_value "[fd00::2]:51001" ts state). }
  apply Forall2_cons. split; [apply (Hrep _ 7%N "Down"); vm_compute; reflexivity|].
  apply Forall2_cons. split; [apply (Hrep _ 5%N "Alive"); vm_compute; reflexivity|constructor].
Qed.
(** The newest state decides, whichever arrives first. *)
Example sample_disconnected : sync_status sample_store (fun _ => sample_socket) = Ok Disconnected.
Proof. vm_compute. reflexivity. Qed.
