(* ===== verification/Profile.v ===== *)
(** * The runtime profile

    [ployzd/src/runtime_profile.rs]: which drivers a network runs on, and the
    workloads a machine stops and starts again when its subnet changes; and the
    components of [runtime-backends/src/mesh/driver.rs].

    The parts are those of [Wireguard], [Bridge], [StoreRuntime] and [Membership];
    [components_agree] shows that they fit together.  Of the workloads, Docker's
    answers are [WorkEnv]; which run and which are on the network is read off the
    log of calls. *)

From S2P Require Import Prelude Order Effect Text Types Addr Base64 Files Invite IpnetRef Ipam Container Wireguard Bridge Daemon StoreRuntime Membership.
Local Open Scope string_scope.
Local Open Scope eff_scope.
#[local] Arguments String.append !_ _ : simpl nomatch.

(** ** The drivers of a network *)

(** [ConcreteMeshComponents]: the device, the container network, and the name of
    the container the dataplane is attached to. *)
Inductive MeshDevice := DeviceMemory | DeviceDocker (wg : DockerWireGuard) | DeviceHost (wg : HostWireGuard).
Inductive EndpointDiscoveryKind := HostEndpointDiscovery | StaticEndpointDiscovery (endpoints : list string).
Record ConcreteMeshComponents := {
  cmc_network : MeshDevice; cmc_container_network : option DockerBridgeNetwork; cmc_endpoint_discovery : EndpointDiscoveryKind;
  cmc_dataplane_factory : option string
}.

Section components.
Context {IP : Ipnet} {build : Build} {B64 : Base64Standard} {K : Keys} `{Toml} (SCHEMA_SQL : string).
Context (wg_env : WgEnv) (bridge_env : BridgeEnv).
(** [WGApi::new] and [ContainerEngine::connect]. *)
Context (wg_api : string -> result string unit) (engine_connect : result Error unit).
Abbreviation C A := (eff WgState WgEvent string A) (only parsing).

(** [docker_bridge_network]; [None] is the panic of its address arithmetic. *)
Definition docker_bridge_network (mesh_name : string) (subnet : Ipv4Net) : C (option DockerBridgeNetwork) :=
  mlift (map_err error_to_string (bridge_new bridge_env mesh_name subnet (tt, [])).1).

Definition docker_components (identity : Identity) (overlay_ip : OverlayIp) (network_dir : PathBuf) (network_name : string)
    (subnet : Ipv4Net) (exposed_tcp_ports : list N) (bridged_api_port : N) (image : string) : C ConcreteMeshComponents :=
  network <-! driver_docker wg_env identity overlay_ip network_dir exposed_tcp_ports bridged_api_port image ;;
  container_network <-! docker_bridge_network network_name subnet ;;
  mret {| cmc_network := DeviceDocker network; cmc_container_network := container_network;
          cmc_endpoint_discovery := HostEndpointDiscovery; cmc_dataplane_factory := Some "ployz-networking" |}.

(** [HostWireGuard::kernel]. *)
Definition host_kernel (ifname : string) (private_key : list N) (overlay_ip : OverlayIp) (subnet : Ipv4Net) : Res HostWireGuard :=
  _ <-? map_err (Operation "kernel wg init") (wg_api ifname) ;;
  Ok {| hw_ifname := ifname; hw_private_key := private_key; hw_overlay_ip := overlay_ip; hw_listen_port := DEFAULT_LISTEN_PORT;
        hw_subnet := subnet |}.
(** [host] of [driver.rs], on Linux. *)
Definition driver_host (identity : Identity) (overlay_ip : OverlayIp) (network_name : string) (subnet : Ipv4Net)
    : result string HostWireGuard :=
  let ifname := "plz-" +:+ network_name in
  map_err (fun error => "host wireguard: " +:+ error_to_string error)
    (host_kernel ifname (idn_private_key identity) overlay_ip subnet).
Definition host_components (identity : Identity) (overlay_ip : OverlayIp) (network_name : string) (subnet : Ipv4Net)
    : C ConcreteMeshComponents :=
  network <-! mlift (driver_host identity overlay_ip network_name subnet) ;;
  container_network <-! docker_bridge_network network_name subnet ;;
  mret {| cmc_network := DeviceHost network; cmc_container_network := container_network;
          cmc_endpoint_discovery := HostEndpointDiscovery; cmc_dataplane_factory := Some "ployz-networking" |}.

Inductive StoreChoice := StoreMemory | StoreCorrosion (store : CorrosionStore).
Inductive BootstrapReader := ReaderMemory | ReaderCorrosion (network_dir : PathBuf).
Inductive StoreRuntimeChoice := RuntimeMemory | RuntimeDocker (agent : DockerCorrosion) | RuntimeHost (agent : HostCorrosion).
Record MeshRuntimeComponents := {
  mrc_network : MeshDevice; mrc_store : StoreChoice; mrc_bootstrap_state : BootstrapReader;
  mrc_store_runtime : StoreRuntimeChoice; mrc_container_network : option DockerBridgeNetwork;
  mrc_endpoint_discovery : EndpointDiscoveryKind; mrc_dataplane_factory : option string
}.
Definition build_bootstrap_state_reader (profile : RuntimeProfile) (network_dir : PathBuf) : BootstrapReader :=
  match pf_execution_backend profile with
  | BackendMemory => ReaderMemory
  | BackendDocker | BackendHost => ReaderCorrosion network_dir
  end.
Definition on_ws_fs {A} (c : io A) : C A := fun '(s, log) =>
  let '(r, fs) := c (ws_fs s) in (r, (with_ws_fs fs s, log)).

Definition build_mesh_components (profile : RuntimeProfile) (identity : Identity)
    (overlay_ip : OverlayIp) (network_dir : PathBuf) (network_name : string) (subnet : Ipv4Net) (exposed_tcp_ports : list N)
    (bootstrap : list string) (network_id : string) : C MeshRuntimeComponents :=
  let api_addr := overlay_addr overlay_ip DEFAULT_API_PORT in
  match pf_execution_backend profile with
  | BackendMemory => mret {|
      mrc_network := DeviceMemory; mrc_store := StoreMemory; mrc_bootstrap_state := ReaderMemory;
      mrc_store_runtime := RuntimeMemory; mrc_container_network := None;
      mrc_endpoint_discovery := StaticEndpointDiscovery []; mrc_dataplane_factory := None |}
  | BackendDocker =>
      mesh <-! docker_components identity overlay_ip network_dir network_name subnet exposed_tcp_ports DEFAULT_API_PORT
                 (bi_networking (pf_built_in_images profile)) ;;
      let local_api := {| sa_ip := V4 2130706433; sa_port := DEFAULT_API_PORT |} in
      let store := CorrosionStore_new api_addr (TransportBridge local_api) None in
      store_runtime <-! on_ws_fs (docker_corrosion_runtime SCHEMA_SQL engine_connect overlay_ip network_dir bootstrap network_id
                                    (bi_corrosion (pf_built_in_images profile))) ;;
      mret {| mrc_network := cmc_network mesh; mrc_store := StoreCorrosion store;
              mrc_bootstrap_state := build_bootstrap_state_reader profile network_dir;
              mrc_store_runtime := RuntimeDocker store_runtime; mrc_container_network := cmc_container_network mesh;
              mrc_endpoint_discovery := cmc_endpoint_discovery mesh; mrc_dataplane_factory := cmc_dataplane_factory mesh |}
  | BackendHost =>
      mesh <-! host_components identity overlay_ip network_name subnet ;;
      let paths := CorPaths_new network_dir in
      let store := CorrosionStore_new api_addr Direct (Some (cp_admin paths)) in
      store_runtime <-! on_ws_fs (host_corrosion_runtime SCHEMA_SQL overlay_ip network_dir bootstrap network_id) ;;
      mret {| mrc_network := cmc_network mesh; mrc_store := StoreCorrosion store;
              mrc_bootstrap_state := build_bootstrap_state_reader profile network_dir;
              mrc_store_runtime := RuntimeHost store_runtime; mrc_container_network := cmc_container_network mesh;
              mrc_endpoint_discovery := cmc_endpoint_discovery mesh; mrc_dataplane_factory := cmc_dataplane_factory mesh |}
  end.

Context (profile : RuntimeProfile) (identity : Identity)
  (overlay_ip : OverlayIp) (network_dir : PathBuf) (network_name : string) (subnet : Ipv4Net) (exposed_tcp_ports : list N)
  (bootstrap : list string) (network_id : string).
Abbreviation built := (build_mesh_components profile identity overlay_ip network_dir network_name
  subnet exposed_tcp_ports bootstrap network_id).

(** What the agent was configured with: the configuration in the file its command names. *)
Definition agent_reads (files : gmap string string) (agent : StoreRuntimeChoice) (cfg : CorConfig) : Prop :=
  match agent with
  | RuntimeMemory => False
  | RuntimeHost h => exists toml, files !! ho_config_path h = Some toml /\ toml_to_string_pretty cfg = Ok toml
  | RuntimeDocker d => exists config_path host toml, do_cmd d = Some ["agent"; "-c"; config_path] /\
      mounted (do_volumes d) config_path = Some host /\ files !! host = Some toml /\ toml_to_string_pretty cfg = Ok toml
  end.
(** How a connection of the store's client arrives at [addr]. *)
Definition arrives (store : CorrosionStore) (device : MeshDevice) (addr : SocketAddr) : Prop :=
  match cs_transport store, device with
  | Direct, DeviceHost _ => cs_api_addr store = addr
  | TransportBridge local_addr, DeviceDocker wg => {| of_local_addr := local_addr; of_overlay_dest := addr |} ∈ dw_outbound_forwards wg
  | _, _ => False
  end.

Lemma driver_docker_forwards identity' image port ports s log wg s' log' :
  driver_docker wg_env identity' overlay_ip network_dir ports port image (s, log) = (Ok wg, (s', log')) ->
  ws_fs s' = ws_fs s /\ dw_container_name wg = "ployz-networking" /\
  dw_outbound_forwards wg = [{| of_local_addr := {| sa_ip := V4 2130706433; sa_port := port |}; of_overlay_dest := overlay_addr overlay_ip port |}].
Proof.
  unfold driver_docker. set (b := with_bridge_forward _ _ _).
  assert (forall ports b, wb_container_name (foldl (fun b port => expose_tcp port b) b ports) = wb_container_name b /\
    wb_outbound_forwards (foldl (fun b port => expose_tcp port b) b ports) = wb_outbound_forwards b) as Hb.
  { clear. induction ports as [|p ports IH]; intros b; [done|]. cbn [foldl]. destruct (IH (expose_tcp p b)) as [-> ->]. done. }
  destruct (Hb ports b) as [Hn Hf]. intros E.
  assert (wp (mmap_err (fun error => "docker wireguard: " +:+ error_to_string error)
      (wg_build wg_env (foldl (fun b port => expose_tcp port b) b ports)))
    (fun r s' _ => forall wg, r = Ok wg -> ws_fs s' = ws_fs s /\ dw_container_name wg = wb_container_name b /\
      dw_outbound_forwards wg = wb_outbound_forwards b) s log) as Hw.
  { apply wp_map_err. apply wp_bind, wp_map_err, wp_call_any. intros [u|e]; cbn [map_err]; [|done].
    apply wp_bind, wp_map_err, wp_call_any. intros [u'|e]; cbn [map_err]; [|done].
    apply wp_ret. intros wg0 [= <-]. cbn [dw_container_name dw_outbound_forwards]. by rewrite Hn, Hf. }
  unfold wp in Hw. rewrite E in Hw. by apply Hw.
Qed.

(** C19: The parts of a network's runtime fit together.  When
    [build_mesh_components] succeeds for a profile that is not the test profile,
    the configuration the agent reads says that it listens on the machine's
    overlay address and joins the given peers; a connection of the store's client
    arrives at exactly that address, directly on the host and through the
    overlay bridge's forwarding in the container setup; where the client asks
    the agent's admin socket it uses the path in the agent's configuration; and
    the agent in a container shares the network of the WireGuard container. *)
Theorem components_agree s log components s' log' :
  pf_execution_backend profile <> BackendMemory ->
  ip_wf (V6 overlay_ip) -> contains_char ":" network_dir = false ->
  built (s, log) = (Ok components, (s', log')) ->
  exists cfg store api, agent_reads (fs_files (ws_fs s')) (mrc_store_runtime components) cfg /\
    told cfg overlay_ip bootstrap network_id /\
    mrc_store components = StoreCorrosion store /\
    parse_socket_addr (apc_addr (cor_api cfg)) = Some (api, 0%N) /\ arrives store (mrc_network components) api /\
    parse_socket_addr (gsc_addr (cor_gossip cfg)) = Some (cs_gossip_addr store, 0%N) /\
    (forall path, cs_admin store = Some path -> path = adc_path (cor_admin cfg)) /\
    match mrc_store_runtime components, mrc_network components with
    | RuntimeDocker agent, DeviceDocker wg => do_network_mode agent = Some ("container:" +:+ dw_container_name wg)
    | RuntimeHost agent, DeviceHost _ => dbc_path (cor_db cfg) = cp_db (CorPaths_new network_dir)
    | _, _ => False
    end.
Proof.
  intros Hm Hip Hd. unfold build_mesh_components. destruct (pf_execution_backend profile) eqn:Eb; [done| |].
  - unfold docker_components, mbind at 1 2.
    destruct (driver_docker _ _ _ _ _ _ _ (s, log)) as [[wg|e] [s1 log1]] eqn:Ed; [|done].
    apply driver_docker_forwards in Ed as (Hfs & Hname & Hfwd). unfold docker_bridge_network, mbind at 1, mlift.
    destruct (map_err error_to_string _) as [bn|e]; [|done]. unfold mret at 1, mbind at 1, on_ws_fs at 1.
    destruct (docker_corrosion_runtime _ _ _ _ _ _ _ (ws_fs s1)) as [[agent|e] fs2] eqn:Ec; [|done].
    unfold mret. intros [= <- <- <-]. cbn [mrc_store_runtime mrc_network mrc_store cmc_network ws_fs with_ws_fs].
    pose proof Ec as Emode. unfold docker_corrosion_runtime, io_bind in Emode.
    apply docker_agent_configured in Ec as (cp & sp & hc & hs & cfg & toml & Hcmd & Hmc & Hfc & Ht & _ & _ & _ & Htold & _); [|done..].
    eexists cfg, _, (overlay_addr overlay_ip DEFAULT_API_PORT). split; [by exists cp, hc, toml|]. split; [done|]. split; [done|].
    destruct Htold as (Hapi & Hgossip & _). split; [done|]. split; [cbn; rewrite Hfwd; by left|]. split; [done|]. split; [done|].
    rewrite Hname. destruct (io_map_err _ _ _) as [[[]|e] fs3]; [|done]. unfold io_lift, dc_build in Emode.
    destruct engine_connect; [|done]. by injection Emode as <- _.
  - unfold host_components, mbind at 1 2, mlift. destruct (driver_host _ _ _ _) as [wg|e]; [|done].
    unfold docker_bridge_network, mbind at 1, mlift. destruct (map_err error_to_string _) as [bn|e]; [|done].
    unfold mret at 1, mbind at 1, on_ws_fs at 1.
    destruct (host_corrosion_runtime _ _ _ _ _ (ws_fs s)) as [[agent|e] fs2] eqn:Ec; [|done].
    unfold mret. intros [= <- <- <-]. cbn [mrc_store_runtime mrc_network mrc_store cmc_network ws_fs with_ws_fs].
    apply host_agent_configured in Ec as (cfg & toml & sp & Hfc & Ht & _ & _ & Hdb & Hadm & Htold); [|done].
    eexists cfg, _, (overlay_addr overlay_ip DEFAULT_API_PORT). split; [by exists toml|]. split; [done|]. split; [done|].
    destruct Htold as (Hapi & Hgossip & _). split; [done|]. split; [done|]. split; [done|]. split; [|done].
    intros path [= <-]. by rewrite Hadm.
Qed.
End components.

(** ** Workloads across a change of subnet *)

Definition HEAL_WORKLOAD_STOP_GRACE : Duration := 10000000000.
Record RestartableWorkload := { rw_container_name : string; rw_was_running : bool }.

Inductive WorkEvent :=
| WkConnect | WkList (filters : list (string * string)) | WkBridge (network : string) (subnet : Ipv4Net)
| WkStop (name : string) (r : Res unit)
| WkDisconnect (name : string) (r : Res unit)
| WkAttach (name : string) (r : Res unit)
| WkStart (name : string) (r : Res unit)
| WkOther.
Record WorkEnv := {
  we_connect : list WorkEvent -> Res unit;                         (* [ContainerEngine::connect] *)
  we_list : list WorkEvent -> Res (list ObservedContainer);        (* [list_by_labels] *)
  we_bridge : list WorkEvent -> Res unit;                          (* [docker_bridge_network] *)
  we_stop : string -> list WorkEvent -> Res unit;
  we_disconnect : string -> list WorkEvent -> Res unit;
  we_attach : string -> list WorkEvent -> Res unit;
  we_start : string -> list WorkEvent -> Res unit
}.

Section workloads.
Context (env : WorkEnv).
Abbreviation W A := (eff unit WorkEvent string A) (only parsing).
Definition wk {A} (context : string) (answer : list WorkEvent -> Res A) (event : Res A -> WorkEvent) : W A :=
  mmap_err (fun err => context +:+ ": " +:+ error_to_string err) (mask answer event).

Definition stop_workload (bridge_name : string) (container : ObservedContainer) : W (option RestartableWorkload) :=
  let name := oc_container_name container in
  if negb (bool_decide (is_Some (oc_networks container !! bridge_name))) then mret None
  else
    _ <-! (if oc_running container
           then wk ("stop workload '" +:+ name +:+ "' for subnet heal") (we_stop env name) (WkStop name) else mret tt) ;;
    _ <-! wk ("disconnect workload '" +:+ name +:+ "' from old bridge") (we_disconnect env name) (WkDisconnect name) ;;
    mret (Some {| rw_container_name := name; rw_was_running := oc_running container |}).
Definition workload_filters (machine_id : MachineId) : list (string * string) :=
  [(LABEL_MANAGED, "true"); (LABEL_KIND, "workload"); (LABEL_MACHINE, machine_id)].
Definition stop_local_workloads_for_subnet_heal (profile : RuntimeProfile) (machine_id : MachineId) (network_name : string)
    (target_subnet : Ipv4Net) : W (list RestartableWorkload) :=
  if is_memory_test profile then mret []
  else
    _ <-! wk "connect docker engine for subnet heal" (we_connect env) (fun _ => WkConnect) ;;
    let bridge_name := "ployz-" +:+ network_name in
    let filters := workload_filters machine_id in
    observed <-! wk "list local workloads for subnet heal" (we_list env) (fun _ => WkList filters) ;;
    _ <-! wk "build bridge handle for subnet heal" (we_bridge env) (fun _ => WkBridge network_name target_subnet) ;;
    restartable <-! mmap (stop_workload bridge_name) observed ;;
    mret (omap id restartable).

Definition start_workload (workload : RestartableWorkload) : W unit :=
  let name := rw_container_name workload in
  _ <-! wk ("reconnect workload '" +:+ name +:+ "' to healed bridge") (we_attach env name) (WkAttach name) ;;
  if rw_was_running workload
  then wk ("restart workload '" +:+ name +:+ "' after subnet heal") (we_start env name) (WkStart name) else mret tt.
Definition start_local_workloads_after_subnet_heal (profile : RuntimeProfile) (network_name : string) (target_subnet : Ipv4Net)
    (workloads : list RestartableWorkload) : W unit :=
  if is_memory_test profile || bool_decide (workloads = []) then mret tt
  else
    _ <-! wk "connect docker engine after subnet heal" (we_connect env) (fun _ => WkConnect) ;;
    _ <-! wk "build target bridge handle after subnet heal" (we_bridge env) (fun _ => WkBridge network_name target_subnet) ;;
    mfor workloads start_workload.
End workloads.

(** *** Which run, and which are on the network *)

Record WorkView := { wv_running : gset string; wv_attached : gset string }.
Definition apply_work (v : WorkView) (e : WorkEvent) : WorkView :=
  match e with
  | WkStop name (Ok _) => {| wv_running := wv_running v ∖ {[name]}; wv_attached := wv_attached v |}
  | WkDisconnect name (Ok _) => {| wv_running := wv_running v; wv_attached := wv_attached v ∖ {[name]} |}
  | WkAttach name (Ok _) => {| wv_running := wv_running v; wv_attached := {[name]} ∪ wv_attached v |}
  | WkStart name (Ok _) => {| wv_running := {[name]} ∪ wv_running v; wv_attached := wv_attached v |}
  | _ => v
  end.
Definition work_view (v0 : WorkView) (log : list WorkEvent) : WorkView := foldl apply_work v0 log.

(** The listing shows the containers as they are. *)
Definition shows (v : WorkView) (bridge_name : string) (observed : list ObservedContainer) : Prop :=
  NoDup (oc_container_name <$> observed) /\
  forall c, c ∈ observed ->
    (oc_running c = true <-> oc_container_name c ∈ wv_running v) /\
    (is_Some (oc_networks c !! bridge_name) <-> oc_container_name c ∈ wv_attached v).

(** The workloads that take part: those on the network. *)
Definition moved (v : WorkView) (observed : list ObservedContainer) : gset string :=
  list_to_set (oc_container_name <$> observed) ∩ wv_attached v.

Section workload_theorems.
Context (env : WorkEnv) (v0 : WorkView).
Abbreviation view := (work_view v0).

Lemma work_view_app log e : view (log ++ [e])%list = apply_work (view log) e.
Proof. unfold work_view. by rewrite foldl_app. Qed.
Lemma work_view_quiet log e : apply_work (view log) e = view log -> view (log ++ [e])%list = view log.
Proof. by rewrite work_view_app. Qed.

Definition names (ws : list RestartableWorkload) : gset string := list_to_set (rw_container_name <$> ws).
Definition running_names (ws : list RestartableWorkload) : gset string :=
  list_to_set (rw_container_name <$> filter (fun w => rw_was_running w = true) ws).
Lemma names_app ws ws' : names (ws ++ ws')%list = names ws ∪ names ws'.
Proof. unfold names. by rewrite fmap_app, list_to_set_app_L. Qed.
Lemma running_names_app ws ws' : running_names (ws ++ ws')%list = running_names ws ∪ running_names ws'.
Proof. unfold running_names. by rewrite filter_app, fmap_app, list_to_set_app_L. Qed.
Lemma names_one w : names [w] = {[rw_container_name w]}.
Proof. unfold names. cbn. by rewrite (right_id_L ∅ (∪)). Qed.
Lemma running_names_one w : running_names [w] = if rw_was_running w then {[rw_container_name w]} else ∅.
Proof. unfold running_names. rewrite filter_cons, filter_nil. destruct (rw_was_running w); cbn; set_solver. Qed.

Lemma wp_wk {A} context (answer : list WorkEvent -> Res A) event (Q : result string A -> unit -> list WorkEvent -> Prop) m log :
  (forall r : Res A, Q (map_err (fun err => context +:+ ": " +:+ error_to_string err) r) m (log ++ [event r])%list) ->
  wp (wk context answer event) Q m log.
Proof. intros HQ. unfold wk. apply wp_map_err, wp_ask. intros r. apply HQ. Qed.

(** Where the containers are once [ws] were stopped and taken off the network. *)
Definition without (v : WorkView) (ws : list RestartableWorkload) : WorkView :=
  {| wv_running := wv_running v ∖ names ws; wv_attached := wv_attached v ∖ names ws |}.
(** The workloads as they were. *)
Definition as_were (v : WorkView) (seen : gset string) (ws : list RestartableWorkload) : Prop :=
  names ws = seen ∩ wv_attached v /\ running_names ws = names ws ∩ wv_running v.

Lemma stop_workload_spec v bridge_name c ws seen log :
  (oc_running c = true <-> oc_container_name c ∈ wv_running v) ->
  (is_Some (oc_networks c !! bridge_name) <-> oc_container_name c ∈ wv_attached v) ->
  view log = without v ws -> as_were v seen ws ->
  wp (stop_workload env bridge_name c) (fun r _ log' => match r with
    | Ok o => view log' = without v (ws ++ option_list o) /\ as_were v ({[oc_container_name c]} ∪ seen) (ws ++ option_list o)
    | Err _ => True
    end) tt log.
Proof.
  intros Hrun Hatt Hv [Hn Hr]. unfold stop_workload. set (name := oc_container_name c) in *.
  destruct (bool_decide (is_Some _)) eqn:Eb; cbn [negb].
  2:{ apply bool_decide_eq_false_1 in Eb. apply wp_ret. change (option_list None) with (@nil RestartableWorkload). rewrite app_nil_r. split; [done|].
      split; [|done]. rewrite Hn. set_solver. }
  apply bool_decide_eq_true_1, Hatt in Eb. set (w := {| rw_container_name := name; rw_was_running := oc_running c |}).
  assert (forall log1, view log1 = {| wv_running := wv_running v ∖ names (ws ++ [w]); wv_attached := wv_attached v ∖ names ws |} ->
    wp (_ <-! wk ("disconnect workload '" +:+ name +:+ "' from old bridge") (we_disconnect env name) (WkDisconnect name) ;; mret (Some w))
      (fun r _ log' => match r with
       | Ok o => view log' = without v (ws ++ option_list o) /\ as_were v ({[name]} ∪ seen) (ws ++ option_list o)
       | Err _ => True end) tt log1) as Hdisc.
  { intros log1 Hv1. apply wp_bind, wp_wk. intros [u|e]; cbn [map_err]; [|done]. apply wp_ret. change (option_list (Some w)) with [w].
    rewrite work_view_app, Hv1. split.
    - unfold without. cbn [apply_work wv_running wv_attached]. f_equal. rewrite names_app, names_one. cbn [rw_container_name w]. set_solver.
    - split; [rewrite names_app, names_one, Hn; cbn [rw_container_name w]; set_solver|].
      rewrite running_names_app, names_app, running_names_one, names_one, Hr. cbn [rw_container_name rw_was_running w].
      destruct (oc_running c) eqn:Er; [assert (name ∈ wv_running v) by (by apply Hrun)|
        assert (name ∉ wv_running v) by (intros Hc; by apply Hrun in Hc)]; set_solver. }
  apply wp_bind. destruct (oc_running c) eqn:Er.
  - apply wp_wk. intros [u|e]; cbn [map_err]; [|done]. apply Hdisc. rewrite work_view_app, Hv. unfold without.
    cbn [apply_work wv_running wv_attached]. f_equal. rewrite names_app, names_one. cbn [rw_container_name w]. set_solver.
  - apply wp_ret. apply Hdisc. rewrite Hv. unfold without. f_equal. rewrite names_app, names_one. cbn [rw_container_name w].
    assert (name ∉ wv_running v) by (intros Hc; by apply Hrun in Hc). set_solver.
Qed.

Lemma stop_loop v bridge_name observed log :
  shows v bridge_name observed -> view log = v ->
  wp (mmap (stop_workload env bridge_name) observed) (fun r _ log' => match r with
    | Ok rs => view log' = without v (omap id rs) /\ as_were v (list_to_set (oc_container_name <$> observed)) (omap id rs)
    | Err _ => True
    end) tt log.
Proof.
  intros [_ Hs] Hv.
  apply (wp_map (fun done rs _ log' => view log' = without v (omap id rs) /\
    as_were v (list_to_set (oc_container_name <$> done)) (omap id rs))).
  - split; [rewrite Hv; unfold without, names; cbn; destruct v; cbn; f_equal; set_solver|].
    split; unfold running_names, names; cbn; set_solver.
  - intros done c rest rs [] log1 Hl [Hv1 Hw]. destruct (Hs c) as [Hrun Hatt]; [rewrite Hl; set_solver|].
    eapply wp_mono; [by apply (stop_workload_spec v bridge_name c (omap id rs) (list_to_set (oc_container_name <$> done)))|].
    intros [o|e] [] log2; [|done]. intros [Hv2 Hw2].
    replace (omap id (rs ++ [o])%list) with (omap id rs ++ option_list o)%list by (rewrite omap_app; by destruct o).
    split; [done|]. rewrite fmap_app, list_to_set_app_L. cbn. by rewrite (right_id_L ∅ (∪)), (comm_L (∪)).
  - auto.
Qed.

Lemma start_loop v ws log :
  view log = v ->
  wp (mfor ws (start_workload env)) (fun r _ log' => match r with
    | Ok _ => view log' = {| wv_running := running_names ws ∪ wv_running v; wv_attached := names ws ∪ wv_attached v |}
    | Err _ => True
    end) tt log.
Proof.
  intros Hv. apply (wp_for (fun done _ log' =>
    view log' = {| wv_running := running_names done ∪ wv_running v; wv_attached := names done ∪ wv_attached v |})).
  - rewrite Hv. unfold names, running_names. destruct v. cbn. f_equal; set_solver.
  - intros done w rest [] log1 _ Hv1. unfold start_workload. apply wp_bind, wp_wk. intros [u|e]; cbn [map_err]; [|done].
    destruct (rw_was_running w) eqn:Ew.
    + apply wp_wk. intros [u'|e]; cbn [map_err]; [|done]. rewrite !work_view_app, Hv1. cbn [apply_work wv_running wv_attached].
      rewrite running_names_app, names_app, running_names_one, names_one, Ew. f_equal; set_solver.
    + apply wp_ret. rewrite work_view_app, Hv1. cbn [apply_work wv_running wv_attached].
      rewrite running_names_app, names_app, running_names_one, names_one, Ew. f_equal; set_solver.
  - auto.
Qed.

Lemma stop_workloads_spec profile machine_id network_name subnet observed log :
  is_memory_test profile = false -> we_list env (log ++ [WkConnect])%list = Ok observed ->
  shows (view log) ("ployz-" +:+ network_name) observed ->
  wp (stop_local_workloads_for_subnet_heal env profile machine_id network_name subnet) (fun r _ log' => match r with
    | Ok ws => view log' = without (view log) ws /\ as_were (view log) (list_to_set (oc_container_name <$> observed)) ws
    | Err _ => True
    end) tt log.
Proof.
  intros Hm Hl Hs. unfold stop_local_workloads_for_subnet_heal. rewrite Hm. apply wp_bind, wp_wk.
  intros [u|e]; cbn [map_err]; [|done]. apply wp_bind. unfold wk at 1. apply wp_map_err, wp_ask_answer. rewrite Hl. cbn [map_err].
  apply wp_bind, wp_wk. intros [u'|e]; cbn [map_err]; [|done]. apply wp_bind.
  eapply wp_mono; [apply (stop_loop (view log)); [exact Hs|]; by rewrite !work_view_quiet|].
  intros [rs|e] [] log1; [|done]. intros Hr. by apply wp_ret.
Qed.

Lemma start_workloads_spec profile network_name subnet ws log :
  is_memory_test profile = false ->
  wp (start_local_workloads_after_subnet_heal env profile network_name subnet ws) (fun r _ log' => match r with
    | Ok _ => view log' = {| wv_running := running_names ws ∪ wv_running (view log); wv_attached := names ws ∪ wv_attached (view log) |}
    | Err _ => True
    end) tt log.
Proof.
  intros Hm. unfold start_local_workloads_after_subnet_heal. rewrite Hm. cbn [orb]. destruct (bool_decide _) eqn:E.
  - apply bool_decide_eq_true_1 in E as ->. apply wp_ret. unfold names, running_names. cbn. destruct (view log). cbn. f_equal; set_solver.
  - apply wp_bind, wp_wk. intros [u|e]; cbn [map_err]; [|done]. apply wp_bind, wp_wk. intros [u'|e]; cbn [map_err]; [|done].
    eapply wp_mono; [by apply (start_loop (view log)); rewrite !work_view_quiet|]. auto.
Qed.

(** C23: Changing a machine's subnet gives its workloads back as they were.
    Suppose Docker lists the machine's workloads as they are.  If stopping them
    succeeds, then exactly those on the container network are stopped and taken
    off it; and if starting them again succeeds, after a restart of the network
    that leaves them alone, then the same containers run and the same are on the
    network as before, those that were stopped stay stopped, and containers that
    were not on the network have not been touched. *)
Theorem heal_restores_workloads profile machine_id network_name old new observed log ws log1 mid log2 :
  is_memory_test profile = false -> we_list env (log ++ [WkConnect])%list = Ok observed ->
  shows (view log) ("ployz-" +:+ network_name) observed ->
  stop_local_workloads_for_subnet_heal env profile machine_id network_name old (tt, log) = (Ok ws, (tt, log1)) ->
  view (log1 ++ mid)%list = view log1 ->
  start_local_workloads_after_subnet_heal env profile network_name new ws (tt, (log1 ++ mid)%list) = (Ok tt, (tt, log2)) ->
  (forall name, (name ∈ wv_running (view log1) <-> name ∈ wv_running (view log) /\ name ∉ moved (view log) observed) /\
     (name ∈ wv_attached (view log1) <-> name ∈ wv_attached (view log) /\ name ∉ moved (view log) observed)) /\
  view log2 = view log.
Proof.
  intros Hm Hl Hs Hstop Hmid Hstart.
  pose proof (stop_workloads_spec profile machine_id network_name old observed log Hm Hl Hs) as H1. unfold wp in H1.
  rewrite Hstop in H1. destruct H1 as (Hv1 & Hn & Hr).
  pose proof (start_workloads_spec profile network_name new ws (log1 ++ mid)%list Hm) as H2. unfold wp in H2.
  rewrite Hstart, Hmid, Hv1 in H2. rewrite Hv1, H2. split.
  - intros name. unfold without, moved. cbn [wv_running wv_attached]. rewrite Hn. set_solver.
  - unfold without. cbn [wv_running wv_attached]. rewrite Hr, Hn. destruct (view log) as [R A]. cbn [wv_running wv_attached].
    f_equal; apply set_eq; intros x.
    + rewrite elem_of_union, !elem_of_intersection, elem_of_difference, elem_of_intersection.
      destruct (decide (x ∈ (list_to_set (oc_container_name <$> observed) : gset string))), (decide (x ∈ A)); tauto.
    + rewrite elem_of_union, elem_of_difference, !elem_of_intersection.
      destruct (decide (x ∈ (list_to_set (oc_container_name <$> observed) : gset string))); tauto.
Qed.

Definition touches (e : WorkEvent) : option string :=
  match e with WkStop name _ | WkDisconnect name _ | WkAttach name _ | WkStart name _ => Some name | _ => None end.
Definition as_is (name : string) (v v' : WorkView) : Prop :=
  (name ∈ wv_running v' <-> name ∈ wv_running v) /\ (name ∈ wv_attached v' <-> name ∈ wv_attached v).
Lemma untouched name log new :
  Forall (fun e => touches e <> Some name) new -> as_is name (view log) (view (log ++ new)%list).
Proof.
  intros Hn. unfold work_view. rewrite foldl_app. generalize (foldl apply_work v0 log). clear log.
  induction Hn as [|e new He _ IH]; intros v; [done|]. cbn [foldl]. destruct (IH (apply_work v e)) as [H1 H2].
  unfold as_is in *. rewrite H1, H2. clear -He.
  destruct e as [| | |n []|n []|n []|n []|]; cbn in *; try done; assert (n <> name) by congruence; set_solver.
Qed.
Lemma start_loop_touches name ws :
  name ∉ names ws -> emits (fun e => touches e <> Some name) (mfor ws (start_workload env)).
Proof.
  induction ws as [|w ws IH]; intros Hn; [by apply emits_pure|]. unfold names in Hn. rewrite fmap_cons in Hn. cbn in Hn.
  assert (forall A context answer (event : Res A -> WorkEvent), (forall r, touches (event r) <> Some name) ->
    emits (fun e => touches e <> Some name) (wk context answer event)) as Hwk.
  { intros A context answer event He m log. apply wp_wk. intros r. exists [event r]. by repeat constructor. }
  cbn [mfor]. apply emits_bind; [|intros _; apply IH; unfold names; set_solver].
  unfold start_workload. apply emits_bind; [apply Hwk; intros r; cbn; set_solver|]. intros _.
  destruct (rw_was_running w); [apply Hwk; intros r; cbn; set_solver|by apply emits_pure].
Qed.

(** An attempt that failed half way is not made good.  Once an attempt has
    taken a workload off the container network and stopped it, and then failed,
    a later attempt (whose listing shows the workloads as they are) leaves that
    workload alone: it neither starts it nor puts it back on the network, even
    when the attempt succeeds, because it considers only the workloads it finds
    on the network. *)
Theorem heal_retry_forgets profile machine_id network_name old new observed log ws log1 mid r log2 name :
  is_memory_test profile = false -> we_list env (log ++ [WkConnect])%list = Ok observed ->
  shows (view log) ("ployz-" +:+ network_name) observed ->
  name ∉ wv_attached (view log) ->
  stop_local_workloads_for_subnet_heal env profile machine_id network_name old (tt, log) = (Ok ws, (tt, log1)) ->
  view (log1 ++ mid)%list = view log1 ->
  start_local_workloads_after_subnet_heal env profile network_name new ws (tt, (log1 ++ mid)%list) = (r, (tt, log2)) ->
  as_is name (view log) (view log2).
Proof.
  intros Hm Hl Hs Hname Hstop Hmid Hstart.
  pose proof (stop_workloads_spec profile machine_id network_name old observed log Hm Hl Hs) as H1. unfold wp in H1.
  rewrite Hstop in H1. destruct H1 as (Hv1 & Hn & _). assert (name ∉ names ws) as Hnot by (rewrite Hn; set_solver).
  assert (emits (fun e => touches e <> Some name) (start_local_workloads_after_subnet_heal env profile network_name new ws)) as He.
  { assert (forall A context answer (event : WorkEvent), touches event = None ->
      emits (fun e => touches e <> Some name) (wk (A := A) context answer (fun _ => event))) as Hwk.
    { intros A context answer event E m log0. apply wp_wk. intros r0. exists [event]. split; [done|]. repeat constructor. by rewrite E. }
    unfold start_local_workloads_after_subnet_heal. destruct (_ || _); [by apply emits_pure|].
    apply emits_bind; [by apply Hwk|]. intros _. apply emits_bind; [by apply Hwk|]. intros _. by apply start_loop_touches. }
  specialize (He tt (log1 ++ mid)%list). unfold wp in He. rewrite Hstart in He. destruct He as (later & -> & Hlater).
  destruct (untouched name (log1 ++ mid)%list later Hlater) as [H1 H2]. rewrite Hmid, Hv1 in H1, H2.
  split; [rewrite H1|rewrite H2]; unfold without; cbn [wv_running wv_attached]; set_solver.
Qed.
End workload_theorems.

Definition sample_container_named (name : string) (running : bool) (networks : gmap string string) : ObservedContainer := {|
  oc_container_id := name; oc_container_name := name; oc_running := running; oc_image := "app:v1"; oc_cmd := None;
  oc_entrypoint := None; oc_env := []; oc_labels := ∅; oc_binds := []; oc_tmpfs := ∅; oc_dns_servers := []; oc_network_mode := None;
  oc_port_bindings := None; oc_cap_add := []; oc_cap_drop := []; oc_privileged := false; oc_user := None; oc_restart_policy := None;
  oc_memory_bytes := None; oc_nano_cpus := None; oc_sysctls := ∅; oc_stop_timeout := None; oc_pid_mode := None;
  oc_ip_address := None; oc_networks := networks |}.
Definition sample_workloads : list ObservedContainer :=
  [sample_container_named "a" true {["ployz-alpha" := "10.210.1.5"]}; sample_container_named "b" false {["ployz-alpha" := ""]};
   sample_container_named "c" true ∅].
Definition sample_view : WorkView := {| wv_running := {["a"; "c"]}; wv_attached := {["a"; "b"]} |}.
Definition work_env (stop : string -> Res unit) (observed : list ObservedContainer) : WorkEnv := {|
  we_connect _ := Ok tt; we_list _ := Ok observed; we_bridge _ := Ok tt; we_stop name _ := stop name; we_disconnect _ _ := Ok tt;
  we_attach _ _ := Ok tt; we_start _ _ := Ok tt |}.
Definition sample_profile : RuntimeProfile := from_runtime TargetHost ModeSystem {| bi_networking := "n"; bi_corrosion := "c"; bi_dns := "d"; bi_gateway := "g" |}.
Definition sample_net : Ipv4Net := mkNet 181534720 24.
(** A concrete listing shows a concrete view: each container by evaluation. *)
Ltac solve_shows :=
  split; [vm_compute; repeat constructor; set_solver|]; intros c Hc;
  repeat (apply elem_of_cons in Hc as [->|Hc]); [..|by apply elem_of_nil in Hc]; split;
    (split; [intros H; first [by vm_compute in H | by apply (bool_decide_unpack _); vm_compute | by destruct H]
            |intros H; apply (bool_decide_pack _) in H; first [by vm_compute in H | by vm_compute | by eexists; vm_compute]]).
Lemma sample_shows : shows sample_view "ployz-alpha" sample_workloads.
Proof. solve_shows. Qed.
Definition sample_stop := stop_local_workloads_for_subnet_heal (work_env (fun _ => Ok tt) sample_workloads) sample_profile "m1" "alpha" sample_net.
Lemma heal_restores_workloads_witness :
  exists ws log1 log2, sample_stop (tt, []) = (Ok ws, (tt, log1)) /\
    start_local_workloads_after_subnet_heal (work_env (fun _ => Ok tt) sample_workloads) sample_profile "alpha" sample_net ws (tt, log1)
      = (Ok tt, (tt, log2)) /\ work_view sample_view log2 = sample_view.
Proof.
  set (env := work_env (fun _ => Ok tt) sample_workloads).
  set (ws := [{| rw_container_name := "a"; rw_was_running := true |}; {| rw_container_name := "b"; rw_was_running := false |}]).
  set (log1 := (sample_stop (tt, [])).2.2).
  set (log2 := (start_local_workloads_after_subnet_heal env sample_profile "alpha" sample_net ws (tt, log1)).2.2).
  exists ws, log1, log2. split; [vm_compute; reflexivity|]. split; [vm_compute; reflexivity|].
  apply (heal_restores_workloads env sample_view sample_profile "m1" "alpha" sample_net sample_net sample_workloads [] ws log1 [] log2);
    first [exact sample_shows | rewrite app_nil_r; reflexivity | vm_compute; reflexivity].
Defined.

(** The first attempt: [a] is stopped and taken off, then stopping [c] fails. *)
Definition failing_workloads : list ObservedContainer :=
  [sample_container_named "a" true {["ployz-alpha" := "10.210.1.5"]}; sample_container_named "c" true {["ployz-alpha" := ""]}].
Definition first_attempt : result string (list RestartableWorkload) * (unit * list WorkEvent) :=
  stop_local_workloads_for_subnet_heal
    (work_env (fun name => if String.eqb name "c" then Err (Operation "docker stop" "timeout") else Ok tt) failing_workloads)
    sample_profile "m1" "alpha" sample_net (tt, []).
Definition both_running : WorkView := {| wv_running := {["a"; "c"]}; wv_attached := {["a"; "c"]} |}.
Example first_attempt_fails :
  is_ok first_attempt.1 = false /\
  work_view both_running first_attempt.2.2 = {| wv_running := {["c"]}; wv_attached := {["c"]} |}.
Proof. split; vm_compute; reflexivity. Qed.

(** The second attempt succeeds; [a] is still stopped. *)
Definition retry_workloads : list ObservedContainer :=
  [sample_container_named "a" false ∅; sample_container_named "c" true {["ployz-alpha" := ""]}].
Lemma retry_shows : shows (work_view both_running first_attempt.2.2) "ployz-alpha" retry_workloads.
Proof. solve_shows. Qed.
Lemma heal_retry_forgets_witness :
  exists ws log1 log2,
    let env := work_env (fun _ => Ok tt) retry_workloads in
    stop_local_workloads_for_subnet_heal env sample_profile "m1" "alpha" sample_net (tt, first_attempt.2.2) = (Ok ws, (tt, log1)) /\
    start_local_workloads_after_subnet_heal env sample_profile "alpha" sample_net ws (tt, log1) = (Ok tt, (tt, log2)) /\
    "a" ∉ wv_running (work_view both_running log2).
Proof.
  set (env := work_env (fun _ => Ok tt) retry_workloads). set (ws := [{| rw_container_name := "c"; rw_was_running := true |}]).
  set (log0 := first_attempt.2.2).
  set (log1 := (stop_local_workloads_for_subnet_heal env sample_profile "m1" "alpha" sample_net (tt, log0)).2.2).
  set (log2 := (start_local_workloads_after_subnet_heal env sample_profile "alpha" sample_net ws (tt, log1)).2.2).
  exists ws, log1, log2. split; [vm_compute; reflexivity|]. split; [vm_compute; reflexivity|].
  assert (as_is "a" (work_view both_running log0) (work_view both_running log2)) as [Ha _].
  { apply (heal_retry_forgets env both_running sample_profile "m1" "alpha" sample_net sample_net retry_workloads log0 ws log1 [] (Ok tt) log2);
      first [exact retry_shows | rewrite app_nil_r; reflexivity | vm_compute; reflexivity
            | apply (bool_decide_unpack _); vm_compute; reflexivity]. }
  intros Hin. apply Ha in Hin. revert Hin. apply (bool_decide_unpack _). vm_compute. reflexivity.
Defined.

Definition host_machine : WgState := {|
  ws_fs := sample_host; ws_bridge := None; ws_bridge_overlay_ip := None; ws_extra_peers := [] |}.
Definition docker_profile : RuntimeProfile := from_runtime TargetDocker ModeSystem {| bi_networking := "n"; bi_corrosion := "c"; bi_dns := "d"; bi_gateway := "g" |}.
Definition sample_built : eff WgState WgEvent string MeshRuntimeComponents :=
  build_mesh_components (IP := ref_ipnet) (build := debug_build) (K := ref_keys) "CREATE" ref_host_env (ref_bridge_env "ployz-alpha")
  (fun _ => Ok tt) (Ok tt) docker_profile sample_identity sample_overlay "/d/n" "alpha" sample_net [80%N] [] "id".
Lemma components_agree_witness :
  exists components s' log' cfg, sample_built (host_machine, []) = (Ok components, (s', log')) /\
    agent_reads (fs_files (ws_fs s')) (mrc_store_runtime components) cfg.
Proof.
  set (r := sample_built (host_machine, [])).
  destruct r.1 as [components|e] eqn:Ec; [|vm_compute in Ec; discriminate].
  assert (sample_built (host_machine, []) = (Ok components, (r.2.1, r.2.2))) as E.
  { change (sample_built (host_machine, [])) with r. rewrite <- Ec. by destruct r as [? [? ?]]. }
  destruct (components_agree (IP := ref_ipnet) (build := debug_build) (K := ref_keys) "CREATE" ref_host_env (ref_bridge_env "ployz-alpha")
    (fun _ => Ok tt) (Ok tt) docker_profile sample_identity sample_overlay "/d/n" "alpha" sample_net [80%N] [] "id"
    host_machine [] components r.2.1 r.2.2 ltac:(done) ltac:(vm_compute; repeat constructor; done) eq_refl E)
    as (cfg & _ & _ & Hr & _).
  exists components, r.2.1, r.2.2, cfg. split; [exact E|exact Hr].
Defined.
