(* ===== verification/CorrosionStore.v ===== *)
(** * The Corrosion store implements the store interface

    The operations of [Corrosion] related to those of the in-memory store: both
    keep the same records, every operation takes effect as a whole or not at all,
    and the release table is an instance of [ReleaseStore], which is what the
    deploy coordinator relies on. *)

From S2P Require Import Prelude Order Text Types RefCodec Store Client Sql Corrosion.
Local Open Scope string_scope.
Local Open Scope corro_scope.

(** JSON of all records of the store, and what is relied on. *)
Class StoreJson := {
  sj_sqlite :: SqliteJson;
  sj_machine :: RecordCodec MachineRecord;
  sj_invite :: RecordCodec InviteRecord;
  sj_revision :: RecordCodec ServiceRevisionRecord;
  sj_release :: RecordCodec ServiceReleaseRecord;
  sj_instance :: RecordCodec InstanceStatusRecord;
  sj_deploy :: RecordCodec DeployRecord
}.
Class StoreJsonLaws (J : StoreJson) : Prop := {
  sl_machine :: CodecLaws MachineRecord;
  sl_invite :: CodecLaws InviteRecord;
  sl_revision :: CodecLaws ServiceRevisionRecord;
  sl_release :: CodecLaws ServiceReleaseRecord;
  sl_instance :: CodecLaws InstanceStatusRecord;
  sl_deploy :: CodecLaws DeployRecord;
  sl_expiry :: InviteJson
}.

(** ** The records of a store *)

Record StoreView := {
  sv_machines : gmap string MachineRecord;
  sv_invites : gmap string InviteRecord;
  sv_revisions : gmap (Namespace * string * string) ServiceRevisionRecord;
  sv_releases : gmap (Namespace * string) ServiceReleaseRecord;
  sv_instances : gmap string InstanceStatusRecord;
  sv_deploys : gmap string DeployRecord
}.
Definition memory_view (s : MemoryStore) : StoreView := {|
  sv_machines := ms_machines s; sv_invites := ms_invites s; sv_revisions := ms_service_revisions s;
  sv_releases := ms_service_releases s; sv_instances := ms_instance_status s; sv_deploys := ms_deploys s |}.

Section view.
Context `{J : StoreJson} `{!StoreJsonLaws J}.
Definition db_view (db : Db) : StoreView := {|
  sv_machines := stored machines_tb db; sv_invites := stored invites_tb db; sv_revisions := stored revisions_tb db;
  sv_releases := stored releases_tb db; sv_instances := stored instances_tb db; sv_deploys := stored deploys_tb db |}.

(** A statement on one table leaves the others as they are. *)
Lemma stored_other {T K T' K'} `{Countable K} `{Countable K'} (tb : TableOf T K) (tb' : TableOf T' K') m db db' :
  sets_table tb m db db' -> tb_name tb' <> tb_name tb -> stored tb' db' = stored tb' db.
Proof. intros Hs Hne. unfold stored. by rewrite (sets_table_other tb tb' m db db' Hs Hne). Qed.
Lemma table_ok_other {T K T' K'} `{Countable K} (tb : TableOf T K) (tb' : TableOf T' K') m db db' :
  sets_table tb m db db' -> tb_name tb' <> tb_name tb -> table_ok tb' db -> table_ok tb' db'.
Proof. intros Hs Hne. unfold table_ok. by rewrite (sets_table_other tb tb' m db db' Hs Hne). Qed.
End view.

(** The database after a statement on one table. *)
Ltac table_changed Hs :=
  first [ exact (proj1 (sets_table_stored _ _ _ _ Hs)) | exact (proj2 (sets_table_stored _ _ _ _ Hs))
        | by eapply (stored_other _ _ _ _ _ Hs) | by eapply (table_ok_other _ _ _ _ _ Hs) ].
Ltac db_changed Hok Hs := destruct Hok as (? & ? & ? & ? & ? & ?); split_and!; table_changed Hs.

(** ** The operations of the two stores *)

Inductive StoreOp :=
| SoUpsertMachine (r : MachineRecord) | SoDeleteMachine (id : MachineId)
| SoCreateInvite (i : InviteRecord) | SoConsumeInvite (id : string) (now : N)
| SoUpsertRevision (r : ServiceRevisionRecord)
| SoUpsertRelease (r : ServiceReleaseRecord) | SoDeleteRelease (namespace : Namespace) (service : string)
| SoUpsertInstance (r : InstanceStatusRecord) | SoDeleteInstance (id : InstanceId)
| SoUpsertDeploy (r : DeployRecord) | SoCommit (c : DeployCommit).

Definition mem_run (op : StoreOp) (s : MemoryStore) : Res unit * MemoryStore :=
  match op with
  | SoUpsertMachine r => (Ok tt, mem_upsert_self_machine r s)
  | SoDeleteMachine id => (Ok tt, mem_delete_machine id s)
  | SoCreateInvite i => mem_create_invite i s
  | SoConsumeInvite id now => mem_consume_invite id now s
  | SoUpsertRevision r => (Ok tt, mem_upsert_service_revision r s)
  | SoUpsertRelease r => (Ok tt, mem_upsert_service_release r s)
  | SoDeleteRelease ns service => (Ok tt, mem_delete_service_release ns service s)
  | SoUpsertInstance r => (Ok tt, mem_upsert_instance_status r s)
  | SoDeleteInstance id => (Ok tt, mem_delete_instance_status id s)
  | SoUpsertDeploy r => (Ok tt, mem_upsert_deploy r s)
  | SoCommit c => (Ok tt, mem_apply_deploy_commit c s)
  end.
Definition cor_run `{StoreJson} {C} `{CorroService C} (op : StoreOp) : corro C unit :=
  match op with
  | SoUpsertMachine r => cor_upsert_self_machine r
  | SoDeleteMachine id => cor_delete_machine id
  | SoCreateInvite i => cor_create_invite i
  | SoConsumeInvite id now => cor_consume_invite id now
  | SoUpsertRevision r => cor_upsert_service_revision r
  | SoUpsertRelease r => cor_upsert_service_release r
  | SoDeleteRelease ns service => cor_delete_service_release ns service
  | SoUpsertInstance r => cor_upsert_instance_status r
  | SoDeleteInstance id => cor_delete_instance_status id
  | SoUpsertDeploy r => cor_upsert_deploy r
  | SoCommit c => cor_apply_deploy_commit c
  end.

(** *** One statement *)

Section exec.
Context `{J : StoreJson} `{!StoreJsonLaws J} {C : Type} `{CorroService C} `{!CorroLaws C}.

(** The database afterwards: as before or changed as a whole; changed if the
    operation reports success. *)
Definition atomic (r : Res unit) (db db' after : Db) : Prop :=
  (r = Ok tt -> after = db') /\ (after = db \/ after = db').

Lemma exec_one_atomic s op c n db' :
  sql_exec schema s (cr_db c) = Some (ExecExecute n, db') ->
  let '(r, c') := exec_one [s] op c in atomic r (cr_db c) db' (cr_db c').
Proof.
  intros Hs. assert (sql_transaction schema [s] (cr_db c) = Some ([ExecExecute n], db')) as Ht by (cbn; by rewrite Hs).
  unfold exec_one, execute, cbind. destruct (cr_execute [s] c) as [[rs|e] c'] eqn:He; cbn.
  - destruct (cr_execute_ok _ _ _ _ _ _ He Ht) as [-> <-]. by split; [|right].
  - destruct (cr_execute_err _ _ _ _ He) as [Hdb|[rs Hrs]]; split; try done; [by left|right]. congruence.
Qed.

Lemma exec_all_atomic stmts op c rs db' :
  sql_transaction schema stmts (cr_db c) = Some (rs, db') ->
  let '(r, c') := exec_all stmts op c in atomic r (cr_db c) db' (cr_db c').
Proof.
  intros Ht. unfold exec_all, execute, cbind. destruct (cr_execute stmts c) as [[rs'|e] c'] eqn:He; cbn.
  - destruct (cr_execute_ok _ _ _ _ _ _ He Ht) as [-> <-].
    destruct (snd <$> _) as [[]|]; cbn; (split; [done|by right]).
  - destruct (cr_execute_err _ _ _ _ He) as [Hdb|[rs' Hrs]]; split; try done; [by left|right]. congruence.
Qed.

Lemma serialize_ok {T} `{RecordCodec T} `{!CodecLaws T} op (r : T) : serialize op r = Ok (payload_of r).
Proof. unfold serialize. by rewrite (proj1 (payload_of_ok r)). Qed.
End exec.

(** *** The commit transaction *)

Lemma unseen_services_elem seen releases s :
  s ∈ unseen_services seen releases <-> s ∉ seen /\ s ∈ rel_service <$> releases.
Proof.
  revert seen. induction releases as [|r releases IH]; intros seen; cbn; [set_solver|].
  case_decide as Hs; [rewrite IH; set_solver|]. rewrite elem_of_cons, IH.
  destruct (decide (s = rel_service r)) as [->|]; set_solver.
Qed.
Lemma cor_touched_elem c s : s ∈ cor_touched_services c <-> s ∈ touched_services c.
Proof.
  unfold cor_touched_services, touched_services. rewrite !elem_of_app, unseen_services_elem, elem_of_list_to_set.
  destruct (decide (s ∈ dc_removed_services c)); tauto.
Qed.

Definition delete_services (ns : Namespace) (services : list string)
    (m : gmap (Namespace * string) ServiceReleaseRecord) : gmap (Namespace * string) ServiceReleaseRecord :=
  foldl (fun m s => delete (ns, s) m) m services.
Lemma delete_services_lookup ns services m k :
  delete_services ns services m !! k = if decide (k.1 = ns /\ k.2 ∈ services) then None else m !! k.
Proof.
  revert m. induction services as [|s services IH]; intros m; cbn.
  - rewrite decide_False; [done|set_solver].
  - unfold delete_services in IH. rewrite IH. destruct (decide (k = (ns, s))) as [->|Hne].
    + rewrite lookup_delete_eq. repeat case_decide; set_solver.
    + rewrite lookup_delete_ne by done. destruct k as [kn ks]. cbn in *. repeat case_decide; set_solver.
Qed.
Lemma commit_releases_deletes c m :
  commit_releases c m = insert_all release_key (delete_services (dc_namespace c) (cor_touched_services c) m) (dc_releases c).
Proof.
  apply map_eq. intros k. unfold commit_releases. rewrite !insert_all_lookup. destruct (last _) as [r|]; [done|].
  rewrite delete_services_lookup. apply option_eq. intros r. rewrite map_lookup_filter_Some. cbn.
  pose proof (cor_touched_elem c k.2). case_decide; naive_solver.
Qed.

Lemma transaction_app `{SqliteJson} stmts1 stmts2 db :
  sql_transaction schema (stmts1 ++ stmts2) db =
  (r1 ← sql_transaction schema stmts1 db; r2 ← sql_transaction schema stmts2 r1.2; Some ((r1.1 ++ r2.1)%list, r2.2)).
Proof.
  revert db. induction stmts1 as [|s stmts1 IH]; intros db; cbn.
  - by destruct (sql_transaction schema stmts2 db) as [[]|].
  - destruct (sql_exec schema s db) as [[[n|e] db1]|]; cbn; [|done|done]. rewrite IH.
    destruct (sql_transaction schema stmts1 db1) as [[rs1 db2]|]; cbn; [|done].
    by destruct (sql_transaction schema stmts2 db2) as [[]|].
Qed.

Section commit_effect.
Context `{J : StoreJson} `{!StoreJsonLaws J}.

Lemma deletes_transaction ns services db : table_ok releases_tb db ->
  exists rs db', sql_transaction schema (release_delete_statement ns <$> services) db = Some (rs, db') /\
    sets_table releases_tb (delete_services ns services (stored releases_tb db)) db db'.
Proof.
  revert db. induction services as [|s services IH]; intros db Hok; cbn [fmap list_fmap sql_transaction].
  - exists [], db. split; [done|]. by apply sets_table_refl.
  - destruct (delete_release_effect ns s db Hok) as (n & db1 & -> & Hs1). cbn [mbind option_bind fst snd].
    pose proof (sets_table_stored _ _ _ _ Hs1) as [Hm1 Hok1].
    destruct (IH db1 Hok1) as (rs & db2 & -> & Hs2). cbn [mbind option_bind fst snd]. eexists _, db2. split; [done|].
    rewrite Hm1 in Hs2. by eapply sets_table_trans.
Qed.
Lemma upserts_transaction (releases : list ServiceReleaseRecord) db : table_ok releases_tb db ->
  exists stmts rs db', try_map release_upsert_statement releases = Ok stmts /\
    sql_transaction schema stmts db = Some (rs, db') /\
    sets_table releases_tb (insert_all release_key (stored releases_tb db) releases) db db'.
Proof.
  revert db. induction releases as [|r releases IH]; intros db Hok; cbn [try_map].
  - exists [], [], db. split_and!; [done..|]. by apply sets_table_refl.
  - destruct (upsert_release_effect r db Hok) as (db1 & He & Hs1).
    pose proof (sets_table_stored _ _ _ _ Hs1) as [Hm1 Hok1]. destruct (IH db1 Hok1) as (stmts & rs & db2 & Ht & Hx & Hs2).
    unfold release_upsert_statement at 1. rewrite serialize_ok. cbn [rbind]. rewrite Ht. cbn [rbind]. eexists _, _, db2.
    split; [done|]. cbn [sql_transaction]. rewrite He. cbn [mbind option_bind fst snd]. rewrite Hx.
    cbn [mbind option_bind fst snd]. split; [done|]. rewrite Hm1 in Hs2. by eapply sets_table_trans.
Qed.

Lemma commit_transaction c db : db_ok db ->
  exists stmts rs db1 db2, build_commit_statements c = Ok stmts /\
    sql_transaction schema stmts db = Some (rs, db2) /\
    sets_table releases_tb (commit_releases c (stored releases_tb db)) db db1 /\
    sets_table deploys_tb (<[dr_deploy_id (dc_deploy c) := dc_deploy c]> (stored deploys_tb db)) db1 db2.
Proof.
  intros (_ & _ & _ & Hr & _ & Hd).
  destruct (deletes_transaction (dc_namespace c) (cor_touched_services c) db Hr) as (rs1 & db1 & Ht1 & Hs1).
  pose proof (sets_table_stored _ _ _ _ Hs1) as [Hm1 Hok1].
  destruct (upserts_transaction (dc_releases c) db1 Hok1) as (stmts & rs2 & db2 & Hb & Ht2 & Hs2).
  pose proof (sets_table_trans _ _ _ _ _ _ Hs1 Hs2) as Hs12. rewrite Hm1, <- commit_releases_deletes in Hs12.
  assert (table_ok deploys_tb db2) as Hd2 by (by apply (table_ok_other releases_tb deploys_tb _ _ _ Hs12)).
  destruct (upsert_deploy_effect (dc_deploy c) db2 Hd2) as (db3 & Ht3 & Hs3).
  rewrite (stored_other releases_tb deploys_tb _ _ _ Hs12) in Hs3 by done.
  unfold build_commit_statements. rewrite Hb. cbn [rbind]. unfold deploy_upsert_statement. rewrite serialize_ok. cbn [rbind].
  eexists _, _, db2, db3. split_and!; [done| |done|done].
  rewrite transaction_app, Ht1. cbn [mbind option_bind fst snd]. rewrite transaction_app, Ht2.
  cbn [mbind option_bind fst snd sql_transaction]. rewrite Ht3. done.
Qed.
End commit_effect.

(** ** Refinement *)

(** Revisions are content-addressed: a second publication under the same key is
    the same record.  Times fit SQLite's integers. *)
Definition admissible (op : StoreOp) (v : StoreView) : Prop :=
  match op with
  | SoUpsertRevision r => forall r', sv_revisions v !! revision_key r = Some r' -> r' = r
  | SoConsumeInvite _ now =>
      (Z.of_N now <= i64_max)%Z /\ map_Forall (fun _ i => (Z.of_N (inv_expires_at i) <= i64_max)%Z) (sv_invites v)
  | _ => True
  end.

Section refinement.
Context `{J : StoreJson} `{!StoreJsonLaws J} {C : Type} `{CorroService C} `{!CorroLaws C}.

(** The outcome of an operation on the database against that on memory. *)
Definition refines (r : Res unit) (after : Db) (s : MemoryStore) (m : Res unit * MemoryStore) : Prop :=
  db_ok after /\ (r = Ok tt -> m.1 = Ok tt /\ db_view after = memory_view m.2) /\
  (db_view after = memory_view s \/ db_view after = memory_view m.2).

Lemma refines_atomic r db db' after s s' :
  atomic r db db' after -> db_ok db -> db_ok db' -> db_view db = memory_view s -> db_view db' = memory_view s' ->
  refines r after s (Ok tt, s').
Proof. intros [Hr Ha] Hok Hok' Hv Hv'. destruct Ha as [-> | ->]; unfold refines; cbn; naive_solver. Qed.

Lemma refines_done r after s s' : db_ok after -> db_view after = memory_view s' -> refines r after s (Ok tt, s').
Proof. intros Hok Hv. split_and!; [done|intros _; done|by right]. Qed.
Lemma refines_failed e after s m : db_ok after -> db_view after = memory_view s -> refines (Err e) after s m.
Proof. intros Hok Hv. split_and!; [done|done|by left]. Qed.

(** A statement on one table, run on its own. *)
Lemma refines_one {T K} `{Countable K} (tb : TableOf T K) stmt op c n m db' s s' :
  sql_exec schema stmt (cr_db c) = Some (ExecExecute n, db') -> sets_table tb m (cr_db c) db' ->
  db_ok (cr_db c) -> db_ok db' -> db_view (cr_db c) = memory_view s -> db_view db' = memory_view s' ->
  let '(r, c') := exec_one [stmt] op c in refines r (cr_db c') s (Ok tt, s').
Proof.
  intros He Hs Hok Hok' Hv Hv'. pose proof (exec_one_atomic stmt op c n db' He) as Ha.
  destruct (exec_one [stmt] op c) as [r c']. by eapply refines_atomic.
Qed.

Lemma view_eq v1 v2 : v1 = v2 <->
  sv_machines v1 = sv_machines v2 /\ sv_invites v1 = sv_invites v2 /\ sv_revisions v1 = sv_revisions v2 /\
  sv_releases v1 = sv_releases v2 /\ sv_instances v1 = sv_instances v2 /\ sv_deploys v1 = sv_deploys v2.
Proof. split; [by intros ->|]. destruct v1, v2; cbn. naive_solver. Qed.

(** Compare the tables after a statement on one of them. *)
Ltac view_simpl :=
  cbn [db_view memory_view sv_machines sv_invites sv_revisions sv_releases sv_instances sv_deploys
       mem_upsert_self_machine mem_upsert_service_revision mem_upsert_service_release mem_delete_service_release
       mem_upsert_instance_status mem_delete_instance_status mem_upsert_deploy mem_apply_deploy_commit
       with_machines with_invites with_routing ms_machines ms_invites ms_service_revisions ms_service_releases
       ms_instance_status ms_deploys tb_key machines_tb invites_tb revisions_tb releases_tb instances_tb deploys_tb] in *.
Ltac view_changed Hv Hs :=
  apply view_eq in Hv as (? & ? & ? & ? & ? & ?); apply view_eq; view_simpl; split_and!;
  first [ rewrite (proj1 (sets_table_stored _ _ _ _ Hs)); congruence
        | rewrite (stored_other _ _ _ _ _ Hs) by done; congruence ].
Ltac by_one tb He Hs Hok Hv :=
  eapply (refines_one tb); [exact He|exact Hs|exact Hok|db_changed Hok Hs|exact Hv|view_changed Hv Hs].

Lemma refines_simple op c s :
  db_ok (cr_db c) -> db_view (cr_db c) = memory_view s ->
  match op with
  | SoUpsertMachine _ | SoDeleteMachine _ | SoUpsertRelease _ | SoDeleteRelease _ _ | SoUpsertInstance _
  | SoDeleteInstance _ | SoUpsertDeploy _ =>
      let '(r, c') := cor_run op c in refines r (cr_db c') s (mem_run op s)
  | _ => True
  end.
Proof.
  intros Hok Hv. pose proof Hok as (Hm & Hi & Hr & Hl & Hs & Hd). destruct op as [r|id|i|id now|r|r|ns sv|r|id|r|cm]; try done; cbn [cor_run mem_run].
  - unfold cor_upsert_self_machine, cbind, clift. rewrite serialize_ok.
    destruct (upsert_machine_effect r _ Hm) as (db' & He & Hst). by_one machines_tb He Hst Hok Hv.
  - destruct (delete_machine_effect id _ Hm) as (n & db' & He & Hst). unfold cor_delete_machine, mem_delete_machine.
    destruct (ms_machines s !! id) as [x|] eqn:Hx; [by_one machines_tb He Hst Hok Hv|].
    assert (stored machines_tb (cr_db c) !! id = None) as Hn
      by (pose proof (f_equal sv_machines Hv) as Hvm; cbn [db_view memory_view sv_machines] in Hvm; by rewrite Hvm).
    rewrite delete_id in Hst by done. by_one machines_tb He Hst Hok Hv.
  - unfold cor_upsert_service_release, release_upsert_statement, cbind, clift. rewrite serialize_ok. cbn [rbind].
    destruct (upsert_release_effect r _ Hl) as (db' & He & Hst). by_one releases_tb He Hst Hok Hv.
  - destruct (delete_release_effect ns sv _ Hl) as (n & db' & He & Hst). by_one releases_tb He Hst Hok Hv.
  - unfold cor_upsert_instance_status, cbind, clift. rewrite serialize_ok.
    destruct (upsert_instance_effect r _ Hs) as (db' & He & Hst). by_one instances_tb He Hst Hok Hv.
  - destruct (delete_instance_effect id _ Hs) as (n & db' & He & Hst). by_one instances_tb He Hst Hok Hv.
  - unfold cor_upsert_deploy, deploy_upsert_statement, cbind, clift. rewrite serialize_ok. cbn [rbind].
    destruct (upsert_deploy_effect r _ Hd) as (db' & He & Hst). by_one deploys_tb He Hst Hok Hv.
Qed.

Lemma refines_revision r c s :
  db_ok (cr_db c) -> db_view (cr_db c) = memory_view s -> admissible (SoUpsertRevision r) (memory_view s) ->
  let '(res, c') := cor_upsert_service_revision r c in refines res (cr_db c') s (Ok tt, mem_upsert_service_revision r s).
Proof.
  intros Hok Hv Ha. pose proof Hok as (_ & _ & Hr & _). unfold cor_upsert_service_revision, cbind, clift. rewrite serialize_ok.
  destruct (upsert_revision_effect r _ Hr) as (db' & He & Hst).
  pose proof (f_equal sv_revisions Hv) as Hvr. cbn [db_view memory_view sv_revisions] in Hvr.
  assert (match stored revisions_tb (cr_db c) !! revision_key r with
          | Some _ => stored revisions_tb (cr_db c)
          | None => <[revision_key r := r]> (stored revisions_tb (cr_db c))
          end = <[revision_key r := r]> (stored revisions_tb (cr_db c))) as Hm.
  { destruct (stored revisions_tb (cr_db c) !! revision_key r) as [r'|] eqn:Hx; [|done].
    rewrite (Ha r') in Hx by (cbn [memory_view sv_revisions]; by rewrite <- Hvr). by rewrite insert_id. }
  rewrite Hm in Hst. by_one revisions_tb He Hst Hok Hv.
Qed.

Lemma refines_create i c s :
  db_ok (cr_db c) -> db_view (cr_db c) = memory_view s ->
  let '(res, c') := cor_create_invite i c in refines res (cr_db c') s (mem_create_invite i s).
Proof.
  intros Hok Hv. pose proof Hok as (_ & Hi & _). unfold cor_create_invite, cbind, clift. rewrite serialize_ok.
  pose proof (f_equal sv_invites Hv) as Hvi. cbn [db_view memory_view sv_invites] in Hvi.
  pose proof (insert_invite_effect i _ Hi) as Hx.
  set (stmt := WithParams SQL_INSERT_INVITE _) in *. unfold execute.
  destruct (sql_exec schema stmt (cr_db c)) as [[[n|e] db']|] eqn:He; [|destruct Hx as (_ & -> & ->)|done].
  - destruct n as [|[]]; try done. destruct Hx as [Hn Hst].
    assert (mem_create_invite i s = (Ok tt, with_invites (<[inv_id i := i]> (ms_invites s)) s)) as ->.
    { unfold mem_create_invite. rewrite <- Hvi. destruct (stored invites_tb (cr_db c) !! inv_id i) as [x|] eqn:Hxi; [|done].
      exfalso. apply Hn. apply tb_map_lookup in Hxi as [Hin Hk]; [|done]. apply list_elem_of_fmap.
      exists (tb_row invites_tb x). split; [|done]. rewrite tb_row_key, Hk. done. }
    assert (sql_transaction schema [stmt] (cr_db c) = Some ([ExecExecute 1], db')) as Ht by (cbn [sql_transaction]; by rewrite He).
    assert (db_ok db') as Hok' by (db_changed Hok Hst).
    assert (db_view db' = memory_view (with_invites (<[inv_id i := i]> (ms_invites s)) s)) as Hv'
      by (clear He Ht; view_changed Hv Hst).
    destruct (cr_execute [stmt] c) as [[rs|e] c'] eqn:Hc; cbn [map_err].
    + destruct (cr_execute_ok _ _ _ _ _ _ Hc Ht) as [-> Hdb]. rewrite <- Hdb in Hok', Hv'. by apply refines_done.
    + destruct (cr_execute_err _ _ _ _ Hc) as [Hdb|[rs Hrs]].
      * rewrite Hdb. by apply refines_failed.
      * rewrite Ht in Hrs. injection Hrs as _ Hdb. rewrite Hdb in Hok', Hv'. by apply refines_done.
  - destruct (cr_execute [stmt] c) as [res c'] eqn:Hc.
    destruct (cr_execute_fail _ _ _ _ _ He Hc) as [Hdb [-> | [e' ->]]]; cbn [map_err]; rewrite ?Hdb.
    + destruct (contains_str "UNIQUE" _); unfold clift; rewrite Hdb; by apply refines_failed.
    + by apply refines_failed.
Qed.

Lemma refines_commit cm c s :
  db_ok (cr_db c) -> db_view (cr_db c) = memory_view s ->
  let '(res, c') := cor_apply_deploy_commit cm c in refines res (cr_db c') s (Ok tt, mem_apply_deploy_commit cm s).
Proof.
  intros Hok Hv. destruct (commit_transaction cm _ Hok) as (stmts & rs & db1 & db2 & Hb & Ht & Hs1 & Hs2).
  unfold cor_apply_deploy_commit, cbind, clift. rewrite Hb. pose proof (exec_all_atomic stmts "apply_deploy_commit" c rs db2 Ht) as Ha.
  destruct (exec_all stmts "apply_deploy_commit" c) as [r c']. eapply refines_atomic; [done|done| |done|].
  - assert (db_ok db1) as Hok1 by (db_changed Hok Hs1). db_changed Hok1 Hs2.
  - clear Hb Ht Ha. apply view_eq in Hv as (? & ? & ? & ? & ? & ?). apply view_eq. view_simpl.
    rewrite (proj1 (sets_table_stored _ _ _ _ Hs2)), !(stored_other _ _ _ _ _ Hs2) by done.
    rewrite (proj1 (sets_table_stored _ _ _ _ Hs1)), !(stored_other _ _ _ _ _ Hs1) by done. split_and!; congruence.
Qed.

(** Looking an invite up changes nothing, and the operation fails after it. *)
Lemma lookup_then_fail (stmt : Statement) (e1 e2 : Error) c :
  let '(r, c') := (rows <-$ query_rows stmt "consume_invite" ;;
                   match rows with [] => clift (Err e1) | _ => clift (Err e2) end : corro C unit) c in
  (exists e, r = Err e) /\ cr_db c' = cr_db c.
Proof.
  unfold cbind, query_rows, clift. destruct (cr_query stmt c) as [r c'] eqn:Hq. pose proof (cr_query_db _ _ _ _ Hq) as Hdb.
  destruct r as [[items|e]|]; [|by eauto..]. destruct (read_query _ items) as [[|]|]; eauto.
Qed.

Lemma refines_consume id now c s :
  db_ok (cr_db c) -> db_view (cr_db c) = memory_view s -> admissible (SoConsumeInvite id now) (memory_view s) ->
  let '(res, c') := cor_consume_invite id now c in refines res (cr_db c') s (mem_consume_invite id now s).
Proof.
  intros Hok Hv [Hnow Hrange]. pose proof Hok as (_ & Hi & _).
  pose proof (f_equal sv_invites Hv) as Hvi. cbn [db_view memory_view sv_invites] in Hvi, Hrange.
  assert (invites_in_range (cr_db c)) as Hr by (unfold invites_in_range; by rewrite Hvi).
  destruct (consume_invite_effect id (as_i64 now) _ Hi Hr) as (n & db' & He & Hx).
  rewrite as_i64_small, Hvi in Hx by done.
  set (stmt := WithParams SQL_CONSUME_INVITE _) in *.
  assert (sql_transaction schema [stmt] (cr_db c) = Some ([ExecExecute n], db')) as Ht by (cbn [sql_transaction]; by rewrite He).
  assert ((n = 1%N /\ mem_consume_invite id now s = (Ok tt, with_invites (delete id (ms_invites s)) s) /\
           sets_table invites_tb (delete id (ms_invites s)) (cr_db c) db') \/
          (n = 0%N /\ (mem_consume_invite id now s).2 = s /\ sets_table invites_tb (ms_invites s) (cr_db c) db')) as Hcase.
  { clear Ht He. unfold mem_consume_invite. destruct (ms_invites s !! id) as [i|]; [|right; by destruct Hx as [-> Hst]].
    destruct (Z.leb_spec (Z.of_N now) (Z.of_N (inv_expires_at i))); destruct Hx as [-> Hst].
    - left. rewrite (proj2 (N.ltb_ge _ _)) by lia. split_and!; [reflexivity..|exact Hst].
    - right. rewrite (proj2 (N.ltb_lt _ _)) by lia. split_and!; [reflexivity..|exact Hst]. }
  clear Hx He. unfold cor_consume_invite, execute. cbn [cbind]. fold stmt.
  destruct Hcase as [(-> & Hmem & Hst)|(-> & Hmem & Hst)].
  - assert (db_ok db') as Hok' by (db_changed Hok Hst).
    assert (db_view db' = memory_view (with_invites (delete id (ms_invites s)) s)) as Hv' by (clear Ht; view_changed Hv Hst).
    rewrite Hmem. unfold cbind at 1. destruct (cr_execute [stmt] c) as [[rs|e] c'] eqn:Hc; cbn [map_err].
    + destruct (cr_execute_ok _ _ _ _ _ _ Hc Ht) as [-> Hdb]. rewrite <- Hdb in Hok', Hv'. by apply refines_done.
    + destruct (cr_execute_err _ _ _ _ Hc) as [Hdb|[rs Hrs]]; [rewrite Hdb; by apply refines_failed|].
      rewrite Ht in Hrs. injection Hrs as _ Hdb. rewrite Hdb in Hok', Hv'. by apply refines_done.
  - assert (db_ok db') as Hok' by (db_changed Hok Hst).
    assert (db_view db' = memory_view s) as Hv' by (clear Ht; view_changed Hv Hst).
    unfold cbind at 1. destruct (cr_execute [stmt] c) as [[rs|e] c'] eqn:Hc; cbn [map_err].
    + destruct (cr_execute_ok _ _ _ _ _ _ Hc Ht) as [-> Hdb]. rewrite <- Hdb in Hok', Hv'.
      pose proof (lookup_then_fail (WithParams SQL_LOOKUP_INVITE [SvText id])
        (Operation "invite_not_found" ("invite '" +:+ id +:+ "' not found"))
        (Operation "invite_expired" ("invite '" +:+ id +:+ "' is expired")) c') as Hq.
      destruct (cbind (query_rows _ _) _ c') as [r c'']. destruct Hq as [[e ->] ->]. by apply refines_failed.
    + destruct (cr_execute_err _ _ _ _ Hc) as [Hdb|[rs Hrs]]; [rewrite Hdb; by apply refines_failed|].
      rewrite Ht in Hrs. injection Hrs as _ Hdb'. rewrite Hdb' in Hok', Hv'. by apply refines_failed.
Qed.

Lemma cor_run_refines op c s :
  db_ok (cr_db c) -> db_view (cr_db c) = memory_view s -> admissible op (memory_view s) ->
  let '(r, c') := cor_run op c in refines r (cr_db c') s (mem_run op s).
Proof.
  intros Hok Hv Ha. pose proof (refines_simple op c s Hok Hv) as Hsimple. destruct op; try exact Hsimple.
  - by apply refines_create.
  - by apply refines_consume.
  - by apply refines_revision.
  - by apply refines_commit.
Qed.
End refinement.

(** *** Sequences of operations *)

Fixpoint cor_runs `{StoreJson} {C} `{CorroService C} (ops : list StoreOp) : corro C unit :=
  match ops with [] => cret tt | op :: ops => _ <-$ cor_run op ;; cor_runs ops end.
Definition mem_after (ops : list StoreOp) (s : MemoryStore) : MemoryStore := foldl (fun s op => (mem_run op s).2) s ops.
Fixpoint all_admissible (ops : list StoreOp) (s : MemoryStore) : Prop :=
  match ops with [] => True | op :: ops => admissible op (memory_view s) /\ all_admissible ops (mem_run op s).2 end.
Fixpoint mem_all_ok (ops : list StoreOp) (s : MemoryStore) : Prop :=
  match ops with [] => True | op :: ops => (mem_run op s).1 = Ok tt /\ mem_all_ok ops (mem_run op s).2 end.

Lemma cor_runs_refine `{J : StoreJson} `{!StoreJsonLaws J} {C : Type} `{CorroService C} `{!CorroLaws C}
    (ops : list StoreOp) (c : C) (s : MemoryStore) :
  db_ok (cr_db c) -> db_view (cr_db c) = memory_view s -> all_admissible ops s ->
  let '(r, c') := cor_runs ops c in
  db_ok (cr_db c') /\
  (r = Ok tt -> mem_all_ok ops s /\ db_view (cr_db c') = memory_view (mem_after ops s)) /\
  exists k, db_view (cr_db c') = memory_view (mem_after (take k ops) s).
Proof.
  revert c s. induction ops as [|op ops IH]; intros c s Hok Hv Ha.
  { cbn [cor_runs cret]. split_and!; [done|done|by exists 0%nat]. }
  destruct Ha as [Ha1 Ha2]. cbn [cor_runs cbind]. unfold cbind at 1.
  pose proof (cor_run_refines op c s Hok Hv Ha1) as Hr. destruct (cor_run op c) as [[[]|e] c1]; destruct Hr as (Hok1 & Hsucc & Hpre).
  - destruct (Hsucc eq_refl) as [Hm1 Hv1]. specialize (IH c1 _ Hok1 Hv1 Ha2).
    destruct (cor_runs ops c1) as [r c2]. destruct IH as (Hok2 & Hs2 & k & Hk).
    split_and!; [done| |exists (S k); done]. intros ->. by destruct (Hs2 eq_refl).
  - split_and!; [done|done|]. destruct Hpre as [Hp|Hp]; [by exists 0%nat|]. exists 1%nat. done.
Qed.

(** C4: The Corrosion store refines the in-memory store.  Started with the same
    records, a sequence of writes, invites and commits run on Corrosion until one
    fails leaves a well-formed database with the records the in-memory store has
    after some prefix of the sequence, each operation applied as a whole or not at
    all, whatever the replies; if no operation reports an error, all of them
    succeed in memory too and the records are the same.  A revision already
    published is assumed to be published again with the same content, and times to
    fit SQLite's integers. *)
Theorem corrosion_refines_memory `{J : StoreJson} `{!StoreJsonLaws J} {C : Type} `{CorroService C} `{!CorroLaws C}
    (ops : list StoreOp) (c : C) (s : MemoryStore) :
  db_ok (cr_db c) -> db_view (cr_db c) = memory_view s -> all_admissible ops s ->
  let '(r, c') := cor_runs ops c in
  db_ok (cr_db c') /\
  (r = Ok tt -> mem_all_ok ops s /\ db_view (cr_db c') = memory_view (mem_after ops s)) /\
  exists k, db_view (cr_db c') = memory_view (mem_after (take k ops) s).
Proof.
  apply cor_runs_refine.
Qed.

(** ** Reads *)

Section reading.
Context `{J : StoreJson} `{!StoreJsonLaws J} {C : Type} `{CorroService C} `{!CorroLaws C}.

Lemma read_query_answer op rows items : query_answer rows items ->
  read_query op items = Ok rows \/ exists e, read_query op items = Err e.
Proof.
  induction 1 as [cols rows items _ IH|id cells rows items _ IH| | | |]; cbn; eauto.
  destruct IH as [-> |[e ->]]; cbn; eauto.
Qed.

Lemma read_rows {T K} `{Countable K} (tb : TableOf T K) stmt parse f op c l c' :
  reads tb stmt parse f -> table_ok tb (cr_db c) ->
  (rows <-$ query_rows stmt op ;; clift (try_map parse rows)) c = (Ok l, c') ->
  cr_db c' = cr_db c /\ l ≡ₚ filter (fun r => f r = true) (map_to_list (stored tb (cr_db c))).*2.
Proof.
  intros Hr Hok. destruct (Hr _ Hok) as (cells & l' & Hq & Hm & Hnd & Hin).
  unfold cbind, query_rows, clift. destruct (cr_query stmt c) as [res c1] eqn:Hc. pose proof (cr_query_db _ _ _ _ Hc) as Hdb.
  destruct res as [[items|e]|]; [|done..].
  destruct (read_query_answer op cells items) as [Hi|[e Hi]]; [by eapply cr_query_rows| |]; rewrite Hi; [|done].
  rewrite Hm. intros [= <- <-]. split; [done|]. apply NoDup_Permutation.
  - by eapply NoDup_fmap_1.
  - apply NoDup_filter. eapply NoDup_fmap_1. apply (map_values_NoDup (tb_key tb)). by apply tb_map_wf.
  - intros r. rewrite Hin, list_elem_of_filter, map_values_elem. split; [naive_solver|].
    intros [Hf (k & Hk)]. split; [|done]. rewrite <- Hk. f_equal. by apply (tb_map_wf tb _ Hok) in Hk.
Qed.

Lemma get_deploy_read id c o c' : table_ok deploys_tb (cr_db c) -> cor_get_deploy id c = (Ok o, c') ->
  cr_db c' = cr_db c /\ o = stored deploys_tb (cr_db c) !! id.
Proof.
  intros Hok. pose proof (get_deploy_effect id _ Hok) as Hq. unfold cor_get_deploy, cbind, query_rows, cret, clift.
  destruct (cr_query _ c) as [res c1] eqn:Hc. pose proof (cr_query_db _ _ _ _ Hc) as Hdb. destruct res as [[items|e]|]; [|done..].
  destruct (read_query_answer "get_deploy" _ items (cr_query_rows _ _ _ _ _ Hc Hq)) as [-> |[e ->]]; [|done].
  destruct (stored deploys_tb (cr_db c) !! id) as [r|].
  - cbn. rewrite decode_payload_of. cbn. rewrite decide_False by tauto. by intros [= <- <-].
  - by intros [= <- <-].
Qed.
End reading.

Lemma filter_all {A} (l : list A) : filter (fun _ => true = true) l = l.
Proof. induction l as [|x l IH]; [done|]. rewrite filter_cons_True by done. by rewrite IH. Qed.
Lemma filter_bool {A} (P : A -> Prop) `{!forall x, Decision (P x)} (l : list A) :
  filter (fun x => bool_decide (P x) = true) l = filter P l.
Proof. apply list_filter_iff. intros x. apply bool_decide_eq_true. Qed.


(** ** The release table as the deploy coordinator sees it *)

(** A service that answers. *)
Class CorroUp (C : Type) `{CorroLaws C} : Prop := {
  up_execute : forall stmts c r, sql_transaction schema stmts (cr_db c) = Some r ->
    exists rs c', cr_execute stmts c = (Ok rs, c');
  up_query : forall s c rows, sql_query s (cr_db c) = Some rows ->
    exists items c', cr_query s c = (Some (Ok items), c') /\ forall op, read_query op items = Ok rows
}.

Section release_store.
Context `{J : StoreJson} `{!StoreJsonLaws J} {C : Type} `{CorroService C} `{!CorroLaws C} `{!CorroUp C}.

Definition listed_releases (ns : Namespace) (c : C) : list ServiceReleaseRecord :=
  match (cor_list_service_releases ns c).1 with Ok l => l | Err _ => [] end.

Lemma listed_releases_spec ns c : db_ok (cr_db c) ->
  listed_releases ns c ≡ₚ filter (fun r => rel_namespace r = ns) (map_to_list (stored releases_tb (cr_db c))).*2.
Proof.
  intros (_ & _ & _ & Hl & _). unfold listed_releases.
  destruct (list_releases_effect ns _ Hl) as (cells & l & Hq & Hm & _).
  destruct (up_query _ _ _ Hq) as (items & c1 & Hc & Hr).
  assert (cor_list_service_releases ns c = (Ok l, c1)) as He.
  { unfold cor_list_service_releases, cbind, query_rows, clift. by rewrite Hc, Hr, Hm. }
  pose proof (read_rows releases_tb _ _ _ _ _ _ _ (list_releases_effect ns) Hl He) as [_ Hp].
  rewrite He. cbn. by rewrite filter_bool in Hp.
Qed.

Lemma committed_releases cm c : db_ok (cr_db c) ->
  let c' := (cor_apply_deploy_commit cm c).2 in
  db_ok (cr_db c') /\ stored releases_tb (cr_db c') = commit_releases cm (stored releases_tb (cr_db c)).
Proof.
  intros Hok. destruct (commit_transaction cm _ Hok) as (stmts & rs & db1 & db2 & Hb & Ht & Hs1 & Hs2).
  destruct (up_execute _ _ _ Ht) as (rs' & c1 & He). destruct (cr_execute_ok _ _ _ _ _ _ He Ht) as [-> Hdb].
  unfold cor_apply_deploy_commit, exec_all, execute, cbind, clift. rewrite Hb, He. cbn [map_err].
  assert (db_ok db1) as Hok1 by (db_changed Hok Hs1). assert (db_ok db2) as Hok2 by (db_changed Hok1 Hs2).
  assert (stored releases_tb db2 = commit_releases cm (stored releases_tb (cr_db c))) as Hst
    by (rewrite (stored_other _ _ _ _ _ Hs2) by done; apply (sets_table_stored _ _ _ _ Hs1)).
  destruct (snd <$> _) as [[]|]; cbn; by rewrite Hdb.
Qed.

#[export] Program Instance corrosion_release_store : ReleaseStore C := {|
  rst_wf c := db_ok (cr_db c);
  rst_releases c := stored releases_tb (cr_db c);
  rst_list := listed_releases;
  rst_commit cm c := (cor_apply_deploy_commit cm c).2 |}.
Next Obligation. intros c (_ & _ & _ & Hl & _). by apply (tb_map_wf releases_tb). Qed.
Next Obligation.
  intros ns c r Hok. rewrite listed_releases_spec by done. rewrite list_elem_of_filter, map_values_elem.
  destruct Hok as (_ & _ & _ & Hl & _). split; [|naive_solver]. intros (Hns & k & Hk). split; [done|].
  rewrite <- Hk. f_equal. by apply (tb_map_wf releases_tb _ Hl) in Hk.
Qed.
Next Obligation.
  intros ns c Hok. rewrite listed_releases_spec by done. destruct Hok as (_ & _ & _ & Hl & _).
  eapply sublist_NoDup; [apply (map_values_NoDup release_key), (tb_map_wf releases_tb _ Hl)|].
  apply fmap_sublist, sublist_filter.
Qed.
Next Obligation. intros cm c Hok. by apply committed_releases. Qed.
Next Obligation. intros cm c Hok. by apply committed_releases. Qed.
End release_store.

(** ** A service that has the laws *)

#[export] Instance ref_record_codec {T} `{Countable T} : RecordCodec T | 10 :=
  {| to_json r := Ok (ref_text r); from_json := ref_read |}.
Definition ref_sqlite_json : SqliteJson := {|
  json_valid _ := true;
  json_extract p _ := match ref_read (T := InviteRecord) p with
                      | Ok i => Some (SvInteger (Z.of_N (inv_expires_at i)))
                      | Err _ => None
                      end |}.
Definition ref_store_json : StoreJson := {| sj_sqlite := ref_sqlite_json |}.

Lemma ref_codec_laws {T} `{Countable T} : @CodecLaws T ref_record_codec ref_sqlite_json.
Proof. intros r. exists (ref_text r). split_and!; [done|apply ref_text_nonempty|done|apply ref_read_text]. Qed.
Lemma ref_store_json_laws : StoreJsonLaws ref_store_json.
Proof.
  split; try apply ref_codec_laws. intros i p [= <-] _.
  cbn [json_extract sj_sqlite ref_store_json ref_sqlite_json]. by rewrite (ref_read_text (T := InviteRecord)).
Qed.

Definition ref_items (rows : list (list SqliteValue)) : list (option (result string QueryEvent)) :=
  (((fun cells => Some (Ok (EvRow 1 cells))) <$> rows) ++ [Some (Ok (EvEndOfQuery None))])%list.
Section reference.
#[local] Existing Instance ref_store_json.

(** The database itself, executing every statement at once. *)
#[local] Instance ref_service : CorroService Db := {|
  cr_execute stmts db :=
    match sql_transaction schema stmts db with
    | Some (rs, db') => (Ok rs, db')
    | None => match stmts with
              | [s] => match sql_exec schema s db with Some (ExecError e, _) => (Ok [ExecError e], db) | _ => (Err "error", db) end
              | _ => (Err "error", db)
              end
    end;
  cr_query s db := match sql_query s db with Some rows => (Some (Ok (ref_items rows)), db) | None => (Some (Err "error"), db) end
|}.
Lemma ref_items_answer rows : query_answer rows (ref_items rows).
Proof. induction rows as [|cells rows IH]; [apply qa_end|]. by apply qa_row. Qed.
Lemma ref_items_read op rows : read_query op (ref_items rows) = Ok rows.
Proof. induction rows as [|cells rows IH]; [done|]. cbn. unfold ref_items in IH. cbn in IH. by rewrite IH. Qed.

#[local] Program Instance ref_service_laws : CorroLaws Db := {| cr_db := id |}.
Next Obligation. cbn. intros stmts c rs c' rs' db He Ht. unfold id in *. rewrite Ht in He. by injection He as <- <-. Qed.
Next Obligation.
  cbn. intros stmts c e c' He. unfold id in *. left. destruct (sql_transaction schema stmts c) as [[]|]; [done|].
  destruct stmts as [|s [|]]; try (by injection He). destruct (sql_exec schema s c) as [[[] ]|]; by injection He.
Qed.
Next Obligation.
  cbn. intros s c e r c' Hs He. unfold id in *. rewrite Hs in He. cbn in He. injection He as <- <-. split; [done|by left].
Qed.
Next Obligation. cbn. intros s c r c' He. destruct (sql_query s c); by injection He. Qed.
Next Obligation.
  cbn. intros s c items c' rows He Hq. unfold id in *. rewrite Hq in He. injection He as <- <-. apply ref_items_answer.
Qed.
#[local] Instance ref_service_up : CorroUp Db.
Proof.
  split.
  - intros stmts c [rs db] Ht. unfold id in *. cbn in *. rewrite Ht. eauto.
  - intros s c rows Hq. cbn in *. unfold id in *. rewrite Hq. exists (ref_items rows), c. split; [done|]. intros op. apply ref_items_read.
Qed.
End reference.

#[local] Existing Instances ref_store_json ref_store_json_laws ref_service ref_service_laws ref_service_up.

Lemma empty_db_ok : db_ok (∅ : Db).
Proof.
  assert (forall T K (tb : TableOf T K), table_ok tb ∅) as Hempty.
  { intros T K tb. unfold table_ok, rows_of. rewrite lookup_empty. split; constructor. }
  unfold db_ok. split_and!; apply Hempty.
Qed.

Definition sample_release : ServiceReleaseRecord := {|
  rel_namespace := "ns"; rel_service := "api";
  rel_release := {| sr_primary_revision_hash := "r"; sr_referenced_revision_hashes := []; sr_routing := Direct "r";
                    sr_slots := []; sr_updated_by_deploy_id := "d"; sr_updated_at := 1 |} |}.
Definition sample_deploy : DeployRecord := {|
  dr_deploy_id := "d"; dr_namespace := "ns"; dr_coordinator_machine_id := "m"; dr_manifest_hash := "h";
  dr_state := DpCommitted; dr_started_at := 1; dr_committed_at := None; dr_finished_at := None; dr_summary_json := "" |}.
Definition sample_commit : DeployCommit := {|
  dc_namespace := "ns"; dc_removed_services := ["old"; "api"]; dc_releases := [sample_release]; dc_deploy := sample_deploy |}.
Definition sample_ops : list StoreOp :=
  [SoCreateInvite {| inv_id := "i"; inv_expires_at := 9 |}; SoConsumeInvite "i" 5; SoCommit sample_commit].
Definition sample_c : Res unit * Db := Eval vm_compute in cor_runs sample_ops (∅ : Db).

Lemma sample_admissible : all_admissible sample_ops memory_new.
Proof.
  unfold sample_ops. cbn [all_admissible admissible]. split; [done|]. split; [|by repeat split]. split; [done|].
  apply map_Forall_insert_2; [cbn; unfold i64_max; lia|apply map_Forall_empty].
Qed.

Lemma corrosion_refines_memory_witness :
  cor_runs sample_ops (∅ : Db) = sample_c /\ sample_c.1 = Ok tt /\
  db_view sample_c.2 = memory_view (mem_after sample_ops memory_new).
Proof.
  assert (cor_runs sample_ops (∅ : Db) = sample_c) as Hc by (vm_compute; reflexivity).
  pose proof (corrosion_refines_memory sample_ops (∅ : Db) memory_new empty_db_ok) as H.
  assert (db_view (cr_db (∅ : Db)) = memory_view memory_new) as Hv by (vm_compute; reflexivity).
  specialize (H Hv sample_admissible). rewrite Hc in H. change sample_c with (Ok (E := Error) tt, sample_c.2) in H.
  destruct H as (_ & Hs & _). split; [exact Hc|]. split; [reflexivity|]. apply (proj2 (Hs eq_refl)).
Defined.

