(* ===== verification/Live.v ===== *)
(** * Live views of the Corrosion tables

    [ployz-corrosion/src/store/workflows/routing_state.rs] and the subscription of
    [tables/machines.rs]: maps of records kept up to date from the row events of a
    subscription, the machine events sent to the mesh, the debounced routing state
    and the routing invalidations.  What a subscription delivers is the subject of
    [Client]; here a stream is the list of what its [next] returns. *)

From S2P Require Import Prelude Order Text Types RefCodec Store Client Sql Corrosion.
Local Open Scope string_scope.

(** ** Rows and records ([routing_state.rs]) *)

(** What [stream.next().await] returns. *)
Abbreviation StreamItem := (option (result string QueryEvent)) (only parsing).

Section rows.
Context {T K : Type} `{Countable K} (parse : list SqliteValue -> Res T) (key : T -> K).

(** The records by key, and the key of each row. *)
Abbreviation Rows := (gmap K T * gmap N K)%type.

Definition store_row (rowid : N) (record : T) (st : Rows) : Rows :=
  (<[key record := record]> st.1, <[rowid := key record]> st.2).

Definition apply_routing_change (change_type : ChangeType) (rowid : N) (cells : list SqliteValue) (st : Rows) : Res Rows :=
  match change_type with
  | CtInsert | CtUpdate => record <-? parse cells ;; Ok (store_row rowid record st)
  | CtDelete =>
      Ok match st.2 !! rowid with
         | Some record_key => (delete record_key st.1, delete rowid st.2)
         | None => st
         end
  end.

(** The rows of the initial query; what is left of the stream is returned. *)
Fixpoint collect_initial_rows (label : string) (stream : list StreamItem) (st : Rows) : Res (Rows * list StreamItem) :=
  match stream with
  | [] | None :: _ => Err (Operation "subscribe_routing_state" (label +:+ ": stream ended during initial snapshot"))
  | Some (Err e) :: _ => Err (Operation "subscribe_routing_state" (label +:+ ": " +:+ e))
  | Some (Ok event) :: stream =>
      match event with
      | EvColumns _ => collect_initial_rows label stream st
      | EvEndOfQuery _ => Ok (st, stream)
      | EvError e => Err (Operation "subscribe_routing_state" (label +:+ ": " +:+ e))
      | EvRow rowid cells =>
          record <-? parse cells ;; collect_initial_rows label stream (store_row rowid record st)
      | EvChange change_type rowid cells _ =>
          st <-? apply_routing_change change_type rowid cells st ;; collect_initial_rows label stream st
      end
  end.

(** [Ok true] when data changed, [Err tt] when the subscription is over. *)
Definition handle_stream_event (event : StreamItem) (st : Rows) : result unit bool * Rows :=
  let apply change_type rowid cells :=
    match apply_routing_change change_type rowid cells st with
    | Ok st => (Ok true, st)
    | Err _ => (Err tt, st)
    end in
  match event with
  | Some (Ok (EvColumns _ | EvEndOfQuery _)) => (Ok false, st)
  | Some (Ok (EvError _)) => (Err tt, st)
  | Some (Ok (EvRow rowid cells)) => apply CtInsert rowid cells
  | Some (Ok (EvChange change_type rowid cells _)) => apply change_type rowid cells
  | Some (Err _) => (Err tt, st)
  | None => (Err tt, st)
  end.

(** *** The rows a subscription reports *)

(** The result of the query at the service, by row, and a change of it. *)
Inductive row_step (rows : gmap N T) : QueryEvent -> gmap N T -> Prop :=
| rs_row i cells r :
    parse cells = Ok r -> rows !! i = None -> (forall j r', rows !! j = Some r' -> key r' <> key r) ->
    row_step rows (EvRow i cells) (<[i := r]> rows)
| rs_insert i cells r id :
    parse cells = Ok r -> rows !! i = None -> (forall j r', rows !! j = Some r' -> key r' <> key r) ->
    row_step rows (EvChange CtInsert i cells id) (<[i := r]> rows)
| rs_update i cells r r0 id :
    parse cells = Ok r -> rows !! i = Some r0 -> key r = key r0 ->
    row_step rows (EvChange CtUpdate i cells id) (<[i := r]> rows)
| rs_delete i cells r id :
    rows !! i = Some r -> row_step rows (EvChange CtDelete i cells id) (delete i rows).

(** The view has exactly the rows of the result. *)
Definition tracks (st : Rows) (rows : gmap N T) : Prop :=
  st.2 = key <$> rows /\
  (forall i j r r', rows !! i = Some r -> rows !! j = Some r' -> key r = key r' -> i = j) /\
  (forall k r, st.1 !! k = Some r <-> exists i, rows !! i = Some r /\ key r = k).

Lemma tracks_empty : tracks (∅, ∅) ∅.
Proof.
  split_and!; cbn; [by rewrite fmap_empty|by intros ? ? ? ?; rewrite lookup_empty|].
  intros k r. setoid_rewrite lookup_empty. split; [done|by intros (? & ? & _)].
Qed.

Lemma tracks_store st rows i r :
  tracks st rows ->
  (forall j r', rows !! j = Some r' -> j <> i -> key r' <> key r) ->
  (forall r0, rows !! i = Some r0 -> key r0 = key r) ->
  tracks (store_row i r st) (<[i := r]> rows).
Proof.
  intros (Hidx & Hinj & Hmap) Hnew Hsame. split_and!; cbn.
  - by rewrite Hidx, fmap_insert.
  - intros j1 j2 r1 r2. rewrite !lookup_insert_Some. naive_solver.
  - intros k x. destruct (decide (k = key r)) as [->|Hne].
    + rewrite lookup_insert_eq. split; [intros [= <-]; exists i; by rewrite lookup_insert_eq|].
      intros (j & Hj & Hk). rewrite lookup_insert_Some in Hj. naive_solver.
    + rewrite lookup_insert_ne by done. rewrite Hmap. setoid_rewrite lookup_insert_Some. naive_solver.
Qed.
Lemma tracks_delete st rows i r :
  tracks st rows -> rows !! i = Some r -> tracks (delete (key r) st.1, delete i st.2) (delete i rows).
Proof.
  intros (Hidx & Hinj & Hmap) Hi. split_and!; cbn.
  - by rewrite Hidx, fmap_delete.
  - intros j1 j2 r1 r2. rewrite !lookup_delete_Some. naive_solver.
  - intros k x. rewrite lookup_delete_Some, Hmap. setoid_rewrite lookup_delete_Some. naive_solver.
Qed.

(** A reported change is applied, and the view keeps up. *)
Lemma handle_event_tracks st rows event rows' :
  tracks st rows -> row_step rows event rows' ->
  exists st', handle_stream_event (Some (Ok event)) st = (Ok true, st') /\ tracks st' rows'.
Proof.
  intros Ht Hs. destruct Hs as [i cells r Hp Hi Hk|i cells r id Hp Hi Hk|i cells r r0 id Hp Hi Hk|i cells r id Hi]; cbn.
  1-3: rewrite Hp; cbn; eexists; split; [done|]; apply tracks_store; [done|..].
  1-4: try (intros j r' Hj _; by eapply Hk); intros r0 Hr0; congruence.
  - intros j r' Hj Hne Hkey. apply Hne. pose proof Ht as (_ & Hinj & _). apply (Hinj j i r' r0); congruence.
  - intros r1 Hr1. congruence.
  - pose proof Ht as (Hidx & _). rewrite Hidx, lookup_fmap, Hi. cbn. eexists; split; [done|].
    rewrite <- Hidx. by apply tracks_delete.
Qed.

Inductive row_steps : gmap N T -> list QueryEvent -> gmap N T -> Prop :=
| rss_nil rows : row_steps rows [] rows
| rss_cons rows event rows1 events rows' :
    row_step rows event rows1 -> row_steps rows1 events rows' -> row_steps rows (event :: events) rows'.
End rows.

Definition items_of (events : list QueryEvent) : list StreamItem := (fun e => Some (Ok e)) <$> events.
(** A stream whose initial query gives the rows of [before]. *)
Definition snapshot_stream (columns : list string) (before : list QueryEvent) (id : option N) (rest : list StreamItem)
    : list StreamItem := (Some (Ok (EvColumns columns)) :: items_of before ++ Some (Ok (EvEndOfQuery id)) :: rest)%list.

Lemma collect_tracks {T K : Type} `{Countable K} (parse : list SqliteValue -> Res T) (key : T -> K) label st rows event stream :
  tracks key st rows -> forall rows', row_step parse key rows event rows' ->
  exists st', collect_initial_rows parse key label (Some (Ok event) :: stream) st =
    collect_initial_rows parse key label stream st' /\ tracks key st' rows'.
Proof.
  intros Ht rows' Hs. destruct (handle_event_tracks parse key st rows event rows' Ht Hs) as (st' & He & Ht').
  exists st'. split; [|done]. destruct Hs; cbn in *.
  all: try match goal with Hp : _ = Ok _ |- _ => rewrite Hp in He |- * end; cbn in *; by injection He as <-.
Qed.

Lemma collect_snapshot {T K : Type} `{Countable K} (parse : list SqliteValue -> Res T) (key : T -> K)
    label columns before id rest (rows : gmap N T) :
  row_steps parse key ∅ before rows ->
  exists st, collect_initial_rows parse key label (snapshot_stream columns before id rest) (∅, ∅) = Ok (st, rest) /\
    tracks key st rows.
Proof.
  intros Hs. unfold snapshot_stream. cbn [collect_initial_rows].
  pose proof (tracks_empty key) as Ht. revert Ht. generalize (∅ : gmap K T, ∅ : gmap N K). revert Hs. generalize (∅ : gmap N T).
  intros rows0 Hs. induction Hs as [rows0|rows0 event rows1 events rows' Hstep Hs IH]; intros st Ht; [by exists st|].
  destruct (collect_tracks parse key label st rows0 event
    (items_of events ++ Some (Ok (EvEndOfQuery id)) :: rest)%list Ht _ Hstep) as (st1 & Hc & Ht1).
  unfold items_of in *. cbn [fmap list_fmap app]. rewrite Hc. by apply IH.
Qed.

(** ** Machines ([tables/machines.rs]) *)

Section machines.
Context `{RecordCodec MachineRecord}.
Abbreviation Machines := (gmap string MachineRecord * gmap N string)%type.

Definition apply_change (change_type : ChangeType) (rowid : N) (cells : list SqliteValue) (st : Machines) : Res Machines :=
  match change_type with
  | CtInsert | CtUpdate => record <-? parse_machine_row cells ;; Ok (store_row mr_id rowid record st)
  | CtDelete =>
      Ok match st.2 !! rowid with
         | Some machine_id => (delete machine_id st.1, delete rowid st.2)
         | None => st
         end
  end.

Definition upsert_event (rowid : N) (cells : list SqliteValue) (st : Machines) : Res (option MachineEvent * Machines) :=
  record <-? parse_machine_row cells ;;
  let is_update := bool_decide (is_Some (st.1 !! mr_id record)) in
  Ok (Some (if is_update then MeUpdated record else MeAdded record), store_row mr_id rowid record st).

Definition into_machine_event (event : QueryEvent) (st : Machines) : Res (option MachineEvent * Machines) :=
  match event with
  | EvColumns _ | EvEndOfQuery _ => Ok (None, st)
  | EvError e => Err (Operation "subscribe_machines" e)
  | EvRow rowid cells => upsert_event rowid cells st
  | EvChange (CtInsert | CtUpdate) rowid cells _ => upsert_event rowid cells st
  | EvChange CtDelete rowid _ _ =>
      match st.2 !! rowid with
      | Some machine_id =>
          let known := delete machine_id st.1 in
          match st.1 !! machine_id with
          | Some record => Ok (Some (MeRemoved record), (known, delete rowid st.2))
          | None => Ok (None, (known, delete rowid st.2))
          end
      | None => Ok (None, st)
      end
  end.

(** The snapshot loop of [subscribe_machines]. *)
Fixpoint machines_snapshot (stream : list StreamItem) (st : Machines) : Res (Machines * list StreamItem) :=
  match stream with
  | [] | None :: _ => Err (Operation "subscribe_machines" "stream ended during snapshot")
  | Some (Err e) :: _ => Err (Operation "subscribe_machines" e)
  | Some (Ok event) :: stream =>
      match event with
      | EvColumns _ => machines_snapshot stream st
      | EvEndOfQuery _ => Ok (st, stream)
      | EvError e => Err (Operation "subscribe_machines" e)
      | EvRow rowid cells => record <-? parse_machine_row cells ;; machines_snapshot stream (store_row mr_id rowid record st)
      | EvChange change_type rowid cells _ =>
          st <-? apply_change change_type rowid cells st ;; machines_snapshot stream st
      end
  end.
Definition cmp_machine_id (a b : MachineRecord) : comparison := str_cmp (mr_id a) (mr_id b).
Definition sorted_machines (machines : gmap string MachineRecord) : list MachineRecord :=
  sort_by cmp_machine_id (map_to_list machines).*2.

(** The task that forwards events until the stream ends or fails. *)
Fixpoint machine_events (stream : list StreamItem) (st : Machines) : list MachineEvent * Machines :=
  match stream with
  | Some (Ok event) :: stream =>
      match into_machine_event event st with
      | Ok (Some machine_event, st) => let '(events, st) := machine_events stream st in (machine_event :: events, st)
      | Ok (None, st) => machine_events stream st
      | Err _ => ([], st)
      end
  | _ => ([], st)
  end.

Definition cor_subscribe_machines (stream : list StreamItem) : Res (list MachineRecord * list MachineEvent) :=
  snapshot <-? machines_snapshot stream (∅, ∅) ;;
  let '(st, rest) := snapshot in
  Ok (sorted_machines st.1, (machine_events rest st).1).

(** *** Snapshot and events together are the machines *)

(** A machine event is the change of the machines known. *)
Lemma machine_event_step st rows event rows' :
  tracks mr_id st rows -> row_step parse_machine_row mr_id rows event rows' ->
  exists e st', into_machine_event event st = Ok (Some e, st') /\ tracks mr_id st' rows' /\
    st'.1 = apply_machine_event_to st.1 e.
Proof.
  intros Ht Hs. destruct (handle_event_tracks parse_machine_row mr_id st rows event rows' Ht Hs) as (st1 & He & Ht1).
  destruct Hs as [i cells r Hp Hi Hk|i cells r id Hp Hi Hk|i cells r r0 id Hp Hi Hk|i cells r id Hi]; cbn in *.
  1-3: rewrite Hp in He; injection He as <-; unfold upsert_event; rewrite Hp; cbn;
    eexists _, _; split; [done|]; split; [done|]; by case_match.
  pose proof Ht as (Hidx & _ & Hmap). rewrite Hidx, lookup_fmap, Hi in He |- *. cbn in *. injection He as <-.
  assert (st.1 !! mr_id r = Some r) as Hr by (apply Hmap; eauto). rewrite Hr.
  by eexists _, _.
Qed.

Lemma machine_events_replay st rows events rows' :
  tracks mr_id st rows -> row_steps parse_machine_row mr_id rows events rows' ->
  let '(sent, st') := machine_events (items_of events) st in
  tracks mr_id st' rows' /\ foldl apply_machine_event_to st.1 sent = st'.1.
Proof.
  intros Ht Hs. revert st Ht. induction Hs as [rows|rows event rows1 events rows' Hstep Hs IH]; intros st Ht; [done|].
  destruct (machine_event_step st rows event rows1 Ht Hstep) as (e & st1 & He & Ht1 & Hm). cbn. rewrite He.
  specialize (IH st1 Ht1). fold (items_of events). destruct (machine_events (items_of events) st1) as [sent st']. cbn.
  by rewrite <- Hm.
Qed.

Lemma machines_snapshot_collect stream st :
  match collect_initial_rows parse_machine_row mr_id "" stream st with
  | Ok x => machines_snapshot stream st = Ok x
  | Err _ => is_ok (machines_snapshot stream st) = false
  end.
Proof.
  revert st. induction stream as [|[[event|e]|] stream IH]; intros st; cbn; try done.
  destruct event as [c|i cells|id|t i cells id|e]; cbn; try done; try apply IH.
  - destruct (parse_machine_row cells); cbn; [apply IH|done].
  - unfold apply_change, apply_routing_change. destruct t; cbn; try apply IH;
      (destruct (parse_machine_row cells); cbn; [apply IH|done]).
Qed.
Lemma machines_snapshot_tracks columns before id rest rows :
  row_steps parse_machine_row mr_id ∅ before rows ->
  exists st, machines_snapshot (snapshot_stream columns before id rest) (∅, ∅) = Ok (st, rest) /\ tracks mr_id st rows.
Proof.
  intros Hs. destruct (collect_snapshot parse_machine_row mr_id "" columns before id rest rows Hs) as (st & Hc & Ht).
  exists st. split; [|done]. pose proof (machines_snapshot_collect (snapshot_stream columns before id rest) (∅, ∅)) as Hm.
  by rewrite Hc in Hm.
Qed.
End machines.

Lemma tracks_values {T K : Type} `{Countable K} (key : T -> K) st (rows : gmap N T) :
  tracks key st rows -> (map_to_list st.1).*2 ≡ₚ (map_to_list rows).*2.
Proof.
  intros (_ & Hinj & Hmap). apply NoDup_Permutation.
  - apply (NoDup_fmap_1 key). apply map_values_NoDup. intros k r Hr. apply Hmap in Hr as (_ & _ & ?). done.
  - apply NoDup_fmap_2_strong; [|apply NoDup_map_to_list].
    intros [i r] [j r'] Hi%elem_of_map_to_list Hj%elem_of_map_to_list Heq. cbn in *. subst.
    by rewrite (Hinj _ _ _ _ Hi Hj eq_refl).
  - intros r. rewrite !map_values_elem. setoid_rewrite Hmap. naive_solver.
Qed.

#[export] Instance cmp_machine_id_total : TotalCmp cmp_machine_id.
Proof. apply (cmp_on_total mr_id str_cmp), _. Qed.

(** A machine subscription is the table from its snapshot on.  When the service
    reports the machines as rows with distinct ids, then changes of them, the
    subscriber gets the machines of the rows sorted by id, and replaying the events
    it receives on them gives, after any number of changes, exactly the machines of
    the table. *)
Theorem machine_subscription_replay `{RecordCodec MachineRecord} (columns : list string) (id : option N)
    (before after : list QueryEvent) (rows rows' : gmap N MachineRecord) :
  row_steps parse_machine_row mr_id ∅ before rows -> row_steps parse_machine_row mr_id rows after rows' ->
  exists snapshot events,
    cor_subscribe_machines (snapshot_stream columns before id (items_of after)) = Ok (snapshot, events) /\
    snapshot ≡ₚ (map_to_list rows).*2 /\ StronglySorted (cmp_le cmp_machine_id) snapshot /\
    (forall k r, foldl apply_machine_event_to (machines_by_id snapshot) events !! k = Some r <->
       exists i, rows' !! i = Some r /\ mr_id r = k).
Proof.
  intros Hb Ha.
  destruct (machines_snapshot_tracks columns before id (items_of after) rows Hb) as (st & Hs & Ht).
  pose proof (machine_events_replay st rows after rows' Ht Ha) as Hr. unfold cor_subscribe_machines. rewrite Hs. cbn [rbind].
  destruct (machine_events (items_of after) st) as [events st']. destruct Hr as [Ht' Hr].
  eexists _, events; split; [done|]. cbn.
  assert (map_Forall (fun k r => mr_id r = k) st.1) as Hwf.
  { intros k r Hk. destruct Ht as (_ & _ & Hm). by apply Hm in Hk as (_ & _ & ?). }
  assert (machines_by_id (sorted_machines st.1) = st.1) as Hid.
  { unfold machines_by_id, sorted_machines. rewrite <- (index_by_perm mr_id (map_to_list st.1).*2).
    - by apply index_by_values.
    - by apply map_values_NoDup.
    - symmetry. apply sort_by_perm. }
  split_and!.
  - unfold sorted_machines. rewrite sort_by_perm. by apply (tracks_values mr_id).
  - unfold sorted_machines. apply sort_by_sorted, _.
  - intros k r. rewrite Hid, Hr. apply Ht'.
Qed.

(** ** The debounced routing state *)

Section routing.
Context `{RecordCodec ServiceRevisionRecord} `{RecordCodec ServiceReleaseRecord} `{RecordCodec InstanceStatusRecord}.

Record LiveRoutingState := {
  lv_revisions : gmap (Namespace * string * string) ServiceRevisionRecord * gmap N (Namespace * string * string);
  lv_releases : gmap (Namespace * string) ServiceReleaseRecord * gmap N (Namespace * string);
  lv_instances : gmap string InstanceStatusRecord * gmap N string
}.
Definition to_routing_state (self : LiveRoutingState) : RoutingState := {|
  rs_revisions := (map_to_list (lv_revisions self).1).*2;
  rs_releases := (map_to_list (lv_releases self).1).*2;
  rs_instances := (map_to_list (lv_instances self).1).*2 |}.

(** What wakes the task up: an event of one of the streams, or the debounce timer,
    which only runs while something is unsent. *)
Inductive LiveInput :=
| LiRevision (event : StreamItem) | LiRelease (event : StreamItem) | LiInstance (event : StreamItem) | LiDebounce.
Record LiveTask := {
  lt_state : LiveRoutingState; lt_dirty : bool; lt_sent : list RoutingState; lt_running : bool
}.

Definition after_event (changed : result unit bool) (state : LiveRoutingState) (self : LiveTask) : LiveTask := {|
  lt_state := state;
  lt_dirty := match changed with Ok true => true | _ => lt_dirty self end;
  lt_sent := lt_sent self;
  lt_running := is_ok changed |}.

Definition live_step (input : LiveInput) (self : LiveTask) : LiveTask :=
  if negb (lt_running self) then self else
  let st := lt_state self in
  match input with
  | LiRevision event =>
      let '(changed, rows) := handle_stream_event parse_service_revision revision_key event (lv_revisions st) in
      after_event changed {| lv_revisions := rows; lv_releases := lv_releases st; lv_instances := lv_instances st |} self
  | LiRelease event =>
      let '(changed, rows) := handle_stream_event parse_service_release release_key event (lv_releases st) in
      after_event changed {| lv_revisions := lv_revisions st; lv_releases := rows; lv_instances := lv_instances st |} self
  | LiInstance event =>
      let '(changed, rows) := handle_stream_event parse_instance_status is_instance_id event (lv_instances st) in
      after_event changed {| lv_revisions := lv_revisions st; lv_releases := lv_releases st; lv_instances := rows |} self
  | LiDebounce =>
      if lt_dirty self
      then {| lt_state := st; lt_dirty := false; lt_sent := (lt_sent self ++ [to_routing_state st])%list; lt_running := true |}
      else self
  end.

(** The snapshot of the three streams, sent first, and the task started on them. *)
Definition subscribe_routing_state (revisions releases instances : list StreamItem)
    : Res (RoutingState * LiveTask * (list StreamItem * list StreamItem * list StreamItem)) :=
  revs <-? collect_initial_rows parse_service_revision revision_key "revisions" revisions (∅, ∅) ;;
  rels <-? collect_initial_rows parse_service_release release_key "releases" releases (∅, ∅) ;;
  insts <-? collect_initial_rows parse_instance_status is_instance_id "instances" instances (∅, ∅) ;;
  let state := {| lv_revisions := revs.1; lv_releases := rels.1; lv_instances := insts.1 |} in
  Ok (to_routing_state state,
      {| lt_state := state; lt_dirty := false; lt_sent := [to_routing_state state]; lt_running := true |},
      (revs.2, rels.2, insts.2)).

(** *** The last state sent is current, unless a newer one is due *)

Record Tables := {
  tt_revisions : gmap N ServiceRevisionRecord; tt_releases : gmap N ServiceReleaseRecord;
  tt_instances : gmap N InstanceStatusRecord
}.
Inductive live_run : Tables -> LiveTask -> Prop :=
| lr_start t cols ids b1 b2 b3 r1 r2 r3 initial task rests :
    row_steps parse_service_revision revision_key ∅ b1 (tt_revisions t) ->
    row_steps parse_service_release release_key ∅ b2 (tt_releases t) ->
    row_steps parse_instance_status is_instance_id ∅ b3 (tt_instances t) ->
    subscribe_routing_state (snapshot_stream cols b1 ids r1) (snapshot_stream cols b2 ids r2) (snapshot_stream cols b3 ids r3) =
      Ok (initial, task, rests) ->
    live_run t task
| lr_revision t task e rows :
    live_run t task -> row_step parse_service_revision revision_key (tt_revisions t) e rows ->
    live_run {| tt_revisions := rows; tt_releases := tt_releases t; tt_instances := tt_instances t |}
      (live_step (LiRevision (Some (Ok e))) task)
| lr_release t task e rows :
    live_run t task -> row_step parse_service_release release_key (tt_releases t) e rows ->
    live_run {| tt_revisions := tt_revisions t; tt_releases := rows; tt_instances := tt_instances t |}
      (live_step (LiRelease (Some (Ok e))) task)
| lr_instance t task e rows :
    live_run t task -> row_step parse_instance_status is_instance_id (tt_instances t) e rows ->
    live_run {| tt_revisions := tt_revisions t; tt_releases := tt_releases t; tt_instances := rows |}
      (live_step (LiInstance (Some (Ok e))) task)
| lr_debounce t task : live_run t task -> live_run t (live_step LiDebounce task).

Definition live_ok (t : Tables) (task : LiveTask) : Prop :=
  lt_running task = true /\ tracks revision_key (lv_revisions (lt_state task)) (tt_revisions t) /\
  tracks release_key (lv_releases (lt_state task)) (tt_releases t) /\
  tracks is_instance_id (lv_instances (lt_state task)) (tt_instances t) /\
  (lt_dirty task = false -> last (lt_sent task) = Some (to_routing_state (lt_state task))).

Lemma live_run_ok t task : live_run t task -> live_ok t task.
Proof.
  induction 1 as [t cols ids b1 b2 b3 r1 r2 r3 initial task rests S1 S2 S3 Hsub|t task e rows _ IH Hs|t task e rows _ IH Hs|t task e rows _ IH Hs|t task _ IH].
  { unfold subscribe_routing_state in Hsub.
    destruct (collect_snapshot _ _ "revisions" cols b1 ids r1 _ S1) as (st1 & C1 & T1). rewrite C1 in Hsub.
    destruct (collect_snapshot _ _ "releases" cols b2 ids r2 _ S2) as (st2 & C2 & T2). cbn [rbind] in Hsub. rewrite C2 in Hsub.
    destruct (collect_snapshot _ _ "instances" cols b3 ids r3 _ S3) as (st3 & C3 & T3). cbn [rbind] in Hsub. rewrite C3 in Hsub.
    injection Hsub as <- <- <-. by split_and!. }
  all: destruct IH as (Hrun & T1 & T2 & T3 & Hsent); unfold live_step; rewrite Hrun; cbn [negb].
  - destruct (handle_event_tracks _ _ _ _ _ _ T1 Hs) as (st' & -> & T'). by split_and!.
  - destruct (handle_event_tracks _ _ _ _ _ _ T2 Hs) as (st' & -> & T'). by split_and!.
  - destruct (handle_event_tracks _ _ _ _ _ _ T3 Hs) as (st' & -> & T'). by split_and!.
  - destruct (lt_dirty task) eqn:Hd; [|by split_and!; try rewrite Hd]. split_and!; cbn; try done. intros _. apply last_snoc.
Qed.
End routing.

(** C32: The routing state sent to a subscriber keeps up with the tables.  In every
    interleaving of changes of the three tables, as the service reports them, and of
    the debounce timer, the task keeps running, and whenever no change is waiting to
    be sent the last state sent has exactly the records of the three tables; firing
    the timer makes it so. *)
Theorem live_routing_current `{RecordCodec ServiceRevisionRecord} `{RecordCodec ServiceReleaseRecord}
    `{RecordCodec InstanceStatusRecord} (t : Tables) (task : LiveTask) :
  live_run t task ->
  let current state :=
    rs_revisions state ≡ₚ (map_to_list (tt_revisions t)).*2 /\ rs_releases state ≡ₚ (map_to_list (tt_releases t)).*2 /\
    rs_instances state ≡ₚ (map_to_list (tt_instances t)).*2 in
  lt_running task = true /\
  (lt_dirty task = false -> exists state, last (lt_sent task) = Some state /\ current state) /\
  exists state, last (lt_sent (live_step LiDebounce task)) = Some state /\ current state /\
    lt_dirty (live_step LiDebounce task) = false.
Proof.
  intros Hr current.
  assert (forall task, live_ok t task -> current (to_routing_state (lt_state task))) as Hcur.
  { intros task' (_ & T1 & T2 & T3 & _). unfold current. split_and!; cbn;
      [by apply (tracks_values revision_key)|by apply (tracks_values release_key)|by apply (tracks_values is_instance_id)]. }
  pose proof (live_run_ok t task Hr) as Hok. split_and!.
  - apply Hok.
  - intros Hd. eexists. split; [by apply Hok|]. by apply Hcur.
  - pose proof (live_run_ok t _ (lr_debounce t task Hr)) as Hok'.
    assert (lt_dirty (live_step LiDebounce task) = false) as Hd.
    { unfold live_step. destruct Hok as (-> & _). cbn. by destruct (lt_dirty task) eqn:?. }
    eexists. split; [by apply Hok'|]. split; [by apply Hcur|done].
Qed.

(** ** Invalidations *)

(** [run_routing_invalidator]: the refresh signals sent for what the stream of a
    table returns, while the receiver is there. *)
Fixpoint run_routing_invalidator (stream : list (option (result SubscriptionError QueryEvent))) : nat :=
  match stream with
  | [] | None :: _ => 0
  | Some (Ok (EvRow _ _ | EvChange _ _ _ _)) :: stream => S (run_routing_invalidator stream)
  | Some (Ok (EvColumns _ | EvEndOfQuery _ | EvError _)) :: stream => run_routing_invalidator stream
  | Some (Err _) :: stream => run_routing_invalidator stream
  end.
Definition routing_subscription_statements : list (string * Statement) :=
  [("service_revisions", revisions_all_statement); ("service_releases", releases_all_statement);
   ("instance_status", instances_all_statement)].

(** After one gap in the numbering of changes no more refreshes are signalled.
    The stream reports a gap as an error without moving past it, so every later
    change of the connection is an error too, and the invalidator only logs errors:
    however many changes the service delivers, no refresh follows. *)
Theorem invalidator_stuck_after_gap `{EventCodec} (reconnect : list (option N) -> option N -> result string Lines)
    (f : N) (lines : Lines) (self : SubscriptionStream) (log : list (option N)) :
  Forall (skips f) lines -> connection self = Some lines -> last_change_id self = Some f ->
  run_routing_invalidator (sub_run reconnect (length lines) (self, log)).1 = 0%nat.
Proof.
  intros Hl Hc Hf. pose proof (sub_run_missed reconnect f lines self log Hl Hc Hf) as Hall.
  induction Hall as [|item items [id ->] _ IH]; [done|]. exact IH.
Qed.

(** A query stream that ends early is taken for a complete answer.  The rows
    received before the stream ends without its end marker are returned as if they
    were all; the initial rows of a subscription are refused in the same case. *)
Theorem truncated_query_accepted (op : string) (columns : list string) (rows : list (list SqliteValue)) :
  read_query op (Some (Ok (EvColumns columns)) :: ((fun cells => Some (Ok (EvRow 1 cells))) <$> rows)) = Ok rows /\
  forall (parse : list SqliteValue -> Res ServiceReleaseRecord),
    is_ok (collect_initial_rows parse release_key op
      (Some (Ok (EvColumns columns)) :: ((fun cells => Some (Ok (EvRow 1 cells))) <$> rows)) (∅, ∅)) = false.
Proof.
  split.
  - cbn. induction rows as [|cells rows IH]; cbn; [done|]. by rewrite IH.
  - intros parse. cbn. generalize (∅ : gmap (Namespace * string) ServiceReleaseRecord, ∅ : gmap N (Namespace * string)).
    induction rows as [|cells rows IH]; intros st; cbn; [done|]. destruct (parse cells); cbn; [apply IH|done].
Qed.

(** ** Witnesses *)

Module LiveSample.
Definition machine (id : string) : MachineRecord := machine_seed id [] [] None [].
#[local] Instance codec : RecordCodec MachineRecord := {| to_json r := Ok (mr_id r); from_json s := Ok (machine s) |}.
Definition cells (id : string) : list SqliteValue := [SvText id; SvText id].
Definition release (service : string) : ServiceReleaseRecord := {|
  rel_namespace := "ns"; rel_service := service;
  rel_release := {| sr_primary_revision_hash := "r"; sr_referenced_revision_hashes := []; sr_routing := Direct "r";
                    sr_slots := []; sr_updated_by_deploy_id := "d"; sr_updated_at := 1 |} |}.
#[local] Instance release_codec : RecordCodec ServiceReleaseRecord :=
  {| to_json r := Ok (rel_service r); from_json s := Ok (release s) |}.
#[local] Instance revision_codec : RecordCodec ServiceRevisionRecord := {| to_json r := Err ""; from_json s := Err "" |}.
#[local] Instance instance_codec : RecordCodec InstanceStatusRecord := {| to_json r := Err ""; from_json s := Err "" |}.
#[local] Instance event_codec : EventCodec := {|
  event_from_slice b := Ok (EvChange CtUpdate 1 [] (N.of_nat (length b))); untyped_from_slice b := Err "" |}.
End LiveSample.
#[local] Existing Instances LiveSample.revision_codec LiveSample.release_codec LiveSample.instance_codec.

Lemma machine_subscription_replay_witness :
  exists snapshot events,
    @cor_subscribe_machines LiveSample.codec (snapshot_stream [] [EvRow 1 (LiveSample.cells "b"); EvRow 2 (LiveSample.cells "a")]
      (Some 3%N) (items_of [EvChange CtDelete 1 [] 4; EvChange CtInsert 3 (LiveSample.cells "c") 5])) = Ok (snapshot, events) /\
    foldl apply_machine_event_to (machines_by_id snapshot) events !! "c" = Some (LiveSample.machine "c") /\
    foldl apply_machine_event_to (machines_by_id snapshot) events !! "b" <> Some (LiveSample.machine "b").
Proof.
  destruct (@machine_subscription_replay LiveSample.codec [] (Some 3%N)
    [EvRow 1 (LiveSample.cells "b"); EvRow 2 (LiveSample.cells "a")]
    [EvChange CtDelete 1 [] 4; EvChange CtInsert 3 (LiveSample.cells "c") 5]
    (<[2%N := LiveSample.machine "a"]> (<[1%N := LiveSample.machine "b"]> ∅))
    (<[3%N := LiveSample.machine "c"]> (delete 1%N (<[2%N := LiveSample.machine "a"]> (<[1%N := LiveSample.machine "b"]> ∅)))))
    as (snapshot & events & Hs & _ & _ & Hk).
  - eapply rss_cons; [apply rs_row; [reflexivity|reflexivity|intros j r'; rewrite lookup_empty; done]|].
    eapply rss_cons; [|apply rss_nil]. apply rs_row; [reflexivity|reflexivity|].
    intros j r' [[_ <-]|[_ Hj]]%lookup_insert_Some; [done|by rewrite lookup_empty in Hj].
  - eapply rss_cons; [eapply rs_delete; reflexivity|].
    eapply rss_cons; [|apply rss_nil]. apply rs_insert; [reflexivity|reflexivity|].
    intros j r' [_ [[_ <-]|[_ [[_ <-]|[_ Hj]]%lookup_insert_Some]]%lookup_insert_Some]%lookup_delete_Some; [done|done|].
    by rewrite lookup_empty in Hj.
  - exists snapshot, events. split; [exact Hs|]. split.
    + apply Hk. exists 3%N. done.
    + intros (i & Hi & _)%Hk. revert Hi. rewrite lookup_insert_Some, lookup_delete_Some, !lookup_insert_Some, lookup_empty.
      intros [[_ [=]]|(_ & H1 & [[_ [=]]|[_ [[? _]|[_ [=]]]]])]. congruence.
Defined.

Lemma invalidator_stuck_after_gap_witness :
  run_routing_invalidator (@sub_run LiveSample.event_codec (fun _ _ => Err "") 2
    ({| observed_eoq := true; last_change_id := Some 1%N;
        connection := Some [Ok (bytes_of "abc"); Ok (bytes_of "abcd")]; backoff_count := 0 |}, [])).1 = 0%nat.
Proof.
  apply (@invalidator_stuck_after_gap LiveSample.event_codec (fun _ _ => Err "") 1
    [Ok (bytes_of "abc"); Ok (bytes_of "abcd")]); [|reflexivity|reflexivity].
  repeat constructor; eexists _, _, _, _, _; (split; [reflexivity|]); split; [reflexivity|discriminate|reflexivity|discriminate].
Defined.

Lemma live_routing_current_witness :
  exists (t : Tables) (task : LiveTask),
    @live_run LiveSample.revision_codec LiveSample.release_codec LiveSample.instance_codec t task /\
    tt_releases t = {[1%N := LiveSample.release "api"]} /\
    exists state, last (lt_sent task) = Some state /\ rs_releases state ≡ₚ (map_to_list (tt_releases t)).*2.
Proof.
  set (t0 := {| tt_revisions := ∅; tt_releases := ∅; tt_instances := ∅ |}).
  set (task0 := {| lt_state := {| lv_revisions := (∅, ∅); lv_releases := (∅, ∅); lv_instances := (∅, ∅) |}; lt_dirty := false;
    lt_sent := [to_routing_state {| lv_revisions := (∅, ∅); lv_releases := (∅, ∅); lv_instances := (∅, ∅) |}]; lt_running := true |}).
  assert (@live_run LiveSample.revision_codec LiveSample.release_codec LiveSample.instance_codec t0 task0) as H0.
  { eapply (lr_start t0 [] None [] [] [] [] [] []); [apply rss_nil..|]. reflexivity. }
  assert (@live_run LiveSample.revision_codec LiveSample.release_codec LiveSample.instance_codec
    {| tt_revisions := ∅; tt_releases := {[1%N := LiveSample.release "api"]}; tt_instances := ∅ |}
    (live_step LiDebounce (live_step (LiRelease (Some (Ok (EvChange CtInsert 1 [SvText "ns"; SvText "api"; SvText "api"] 4)))) task0)))
    as H1.
  { apply lr_debounce. apply (lr_release t0 task0 _ _ H0). apply rs_insert; [reflexivity|reflexivity|].
    intros j r'. cbn. rewrite lookup_empty. done. }
  eexists _, _. split; [exact H1|]. split; [reflexivity|].
  destruct (@live_routing_current _ _ _ _ _ H1) as (_ & Hd & _). destruct (Hd eq_refl) as (state & Hl & _ & Hr & _).
  exists state. split; [exact Hl|exact Hr].
Defined.
