(* ===== verification/Reports.v ===== *)
(** * Reports, debug ticks and deploy requests

    [ployzd/src/daemon/handlers]: the doctor's report on the overlay
    ([doctor.rs]), the status text ([status.rs]), debug ticks ([debug.rs]) and the
    deploy requests with the export of what is deployed ([deploy.rs]).  What the
    handlers read (the store, the WireGuard device, probes, clocks) is an
    argument; calls with effects are logged.  Logging is left out. *)

From S2P Require Import Prelude Order Effect Text Types Addr Spec Invite Liveness Store Mesh Peer Deploy Services Api Daemon Startup Machines.
Local Open Scope string_scope.
Local Open Scope eff_scope.
#[local] Arguments String.append !_ _ : simpl nomatch.

(** ** Doctor *)

Definition PARTICIPATION_HANDSHAKE_FRESHNESS_WINDOW : Duration := from_secs 30.
Definition PARTICIPATION_PROBE_PORT : N := 51821.
Definition PROBE_REQUEST : string := "PLZ?".
Definition PROBE_RESPONSE : string := "OK!!".

Inductive HandshakeState := HsFresh | HsStale | HsNone | HsAbsent.
Inductive ProbeState := PbReachable | PbUnreachable.
#[export] Instance ProbeState_eq_dec : EqDecision ProbeState.
Proof. solve_decision. Defined.
Definition probe_as_str (self : ProbeState) : string :=
  match self with PbReachable => "reachable" | PbUnreachable => "unreachable" end.
Definition handshake_as_str (self : HandshakeState) : string :=
  match self with HsFresh => "fresh" | HsStale => "stale" | HsNone => "none" | HsAbsent => "absent" end.

Definition handshake_state (now : Instant) (last_handshake : option Instant) : HandshakeState :=
  match last_handshake with
  | None => HsNone
  | Some last_handshake =>
      match checked_duration_since now last_handshake with
      | Some elapsed => if (elapsed <? PARTICIPATION_HANDSHAKE_FRESHNESS_WINDOW)%N then HsFresh else HsStale
      | None => HsFresh
      end
  end.
Definition handshake_state_map (now : Instant) (device_peers : list DevicePeer) : gmap (list N) HandshakeState :=
  foldl (fun m peer => <[dv_public_key peer := handshake_state now (dv_last_handshake peer)]> m) ∅ device_peers.

(** [probe_overlay_ip]: a connection within the timeout, or none; then the
    request, and the four bytes read within the timeout, or none. *)
Definition probe_overlay_ip (connected : bool) (response : option string) : option unit :=
  if connected then response ← response; if String.eqb response PROBE_RESPONSE then Some tt else None
  else None.
Definition probe_overlay_health (probe : OverlayIp -> bool * option string) (machines : list MachineRecord)
    (local_machine_id : MachineId) : gmap (list N) ProbeState :=
  let overlay_ips : gset (list N) :=
    list_to_set (mr_overlay_ip <$> filter (fun machine => mr_id machine <> local_machine_id) machines) in
  set_to_map (fun ip => (ip, match probe_overlay_ip (probe ip).1 (probe ip).2 with
                             | Some _ => PbReachable
                             | None => PbUnreachable
                             end)) overlay_ips.

Record ParticipationRow := {
  pr_id : string; pr_participation : string; pr_liveness : string; pr_required : bool; pr_handshake : HandshakeState;
  pr_probe : ProbeState
}.
Definition store_status (self : ParticipationRow) : string := "store=" +:+ pr_participation self +:+ "/" +:+ pr_liveness self.
Definition wg_status (self : ParticipationRow) : string := "wg=" +:+ handshake_as_str (pr_handshake self).
Definition probe_status (self : ParticipationRow) : string := "probe=" +:+ probe_as_str (pr_probe self).
Definition row_reachable (self : ParticipationRow) : bool := bool_decide (pr_probe self = PbReachable).
Definition cause (self : ParticipationRow) : string :=
  match pr_handshake self, pr_probe self with
  | _, PbReachable => "healthy via overlay probe"
  | HsAbsent, PbUnreachable => "no direct peer configured and overlay probe failed"
  | HsNone, PbUnreachable => "direct peer exists but no handshake yet and overlay probe failed"
  | HsStale, PbUnreachable => "handshake older than 30s and overlay probe failed"
  | HsFresh, PbUnreachable => "overlay probe failed despite recent handshake"
  end.

Definition participation_row (handshake_by_key : gmap (list N) HandshakeState) (overlay_probe_by_ip : gmap (list N) ProbeState)
    (now : N) (machine : MachineRecord) : ParticipationRow := {|
  pr_id := mr_id machine; pr_participation := participation_to_string (mr_participation machine);
  pr_liveness := format_liveness machine now; pr_required := bool_decide (machine_liveness machine now = Fresh);
  pr_handshake := default HsAbsent (handshake_by_key !! mr_public_key machine);
  pr_probe := default PbUnreachable (overlay_probe_by_ip !! mr_overlay_ip machine) |}.
Definition row_cmp (left right : ParticipationRow) : comparison := str_cmp (pr_id left) (pr_id right).
Definition build_participation_rows (machines : list MachineRecord) (local_machine_id : MachineId)
    (handshake_by_key : gmap (list N) HandshakeState) (overlay_probe_by_ip : gmap (list N) ProbeState) (now : N)
    : list ParticipationRow :=
  sort_by row_cmp (participation_row handshake_by_key overlay_probe_by_ip now <$>
                   filter (fun machine => mr_id machine <> local_machine_id) machines).

Inductive CauseDisplay := CauseInclude | CauseOmit.
Definition append_peer_section (rows : list ParticipationRow) (display : CauseDisplay) : list string :=
  let w_id := column_width 2 (pr_id <$> rows) in
  let w_store := column_width (String.length "store=enabled/fresh") (store_status <$> rows) in
  let w_wg := column_width (String.length "wg=fresh") (wg_status <$> rows) in
  let w_probe := column_width (String.length "probe=unreachable") (probe_status <$> rows) in
  (fun row =>
     let base := "  " +:+ pad w_id (pr_id row) +:+ "  " +:+ pad w_store (store_status row) +:+ "  " +:+
                 pad w_wg (wg_status row) +:+ "  " +:+ pad w_probe (probe_status row) in
     match display with CauseOmit => base | CauseInclude => base +:+ "  cause=" +:+ cause row end) <$> rows.

Definition blocking_peers (rows : list ParticipationRow) : list ParticipationRow :=
  filter (fun row => pr_required row = true /\ row_reachable row = false) rows.
Definition render_doctor_report (config : NetworkConfig) (machines : list MachineRecord) (local_record : MachineRecord)
    (device_peers : list DevicePeer) (overlay_probe_by_ip : gmap (list N) ProbeState) (now : N) (instant : Instant) : string :=
  let rows := build_participation_rows machines (mr_id local_record) (handshake_state_map instant device_peers)
                overlay_probe_by_ip now in
  let blocking := blocking_peers rows in
  join_with newline (
    ["participation: " +:+ match blocking with [] => "healthy" | _ => "blocked" end] ++
    match blocking with [] => [] | _ => "" :: "blocking peers:" :: append_peer_section blocking CauseInclude end ++
    match rows with [] => [] | _ => "" :: "all peers:" :: append_peer_section rows CauseOmit end ++
    [""; "local: machine=" +:+ mr_id local_record +:+ " network=" +:+ nc_name config +:+
         " store=" +:+ participation_to_string (mr_participation local_record) +:+ "/" +:+ format_liveness local_record now +:+
         " heartbeat=" +:+ format_heartbeat (mr_last_heartbeat local_record) now])%list.

(** What the doctor reads. *)
Record DoctorInput := {
  di_machines : Res (list MachineRecord); di_now : N; di_read_peers : Res (list DevicePeer); di_instant : Instant;
  di_probe : OverlayIp -> bool * option string
}.
Definition handle_doctor (state : DaemonState) (input : DoctorInput) : DaemonResponse :=
  match ds_active state with
  | None => err_response "NO_RUNNING_NETWORK" "no mesh running"
  | Some active =>
      match di_machines input with
      | Err err => err_response "LIST_FAILED" ("failed to list machines: " +:+ error_to_string err)
      | Ok machines =>
          let machine_id := idn_machine_id (ds_identity state) in
          match find (fun machine => String.eqb (mr_id machine) machine_id) machines with
          | None => err_response "SELF_RECORD_MISSING" ("local machine '" +:+ machine_id +:+ "' is not published in the store")
          | Some local_record =>
              match di_read_peers input with
              | Err err => err_response "WIREGUARD_READ_FAILED" ("failed to read local wireguard peers: " +:+ error_to_string err)
              | Ok device_peers =>
                  ok_response (render_doctor_report (am_config active) machines local_record device_peers
                    (probe_overlay_health (di_probe input) machines machine_id) (di_now input) (di_instant input))
              end
          end
      end
  end.

(** ** Status *)

Definition phase_debug (p : Phase) : string :=
  match p with
  | Stopped => "Stopped" | Starting => "Starting" | Provisioning => "Provisioning"
  | Bootstrapping => "Bootstrapping" | Running => "Running" | Stopping => "Stopping"
  end.
Definition handle_status (state : DaemonState) (phase_of : N -> Phase) : DaemonResponse :=
  let id := idn_machine_id (ds_identity state) in
  match ds_active state with
  | Some active =>
      ok_response ("machine:  " +:+ id +:+ newline +:+ "network:  " +:+ nc_name (am_config active) +:+ newline +:+
                   "overlay:  " +:+ ipv6_to_string (nc_overlay_ip (am_config active)) +:+ newline +:+
                   "phase:    " +:+ phase_debug (phase_of (am_mesh active)))
  | None => ok_response ("machine:  " +:+ id +:+ newline +:+ "network:  none" +:+ newline +:+ "phase:    idle")
  end.

(** ** Debug ticks *)

(** A tick is a message to the task, answered when it is done. *)
Inductive TickCall := TcPeerSync | TcPeerSyncAck | TcHeartbeat | TcHeartbeatAck | TcHeal.
Record TickEnv := {
  te_peer_sync_sender : N -> bool; te_heartbeat_sender : N -> bool;    (* of a running mesh *)
  te_answer : TickCall -> list TickCall -> result string unit
}.

Section ticks.
Context (env : TickEnv) (state : DaemonState).
Local Abbreviation T := (eff unit TickCall (string * string)).
Definition tick_send (call : TickCall) (what : string) : T unit :=
  mmap_err (fun error => ("DEBUG_TICK_FAILED", what +:+ error)) (mcall (te_answer env call) call).

Definition debug_tick_peer_sync : T unit :=
  match ds_active state with
  | None => mfail ("NO_RUNNING_NETWORK", "no mesh running")
  | Some active =>
      if te_peer_sync_sender env (am_mesh active) then
        _ <-! tick_send TcPeerSync "peer sync tick send failed: " ;;
        tick_send TcPeerSyncAck "peer sync tick ack failed: "
      else mfail ("TASK_NOT_RUNNING", "peer sync task is not running")
  end.
Definition debug_tick_heartbeat : T unit :=
  match ds_active state with
  | None => mfail ("NO_RUNNING_NETWORK", "no mesh running")
  | Some active =>
      if te_heartbeat_sender env (am_mesh active) then
        _ <-! tick_send TcHeartbeat "heartbeat tick send failed: " ;;
        tick_send TcHeartbeatAck "heartbeat tick ack failed: "
      else mfail ("TASK_NOT_RUNNING", "heartbeat task is not running")
  end.
Definition debug_tick_heal : T unit := mcall (fun _ => Ok tt) TcHeal.

Definition tick_once (task : DebugTickTask) : T unit :=
  match task with
  | TickPeerSync => debug_tick_peer_sync
  | TickHeartbeat => debug_tick_heartbeat
  | TickHeal => debug_tick_heal
  | TickAll =>
      _ <-! debug_tick_peer_sync ;;
      _ <-! debug_tick_heartbeat ;;
      debug_tick_heal
  end.
Definition format_debug_tick_task (task : DebugTickTask) : string :=
  match task with TickPeerSync => "peer-sync" | TickHeartbeat => "heartbeat" | TickHeal => "heal" | TickAll => "all" end.
Definition handle_debug_tick (task : DebugTickTask) (repeat : N) (log : list TickCall) : DaemonResponse * list TickCall :=
  if (repeat =? 0)%N then (err_response "INVALID_ARGUMENT" "debug tick requires repeat >= 1", log)
  else
    let '(r, (_, log)) := mfor (replicate (N.to_nat repeat) tt) (fun _ => tick_once task) (tt, log) in
    (match r with
     | Ok _ => ok_response ("debug tick complete task=" +:+ format_debug_tick_task task +:+ " repeat=" +:+ dec repeat)
     | Err (code, message) => err_response code message
     end, log).
End ticks.

(** ** Deploy requests *)

Section deploy_requests.
Context `{SpecCodec} `{DeployCodec}.
(** [serde_json]: reading a manifest, pretty-printing a plan, a result and a manifest. *)
Context (manifest_from_json : string -> result string DeployManifest)
        (pretty_preview : DeployPreview -> result string string) (pretty_result : DeployApplyResult -> result string string)
        (pretty_manifest : DeployManifest -> result string string).

Definition decode_manifest (manifest_json : string) : result DaemonResponse DeployManifest :=
  manifest <-? map_err (fun err => err_response "INVALID_MANIFEST" ("invalid deploy manifest: " +:+ err))
                 (manifest_from_json manifest_json) ;;
  match mf_services manifest with
  | [] => Err (err_response "INVALID_MANIFEST" "deploy manifest must contain at least one service")
  | _ => Ok manifest
  end.

(** The answer to a decoded manifest on a running mesh. *)
Definition with_manifest (state : DaemonState) (manifest_json : string) (log : list DeployCall)
    (run : DeployManifest -> DaemonResponse * list DeployCall) : DaemonResponse * list DeployCall :=
  match decode_manifest manifest_json with
  | Err response => (response, log)
  | Ok manifest =>
      match ds_active state with
      | None => (err_response "NO_MESH" "no mesh is running", log)
      | Some _ => run manifest
      end
  end.
Definition deploy_answer {A} (pretty : A -> result string string) (encode_code encode_what failed_code : string) (r : Res A) : DaemonResponse :=
  match r with
  | Ok a => match pretty a with Ok json => ok_response json | Err err => err_response encode_code (encode_what +:+ err) end
  | Err err => err_response failed_code (error_to_string err)
  end.

Definition handle_deploy_preview (env : DeployEnv) (state : DaemonState) (manifest_json : string) (log : list DeployCall)
    : DaemonResponse * list DeployCall :=
  with_manifest state manifest_json log (fun manifest =>
    let '(r, (_, log)) := preview env (idn_machine_id (ds_identity state)) manifest (coordinator_new, log) in
    (deploy_answer pretty_preview "ENCODE_PREVIEW" "encode preview: " "DEPLOY_PREVIEW_FAILED" r, log)).
Definition handle_deploy_apply (env : DeployEnv) (state : DaemonState) (manifest_json : string) (log : list DeployCall)
    : DaemonResponse * list DeployCall :=
  with_manifest state manifest_json log (fun manifest =>
    let '(r, (_, log)) := apply env (idn_machine_id (ds_identity state)) manifest (coordinator_new, log) in
    (deploy_answer pretty_result "ENCODE_DEPLOY" "encode deploy result: " "DEPLOY_APPLY_FAILED" r, log)).

(** One release of the export. *)
Definition export_release (revisions_by_key : gmap (string * string) string) (release : ServiceReleaseRecord) : Res ServiceSpec :=
  let hash := sr_primary_revision_hash (rel_release release) in
  match revisions_by_key !! (rel_service release, hash) with
  | None => Err (Operation "deploy_export" ("current release for service '" +:+ rel_service release +:+
              "' referenced missing revision '" +:+ hash +:+ "'"))
  | Some spec_json =>
      spec <-? map_err (fun err => Operation "deploy_export" ("invalid stored spec for service '" +:+ rel_service release +:+ "': " +:+ err))
                 (spec_from_json spec_json) ;;
      if String.eqb (ss_name spec) (rel_service release) then Ok spec
      else Err (Operation "deploy_export" ("stored spec service '" +:+ ss_name spec +:+ "' did not match release service '" +:+
                  rel_service release +:+ "'"))
  end.
Definition spec_cmp (left right : ServiceSpec) : comparison := str_cmp (ss_name left) (ss_name right).
Definition revisions_by_key (revisions : list ServiceRevisionRecord) : gmap (string * string) string :=
  foldl (fun m r => <[(srv_service r, srv_revision_hash r) := srv_spec_json r]> m) ∅ revisions.
Definition export_manifest (releases : Res (list ServiceReleaseRecord)) (revisions : Res (list ServiceRevisionRecord))
    (namespace : Namespace) : Res DeployManifest :=
  releases <-? releases ;;
  revisions <-? revisions ;;
  services <-? try_map (export_release (revisions_by_key revisions)) releases ;;
  Ok {| mf_namespace := namespace; mf_services := sort_by spec_cmp services |}.

Definition handle_deploy_export (releases : Res (list ServiceReleaseRecord)) (revisions : Res (list ServiceRevisionRecord))
    (state : DaemonState) (namespace : Namespace) : DaemonResponse :=
  match ds_active state with
  | None => err_response "NO_MESH" "no mesh is running"
  | Some _ => deploy_answer pretty_manifest "ENCODE_MANIFEST" "encode manifest: " "DEPLOY_EXPORT_FAILED"
                (export_manifest releases revisions namespace)
  end.
End deploy_requests.

(** ** The doctor's verdict *)

Section doctor.
Context (probe : OverlayIp -> bool * option string) (machines : list MachineRecord) (local : MachineId) (now : N).

Definition reachable (m : MachineRecord) : Prop := probe_overlay_ip (probe (mr_overlay_ip m)).1 (probe (mr_overlay_ip m)).2 = Some tt.
Definition other_fresh (m : MachineRecord) : Prop := m ∈ machines /\ mr_id m <> local /\ machine_is_fresh m now = true.

Lemma probe_health_lookup m :
  m ∈ machines -> mr_id m <> local ->
  probe_overlay_health probe machines local !! mr_overlay_ip m = Some PbReachable <-> reachable m.
Proof.
  intros Hm Hid. unfold probe_overlay_health, reachable. rewrite lookup_set_to_map by (intros; simpl in *; congruence).
  set (answer := probe_overlay_ip _ _). assert (mr_overlay_ip m ∈ (list_to_set (mr_overlay_ip <$> filter (fun m => mr_id m <> local) machines) : gset (list N))) as Hin.
  { apply elem_of_list_to_set, list_elem_of_fmap. exists m. split; [done|]. by apply list_elem_of_filter. }
  split.
  - intros (ip & _ & [= -> Hs]). fold answer in Hs. by destruct answer as [[]|].
  - intros Ha. exists (mr_overlay_ip m). split; [done|]. fold answer. by rewrite Ha.
Qed.

Lemma blocking_nil handshakes :
  blocking_peers (build_participation_rows machines local handshakes (probe_overlay_health probe machines local) now) = [] <->
  forall m, other_fresh m -> reachable m.
Proof.
  unfold blocking_peers, build_participation_rows. set (row := participation_row _ _ _). split.
  - intros Hnil m (Hm & Hid & Hf). apply probe_health_lookup; [done..|].
    destruct (decide (row_reachable (row m) = true)) as [Hr|Hr].
    + unfold row_reachable in Hr. apply bool_decide_eq_true in Hr.
      change (default PbUnreachable (probe_overlay_health probe machines local !! mr_overlay_ip m) = PbReachable) in Hr.
      destruct (probe_overlay_health probe machines local !! mr_overlay_ip m) as [[]|]; done.
    + exfalso. assert (row m ∈ blocking_peers (sort_by row_cmp (row <$> filter (fun m => mr_id m <> local) machines))) as Hin;
        [|unfold blocking_peers in Hin; rewrite Hnil in Hin; by apply elem_of_nil in Hin].
      apply list_elem_of_filter. split; [split; [exact Hf|by destruct (row_reachable (row m))]|].
      apply elem_of_sort_by, list_elem_of_fmap. exists m. split; [done|]. by apply list_elem_of_filter.
  - intros Hall. destruct (filter _ _) as [|r rest] eqn:E; [done|]. exfalso.
    assert (r ∈ r :: rest) as Hr by left. rewrite <- E in Hr. apply list_elem_of_filter in Hr as [[Hreq Hun] Hr].
    apply elem_of_sort_by, list_elem_of_fmap in Hr as (m & -> & [Hid Hm]%list_elem_of_filter).
    assert (reachable m) as Hreach by (by apply Hall). apply probe_health_lookup in Hreach; [|done..].
    unfold row_reachable in Hun. apply bool_decide_eq_false in Hun. apply Hun. cbn. by rewrite Hreach.
Qed.

(** The participation task's sample on the same answers. *)
Lemma participation_sample results :
  (forall m, m ∈ machines -> mr_id m <> local -> tp_status <$> results !! mr_overlay_ip m = Some Reachable <-> reachable m) ->
  rph_sample (required_peers_health true (fun _ => results) (required_peers_for_participation machines local now)) = Healthy <->
  forall m, other_fresh m -> participates m = true -> reachable m.
Proof.
  intros Hres. rewrite required_peers_sample. unfold all_healthy, required_peers_for_participation. split.
  - intros [Hnil|[_ Hall]] m (Hm & Hid & Hf) Hp.
    + assert (m ∈ filter (fun m => mr_id m <> local /\ participates m = true /\ machine_is_fresh m now = true) machines) as Hin
        by by apply list_elem_of_filter. rewrite Hnil in Hin. by apply elem_of_nil in Hin.
    + apply Hres; [done..|]. rewrite Forall_forall in Hall. apply Hall. by apply list_elem_of_filter.
  - intros Hall. right. split; [done|]. apply Forall_forall. intros m [(Hid & Hp & Hf) Hm]%list_elem_of_filter.
    apply Hres; [done..|]. by apply Hall.
Qed.
End doctor.

Lemma starts_join text rest p :
  String.length p = String.length text -> starts_with (join_with newline (text :: rest)) p = true <-> text = p.
Proof.
  intros Hl. assert (exists r, join_with newline (text :: rest) = text +:+ r) as [r ->].
  { destruct rest as [|t rest]; [exists ""; by rewrite append_empty_r|]. by eexists. }
  rewrite starts_with_spec. split; [|intros ->; by eexists]. intros [r' E].
  revert p Hl E. induction text as [|c text IH]; intros [|d p]; try done. cbn [String.length]. intros [= Hl].
  change (String c text +:+ r) with (String c (text +:+ r)). change (String d p +:+ r') with (String d (p +:+ r')).
  intros [= -> E]. f_equal. by eapply IH.
Qed.

(** The doctor's verdict, and how it differs from what participation waits
    for.  When the store and the device can be read and the machine's own record
    is there, the doctor answers, and says [healthy] exactly when every other
    fresh machine answers its probe.  On the same answers the participation task
    counts the sample as healthy exactly when every other fresh machine that
    takes part does.  So a healthy verdict is never wrong, but a machine that is
    disabled and unreachable makes the doctor report [blocked] although it
    blocks nothing. *)
Theorem doctor_verdict state input active machines peers record results :
  let local := idn_machine_id (ds_identity state) in
  ds_active state = Some active -> di_machines input = Ok machines -> di_read_peers input = Ok peers ->
  find (fun m => String.eqb (mr_id m) local) machines = Some record ->
  (forall m, m ∈ machines -> mr_id m <> local ->
     tp_status <$> results !! mr_overlay_ip m = Some Reachable <-> reachable (di_probe input) m) ->
  let response := handle_doctor state input in
  rs_ok response = true /\
  (starts_with (rs_message response) "participation: healthy" = true <->
     forall m, other_fresh machines local (di_now input) m -> reachable (di_probe input) m) /\
  (rph_sample (required_peers_health true (fun _ => results) (required_peers_for_participation machines local (di_now input)))
     = Healthy <->
     forall m, other_fresh machines local (di_now input) m -> participates m = true -> reachable (di_probe input) m).
Proof.
  intros local Ha Hm Hp Hf Hres. unfold handle_doctor. rewrite Ha, Hm, Hp. fold local. rewrite Hf.
  split; [done|]. split; [|by apply participation_sample]. cbn [ok_response ok_with_payload rs_message].
  assert (mr_id record = local) as Hid by (apply find_some in Hf as [_ Hf]; by apply String.eqb_eq in Hf).
  rewrite <- (blocking_nil _ _ _ _ (handshake_state_map (di_instant input) peers)).
  unfold render_doctor_report. rewrite Hid. set (blocking := blocking_peers _). cbn [app].
  destruct blocking as [|b blocking]; rewrite starts_join by done; done.
Qed.

(** ** Exporting what was deployed *)

#[export] Instance spec_cmp_total : TotalCmp spec_cmp.
Proof. apply (cmp_on_total ss_name str_cmp), _. Qed.

Lemma try_map_Forall2_ok {E A B} (f : A -> result E B) l ys : Forall2 (fun x y => f x = Ok y) l ys -> try_map f l = Ok ys.
Proof. induction 1 as [|x y l ys Hx _ IH]; [done|]. cbn. by rewrite Hx, IH. Qed.

Section export.
Context `{SpecCodec} `{DeployCodec} {S : Type} `{!ReleaseStore S}.

(** A revision of the store that carries the text of a service. *)
Definition stored_revision (spec : ServiceSpec) (r : ServiceRevisionRecord) : Prop :=
  srv_service r = ss_name spec /\ revision_hash spec = Ok (srv_revision_hash r) /\ spec_to_json spec = Ok (srv_spec_json r).

Lemma revisions_by_key_elem revisions r :
  NoDup ((fun r => (srv_service r, srv_revision_hash r)) <$> revisions) -> r ∈ revisions ->
  revisions_by_key revisions !! (srv_service r, srv_revision_hash r) = Some (srv_spec_json r).
Proof.
  unfold revisions_by_key. induction revisions as [|x l IH] using rev_ind; [by intros _ ?%elem_of_nil|].
  rewrite fmap_app, NoDup_app, foldl_app. intros (Hnd & Hfresh & _) [Hr|Hr]%elem_of_app; cbn.
  - rewrite lookup_insert_ne; [by apply IH|]. intros E.
    apply (Hfresh (srv_service r, srv_revision_hash r)); [by apply list_elem_of_fmap; exists r|]. rewrite <- E. cbn. left.
  - apply list_elem_of_singleton in Hr as ->. by rewrite lookup_insert_eq.
Qed.

Lemma export_release_ok revisions spec r ms current :
  NoDup ((fun r => (srv_service r, srv_revision_hash r)) <$> revisions) ->
  (exists rev, rev ∈ revisions /\ stored_revision spec rev) ->
  (forall json, spec_to_json spec = Ok json -> spec_from_json json = Ok spec) ->
  implements ms current spec r -> export_release (revisions_by_key revisions) r = Ok spec.
Proof.
  intros Hnd (rev & Hrev & Hs & Hh & Hj) Hround (hash & d & Hhash & _ & Hname & Hprimary & _).
  unfold export_release. rewrite Hname, Hprimary. assert (hash = srv_revision_hash rev) as -> by congruence.
  rewrite <- Hs, (revisions_by_key_elem revisions rev Hnd Hrev), (Hround _ Hj). cbn. by rewrite Hs, String.eqb_refl.
Qed.

Lemma committed_perm (s : S) c local manifest machines0 now0 p0 :
  rst_wf s -> preview_plan local manifest (rst_list (mf_namespace manifest) s) machines0 now0 = Ok p0 ->
  dc_namespace c = mf_namespace manifest -> dc_removed_services c = removed_services p0 ->
  NoDup (ss_name <$> mf_services manifest) ->
  Forall (fun r => rel_namespace r = mf_namespace manifest) (dc_releases c) ->
  rel_service <$> dc_releases c = ss_name <$> mf_services manifest ->
  rst_list (mf_namespace manifest) (rst_commit c s) ≡ₚ dc_releases c.
Proof.
  intros Hs Hp0 Hns Hrm Hnd Hrel Hnames.
  assert (NoDup (release_key <$> dc_releases c)) as Hkeys
    by (apply (services_NoDup (mf_namespace manifest)); [done|]; by rewrite Hnames).
  apply NoDup_Permutation.
  - eapply NoDup_fmap_1. by apply rst_list_NoDup, rst_commit_wf.
  - by eapply NoDup_fmap_1.
  - intros r. rewrite (committed_list (mf_namespace manifest) s c r Hs Hns Hrel).
    + rewrite written_release_index. split.
      * intros [Hr _]. by apply index_by_NoDup in Hr as [Hr _].
      * intros Hr. split; [by apply index_by_NoDup|]. rewrite Forall_forall in Hrel. by apply Hrel.
    + intros r0 Hr0. unfold touched_services. rewrite Hnames. apply elem_of_app.
      destruct (decide (rel_service r0 ∈ ss_name <$> mf_services manifest)); [by right|left].
      rewrite Hrm. by eapply removed_services_elem.
Qed.

(** C3: An export gives back what was deployed.  Take a commit as a deploy makes
    it: made from the plan for a manifest, it removes what the plan removes and
    publishes a release for every service.  If the store has the services'
    revisions under their hashes and the codec reads back what it wrote, then
    exporting the namespace after the commit succeeds and gives exactly the
    manifest's services, sorted by name. *)
Theorem export_after_deploy (s : S) (c : DeployCommit) (local : MachineId) (manifest : DeployManifest)
    (machines0 : list MachineRecord) (now0 : N) (p0 : DeployPreview) (ms : list MachineId)
    (revisions : list ServiceRevisionRecord) :
  rst_wf s -> preview_plan local manifest (rst_list (mf_namespace manifest) s) machines0 now0 = Ok p0 ->
  dc_namespace c = mf_namespace manifest -> dc_removed_services c = removed_services p0 ->
  NoDup (ss_name <$> mf_services manifest) ->
  Forall2 (fun spec r => rel_namespace r = mf_namespace manifest /\ exists current, implements ms current spec r)
    (mf_services manifest) (dc_releases c) ->
  NoDup ((fun r => (srv_service r, srv_revision_hash r)) <$> revisions) ->
  Forall (fun spec => (exists rev, rev ∈ revisions /\ stored_revision spec rev) /\
                      forall json, spec_to_json spec = Ok json -> spec_from_json json = Ok spec) (mf_services manifest) ->
  export_manifest (Ok (rst_list (mf_namespace manifest) (rst_commit c s))) (Ok revisions) (mf_namespace manifest) =
  Ok {| mf_namespace := mf_namespace manifest; mf_services := sort_by spec_cmp (mf_services manifest) |}.
Proof.
  intros Hs Hp0 Hns Hrm Hnd Hall Hrev Hspecs.
  assert (Forall (fun r => rel_namespace r = mf_namespace manifest) (dc_releases c)) as Hrel.
  { apply Forall_forall. intros r (i & Hi)%list_elem_of_lookup.
    by destruct (Forall2_lookup_r _ _ _ _ _ Hall Hi) as (spec & _ & ? & _). }
  assert (rel_service <$> dc_releases c = ss_name <$> mf_services manifest) as Hnames.
  { clear -Hall. induction Hall as [|spec r specs rs (_ & cur & h & d & _ & _ & Hn & _) _ IH]; csimpl; congruence. }
  pose proof (committed_perm s c local manifest machines0 now0 p0 Hs Hp0 Hns Hrm Hnd Hrel Hnames) as Hperm.
  assert (Forall2 (fun r spec => export_release (revisions_by_key revisions) r = Ok spec) (dc_releases c) (mf_services manifest)) as Hf.
  { apply Forall2_flip. clear -Hall Hrev Hspecs. induction Hall as [|spec r specs rs (_ & cur & Himp) _ IH]; [done|].
    apply Forall_cons in Hspecs as [[Hr Hround] Hspecs]. constructor; [|by apply IH].
    eapply export_release_ok; [exact Hrev|exact Hr|exact Hround|exact Himp]. }
  symmetry in Hperm. destruct (Permutation.Permutation_Forall2 Hperm Hf) as (specs & Hsp & Hf').
  unfold export_manifest. cbn. rewrite (try_map_Forall2_ok _ _ specs Hf'). cbn. do 2 f_equal. symmetry. apply sort_by_unique; [apply _| |done].
  intros x y Hx Hy Hc. apply str_cmp_eq in Hc. apply list_elem_of_lookup in Hx as [i Hi]. apply list_elem_of_lookup in Hy as [j Hj].
  assert (i = j) as ->; [|congruence]. eapply NoDup_lookup; [exact Hnd|by rewrite list_lookup_fmap, Hi|].
  rewrite list_lookup_fmap, Hj. cbn. by rewrite Hc.
Qed.
End export.

(** ** Debug ticks run in rounds *)

(** The calls of one round. *)
Definition round (task : DebugTickTask) : list TickCall :=
  match task with
  | TickPeerSync => [TcPeerSync; TcPeerSyncAck]
  | TickHeartbeat => [TcHeartbeat; TcHeartbeatAck]
  | TickHeal => [TcHeal]
  | TickAll => [TcPeerSync; TcPeerSyncAck; TcHeartbeat; TcHeartbeatAck; TcHeal]
  end.
Section rounds.
Context (env : TickEnv) (state : DaemonState).

(** A computation that makes exactly these calls when it succeeds. *)
Definition runs (calls : list TickCall) (c : eff unit TickCall (string * string) unit) : Prop :=
  forall log, wp c (fun r _ log' => r = Ok tt -> log' = (log ++ calls)%list) tt log.
Lemma runs_bind c1 c2 (a b : eff unit TickCall (string * string) unit) :
  runs c1 a -> runs c2 b -> runs (c1 ++ c2)%list (mbind a (fun _ => b)).
Proof.
  intros Ha Hb log. apply wp_bind. eapply wp_mono; [apply Ha|]. intros [[]|e] [] log1 H1; [|done]. rewrite (H1 eq_refl).
  eapply wp_mono; [apply Hb|]. intros r [] log2 H2 Hr. rewrite (H2 Hr). by rewrite <- app_assoc.
Qed.
Lemma runs_send call what : runs [call] (tick_send env call what).
Proof. intros log. by apply wp_map_err, wp_call. Qed.
Lemma runs_peer_sync : runs [TcPeerSync; TcPeerSyncAck] (debug_tick_peer_sync env state).
Proof.
  unfold debug_tick_peer_sync. destruct (ds_active state); [|by intros log]. case_match; [|by intros log].
  apply (runs_bind [_] [_]); apply runs_send.
Qed.
Lemma runs_heartbeat : runs [TcHeartbeat; TcHeartbeatAck] (debug_tick_heartbeat env state).
Proof.
  unfold debug_tick_heartbeat. destruct (ds_active state); [|by intros log]. case_match; [|by intros log].
  apply (runs_bind [_] [_]); apply runs_send.
Qed.
Lemma runs_round task : runs (round task) (tick_once env state task).
Proof.
  destruct task; [apply runs_peer_sync|apply runs_heartbeat|by intros log|].
  apply (runs_bind [_; _] [_; _; _]); [apply runs_peer_sync|]. apply (runs_bind [_; _] [_]); [apply runs_heartbeat|by intros log].
Qed.

(** A debug tick that reports success ran its task [repeat] times, each tick
    after the one before was done. *)
Lemma debug_tick_rounds task repeat log :
  let '(response, log') := handle_debug_tick env state task repeat log in
  rs_ok response = true -> (0 < repeat)%N /\ log' = (log ++ mjoin (replicate (N.to_nat repeat) (round task)))%list.
Proof.
  unfold handle_debug_tick. destruct (N.eqb_spec repeat 0) as [->|Hr]; [done|].
  assert (forall n, runs (mjoin (replicate n (round task))) (mfor (replicate n tt) (fun _ => tick_once env state task))) as Hfor.
  { intros n. induction n as [|n IH]; [intros l _; by rewrite app_nil_r|]. apply runs_bind; [apply runs_round|exact IH]. }
  specialize (Hfor (N.to_nat repeat) log). unfold wp in Hfor. destruct (mfor _ _ _) as [[[]|[code msg]] [[] log']]; [|done].
  intros _. split; [lia|]. by apply Hfor.
Qed.
End rounds.

(** ** Witnesses *)

Definition report_machine (id : MachineId) (k : N) (participation : Participation) : MachineRecord := {|
  mr_id := id; mr_public_key := [k]; mr_overlay_ip := [k]; mr_subnet := None; mr_bridge_ip := None; mr_endpoints := [];
  mr_status := MsUp; mr_participation := participation; mr_last_heartbeat := 1000; mr_created_at := 0; mr_updated_at := 0;
  mr_labels := ∅ |}.
(** A disabled machine that does not answer, and one that takes part and does. *)
Definition report_machines : list MachineRecord :=
  [report_machine "founder" 1 Enabled; report_machine "spare" 2 Disabled; report_machine "worker" 3 Enabled].
Definition report_input : DoctorInput := {|
  di_machines := Ok report_machines; di_now := 1010; di_read_peers := Ok []; di_instant := 0;
  di_probe ip := (bool_decide (ip = [3%N]), Some PROBE_RESPONSE) |}.
Definition report_results : gmap (list N) TcpProbeResult := {[ [3%N] := probe_reachable 1 ]}.
Lemma doctor_verdict_witness :
  rs_ok (handle_doctor sample_state report_input) = true /\
  starts_with (rs_message (handle_doctor sample_state report_input)) "participation: blocked" = true /\
  rph_sample (required_peers_health true (fun _ => report_results) (required_peers_for_participation report_machines "founder" 1010)) = Healthy.
Proof.
  destruct (doctor_verdict sample_state report_input sample_active report_machines [] (report_machine "founder" 1 Enabled) report_results
    eq_refl eq_refl eq_refl eq_refl) as (Hok & _ & Hsample).
  - intros m Hm _. repeat (apply elem_of_cons in Hm as [->|Hm]; [by split|]). by apply elem_of_nil in Hm.
  - split; [exact Hok|]. split; [vm_compute; reflexivity|]. apply Hsample. intros m (Hm & Hid & Hf) Hp.
    repeat (apply elem_of_cons in Hm as [->|Hm]; [done|]). by apply elem_of_nil in Hm.
Defined.

(** A codec that reads back the service it wrote. *)
Definition web_codec : SpecCodec := {| spec_to_json s := Ok (ss_name s); spec_from_json _ := Ok sample_spec |}.
Definition web_revision : ServiceRevisionRecord := {|
  srv_namespace := "prod"; srv_service := "web"; srv_revision_hash := sample_hash; srv_spec_json := "web"; srv_created_by := "m1";
  srv_created_at := 1 |}.
Lemma export_after_deploy_witness :
  @export_manifest web_codec (Ok (mem_list_service_releases "prod" (mem_apply_deploy_commit sample_commit memory_new)))
    (Ok [web_revision]) "prod" = Ok sample_manifest.
Proof.
  assert (exists p0, @preview_plan web_codec sample_deploy_codec "m1" sample_manifest
    (mem_list_service_releases "prod" memory_new) [] 0 = Ok p0 /\ removed_services p0 = []) as (p0 & Hp0 & Hr0).
  { eexists. split; vm_compute; reflexivity. }
  refine (@export_after_deploy web_codec sample_deploy_codec MemoryStore memory_release_store memory_new
    sample_commit "m1" sample_manifest [] 0 p0 ["m1"] [web_revision] _ Hp0 eq_refl _ _ _ _ _).
  - split; apply map_Forall_empty.
  - symmetry. exact Hr0.
  - apply (bool_decide_unpack _). vm_compute. exact I.
  - constructor; [|constructor]. split; [reflexivity|]. exists None, sample_hash.
    eexists. split; [reflexivity|]. split; [vm_compute; reflexivity|].
    split; [reflexivity|]. split; [reflexivity|]. repeat constructor.
  - apply (bool_decide_unpack _). vm_compute. exact I.
  - constructor; [|constructor]. split; [|by intros json [= <-]]. exists web_revision. split; [left|]. by split.
Defined.
