(* ===== verification/Cli.v ===== *)
(** * Commands as requests

    [ployzd/src/request_builder.rs] and the readers of [cli_io.rs]: what the
    operator's commands ([cli.rs], as clap delivers them) ask of the daemon.  The
    file system, standard input and the daemon's answer to an export are
    arguments; warnings on standard error are left out. *)

From S2P Require Import Prelude Order Effect Text Types Spec Store Deploy Services Api Daemon Startup Machines Reports.
Local Open Scope string_scope.
#[local] Arguments String.append !_ _ : simpl nomatch.

(** ** Commands ([cli.rs]) *)

Inductive RuntimeTargetArg := ArgDocker | ArgHost.
Inductive ServiceModeArg := ArgUser | ArgSystem.
Inductive InstallSourceArg := ArgRelease | ArgGit.
Inductive DebugTickTaskArg := ArgPeerSync | ArgHeartbeat | ArgHeal | ArgAll.
Definition install_runtime_target (value : RuntimeTargetArg) : InstallRuntimeTarget :=
  match value with ArgDocker => InstallDocker | ArgHost => InstallHost end.
Definition install_service_mode (value : ServiceModeArg) : InstallServiceMode :=
  match value with ArgUser => InstallUser | ArgSystem => InstallSystem end.
Definition install_source_of (value : InstallSourceArg) : InstallSource :=
  match value with ArgRelease => InstallRelease | ArgGit => InstallGit end.
Definition debug_tick_task (value : DebugTickTaskArg) : DebugTickTask :=
  match value with ArgPeerSync => TickPeerSync | ArgHeartbeat => TickHeartbeat | ArgHeal => TickHeal | ArgAll => TickAll end.

Inductive CliError :=
| Usage (message : string) | CliIo (message : string) | Serialize (message : string) | ConfigError (message : string)
| TransportError (socket message : string).
Definition cli_exit_code (self : CliError) : Z :=
  match self with Usage _ | ConfigError _ => 2 | CliIo _ | Serialize _ | TransportError _ _ => 1 end%Z.
Abbreviation CliRes A := (result CliError A) (only parsing).

Record DeployManifestArgs := { da_file : option string; da_dry_run : bool }.
Record DeployServiceArgs := {
  dsa_name : string; dsa_image : string; dsa_namespace : string; dsa_publish : list string; dsa_env : list string;
  dsa_volume : list string; dsa_network : string; dsa_pull : bool; dsa_restart : string; dsa_dry_run : bool; dsa_command : list string
}.
Inductive DebugAction := DebugTick (task : DebugTickTaskArg) (repeat : N).
Inductive DeployAction := DeployPreviewOf (args : DeployManifestArgs) | DeployServiceOf (args : DeployServiceArgs).
Record DeployCommand := { dcm_action : option DeployAction; dcm_manifest : DeployManifestArgs }.
Inductive MeshAction :=
| MeshList | MeshStatus (network : string)
| MeshJoin (token : option string) (token_stdin : bool)
| MeshReady (json : bool) | MeshCreate (network : string)
| MeshInit (network : option string) (name_stdin : bool)
| MeshUp (network : string) (skip_bootstrap_wait : bool)
| MeshDown
| MeshDestroy (network : option string) (name_stdin : bool)
| MeshSelfRecord | MeshAccept (response : string).
Record InstallArgs := {
  ia_runtime : option RuntimeTargetArg; ia_service_mode : option ServiceModeArg; ia_source : option InstallSourceArg;
  ia_version : option string; ia_git_url : option string; ia_git_ref : option string
}.
Inductive MachineInviteAction := InviteCreate (ttl_secs : N) | InviteImport (token : string).
Inductive MachineOperationAction := OperationList | OperationGet (id : string).
Inductive MachineAction :=
| MachineLs | MachineInit (target network : string) (install : InstallArgs)
| MachineAdd (identity : option string) (install : InstallArgs) (targets : list string)
| MachineRm (id : string) (force : bool)
| MachineInvite (action : MachineInviteAction)
| MachineOperation (action : MachineOperationAction).
Inductive Command :=
| CmdRun (runtime : RuntimeTargetArg) (service_mode : ServiceModeArg) (remote_control_port : option N)
| CmdStatus | CmdDoctor | CmdDebug (action : DebugAction) | CmdDeploy (command : DeployCommand)
| CmdMesh (action : MeshAction) | CmdMachine (action : MachineAction) | CmdRpcStdio.

(** ** Reading ([cli_io.rs]) *)

(** A read of standard input fails, is not UTF-8, or gives a text. *)
Inductive StdinRead := StdinFailed (e : string) | StdinInvalid (e : string) | StdinText (s : string).
Record CliEnv := {
  ce_stdin : StdinRead; ce_file : string -> result string string;
  ce_export : string -> result string DaemonResponse    (* the daemon's answer to an export of a namespace *)
}.

Section cli.
Context (env : CliEnv).

Definition read_stdin_string (label : string) : CliRes string :=
  match ce_stdin env with
  | StdinFailed e => Err (Usage ("failed to read " +:+ label +:+ " from stdin: " +:+ e))
  | StdinInvalid e => Err (Usage (label +:+ " from stdin was not valid utf-8: " +:+ e))
  | StdinText s => Ok s
  end.
Definition read_text_source (label path : string) : CliRes string :=
  if String.eqb path "-" then read_stdin_string label
  else map_err (fun e => CliIo ("failed to read " +:+ label +:+ " from " +:+ path +:+ ": " +:+ e)) (ce_file env path).
Definition read_optional_text_file (label : string) (path : option string) : CliRes (option string) :=
  match path with
  | None => Ok None
  | Some path =>
      contents <-? map_err (fun e => CliIo ("failed to read " +:+ label +:+ " '" +:+ path +:+ "': " +:+ e)) (ce_file env path) ;;
      if is_empty (trim contents) then Err (Usage (label +:+ " '" +:+ path +:+ "' is empty")) else Ok (Some contents)
  end.

(** ** Requests ([request_builder.rs]) *)

Inductive ManifestRequestMode := ModePreview | ModeApply.
#[local] Instance ManifestRequestMode_eq_dec : EqDecision ManifestRequestMode.
Proof. solve_decision. Defined.
Definition default_deploy_options : DeployOptions := {| do_project_dir := None; do_env_files := []; do_prune := false |}.

Definition build_debug_request (action : DebugAction) : CliRes DaemonRequest :=
  match action with DebugTick task repeat => Ok (RqDebugTick (debug_tick_task task) repeat) end.

Definition required_value {T} (value : option T) (message : string) : CliRes T :=
  match value with Some value => Ok value | None => Err (Usage message) end.
Definition string_arg_or_stdin (label stdin_flag : string) (value : option string) (read_stdin : bool) : CliRes string :=
  match value, read_stdin with
  | Some text, false => Ok text
  | None, true => read_stdin_string label
  | None, false => Err (Usage (label +:+ " requires either an argument or " +:+ stdin_flag))
  | Some _, true => Err (Usage (label +:+ " cannot use both an argument and " +:+ stdin_flag))
  end.

Definition build_manifest_request (args : DeployManifestArgs) (mode : ManifestRequestMode) : CliRes DaemonRequest :=
  file <-? required_value (da_file args) "deploy requires --file" ;;
  manifest_json <-? read_text_source "deploy manifest" file ;;
  Ok (if bool_decide (mode = ModePreview) || da_dry_run args then RqDeployPreview manifest_json default_deploy_options
      else RqDeployApply manifest_json default_deploy_options).

(** *** A service from its arguments *)

Record ServiceSpecArgs := {
  ssa_image : string; ssa_name : option string; ssa_publish : list string; ssa_env : list string; ssa_volume : list string;
  ssa_network : string; ssa_pull : bool; ssa_restart : string; ssa_command : list string
}.
Definition before (c : ascii) (s : string) : string := match split_once c s with Some (a, _) => a | None => s end.
Definition service_name_of (args : ServiceSpecArgs) : string :=
  match ssa_name args with
  | Some name => name
  | None => before ":" (match rsplit_once "/" (ssa_image args) with Some (_, tail) => tail | None => ssa_image args end)
  end.

(** One mapping: what it publishes, or nothing if it is malformed. *)
Definition publish_mapping (index : nat) (mapping : string) : option (ServicePort * PublishedPort) :=
  match split ":" mapping with
  | [host; container] =>
      host_port ← parse_u16 host;
      container_port ← parse_u16 container;
      let service_port := "port-" +:+ dec_pad 4 (N.of_nat index + 1) in
      Some ({| port_name := service_port; port_container_port := container_port; port_protocol := Tcp |},
            {| pub_service_port := service_port; pub_host_port := host_port; pub_host_ip := None |})
  | _ => None
  end.
Definition published_ports (publish : list string) : list (ServicePort * PublishedPort) :=
  omap (fun o => o) (imap publish_mapping publish).
Definition env_entry (entry : string) : option (string * string) := split_once "=" entry.
Definition env_map (entries : list string) : gmap string string :=
  foldl (fun m kv => <[kv.1 := kv.2]> m) ∅ (omap env_entry entries).
(** [splitn(3, ':')]. *)
Definition volume_mapping (mapping : string) : option VolumeMount :=
  match split_once ":" mapping with
  | None => None
  | Some (src, rest) =>
      Some (match split_once ":" rest with
            | None => {| vm_source := Bind src; vm_target := rest; vm_readonly := false |}
            | Some (dst, opts) => {| vm_source := Bind src; vm_target := dst; vm_readonly := String.eqb opts "ro" |}
            end)
  end.
Definition network_mode (network : string) : NetworkMode :=
  if String.eqb network "host" then NmHost else if String.eqb network "none" then NmNone
  else if String.eqb network "overlay" then NmOverlay else NmService network.
Definition parse_restart_policy (restart : string) : RestartPolicy :=
  if String.eqb restart "always" then RestartAlways else if String.eqb restart "on-failure" then OnFailure
  else if String.eqb restart "no" then RestartNo else UnlessStopped.

Definition build_service_spec (args : ServiceSpecArgs) : ServiceSpec := {|
  ss_name := service_name_of args; ss_placement := Replicated 1;
  ss_template := {|
    cs_image := ssa_image args; cs_command := match ssa_command args with [] => None | command => Some command end;
    cs_entrypoint := None; cs_env := env_map (ssa_env args); cs_volumes := omap volume_mapping (ssa_volume args);
    cs_cap_add := []; cs_cap_drop := []; cs_privileged := false; cs_user := None;
    cs_pull_policy := if ssa_pull args then Always else IfNotPresent;
    cs_resources := {| res_cpu_millicores := None; res_memory_bytes := None |}; cs_sysctls := ∅ |};
  ss_network := network_mode (ssa_network args); ss_service_ports := (published_ports (ssa_publish args)).*1;
  ss_publish := (published_ports (ssa_publish args)).*2; ss_routes := []; ss_readiness := None; ss_rollout := Recreate;
  ss_labels := ∅; ss_stop_grace_period := None; ss_restart := parse_restart_policy (ssa_restart args) |}.

(** *** One service of a namespace *)

Definition upsert_service_in_manifest (manifest : DeployManifest) (spec : ServiceSpec) : DeployManifest :=
  let services := match list_find (fun existing => ss_name existing = ss_name spec) (mf_services manifest) with
                  | Some (index, _) => <[index := spec]> (mf_services manifest)
                  | None => (mf_services manifest ++ [spec])%list
                  end in
  {| mf_namespace := mf_namespace manifest; mf_services := sort_by spec_cmp services |}.

Section deploy.
(** [serde_json]: reading and writing a manifest. *)
Context (manifest_from_json : string -> result string DeployManifest) (manifest_to_json : DeployManifest -> result string string).

(** [DaemonClient::deploy_export_manifest]. *)
Definition client_deploy_export_manifest (answer : result string DaemonResponse) : result string DeployManifest :=
  response <-? client_request_ok answer ;;
  map_err (fun e => "failed to decode exported deploy manifest: " +:+ e) (manifest_from_json (rs_message response)).
Definition export_namespace_manifest (namespace : string) : CliRes DeployManifest :=
  map_err (fun e => Serialize ("failed to export namespace manifest: " +:+ e)) (client_deploy_export_manifest (ce_export env namespace)).
Definition encode_manifest_json (manifest : DeployManifest) : CliRes string :=
  map_err (fun e => Serialize ("failed to serialize deploy manifest: " +:+ e)) (manifest_to_json manifest).

Definition service_args (args : DeployServiceArgs) : ServiceSpecArgs := {|
  ssa_image := dsa_image args; ssa_name := Some (dsa_name args); ssa_publish := dsa_publish args; ssa_env := dsa_env args;
  ssa_volume := dsa_volume args; ssa_network := dsa_network args; ssa_pull := dsa_pull args; ssa_restart := dsa_restart args;
  ssa_command := dsa_command args |}.
Definition build_deploy_service_request (args : DeployServiceArgs) : CliRes DaemonRequest :=
  manifest <-? export_namespace_manifest (dsa_namespace args) ;;
  let manifest := upsert_service_in_manifest manifest (build_service_spec (service_args args)) in
  manifest_json <-? encode_manifest_json manifest ;;
  Ok (if dsa_dry_run args then RqDeployPreview manifest_json default_deploy_options
      else RqDeployApply manifest_json default_deploy_options).

Definition build_deploy_request (command : DeployCommand) : CliRes DaemonRequest :=
  match dcm_action command with
  | Some (DeployPreviewOf args) => build_manifest_request args ModePreview
  | Some (DeployServiceOf args) => build_deploy_service_request args
  | None => build_manifest_request (dcm_manifest command) ModeApply
  end.

Definition build_mesh_request (action : MeshAction) : CliRes DaemonRequest :=
  match action with
  | MeshList => Ok RqMeshList
  | MeshStatus network => Ok (RqMeshStatus network)
  | MeshJoin token token_stdin =>
      token <-? string_arg_or_stdin "mesh join token" "--token-stdin" token token_stdin ;; Ok (RqMeshJoin token)
  | MeshReady json => Ok (RqMeshReady (if json then ReadyJson else ReadyText))
  | MeshCreate network => Ok (RqMeshCreate network)
  | MeshInit network name_stdin =>
      network <-? string_arg_or_stdin "mesh init network" "--name-stdin" network name_stdin ;; Ok (RqMeshInit network)
  | MeshUp network skip_bootstrap_wait => Ok (RqMeshUp network (if skip_bootstrap_wait then BootstrapSkip else BootstrapWait))
  | MeshDown => Ok RqMeshDown
  | MeshDestroy network name_stdin =>
      network <-? string_arg_or_stdin "mesh destroy network" "--name-stdin" network name_stdin ;; Ok (RqMeshDestroy network)
  | MeshSelfRecord => Ok RqMeshSelfRecord
  | MeshAccept response => Ok (RqMeshAccept response)
  end.

Definition build_machine_install_options (args : InstallArgs) : MachineInstallOptions :=
  let has_version := bool_decide (is_Some (ia_version args)) in
  let has_git := bool_decide (is_Some (ia_git_url args)) || bool_decide (is_Some (ia_git_ref args)) in
  let resolved_source := match ia_source args with
                         | Some source => Some (install_source_of source)
                         | None => if has_version && negb has_git then Some InstallRelease
                                   else if negb has_version && has_git then Some InstallGit else None
                         end in
  {| mi_runtime_target := install_runtime_target <$> ia_runtime args;
     mi_service_mode := install_service_mode <$> ia_service_mode args; mi_source := resolved_source;
     mi_version := ia_version args; mi_git_url := ia_git_url args; mi_git_ref := ia_git_ref args |}.
Definition is_default_install (o : MachineInstallOptions) : bool :=
  match o with
  | {| mi_runtime_target := None; mi_service_mode := None; mi_source := None; mi_version := None; mi_git_url := None;
       mi_git_ref := None |} => true
  | _ => false
  end.

Definition build_machine_request (action : MachineAction) : CliRes DaemonRequest :=
  match action with
  | MachineLs => Ok RqMachineList
  | MachineInit target network install => Ok (RqMachineInit target network (build_machine_install_options install))
  | MachineAdd identity install targets =>
      let install := build_machine_install_options install in
      key <-? read_optional_text_file "machine add identity" identity ;;
      Ok (RqMachineAdd targets {| ma_ssh_identity_private_key := key;
                                  ma_install := if is_default_install install then None else Some install |})
  | MachineRm id force => Ok (RqMachineRemove id (if force then Force else DisabledOnly))
  | MachineInvite (InviteCreate ttl_secs) => Ok (RqMachineInviteCreate ttl_secs)
  | MachineInvite (InviteImport token) => Ok (RqMachineInviteImport token)
  | MachineOperation OperationList => Ok RqMachineOperationList
  | MachineOperation (OperationGet id) => Ok (RqMachineOperationGet id)
  end.

Definition build_request (command : Command) : CliRes DaemonRequest :=
  match command with
  | CmdStatus => Ok RqStatus
  | CmdDoctor => Ok RqDoctor
  | CmdDebug action => build_debug_request action
  | CmdDeploy command => build_deploy_request command
  | CmdMesh action => build_mesh_request action
  | CmdMachine action => build_machine_request action
  | CmdRpcStdio => Err (Usage "internal error: rpc-stdio is handled directly")
  | CmdRun _ _ _ => Err (Usage "internal error: daemon command cannot be encoded as a daemon request")
  end.
End deploy.
End cli.

(** ** A service built from arguments is well formed *)

Lemma published_names l i : port_name <$> (omap (fun o => o) (imap (fun k => publish_mapping (i + k)) l)).*1 =
  pub_service_port <$> (omap (fun o => o) (imap (fun k => publish_mapping (i + k)) l)).*2 /\
  Forall (fun n => exists k, i <= k /\ n = "port-" +:+ dec_pad 4 (N.of_nat k + 1))
    (port_name <$> (omap (fun o => o) (imap (fun k => publish_mapping (i + k)) l)).*1) /\
  NoDup (port_name <$> (omap (fun o => o) (imap (fun k => publish_mapping (i + k)) l)).*1).
Proof.
  revert i. induction l as [|m l IH]; intros i; [cbn; split_and!; [done|constructor|constructor]|].
  rewrite imap_cons. assert (imap ((fun k => publish_mapping (i + k)) ∘ S) l = imap (fun k => publish_mapping (S i + k)) l) as ->.
  { apply imap_ext. intros k x _. cbn. f_equal. lia. }
  destruct (IH (S i)) as (H1 & H2 & H3). cbn [omap list_omap]. set (tail := omap _ _) in *.
  assert (Forall (fun n => exists k, i <= k /\ n = "port-" +:+ dec_pad 4 (N.of_nat k + 1)) (port_name <$> tail.*1)) as Hw
    by (eapply Forall_impl; [exact H2|]; intros n (k & Hk & ->); exists k; split; [lia|done]).
  destruct (publish_mapping (i + 0) m) as [[sp pp]|] eqn:E; [|done].
  assert (port_name sp = "port-" +:+ dec_pad 4 (N.of_nat i + 1) /\ pub_service_port pp = port_name sp) as [Hn Hp].
  { unfold publish_mapping in E. rewrite Nat.add_0_r in E.
    destruct (split ":" m) as [|host [|container [|x rest]]]; try done.
    destruct (parse_u16 host) as [hp|]; [|done]. destruct (parse_u16 container) as [cp|]; [|done].
    cbn [base.mbind option_bind] in E. injection E as <- <-. by split. }
  rewrite !fmap_cons. cbn [fst snd]. split_and!.
  - by rewrite Hp, H1.
  - constructor; [|done]. exists i. by split.
  - constructor; [|done]. rewrite Forall_forall in H2. intros (k & Hk & Heq)%H2. rewrite Hn in Heq.
    apply (inj (String.append "port-")) in Heq. apply (inj (dec_pad 4)) in Heq. lia.
Qed.
Lemma dec_pad_digits w n : all_chars is_ascii_digit (dec_pad w n) = true.
Proof.
  unfold dec_pad. generalize (N.to_uint n) as d. intros d. generalize (w - Decimal.nb_digits d) as k. intros k.
  assert (forall d, all_chars is_ascii_digit (DecimalString.NilEmpty.string_of_uint d) = true) as H by (induction d0; simpl; rewrite ?IHd0; done).
  apply H.
Qed.
Lemma port_name_not_blank n : ~ blank ("port-" +:+ dec_pad 4 n).
Proof.
  unfold blank. assert (all_chars plain ("port-" +:+ dec_pad 4 n) = true) as Hp; [|by rewrite trim_plain_all].
  rewrite all_chars_app. cbn [all_chars]. apply andb_true_iff. split; [done|].
  eapply all_chars_impl; [|apply dec_pad_digits]. intros c Hc. by apply digit_plain.
Qed.
Lemma built_spec_wf args : ~ blank (service_name_of args) -> service_wf (build_service_spec args).
Proof.
  intros Hn. destruct (published_names (ssa_publish args) 0) as (H1 & H2 & H3).
  split; cbn [ss_name ss_placement ss_service_ports ss_publish ss_routes ss_readiness ss_rollout build_service_spec]; try done.
  - apply Forall_forall. intros p Hp. rewrite Forall_forall in H2.
    destruct (H2 (port_name p)) as (k & _ & ->); [by apply list_elem_of_fmap_2|]. apply port_name_not_blank.
  - apply Forall_forall. intros p Hp. unfold port_names. cbn [ss_service_ports build_service_spec].
    change (port_name <$> (published_ports (ssa_publish args)).*1 = pub_service_port <$> (published_ports (ssa_publish args)).*2) in H1.
    rewrite H1. by apply list_elem_of_fmap_2.
Qed.

(** ** Deploying one service leaves the others alone *)

(** Replacing the service of that name, or adding it. *)
Definition replaced (m : DeployManifest) (spec : ServiceSpec) (m' : DeployManifest) : Prop :=
  mf_namespace m' = mf_namespace m /\
  (forall s, s ∈ mf_services m' <-> s = spec \/ (s ∈ mf_services m /\ ss_name s <> ss_name spec)) /\
  NoDup (ss_name <$> mf_services m') /\ StronglySorted (cmp_le spec_cmp) (mf_services m').

Lemma insert_perm_split {A} (l : list A) i x y : l !! i = Some x -> exists l', l ≡ₚ x :: l' /\ <[i := y]> l ≡ₚ y :: l'.
Proof.
  intros Hi. destruct (list_elem_of_split_length l i x Hi) as (l1 & l2 & -> & ->). exists (l1 ++ l2)%list.
  split; [by rewrite Permutation_middle|]. rewrite insert_app_r_alt by lia. rewrite Nat.sub_diag. cbn. by rewrite Permutation_middle.
Qed.
Lemma upsert_replaces m spec :
  NoDup (ss_name <$> mf_services m) -> replaced m spec (upsert_service_in_manifest m spec).
Proof.
  intros Hnd. unfold upsert_service_in_manifest, replaced. cbn [mf_namespace mf_services]. set (services := match _ with Some _ => _ | None => _ end).
  assert (exists rest, services ≡ₚ spec :: rest /\ (forall s, s ∈ rest <-> s ∈ mf_services m /\ ss_name s <> ss_name spec) /\
            NoDup (ss_name <$> rest)) as (rest & Hp & Hrest & Hndr).
  { unfold services. destruct (list_find _ _) as [[i old]|] eqn:E.
    - apply list_find_Some in E as (Hi & Hname & _). destruct (insert_perm_split _ i old spec Hi) as (rest & Hm & Hins).
      exists rest. split; [done|]. rewrite Hm in Hnd. rewrite fmap_cons, NoDup_cons in Hnd. destruct Hnd as [Hno Hndr].
      split; [|done]. intros s. rewrite Hm, elem_of_cons. split.
      + intros Hs. split; [by right|]. intros E. apply Hno. rewrite Hname, <- E. by apply list_elem_of_fmap_2.
      + intros [[->|Hs] Hne]; [congruence|done].
    - apply list_find_None in E. rewrite Forall_forall in E. exists (mf_services m).
      split; [by rewrite Permutation_app_comm|]. split; [|done]. intros s. split; [|by intros [? _]]. intros Hs. split; [done|]. by apply E. }
  split; [done|]. split_and!.
  - intros s. rewrite elem_of_sort_by, Hp, elem_of_cons, Hrest. done.
  - rewrite sort_by_perm, Hp, fmap_cons, NoDup_cons. split; [|done]. intros (s & Hn & [_ Hne]%Hrest)%list_elem_of_fmap. congruence.
  - apply sort_by_sorted, _.
Qed.

Section service_deploy.
Context `{SpecCodec} (env : CliEnv) (manifest_from_json : string -> result string DeployManifest)
        (manifest_to_json pretty_manifest : DeployManifest -> result string string).

(** C29: Deploying one service changes that service and no other.  The command
    exports the namespace from the daemon, puts its service in and sends the
    whole manifest back.  Whenever the export gives well-formed services, the
    name is not blank, and JSON texts are read back as written, the request is
    built, and what the daemon decodes from it is the exported manifest with
    that service replaced or added, sorted by name, every other service as it
    was; it passes the daemon's validation whatever the other arguments were. *)
Theorem service_deploy_replaces_one (args : DeployServiceArgs) (state : DaemonState) releases revisions m text json :
  let spec := build_service_spec (service_args args) in
  let m' := upsert_service_in_manifest m spec in
  is_Some (ds_active state) ->
  export_manifest releases revisions (dsa_namespace args) = Ok m ->
  pretty_manifest m = Ok text -> manifest_from_json text = Ok m ->
  manifest_to_json m' = Ok json -> manifest_from_json json = Ok m' ->
  ce_export env (dsa_namespace args) = Ok (handle_deploy_export pretty_manifest releases revisions state (dsa_namespace args)) ->
  ~ blank (dsa_namespace args) -> ~ blank (dsa_name args) ->
  Forall service_wf (mf_services m) -> NoDup (ss_name <$> mf_services m) ->
  build_deploy_service_request env manifest_from_json manifest_to_json args =
    Ok (if dsa_dry_run args then RqDeployPreview json default_deploy_options else RqDeployApply json default_deploy_options) /\
  decode_manifest manifest_from_json json = Ok m' /\ replaced m spec m' /\ manifest_validate m' = Ok tt.
Proof.
  intros spec m' [active Ha] Hex Hpretty Hread Hjson Hread' Hanswer Hns Hname Hwf Hnd.
  pose proof (upsert_replaces m spec Hnd) as Hrep. fold m' in Hrep.
  assert (mf_namespace m = dsa_namespace args) as Hmns.
  { unfold export_manifest in Hex. apply rbind_Ok in Hex as (rs & _ & Hex). apply rbind_Ok in Hex as (vs & _ & Hex).
    apply rbind_Ok in Hex as (ss & _ & [= <-]). done. }
  assert (spec ∈ mf_services m') as Hin by (destruct Hrep as (_ & Hs & _); apply Hs; by left).
  split_and!; [| |done|].
  - unfold build_deploy_service_request, export_namespace_manifest, client_deploy_export_manifest, encode_manifest_json.
    rewrite Hanswer. unfold handle_deploy_export. rewrite Ha, Hex. cbn [deploy_answer]. rewrite Hpretty. cbn. rewrite Hread. cbn.
    fold spec. fold m'. by rewrite Hjson.
  - clearbody m'. unfold decode_manifest. rewrite Hread'. cbn. destruct (mf_services m'); [by apply elem_of_nil in Hin|done].
  - destruct Hrep as (Hmns' & Hs & Hnd' & _). apply manifest_validate_ok_iff. split.
    + by rewrite Hmns', Hmns.
    + intros E. rewrite E in Hin. by apply elem_of_nil in Hin.
    + done.
    + apply Forall_forall. intros s [->|[Hm _]]%Hs; [by apply built_spec_wf|]. rewrite Forall_forall in Hwf. by apply Hwf.
Qed.
End service_deploy.

(** ** Witness *)

Definition api_args : DeployServiceArgs := {|
  dsa_name := "api"; dsa_image := "ghcr.io/acme/api:2"; dsa_namespace := "prod"; dsa_publish := ["8080:80"; "oops"; "8443:443"];
  dsa_env := ["MODE=prod"; "EMPTY"]; dsa_volume := ["/srv:/data:ro"]; dsa_network := "overlay"; dsa_pull := true;
  dsa_restart := "always"; dsa_dry_run := false; dsa_command := [] |}.
Definition api_manifest : DeployManifest :=
  upsert_service_in_manifest sample_manifest (build_service_spec (service_args api_args)).
(** Texts that name the two manifests of the example. *)
Definition example_from_json (s : string) : result string DeployManifest :=
  if String.eqb s "before" then Ok sample_manifest else if String.eqb s "after" then Ok api_manifest else Err "no such text".
Definition example_releases : Res (list ServiceReleaseRecord) := Ok [sample_release].
Definition example_export (namespace : string) : DaemonResponse :=
  @handle_deploy_export web_codec (fun _ => Ok "before") example_releases (Ok [web_revision]) sample_state namespace.
Definition example_env : CliEnv :=
  {| ce_stdin := StdinText ""; ce_file _ := Err "no file"; ce_export namespace := Ok (example_export namespace) |}.
Lemma service_deploy_replaces_one_witness :
  build_deploy_service_request example_env example_from_json (fun _ => Ok "after") api_args =
    Ok (RqDeployApply "after" default_deploy_options) /\
  ss_name <$> mf_services api_manifest = ["api"; "web"] /\ manifest_validate api_manifest = Ok tt.
Proof.
  destruct (@service_deploy_replaces_one web_codec example_env example_from_json (fun _ => Ok "after") (fun _ => Ok "before")
    api_args sample_state example_releases (Ok [web_revision]) sample_manifest "before" "after") as (Hreq & _ & _ & Hval);
    [by eexists|vm_compute; reflexivity|reflexivity|reflexivity|reflexivity|reflexivity|reflexivity|done|done| | |].
  - constructor; [|constructor]. by apply service_validate_iff.
  - apply (bool_decide_unpack _). vm_compute. exact I.
  - split; [exact Hreq|]. split; [vm_compute; reflexivity|exact Hval].
Defined.
